(* ===== verification/_CoqProject ===== *)
-Q . S2P
Prelude.v
Platform.v
Types.v
Misc.v
CryptoCb.v
WcPort.v
Sha256.v
Hmac.v
Hash.v
Kdf.v
AesTables.v
Aes.v
AesCbc.v
Gcm.v
Drbg.v
Rng.v
SpInt.v
SpArith.v
SpShift.v
SpMul.v
SpDiv.v
SpMod.v
SpMont.v
SpExp.v
Ecc.v
EccKeys.v
EccPoint.v
Hpke.v
Rfc9180.v
HpkeCore.v
Jni.v
Coding.v
BidiTable.v
ContactOrigin.v
