(* ===== verification/Prelude.v ===== *)
(** * ZROtext native code: verification library

    The repository's C and C++ code has two programs.  The Android gateway's native
    library (src/android/app/src/main/cpp) opens and seals HPKE messages of RFC
    9180 without ever holding a private key: a vendored subset of wolfCrypt, built
    with user_settings.h so that elliptic-curve operations exist only as a crypto
    callback, is driven by zrotext_hpke_core.c, whose callback asks the host for
    the key agreement; zrotext_hpke_jni.c and zrotext_hpke_sender_jni.c connect
    that to Java, where the Android key store answers.  The second program,
    src/sdk/native/crypto-envelope/contact-origin, decides which strings are
    acceptable origins of contacts.

    ** Files

    - Prelude: byte strings, integers, lemmas and tactics shared by all files.
    - Platform: error codes (error-crypt.h); heap, system calls and Java virtual
      machine as parameters ([env]); the state the native code keeps between calls
      ([world]: the statics of cryptocb.c, wc_port.c, zrotext_hpke_core.c and
      zrotext_hpke_jni.c, the number of live heap blocks, the log of JNI calls);
      the monad [M] and its program logic.
    - Types, Misc, CryptoCb, WcPort: structures, misc.c, the device table and
      dispatch of cryptocb.c, start-up and shut-down of wc_port.c.
    - Sha256, Hmac, Hash, Kdf, AesTables, Aes, AesCbc, Gcm: sha256.c, hmac.c, the
      front end of hash.c, kdf.c and the block cipher, CBC and GCM of aes.c, each with its standard as a reference
      definition.
    - Drbg, Rng: random.c, from Hash_DRBG to the generator object.
    - SpInt, SpArith, SpShift, SpMul, SpDiv, SpMod, SpMont, SpExp: sp_int.c, from the
      representation of numbers and their conversions over sums, shifts, products
      and division to modular inverses, Montgomery reduction and exponentiation.
    - Ecc, EccKeys, EccPoint: the curve table, key objects and points of ecc.c.
    - Coding: Base64 and UTF-8 of coding.c.
    - Hpke, Rfc9180: hpke.c, and the proof that it is RFC 9180.
    - HpkeCore: zrotext_hpke_core.c.  Jni: the two adapters.
    - BidiTable, ContactOrigin: contact_bidi16.h and contact_origin.cpp.

    ** How the code is translated

    A byte buffer is a list of integers below 256, a machine word an integer with
    its wrap-around written out ([w32], [w16]), a pointer that may be NULL an
    [option].  A function that writes through a pointer returns the new contents.
    Code that allocates, calls out or addresses buffers by computed offsets lives
    in [M]: an access out of bounds or a [free] without a block is [Fault].
    Function pointers in the device table are names, resolved by the class
    [Callbacks]; zrotext_hpke_core.c provides its instance.  Every definition that
    translates code is preceded by the file and the lines it comes from.

    A result that the C code may put into the object of an argument is a separate
    object here where the code has read the argument by then; where the code asks
    whether two pointers are the same, the definition has a flag for it ([r_is_m],
    [rem_is_d] and the like).  A number is the record of its digits; [sp_box n a]
    says that [a] has room for [n] digits and [sp_is n v a] that it holds [v].
    Memory the code declares without setting it starts as zeros; the lemmas about
    numbers hold for any digits above those in use.

    [wp m Q w] says that [m] run in the world [w] does not fault and ends in [Q];
    [calc_in x e d m Q] that a calculation does not fault, answers in [Q], gives
    back [d] heap blocks, and changes nothing else ([frame]); the mode [x] says
    whether it may call out and which devices it may rely on.  Failures of the
    heap, the random device and the virtual machine are all covered: allocations
    fail as [e_alloc] says, system calls and JNI calls answer as [e_os] and [e_jvm]
    say.  Zeroing of memory that is dead afterwards (ForceZero of locals) has no
    observable effect in the model; zeroing of buffers a caller can see is kept.

    ** What is proved

    - Primitives: SHA-256 is FIPS 180-4, HMAC and HKDF are RFC 2104 and RFC 5869,
      the table-driven AES is FIPS 197, AES-GCM is SP 800-38D with a round trip,
      Hash_DRBG is SP 800-90A, for all inputs and every way of feeding them; CBC
      decryption undoes encryption; the key derivations of TLS 1.2 and 1.3 are RFC
      5246 and RFC 8446; both Base64 decoders accept the same texts, exactly those
      of the grammar, and the UTF-8 decoder exactly the encodings.
    - Numbers: the operations of sp_int.c compute the integers they stand for, stay
      inside their objects, free what they take, and end; so for division with
      remainder, inverses, Montgomery reduction and all paths of exponentiation.
    - Keys and points: key objects stay well-formed under any operations on any
      bytes; the curve test is the curve's equation.
    - Services: the device table is a finite map of bounded size; wolfCrypt_Init
      and wolfCrypt_Cleanup count references, no interleaving of threads lets two of
      them initialise or clean up at once, and under fair scheduling every call
      returns; the seed tests reject exactly the
      seeds they are meant to; a generator draws the standard's bytes or reports an
      error, and leaks nothing; key import and export are inverse.
    - HPKE: seal and open contexts exchange streams of messages as RFC 9180
      prescribes and stop before the sequence number wraps.
    - Core: zt_hpke_open and zt_hpke_seal_cek compute RFC 9180 for the secret the
      bridge gave, refuse arguments outside the profile, clear outputs on failure,
      keep the registration invariant; a wrapped key is unwrapped to itself;
      without a device every key agreement fails closed.
    - Adapters: nativeOpen and nativeSeal give Java the plaintext or ciphertext of
      RFC 9180 or NULL, release what they pin, give secrets back as zeros and leave
      the library in service, from loading to unloading.
    - Contact origins: the table search finds the right range, the host check is
      the Bidi rule of RFC 5893, and the entry point accepts each origin in exactly
      one spelling.

    The known-answer vectors of RFC 9180 (A.3) are evaluated on the definitions,
    and a device, an entropy source and a virtual machine are given that satisfy
    every hypothesis of the theorems.

    ** Loops and fuel

    Loops that the C code writes over a counter carry a fuel that bounds their
    turns: the number of input bytes or blocks (Sha256, Gcm, Drbg), 255 blocks in
    HKDF (the code's own limit), the digits of a number (SpInt and the files after
    it), the length of the table or of the host plus one (ContactOrigin).  Four
    loops end for a reason of their own: a digit of a quotient is corrected at most
    twice (fuel 3 in [trial_loop]), the inverse takes at most two turns for each bit
    of its arguments ([invmod_loop]), the window of the base-two exponentiation moves
    down the exponent (at most eight turns for each digit, [exp2_loop]), and the last
    subtractions of the curve test are never needed ([sub_while]).  The specifications
    hold for every input they admit, so the fuel always suffices.  The
    compare-exchange loop of wc_port.c has one turn for a single thread
    ([spin_fuel]); with several threads each turn is a step of the relation in WcPort.

    ** What is not modelled

    asn.c, which is compiled with the library but which no entry point reaches, and
    error.c and logging.c, tables of messages and logging.  Of the other
    files what is left out is likewise compiled and unused: GMAC and the keys by
    name of aes.c; the lookups by name, the points without a key and the signatures
    of ecc.c (their arithmetic is switched off); the primality tests, the decimal
    and radix output, the exponentiation for public exponents and the inverse in
    Montgomery form of sp_int.c; string and file helpers of wc_port.c.  Side
    channels and the compiler are outside the model.
    The virtual machine, the system, the heap, the Kotlin object that answers the
    key agreement, and the Ada URL parser are parameters with stated contracts.
    The rest of the repository is not C. *)

From Stdlib Require Export ZArith Lia Btauto.
From stdpp Require Export base tactics option list numbers.

#[global] Open Scope Z_scope.

Declare Scope zr_scope.
Delimit Scope zr_scope with zr.
#[global] Open Scope zr_scope.

#[global] Arguments Nat.mul : simpl never.

(** ** Byte strings as the code sees them: lists of 8-bit integers *)

Abbreviation bytes := (list Z).

(** Length of a buffer, as the unsigned quantity the code computes with. *)
Definition len {A} (l : list A) : Z := Z.of_nat (length l).

(** [n] elements of [l] from index [off]. *)
Definition sub {A} (l : list A) (off n : Z) : list A :=
  take (Z.to_nat n) (drop (Z.to_nat off) l).

(** [l] with the elements from index [off] on overwritten by [src]. *)
Definition splice {A} (l : list A) (off : Z) (src : list A) : list A :=
  take (Z.to_nat off) l ++ src ++ drop (Z.to_nat off + length src) l.

Definition zeros (n : Z) : bytes := replicate (Z.to_nat n) 0.

#[global] Arguments sub : simpl never.
#[global] Arguments splice : simpl never.
#[global] Arguments zeros : simpl never.

Definition byte_ok (b : Z) : bool := (0 <=? b) && (b <? 256).
Definition bytes_ok (l : bytes) : Prop := Forall (fun b => 0 <= b < 256) l.

(** Consecutive groups of [n] elements, [k] of them. *)
Fixpoint group {A} (n k : nat) (l : list A) : list (list A) :=
  match k with
  | O => []
  | S k => take n l :: group n k (drop n l)
  end.

(** ** Integers at their width *)

Definition w8 (x : Z) : Z := Z.land x 0xff.
Definition w16 (x : Z) : Z := Z.land x 0xffff.
Definition w32 (x : Z) : Z := Z.land x 0xffffffff.
Definition w64 (x : Z) : Z := Z.land x 0xffffffffffffffff.

(** Two's complement reading of a 32-bit word, the value of a C [int]. *)
Definition s32 (x : Z) : Z := let y := w32 x in if y <? 0x80000000 then y else y - 0x100000000.

(** Little-endian and big-endian readings of a byte string, and their inverses
    of [n] bytes. *)
Fixpoint le_combine (l : bytes) : Z :=
  match l with
  | [] => 0
  | b :: t => Z.lor b (Z.shiftl (le_combine t) 8)
  end.

Fixpoint le_split (n : nat) (w : Z) : bytes :=
  match n with
  | O => []
  | S n => w8 w :: le_split n (Z.shiftr w 8)
  end.

Definition be_combine (l : bytes) : Z := le_combine (rev l).
Definition be_split (n : nat) (w : Z) : bytes := rev (le_split n w).

(** Byte-wise exclusive or of two strings. *)
Definition xorb_list (a b : bytes) : bytes := zip_with Z.lxor a b.

Notation "a ⊕ b" := (Z.lxor a b) (at level 45, left associativity) : zr_scope.

(** ** Hint databases and tactics *)

Create HintDb lens.
Create HintDb bits.
Create HintDb wf.

Ltac inv H := inversion H; subst; clear H.

(** Case analysis on every boolean test of the goal and the hypotheses. *)
Ltac bool_to_prop :=
  repeat match goal with
  | H : _ && _ = true |- _ => apply andb_true_iff in H; destruct H
  | H : _ || _ = false |- _ => apply orb_false_iff in H; destruct H
  | H : negb _ = true |- _ => apply negb_true_iff in H
  | H : negb _ = false |- _ => apply negb_false_iff in H
  | H : (_ =? _) = true |- _ => apply Z.eqb_eq in H
  | H : (_ =? _) = false |- _ => apply Z.eqb_neq in H
  | H : (_ <? _) = true |- _ => apply Z.ltb_lt in H
  | H : (_ <? _) = false |- _ => apply Z.ltb_ge in H
  | H : (_ <=? _) = true |- _ => apply Z.leb_le in H
  | H : (_ <=? _) = false |- _ => apply Z.leb_gt in H
  end.

(** The bounds of the elements of an explicit byte string. *)
Ltac split_bytes :=
  repeat match goal with
  | H : bytes_ok (_ :: _) |- _ => apply Forall_cons_1 in H; destruct H
  | H : Forall _ (_ :: _) |- _ => apply Forall_cons_1 in H; destruct H
  | H : bytes_ok [] |- _ => clear H
  | H : Forall _ [] |- _ => clear H
  end.

(** An explicit string of bounded elements is a byte string. *)
Ltac solve_bytes := repeat apply Forall_cons_2; first [apply Forall_nil_2|lia|assumption].

(** ** Lemmas on lengths and slices *)

Section Slices.
Context {A : Type}.
Implicit Types l src : list A.

Lemma len_nil : len (@nil A) = 0.
Proof. done. Qed.

Lemma len_cons x l : len (x :: l) = 1 + len l.
Proof. unfold len; simpl; lia. Qed.

Lemma len_app l1 l2 : len (l1 ++ l2) = len l1 + len l2.
Proof. unfold len; rewrite length_app; lia. Qed.

Lemma len_nonneg l : 0 <= len l.
Proof. unfold len; lia. Qed.

Lemma len_sub l off n : 0 <= off -> 0 <= n -> off + n <= len l -> len (sub l off n) = n.
Proof. unfold len, sub; rewrite length_take, length_drop; lia. Qed.

Lemma len_splice l off src :
  0 <= off -> off + len src <= len l -> len (splice l off src) = len l.
Proof.
  unfold len, splice; rewrite !length_app, length_take, length_drop; lia.
Qed.

Lemma length_splice l off src :
  0 <= off -> off + len src <= len l -> length (splice l off src) = length l.
Proof. intros H1 H2. pose proof (len_splice l off src H1 H2) as H. unfold len in H. lia. Qed.

Lemma sub_all l n : n = len l -> sub l 0 n = l.
Proof. intros ->; unfold sub, len; rewrite drop_0, take_ge; [done|lia]. Qed.

Lemma sub_app_l l1 l2 n : n = len l1 -> sub (l1 ++ l2) 0 n = l1.
Proof. intros ->; unfold sub, len; rewrite drop_0, Nat2Z.id. apply take_app_length. Qed.

Lemma sub_app_r l1 l2 off n :
  off = len l1 -> n = len l2 -> sub (l1 ++ l2) off n = l2.
Proof.
  intros -> ->; unfold sub, len; rewrite !Nat2Z.id, drop_app_length, take_ge; [done|lia].
Qed.

(** Overwriting at the boundary of a known prefix. *)
(** Adjacent slices. *)
Lemma sub_split l off n m : 0 <= off -> 0 <= n -> 0 <= m ->
  sub l off n ++ sub l (off + n) m = sub l off (n + m).
Proof.
  intros H1 H2 H3. unfold sub. replace (Z.to_nat (off + n)) with (Z.to_nat off + Z.to_nat n)%nat by lia.
  rewrite <-drop_drop. rewrite Z2Nat.inj_add by lia. symmetry.
  rewrite <-(take_drop (Z.to_nat n) (take _ _)) at 1. rewrite take_take, skipn_firstn_comm.
  do 2 f_equal; lia.
Qed.

Lemma splice_app l1 l2 l3 src off :
  off = len l1 -> len src = len l2 -> splice (l1 ++ l2 ++ l3) off src = l1 ++ src ++ l3.
Proof.
  unfold splice, len; intros -> H; rewrite Nat2Z.id, take_app_length.
  assert (length src = length l2) as -> by lia.
  rewrite (app_assoc l1 l2), drop_app_length' by (rewrite length_app; lia). done.
Qed.

Lemma group_app n k1 k2 l1 l2 :
  length l1 = (n * k1)%nat -> group n (k1 + k2) (l1 ++ l2) = group n k1 l1 ++ group n k2 l2.
Proof.
  revert l1; induction k1 as [|k1 IH]; intros l1 H; simpl.
  - destruct l1; [done|simpl in H; lia].
  - rewrite take_app_le, drop_app_le by lia. rewrite IH by (rewrite length_drop; lia). done.
Qed.

Lemma group_take n k l m :
  (n * k <= m)%nat -> group n k (take m l) = group n k l.
Proof.
  revert l m; induction k as [|k IH]; intros l m H; simpl; [done|].
  rewrite take_take.
  replace (n `min` m)%nat with n by lia. f_equal.
  rewrite <-(IH (drop n l) (m - n)%nat) by lia. f_equal.
  by rewrite take_drop_commute; replace (n + (m - n))%nat with m by lia.
Qed.
End Slices.

Lemma splice_full {A} (l src : list A) : length l = length src -> splice l 0 src = src.
Proof.
  intros H. unfold splice. simpl. by rewrite drop_ge, app_nil_r by (simpl; lia).
Qed.

(** A test of every integer below [n]. *)
Definition below (n : nat) (P : Z -> bool) : bool := forallb (fun k => P (Z.of_nat k)) (seq 0 n).

Lemma below_spec n P : below n P = true -> forall x, 0 <= x < Z.of_nat n -> P x = true.
Proof.
  intros H x Hx. unfold below in H. rewrite forallb_forall in H.
  rewrite <-(Z2Nat.id x) by lia. apply H, in_seq. lia.
Qed.

Lemma splice_nil {A} (l : list A) off : splice l off [] = l.
Proof. unfold splice. cbn [app length]. rewrite Nat.add_0_r. apply take_drop. Qed.

Lemma take_splice {A} (l : list A) off src :
  0 <= off -> off + len src <= len l ->
  take (Z.to_nat (off + len src)) (splice l off src) = take (Z.to_nat off) l ++ src.
Proof.
  intros H1 H2. unfold splice, len in *. rewrite app_assoc, take_app_length'; [done|].
  rewrite length_app, length_take. lia.
Qed.

Lemma splice_splice {A} (l a b : list A) off :
  0 <= off -> off + len a + len b <= len l ->
  splice (splice l off a) (off + len a) b = splice l off (a ++ b).
Proof.
  intros Ho Hle. unfold splice, len in *.
  rewrite (app_assoc (take _ l)). rewrite take_app_length' by (rewrite length_app, length_take; lia).
  rewrite <-!app_assoc. do 3 f_equal.
  rewrite app_assoc, drop_app_ge, drop_drop by (rewrite !length_app, length_take; lia). f_equal.
  rewrite !length_app, length_take. lia.
Qed.

Lemma splice_again {A} (l a b : list A) off :
  0 <= off -> off + len a <= len l -> len a = len b -> splice (splice l off a) off b = splice l off b.
Proof.
  intros Ho Hle Hab. unfold splice, len in *. rewrite take_app_length' by (rewrite length_take; lia). do 2 f_equal.
  rewrite app_assoc, drop_app_length' by (rewrite length_app, length_take; lia). f_equal. lia.
Qed.

Lemma splice_splice_app {A} (l a b : list A) :
  len a + len b <= len l -> splice (splice l 0 a) (len a) b = splice l 0 (a ++ b).
Proof. intros. apply (splice_splice l a b 0); lia. Qed.

Lemma take_spliced {A} (l src : list A) : len src <= len l -> take (Z.to_nat (len src)) (splice l 0 src) = src.
Proof. intros H. by apply (take_splice l 0 src). Qed.

Lemma len_0_nil {A} (l : list A) : len l = 0 -> l = [].
Proof. by destruct l. Qed.

Lemma len_zeros n : 0 <= n -> len (zeros n) = n.
Proof. unfold len, zeros; rewrite length_replicate; lia. Qed.

Lemma zeros_app a b : 0 <= a -> 0 <= b -> zeros a ++ zeros b = zeros (a + b).
Proof. intros. unfold zeros. by rewrite Z2Nat.inj_add, replicate_add by lia. Qed.

Lemma len_xorb a b : len a = len b -> len (xorb_list a b) = len a.
Proof. unfold len, xorb_list; rewrite length_zip_with; lia. Qed.

#[export] Hint Rewrite @len_nil @len_cons @len_app : lens.

Lemma app_shift {A} (pre : list A) c l : pre ++ c :: l = (pre ++ [c]) ++ l.
Proof. by rewrite <-app_assoc. Qed.

Lemma len_snoc {A} (pre : list A) c : len pre + 1 = len (pre ++ [c]).
Proof. by autorewrite with lens. Qed.
#[export] Hint Rewrite len_zeros @len_sub @len_splice using (autorewrite with lens; lia) : lens.

Ltac lens := autorewrite with lens in *; try lia.

(** ** Bit-level reasoning *)

Lemma testbit_above n x i : 0 <= x < 2 ^ n -> 0 <= n -> n <= i -> Z.testbit x i = false.
Proof.
  intros Hx Hn Hi. rewrite <-(Z.mod_small x (2 ^ n)) by done. by apply Z.mod_pow2_bits_high.
Qed.

Lemma bits_inj_bounded n x y :
  0 <= n -> 0 <= x < 2 ^ n -> 0 <= y < 2 ^ n ->
  (forall i, 0 <= i < n -> Z.testbit x i = Z.testbit y i) -> x = y.
Proof.
  intros Hn Hx Hy H. apply Z.bits_inj'; intros i Hi.
  destruct (decide (i < n)); [auto with lia|].
  by rewrite !(testbit_above n) by lia.
Qed.

Lemma ones_land n x : 0 <= n -> Z.land x (Z.ones n) = x mod 2 ^ n.
Proof. intros; by apply Z.land_ones. Qed.

Lemma w8_mod x : w8 x = x mod 2 ^ 8.
Proof. change (w8 x) with (Z.land x (Z.ones 8)). by apply Z.land_ones. Qed.
Lemma w16_mod x : w16 x = x mod 2 ^ 16.
Proof. change (w16 x) with (Z.land x (Z.ones 16)). by apply Z.land_ones. Qed.
Lemma w32_mod x : w32 x = x mod 2 ^ 32.
Proof. change (w32 x) with (Z.land x (Z.ones 32)). by apply Z.land_ones. Qed.
Lemma w64_mod x : w64 x = x mod 2 ^ 64.
Proof. change (w64 x) with (Z.land x (Z.ones 64)). by apply Z.land_ones. Qed.

Lemma w8_range x : 0 <= w8 x < 256.
Proof. rewrite w8_mod; apply Z.mod_pos_bound; lia. Qed.
Lemma w16_range x : 0 <= w16 x < 2 ^ 16.
Proof. rewrite w16_mod; apply Z.mod_pos_bound; lia. Qed.
Lemma w32_range x : 0 <= w32 x < 2 ^ 32.
Proof. rewrite w32_mod; apply Z.mod_pos_bound; lia. Qed.
Lemma w64_range x : 0 <= w64 x < 2 ^ 64.
Proof. rewrite w64_mod; apply Z.mod_pos_bound; lia. Qed.

Lemma w8_id x : 0 <= x < 256 -> w8 x = x.
Proof. intros; rewrite w8_mod; by apply Z.mod_small. Qed.
Lemma w16_id x : 0 <= x < 2 ^ 16 -> w16 x = x.
Proof. intros; rewrite w16_mod; by apply Z.mod_small. Qed.
Lemma w32_id x : 0 <= x < 2 ^ 32 -> w32 x = x.
Proof. intros; rewrite w32_mod; by apply Z.mod_small. Qed.
Lemma w64_id x : 0 <= x < 2 ^ 64 -> w64 x = x.
Proof. intros; rewrite w64_mod; by apply Z.mod_small. Qed.

Lemma s32_id x : 0 <= x < 2 ^ 31 -> s32 x = x.
Proof. intros H. unfold s32. rewrite w32_id by lia. cbv zeta. by rewrite (proj2 (Z.ltb_lt _ _)) by lia. Qed.

Lemma testbit_mask n x i :
  0 <= n -> Z.testbit (Z.land x (Z.ones n)) i = (i <? n) && Z.testbit x i.
Proof.
  intros Hn. rewrite Z.land_spec. destruct (Z.ltb_spec i n).
  - destruct (decide (0 <= i)); [rewrite Z.ones_spec_low by lia; btauto|].
    rewrite !(Z.testbit_neg_r _ i) by lia; done.
  - rewrite Z.ones_spec_high by lia; btauto.
Qed.

Lemma testbit_w8 x i : Z.testbit (w8 x) i = (i <? 8) && Z.testbit x i.
Proof. by apply (testbit_mask 8). Qed.
Lemma testbit_w32 x i : Z.testbit (w32 x) i = (i <? 32) && Z.testbit x i.
Proof. by apply (testbit_mask 32). Qed.
Lemma testbit_w64 x i : Z.testbit (w64 x) i = (i <? 64) && Z.testbit x i.
Proof. by apply (testbit_mask 64). Qed.

#[export] Hint Rewrite Z.lxor_spec Z.land_spec Z.lor_spec Z.testbit_0_l
  testbit_w8 testbit_w32 testbit_w64 : bits.
#[export] Hint Rewrite Z.shiftl_spec Z.shiftr_spec using lia : bits.

(** The same equations at any position, for positions found by computation. *)
Lemma shiftl_spec_any a n i : Z.testbit (Z.shiftl a n) i = negb (i <? 0) && Z.testbit a (i - n).
Proof.
  destruct (Z.ltb_spec i 0); [by rewrite Z.testbit_neg_r by lia|by rewrite Z.shiftl_spec by lia].
Qed.

Lemma shiftr_spec_any a n i : Z.testbit (Z.shiftr a n) i = negb (i <? 0) && Z.testbit a (i + n).
Proof.
  destruct (Z.ltb_spec i 0); [by rewrite Z.testbit_neg_r by lia|by rewrite Z.shiftr_spec by lia].
Qed.

Create HintDb anybits.
#[export] Hint Rewrite Z.lxor_spec Z.land_spec Z.lor_spec Z.testbit_0_l
  testbit_w8 testbit_w32 testbit_w64 shiftl_spec_any shiftr_spec_any : anybits.

(** A statement about the positions below [n], by checking each of them. *)
Lemma below_forall (n : nat) (P : Z -> Prop) :
  Forall P (map Z.of_nat (seq 0 n)) -> forall i, 0 <= i < Z.of_nat n -> P i.
Proof.
  intros H i Hi. rewrite Forall_forall in H. rewrite <-(Z2Nat.id i) by lia.
  apply H. apply in_map, in_seq. lia.
Qed.

(** The bitwise operations keep a word inside its width. *)
Lemma lbound_iff n x : 0 <= n -> 0 <= x -> x < 2 ^ n <-> forall i, n <= i -> Z.testbit x i = false.
Proof.
  intros Hn Hx. split.
  - intros Hlt i Hi. by apply (testbit_above n).
  - intros Hb. destruct (decide (x = 0)) as [->|]; [lia|].
    apply Z.log2_lt_pow2; [lia|]. destruct (decide (Z.log2 x < n)); [done|].
    pose proof (Hb (Z.log2 x) ltac:(lia)) as Hf. rewrite Z.bit_log2 in Hf by lia. done.
Qed.

Lemma lxor_bound n x y : 0 <= n -> 0 <= x < 2 ^ n -> 0 <= y < 2 ^ n -> 0 <= Z.lxor x y < 2 ^ n.
Proof.
  intros Hn Hx Hy. assert (0 <= Z.lxor x y) by (apply Z.lxor_nonneg; lia). split; [done|].
  apply lbound_iff; [done..|]. intros i Hi. rewrite Z.lxor_spec, !(testbit_above n) by lia. done.
Qed.

Lemma lor_bound n x y : 0 <= n -> 0 <= x < 2 ^ n -> 0 <= y < 2 ^ n -> 0 <= Z.lor x y < 2 ^ n.
Proof.
  intros Hn Hx Hy. assert (0 <= Z.lor x y) by (apply Z.lor_nonneg; lia). split; [done|].
  apply lbound_iff; [done..|]. intros i Hi. rewrite Z.lor_spec, !(testbit_above n) by lia. done.
Qed.

Lemma lor_shift_add d c s : 0 <= s -> 0 <= d < 2 ^ s -> 0 <= c -> Z.lor d (Z.shiftl c s) = d + 2 ^ s * c.
Proof.
  intros Hs Hd Hc. rewrite Z.shiftl_mul_pow2, Z.mul_comm by done. rewrite <-Z.add_nocarry_lor; [done|].
  apply Z.bits_inj'. intros i Hi. rewrite Z.land_spec, Z.testbit_0_l, (Z.mul_comm (2 ^ s)), Z.mul_pow2_bits by done.
  destruct (Z.ltb_spec i s); [by rewrite (Z.testbit_neg_r c), andb_false_r by lia|].
  rewrite <-(Z.mod_small d (2 ^ s)), Z.mod_pow2_bits_high by lia. done.
Qed.

Lemma land_bound_l n x y : 0 <= n -> 0 <= x < 2 ^ n -> 0 <= Z.land x y < 2 ^ n.
Proof.
  intros Hn Hx. assert (0 <= Z.land x y) by (apply Z.land_nonneg; lia). split; [done|].
  apply lbound_iff; [done..|]. intros i Hi. rewrite Z.land_spec, (testbit_above n x) by lia. done.
Qed.

Lemma land_bound_r n x y : 0 <= n -> 0 <= y < 2 ^ n -> 0 <= Z.land x y < 2 ^ n.
Proof. rewrite Z.land_comm; apply land_bound_l. Qed.

Lemma shiftr_bound n x k : 0 <= k -> 0 <= x < 2 ^ n -> 0 <= Z.shiftr x k < 2 ^ n.
Proof.
  intros Hk Hx. rewrite Z.shiftr_div_pow2 by done.
  assert (0 < 2 ^ k) by (by apply Z.pow_pos_nonneg).
  split; [apply Z.div_pos; lia|]. apply Z.le_lt_trans with x; [|lia]. apply Z.div_le_upper_bound; nia.
Qed.

(** ** Byte strings and integers *)

Lemma bytes_ok_app a b : bytes_ok (a ++ b) <-> bytes_ok a /\ bytes_ok b.
Proof. apply Forall_app. Qed.

Lemma bytes_ok_take n l : bytes_ok l -> bytes_ok (take n l).
Proof. apply Forall_take. Qed.
Lemma bytes_ok_drop n l : bytes_ok l -> bytes_ok (drop n l).
Proof. apply Forall_drop. Qed.
Lemma bytes_ok_sub l off n : bytes_ok l -> bytes_ok (sub l off n).
Proof. intros; by apply bytes_ok_take, bytes_ok_drop. Qed.
Lemma bytes_ok_zeros n : bytes_ok (zeros n).
Proof. apply Forall_replicate; lia. Qed.
Lemma bytes_ok_splice l off src : bytes_ok l -> bytes_ok src -> bytes_ok (splice l off src).
Proof.
  intros; unfold splice; rewrite !bytes_ok_app; eauto using bytes_ok_take, bytes_ok_drop.
Qed.
Lemma bytes_ok_rev l : bytes_ok l -> bytes_ok (rev l).
Proof. intros; by apply Forall_rev. Qed.

Lemma bytes_ok_xorb a b : bytes_ok a -> bytes_ok b -> bytes_ok (xorb_list a b).
Proof.
  intros Ha; revert b; induction Ha as [|x a Hx Ha IH]; intros [|y b] Hb; try by constructor.
  inv Hb. constructor; [by apply (lxor_bound 8)|by apply IH].
Qed.

#[export] Hint Resolve bytes_ok_take bytes_ok_drop bytes_ok_sub bytes_ok_zeros bytes_ok_splice
  bytes_ok_rev bytes_ok_xorb : wf.
#[export] Hint Resolve <- bytes_ok_app : wf.

Lemma le_combine_range l : bytes_ok l -> 0 <= le_combine l < 2 ^ (8 * len l).
Proof.
  induction 1 as [|b l Hb Hl IH]; [done|]. rewrite len_cons. cbn [le_combine].
  replace (8 * (1 + len l)) with (8 * len l + 8) by lia.
  rewrite Z.pow_add_r by (pose proof (len_nonneg l); lia).
  assert (0 < 2 ^ (8 * len l)) by (apply Z.pow_pos_nonneg; pose proof (len_nonneg l); lia).
  rewrite <-Z.pow_add_r by (pose proof (len_nonneg l); lia).
  apply lor_bound; [pose proof (len_nonneg l); lia| |].
  - split; [lia|]. rewrite Z.pow_add_r by (pose proof (len_nonneg l); lia). change (2^8) with 256. nia.
  - rewrite Z.shiftl_mul_pow2, Z.pow_add_r by (pose proof (len_nonneg l); lia). nia.
Qed.

Lemma le_split_length n w : length (le_split n w) = n.
Proof. revert w; induction n; intros; simpl; auto. Qed.

Lemma len_le_split n w : len (le_split n w) = Z.of_nat n.
Proof. unfold len; by rewrite le_split_length. Qed.

Lemma len_be_split n w : len (be_split n w) = Z.of_nat n.
Proof. unfold len, be_split; by rewrite length_rev, le_split_length. Qed.

Lemma length_be_split n w : length (be_split n w) = n.
Proof. unfold be_split. by rewrite length_rev, le_split_length. Qed.

Lemma le_split_app n k w :
  le_split (n + k) w = le_split n w ++ le_split k (Z.shiftr w (8 * Z.of_nat n)).
Proof.
  revert w; induction n as [|n IH]; intros w; [by rewrite Z.shiftr_0_r|].
  cbn [Nat.add le_split app]. rewrite IH, Z.shiftr_shiftr by lia. do 4 f_equal. lia.
Qed.

Lemma le_split_ok n w : bytes_ok (le_split n w).
Proof. revert w; induction n; intros; constructor; [apply w8_range|apply IHn]. Qed.

Lemma be_split_ok n w : bytes_ok (be_split n w).
Proof. apply bytes_ok_rev, le_split_ok. Qed.

#[export] Hint Rewrite len_le_split len_be_split : lens.
#[export] Hint Resolve le_split_ok be_split_ok : wf.

(** The low byte and the rest of a combination. *)
Lemma w8_le_combine b t : 0 <= b < 256 -> w8 (le_combine (b :: t)) = b.
Proof.
  intros Hb. apply Z.bits_inj'; intros i Hi. cbn [le_combine]. autorewrite with bits.
  destruct (Z.ltb_spec i 8).
  - rewrite (Z.testbit_neg_r _ (i - 8)) by lia. btauto.
  - by rewrite (testbit_above 8 b) by lia.
Qed.

Lemma shiftr_le_combine b t : 0 <= b < 256 -> Z.shiftr (le_combine (b :: t)) 8 = le_combine t.
Proof.
  intros Hb. apply Z.bits_inj'; intros i Hi. cbn [le_combine]. autorewrite with bits.
  rewrite (testbit_above 8 b) by lia. simpl. f_equal; lia.
Qed.

Lemma le_split_combine l : bytes_ok l -> le_split (length l) (le_combine l) = l.
Proof.
  induction 1 as [|b l Hb Hl IH]; [done|].
  cbn [length le_split]. rewrite w8_le_combine, shiftr_le_combine by done. by f_equal.
Qed.

Lemma le_combine_split n w : le_combine (le_split n w) = w mod 2 ^ (8 * Z.of_nat n).
Proof.
  revert w; induction n as [|n IH]; intros w; [by rewrite Z.mod_1_r|].
  cbn [le_split le_combine]. rewrite IH. apply Z.bits_inj'; intros i Hi.
  autorewrite with bits. destruct (Z.ltb_spec i 8).
  - rewrite (Z.testbit_neg_r _ (i - 8)), Z.mod_pow2_bits_low by lia. btauto.
  - simpl. destruct (decide (i < 8 * Z.of_nat (S n))).
    + rewrite !Z.mod_pow2_bits_low, Z.shiftr_spec by lia. f_equal; lia.
    + by rewrite !Z.mod_pow2_bits_high by lia.
Qed.

Lemma be_split_combine l : bytes_ok l -> be_split (length l) (be_combine l) = l.
Proof.
  intros H. unfold be_split, be_combine. rewrite <-(length_rev l), le_split_combine by auto with wf.
  apply rev_involutive.
Qed.

Lemma be_combine_split n w : be_combine (be_split n w) = w mod 2 ^ (8 * Z.of_nat n).
Proof. unfold be_split, be_combine. by rewrite rev_involutive, le_combine_split. Qed.

Lemma be_combine_range l : bytes_ok l -> 0 <= be_combine l < 2 ^ (8 * len l).
Proof.
  intros H. unfold be_combine. replace (len l) with (len (rev l)) by (unfold len; by rewrite length_rev).
  apply le_combine_range; auto with wf.
Qed.

Lemma le_combine_num b t : 0 <= b < 256 -> le_combine (b :: t) = b + 256 * le_combine t.
Proof.
  intros Hb. pose proof (w8_le_combine b t Hb) as H1. pose proof (shiftr_le_combine b t Hb) as H2.
  rewrite w8_mod in H1. rewrite Z.shiftr_div_pow2 in H2 by lia.
  pose proof (Z.div_mod (le_combine (b :: t)) (2 ^ 8) ltac:(lia)). lia.
Qed.

Lemma le_split_mod n w : le_split n (w mod 2 ^ (8 * Z.of_nat n)) = le_split n w.
Proof.
  rewrite <-le_combine_split. rewrite <-(le_split_length n w) at 1. apply le_split_combine, le_split_ok.
Qed.

(** Exclusive or commutes with the readings. *)
Lemma le_combine_xor a b :
  bytes_ok a -> bytes_ok b -> length a = length b ->
  le_combine (xorb_list a b) = le_combine a ⊕ le_combine b.
Proof.
  intros Ha; revert b; induction Ha as [|x a Hx Ha IH]; intros [|y b] Hb H; try done. inv Hb.
  cbn [xorb_list zip_with le_combine]. fold (xorb_list a b).
  rewrite IH by (simpl in H; auto with lia). apply Z.bits_inj'; intros i Hi.
  autorewrite with bits. destruct (decide (8 <= i)).
  - rewrite (testbit_above 8 x), (testbit_above 8 y) by lia. btauto.
  - rewrite !(Z.testbit_neg_r _ (i - 8)) by lia. btauto.
Qed.

Lemma rev_zip_with {A B C} (f : A -> B -> C) l k :
  length l = length k -> rev (zip_with f l k) = zip_with f (rev l) (rev k).
Proof.
  revert k; induction l as [|x l IH]; intros [|y k] H; try done. simpl.
  rewrite IH by (simpl in H; lia).
  rewrite zip_with_app by (rewrite !length_rev; simpl in H; lia). done.
Qed.

Lemma be_combine_xor a b :
  bytes_ok a -> bytes_ok b -> length a = length b ->
  be_combine (xorb_list a b) = be_combine a ⊕ be_combine b.
Proof.
  intros Ha Hb H. unfold be_combine, xorb_list. rewrite rev_zip_with by done.
  apply le_combine_xor; rewrite ?length_rev; auto with wf.
Qed.

Lemma xorb_involutive a b : length a = length b -> xorb_list a (xorb_list a b) = b.
Proof.
  revert b; induction a as [|x a IH]; intros [|y b] H; try done. simpl.
  rewrite <-Z.lxor_assoc, Z.lxor_nilpotent, Z.lxor_0_l. f_equal. apply IH. simpl in H; lia.
Qed.

Lemma xorb_comm a b : xorb_list a b = xorb_list b a.
Proof.
  revert b; induction a as [|x a IH]; intros [|y b]; try done. simpl. by rewrite Z.lxor_comm, IH.
Qed.

(** Bit [i] of a little-endian reading, from the bits of the bytes. *)
Definition nthbit (fs : list (Z -> bool)) (i : Z) : bool :=
  if i <? 0 then false else nth (Z.to_nat (i / 8)) fs (fun _ => false) (i mod 8).

Lemma testbit_le_combine l i :
  bytes_ok l -> Z.testbit (le_combine l) i = nthbit (map Z.testbit l) i.
Proof.
  unfold nthbit. intros H. destruct (Z.ltb_spec i 0); [by apply Z.testbit_neg_r|].
  revert i H0; induction H as [|b l Hb Hl IH]; intros i Hi.
  - rewrite Z.testbit_0_l. simpl. by destruct (Z.to_nat (i / 8)).
  - cbn [le_combine map]. rewrite Z.lor_spec, Z.shiftl_spec by lia. destruct (decide (i < 8)).
    + rewrite (Z.testbit_neg_r _ (i - 8)), Z.div_small, Z.mod_small by lia. simpl. btauto.
    + rewrite (testbit_above 8 b), IH by lia. cbn [orb].
      assert (i / 8 = 1 + (i - 8) / 8) as -> by (rewrite <-(Z.div_add_l 1) by lia; f_equal; lia).
      assert (i mod 8 = (i - 8) mod 8) as ->.
      { replace i with ((i - 8) + 1 * 8) at 1 by lia. by rewrite Z.mod_add by lia. }
      rewrite Z2Nat.inj_add by (try apply Z.div_pos; lia). done.
Qed.
