(* ===== verification/Platform.v ===== *)
(** * Platform: what the native library runs on

    The library asks its surroundings for heap memory, for bytes of
    [/dev/urandom] and, through JNI, for services of the Java virtual machine.
    None of these is code of this repository, so each is a parameter: the
    record [env] holds one function per service, giving its answer to the n-th
    request (the heap, the system calls) or to the whole history of requests
    (the virtual machine).  [world] adds the mutable state the native code
    keeps between calls: the statics of cryptocb.c, wc_port.c and
    zrotext_hpke_core.c.

    Code that allocates, calls out or touches a buffer by computed offsets is
    written in the monad [M].  A buffer access outside its bounds, or giving
    back memory that was never obtained, is [Fault]; every theorem stated with
    [wp] or [calc] therefore includes that the code does not fault. *)

From stdpp Require Import strings.
From S2P Require Import Prelude.

(** ** Error codes of error-crypt.h *)

Module Err.
(** error-crypt.h:53 *)
Notation WC_FAILURE := (-1)%Z (only parsing).
(** error-crypt.h:63 *)
Notation MP_MEM := (-97)%Z (only parsing).
(** error-crypt.h:64 *)
Notation MP_VAL := (-98)%Z (only parsing).
(** error-crypt.h:69 *)
Notation OPEN_RAN_E := (-101)%Z (only parsing).
(** error-crypt.h:70 *)
Notation READ_RAN_E := (-102)%Z (only parsing).
(** error-crypt.h:73 *)
Notation RAN_BLOCK_E := (-105)%Z (only parsing).
(** error-crypt.h:97 *)
Notation MEMORY_E := (-125)%Z (only parsing).
(** error-crypt.h:107 *)
Notation BUFFER_E := (-132)%Z (only parsing).
(** error-crypt.h:116 *)
Notation ASN_PARSE_E := (-140)%Z (only parsing).
(** error-crypt.h:130 *)
Notation ASN_INPUT_E := (-154)%Z (only parsing).
(** error-crypt.h:147 *)
Notation ECC_BAD_ARG_E := (-170)%Z (only parsing).
(** error-crypt.h:149 *)
Notation ECC_CURVE_OID_E := (-172)%Z (only parsing).
(** error-crypt.h:150 *)
Notation BAD_FUNC_ARG := (-173)%Z (only parsing).
(** error-crypt.h:151 *)
Notation NOT_COMPILED_IN := (-174)%Z (only parsing).
(** error-crypt.h:158 *)
Notation AES_GCM_AUTH_E := (-180)%Z (only parsing).
(** error-crypt.h:174 *)
Notation BAD_STATE_E := (-192)%Z (only parsing).
(** error-crypt.h:184 *)
Notation RNG_FAILURE_E := (-199)%Z (only parsing).
(** error-crypt.h:187 *)
Notation LENGTH_ONLY_E := (-202)%Z (only parsing).
(** error-crypt.h:195 *)
Notation DRBG_CONT_FIPS_E := (-209)%Z (only parsing).
(** error-crypt.h:203 *)
Notation ECC_PRIV_KEY_E := (-216)%Z (only parsing).
(** error-crypt.h:215 *)
Notation KEYUSAGE_E := (-226)%Z (only parsing).
(** error-crypt.h:242 *)
Notation ECC_PRIVATEONLY_E := (-246)%Z (only parsing).
(** error-crypt.h:272 *)
Notation CRYPTOCB_UNAVAILABLE := (-271)%Z (only parsing).
(** error-crypt.h:279 *)
Notation MISSING_KEY := (-278)%Z (only parsing).
(** error-crypt.h:291 *)
Notation NO_VALID_DEVID := (-290)%Z (only parsing).
(** error-crypt.h:297 *)
Notation ENTROPY_RT_E := (-294)%Z (only parsing).
(** error-crypt.h:298 *)
Notation ENTROPY_APT_E := (-295)%Z (only parsing).
(** error-crypt.h:319 *)
Notation ALREADY_E := (-1007)%Z (only parsing).
(** error-crypt.h:320 *)
Notation SEQ_OVERFLOW_E := (-1008)%Z (only parsing).
(** error-crypt.h:353 *)
Notation NOT_READY_E := (-1030)%Z (only parsing).
(** error-crypt.h:355 *)
Notation WRONG_TYPE_OBJECT_E := (-1032)%Z (only parsing).
End Err.
Export Err.

(** ** Requests to the virtual machine *)

(** A Java reference, 0 for NULL. *)
Notation jref := Z (only parsing).

(** The JNI functions the adapters call, with their arguments. *)
Inductive jcall :=
  | FindClass (name : string)
  | ThrowNew (cls : jref) (msg : string)
  | ExceptionCheck
  | ExceptionClear
  | GetObjectClass (obj : jref)
  | GetMethodID (cls : jref) (name sig : string)
  | CallObjectMethod (obj method a1 a2 : jref)
  | NewByteArray (n : Z)
  | GetArrayLength (arr : jref)
  | SetByteArrayRegion (arr : jref) (start n : Z) (data : bytes)
  | GetByteArrayElements (arr : jref)
  | ReleaseByteArrayElements (arr : jref) (elems : bytes) (mode : Z)
  | DeleteLocalRef (r : jref)
  | GetEnv.

(** An answer: the returned integer or reference, and the elements for
    [GetByteArrayElements]. *)
Record jans := { j_val : Z; j_bytes : bytes }.

(** ** System calls *)

(** The calls random.c makes, with their arguments. *)
Inductive oscall :=
  | Open (path : string) (flags : Z)
  | Fcntl (fd cmd arg : Z)
  | Read (fd : Z) (n : Z)
  | Close (fd : Z).

(** An answer: the returned integer, [errno], and the bytes stored by [read]. *)
Record osans := { os_val : Z; os_errno : Z; os_data : bytes }.

(** ** Environment and world *)

Record env := {
  e_alloc : nat -> bool;                (* does the n-th malloc succeed *)
  e_os : nat -> oscall -> osans;        (* answer to the n-th system call *)
  e_jvm : list jcall -> jans;           (* answer given the calls so far, latest first *)
}.

(** A registered function pointer: the bridge's own callback, or that of
    another user of the library. *)
Inductive cbref := ZtEcdhCallback | OtherCallback (n : nat).

#[global] Instance cbref_eq_dec : EqDecision cbref.
Proof. solve_decision. Defined.

(** cryptocb.c:101-105, [CryptoCb]: one slot of the device table. *)
Record CryptoCb := { cc_devId : Z; cc_cb : option cbref; cc_ctx : Z }.

Record world := {
  w_env : env;
  w_nalloc : nat;          (* allocations requested so far *)
  w_live : nat;            (* blocks obtained and not yet freed *)
  w_nos : nat;             (* system calls made so far *)
  w_jlog : list jcall;     (* JNI calls made so far, latest first *)
  gCryptoDev : list CryptoCb;                 (* cryptocb.c:106 *)
  wolfcrypt_init_state : Z * Z;               (* wc_port.c:427: state, count *)
  zt_device_registered : Z;                   (* zrotext_hpke_core.c:102 *)
  agreeMethod : Z;                            (* zrotext_hpke_jni.c:106, of nativeOpen *)
}.

Definition set_alloc (n l : nat) (w : world) : world :=
  {| w_env := w_env w; w_nalloc := n; w_live := l; w_nos := w_nos w; w_jlog := w_jlog w;
     gCryptoDev := gCryptoDev w; wolfcrypt_init_state := wolfcrypt_init_state w;
     zt_device_registered := zt_device_registered w; agreeMethod := agreeMethod w |}.

Definition set_nos (n : nat) (w : world) : world :=
  {| w_env := w_env w; w_nalloc := w_nalloc w; w_live := w_live w; w_nos := n; w_jlog := w_jlog w;
     gCryptoDev := gCryptoDev w; wolfcrypt_init_state := wolfcrypt_init_state w;
     zt_device_registered := zt_device_registered w; agreeMethod := agreeMethod w |}.

Definition set_jlog (l : list jcall) (w : world) : world :=
  {| w_env := w_env w; w_nalloc := w_nalloc w; w_live := w_live w; w_nos := w_nos w; w_jlog := l;
     gCryptoDev := gCryptoDev w; wolfcrypt_init_state := wolfcrypt_init_state w;
     zt_device_registered := zt_device_registered w; agreeMethod := agreeMethod w |}.

Definition set_devs (d : list CryptoCb) (w : world) : world :=
  {| w_env := w_env w; w_nalloc := w_nalloc w; w_live := w_live w; w_nos := w_nos w;
     w_jlog := w_jlog w; gCryptoDev := d; wolfcrypt_init_state := wolfcrypt_init_state w;
     zt_device_registered := zt_device_registered w; agreeMethod := agreeMethod w |}.

Definition set_init (s : Z * Z) (w : world) : world :=
  {| w_env := w_env w; w_nalloc := w_nalloc w; w_live := w_live w; w_nos := w_nos w;
     w_jlog := w_jlog w; gCryptoDev := gCryptoDev w; wolfcrypt_init_state := s;
     zt_device_registered := zt_device_registered w; agreeMethod := agreeMethod w |}.

Definition set_registered (r : Z) (w : world) : world :=
  {| w_env := w_env w; w_nalloc := w_nalloc w; w_live := w_live w; w_nos := w_nos w;
     w_jlog := w_jlog w; gCryptoDev := gCryptoDev w;
     wolfcrypt_init_state := wolfcrypt_init_state w; zt_device_registered := r; agreeMethod := agreeMethod w |}.

Definition set_method (m : Z) (w : world) : world :=
  {| w_env := w_env w; w_nalloc := w_nalloc w; w_live := w_live w; w_nos := w_nos w;
     w_jlog := w_jlog w; gCryptoDev := gCryptoDev w;
     wolfcrypt_init_state := wolfcrypt_init_state w; zt_device_registered := zt_device_registered w; agreeMethod := m |}.

(** ** The monad *)

Inductive outcome (A : Type) := Ok (a : A) (w : world) | Fault.
Arguments Ok {A} a w.
Arguments Fault {A}.

Definition M (A : Type) : Type := world -> outcome A.

#[global] Instance M_ret : MRet M := fun A a w => Ok a w.
#[global] Instance M_bind : MBind M := fun A B k m w =>
  match m w with Ok a w' => k a w' | Fault => Fault end.

(** Memory safety obligations. *)
Definition assert (b : bool) : M unit := fun w => if b then Ok tt w else Fault.

(** [n] bytes at offset [off] of [src]. *)
Definition rd (src : bytes) (off n : Z) : M bytes :=
  _ ← assert ((0 <=? off) && (0 <=? n) && (off + n <=? len src)); mret (sub src off n).

(** Store [src] at offset [off] of [dst]: [memcpy], [memset], [dst[off] = x]. *)
Definition wr (dst : bytes) (off : Z) (src : bytes) : M bytes :=
  _ ← assert ((0 <=? off) && (off + len src <=? len dst)); mret (splice dst off src).

Definition is_null {A} (p : option A) : bool := match p with None => true | Some _ => false end.

(** [src[j]]. *)
Definition peek (src : bytes) (j : Z) : M Z := b ← rd src j 1; mret (b !!! 0%nat).

(** A loop that runs past its bound counts as a fault, so that a proof of no fault
    is a proof that the bound is enough. *)
Definition out_of_fuel {A} : M A := fun _ => Fault.

(** memory.c:345-440, [wolfSSL_Malloc] with no allocator installed: [malloc].
    True for a block, false for NULL. *)
Definition wolfSSL_Malloc : M bool := fun w =>
  let ok := e_alloc (w_env w) (w_nalloc w) in
  Ok ok (set_alloc (S (w_nalloc w)) (if ok then S (w_live w) else w_live w) w).

(** memory.c:445-487, [wolfSSL_Free] with no allocator installed: [free]. *)
Definition wolfSSL_Free : M unit := fun w =>
  match w_live w with
  | O => Fault
  | S l => Ok tt (set_alloc (w_nalloc w) l w)
  end.

(** [XFREE(p)]: free unless NULL. *)
Definition XFREE (p : bool) : M unit := if p then wolfSSL_Free else mret tt.

Definition get : M world := fun w => Ok w w.
Definition put (w : world) : M unit := fun _ => Ok tt w.
Definition modify (f : world -> world) : M unit := fun w => Ok tt (f w).

(** One JNI call. *)
Definition jni (c : jcall) : M jans := fun w =>
  let l := c :: w_jlog w in Ok (e_jvm (w_env w) l) (set_jlog l w).

(** One system call. *)
Definition os (c : oscall) : M osans := fun w =>
  Ok (e_os (w_env w) (w_nos w) c) (set_nos (S (w_nos w)) w).

(** ** Program logic *)

(** [m] run from [w] does not fault and ends in [Q]. *)
Definition wp {A} (m : M A) (Q : A -> world -> Prop) (w : world) : Prop :=
  match m w with Ok a w' => Q a w' | Fault => False end.

(** Some allocation fails. *)
Definition oom (e : env) : Prop := exists n, e_alloc e n = false.

(** How many more times the elements of array [a] were obtained than released. *)
Fixpoint pins (e : env) (l : list jcall) (a : jref) : Z :=
  match l with
  | [] => 0
  | c :: l' =>
    pins e l' a +
    match c with
    | GetByteArrayElements b => if (b =? a) && negb (j_val (e_jvm e l) =? 0) then 1 else 0
    | ReleaseByteArrayElements b _ _ => if b =? a then -1 else 0
    | _ => 0
    end
  end.

(** A call that tells the virtual machine nothing but public points: elements
    given back are zero, and written back as such; data stored in an array is a
    point of 65 bytes. *)
Definition discreet (c : jcall) : Prop :=
  match c with
  | ReleaseByteArrayElements _ b mode => mode = 0 /\ b = zeros (len b)
  | SetByteArrayRegion _ start n data => start = 0 /\ n = 65 /\ len data = 65
  | _ => True
  end.

(** The calls between two moments: discreet ones, and no array stays pinned. *)
Definition log_grows (e : env) (l l' : list jcall) : Prop :=
  exists d, l' = d ++ l /\ Forall discreet d /\ forall a, pins e l' a = pins e l a.

Lemma log_grows_refl e l : log_grows e l l.
Proof. by exists []. Qed.

Lemma log_grows_trans e l1 l2 l3 : log_grows e l1 l2 -> log_grows e l2 l3 -> log_grows e l1 l3.
Proof.
  intros (d1 & -> & F1 & P1) (d2 & -> & F2 & P2). exists (d2 ++ d1). split; [apply app_assoc|].
  split; [by apply Forall_app|]. intros a. by rewrite P2.
Qed.

(** What a calculation may change of the world: it asks for memory and ends with
    [d] blocks fewer; with [calls] it may also make system calls and JNI calls. *)
Record frame (calls : bool) (d : nat) (w w' : world) : Prop := {
  frame_env : w_env w' = w_env w;
  frame_live : w_live w' = (w_live w - d)%nat;
  frame_nos : calls = false -> w_nos w' = w_nos w;
  frame_jlog : log_grows (w_env w) (w_jlog w) (w_jlog w');
  frame_nojni : calls = false -> w_jlog w' = w_jlog w;
  frame_devs : gCryptoDev w' = gCryptoDev w;
  frame_init : wolfcrypt_init_state w' = wolfcrypt_init_state w;
  frame_reg : zt_device_registered w' = zt_device_registered w;
  frame_method : agreeMethod w' = agreeMethod w }.

(** What a calculation may do besides allocating: with [may_call] it may make
    system calls and JNI calls; with a [registry] it is only run while the device
    table holds these entries. *)
Record mode := Mode { may_call : bool; registry : option (list CryptoCb) }.

Definition pure : mode := Mode false None.
Definition calling : mode := Mode true None.

Class MayCall (x : mode) : Prop := may_call_true : may_call x = true.
#[export] Instance may_call_mode r : MayCall (Mode true r) := eq_refl.
#[export] Instance may_call_calling : MayCall calling := eq_refl.

Definition in_mode (x : mode) (w : world) : Prop :=
  match registry x with Some tbl => gCryptoDev w = tbl | None => True end.

(** [calc_in x e d m Q]: in environment [e] and mode [x], [m] run by a caller who
    holds at least [d] heap blocks does not fault, returns an answer in [Q], gives
    back exactly [d] blocks and changes nothing else of the world ([frame]).  With
    [d = 0], [m] is a calculation that frees what it allocates. *)
Definition calc_in {A} (x : mode) (e : env) (d : nat) (m : M A) (Q : A -> Prop) : Prop :=
  forall w, w_env w = e -> in_mode x w -> (d <= w_live w)%nat ->
    wp m (fun a w' => Q a /\ frame (may_call x) d w w') w.

Notation calc := (calc_in pure).

Lemma in_mode_frame x b d w w' : frame b d w w' -> in_mode x w -> in_mode x w'.
Proof. intros [] H. unfold in_mode in *. destruct (registry x); congruence. Qed.

Lemma wp_mono {A} (m : M A) (P Q : A -> world -> Prop) w :
  wp m P w -> (forall a w', P a w' -> Q a w') -> wp m Q w.
Proof. unfold wp. destruct (m w); eauto. Qed.

Lemma wp_bind {A B} (m : M A) (k : A -> M B) Q w :
  wp m (fun a w' => wp (k a) Q w') w -> wp (m ≫= k) Q w.
Proof. unfold wp, mbind, M_bind. destruct (m w); done. Qed.

Lemma wp_wr {B} dst off src (k : bytes -> M B) Q w : 0 <= off -> off + len src <= len dst ->
  wp (k (splice dst off src)) Q w -> wp (wr dst off src ≫= k) Q w.
Proof.
  intros H1 H2 H. unfold wr, assert, wp, mbind, M_bind, mret, M_ret.
  by rewrite (proj2 (Z.leb_le 0 off)), (proj2 (Z.leb_le (off + len src) (len dst))) by done.
Qed.

Lemma frame_refl x w : frame x 0 w w.
Proof. split; try done; [lia|]. apply log_grows_refl. Qed.

Lemma frame_trans x d1 d2 w w1 w2 :
  frame x d1 w w1 -> frame x d2 w1 w2 -> frame x (d1 + d2) w w2.
Proof.
  intros [] []. split; try congruence; [lia|intros; rewrite frame_nos1 by done; auto| |intros; rewrite frame_nojni1; auto].
  eapply log_grows_trans; [done|]. by rewrite <-frame_env0.
Qed.

Section Logic.
Context {A B : Type} {x : mode}.
Implicit Types (m : M A) (k : A -> M B) (e : env) (d : nat).

Lemma calc_mono e d m (P Q : A -> Prop) :
  calc_in x e d m P -> (forall a, P a -> Q a) -> calc_in x e d m Q.
Proof.
  intros H HPQ w He Hm Hd. eapply wp_mono; [by apply H|]. intros a w' [Ha Hw]; eauto.
Qed.

Lemma calc_lift e d m (Q : A -> Prop) : calc e d m Q -> calc_in x e d m Q.
Proof.
  intros H w He Hm Hd. eapply wp_mono; [by apply H|]. intros a w' [Ha []]. split; [done|]. by split; auto.
Qed.

Lemma calc_ret e (a : A) (Q : A -> Prop) : Q a -> calc_in x e 0 (mret a) Q.
Proof. intros HQ w He Hm Hd. unfold wp, mret, M_ret. split; [done|]. apply frame_refl. Qed.

(** Sequencing: the first part returns to the same holdings. *)
Lemma calc_bind e d m k (P : A -> Prop) (Q : B -> Prop) :
  calc_in x e 0 m P -> (forall a, P a -> calc_in x e d (k a) Q) -> calc_in x e d (m ≫= k) Q.
Proof.
  intros Hm Hk w He Hi Hd. apply wp_bind. eapply wp_mono; [apply Hm; [done|done|lia]|].
  intros a w' [Ha Hf]. pose proof (frame_live _ _ _ _ Hf). pose proof (frame_env _ _ _ _ Hf).
  eapply wp_mono; [apply Hk; [done|congruence|by eapply in_mode_frame|lia]|].
  intros b w'' [Hb Hf']. split; [done|]. by apply (frame_trans _ 0 d w w').
Qed.

Lemma calc_bind_ret e d (a : A) k (Q : B -> Prop) :
  calc_in x e d (k a) Q -> calc_in x e d (mret a ≫= k) Q.
Proof. done. Qed.

Lemma calc_assoc {C} e d m k (h : B -> M C) (Q : C -> Prop) :
  calc_in x e d (m ≫= (fun a => k a ≫= h)) Q -> calc_in x e d ((m ≫= k) ≫= h) Q.
Proof.
  intros H w He Hm Hd. specialize (H w He Hm Hd). unfold wp, mbind, M_bind in *. by destruct (m w).
Qed.

Lemma calc_assert e d b (k : unit -> M B) (Q : B -> Prop) :
  b = true -> calc_in x e d (k tt) Q -> calc_in x e d (assert b ≫= k) Q.
Proof. intros -> H w He Hm Hd. by apply H. Qed.

(** An allocation: one more block to give back, or none and memory is out. *)
Lemma calc_malloc e d (k : bool -> M B) (Q : B -> Prop) :
  calc_in x e (S d) (k true) Q -> (oom e -> calc_in x e d (k false) Q) ->
  calc_in x e d (wolfSSL_Malloc ≫= k) Q.
Proof.
  intros Ht Hf w He Hm Hd. apply wp_bind. unfold wp at 1, wolfSSL_Malloc.
  destruct (e_alloc (w_env w) (w_nalloc w)) eqn:E.
  - eapply wp_mono; [apply Ht; [done|done|simpl; lia]|].
    intros b w' [Hb []]. split; [done|]. by split.
  - eapply wp_mono; [apply Hf; [|done|done|simpl; lia]|].
    { eexists. by rewrite <-He. }
    intros b w' [Hb []]. split; [done|]. by split.
Qed.

Lemma calc_free e d (k : unit -> M B) (Q : B -> Prop) :
  calc_in x e d (k tt) Q -> calc_in x e (S d) (wolfSSL_Free ≫= k) Q.
Proof.
  intros Hk w He Hm Hd. apply wp_bind. unfold wp at 1, wolfSSL_Free.
  destruct (w_live w) as [|l] eqn:E; [lia|].
  eapply wp_mono; [apply Hk; [done|done|simpl; lia]|].
  intros b w' [Hb []]. split; [done|]. split; try done. rewrite frame_live0. simpl. lia.
Qed.

Lemma calc_rd e d src off n (k : bytes -> M B) Q :
  0 <= off -> 0 <= n -> off + n <= len src ->
  calc_in x e d (k (sub src off n)) Q -> calc_in x e d (rd src off n ≫= k) Q.
Proof.
  intros H1 H2 H3 H w He Hm Hd. unfold rd, mbind, M_bind, wp, assert, mret, M_ret.
  rewrite (proj2 (Z.leb_le 0 off)), (proj2 (Z.leb_le 0 n)), (proj2 (Z.leb_le (off + n) (len src))) by done.
  by apply H.
Qed.

Lemma calc_wr e d dst off src (k : bytes -> M B) Q :
  0 <= off -> off + len src <= len dst ->
  calc_in x e d (k (splice dst off src)) Q -> calc_in x e d (wr dst off src ≫= k) Q.
Proof.
  intros H1 H2 H w He Hm Hd. unfold wr, mbind, M_bind, wp, assert, mret, M_ret.
  rewrite (proj2 (Z.leb_le 0 off)), (proj2 (Z.leb_le (off + len src) (len dst))) by done.
  by apply H.
Qed.
End Logic.

(** The same in last position. *)
Lemma calc_rd_end {x} e src off n (Q : bytes -> Prop) :
  0 <= off -> 0 <= n -> off + n <= len src -> Q (sub src off n) -> calc_in x e 0 (rd src off n) Q.
Proof.
  intros H1 H2 H3 HQ w He Hm Hd.
  pose proof (calc_rd (x := x) e 0 src off n mret Q H1 H2 H3 (calc_ret _ _ _ HQ) w He Hm Hd) as H.
  unfold wp, mbind, M_bind, mret, M_ret in H |- *. by destruct (rd src off n w).
Qed.

Lemma calc_wr_end {x} e dst off src (Q : bytes -> Prop) :
  0 <= off -> off + len src <= len dst -> Q (splice dst off src) -> calc_in x e 0 (wr dst off src) Q.
Proof.
  intros H1 H2 HQ w He Hm Hd. pose proof (calc_wr (x := x) e 0 dst off src mret Q H1 H2 (calc_ret _ _ _ HQ) w He Hm Hd) as H.
  unfold wp, mbind, M_bind, mret, M_ret in H |- *. by destruct (wr dst off src w).
Qed.

(** System calls; JNI calls one by one. *)
Lemma calc_os {B} x `{!MayCall x} e d c (k : osans -> M B) Q :
  (forall n, calc_in x e d (k (e_os e n c)) Q) -> calc_in x e d (os c ≫= k) Q.
Proof.
  intros H w He Hm Hd. apply wp_bind. unfold wp at 1, os. eapply wp_mono; [rewrite He; apply H; done|].
  intros b w' [Hb []]. split; [done|]. rewrite may_call_true in *. by split.
Qed.

Lemma wp_jni {B} c (k : jans -> M B) Q w :
  wp (k (e_jvm (w_env w) (c :: w_jlog w))) Q (set_jlog (c :: w_jlog w) w) -> wp (jni c ≫= k) Q w.
Proof. done. Qed.

(** Reading a result off a calculation. *)
Lemma calc_run {A} x e (m : M A) (Q : A -> Prop) w :
  calc_in x e 0 m Q -> w_env w = e -> in_mode x w -> exists a w', m w = Ok a w' /\ Q a /\ frame (may_call x) 0 w w'.
Proof.
  intros H He Hm. specialize (H w He Hm ltac:(lia)). unfold wp in H. destruct (m w) as [a w'|]; [|done].
  destruct H as [Ha Hf]. eauto.
Qed.

(** One step of symbolic execution of a calculation. *)
Ltac calc_step :=
  lazymatch goal with
  | |- calc_in _ _ _ ((_ ≫= _) ≫= _) _ => apply calc_assoc
  | |- calc_in _ _ _ (mret _ ≫= _) _ => apply calc_bind_ret
  | |- calc_in _ _ _ (wolfSSL_Malloc ≫= _) _ => apply calc_malloc; [|intros ?Hoom]
  | |- calc_in _ _ _ (wolfSSL_Free ≫= _) _ => apply calc_free
  | |- calc_in _ _ _ (XFREE true ≫= _) _ => apply calc_free
  | |- calc_in _ _ _ (XFREE false ≫= _) _ => apply calc_bind_ret
  | |- calc_in _ _ _ (rd _ _ _ ≫= _) _ => apply calc_rd
  | |- calc_in _ _ _ (wr _ _ _ ≫= _) _ => apply calc_wr
  | |- calc_in _ _ _ (assert _ ≫= _) _ => apply calc_assert
  | |- calc_in ?y _ _ (os _ ≫= _) _ => apply (calc_os y)
  | |- calc_in _ _ 0 (mret _) _ => apply calc_ret
  | |- calc_in _ _ 0 (rd _ _ _) _ => apply calc_rd_end
  | |- calc_in _ _ 0 (wr _ _ _) _ => apply calc_wr_end
  end.

(** Decide the comparisons of constants in the goal, e.g. of error codes. *)
Ltac eval_test t :=
  let r := eval vm_compute in t in
  lazymatch r with true => change t with true | false => change t with false end.

Ltac eval_tests :=
  repeat match goal with
  | |- context [?a =? ?b] => eval_test (a =? b)
  | |- context [?a <? ?b] => eval_test (a <? b)
  | |- context [?a <=? ?b] => eval_test (a <=? b)
  end; cbn [negb andb orb].

(** Run as far as no answer has to be known. *)
Ltac calc_steps := repeat first [calc_step | progress eval_tests | progress cbv beta iota zeta].

(** Reading the character a text starts with. *)
Lemma calc_peek {B} {x} e d (inp pre : bytes) c l (k : Z -> M B) Q : inp = pre ++ c :: l ->
  calc_in x e d (k c) Q -> calc_in x e d (peek inp (len pre) ≫= k) Q.
Proof.
  intros -> H. unfold peek. calc_steps; rewrite ?len_app, ?len_cons; pose proof (len_nonneg pre);
    pose proof (len_nonneg l); try lia.
  unfold sub, len. rewrite Nat2Z.id, drop_app_length. exact H.
Qed.

(** ** Loops over a counter

    [for (i = lo; i < hi; i++)] and [for (i = hi - 1; i >= 0; i--)], with the
    variables the body changes as a state. *)

Fixpoint for_up {S : Type} (n : nat) (i : Z) (body : Z -> S -> M S) (s : S) : M S :=
  match n with
  | O => mret s
  | Datatypes.S n => s ← body i s; for_up n (i + 1) body s
  end.

Definition for_range {S : Type} (lo hi : Z) (body : Z -> S -> M S) (s : S) : M S :=
  for_up (Z.to_nat (hi - lo)) lo body s.

Fixpoint for_down {S : Type} (n : nat) (body : Z -> S -> M S) (s : S) : M S :=
  match n with
  | O => mret s
  | Datatypes.S n => s ← body (Z.of_nat n) s; for_down n body s
  end.

Section Loops.
Context {S B : Type} {x : mode} (e : env).
Implicit Types (P : Z -> S -> Prop) (body : Z -> S -> M S).

Lemma calc_for_up P body n i s : P i s ->
  (forall k s, i <= k < i + Z.of_nat n -> P k s -> calc_in x e 0 (body k s) (P (k + 1))) ->
  calc_in x e 0 (for_up n i body s) (P (i + Z.of_nat n)).
Proof.
  revert i s. induction n as [|n IH]; intros i s HP Hb; cbn [for_up].
  - apply calc_ret. by rewrite Z.add_0_r.
  - eapply calc_bind; [apply Hb; [lia|done]|]. intros s' HP'.
    replace (i + Z.of_nat (Datatypes.S n)) with (i + 1 + Z.of_nat n) by lia. apply IH; [done|]. intros. apply Hb; [lia|done].
Qed.

Lemma calc_for_range P body lo hi s d (k : S -> M B) Q : lo <= hi -> P lo s ->
  (forall i s, lo <= i < hi -> P i s -> calc_in x e 0 (body i s) (P (i + 1))) ->
  (forall s, P hi s -> calc_in x e d (k s) Q) ->
  calc_in x e d (for_range lo hi body s ≫= k) Q.
Proof.
  intros Hle HP Hb Hk. eapply calc_bind; [|exact Hk]. unfold for_range.
  pose proof (calc_for_up P body (Z.to_nat (hi - lo)) lo s HP) as H. rewrite Z2Nat.id in H by lia.
  replace (lo + (hi - lo)) with hi in H by lia. by apply H.
Qed.

(** ... also when the range is empty. *)
Lemma calc_for_range_max P body lo hi s d (k : S -> M B) Q : P lo s ->
  (forall i s, lo <= i < hi -> P i s -> calc_in x e 0 (body i s) (P (i + 1))) ->
  (forall s, P (Z.max lo hi) s -> calc_in x e d (k s) Q) ->
  calc_in x e d (for_range lo hi body s ≫= k) Q.
Proof.
  intros HP Hb Hk. destruct (Z_le_gt_dec lo hi) as [Hle|Hgt].
  - rewrite Z.max_r in Hk by lia. by apply (calc_for_range P).
  - rewrite Z.max_l in Hk by lia. unfold for_range. replace (Z.to_nat (hi - lo)) with 0%nat by lia.
    cbn [for_up]. apply calc_bind_ret. by apply Hk.
Qed.

Lemma calc_for_down_end P body n s : P (Z.of_nat n) s ->
  (forall i s, 0 <= i < Z.of_nat n -> P (i + 1) s -> calc_in x e 0 (body i s) (P i)) ->
  calc_in x e 0 (for_down n body s) (P 0).
Proof.
  revert s. induction n as [|n IH]; intros s HP Hb; cbn [for_down].
  - by apply calc_ret.
  - eapply calc_bind; [apply Hb; [lia|]; by replace (Z.of_nat n + 1) with (Z.of_nat (Datatypes.S n)) by lia|].
    intros s' HP'. apply IH; [done|]. intros. apply Hb; [lia|done].
Qed.

Lemma calc_for_down P body n s d (k : S -> M B) Q : P (Z.of_nat n) s ->
  (forall i s, 0 <= i < Z.of_nat n -> P (i + 1) s -> calc_in x e 0 (body i s) (P i)) ->
  (forall s, P 0 s -> calc_in x e d (k s) Q) ->
  calc_in x e d (for_down n body s ≫= k) Q.
Proof. intros HP Hb Hk. eapply calc_bind; [by apply (calc_for_down_end P)|exact Hk]. Qed.
End Loops.

(** A surroundings in which every allocation succeeds, and a world in it as the
    loader leaves it: the statics zero, nothing allocated. *)
Definition env_plenty : env :=
  {| e_alloc := fun _ => true; e_os := fun _ _ => {| os_val := 0; os_errno := 0; os_data := [] |};
     e_jvm := fun _ => {| j_val := 0; j_bytes := [] |} |}.

Definition world_start (e : env) : world :=
  {| w_env := e; w_nalloc := 0; w_live := 0; w_nos := 0; w_jlog := [];
     gCryptoDev := replicate 8 {| cc_devId := 0; cc_cb := None; cc_ctx := 0 |};
     wolfcrypt_init_state := (0, 0); zt_device_registered := 0; agreeMethod := 0 |}.
