(* ===== verification/Types.v ===== *)
(** * Types: the structures of the wolfCrypt headers

    One record per C structure, with the fields the configuration of
    user_settings.h compiles.  The allocation hints ([heap]) and the key
    identifiers ([id], [label]) that no modelled function reads are left out.
    An array of machine words that the code also addresses as bytes
    ([buffer], [ipad], [opad], [innerHash], [reg]) is kept as its bytes. *)

From stdpp Require Import strings.
From S2P Require Import Prelude Platform.

(** sha256.h:172-251, [struct wc_Sha256] *)
Record wc_Sha256 := {
  sha_digest : list Z;     (* 8 words *)
  sha_buffer : bytes;      (* 64 bytes *)
  sha_buffLen : Z;
  sha_loLen : Z;
  sha_hiLen : Z;
  sha_devId : Z;
  sha_devCtx : Z;
  sha_flags : Z;
}.

(** hmac.h:126-168, [struct Hmac] *)
Record Hmac := {
  hm_hash : wc_Sha256;
  hm_ipad : bytes;         (* 64 bytes *)
  hm_opad : bytes;         (* 64 bytes *)
  hm_innerHash : bytes;    (* 32 bytes *)
  hm_macType : Z;
  hm_innerHashKeyed : Z;
  hm_devId : Z;
  hm_devCtx : Z;
  hm_keyRaw : option bytes;
  hm_keyLen : Z;
}.

(** aes.h:346-540, [struct Aes], with [gcm.H] of aes.h:72-88, [struct Gcm] *)
Record Aes := {
  aes_key : list Z;        (* 60 words *)
  aes_rounds : Z;
  aes_keylen : Z;
  aes_reg : bytes;         (* 16 bytes *)
  aes_tmp : bytes;         (* 16 bytes *)
  aes_invokeCtr : Z * Z;
  aes_nonceSz : Z;
  aes_gcm_H : bytes;       (* 16 bytes *)
  aes_devId : Z;
  aes_devCtx : Z;
  aes_devKey : bytes;      (* 32 bytes *)
  aes_keyInstalled : bool;
}.

(** sp_int.h:985-1000, [sp_int]: [size] digits of 32 bits, of which the low
    [used] hold the number. *)
Record mp_int := { mp_used : Z; mp_size : Z; mp_dp : list Z }.

(** ecc.h:487-502, [struct ecc_point] *)
Record ecc_point := { pt_x : mp_int; pt_y : mp_int; pt_z : mp_int; pt_isAllocated : bool }.

(** ecc.h:331-345, [struct ecc_set_type] *)
Record ecc_set_type := {
  ecc_size : Z;
  ecc_id : Z;
  ecc_name : string;
  ecc_prime : string;
  ecc_Af : string;
  ecc_Bf : string;
  ecc_order : string;
  ecc_Gx : string;
  ecc_Gy : string;
  ecc_oid : list Z;
  ecc_oidSz : Z;
  ecc_oidSum : Z;
  ecc_cofactor : Z;
}.

(** ecc.h:540-700, [struct ecc_key].  [ek_rng] tells whether a generator is
    attached. *)
Record ecc_key := {
  ek_type : Z;
  ek_idx : Z;
  ek_state : Z;
  ek_flags : Z;
  ek_dp : option ecc_set_type;
  ek_pubkey : ecc_point;
  ek_k : mp_int;
  ek_devCtx : Z;
  ek_devId : Z;
  ek_rng : bool;
}.

(** random.h:311-324, [struct OS_Seed] *)
Record OS_Seed := { seed_fd : Z; seed_devId : Z }.

(** random.h:463-483, [struct DRBG_internal] *)
Record DRBG_internal := {
  drbg_reseedCtr : Z;
  drbg_V : bytes;          (* 55 bytes *)
  drbg_C : bytes;          (* 55 bytes *)
  drbg_devId : Z;
}.

(** random.h:555-692, [struct WC_RNG] *)
Record WC_RNG := {
  rng_seed : OS_Seed;
  rng_status : Z;
  rng_flags : Z;
  rng_drbg : option DRBG_internal;
  rng_drbgType : Z;
  rng_devId : Z;
}.
