(* ===== verification/Misc.v ===== *)
(** * Misc: the word and buffer helpers of misc.c

    Rotations, byte reversal, unaligned loads, exclusive or of buffers,
    zeroing, constant-time comparison and selection.  The targets are little
    endian, so a word in memory is read by [le_combine]. *)

From S2P Require Import Prelude Platform.

(** ** Words *)

(** misc.c:115-118, [rotlFixed] *)
Definition rotlFixed (x y : Z) : Z := Z.lor (w32 (Z.shiftl x y)) (Z.shiftr x (32 - y)).

(** misc.c:121-124, [rotrFixed] *)
Definition rotrFixed (x y : Z) : Z := Z.lor (Z.shiftr x y) (w32 (Z.shiftl x (32 - y))).

(** misc.c:145-184, [ByteReverseWord32] *)
Definition ByteReverseWord32 (value : Z) : Z :=
  Z.lor (Z.land (rotrFixed value 8) 0xff00ff00) (Z.land (rotlFixed value 8) 0x00ff00ff).

(** misc.c:187-238, [ByteReverseWords]: the bytes stored to [out]. *)
Definition ByteReverseWords (inp : bytes) (byteCount : Z) : bytes :=
  flat_map (fun w => le_split 4 (ByteReverseWord32 (le_combine w)))
    (group 4 (Z.to_nat (byteCount / 4)) inp).

(** misc.c:288-308, [readUnalignedWord32] *)
Definition readUnalignedWord32 (inp : bytes) : Z := le_combine (take 4 inp).

(** misc.c:463-466, [rotlFixed64] *)
Definition rotlFixed64 (x y : Z) : Z := Z.lor (w64 (Z.shiftl x y)) (Z.shiftr x (64 - y)).

(** misc.c:475-489, [ByteReverseWord64] *)
Definition ByteReverseWord64 (value : Z) : Z :=
  let value := Z.lor (Z.shiftr (Z.land value 0xFF00FF00FF00FF00) 8)
                     (Z.shiftl (Z.land value 0x00FF00FF00FF00FF) 8) in
  let value := Z.lor (Z.shiftr (Z.land value 0xFFFF0000FFFF0000) 16)
                     (Z.shiftl (Z.land value 0x0000FFFF0000FFFF) 16) in
  rotlFixed64 value 32.

(** misc.c:492-542, [ByteReverseWords64] on an array of words. *)
Definition ByteReverseWords64 (inp : list Z) (byteCount : Z) : list Z :=
  map ByteReverseWord64 (take (Z.to_nat (byteCount / 8)) inp).

(** misc.c:872-875, [ctMaskWord32GTE] *)
Definition ctMaskWord32GTE (a b : Z) : Z := w32 (Z.shiftr (w64 (a - b)) 63 - 1).

(** misc.c:999-1010, [min] *)
Definition min_ct (a b : Z) : Z :=
  let gte_mask := ctMaskWord32GTE a b in
  Z.lor (Z.land a (w32 (Z.lnot gte_mask))) (Z.land b gte_mask).

(** misc.c:830-841, [ConstantCompare] *)
Fixpoint ConstantCompare_loop (a b : bytes) (n : nat) (compareSum : Z) : Z :=
  match n, a, b with
  | S n, x :: a, y :: b => ConstantCompare_loop a b n (Z.lor compareSum (x ⊕ y))
  | _, _, _ => compareSum
  end.

(** misc.c:830-841, [ConstantCompare] *)
Definition ConstantCompare (a b : bytes) (length : Z) : Z :=
  ConstantCompare_loop a b (Z.to_nat length) 0.

(** ** Buffers *)

(** misc.c:690-693, the byte loop of [xorbufout]. *)
Definition xorbufout (buf mask : bytes) (count : Z) : bytes :=
  xorb_list (take (Z.to_nat count) buf) (take (Z.to_nat count) mask).

(** misc.c:778-781, the byte loop of [xorbuf]: the new contents of [buf]. *)
Definition xorbuf (buf mask : bytes) (count : Z) : bytes :=
  splice buf 0 (xorbufout buf mask count).

(** misc.c:618-625, [XorWordsOut]: [n] machine words of [ws] bytes. *)
Definition XorWordsOut (ws : nat) (a b : bytes) (n : nat) : bytes :=
  flat_map (fun p => le_split ws (le_combine p.1 ⊕ le_combine p.2))
    (zip (group ws n a) (group ws n b)).

(** misc.c:630-695, [xorbufout] for buffers at addresses [o], [b], [m], on a
    machine with words of [ws] bytes: whole words when all three are aligned;
    bytes up to a word boundary and then words when they are equally
    misaligned; bytes otherwise. *)
Definition xorbufout_at (ws : nat) (o b m : Z) (buf mask : bytes) (count : Z) : bytes :=
  let wz := Z.of_nat ws in
  let words buf mask count :=
    let n := Z.to_nat (count / wz) in
    XorWordsOut ws buf mask n ++
    xorbufout (drop (ws * n) buf) (drop (ws * n) mask) (count mod wz) in
  if (o mod wz =? 0) && (b mod wz =? 0) && (m mod wz =? 0) then words buf mask count
  else if (o mod wz =? b mod wz) && (b mod wz =? m mod wz) then
    let lead := Z.to_nat (Z.min count ((- b) mod wz)) in
    xorbufout buf mask (Z.of_nat lead) ++
    words (drop lead buf) (drop lead mask) (count - Z.of_nat lead)
  else xorbufout buf mask count.

(** misc.c:789-824, [ForceZero] on [len] bytes at address [addr], with machine
    words of [ws] bytes: single bytes to the word boundary, words, the rest. *)
Definition ForceZero_at (ws : nat) (addr : Z) (mem : bytes) : bytes :=
  let wz := Z.of_nat ws in
  let lead := Z.to_nat (Z.min (len mem) ((- addr) mod wz)) in
  let n := ((length mem - lead) / ws)%nat in
  let words := flat_map (fun _ => le_split ws 0) (seq 0 n) in
  replicate lead 0 ++ words ++ replicate (length mem - lead - ws * n) 0.

(** The effect of [ForceZero] at any address. *)
Definition ForceZero (mem : bytes) : bytes := replicate (length mem) 0.

(** ** Words: lemmas *)

Lemma rotrFixed_range x y : 0 <= x < 2 ^ 32 -> 0 <= y -> 0 <= rotrFixed x y < 2 ^ 32.
Proof.
  intros Hx Hy. apply lor_bound; [lia| |apply w32_range]. by apply shiftr_bound.
Qed.

Lemma ByteReverseWord32_range x : 0 <= ByteReverseWord32 x < 2 ^ 32.
Proof.
  unfold ByteReverseWord32.
  apply lor_bound; [lia| |]; apply land_bound_r; lia.
Qed.

(** Equality of two expressions over the bytes of a word, bit by bit: the bits
    of the bytes are abstracted and the positions are evaluated. *)
Ltac by_bits n :=
  apply (bits_inj_bounded (Z.of_nat n)); [lia| | |];
  [..|intros i Hi; autorewrite with anybits;
      rewrite ?testbit_le_combine by solve_bytes;
      revert i Hi; cbn [map];
      repeat match goal with
      | |- context [Z.testbit ?a] => is_var a; let f := fresh "f" in generalize (Z.testbit a) as f; intros f
      end;
      apply (below_forall n); 
      match goal with |- Forall ?P _ => let p := fresh "P" in set (p := P) end;
      cbn [seq map]; repeat apply Forall_cons_2; first [apply Forall_nil_2|vm_compute; btauto]].

Lemma ByteReverseWord32_le a b c d :
  bytes_ok [a; b; c; d] -> ByteReverseWord32 (le_combine [a; b; c; d]) = be_combine [a; b; c; d].
Proof.
  intros H. pose proof (be_combine_range _ H) as Hr. split_bytes.
  pose proof (ByteReverseWord32_range (le_combine [a; b; c; d])) as Hb.
  unfold ByteReverseWord32, rotrFixed, rotlFixed, be_combine in *. cbn [rev app] in *.
  by_bits 32%nat; done.
Qed.

Lemma ByteReverseWord64_le a b c d e f g h :
  bytes_ok [a; b; c; d; e; f; g; h] ->
  ByteReverseWord64 (le_combine [a; b; c; d; e; f; g; h]) = be_combine [a; b; c; d; e; f; g; h].
Proof.
  intros H. pose proof (be_combine_range _ H) as Hr.
  assert (0 <= ByteReverseWord64 (le_combine [a; b; c; d; e; f; g; h]) < 2 ^ 64) as Hb.
  { pose proof (le_combine_range _ H) as Hl. apply lor_bound; [lia|apply w64_range|].
    apply shiftr_bound; [lia|]. apply lor_bound; [lia|apply shiftr_bound, land_bound_r; lia|].
    rewrite Z.shiftl_mul_pow2 by lia.
    pose proof (land_bound_r 48 (Z.lor (Z.land (le_combine [a; b; c; d; e; f; g; h]) 18374966859414961920 ≫ 8)
      (Z.land (le_combine [a; b; c; d; e; f; g; h]) 71777214294589695 ≪ 8)) 281470681808895 ltac:(lia) ltac:(lia)). lia. }
  split_bytes. unfold ByteReverseWord64, rotlFixed64, be_combine in *. cbv zeta in *.
  cbn [rev app] in *. by_bits 64%nat; done.
Qed.

(** Reversing the words of a buffer reverses each group of four bytes. *)
Lemma length_flat_map_const {A B} n (f : A -> list B) l :
  (forall x, x ∈ l -> length (f x) = n) -> length (flat_map f l) = (n * length l)%nat.
Proof.
  induction l as [|x l IH]; intros H; simpl; [lia|].
  rewrite length_app, IH by (intros y Hy; apply H; by right). rewrite (H x) by (by left). lia.
Qed.

Lemma length_group {A} n k (l : list A) : length (group n k l) = k.
Proof. revert l; induction k; intros l; simpl; auto. Qed.

Lemma length_ByteReverseWords l n : length (ByteReverseWords l n) = (4 * Z.to_nat (n / 4))%nat.
Proof.
  unfold ByteReverseWords. rewrite (length_flat_map_const 4), length_group; [done|].
  intros. apply le_split_length.
Qed.

Lemma ByteReverseWords_rev l n :
  bytes_ok l -> (4 * Z.to_nat (n / 4) <= length l)%nat ->
  ByteReverseWords l n = flat_map (fun w => rev w) (group 4 (Z.to_nat (n / 4)) l).
Proof.
  unfold ByteReverseWords. generalize (Z.to_nat (n / 4)) as k. intros k.
  revert l; induction k as [|k IH]; intros l Hl Hlen; [done|].
  destruct l as [|a [|b [|c [|d l]]]]; try (simpl in Hlen; lia).
  cbn [group take drop flat_map]. rewrite take_0, drop_0, IH; [|split_bytes; done|cbn [length] in Hlen; lia]. f_equal.
  assert (bytes_ok [a; b; c; d]) as H4 by (split_bytes; solve_bytes).
  rewrite ByteReverseWord32_le by done. unfold be_combine.
  apply (le_split_combine (rev [a; b; c; d])). auto with wf.
Qed.

Lemma ctMaskWord32GTE_spec a b :
  0 <= a < 2 ^ 32 -> 0 <= b < 2 ^ 32 -> ctMaskWord32GTE a b = if b <=? a then 0xffffffff else 0.
Proof.
  intros Ha Hb. unfold ctMaskWord32GTE. rewrite w64_mod, Z.shiftr_div_pow2 by lia.
  destruct (Z.leb_spec b a).
  - rewrite (Z.mod_small (a - b)), (Z.div_small (a - b)) by lia. done.
  - replace ((a - b) mod 2 ^ 64) with (a - b + 2 ^ 64).
    + replace ((a - b + 2 ^ 64) / 2 ^ 63) with 1; [done|].
      apply Z.div_unique with (a - b + 2 ^ 63); lia.
    + apply Z.mod_unique with (-1); lia.
Qed.

(** The branch-free minimum is the minimum. *)
Lemma min_ct_spec a b : 0 <= a < 2 ^ 32 -> 0 <= b < 2 ^ 32 -> min_ct a b = Z.min a b.
Proof.
  intros Ha Hb. unfold min_ct. rewrite ctMaskWord32GTE_spec by done.
  destruct (Z.leb_spec b a).
  - change (w32 (Z.lnot 4294967295)) with 0. change (Z.land b 4294967295) with (w32 b).
    rewrite Z.land_0_r, w32_id, Z.lor_0_l by done. lia.
  - change (w32 (Z.lnot 0)) with 0xffffffff. change (Z.land a 0xffffffff) with (w32 a).
    rewrite Z.land_0_r, w32_id, Z.lor_0_r by done. lia.
Qed.

Lemma ConstantCompare_loop_0 a b n s :
  (n <= length a)%nat -> (n <= length b)%nat ->
  ConstantCompare_loop a b n s = 0 <-> s = 0 /\ take n a = take n b.
Proof.
  revert a b s; induction n as [|n IH]; intros a b s Ha Hb; [by destruct a, b; simpl; naive_solver|].
  destruct a as [|x a], b as [|y b]; simpl in *; try lia. rewrite IH by lia.
  rewrite Z.lor_eq_0_iff, Z.lxor_eq_0_iff. intuition congruence.
Qed.

(** A zero result says exactly that the compared prefixes are equal. *)
Lemma ConstantCompare_0 a b n :
  n <= len a -> n <= len b ->
  ConstantCompare a b n = 0 <-> take (Z.to_nat n) a = take (Z.to_nat n) b.
Proof.
  unfold len, ConstantCompare; intros. rewrite ConstantCompare_loop_0 by lia. intuition.
Qed.

Lemma ConstantCompare_loop_range a b n s :
  bytes_ok a -> bytes_ok b -> 0 <= s < 256 -> 0 <= ConstantCompare_loop a b n s < 256.
Proof.
  revert a b s; induction n as [|n IH]; intros a b s Ha Hb Hs; [by destruct a, b|].
  destruct a as [|x a], b as [|y b]; [done..|]. simpl. split_bytes. apply IH; [done..|].
  apply (lor_bound 8); [lia|done|]. by apply (lxor_bound 8).
Qed.

(** ** Buffers: lemmas *)

Lemma len_xorbufout b m n : 0 <= n -> n <= len b -> n <= len m -> len (xorbufout b m n) = n.
Proof. unfold len, xorbufout, xorb_list. rewrite length_zip_with, !length_take. lia. Qed.
#[export] Hint Rewrite len_xorbufout using (autorewrite with lens; lia) : lens.

Lemma xorb_app a1 a2 b1 b2 :
  length a1 = length b1 -> xorb_list (a1 ++ a2) (b1 ++ b2) = xorb_list a1 b1 ++ xorb_list a2 b2.
Proof. apply zip_with_app. Qed.

(** A machine word at a time is a byte at a time. *)
Lemma XorWordsOut_bytes ws a b n :
  bytes_ok a -> bytes_ok b -> (ws * n <= length a)%nat -> (ws * n <= length b)%nat ->
  XorWordsOut ws a b n = xorb_list (take (ws * n) a) (take (ws * n) b).
Proof.
  unfold XorWordsOut. revert a b; induction n as [|n IH]; intros a b Ha Hb La Lb.
  - by rewrite Nat.mul_0_r.
  - cbn [group zip_with flat_map].
    rewrite IH by (rewrite ?length_drop; auto with wf; lia). simpl fst; simpl snd.
    rewrite <-le_combine_xor by (rewrite ?length_take; auto with wf; lia).
    replace (ws * S n)%nat with (ws + ws * n)%nat by lia.
    rewrite <-!take_take_drop, xorb_app by (rewrite !length_take; lia). f_equal.
    replace ws with (length (xorb_list (take ws a) (take ws b))) at 1.
    + apply le_split_combine; auto with wf.
    + unfold xorb_list. rewrite length_zip_with, !length_take. lia.
Qed.

Lemma xorbufout_split b m k n :
  0 <= k -> 0 <= n -> k + n <= len b -> k + n <= len m ->
  xorbufout b m k ++ xorbufout (drop (Z.to_nat k) b) (drop (Z.to_nat k) m) n = xorbufout b m (k + n).
Proof.
  unfold xorbufout, len. intros. rewrite Z2Nat.inj_add by lia.
  rewrite <-!take_take_drop, xorb_app; [done|]. rewrite !length_take; lia.
Qed.

(** Whatever the addresses of the three buffers and the machine's word size,
    [xorbufout] stores the byte-wise exclusive or. *)
Lemma xorbufout_at_bytes ws o b m buf mask count :
  (0 < ws)%nat -> bytes_ok buf -> bytes_ok mask ->
  0 <= count <= len buf -> count <= len mask ->
  xorbufout_at ws o b m buf mask count = xorbufout buf mask count.
Proof.
  intros Hws Hb Hm Hc Hc'.
  assert (forall buf mask count, bytes_ok buf -> bytes_ok mask -> 0 <= count <= len buf ->
    count <= len mask ->
    XorWordsOut ws buf mask (Z.to_nat (count / Z.of_nat ws)) ++
    xorbufout (drop (ws * Z.to_nat (count / Z.of_nat ws)) buf)
      (drop (ws * Z.to_nat (count / Z.of_nat ws)) mask) (count mod Z.of_nat ws) =
    xorbufout buf mask count) as Hwords.
  { clear -Hws. intros buf mask count Hb Hm Hc Hc'.
    assert (0 <= count / Z.of_nat ws) by (apply Z.div_pos; lia).
    pose proof (Z.div_mod count (Z.of_nat ws) ltac:(lia)).
    pose proof (Z.mod_pos_bound count (Z.of_nat ws) ltac:(lia)).
    set (q := count / Z.of_nat ws) in *. set (r := count mod Z.of_nat ws) in *.
    assert (count = Z.of_nat (ws * Z.to_nat q) + r) as Hq by lia. unfold len in *.
    rewrite XorWordsOut_bytes, Hq, <-xorbufout_split by (auto; unfold len; lia).
    unfold xorbufout at 2. by rewrite Nat2Z.id. }
  unfold xorbufout_at. destruct (_ && _ && _); [by apply Hwords|].
  destruct (_ && _); [|done].
  pose proof (Z.mod_pos_bound (- b) (Z.of_nat ws) ltac:(lia)).
  rewrite Hwords by (unfold len in *; rewrite ?length_drop; auto with wf; lia).
  set (lead := Z.min count (- b mod Z.of_nat ws)).
  assert (count = lead + (count - lead)) as Hl by lia.
  transitivity (xorbufout buf mask (lead + (count - lead))); [|by rewrite <-Hl].
  rewrite <-xorbufout_split, Z2Nat.id by lia. done.
Qed.

Lemma le_split_0 n : le_split n 0 = replicate n 0.
Proof. induction n as [|n IH]; [done|]. cbn [le_split replicate]. rewrite Z.shiftr_0_l, IH. done. Qed.

(** Every byte is overwritten by zero, at any address and word size. *)
Lemma ForceZero_at_zero ws addr mem :
  (0 < ws)%nat -> ForceZero_at ws addr mem = ForceZero mem.
Proof.
  intros Hws. unfold ForceZero_at, ForceZero.
  set (lead := Z.to_nat _). set (n := ((length mem - lead) / ws)%nat).
  assert (lead <= length mem)%nat by (unfold lead, len; lia).
  assert (ws * n <= length mem - lead)%nat by apply Nat.Div0.mul_div_le.
  assert (forall j k, flat_map (fun _ : nat => le_split ws 0) (seq j k) = replicate (ws * k) 0) as ->.
  { intros j k; revert j; induction k as [|k IH]; intros j; [by rewrite Nat.mul_0_r|].
    cbn [seq flat_map]. rewrite IH, le_split_0, <-replicate_add. f_equal; lia. }
  rewrite <-!replicate_add. f_equal. lia.
Qed.
