(* ===== verification/CryptoCb.v ===== *)
(** * CryptoCb: the device table and the callback dispatch of cryptocb.c

    wolfCrypt keeps a table of eight devices.  A key, hash or cipher object
    carries a device id, and the routine that works on it first offers the
    request to the callback registered under that id.  The function pointers in
    the table are names ([cbref]); calling one is [invoke], a member of the
    class [Callbacks] that the owner of the callbacks implements. *)

From stdpp Require Import gmap.
From S2P Require Import Prelude Platform Types.

(** types.h:1867, [INVALID_DEVID] *)
Definition INVALID_DEVID := -2.

(** cryptocb.h:999, [MAX_CRYPTO_DEVID_CALLBACKS] *)
Notation MAX_CRYPTO_DEVID_CALLBACKS := (8)%nat (only parsing).

(** ** The table *)

Section Table.
  Implicit Types tbl : list CryptoCb.

(** cryptocb.c:425-438, [wc_CryptoCb_GetDevice]: the index of the first slot
    that holds [devId]. *)
Definition wc_CryptoCb_GetDevice tbl (devId : Z) : option nat :=
  fst <$> list_find (fun d => cc_devId d = devId) tbl.

(** cryptocb.c:442-452, [wc_CryptoCb_GetFreeDevice] *)
Definition wc_CryptoCb_GetFreeDevice tbl : option nat :=
  fst <$> list_find (fun d => cc_devId d = INVALID_DEVID /\ cc_cb d = None) tbl.

(** cryptocb.c:456-461, [wc_CryptoCb_IsDeviceRegistered] *)
Definition wc_CryptoCb_IsDeviceRegistered tbl (devId : Z) : bool :=
  if devId =? INVALID_DEVID then false else bool_decide (is_Some (wc_CryptoCb_GetDevice tbl devId)).

(** cryptocb.c:466-477, [wc_CryptoCb_FindDevice] *)
Definition wc_CryptoCb_FindDevice tbl (devId : Z) : option CryptoCb :=
  i ← wc_CryptoCb_GetDevice tbl devId; tbl !! i.

(** cryptocb.c:480-488, [wc_CryptoCb_FindDeviceByIndex] *)
Definition wc_CryptoCb_FindDeviceByIndex tbl (startIdx : nat) : option CryptoCb :=
  snd <$> list_find (fun d => cc_devId d <> INVALID_DEVID) (drop startIdx tbl).

(** cryptocb.c:527-535, [wc_CryptoCb_GetDevIdAtIndex] *)
Definition wc_CryptoCb_GetDevIdAtIndex tbl (startIdx : nat) : Z :=
  match wc_CryptoCb_FindDeviceByIndex tbl startIdx with
  | Some dev => cc_devId dev
  | None => INVALID_DEVID
  end.

(** cryptocb.c:500-507, [wc_CryptoCb_ClearDev]: the cleared slot. *)
Definition wc_CryptoCb_ClearDev : CryptoCb :=
  {| cc_devId := INVALID_DEVID; cc_cb := None; cc_ctx := 0 |}.

(** cryptocb.c:509-515, [wc_CryptoCb_Init] *)
Definition wc_CryptoCb_Init tbl : list CryptoCb := (fun _ => wc_CryptoCb_ClearDev) <$> tbl.

(** cryptocb.c:580-637, [wc_CryptoCb_RegisterDevice] *)
Definition wc_CryptoCb_RegisterDevice tbl (devId : Z) (cb : option cbref) (ctx : Z)
    : Z * list CryptoCb :=
  if devId =? INVALID_DEVID then (BAD_FUNC_ARG, tbl)
  else match wc_CryptoCb_GetDevice tbl devId with
  | Some _ => (ALREADY_E, tbl)
  | None =>
    match wc_CryptoCb_GetFreeDevice tbl with
    | None => (BUFFER_E, tbl)
    | Some i => (0, <[i := {| cc_devId := devId; cc_cb := cb; cc_ctx := ctx |}]> tbl)
    end
  end.

(** cryptocb.c:639-666, [wc_CryptoCb_UnRegisterDevice] *)
Definition wc_CryptoCb_UnRegisterDevice tbl (devId : Z) : list CryptoCb :=
  if devId =? INVALID_DEVID then tbl
  else match wc_CryptoCb_GetDevice tbl devId with
  | None => tbl
  | Some i => <[i := wc_CryptoCb_ClearDev]> tbl
  end.

(** cryptocb.c:517-525, [wc_CryptoCb_Cleanup] *)
Definition wc_CryptoCb_Cleanup tbl : list CryptoCb :=
  foldl (fun t i =>
    match t !! i with
    | Some d => if cc_devId d =? INVALID_DEVID then t else wc_CryptoCb_UnRegisterDevice t (cc_devId d)
    | None => t
    end) tbl (seq 0 MAX_CRYPTO_DEVID_CALLBACKS).

End Table.

(** cryptocb.c:490-497, [wc_CryptoCb_TranslateErrorCode] *)
Definition wc_CryptoCb_TranslateErrorCode (ret : Z) : Z :=
  if ret =? NOT_COMPILED_IN then CRYPTOCB_UNAVAILABLE else ret.

(** cryptocb.c:3583-3607, [wc_CryptoCb_DefaultDevID] under WC_NO_DEFAULT_DEVID *)
Definition wc_CryptoCb_DefaultDevID : Z := INVALID_DEVID.

(** ** Requests to a device *)

(** cryptocb.h:219-992, [wc_CryptoInfo]: one constructor per request the
    modelled code makes, with the members its wrapper fills in.  A member that
    is a pointer stands for what it points to. *)
Inductive wc_CryptoInfo :=
  | Pk_eckg (rng : WC_RNG) (size : Z) (key : ecc_key) (curveId : Z)
  | Pk_ecdh (private_key public_key : ecc_key) (out : bytes) (outlen : Z)
  | Pk_eccsign (inp : bytes) (inlen : Z) (out : bytes) (outlen : Z) (rng : WC_RNG) (key : ecc_key)
  | Pk_eccverify (sig : bytes) (siglen : Z) (hash : bytes) (hashlen : Z) (res : Z) (key : ecc_key)
  | Pk_ecc_check (key : ecc_key) (pubKey : bytes) (pubKeySz : Z)
  | Pk_ecc_get_size (key : ecc_key) (keySize : Z)
  | Pk_ecc_get_sig_size (key : ecc_key) (sigSize : Z)
  | Cipher_aesgcm (enc : bool) (aes : Aes) (out inp : option bytes) (sz : Z) (iv : option bytes)
      (ivSz : Z) (authTag : option bytes) (authTagSz : Z) (authIn : option bytes) (authInSz : Z)
  | Cipher_aescbc (enc : bool) (aes : Aes) (out inp : bytes) (sz : Z)
  | Hash_sha256 (sha256 : wc_Sha256) (inp : option bytes) (inSz : Z) (digest : option bytes)
  | Hmac_req (macType : Z) (inp : option bytes) (inSz : Z) (digest : option bytes) (hmac : Hmac)
  | Rng_req (rng : WC_RNG) (out : bytes) (sz : Z)
  | Seed_req (os : OS_Seed) (seed : bytes) (sz : Z)
  | Kdf_hkdf (hashType : Z) (inKey : bytes) (salt info : option bytes) (out : bytes)
  | Kdf_hkdf_extract (hashType : Z) (salt : option bytes) (inKey out : bytes)
  | Kdf_hkdf_expand (hashType : Z) (inKey : bytes) (info : option bytes) (out : bytes).

(** What a callback can write: the objects and buffers it was given pointers
    to that are not [const]. *)
Definition reply (i : wc_CryptoInfo) : Type :=
  match i with
  | Pk_eckg _ _ _ _ => WC_RNG * ecc_key
  | Pk_ecdh _ _ _ _ => bytes * Z
  | Pk_eccsign _ _ _ _ _ _ => bytes * Z * WC_RNG
  | Pk_eccverify _ _ _ _ _ _ => Z
  | Pk_ecc_check _ _ _ => unit
  | Pk_ecc_get_size _ _ | Pk_ecc_get_sig_size _ _ => Z
  | Cipher_aesgcm _ _ _ _ _ _ _ _ _ _ _ => Aes * option bytes * option bytes
  | Cipher_aescbc _ _ _ _ _ => Aes * bytes
  | Hash_sha256 _ _ _ _ => wc_Sha256 * option bytes
  | Hmac_req _ _ _ _ _ => Hmac * option bytes
  | Rng_req _ _ _ => WC_RNG * bytes
  | Seed_req _ _ _ => OS_Seed * bytes
  | Kdf_hkdf _ _ _ _ _ | Kdf_hkdf_extract _ _ _ _ | Kdf_hkdf_expand _ _ _ _ => bytes
  end%type.

(** The reply of a callback that writes nothing. *)
Definition untouched (i : wc_CryptoInfo) : reply i :=
  match i with
  | Pk_eckg rng _ key _ => (rng, key)
  | Pk_ecdh _ _ out outlen => (out, outlen)
  | Pk_eccsign _ _ out outlen rng _ => (out, outlen, rng)
  | Pk_eccverify _ _ _ _ res _ => res
  | Pk_ecc_check _ _ _ => tt
  | Pk_ecc_get_size _ n | Pk_ecc_get_sig_size _ n => n
  | Cipher_aesgcm _ aes out _ _ _ _ tag _ _ _ => (aes, out, tag)
  | Cipher_aescbc _ aes out _ _ => (aes, out)
  | Hash_sha256 sha _ _ digest => (sha, digest)
  | Hmac_req _ _ _ digest hmac => (hmac, digest)
  | Rng_req rng out _ => (rng, out)
  | Seed_req o seed _ => (o, seed)
  | Kdf_hkdf _ _ _ _ out | Kdf_hkdf_extract _ _ _ out | Kdf_hkdf_expand _ _ _ out => out
  end.

(** The registered functions: [invoke cb devId info ctx] is the call
    [cb(devId, info, ctx)], giving the return code and what was written. *)
Class Callbacks := invoke : cbref -> Z -> forall i : wc_CryptoInfo, Z -> M (Z * reply i).

Section Dispatch.
  Context `{!Callbacks}.

(** The body the wrappers share, e.g. cryptocb.c:909-923: look the device up,
    call it if it has a callback, translate the code. *)
Definition cb_dispatch (devId : Z) (i : wc_CryptoInfo) : M (Z * reply i) :=
  w ← get;
  match wc_CryptoCb_FindDevice (gCryptoDev w) devId with
  | Some {| cc_devId := d; cc_cb := Some cb; cc_ctx := ctx |} =>
      '(ret, r) ← invoke cb d i ctx;
      mret (wc_CryptoCb_TranslateErrorCode ret, r)
  | _ => mret (wc_CryptoCb_TranslateErrorCode CRYPTOCB_UNAVAILABLE, untouched i)
  end.

(** cryptocb.c:873-897, [wc_CryptoCb_MakeEccKey] *)
Definition wc_CryptoCb_MakeEccKey rng keySize key curveId :=
  cb_dispatch (ek_devId key) (Pk_eckg rng keySize key curveId).

(** cryptocb.c:899-924, [wc_CryptoCb_Ecdh] *)
Definition wc_CryptoCb_Ecdh private_key public_key out outlen :=
  cb_dispatch (ek_devId private_key) (Pk_ecdh private_key public_key out outlen).

(** cryptocb.c:928-955, [wc_CryptoCb_EccSign] *)
Definition wc_CryptoCb_EccSign inp inlen out outlen rng key :=
  cb_dispatch (ek_devId key) (Pk_eccsign inp inlen out outlen rng key).

(** cryptocb.c:959-986, [wc_CryptoCb_EccVerify] *)
Definition wc_CryptoCb_EccVerify sig siglen hash hashlen res key :=
  cb_dispatch (ek_devId key) (Pk_eccverify sig siglen hash hashlen res key).

(** cryptocb.c:990-1014, [wc_CryptoCb_EccCheckPrivKey] *)
Definition wc_CryptoCb_EccCheckPrivKey key pubKey pubKeySz :=
  cb_dispatch (ek_devId key) (Pk_ecc_check key pubKey pubKeySz).

(** cryptocb.c:1017-1039, [wc_CryptoCb_EccGetSize] *)
Definition wc_CryptoCb_EccGetSize key keySize :=
  cb_dispatch (ek_devId key) (Pk_ecc_get_size key keySize).

(** cryptocb.c:1041-1063, [wc_CryptoCb_EccGetSigSize] *)
Definition wc_CryptoCb_EccGetSigSize key sigSize :=
  cb_dispatch (ek_devId key) (Pk_ecc_get_sig_size key sigSize).

(** cryptocb.c:2254-2293, [wc_CryptoCb_AesGcmEncrypt] *)
Definition wc_CryptoCb_AesGcmEncrypt aes out inp sz iv ivSz authTag authTagSz authIn authInSz :=
  cb_dispatch (aes_devId aes)
    (Cipher_aesgcm true aes out inp sz iv ivSz authTag authTagSz authIn authInSz).

(** cryptocb.c:2295-2334, [wc_CryptoCb_AesGcmDecrypt] *)
Definition wc_CryptoCb_AesGcmDecrypt aes out inp sz iv ivSz authTag authTagSz authIn authInSz :=
  cb_dispatch (aes_devId aes)
    (Cipher_aesgcm false aes out inp sz iv ivSz authTag authTagSz authIn authInSz).

(** cryptocb.c:2422-2452, [wc_CryptoCb_AesCbcEncrypt] *)
Definition wc_CryptoCb_AesCbcEncrypt aes out inp sz :=
  cb_dispatch (aes_devId aes) (Cipher_aescbc true aes out inp sz).

(** cryptocb.c:2454-2484, [wc_CryptoCb_AesCbcDecrypt] *)
Definition wc_CryptoCb_AesCbcDecrypt aes out inp sz :=
  cb_dispatch (aes_devId aes) (Cipher_aescbc false aes out inp sz).

(** cryptocb.c:2970-2999, [wc_CryptoCb_Sha256Hash] *)
Definition wc_CryptoCb_Sha256Hash sha256 inp inSz digest :=
  cb_dispatch (sha_devId sha256) (Hash_sha256 sha256 inp inSz digest).

(** cryptocb.c:3253-3278, [wc_CryptoCb_Hmac] *)
Definition wc_CryptoCb_Hmac hmac macType inp inSz digest :=
  cb_dispatch (hm_devId hmac) (Hmac_req macType inp inSz digest hmac).

(** cryptocb.c:3282-3308, [wc_CryptoCb_RandomBlock] *)
Definition wc_CryptoCb_RandomBlock rng out sz :=
  cb_dispatch (rng_devId rng) (Rng_req rng out sz).

(** cryptocb.c:3310-3329, [wc_CryptoCb_RandomSeed] *)
Definition wc_CryptoCb_RandomSeed os seed sz :=
  cb_dispatch (seed_devId os) (Seed_req os seed sz).

(** cryptocb.c:3610-3640, [wc_CryptoCb_Hkdf] *)
Definition wc_CryptoCb_Hkdf hashType inKey salt info out devId :=
  cb_dispatch devId (Kdf_hkdf hashType inKey salt info out).

(** cryptocb.c:3643-3669, [wc_CryptoCb_Hkdf_Extract] *)
Definition wc_CryptoCb_Hkdf_Extract hashType salt inKey out devId :=
  cb_dispatch devId (Kdf_hkdf_extract hashType salt inKey out).

(** cryptocb.c:3671-3699, [wc_CryptoCb_Hkdf_Expand] *)
Definition wc_CryptoCb_Hkdf_Expand hashType inKey info out devId :=
  cb_dispatch devId (Kdf_hkdf_expand hashType inKey info out).

End Dispatch.

(** ** The table as a finite map *)

(** A slot is either free, with no callback, or holds a device. *)
Definition slot_ok (d : CryptoCb) : Prop := cc_devId d = INVALID_DEVID -> cc_cb d = None.

Definition slot_entry (d : CryptoCb) : option (Z * (option cbref * Z)) :=
  if cc_devId d =? INVALID_DEVID then None else Some (cc_devId d, (cc_cb d, cc_ctx d)).

(** The devices a table holds, by id. *)
Definition devices (tbl : list CryptoCb) : gmap Z (option cbref * Z) :=
  list_to_map (omap slot_entry tbl).

(** Eight slots, free ones empty, and no id twice. *)
Record table_ok (tbl : list CryptoCb) : Prop := {
  table_len : length tbl = MAX_CRYPTO_DEVID_CALLBACKS;
  table_slots : Forall slot_ok tbl;
  table_nodup : NoDup (omap slot_entry tbl).*1;
}.

Section TableLemmas.
  Implicit Types tbl : list CryptoCb.

Lemma elem_entries tbl devId v :
  (devId, v) ∈ omap slot_entry tbl <->
  devId <> INVALID_DEVID /\ exists d, d ∈ tbl /\ cc_devId d = devId /\ v = (cc_cb d, cc_ctx d).
Proof.
  rewrite list_elem_of_omap. unfold slot_entry. split.
  - intros (d & Hd & H). destruct (Z.eqb_spec (cc_devId d) INVALID_DEVID); simplify_eq. eauto.
  - intros (Hne & d & Hd & <- & ->). exists d. split; [done|]. by rewrite (proj2 (Z.eqb_neq _ _) Hne).
Qed.

Lemma devices_lookup tbl devId v :
  table_ok tbl ->
  devices tbl !! devId = Some v <->
  devId <> INVALID_DEVID /\ exists d, d ∈ tbl /\ cc_devId d = devId /\ v = (cc_cb d, cc_ctx d).
Proof.
  intros [_ _ Hnd]. rewrite <-elem_entries. symmetry. by apply elem_of_list_to_map.
Qed.

(** [wc_CryptoCb_GetDevice] finds the slot of a device exactly when the map
    has it. *)
Lemma GetDevice_Some tbl devId i :
  wc_CryptoCb_GetDevice tbl devId = Some i -> exists d, tbl !! i = Some d /\ cc_devId d = devId.
Proof.
  unfold wc_CryptoCb_GetDevice. rewrite fmap_Some. intros ([j d] & Hf & ->).
  apply list_find_Some in Hf as (? & ? & _). eauto.
Qed.

Lemma GetDevice_None tbl devId :
  wc_CryptoCb_GetDevice tbl devId = None -> forall d, d ∈ tbl -> cc_devId d <> devId.
Proof.
  unfold wc_CryptoCb_GetDevice. rewrite fmap_None, list_find_None, list.Forall_forall. intros H d Hd. by apply H.
Qed.

Lemma GetFreeDevice_Some tbl i :
  wc_CryptoCb_GetFreeDevice tbl = Some i ->
  exists d, tbl !! i = Some d /\ cc_devId d = INVALID_DEVID.
Proof.
  unfold wc_CryptoCb_GetFreeDevice. rewrite fmap_Some. intros ([j d] & Hf & ->).
  apply list_find_Some in Hf as (? & [? ?] & _). eauto.
Qed.

(** What the table says of a device agrees with the map. *)
Lemma FindDevice_devices tbl devId :
  table_ok tbl -> devId <> INVALID_DEVID ->
  (fun d => (cc_cb d, cc_ctx d)) <$> wc_CryptoCb_FindDevice tbl devId = devices tbl !! devId.
Proof.
  intros Hok Hne. unfold wc_CryptoCb_FindDevice.
  destruct (wc_CryptoCb_GetDevice tbl devId) as [i|] eqn:E; simpl.
  - apply GetDevice_Some in E as (d & Hi & Hd). rewrite Hi. symmetry.
    apply devices_lookup; [done|]. split; [done|]. exists d. split; [by eapply list_elem_of_lookup_2|done].
  - symmetry. apply eq_None_not_Some. intros [v Hv]. apply devices_lookup in Hv as (_ & d & Hd & <- & _); [|done].
    by apply (GetDevice_None _ _ E d).
Qed.

(** Writing one slot, on entries. *)
Lemma entries_insert tbl i d d' :
  tbl !! i = Some d ->
  exists l k, omap slot_entry tbl = l ++ option_list (slot_entry d) ++ k /\
    omap slot_entry (<[i := d']> tbl) = l ++ option_list (slot_entry d') ++ k.
Proof.
  intros Hi. pose proof (lookup_lt_Some _ _ _ Hi).
  exists (omap slot_entry (take i tbl)), (omap slot_entry (drop (S i) tbl)). split.
  - rewrite <-(take_drop_middle tbl i d Hi) at 1. rewrite omap_app. cbn. by destruct (slot_entry d).
  - rewrite insert_take_drop by done. rewrite omap_app. cbn. by destruct (slot_entry d').
Qed.

Lemma slot_entry_free d : cc_devId d = INVALID_DEVID -> slot_entry d = None.
Proof. unfold slot_entry. by intros ->. Qed.

Lemma slot_entry_dev d :
  cc_devId d <> INVALID_DEVID -> slot_entry d = Some (cc_devId d, (cc_cb d, cc_ctx d)).
Proof. unfold slot_entry. intros H. by rewrite (proj2 (Z.eqb_neq _ _) H). Qed.

(** Clearing the slot of a device removes it and nothing else. *)
Lemma clear_slot tbl i d :
  table_ok tbl -> tbl !! i = Some d -> cc_devId d <> INVALID_DEVID ->
  table_ok (<[i := wc_CryptoCb_ClearDev]> tbl) /\
  devices (<[i := wc_CryptoCb_ClearDev]> tbl) = delete (cc_devId d) (devices tbl).
Proof.
  intros [Hl Hs Hnd] Hi Hne. unfold devices.
  destruct (entries_insert tbl i d wc_CryptoCb_ClearDev Hi) as (l & k & E1 & E2).
  rewrite slot_entry_dev in E1 by done. rewrite slot_entry_free in E2 by done. cbn in E1, E2.
  rewrite E1 in Hnd |- *. split; [split|].
  - by rewrite length_insert.
  - apply Forall_insert; [done|]. by intros _.
  - rewrite E2, fmap_app in *. cbn in Hnd. apply list.NoDup_app in Hnd as (? & Hd & Hk%list.NoDup_cons).
    apply list.NoDup_app. split; [done|]. split; [|naive_solver]. intros x Hx Hx'. apply (Hd x Hx). by right.
  - rewrite E2. rewrite !list_to_map_app. cbn. rewrite fmap_app in Hnd. cbn in Hnd.
    apply list.NoDup_app in Hnd as (? & Hd & [Hk _]%list.NoDup_cons).
    rewrite delete_union, delete_insert_eq.
    rewrite !(delete_id (list_to_map _)); [done|..]; apply not_elem_of_list_to_map_1; [done|].
    intros Hx. apply (Hd _ Hx). by left.
Qed.

(** Filling a free slot adds a device and touches no other. *)
Lemma fill_slot tbl i d d' :
  table_ok tbl -> tbl !! i = Some d -> cc_devId d = INVALID_DEVID ->
  cc_devId d' <> INVALID_DEVID -> (forall x, x ∈ tbl -> cc_devId x <> cc_devId d') ->
  table_ok (<[i := d']> tbl) /\
  devices (<[i := d']> tbl) = <[cc_devId d' := (cc_cb d', cc_ctx d')]> (devices tbl).
Proof.
  intros [Hl Hs Hnd] Hi Hf Hne Hnew. unfold devices.
  assert (cc_devId d' ∉ (omap slot_entry tbl).*1) as Hout.
  { rewrite list_elem_of_fmap. intros ([x v] & Hx & Hin). simpl in Hx. subst x.
    apply elem_entries in Hin as (_ & y & Hy & He & _). by apply (Hnew y Hy). }
  destruct (entries_insert tbl i d d' Hi) as (l & k & E1 & E2).
  rewrite slot_entry_free in E1 by done. rewrite slot_entry_dev in E2 by done. cbn in E1, E2.
  rewrite E1 in Hnd, Hout |- *. rewrite fmap_app in Hnd, Hout. split; [split|].
  - by rewrite length_insert.
  - apply Forall_insert; [done|]. by intros ?.
  - rewrite E2, fmap_app. cbn. rewrite <-Permutation_middle. by apply list.NoDup_cons.
  - rewrite E2, !list_to_map_app. cbn. rewrite insert_union_r; [done|].
    apply not_elem_of_list_to_map_1. intros Hx. apply Hout, elem_of_app. by left.
Qed.

(** Registration adds exactly the new device, or fails and changes nothing:
    for the invalid id, for an id that is taken, for a full table. *)
Lemma RegisterDevice_spec tbl devId cb ctx ret tbl' :
  table_ok tbl -> wc_CryptoCb_RegisterDevice tbl devId cb ctx = (ret, tbl') ->
  table_ok tbl' /\
  ((ret = 0 /\ devId <> INVALID_DEVID /\ devices tbl !! devId = None /\
    devices tbl' = <[devId := (cb, ctx)]> (devices tbl)) \/
   (ret = BAD_FUNC_ARG /\ devId = INVALID_DEVID /\ tbl' = tbl) \/
   (ret = ALREADY_E /\ is_Some (devices tbl !! devId) /\ tbl' = tbl) \/
   (ret = BUFFER_E /\ devices tbl !! devId = None /\ tbl' = tbl /\
    Forall (fun d => cc_devId d <> INVALID_DEVID) tbl)).
Proof.
  intros Hok. unfold wc_CryptoCb_RegisterDevice.
  destruct (Z.eqb_spec devId INVALID_DEVID) as [->|Hne]; [intros [= <- <-]; naive_solver|].
  pose proof (FindDevice_devices tbl devId Hok Hne) as Hfind. unfold wc_CryptoCb_FindDevice in Hfind.
  destruct (wc_CryptoCb_GetDevice tbl devId) as [i|] eqn:E.
  - intros [= <- <-]. apply GetDevice_Some in E as (d & Hi & Hd).
    cbn in Hfind. rewrite Hi in Hfind. cbn in Hfind. rewrite <-Hfind. naive_solver.
  - cbn in Hfind. destruct (wc_CryptoCb_GetFreeDevice tbl) as [i|] eqn:Ef; intros [= <- <-].
    + apply GetFreeDevice_Some in Ef as (d & Hi & Hd).
      destruct (fill_slot tbl i d {| cc_devId := devId; cc_cb := cb; cc_ctx := ctx |}) as [? ?];
        try done; [|naive_solver].
      intros x Hx. by apply (GetDevice_None _ _ E).
    + split; [done|]. do 3 right. split_and!; try done.
      unfold wc_CryptoCb_GetFreeDevice in Ef. rewrite fmap_None, list_find_None in Ef.
      rewrite list.Forall_forall in Ef |- *. intros x Hx Hi. apply (Ef x Hx). split; [done|].
      pose proof (table_slots _ Hok) as Hs. rewrite list.Forall_forall in Hs. by apply (Hs x Hx).
Qed.

Lemma UnRegisterDevice_spec tbl devId :
  table_ok tbl ->
  table_ok (wc_CryptoCb_UnRegisterDevice tbl devId) /\
  devices (wc_CryptoCb_UnRegisterDevice tbl devId) = delete devId (devices tbl).
Proof.
  intros Hok. unfold wc_CryptoCb_UnRegisterDevice.
  destruct (Z.eqb_spec devId INVALID_DEVID) as [->|Hne].
  - split; [done|]. symmetry. apply delete_id, eq_None_not_Some. intros [v Hv].
    apply devices_lookup in Hv; naive_solver.
  - pose proof (FindDevice_devices tbl devId Hok Hne) as Hfind. unfold wc_CryptoCb_FindDevice in Hfind.
    destruct (wc_CryptoCb_GetDevice tbl devId) as [i|] eqn:E.
    + apply GetDevice_Some in E as (d & Hi & <-). by apply clear_slot.
    + cbn in Hfind. by rewrite delete_id.
Qed.

(** Unregistering only clears slots. *)
Lemma UnRegisterDevice_lookup tbl devId i d :
  wc_CryptoCb_UnRegisterDevice tbl devId !! i = Some d ->
  d = wc_CryptoCb_ClearDev \/ tbl !! i = Some d.
Proof.
  unfold wc_CryptoCb_UnRegisterDevice. destruct (_ =? _); [auto|].
  destruct (wc_CryptoCb_GetDevice tbl devId) as [j|]; [|auto].
  rewrite list_lookup_insert_Some. naive_solver.
Qed.

(** The loop of [wc_CryptoCb_Cleanup] frees the slots one after the other. *)
Lemma Cleanup_loop idxs tbl :
  table_ok tbl ->
  let tbl' := foldl (fun t i =>
    match t !! i with
    | Some d => if cc_devId d =? INVALID_DEVID then t else wc_CryptoCb_UnRegisterDevice t (cc_devId d)
    | None => t
    end) tbl idxs in
  table_ok tbl' /\
  forall j d, tbl' !! j = Some d -> cc_devId d = INVALID_DEVID \/ (j ∉ idxs /\ tbl !! j = Some d).
Proof.
  revert tbl; induction idxs as [|i idxs IH]; intros tbl Hok; cbn [foldl].
  { split; [done|]. intros j d Hj. right. split; [apply not_elem_of_nil|done]. }
  set (t1 := match tbl !! i with Some d => _ | None => _ end).
  assert (table_ok t1 /\ forall j d, t1 !! j = Some d ->
    cc_devId d = INVALID_DEVID \/ (j <> i /\ tbl !! j = Some d)) as [Hok1 H1].
  { subst t1. destruct (tbl !! i) as [di|] eqn:Ei; [|split; [done|intros; right; split; [congruence|done]]].
    destruct (Z.eqb_spec (cc_devId di) INVALID_DEVID) as [|Hi].
    { split; [done|]. intros j d Hj. destruct (decide (j = i)) as [->|]; [left; congruence|by right]. }
    destruct (UnRegisterDevice_spec tbl (cc_devId di) Hok) as [Hok' Hdev]. split; [done|].
    intros j d Hj. destruct (decide (cc_devId d = INVALID_DEVID)) as [|Hd]; [by left|right].
    destruct (UnRegisterDevice_lookup _ _ _ _ Hj) as [->|Hj']; [done|]. split; [|done].
    intros ->. rewrite Ei in Hj'. simplify_eq.
    assert (devices (wc_CryptoCb_UnRegisterDevice tbl (cc_devId d)) !! cc_devId d
      = Some (cc_cb d, cc_ctx d)) as Hc.
    { apply devices_lookup; [done|]. split; [done|]. exists d. split; [|done].
      by eapply list_elem_of_lookup_2. }
    by rewrite Hdev, lookup_delete_eq in Hc. }
  destruct (IH t1 Hok1) as [Hok2 H2]. split; [done|]. intros j d Hj.
  destruct (H2 j d Hj) as [|[Hj1 Hj2]]; [by left|]. destruct (H1 j d Hj2) as [|[? ?]]; [by left|].
  right. by rewrite not_elem_of_cons.
Qed.

Lemma free_devices tbl :
  table_ok tbl -> (forall d, d ∈ tbl -> cc_devId d = INVALID_DEVID) -> devices tbl = ∅.
Proof.
  intros Hok Hf. apply map_empty. intros i. apply eq_None_not_Some. intros [v Hv].
  apply devices_lookup in Hv as (Hne & d & Hd & <- & _); auto.
Qed.

Lemma Cleanup_spec tbl :
  table_ok tbl -> table_ok (wc_CryptoCb_Cleanup tbl) /\ devices (wc_CryptoCb_Cleanup tbl) = ∅.
Proof.
  intros Hok. destruct (Cleanup_loop (seq 0 MAX_CRYPTO_DEVID_CALLBACKS) tbl Hok) as [Hok' H].
  split; [exact Hok'|]. apply free_devices; [exact Hok'|]. intros d [j Hj]%list_elem_of_lookup_1.
  destruct (H j d Hj) as [|[Hout _]]; [done|]. exfalso. apply Hout, elem_of_seq.
  apply lookup_lt_Some in Hj. pose proof (table_len _ Hok') as Hl. unfold wc_CryptoCb_Cleanup in Hj.
  cbn zeta in Hl. lia.
Qed.

Lemma Init_spec tbl :
  length tbl = MAX_CRYPTO_DEVID_CALLBACKS ->
  table_ok (wc_CryptoCb_Init tbl) /\ devices (wc_CryptoCb_Init tbl) = ∅.
Proof.
  intros Hl.
  assert (forall n, omap slot_entry (replicate n wc_CryptoCb_ClearDev) = []) as Ho by (by induction n).
  assert (wc_CryptoCb_Init tbl = replicate MAX_CRYPTO_DEVID_CALLBACKS wc_CryptoCb_ClearDev) as ->.
  { unfold wc_CryptoCb_Init. rewrite <-Hl. clear. by induction tbl; f_equal/=. }
  split; [split|].
  - done.
  - apply Forall_replicate. by intros _.
  - rewrite Ho. apply base.NoDup_nil_2.
  - unfold devices. by rewrite Ho.
Qed.
End TableLemmas.

(** ** The registry's contract

    To its users the table is a finite map from device ids to callbacks that
    holds at most eight entries.  [reg_step] is that contract, executable. *)

Inductive cb_op :=
  | OpInit
  | OpRegister (devId : Z) (cb : option cbref) (ctx : Z)
  | OpUnRegister (devId : Z)
  | OpCleanup.

Definition run_op (tbl : list CryptoCb) (o : cb_op) : Z * list CryptoCb :=
  match o with
  | OpInit => (0, wc_CryptoCb_Init tbl)
  | OpRegister devId cb ctx => wc_CryptoCb_RegisterDevice tbl devId cb ctx
  | OpUnRegister devId => (0, wc_CryptoCb_UnRegisterDevice tbl devId)
  | OpCleanup => (0, wc_CryptoCb_Cleanup tbl)
  end.

Definition reg_step (m : gmap Z (option cbref * Z)) (o : cb_op) : Z * gmap Z (option cbref * Z) :=
  match o with
  | OpInit | OpCleanup => (0, ∅)
  | OpRegister devId cb ctx =>
      if devId =? INVALID_DEVID then (BAD_FUNC_ARG, m)
      else if decide (is_Some (m !! devId)) then (ALREADY_E, m)
      else if (MAX_CRYPTO_DEVID_CALLBACKS <=? size m)%nat then (BUFFER_E, m)
      else (0, <[devId := (cb, ctx)]> m)
  | OpUnRegister devId => (0, delete devId m)
  end.

(** A history of operations: the codes it returns and the last state. *)
Fixpoint run_ops {S} (step : S -> cb_op -> Z * S) (s : S) (os : list cb_op) : list Z * S :=
  match os with
  | [] => ([], s)
  | o :: os => let '(ret, s') := step s o in
               let '(rets, s'') := run_ops step s' os in (ret :: rets, s'')
  end.

Lemma size_devices tbl : table_ok tbl -> size (devices tbl) = length (omap slot_entry tbl).
Proof.
  intros [_ _ Hnd]. unfold devices. rewrite <-length_map_to_list. by rewrite map_to_list_to_map.
Qed.

Lemma entries_full tbl :
  Forall (fun d => cc_devId d <> INVALID_DEVID) tbl -> length (omap slot_entry tbl) = length tbl.
Proof.
  induction 1 as [|d tbl Hd _ IH]; [done|]. cbn. rewrite slot_entry_dev by done. simpl. by f_equal.
Qed.

Lemma entries_free tbl i d :
  tbl !! i = Some d -> cc_devId d = INVALID_DEVID -> (length (omap slot_entry tbl) < length tbl)%nat.
Proof.
  intros Hi Hd. rewrite <-(take_drop_middle tbl i d Hi), omap_app. cbn. rewrite slot_entry_free by done.
  assert (forall l, length (omap slot_entry l) <= length l)%nat as Hle.
  { induction l as [|x l IH]; [done|]. cbn. destruct (slot_entry x); simpl; lia. }
  rewrite !length_app. pose proof (Hle (take i tbl)). pose proof (Hle (drop (S i) tbl)). simpl. lia.
Qed.

Lemma run_op_refines tbl o :
  table_ok tbl ->
  table_ok (run_op tbl o).2 /\
  ((run_op tbl o).1, devices (run_op tbl o).2) = reg_step (devices tbl) o.
Proof.
  intros Hok. destruct o as [|devId cb ctx|devId|]; cbn [run_op reg_step fst snd].
  - destruct (Init_spec tbl (table_len _ Hok)) as [? ->]. done.
  - destruct (wc_CryptoCb_RegisterDevice tbl devId cb ctx) as [ret tbl'] eqn:E.
    pose proof (size_devices tbl Hok) as Hsz. pose proof (table_len _ Hok) as Hl.
    pose proof E as E'. apply RegisterDevice_spec in E as [Hok' H]; [|done]. split; [done|]. cbn [fst snd].
    destruct H as [(-> & Hne & Hn & ->)|[(-> & -> & ->)|[(-> & Hs & ->)|(-> & Hn & -> & Hf)]]].
    + rewrite (proj2 (Z.eqb_neq _ _) Hne), Hn. rewrite decide_False by apply is_Some_None.
      destruct (Nat.leb_spec MAX_CRYPTO_DEVID_CALLBACKS (size (devices tbl))); [|done]. exfalso.
      unfold wc_CryptoCb_RegisterDevice in E'. rewrite (proj2 (Z.eqb_neq _ _) Hne) in E'.
      destruct (wc_CryptoCb_GetDevice tbl devId); [by simplify_eq|].
      destruct (wc_CryptoCb_GetFreeDevice tbl) as [i|] eqn:Ef; [|by simplify_eq].
      apply GetFreeDevice_Some in Ef as (d & Hi & Hd). pose proof (entries_free _ _ _ Hi Hd). lia.
    + done.
    + destruct (Z.eqb_spec devId INVALID_DEVID) as [->|]; [|by rewrite decide_True].
      destruct Hs as [v Hv]. apply devices_lookup in Hv; naive_solver.
    + destruct (Z.eqb_spec devId INVALID_DEVID) as [->|].
      { by unfold wc_CryptoCb_RegisterDevice in E'. }
      rewrite Hn. rewrite decide_False by apply is_Some_None. pose proof (entries_full _ Hf).
      by rewrite (proj2 (Nat.leb_le _ _)) by lia.
  - destruct (UnRegisterDevice_spec tbl devId Hok) as [? ->]. done.
  - destruct (Cleanup_spec tbl Hok) as [? ->]. done.
Qed.

(** C33. The device table refines the finite-map contract: over any history that
    starts with [wc_CryptoCb_Init], the codes returned and the devices held are
    those of [reg_step], whatever the table held before. *)
Theorem device_table_refines tbl os :
  length tbl = MAX_CRYPTO_DEVID_CALLBACKS ->
  let r := run_ops run_op tbl (OpInit :: os) in
  let s := run_ops reg_step ∅ (OpInit :: os) in
  r.1 = s.1 /\ devices r.2 = s.2 /\ table_ok r.2.
Proof.
  intros Hl. cbn [run_ops run_op reg_step].
  destruct (Init_spec tbl Hl) as [Hok Hd]. revert Hok Hd. generalize (wc_CryptoCb_Init tbl) as t.
  intros t Hok Hd. rewrite <-Hd. clear Hd Hl.
  assert (let r := run_ops run_op t os in let s := run_ops reg_step (devices t) os in
    r.1 = s.1 /\ devices r.2 = s.2 /\ table_ok r.2) as H.
  { revert t Hok; induction os as [|o os IH]; intros t Hok; [done|]. cbn [run_ops].
    destruct (run_op_refines t o Hok) as [Hok' Hs]. rewrite <-Hs. destruct (run_op t o) as [ret t'].
    specialize (IH t' Hok'). simpl in IH |- *. destruct (run_ops run_op t' os), (run_ops reg_step _ os).
    simpl in *. naive_solver. }
  simpl in H |- *. destruct (run_ops run_op t os), (run_ops reg_step (devices t) os). simpl in *. naive_solver.
Qed.

(** ** Dispatch *)

Section DispatchLemmas.
  Context `{!Callbacks}.

(** A request under an id that no device has is declined and has no effect. *)
Lemma dispatch_absent devId i w :
  table_ok (gCryptoDev w) -> devices (gCryptoDev w) !! devId = None ->
  cb_dispatch devId i w = Ok (CRYPTOCB_UNAVAILABLE, untouched i) w.
Proof.
  intros Hok Hn. unfold cb_dispatch, get, mbind, M_bind.
  destruct (decide (devId = INVALID_DEVID)) as [->|Hne].
  - unfold wc_CryptoCb_FindDevice. destruct (wc_CryptoCb_GetDevice _ _) as [j|] eqn:E; [|done].
    apply GetDevice_Some in E as (d & Hj & Hd). cbn. rewrite Hj.
    assert (slot_ok d) as Hs by (eapply Forall_lookup_1; [apply Hok|done]).
    specialize (Hs Hd). destruct d; simpl in *; by subst.
  - pose proof (FindDevice_devices _ devId Hok Hne) as Hf. rewrite Hn in Hf.
    by destruct (wc_CryptoCb_FindDevice _ _).
Qed.

(** A request under a registered id is handed to its callback. *)
Lemma dispatch_present devId i w cb ctx :
  table_ok (gCryptoDev w) -> devices (gCryptoDev w) !! devId = Some (Some cb, ctx) ->
  cb_dispatch devId i w =
  ('(ret, r) ← invoke cb devId i ctx; mret (wc_CryptoCb_TranslateErrorCode ret, r)) w.
Proof.
  intros Hok Hs. assert (devId <> INVALID_DEVID) as Hne by (apply devices_lookup in Hs; naive_solver).
  pose proof (FindDevice_devices _ devId Hok Hne) as Hf. rewrite Hs in Hf.
  unfold cb_dispatch, get, mbind at 1, M_bind at 1.
  unfold wc_CryptoCb_FindDevice in *. destruct (wc_CryptoCb_GetDevice _ _) as [j|] eqn:E; [|done].
  apply GetDevice_Some in E as (d & Hj & Hd). cbn in Hf |- *. rewrite Hj in Hf |- *.
  destruct d; simpl in *. by simplify_eq.
Qed.
End DispatchLemmas.

(** Callbacks that decline every request. *)
Definition no_callbacks : Callbacks := fun _ _ i _ => mret (CRYPTOCB_UNAVAILABLE, untouched i).

Lemma device_table_refines_witness :
  let r := run_ops run_op (gCryptoDev (world_start env_plenty))
    [OpInit; OpRegister 7 None 1; OpRegister 7 None 2; OpUnRegister 7; OpCleanup] in
  r.1 = [0; 0; ALREADY_E; 0; 0] /\ table_ok r.2.
Proof.
  split; [reflexivity|].
  apply (device_table_refines (gCryptoDev (world_start env_plenty))
    [OpRegister 7 None 1; OpRegister 7 None 2; OpUnRegister 7; OpCleanup]). reflexivity.
Defined.
