(* ===== verification/WcPort.v ===== *)
(** * WcPort: the initialisation protocol of wc_port.c

    [wolfCrypt_Init] and [wolfCrypt_Cleanup] count their callers in one atomic
    word, [wolfcrypt_init_state], whose low three bits are a state and whose
    other bits are the count.  The first part is the code run by one thread,
    refined to a reference count.  The second part is the protocol of the four
    functions that move the word, as a step relation over any number of threads
    whose loads, compare-exchanges and stores interleave. *)

From stdpp Require Import gmap.
From S2P Require Import Prelude Platform Types CryptoCb.

(** ** The word *)

(** wc_port.h:1195, [WC_INIT_STATE_UNINITED] *)
Notation UNINITED := (0)%Z (only parsing).
(** wc_port.h:1196, [WC_INIT_STATE_INITING] *)
Notation INITING := (1)%Z (only parsing).
(** wc_port.h:1197, [WC_INIT_STATE_INITED] *)
Notation INITED := (2)%Z (only parsing).
(** wc_port.h:1198, [WC_INIT_STATE_CLEANING_UP] *)
Notation CLEANING_UP := (3)%Z (only parsing).
(** wc_port.h:1199, [WC_INIT_STATE_BAD_STATE] *)
Notation BAD_STATE := (4)%Z (only parsing).
(** wc_port.h:1200-1201, the largest value of the 29-bit count *)
Notation COUNT_MAX := (0x1fffffff)%Z (only parsing).

(** wc_port.h:1202-1208, [union wc_init_state_bitfields]: state and count. *)
Definition init_bits : Type := Z * Z.

(** wc_port.h:778-790, [wolfSSL_Atomic_Uint_CompareExchange]: success, the new
    shared word, the new expected value. *)
Definition CompareExchange (c expected new : init_bits) : bool * init_bits * init_bits :=
  if decide (c = expected) then (true, new, expected) else (false, c, c).

(** One pass through the loop body, up to the compare-exchange. *)
Inductive attempt :=
  | Return (ret : Z)
  | Exchange (expected new : init_bits).

(** wc_port.c:271-307, the body of the loop of [wc_local_InitUp]. *)
Definition InitUp_attempt (exp : init_bits) : attempt :=
  let '(state, count) := exp in
  if count =? COUNT_MAX then Return SEQ_OVERFLOW_E
  else if state =? UNINITED then
    if negb (count =? 0) then Return BAD_STATE_E
    else Exchange exp (INITING, count + 1)
  else if BAD_STATE <=? state then Return BAD_STATE_E
  else if count =? 0 then Return BAD_STATE_E
  else Exchange (INITED, count) (INITED, count + 1).

(** wc_port.c:349-396, the body of the loop of [wc_local_InitDown]. *)
Definition InitDown_attempt (exp : init_bits) : attempt :=
  let '(state, count) := exp in
  if BAD_STATE <=? state then Return BAD_STATE_E
  else if state =? UNINITED then Return (if count =? 0 then ALREADY_E else BAD_STATE_E)
  else if state =? INITING then Return BAD_FUNC_ARG
  else if state =? CLEANING_UP then Return (if count =? 1 then ALREADY_E else BAD_STATE_E)
  else if count =? 0 then Return BAD_STATE_E
  else Exchange exp (if count =? 1 then (CLEANING_UP, count) else (state, count - 1)).

(** The loops, given fuel; [None] when they are still spinning. *)
Fixpoint cas_loop (body : init_bits -> attempt) (fuel : nat) (s exp : init_bits)
    : option (Z * init_bits) :=
  match fuel with
  | O => None
  | S fuel =>
    match body exp with
    | Return ret => Some (ret, s)
    | Exchange e new =>
        match CompareExchange s e new with
        | (true, s', _) => Some (new.1, s')
        | (false, s', e') => cas_loop body fuel s' e'
        end
    end
  end.

(** wc_port.c:262-322, [wc_local_InitUp] *)
Definition wc_local_InitUp (fuel : nat) (s : init_bits) : option (Z * init_bits) :=
  cas_loop InitUp_attempt fuel s s.

(** wc_port.c:324-337, [wc_local_InitUpDone] *)
Definition wc_local_InitUpDone (s : init_bits) : Z * init_bits :=
  if negb (s.1 =? INITING) then (BAD_FUNC_ARG, s) else (0, (INITED, s.2)).

(** wc_port.c:339-409, [wc_local_InitDown] *)
Definition wc_local_InitDown (fuel : nat) (s : init_bits) : option (Z * init_bits) :=
  cas_loop InitDown_attempt fuel s s.

(** wc_port.c:411-425, [wc_local_InitDownDone] *)
Definition wc_local_InitDownDone (s : init_bits) : Z * init_bits :=
  if negb (s.1 =? CLEANING_UP) then (BAD_FUNC_ARG, s) else (0, (UNINITED, 0)).

(** random.c:518-534, [wc_DrbgState_MutexInit] in a single-threaded build *)
Definition wc_DrbgState_MutexInit : Z := 0.

(** random.c:536-552, [wc_DrbgState_MutexFree] in a single-threaded build *)
Definition wc_DrbgState_MutexFree : Z := 0.

(** One pass decides, in a single thread: the word cannot change under it. *)
Definition spin_fuel : nat := 1.

(** wc_port.c:759-1130, [wolfCrypt_Init].  A thread that finds the word in a
    transient state spins for ever, which is a fault. *)
Definition wolfCrypt_Init : M Z :=
  w ← get;
  match wc_local_InitUp spin_fuel (wolfcrypt_init_state w) with
  | None => fun _ => Fault
  | Some (ret, s) =>
    _ ← modify (set_init s);
    if ret <? 0 then mret ret
    else if ret =? INITED then mret 0
    else
      _ ← modify (fun w => set_devs (wc_CryptoCb_Init (gCryptoDev w)) w);
      let ret := wc_DrbgState_MutexInit in
      if negb (ret =? 0) then
        _ ← modify (fun w => set_init (BAD_STATE, (wolfcrypt_init_state w).2) w);
        mret ret
      else
        w ← get;
        let '(ret, s) := wc_local_InitUpDone (wolfcrypt_init_state w) in
        _ ← modify (set_init s);
        mret ret
  end.

(** wc_port.c:1148-1296, [wolfCrypt_Cleanup] *)
Definition wolfCrypt_Cleanup : M Z :=
  w ← get;
  match wc_local_InitDown spin_fuel (wolfcrypt_init_state w) with
  | None => fun _ => Fault
  | Some (ret, s) =>
    _ ← modify (set_init s);
    if ret <? 0 then mret ret
    else if ret =? INITED then mret 0
    else
      _ ← modify (fun w => set_devs (wc_CryptoCb_Cleanup (gCryptoDev w)) w);
      w ← get;
      let '(ret2, s) := wc_local_InitDownDone (wolfcrypt_init_state w) in
      _ ← modify (set_init s);
      mret ret2
  end.

(** ** One thread: a reference count *)

(** The word of a library initialised [n] times and not cleaned up since. *)
Definition init_count (s : init_bits) (n : Z) : Prop :=
  0 <= n <= COUNT_MAX /\ s = (if n =? 0 then UNINITED else INITED, n).

(** What initialisation promises over the number of its users: at [COUNT_MAX]
    users it refuses, otherwise there is one more, and only the first user
    resets the device table. *)
Definition init_spec (n : Z) (w : world) (ret : Z) (w' : world) : Prop :=
  if n =? COUNT_MAX then ret = SEQ_OVERFLOW_E /\ w' = w
  else ret = 0 /\
       w' = set_init (INITED, n + 1)
              (if n =? 0 then set_devs (wc_CryptoCb_Init (gCryptoDev w)) w else w).

(** The last user's cleanup unregisters every device; one more is an error. *)
Definition cleanup_spec (n : Z) (w : world) (ret : Z) (w' : world) : Prop :=
  if n =? 0 then ret = ALREADY_E /\ w' = w
  else ret = 0 /\
       w' = (if n =? 1 then set_init (UNINITED, 0) (set_devs (wc_CryptoCb_Cleanup (gCryptoDev w)) w)
             else set_init (INITED, n - 1) w).

#[local] Opaque wc_CryptoCb_Cleanup.

Lemma set_init_id w : set_init (wolfcrypt_init_state w) w = w.
Proof. by destruct w. Qed.

Lemma InitUp_settled s n :
  init_count s n ->
  wc_local_InitUp spin_fuel s =
  Some (if n =? COUNT_MAX then (SEQ_OVERFLOW_E, s)
        else if n =? 0 then (INITING, (INITING, 1)) else (INITED, (INITED, n + 1))).
Proof.
  intros [Hn ->]. unfold wc_local_InitUp, spin_fuel, cas_loop, InitUp_attempt.
  destruct (Z.eqb_spec n COUNT_MAX) as [->|]; [done|].
  destruct (Z.eqb_spec n 0) as [->|]; cbn -[CompareExchange];
    rewrite ?(proj2 (Z.eqb_neq n 0)) by done; unfold CompareExchange; by rewrite decide_True.
Qed.

Lemma InitDown_settled s n :
  init_count s n ->
  wc_local_InitDown spin_fuel s =
  Some (if n =? 0 then (ALREADY_E, s)
        else if n =? 1 then (CLEANING_UP, (CLEANING_UP, 1)) else (INITED, (INITED, n - 1))).
Proof.
  intros [Hn ->]. unfold wc_local_InitDown, spin_fuel, cas_loop, InitDown_attempt.
  destruct (Z.eqb_spec n 0) as [->|]; [done|]. cbn -[CompareExchange].
  rewrite ?(proj2 (Z.eqb_neq n 0)) by done. unfold CompareExchange.
  destruct (Z.eqb_spec n 1) as [->|]; by rewrite decide_True.
Qed.

(** The library's reference count: from a state with [n] users both calls
    terminate, do what the contract says and leave a state with [n + 1]
    (or [n - 1]) users. *)
Theorem wolfCrypt_refcount n w :
  init_count (wolfcrypt_init_state w) n ->
  wp wolfCrypt_Init (fun ret w' => init_spec n w ret w' /\
    init_count (wolfcrypt_init_state w') (if n =? COUNT_MAX then n else n + 1)) w /\
  wp wolfCrypt_Cleanup (fun ret w' => cleanup_spec n w ret w' /\
    init_count (wolfcrypt_init_state w') (if n =? 0 then n else n - 1)) w.
Proof.
  intros Hc. pose proof Hc as [Hn Hs]. unfold init_count. split.
  - unfold wp, wolfCrypt_Init, get, mbind, M_bind. rewrite (InitUp_settled _ _ Hc).
    unfold init_spec. destruct (Z.eqb_spec n COUNT_MAX) as [->|]; cbn.
    { rewrite Hs at 1. rewrite <-Hs, set_init_id. done. }
    rewrite (proj2 (Z.eqb_neq (n + 1) 0)) by lia.
    destruct (Z.eqb_spec n 0) as [->|]; cbn; split_and!; try done; lia.
  - unfold wp, wolfCrypt_Cleanup, get, mbind, M_bind. rewrite (InitDown_settled _ _ Hc).
    unfold cleanup_spec. destruct (Z.eqb_spec n 0) as [->|]; cbn.
    { rewrite Hs at 1. rewrite <-Hs, set_init_id. done. }
    destruct (Z.eqb_spec n 1) as [->|]; cbn; [done|].
    rewrite (proj2 (Z.eqb_neq (n - 1) 0)) by lia. split_and!; try done; lia.
Qed.

(** ** Many threads

    Each thread runs the four functions in the order the callers use them:
    [wc_local_InitUp] and, if it returns [INITING], [wc_local_InitUpDone];
    [wc_local_InitDown] and, if it returns [CLEANING_UP],
    [wc_local_InitDownDone].  A step is one access to the shared word. *)

Inductive thread :=
  | Idle                         (* outside the four functions *)
  | Up (exp : init_bits)         (* in InitUp, about to try [exp] *)
  | Initing                      (* InitUp returned INITING *)
  | UpDone (cur : init_bits)     (* in InitUpDone, loaded [cur] *)
  | Down (exp : init_bits)       (* in InitDown, about to try [exp] *)
  | Cleaning                     (* InitDown returned CLEANING_UP *)
  | DownDone (cur : init_bits).  (* in InitDownDone, loaded [cur] *)

(** wc_port.c:311-320, [wc_local_InitUp] and wc_port.c:397-406: the
    compare-exchange that ends a pass, and the state of the thread after it. *)
Definition try_step (again : init_bits -> thread) (owner : thread) (transient : Z)
    (a : attempt) (s : init_bits) : init_bits * thread :=
  match a with
  | Return _ => (s, Idle)
  | Exchange e new =>
      match CompareExchange s e new with
      | (true, s', _) => (s', if new.1 =? transient then owner else Idle)
      | (false, s', e') => (s', again e')
      end
  end.

(** The next access of a thread; an idle one enters either function. *)
Inductive tstep (s : init_bits) : thread -> init_bits -> thread -> Prop :=
  | step_up_load : tstep s Idle s (Up s)
  | step_up exp s' t' :
      try_step Up Initing INITING (InitUp_attempt exp) s = (s', t') -> tstep s (Up exp) s' t'
  | step_updone_load : tstep s Initing s (UpDone s)
  | step_updone cur s' :
      s' = (if negb (cur.1 =? INITING) then s else (wc_local_InitUpDone cur).2) ->
      tstep s (UpDone cur) s' Idle
  | step_down_load : tstep s Idle s (Down s)
  | step_down exp s' t' :
      try_step Down Cleaning CLEANING_UP (InitDown_attempt exp) s = (s', t') ->
      tstep s (Down exp) s' t'
  | step_downdone_load : tstep s Cleaning s (DownDone s)
  | step_downdone cur s' :
      s' = (if negb (cur.1 =? CLEANING_UP) then s else (wc_local_InitDownDone cur).2) ->
      tstep s (DownDone cur) s' Idle.

Inductive sys_step : init_bits * list thread -> init_bits * list thread -> Prop :=
  | sys_thread i s ts t s' t' :
      ts !! i = Some t -> tstep s t s' t' -> sys_step (s, ts) (s', <[i := t']> ts).

Inductive reachable (n : nat) : init_bits * list thread -> Prop :=
  | reach_start : reachable n ((UNINITED, 0), replicate n Idle)
  | reach_step x y : reachable n x -> sys_step x y -> reachable n y.

(** The state a thread has made its own: 1 or 3 inside the critical spans. *)
Definition owned (t : thread) : Z :=
  match t with
  | Initing | UpDone _ => INITING
  | Cleaning | DownDone _ => CLEANING_UP
  | _ => 0
  end.

Definition loaded (t : thread) : option init_bits :=
  match t with UpDone c | DownDone c => Some c | _ => None end.

(** The shapes the word takes, and their agreement with the owner. *)
Definition word_ok (s : init_bits) : Prop :=
  s = (UNINITED, 0) \/ s = (INITING, 1) \/ (s.1 = INITED /\ 1 <= s.2 <= COUNT_MAX) \/
  s = (CLEANING_UP, 1).

Record protocol_ok (s : init_bits) (ts : list thread) : Prop := {
  prot_word : word_ok s;
  prot_owner : forall i t, ts !! i = Some t -> owned t = 0 \/
    (owned t = s.1 /\ (forall c, loaded t = Some c -> c = s));
  prot_unique : forall i j t u, ts !! i = Some t -> ts !! j = Some u ->
    owned t <> 0 -> owned u <> 0 -> i = j;
  prot_held : s.1 = INITING \/ s.1 = CLEANING_UP -> exists i t, ts !! i = Some t /\ owned t <> 0;
}.

(** A thread that stays outside changes neither the word's shape nor the owner. *)
Lemma protocol_same s ts i t t' :
  protocol_ok s ts -> ts !! i = Some t -> owned t' = owned t ->
  (forall c, loaded t' = Some c -> c = s) -> protocol_ok s (<[i := t']> ts).
Proof.
  intros [Hw Ho Hu Hh] Hi Heq Hl. split; [done|..].
  - intros j u Hj. apply list_lookup_insert_Some in Hj as [(-> & <- & _)|[_ Hj]]; [|by eapply Ho].
    rewrite Heq. destruct (Ho _ _ Hi) as [|[? _]]; [by left|right]. auto.
  - assert (forall j u, <[i:=t']> ts !! j = Some u -> owned u <> 0 ->
      exists u', ts !! j = Some u' /\ owned u' <> 0) as Hback.
    { intros j u Hj Hu'. apply list_lookup_insert_Some in Hj as [(-> & <- & _)|[_ Hj]]; [|by eauto].
      exists t. split; [done|by rewrite <-Heq]. }
    intros j k t1 t2 H1 H2 Hn1 Hn2. apply Hback in H1 as (? & ? & ?), H2 as (? & ? & ?); eauto.
  - intros Hs. destruct (Hh Hs) as (j & u & Hj & Hn). destruct (decide (j = i)) as [->|Hne].
    + exists i, t'. rewrite list_lookup_insert_eq by (by eapply lookup_lt_Some).
      simplify_eq. by rewrite Heq.
    + exists j, u. by rewrite list_lookup_insert_ne.
Qed.

(** From a settled word, one thread may take it to any good word it then owns
    (or, for a settled one, does not own). *)
Lemma protocol_move s ts i t' s' :
  protocol_ok s ts -> s.1 = UNINITED \/ s.1 = INITED -> is_Some (ts !! i) -> word_ok s' ->
  loaded t' = None ->
  (owned t' = 0 /\ s'.1 = INITED) \/ (owned t' = s'.1 /\ owned t' <> 0) ->
  protocol_ok s' (<[i := t']> ts).
Proof.
  intros [Hw Ho Hu Hh] Hs [t Hi] Hw' Hl Ht.
  assert (forall j u, ts !! j = Some u -> owned u = 0) as Hnone.
  { intros j u Hj. destruct (Ho _ _ Hj) as [|[H _]]; [done|].
    destruct u; simpl in *; try done; rewrite <-H in Hs; by destruct Hs. }
  assert (forall j u, <[i:=t']> ts !! j = Some u -> owned u <> 0 -> j = i /\ u = t') as Hin.
  { intros j u Hj Hn. apply list_lookup_insert_Some in Hj as [(-> & <- & _)|[_ Hj]]; [done|].
    by apply Hnone in Hj. }
  split; [done|..].
  - intros j u Hj. destruct (decide (owned u = 0)) as [|Hn]; [by left|right].
    destruct (Hin _ _ Hj Hn) as [-> ->]. destruct Ht as [[? _]|[? _]]; [done|]. split; [done|].
    intros c Hc. by rewrite Hl in Hc.
  - intros j k t1 t2 H1 H2 Hn1 Hn2. destruct (Hin _ _ H1 Hn1), (Hin _ _ H2 Hn2). congruence.
  - intros Hs'. exists i, t'. rewrite list_lookup_insert_eq by (by eapply lookup_lt_Some).
    split; [done|]. destruct Ht as [[_ H]|[_ ?]]; [|done]. rewrite H in Hs'. by destruct Hs'.
Qed.

(** The owner's store settles the word again. *)
Lemma protocol_release s ts i t s' :
  protocol_ok s ts -> ts !! i = Some t -> owned t <> 0 -> word_ok s' ->
  s'.1 = UNINITED \/ s'.1 = INITED -> protocol_ok s' (<[i := Idle]> ts).
Proof.
  intros [Hw Ho Hu Hh] Hi Hn Hw' Hs'.
  assert (forall j u, <[i:=Idle]> ts !! j = Some u -> owned u = 0) as Hnone.
  { intros j u Hj. apply list_lookup_insert_Some in Hj as [(-> & <- & _)|[Hne Hj]]; [done|].
    destruct (decide (owned u = 0)) as [|Hnu]; [done|]. by destruct (Hne (Hu _ _ _ _ Hi Hj Hn Hnu)). }
  split; [done|..].
  - intros j u Hj. left. by eapply Hnone.
  - intros j k t1 t2 H1 _ Hn1 _. by apply Hnone in H1.
  - intros H. destruct Hs' as [Hs'|Hs'], H as [H|H]; rewrite Hs' in H; done.
Qed.

Lemma protocol_step s ts s' ts' :
  protocol_ok s ts -> sys_step (s, ts) (s', ts') -> protocol_ok s' ts'.
Proof.
  intros Hok Hst. inversion Hst as [i ? ? t ? t' Hi Ht]; subst; clear Hst.
  pose proof (prot_word _ _ Hok) as Hw. pose proof (prot_owner _ _ Hok _ _ Hi) as Ho.
  inv Ht.
  - by eapply protocol_same.
  - rename H into Htry. unfold try_step, InitUp_attempt in Htry. destruct exp as [st c].
    unfold CompareExchange in Htry.
    repeat case_match; simplify_eq; bool_to_prop; subst; simpl in *;
      try (by eapply protocol_same);
      (eapply protocol_move; [exact Hok|unfold word_ok in *; naive_solver|by eexists| |done|]);
      unfold word_ok in *; simpl in *;
      first [naive_solver lia|naive_solver].
  - eapply protocol_same; [done..|]. intros c [= <-]. done.
  - destruct Ho as [|[Ho1 Ho2]]; [done|]. rewrite (Ho2 cur eq_refl) in *. simpl in Ho1.
    rewrite <-Ho1. simpl. unfold wc_local_InitUpDone. rewrite <-Ho1. simpl.
    eapply protocol_release; [done..| |by right].
    destruct Hw as [->|[->|[(Hw & ?)| ->]]]; try done; [|by rewrite Hw in Ho1].
    right; right; left. simpl. lia.
  - by eapply protocol_same.
  - rename H into Htry. unfold try_step, InitDown_attempt in Htry. destruct exp as [st c].
    unfold CompareExchange in Htry.
    repeat case_match; simplify_eq; bool_to_prop; subst; simpl in *;
      try (by eapply protocol_same);
      (eapply protocol_move; [exact Hok|unfold word_ok in *; naive_solver|by eexists| |done|]);
      unfold word_ok in *; simpl in *;
      first [naive_solver lia|naive_solver].
  - eapply protocol_same; [done..|]. intros c [= <-]. done.
  - destruct Ho as [|[Ho1 Ho2]]; [done|]. rewrite (Ho2 cur eq_refl) in *. simpl in Ho1.
    rewrite <-Ho1. simpl. unfold wc_local_InitDownDone. rewrite <-Ho1. simpl.
    eapply protocol_release; [done..|by left|by left].
Qed.

Lemma reachable_ok n x : reachable n x -> protocol_ok x.1 x.2.
Proof.
  induction 1 as [|[s ts] [s' ts'] _ IH Hst]; [|by eapply protocol_step].
  assert (forall i t, replicate n Idle !! i = Some t -> t = Idle) as Hidle
    by (intros i t [-> _]%lookup_replicate; done).
  split; simpl.
  - by left.
  - intros i t ->%Hidle. by left.
  - intros i j t u ->%Hidle _ H. done.
  - intros [H|H]; done.
Qed.


(** *** Every call ends

    A schedule names the thread to run next; a thread outside the four functions
    stays there.  A round is a schedule that names every thread. *)

Definition run_thread (s : init_bits) (t : thread) : init_bits * thread :=
  match t with
  | Idle => (s, Idle)
  | Up exp => try_step Up Initing INITING (InitUp_attempt exp) s
  | Initing => (s, UpDone s)
  | UpDone cur => (if negb (cur.1 =? INITING) then s else (wc_local_InitUpDone cur).2, Idle)
  | Down exp => try_step Down Cleaning CLEANING_UP (InitDown_attempt exp) s
  | Cleaning => (s, DownDone s)
  | DownDone cur => (if negb (cur.1 =? CLEANING_UP) then s else (wc_local_InitDownDone cur).2, Idle)
  end.

Definition advance (x : init_bits * list thread) (i : nat) : init_bits * list thread :=
  match x.2 !! i with
  | None => x
  | Some t => let '(s, t') := run_thread x.1 t in (s, <[i := t']> x.2)
  end.

Definition run_schedule : list nat -> init_bits * list thread -> init_bits * list thread :=
  flip (foldl advance).

Definition is_round (n : nat) (l : list nat) : Prop := forall i, (i < n)%nat -> i ∈ l.

(** What a thread has before it, unless it has to try again. *)
Definition weight (t : thread) : nat :=
  match t with Idle => 0 | UpDone _ | DownDone _ => 1 | Initing | Cleaning => 2 | Up _ | Down _ => 3 end.

Definition total (ts : list thread) : nat := sum_list (weight <$> ts).

(** A thread after a pass that failed: it has seen the word [s]. *)
Definition waiting (s : init_bits) (t : thread) : Prop := t = Up s \/ t = Down s.

Lemma total_insert ts i t t' : ts !! i = Some t -> (total (<[i := t']> ts) + weight t = total ts + weight t')%nat.
Proof.
  unfold total. revert i. induction ts as [|u ts IH]; intros [|i] Hi; simplify_eq/=; [lia|]. specialize (IH i Hi). lia.
Qed.

(** A step that does not bring the thread nearer to its end is a failed pass. *)
Lemma run_thread_cases s t : 
  let '(s', t') := run_thread s t in
  (weight t' < weight t)%nat \/ (s' = s /\ ((t = Idle /\ t' = Idle) \/ ((exists c, t = Up c \/ t = Down c) /\ waiting s t'))).
Proof.
  unfold waiting. destruct t as [|exp| |cur|exp| |cur]; cbn [run_thread]; try (left; cbn; lia); try (right; by auto).
  - unfold try_step, CompareExchange. repeat case_match; simplify_eq/=; try (left; cbn; lia); right; eauto 8.
  - unfold try_step, CompareExchange. repeat case_match; simplify_eq/=; try (left; cbn; lia); right; eauto 8.
Qed.

(** While the word is settled, a thread that has seen it is not turned away. *)
Lemma waiting_settled s t : word_ok s -> s.1 = UNINITED \/ s.1 = INITED -> waiting s t ->
  (weight (run_thread s t).2 < weight t)%nat.
Proof.
  intros Hw Hs [-> | ->]; cbn [run_thread]; unfold try_step, CompareExchange, InitUp_attempt, InitDown_attempt;
    destruct s as [st c]; cbn [fst snd] in Hs; destruct Hs as [-> | ->]; cbn;
    repeat case_match; simplify_eq/=; try lia; bool_to_prop; naive_solver.
Qed.

Lemma run_thread_tstep s t : t <> Idle -> tstep s t (run_thread s t).1 (run_thread s t).2.
Proof. intros Ht. destruct t; cbn [run_thread]; try done; constructor; try done; by destruct (try_step _ _ _ _ _). Qed.

Lemma advance_ok s ts i : protocol_ok s ts -> protocol_ok (advance (s, ts) i).1 (advance (s, ts) i).2.
Proof.
  intros Hok. unfold advance. cbn [fst snd]. destruct (ts !! i) as [t|] eqn:Hi; [|done]. destruct (run_thread s t) as [s' t'] eqn:E.
  destruct t as [|exp| |cur|exp| |cur] eqn:Et; [cbn in E; simplify_eq; by rewrite list_insert_id|..].
  all: eapply protocol_step; [exact Hok|]; eapply sys_thread; [exact Hi|]; pose proof (run_thread_tstep s t ltac:(by rewrite Et)) as Hst;
    rewrite Et, E in Hst; exact Hst.
Qed.

Lemma run_schedule_ok l : forall s ts, protocol_ok s ts -> protocol_ok (run_schedule l (s, ts)).1 (run_schedule l (s, ts)).2.
Proof.
  induction l as [|i l IH]; intros s ts Hok; [done|]. change (run_schedule (i :: l) (s, ts)) with (run_schedule l (advance (s, ts) i)).
  pose proof (advance_ok s ts i Hok). destruct (advance (s, ts) i). by apply IH.
Qed.

(** One step: nearer to the end, or a failed pass of the thread that ran. *)
Lemma advance_cases s ts i : let '(s', ts') := advance (s, ts) i in
  length ts' = length ts /\
  ((total ts' < total ts)%nat \/
   (s' = s /\ total ts' = total ts /\ (forall j, j <> i -> ts' !! j = ts !! j) /\
    forall t, ts' !! i = Some t -> t = Idle \/ waiting s t)).
Proof.
  unfold advance. cbn [fst snd]. destruct (ts !! i) as [t|] eqn:Hi; [|split; [done|right; by rewrite Hi]].
  pose proof (run_thread_cases s t) as Hc. destruct (run_thread s t) as [s' t']. split; [apply length_insert|].
  pose proof (total_insert ts i t t' Hi) as Ht. destruct Hc as [Hc|[-> Hc]]; [left; lia|right].
  assert (weight t' = weight t) by (destruct Hc as [[-> ->]|[(c & [-> | ->]) [-> | ->]]]; done). split; [done|]. split; [lia|].
  split; [intros; by apply list_lookup_insert_ne|]. intros u. rewrite list_lookup_insert_eq by (by eapply lookup_lt_Some). intros [= <-].
  destruct Hc as [[_ ->]|[_ Hc]]; auto.
Qed.

(** A schedule: nearer to the end, or all the threads it names wait on the same word. *)
Lemma schedule_cases l : forall s ts, let '(s', ts') := run_schedule l (s, ts) in
  length ts' = length ts /\
  ((total ts' < total ts)%nat \/
   (s' = s /\ total ts' = total ts /\ (forall j, j ∉ l -> ts' !! j = ts !! j) /\
    forall j t, j ∈ l -> ts' !! j = Some t -> t = Idle \/ waiting s t)).
Proof.
  induction l as [|i l IH]; intros s ts; [split; [done|right; split_and!; try done; intros j t Hj; by apply elem_of_nil in Hj]|].
  change (run_schedule (i :: l) (s, ts)) with (run_schedule l (advance (s, ts) i)). pose proof (advance_cases s ts i) as Ha.
  destruct (advance (s, ts) i) as [s1 ts1]. destruct Ha as [Hl Ha]. specialize (IH s1 ts1). destruct (run_schedule l (s1, ts1)) as [s2 ts2].
  destruct IH as [Hl' IH]. split; [congruence|]. destruct Ha as [Ha|(-> & Ha & Hj & Hi)]; [left; destruct IH as [|(_ & -> & _)]; lia|].
  destruct IH as [IH|(-> & IH & Hj' & Hi')]; [left; lia|right]. split; [done|]. split; [lia|]. split.
  - intros j [Hne Hn]%not_elem_of_cons. by rewrite Hj', Hj.
  - intros j t Hjl Ht. destruct (decide (j ∈ l)) as [Hin|Hn]; [by eapply Hi'|]. apply elem_of_cons in Hjl as [->|]; [|done].
    rewrite Hj' in Ht by done. by apply Hi.
Qed.

Lemma schedule_total l s ts : (total (run_schedule l (s, ts)).2 <= total ts)%nat /\ length (run_schedule l (s, ts)).2 = length ts.
Proof. pose proof (schedule_cases l s ts) as H. destruct (run_schedule l (s, ts)). destruct H as [Hl [H|(_ & H & _)]]; cbn [snd]; lia. Qed.

Lemma settled_progress s l : word_ok s -> s.1 = UNINITED \/ s.1 = INITED -> forall ts i t,
  (forall j u, ts !! j = Some u -> u = Idle \/ waiting s u) -> i ∈ l -> ts !! i = Some t -> waiting s t ->
  (total (run_schedule l (s, ts)).2 < total ts)%nat.
Proof.
  intros Hw Hs. induction l as [|k l IH]; intros ts i t Hall Hi Ht Hwt; [by apply elem_of_nil in Hi|].
  change (run_schedule (k :: l) (s, ts)) with (run_schedule l (advance (s, ts) k)). unfold advance. cbn [fst snd].
  destruct (ts !! k) as [u|] eqn:Hk.
  - destruct (Hall k u Hk) as [->|Hwu].
    + cbn [run_thread]. rewrite list_insert_id by done. apply (IH ts i t); [done| |done|done].
      apply elem_of_cons in Hi as [->|]; [|done]. rewrite Hk in Ht. injection Ht as <-. by destruct Hwt.
    + pose proof (waiting_settled s u Hw Hs Hwu) as Hlt. destruct (run_thread s u) as [s' t']. cbn [snd] in Hlt.
      pose proof (total_insert ts k u t' Hk). pose proof (proj1 (schedule_total l s' (<[k := t']> ts))). lia.
  - apply (IH ts i t); [done| |done|done]. apply elem_of_cons in Hi as [->|]; [|done]. by rewrite Hk in Ht.
Qed.

Lemma total_pos ts : (0 < total ts)%nat -> exists i t, ts !! i = Some t /\ t <> Idle.
Proof.
  unfold total. induction ts as [|t ts IH]; cbn; intros H; [lia|]. destruct (decide (weight t = 0)%nat) as [E|E].
  - destruct IH as (i & u & Hi & Hu); [lia|]. by exists (S i), u.
  - exists 0%nat, t. split; [done|]. intros ->. by apply E.
Qed.

(** Two rounds bring some thread nearer to its end. *)
Lemma two_rounds l1 l2 s ts : protocol_ok s ts -> is_round (length ts) l1 -> is_round (length ts) l2 -> (0 < total ts)%nat ->
  (total (run_schedule l2 (run_schedule l1 (s, ts))).2 < total ts)%nat.
Proof.
  intros Hok R1 R2 Hpos. pose proof (schedule_cases l1 s ts) as H1. pose proof (run_schedule_ok l1 s ts Hok) as Hok1.
  destruct (run_schedule l1 (s, ts)) as [s1 ts1]. destruct H1 as [Hl [H1|(-> & H1 & _ & Hall)]].
  { pose proof (proj1 (schedule_total l2 s1 ts1)). lia. }
  cbn [fst snd] in Hok1. assert (forall j u, ts1 !! j = Some u -> u = Idle \/ waiting s u) as Hall'.
  { intros j u Hj. apply (Hall j u); [|done]. apply R1. rewrite <-Hl. by eapply lookup_lt_Some. }
  destruct (total_pos ts1) as (i & t & Hi & Ht); [lia|]. rewrite <-H1. apply (settled_progress s l2) with (i := i) (t := t).
  - apply Hok1.
  - destruct (prot_word _ _ Hok1) as [->|[->|[[-> _]| ->]]]; [by left|exfalso|by right|exfalso].
    all: destruct (prot_held _ _ Hok1) as (j & u & Hj & Hu); [by auto|]; destruct (Hall' j u Hj) as [->|[-> | ->]]; done.
  - done.
  - apply R2. rewrite <-Hl. by eapply lookup_lt_Some.
  - done.
  - by destruct (Hall' i t Hi).
Qed.

Lemma rounds_end ls : forall s ts, protocol_ok s ts -> Forall (is_round (length ts)) ls -> (2 * total ts <= length ls)%nat ->
  total (run_schedule (concat ls) (s, ts)).2 = 0%nat.
Proof.
  remember (length ls) as k eqn:Ek. revert ls Ek. induction k as [k IH] using lt_wf_ind. intros ls -> s ts Hok Hr Hlen.
  destruct (decide (total ts = 0)%nat) as [E|E]; [pose proof (proj1 (schedule_total (concat ls) s ts)); lia|].
  destruct ls as [|l1 [|l2 ls]]; cbn [length] in Hlen; [lia|lia|]. apply Forall_cons_1 in Hr as [R1 Hr]. apply Forall_cons_1 in Hr as [R2 Hr].
  pose proof (two_rounds l1 l2 s ts Hok R1 R2 ltac:(lia)) as Hlt. cbn [concat].
  replace (run_schedule (l1 ++ l2 ++ concat ls) (s, ts)) with (run_schedule (concat ls) (run_schedule l2 (run_schedule l1 (s, ts))))
    by (unfold run_schedule, flip; by rewrite !foldl_app).
  pose proof (schedule_total l1 s ts) as [_ L1]. pose proof (run_schedule_ok l1 s ts Hok) as Hok1. destruct (run_schedule l1 (s, ts)) as [s1 ts1].
  pose proof (schedule_total l2 s1 ts1) as [_ L2]. pose proof (run_schedule_ok l2 s1 ts1 Hok1) as Hok2. destruct (run_schedule l2 (s1, ts1)) as [s2 ts2].
  cbn [fst snd length] in *. apply (IH (length ls)); [lia|done|done|by rewrite L2, L1|lia].
Qed.

Lemma total_bound ts : (total ts <= 3 * length ts)%nat.
Proof. unfold total. induction ts as [|t ts IH]; cbn; [lia|]. assert (weight t <= 3)%nat by (destruct t; cbn; lia). lia. Qed.

Lemma reachable_length n x : reachable n x -> length x.2 = n.
Proof. induction 1 as [|x y _ IH Hst]; [apply length_replicate|]. destruct Hst. cbn in *. by rewrite length_insert. Qed.


Lemma wolfCrypt_refcount_witness :
  init_count (wolfcrypt_init_state (world_start env_plenty)) 0 /\
  wp wolfCrypt_Init (fun ret w' => init_count (wolfcrypt_init_state w') 1) (world_start env_plenty).
Proof.
  assert (init_count (wolfcrypt_init_state (world_start env_plenty)) 0) as H by (split; [lia|done]).
  split; [exact H|]. eapply wp_mono; [exact (proj1 (wolfCrypt_refcount 0 _ H))|]. intros ret w' [_ Hc]. exact Hc.
Defined.


