(* ===== verification/Sha256.v ===== *)
(** * Sha256: the hash function of sha256.c

    The streaming interface of sha256.c ([wc_InitSha256_ex], [wc_Sha256Update],
    [wc_Sha256Final]) and its block function, then FIPS 180-4 as a reference,
    then the equivalence: whatever way a message is cut into updates, the
    digest is that of the standard. *)

From S2P Require Import Prelude Platform Types Misc CryptoCb.

(** ** The code *)

(** sha256.h:130, [WC_SHA256_BLOCK_SIZE] *)
Notation WC_SHA256_BLOCK_SIZE := (64)%Z (only parsing).
(** sha256.h:131, [WC_SHA256_DIGEST_SIZE] *)
Notation WC_SHA256_DIGEST_SIZE := (32)%Z (only parsing).
(** sha256.h:132, [WC_SHA256_PAD_SIZE] *)
Notation WC_SHA256_PAD_SIZE := (56)%Z (only parsing).

Definition set_sha_digest (d : list Z) (s : wc_Sha256) : wc_Sha256 :=
  {| sha_digest := d; sha_buffer := sha_buffer s; sha_buffLen := sha_buffLen s;
     sha_loLen := sha_loLen s; sha_hiLen := sha_hiLen s; sha_devId := sha_devId s;
     sha_devCtx := sha_devCtx s; sha_flags := sha_flags s |}.

Definition set_sha_buffer (b : bytes) (n : Z) (s : wc_Sha256) : wc_Sha256 :=
  {| sha_digest := sha_digest s; sha_buffer := b; sha_buffLen := n;
     sha_loLen := sha_loLen s; sha_hiLen := sha_hiLen s; sha_devId := sha_devId s;
     sha_devCtx := sha_devCtx s; sha_flags := sha_flags s |}.

Definition set_sha_len (lo hi : Z) (s : wc_Sha256) : wc_Sha256 :=
  {| sha_digest := sha_digest s; sha_buffer := sha_buffer s; sha_buffLen := sha_buffLen s;
     sha_loLen := lo; sha_hiLen := hi; sha_devId := sha_devId s;
     sha_devCtx := sha_devCtx s; sha_flags := sha_flags s |}.

(** sha256.c:308-350, [InitSha256] *)
Definition InitSha256 (s : wc_Sha256) : Z * wc_Sha256 :=
  (0, {| sha_digest := [0x6A09E667; 0xBB67AE85; 0x3C6EF372; 0xA54FF53A;
                        0x510E527F; 0x9B05688C; 0x1F83D9AB; 0x5BE0CD19];
         sha_buffer := zeros 64; sha_buffLen := 0; sha_loLen := 0; sha_hiLen := 0;
         sha_devId := sha_devId s; sha_devCtx := sha_devCtx s; sha_flags := 0 |}).

(** sha256.c:1653-1685, [wc_InitSha256_ex] *)
Definition wc_InitSha256_ex (s : wc_Sha256) (devId : Z) : Z * wc_Sha256 :=
  let '(ret, s) := InitSha256 s in
  if negb (ret =? 0) then (ret, s)
  else (ret, {| sha_digest := sha_digest s; sha_buffer := sha_buffer s; sha_buffLen := sha_buffLen s;
                sha_loLen := sha_loLen s; sha_hiLen := sha_hiLen s; sha_devId := devId;
                sha_devCtx := 0; sha_flags := sha_flags s |}).

(** sha256.c:3102-3110, [wc_InitSha256] *)
Definition wc_InitSha256 (s : wc_Sha256) : Z * wc_Sha256 :=
  wc_InitSha256_ex s wc_CryptoCb_DefaultDevID.

(** sha256.c:1690-1704, [K] *)
Definition K : list Z :=
  [ 0x428A2F98; 0x71374491; 0xB5C0FBCF; 0xE9B5DBA5; 0x3956C25B;
    0x59F111F1; 0x923F82A4; 0xAB1C5ED5; 0xD807AA98; 0x12835B01;
    0x243185BE; 0x550C7DC3; 0x72BE5D74; 0x80DEB1FE; 0x9BDC06A7;
    0xC19BF174; 0xE49B69C1; 0xEFBE4786; 0x0FC19DC6; 0x240CA1CC;
    0x2DE92C6F; 0x4A7484AA; 0x5CB0A9DC; 0x76F988DA; 0x983E5152;
    0xA831C66D; 0xB00327C8; 0xBF597FC7; 0xC6E00BF3; 0xD5A79147;
    0x06CA6351; 0x14292967; 0x27B70A85; 0x2E1B2138; 0x4D2C6DFC;
    0x53380D13; 0x650A7354; 0x766A0ABB; 0x81C2C92E; 0x92722C85;
    0xA2BFE8A1; 0xA81A664B; 0xC24B8B70; 0xC76C51A3; 0xD192E819;
    0xD6990624; 0xF40E3585; 0x106AA070; 0x19A4C116; 0x1E376C08;
    0x2748774C; 0x34B0BCB5; 0x391C0CB3; 0x4ED8AA4A; 0x5B9CCA4F;
    0x682E6FF3; 0x748F82EE; 0x78A5636F; 0x84C87814; 0x8CC70208;
    0x90BEFFFA; 0xA4506CEB; 0xBEF9A3F7; 0xC67178F2 ].

(** sha256.c:1709, [Ch] (WOLFSSL_SHA256_BY_SPEC) *)
Definition Ch (x y z : Z) : Z := z ⊕ Z.land x (y ⊕ z).
(** sha256.c:1710, [Maj] *)
Definition Maj (x y z : Z) : Z := Z.lor (Z.land (Z.lor x y) z) (Z.land x y).
(** sha256.c:1716, [R] *)
Definition R (x n : Z) : Z := Z.shiftr (Z.land x 0xFFFFFFFF) n.
(** sha256.c:1719, [Sigma0] *)
Definition Sigma0 (x : Z) : Z := rotrFixed x 2 ⊕ rotrFixed x 13 ⊕ rotrFixed x 22.
(** sha256.c:1720, [Sigma1] *)
Definition Sigma1 (x : Z) : Z := rotrFixed x 6 ⊕ rotrFixed x 11 ⊕ rotrFixed x 25.
(** sha256.c:1721, [Gamma0] *)
Definition Gamma0 (x : Z) : Z := rotrFixed x 7 ⊕ rotrFixed x 18 ⊕ R x 3.
(** sha256.c:1722, [Gamma1] *)
Definition Gamma1 (x : Z) : Z := rotrFixed x 17 ⊕ rotrFixed x 19 ⊕ R x 10.

(** sha256.c:1724-1731, [a(i)] to [h(i)]: the index of variable [v] in round [j]. *)
Definition var (v j : Z) : nat := Z.to_nat (Z.land (v - j) 7).

(** sha256.c:1738-1742, [RND]: round [j] of the group at [i]. *)
Definition RND (W : list Z) (i j : Z) (S : list Z) : list Z :=
  let at_ v := S !!! var v j in
  let t0 := w32 (at_ 7 + Sigma1 (at_ 4) + Ch (at_ 4) (at_ 5) (at_ 6)
                 + K !!! Z.to_nat (i + j) + W !!! Z.to_nat (i + j)) in
  let t1 := w32 (Sigma0 (at_ 0) + Maj (at_ 0) (at_ 1) (at_ 2)) in
  let S := <[var 3 j := w32 (at_ 3 + t0)]> S in
  <[var 7 j := w32 (t0 + t1)]> S.

(** sha256.c:1768-1774, [Transform_Sha256]: the first sixteen words of [W]. *)
Definition load_words (data : bytes) (W : list Z) : list Z :=
  foldl (fun W i => <[i := readUnalignedWord32 (drop (4 * i) data)]> W) W (seq 0 16).

(** sha256.c:1776-1777, [Transform_Sha256]: the message schedule. *)
Definition expand_words (W : list Z) : list Z :=
  foldl (fun W i =>
    <[i := w32 (Gamma1 (W !!! (i - 2)%nat) + W !!! (i - 7)%nat
                + Gamma0 (W !!! (i - 15)%nat) + W !!! (i - 16)%nat)]> W) W (seq 16 48).

(** sha256.c:1790-1791, [Transform_Sha256]: [RND(0)] to [RND(7)]. *)
Definition rounds8 (W S : list Z) (i : Z) : list Z :=
  foldl (fun S j => RND W i j S) S [0; 1; 2; 3; 4; 5; 6; 7].

(** sha256.c:1789-1792, [Transform_Sha256]: the 64 rounds. *)
Definition rounds (W S : list Z) : list Z := foldl (rounds8 W) S [0; 8; 16; 24; 32; 40; 48; 56].

(** sha256.c:1745-1806, [Transform_Sha256] *)
Definition Transform_Sha256 (s : wc_Sha256) (data : bytes) : M (Z * wc_Sha256) :=
  W ← wolfSSL_Malloc;
  if negb W then mret (MEMORY_E, s)
  else
    let S := sha_digest s in
    data ← rd data 0 64;
    let W := expand_words (load_words data (replicate 64 0)) in
    let S := rounds W S in
    let digest := zip_with (fun d x => w32 (d + x)) (sha_digest s) S in
    _ ← wolfSSL_Free;
    mret (0, set_sha_digest digest s).

(** sha256.c:1889-1895, [AddLength] *)
Definition AddLength (s : wc_Sha256) (len : Z) : wc_Sha256 :=
  let tmp := sha_loLen s in
  let lo := w32 (sha_loLen s + len) in
  set_sha_len lo (if lo <? tmp then w32 (sha_hiLen s + 1) else sha_hiLen s) s.

(** sha256.c:2015-2068, [Sha256Update]: the loop over whole blocks.  The fuel
    never runs out: each pass consumes 64 bytes. *)
Fixpoint Update_loop (fuel : nat) (ret : Z) (s : wc_Sha256) (data : bytes) (len : Z)
    : M (Z * wc_Sha256 * bytes * Z) :=
  if negb (WC_SHA256_BLOCK_SIZE <=? len) then mret (ret, s, data, len)
  else match fuel with
  | O => fun _ => Fault
  | S fuel =>
    blk ← rd data 0 64;
    buf ← wr (sha_buffer s) 0 blk;
    let data := drop 64 data in
    let len := len - 64 in
    let buf := ByteReverseWords buf 64 in
    '(ret, s) ← Transform_Sha256 (set_sha_buffer buf (sha_buffLen s) s) buf;
    if negb (ret =? 0) then mret (ret, s, data, len)
    else Update_loop fuel ret s data len
  end.

(** sha256.c:1916-1977, [Sha256Update]: complete a partly filled buffer. *)
Definition Update_fill (s : wc_Sha256) (data : bytes) (len : Z) : M (Z * wc_Sha256 * bytes * Z) :=
  if 0 <? sha_buffLen s then
    let blocksLen := min_ct len (w32 (WC_SHA256_BLOCK_SIZE - sha_buffLen s)) in
    src ← rd data 0 blocksLen;
    buf ← wr (sha_buffer s) (sha_buffLen s) src;
    let s := set_sha_buffer buf (w32 (sha_buffLen s + blocksLen)) s in
    let data := drop (Z.to_nat blocksLen) data in
    let len := len - blocksLen in
    if sha_buffLen s =? WC_SHA256_BLOCK_SIZE then
      let buf := ByteReverseWords (sha_buffer s) 64 in
      '(ret, s) ← Transform_Sha256 (set_sha_buffer buf (sha_buffLen s) s) buf;
      if ret =? 0 then mret (ret, set_sha_buffer (sha_buffer s) 0 s, data, len)
      else mret (ret, s, data, 0)
    else mret (0, s, data, len)
  else mret (0, s, data, len).

(** sha256.c:1898-2079, [Sha256Update] *)
Definition Sha256Update (s : wc_Sha256) (data : bytes) (len : Z) : M (Z * wc_Sha256) :=
  if WC_SHA256_BLOCK_SIZE <=? sha_buffLen s then mret (BUFFER_E, s)
  else
    let s := AddLength s len in
    '(ret, s, data, len) ← Update_fill s data len;
    '(ret, s, data, len) ← Update_loop (Z.to_nat len) ret s data len;
    if (ret =? 0) && (0 <? len) then
      src ← rd data 0 len;
      buf ← wr (sha_buffer s) 0 src;
      mret (ret, set_sha_buffer buf len s)
    else mret (ret, s).

Section Code.
  Context `{!Callbacks}.

(** sha256.c:2085-2118, [wc_Sha256Update] *)
Definition wc_Sha256Update (s : wc_Sha256) (data : option bytes) (len : Z) : M (Z * wc_Sha256) :=
  if len =? 0 then mret (0, s)
  else match data with
  | None => mret (BAD_FUNC_ARG, s)
  | Some data =>
    let soft s := Sha256Update s data len in
    if negb (sha_devId s =? INVALID_DEVID) then
      '(ret, (s, _)) ← wc_CryptoCb_Sha256Hash s (Some data) len None;
      if negb (ret =? CRYPTOCB_UNAVAILABLE) then mret (ret, s) else soft s
    else soft s
  end.

(** sha256.c:2137-2178, [Sha256Final]: no room for the length, an extra block. *)
Definition Final_spill (s : wc_Sha256) : M (Z * wc_Sha256) :=
  if WC_SHA256_PAD_SIZE <? sha_buffLen s then
    buf ← (if sha_buffLen s <? WC_SHA256_BLOCK_SIZE
           then wr (sha_buffer s) (sha_buffLen s) (zeros (WC_SHA256_BLOCK_SIZE - sha_buffLen s))
           else mret (sha_buffer s));
    let buf := ByteReverseWords buf 64 in
    '(ret, s) ← Transform_Sha256 (set_sha_buffer buf (sha_buffLen s) s) buf;
    if negb (ret =? 0) then mret (ret, s)
    else mret (ret, set_sha_buffer (sha_buffer s) 0 s)
  else mret (0, s).

(** sha256.c:2179-2307, [Sha256Final]: zeros, the length in bits, the last block. *)
Definition Final_length (s : wc_Sha256) : M (Z * wc_Sha256) :=
  buf ← wr (sha_buffer s) (sha_buffLen s) (zeros (WC_SHA256_PAD_SIZE - sha_buffLen s));
  let hiLen := w32 (Z.shiftr (sha_loLen s) (8 * 4 - 3) + w32 (Z.shiftl (sha_hiLen s) 3)) in
  let loLen := w32 (Z.shiftl (sha_loLen s) 3) in
  let s := set_sha_len loLen hiLen s in
  buf ← wr buf 0 (ByteReverseWords buf WC_SHA256_PAD_SIZE);
  buf ← wr buf WC_SHA256_PAD_SIZE (le_split 4 hiLen);
  buf ← wr buf (WC_SHA256_PAD_SIZE + 4) (le_split 4 loLen);
  Transform_Sha256 (set_sha_buffer buf (sha_buffLen s) s) buf.

(** sha256.c:2121-2308, [Sha256Final] *)
Definition Sha256Final (s : wc_Sha256) : M (Z * wc_Sha256) :=
  if WC_SHA256_BLOCK_SIZE - 1 <? sha_buffLen s then mret (BAD_STATE_E, s)
  else
    buf ← wr (sha_buffer s) (sha_buffLen s) [0x80];
    let s := set_sha_buffer buf (sha_buffLen s + 1) s in
    '(ret, s) ← Final_spill s;
    if negb (ret =? 0) then mret (ret, s) else Final_length s.

(** sha256.c:2341-2389, [wc_Sha256Final]: the hash goes to the start of [hash]. *)
Definition wc_Sha256Final (s : wc_Sha256) (hash : bytes) : M (Z * wc_Sha256 * bytes) :=
  let soft s hash :=
    '(ret, s) ← Sha256Final s;
    if negb (ret =? 0) then mret (ret, s, hash)
    else
      let digest := ByteReverseWords (flat_map (le_split 4) (sha_digest s)) 32 in
      hash ← wr hash 0 digest;
      let '(ret, s) := InitSha256 s in
      mret (ret, s, hash) in
  if negb (sha_devId s =? INVALID_DEVID) then
    '(ret, (s, h)) ← wc_CryptoCb_Sha256Hash s None 0 (Some hash);
    let hash := default hash h in
    if negb (ret =? CRYPTOCB_UNAVAILABLE) then mret (ret, s, hash) else soft s hash
  else soft s hash.

(** sha256.c:2313-2338, [wc_Sha256FinalRaw]: the state after the whole blocks. *)
Definition wc_Sha256FinalRaw (s : wc_Sha256) (hash : bytes) : M (Z * bytes) :=
  hash ← wr hash 0 (ByteReverseWords (flat_map (le_split 4) (sha_digest s)) 32);
  mret (0, hash).

(** The object [wc_Sha256Free] leaves: every byte zero. *)
Definition sha_zero : wc_Sha256 :=
  {| sha_digest := replicate 8 0; sha_buffer := zeros 64; sha_buffLen := 0; sha_loLen := 0;
     sha_hiLen := 0; sha_devId := 0; sha_devCtx := 0; sha_flags := 0 |}.

(** sha256.c:3115-3241, [wc_Sha256Free] *)
Definition wc_Sha256Free (s : wc_Sha256) : wc_Sha256 := sha_zero.

(** types.h:1647, [WC_HASH_FLAG_ISCOPY] *)
Notation WC_HASH_FLAG_ISCOPY := (2)%Z (only parsing).

(** sha256.c:3500-3581, [wc_Sha256Copy]: the new [dst]. *)
Definition wc_Sha256Copy (src : wc_Sha256) : Z * wc_Sha256 :=
  (0, {| sha_digest := sha_digest src; sha_buffer := sha_buffer src;
         sha_buffLen := sha_buffLen src; sha_loLen := sha_loLen src; sha_hiLen := sha_hiLen src;
         sha_devId := sha_devId src; sha_devCtx := sha_devCtx src;
         sha_flags := Z.lor (sha_flags src) WC_HASH_FLAG_ISCOPY |}).

(** sha256.c:3477-3499, [wc_Sha256GetHash] *)
Definition wc_Sha256GetHash (s : wc_Sha256) (hash : bytes) : M (Z * bytes) :=
  tmp ← wolfSSL_Malloc;
  if negb tmp then mret (MEMORY_E, hash)
  else
    let '(ret, t) := wc_Sha256Copy s in
    '(ret, hash) ←
      (if ret =? 0 then
        '(ret, t, hash) ← wc_Sha256Final t hash;
        mret (ret, hash)
      else mret (ret, hash));
    _ ← wolfSSL_Free;
    mret (ret, hash).

(** sha256.c:3585-3591, [wc_Sha256SetFlags] *)
Definition wc_Sha256SetFlags (s : wc_Sha256) (flags : Z) : Z * wc_Sha256 :=
  (0, {| sha_digest := sha_digest s; sha_buffer := sha_buffer s; sha_buffLen := sha_buffLen s;
         sha_loLen := sha_loLen s; sha_hiLen := sha_hiLen s; sha_devId := sha_devId s;
         sha_devCtx := sha_devCtx s; sha_flags := flags |}).

(** sha256.c:3592-3598, [wc_Sha256GetFlags] *)
Definition wc_Sha256GetFlags (s : wc_Sha256) : Z * Z := (0, sha_flags s).

End Code.

(** ** FIPS 180-4 *)

Module Fips180.

(** Section 3.2: rotation of a 32-bit word, the low [n] bits going to the top. *)
Definition ROTR (n x : Z) : Z := Z.lor (Z.shiftr x n) (Z.shiftl (x mod 2 ^ n) (32 - n)).

(** Section 4.1.2. *)
Definition Ch (x y z : Z) : Z := Z.land x y ⊕ Z.land (Z.lnot x) z.
Definition Maj (x y z : Z) : Z := Z.land x y ⊕ Z.land x z ⊕ Z.land y z.
Definition S0 (x : Z) : Z := ROTR 2 x ⊕ ROTR 13 x ⊕ ROTR 22 x.
Definition S1 (x : Z) : Z := ROTR 6 x ⊕ ROTR 11 x ⊕ ROTR 25 x.
Definition s0 (x : Z) : Z := ROTR 7 x ⊕ ROTR 18 x ⊕ Z.shiftr x 3.
Definition s1 (x : Z) : Z := ROTR 17 x ⊕ ROTR 19 x ⊕ Z.shiftr x 10.

(** Section 6.2.2, step 1: the schedule, grown by [n] words. *)
Fixpoint schedule (n : nat) (W : list Z) : list Z :=
  match n with
  | O => W
  | S n =>
    let W := schedule n W in
    let t := length W in
    W ++ [(s1 (W !!! (t - 2)%nat) + W !!! (t - 7)%nat + s0 (W !!! (t - 15)%nat)
           + W !!! (t - 16)%nat) mod 2 ^ 32]
  end.

(** Step 3: one round on the working variables a..h. *)
Definition round (v : list Z) (kw : Z * Z) : list Z :=
  match v with
  | [a; b; c; d; e; f; g; h] =>
      let T1 := (h + S1 e + Ch e f g + kw.1 + kw.2) mod 2 ^ 32 in
      let T2 := (S0 a + Maj a b c) mod 2 ^ 32 in
      [(T1 + T2) mod 2 ^ 32; a; b; c; (d + T1) mod 2 ^ 32; e; f; g]
  | _ => v
  end.

(** Steps 1 to 4 on one block of 64 bytes. *)
Definition compress (H : list Z) (block : bytes) : list Z :=
  let W := schedule 48 (map be_combine (group 4 16 block)) in
  zip_with (fun x y => (x + y) mod 2 ^ 32) H (foldl round H (zip K W)).

Definition H0 : list Z :=
  [0x6a09e667; 0xbb67ae85; 0x3c6ef372; 0xa54ff53a; 0x510e527f; 0x9b05688c; 0x1f83d9ab; 0x5be0cd19].

(** The [n] first blocks of [m]. *)
Definition blocks (n : nat) (m : bytes) : list Z := foldl compress H0 (group 64 n m).

(** Section 5.1.1. *)
Definition pad (m : bytes) : bytes :=
  m ++ [0x80] ++ zeros ((55 - len m) mod 64) ++ be_split 8 (8 * len m).

Definition sha256 (m : bytes) : bytes :=
  flat_map (be_split 4) (blocks (length (pad m) / 64) (pad m)).

#[global] Arguments blocks : simpl never.
#[global] Arguments pad : simpl never.
#[global] Arguments sha256 : simpl never.

End Fips180.

(** ** The block function is the standard's *)

Lemma rotrFixed_ROTR x n : 0 <= x < 2 ^ 32 -> 0 < n < 32 -> rotrFixed x n = Fips180.ROTR n x.
Proof.
  intros Hx Hn. unfold rotrFixed, Fips180.ROTR. f_equal. apply Z.bits_inj'; intros i Hi.
  rewrite testbit_w32, !Z.shiftl_spec by lia.
  destruct (Z.ltb_spec i 32).
  - destruct (decide (32 - n <= i)).
    + rewrite Z.mod_pow2_bits_low by lia. btauto.
    + by rewrite !(Z.testbit_neg_r _ (i - _)) by lia.
  - by rewrite Z.mod_pow2_bits_high by lia.
Qed.

Lemma Ch_fips x y z : Ch x y z = Fips180.Ch x y z.
Proof.
  unfold Ch, Fips180.Ch. apply Z.bits_inj'; intros i Hi. autorewrite with bits.
  rewrite Z.lnot_spec by done. btauto.
Qed.

Lemma Maj_fips x y z : Maj x y z = Fips180.Maj x y z.
Proof.
  unfold Maj, Fips180.Maj. apply Z.bits_inj'; intros i Hi. autorewrite with bits. btauto.
Qed.

(** A list of 32-bit words. *)
Definition words_ok (l : list Z) : Prop := Forall (fun x => 0 <= x < 2 ^ 32) l.

Lemma words_lookup l i : words_ok l -> 0 <= l !!! i < 2 ^ 32.
Proof.
  intros H. rewrite list_lookup_total_alt. destruct (l !! i) as [x|] eqn:E; simpl; [|done].
  by apply (Forall_lookup_1 _ _ _ _ H E).
Qed.

Section Words.
  Context (x : Z) (Hx : 0 <= x < 2 ^ 32).

Lemma Sigma0_fips : Sigma0 x = Fips180.S0 x.
Proof using Hx. unfold Sigma0, Fips180.S0. by rewrite !rotrFixed_ROTR. Qed.
Lemma Sigma1_fips : Sigma1 x = Fips180.S1 x.
Proof using Hx. unfold Sigma1, Fips180.S1. by rewrite !rotrFixed_ROTR. Qed.
Lemma R_shiftr n : R x n = Z.shiftr x n.
Proof using Hx. unfold R. change (Z.land x 0xFFFFFFFF) with (w32 x). by rewrite w32_id. Qed.
Lemma Gamma0_fips : Gamma0 x = Fips180.s0 x.
Proof using Hx. unfold Gamma0, Fips180.s0. by rewrite !rotrFixed_ROTR, R_shiftr. Qed.
Lemma Gamma1_fips : Gamma1 x = Fips180.s1 x.
Proof using Hx. unfold Gamma1, Fips180.s1. by rewrite !rotrFixed_ROTR, R_shiftr. Qed.
End Words.

(** The schedule in an array of 64 words is the growing list. *)
Lemma schedule_length n W : length (Fips180.schedule n W) = (length W + n)%nat.
Proof.
  induction n as [|n IH]; simpl; [lia|]. rewrite length_app, IH. simpl. lia.
Qed.

Lemma schedule_ok n W : words_ok W -> words_ok (Fips180.schedule n W).
Proof.
  intros H. induction n as [|n IH]; simpl; [done|]. apply Forall_app. split; [done|].
  constructor; [by apply Z.mod_pos_bound|constructor].
Qed.

Lemma expand_schedule_step n W tail :
  length W = 16%nat -> words_ok W -> (n <= length tail)%nat ->
  foldl (fun W i =>
    <[i := w32 (Gamma1 (W !!! (i - 2)%nat) + W !!! (i - 7)%nat
                + Gamma0 (W !!! (i - 15)%nat) + W !!! (i - 16)%nat)]> W) (W ++ tail) (seq 16 n)
  = Fips180.schedule n W ++ drop n tail.
Proof.
  intros HL Hok. induction n as [|n IH]; intros Hn.
  { simpl. by rewrite drop_0. }
  rewrite seq_S, foldl_app, IH by lia. cbn [foldl Fips180.schedule].
  set (V := Fips180.schedule n W). assert (length V = 16 + n)%nat as HV
    by (unfold V; rewrite schedule_length; lia).
  assert (words_ok V) by (by apply schedule_ok).
  rewrite HV. replace (16 + n)%nat with (length V + 0)%nat at 1 by lia.
  rewrite insert_app_r. rewrite !lookup_total_app_l by lia.
  rewrite Gamma1_fips, Gamma0_fips, w32_mod by (by apply words_lookup).
  rewrite <-app_assoc. f_equal. destruct (drop n tail) as [|y rest] eqn:Ed.
  { apply (f_equal length) in Ed. rewrite length_drop in Ed. simpl in Ed. lia. }
  simpl. f_equal. change (S n) with (1 + n)%nat. rewrite Nat.add_comm, <-drop_drop, Ed. done.
Qed.

Lemma group_seq {A} n k (l : list A) :
  group n k l = map (fun i => take n (drop (n * i) l)) (seq 0 k).
Proof.
  revert l; induction k as [|k IH]; intros l; [done|]. cbn [group seq map].
  rewrite Nat.mul_0_r, drop_0, IH, <-seq_shift, map_map. f_equal. apply map_ext. intros i.
  rewrite drop_drop. do 2 f_equal. lia.
Qed.

Lemma group_flat_map {A B} n (f : A -> list B) l :
  (forall x, x ∈ l -> length (f x) = n) -> group n (length l) (flat_map f l) = map f l.
Proof.
  induction l as [|x l IH]; intros H; [done|]. cbn [length group flat_map map].
  assert (length (f x) = n) as Hx by (apply H; by left).
  rewrite take_app_length', drop_app_length' by done. f_equal. apply IH. intros y Hy. apply H. by right.
Qed.

Lemma group_elem_length {A} n k (l : list A) x :
  (n * k <= length l)%nat -> x ∈ group n k l -> length x = n.
Proof.
  revert l; induction k as [|k IH]; intros l Hl Hx; [by apply elem_of_nil in Hx|]. cbn [group] in Hx.
  apply elem_of_cons in Hx as [->|Hx]; [rewrite length_take; lia|].
  apply (IH (drop n l)); [rewrite length_drop; lia|done].
Qed.

Lemma bytes_ok_group n k l x : bytes_ok l -> x ∈ group n k l -> bytes_ok x.
Proof.
  revert l; induction k as [|k IH]; intros l Hl Hx; [by apply elem_of_nil in Hx|]. cbn [group] in Hx.
  apply elem_of_cons in Hx as [->|Hx]; [by auto with wf|]. apply (IH (drop n l)); auto with wf.
Qed.

(** Loading after the byte reversal gives the big-endian words of the block. *)
Lemma load_words_be blk :
  length blk = 64%nat -> bytes_ok blk ->
  load_words (ByteReverseWords blk 64) (replicate 64 0)
  = map be_combine (group 4 16 blk) ++ replicate 48 0.
Proof.
  intros HL Hok.
  assert (forall data, load_words data (replicate 64 0)
    = map le_combine (group 4 16 data) ++ replicate 48 0) as ->.
  { intros data. rewrite group_seq, map_map. reflexivity. }
  rewrite ByteReverseWords_rev by (auto; rewrite HL; vm_compute; lia). f_equal.
  change (64 / 4) with 16. change (Z.to_nat 16) with 16%nat.
  replace 16%nat with (length (group 4 16 blk)) at 1 by apply length_group.
  rewrite group_flat_map, map_map; [done|]. intros x Hx. rewrite length_rev.
  eapply group_elem_length; [|done]. lia.
Qed.

Lemma expand_words_schedule W :
  length W = 16%nat -> words_ok W ->
  expand_words (W ++ replicate 48 0) = Fips180.schedule 48 W.
Proof.
  intros HL Hok. unfold expand_words. rewrite expand_schedule_step by (rewrite ?length_replicate; auto).
  by rewrite drop_replicate, app_nil_r.
Qed.

(** The working variables as round [j] names them. *)
Definition view (j : Z) (S : list Z) : list Z :=
  map (fun v => S !!! var v j) [0; 1; 2; 3; 4; 5; 6; 7].

Lemma round_ok v kw : length v = 8%nat -> words_ok v -> words_ok (Fips180.round v kw) /\
  length (Fips180.round v kw) = 8%nat.
Proof.
  intros HL H. do 9 (destruct v as [|? v]; try done). unfold words_ok in *. cbn [Fips180.round].
  split_bytes. split; [|done].
  assert (forall x, 0 <= x mod 2 ^ 32 < 2 ^ 32) by (intros; by apply Z.mod_pos_bound).
  repeat apply Forall_cons_2; auto.
Qed.

(** The pair of words that round [i + j] adds in. *)
Definition kw (W : list Z) (t : Z) : Z * Z := (K !!! Z.to_nat t, W !!! Z.to_nat t).

Lemma RND_round W i j S :
  length S = 8%nat -> words_ok S -> 0 <= j < 8 ->
  view (j + 1) (RND W i j S)
  = Fips180.round (view j S) (kw W (i + j)) /\
  length (RND W i j S) = 8%nat /\ words_ok (RND W i j S).
Proof.
  intros HL Hok Hj. split; [|split].
  - unfold RND, kw. rewrite Ch_fips, Maj_fips, Sigma0_fips, Sigma1_fips, !w32_mod by (by apply words_lookup).
    generalize (K !!! Z.to_nat (i + j)), (W !!! Z.to_nat (i + j)). intros k w.
    do 9 (destruct S as [|? S]; try done).
    assert (j = 0 \/ j = 1 \/ j = 2 \/ j = 3 \/ j = 4 \/ j = 5 \/ j = 6 \/ j = 7) as Hc by lia.
    destruct Hc as [->|[->|[->|[->|[->|[->|[->| ->]]]]]]]; reflexivity.
  - unfold RND. by rewrite !length_insert.
  - unfold RND. apply Forall_insert; [apply Forall_insert; [done|]|]; apply w32_range.
Qed.

#[local] Opaque RND Fips180.round.

Lemma RND_rounds W i n a S :
  length S = 8%nat -> words_ok S -> (a + n <= 8)%nat ->
  let js := map Z.of_nat (seq a n) in
  let S' := foldl (fun S j => RND W i j S) S js in
  view (Z.of_nat (a + n)) S' = foldl Fips180.round (view (Z.of_nat a) S) (map (fun j => kw W (i + j)) js) /\
  length S' = 8%nat /\ words_ok S'.
Proof.
  revert a S; induction n as [|n IH]; intros a S HL Hok Hn; cbn [seq map foldl].
  { rewrite Nat.add_0_r. done. }
  destruct (RND_round W i (Z.of_nat a) S HL Hok ltac:(lia)) as (Hv & HL' & Hok').
  destruct (IH (a + 1)%nat _ HL' Hok' ltac:(lia)) as (Hv' & Hrest). cbn zeta in *.
  replace (Datatypes.S a) with (a + 1)%nat by lia. split; [|done].
  replace (a + Datatypes.S n)%nat with (a + 1 + n)%nat by lia. rewrite Hv'. f_equal.
  rewrite <-Hv. f_equal. lia.
Qed.

Lemma zip_seq n (l k : list Z) :
  length l = n -> length k = n -> zip l k = map (fun t => (l !!! t, k !!! t)) (seq 0 n).
Proof.
  revert l k; induction n as [|n IH]; intros [|x l] [|y k] Hl Hk; try done.
  cbn [zip_with seq map]. rewrite <-seq_shift, map_map. f_equal. apply IH; simpl in *; lia.
Qed.

Lemma view_0 S : length S = 8%nat -> view 0 S = S /\ view 8 S = S.
Proof. intros H. do 9 (destruct S as [|? S]; try done). Qed.

Lemma rounds8_fips W g S :
  length S = 8%nat -> words_ok S ->
  rounds8 W S (8 * Z.of_nat g) = foldl Fips180.round S (map (fun t => kw W (Z.of_nat t)) (seq (8 * g) 8)) /\
  length (rounds8 W S (8 * Z.of_nat g)) = 8%nat /\ words_ok (rounds8 W S (8 * Z.of_nat g)).
Proof.
  intros HL Hok. destruct (RND_rounds W (8 * Z.of_nat g) 8 0 S HL Hok ltac:(lia)) as (Hv & HL' & Hok').
  cbn zeta in *.
  assert (map Z.of_nat (seq 0 8) = [0; 1; 2; 3; 4; 5; 6; 7]) as Hjs by done. rewrite Hjs in *.
  fold (rounds8 W S (8 * Z.of_nat g)) in Hv, HL', Hok'. split; [|by split].
  change (Z.of_nat (0 + 8)) with 8 in Hv. change (Z.of_nat 0) with 0 in Hv.
  rewrite (proj2 (view_0 _ HL')), (proj1 (view_0 _ HL)) in Hv. rewrite Hv. f_equal.
  replace (8 * g)%nat with (8 * g + 0)%nat by lia. rewrite <-fmap_add_seq, <-Hjs, !map_map.
  apply map_ext. intros j. f_equal. lia.
Qed.

Lemma rounds_fips W S :
  length W = 64%nat -> length S = 8%nat -> words_ok S ->
  rounds W S = foldl Fips180.round S (zip K W).
Proof.
  intros HW HL Hok. unfold rounds.
  assert (forall n i S, length S = 8%nat -> words_ok S ->
    foldl (rounds8 W) S (map (fun g => 8 * Z.of_nat g) (seq i n))
    = foldl Fips180.round S (map (fun t => kw W (Z.of_nat t)) (seq (8 * i) (8 * n)))) as H.
  { clear S HL Hok. induction n as [|n IH]; intros i S HL Hok; [by rewrite Nat.mul_0_r|].
    cbn [seq map foldl]. destruct (rounds8_fips W i S HL Hok) as (Hv & HL' & Hok').
    rewrite (IH _ _ HL' Hok'), Hv, <-foldl_app. f_equal.
    replace (8 * Datatypes.S n)%nat with (8 + 8 * n)%nat by lia. rewrite seq_app, map_app.
    by replace (8 * i + 8)%nat with (8 * Datatypes.S i)%nat by lia. }
  change [0; 8; 16; 24; 32; 40; 48; 56] with (map (fun g => 8 * Z.of_nat g) (seq 0 8)).
  rewrite (H 8%nat 0%nat S HL Hok). f_equal.
  rewrite (zip_seq 64) by done. apply map_ext. intros t. unfold kw. by rewrite Nat2Z.id.
Qed.

(** The block function computes the compression of FIPS 180-4, or fails for
    want of memory with the state unchanged. *)
Lemma Transform_Sha256_spec e s blk :
  length blk = 64%nat -> bytes_ok blk -> length (sha_digest s) = 8%nat -> words_ok (sha_digest s) ->
  calc e 0 (Transform_Sha256 s (ByteReverseWords blk 64))
    (fun r => (r.1 = 0 /\ r.2 = set_sha_digest (Fips180.compress (sha_digest s) blk) s) \/
              (r = (MEMORY_E, s) /\ oom e)).
Proof.
  intros HL Hok HD HDok. unfold Transform_Sha256.
  assert (length (ByteReverseWords blk 64) = 64%nat) as HB by apply length_ByteReverseWords.
  calc_step; cbn [negb]; [|calc_step; by right].
  calc_step; [lia..|unfold len; lia|]. calc_step. calc_step. left. split; [done|]. simpl. f_equal.
  rewrite sub_all by (unfold len; lia). unfold Fips180.compress.
  assert (words_ok (map be_combine (group 4 16 blk))) as HW.
  { apply Forall_forall. intros w [x [<- Hx]]%in_map_iff. apply list_elem_of_In in Hx.
    pose proof (be_combine_range x (bytes_ok_group _ _ _ _ Hok Hx)) as Hr.
    unfold len in Hr. by rewrite (group_elem_length 4 16 blk x ltac:(lia) Hx) in Hr. }
  rewrite load_words_be, expand_words_schedule, rounds_fips; try done.
  apply zip_with_ext; [|done..]. intros. apply w32_mod.
Qed.

(** ** Streaming *)

Lemma compress_ok H blk :
  length H = 8%nat -> words_ok H ->
  length (Fips180.compress H blk) = 8%nat /\ words_ok (Fips180.compress H blk).
Proof.
  intros HL Hok. unfold Fips180.compress.
  generalize (zip K (Fips180.schedule 48 (map be_combine (group 4 16 blk)))) as kws. intros kws.
  assert (forall S, length S = 8%nat -> words_ok S -> length (foldl Fips180.round S kws) = 8%nat) as Hl.
  { clear HL Hok. induction kws as [|k kws IH]; intros S HL Hok; [done|]. cbn [foldl].
    destruct (round_ok S k HL Hok). by apply IH. }
  specialize (Hl H HL Hok). split; [rewrite length_zip_with; lia|].
  clear. generalize (foldl Fips180.round H kws). revert H. induction H as [|x H IH]; intros [|y l]; try constructor.
  - by apply Z.mod_pos_bound.
  - apply IH.
Qed.

Lemma blocks_ok n m : length (Fips180.blocks n m) = 8%nat /\ words_ok (Fips180.blocks n m).
Proof.
  unfold Fips180.blocks. generalize (group 64 n m) as bs. intros bs.
  assert (length Fips180.H0 = 8%nat /\ words_ok Fips180.H0) as H0ok.
  { split; [done|]. unfold words_ok, Fips180.H0. solve_bytes. }
  revert H0ok. generalize Fips180.H0 as H. induction bs as [|b bs IH]; intros H [? ?]; [done|].
  cbn [foldl]. apply IH. by apply compress_ok.
Qed.

Lemma blocks_app n hd blk :
  length hd = (64 * n)%nat -> length blk = 64%nat ->
  Fips180.blocks (n + 1) (hd ++ blk) = Fips180.compress (Fips180.blocks n hd) blk.
Proof.
  intros HL HB. unfold Fips180.blocks. rewrite group_app, foldl_app by done. cbn [group foldl].
  by rewrite take_ge by lia.
Qed.

(** The whole blocks [hd] are hashed into [s]; the buffer may hold anything. *)
Record hashed (hd : bytes) (s : wc_Sha256) : Prop := {
  hs_blocks : exists n, length hd = (64 * n)%nat /\ sha_digest s = Fips180.blocks n hd;
  hs_buffer : length (sha_buffer s) = 64%nat;
  hs_bytes : bytes_ok (sha_buffer s);
}.

(** [s] has absorbed the message [m]: its blocks are hashed, the rest is in the
    buffer, and the two length words hold its length in bytes. *)
Record absorbed (m : bytes) (s : wc_Sha256) : Prop := {
  ab_parts : exists hd tail, m = hd ++ tail /\ hashed hd s /\ sha_buffLen s = len tail /\
    len tail < 64 /\ take (length tail) (sha_buffer s) = tail;
  ab_len : sha_hiLen s * 2 ^ 32 + sha_loLen s = len m;
  ab_lo : 0 <= sha_loLen s < 2 ^ 32;
  ab_dev : sha_devId s = INVALID_DEVID;
}.

(** Hashing one more block, from the buffer it was copied to and reversed in. *)
Lemma Transform_hashed e hd s blk n :
  hashed hd s -> length blk = 64%nat -> bytes_ok blk ->
  calc e 0 (Transform_Sha256 (set_sha_buffer (ByteReverseWords blk 64) n s) (ByteReverseWords blk 64))
    (fun r => (r.1 = 0 /\ hashed (hd ++ blk) r.2 /\ sha_buffLen r.2 = n /\
               sha_loLen r.2 = sha_loLen s /\ sha_hiLen r.2 = sha_hiLen s /\
               sha_devId r.2 = sha_devId s) \/
              (r.1 = MEMORY_E /\ oom e)).
Proof.
  intros [(k & HL & Hd) Hb Hbo] HB HBo.
  destruct (blocks_ok k hd) as [Hl Hw].
  eapply calc_mono; [apply Transform_Sha256_spec; simpl; try done; by rewrite Hd|].
  intros [ret s'] [[-> ->]|[[= -> ->] Ho]]; [left|by right].
  cbn [fst snd]. split_and!; try done.
  split; cbn [sha_buffer sha_digest set_sha_digest set_sha_buffer].
  - exists (k + 1)%nat. rewrite length_app, blocks_app, Hd by done. split; [lia|done].
  - apply length_ByteReverseWords.
  - unfold ByteReverseWords. clear. generalize (group 4 (Z.to_nat (64 / 4)) blk) as l.
    induction l as [|x l IH]; cbn [flat_map]; [constructor|]. auto with wf.
Qed.

Lemma AddLength_spec s n len :
  sha_hiLen s * 2 ^ 32 + sha_loLen s = n -> 0 <= sha_loLen s < 2 ^ 32 ->
  0 <= len < 2 ^ 32 -> 0 <= n -> n + len < 2 ^ 61 ->
  let s' := AddLength s len in
  sha_hiLen s' * 2 ^ 32 + sha_loLen s' = n + len /\ 0 <= sha_loLen s' < 2 ^ 32 /\
  sha_digest s' = sha_digest s /\ sha_buffer s' = sha_buffer s /\
  sha_buffLen s' = sha_buffLen s /\ sha_devId s' = sha_devId s.
Proof.
  intros Hn Hlo Hlen Hn0 Hmax. unfold AddLength; simpl. split_and!; try done; try apply w32_range.
  destruct (decide (sha_loLen s + len < 2 ^ 32)).
  - rewrite (w32_id (sha_loLen s + len)) by lia.
    destruct (Z.ltb_spec (sha_loLen s + len) (sha_loLen s)); lia.
  - assert (w32 (sha_loLen s + len) = sha_loLen s + len - 2 ^ 32) as ->.
    { rewrite w32_mod. symmetry. apply (Z.mod_unique_pos _ _ 1); lia. }
    destruct (Z.ltb_spec (sha_loLen s + len - 2 ^ 32) (sha_loLen s)); [|lia].
    rewrite w32_id by lia. lia.
Qed.

(** The loop hashes the whole blocks of the data and stops short of one. *)
Lemma Update_loop_spec e fuel hd s data l :
  hashed hd s -> bytes_ok data -> len data = l -> l <= Z.of_nat fuel ->
  calc e 0 (Update_loop fuel 0 s data l)
    (fun '(ret, s', rest, l') =>
      (ret = 0 /\ (exists more, data = more ++ rest /\ hashed (hd ++ more) s') /\
       l' = len rest /\ l' < 64 /\ bytes_ok rest /\ sha_buffLen s' = sha_buffLen s /\
       sha_loLen s' = sha_loLen s /\ sha_hiLen s' = sha_hiLen s /\ sha_devId s' = sha_devId s) \/
      (ret = MEMORY_E /\ oom e)).
Proof.
  revert hd s data l; induction fuel as [|fuel IH]; intros hd s data l Hh Hok Hl Hf;
    pose proof (len_nonneg data); cbn [Update_loop];
    (destruct (Z.leb_spec WC_SHA256_BLOCK_SIZE l) as [Hge|Hlt]; cbn [negb];
    [|calc_step; left; split_and!; try done; exists []; by rewrite app_nil_r]); [lia|].
  assert (length (sub data 0 64) = 64%nat) as Hblk.
  { pose proof (len_sub data 0 64 ltac:(lia) ltac:(lia) ltac:(lia)) as Hs. unfold len in Hs. lia. }
  calc_step; [lia..|]. pose proof (hs_buffer _ _ Hh) as Hbuf.
  calc_step; [lia|unfold len; lia|]. rewrite splice_full by lia.
  eapply calc_bind; [apply (Transform_hashed e hd); auto with wf|].
  intros [ret s1] [(Hr & Hh1 & Hrest)|[Hr Ho]]; simpl in Hr; subst ret; eval_tests; [|calc_step; by right].
  eapply calc_mono; [apply (IH (hd ++ sub data 0 64)); auto with wf|].
  - unfold len in *. rewrite length_drop. lia.
  - lia.
  - intros [[[ret s2] rest] l2] [(-> & (more & Hm & Hh2) & H2)|?]; [left|by right]. simpl in Hrest.
    split; [done|]. destruct Hrest as (? & ? & ? & ?), H2 as (? & ? & ? & ? & ? & ? & ?).
    split_and!; try congruence; try done.
    exists (sub data 0 64 ++ more). rewrite <-app_assoc, <-Hm, app_assoc in *. split; [|done].
    unfold sub. rewrite drop_0. by rewrite take_drop.
Qed.

(** What a message and a state share between updates, lengths aside. *)
Definition parts (m : bytes) (s : wc_Sha256) : Prop :=
  exists hd tail, m = hd ++ tail /\ hashed hd s /\ sha_buffLen s = len tail /\
    len tail < 64 /\ take (length tail) (sha_buffer s) = tail.

Definition same_meta (s s' : wc_Sha256) : Prop :=
  sha_loLen s' = sha_loLen s /\ sha_hiLen s' = sha_hiLen s /\ sha_devId s' = sha_devId s.

(** Filling the buffer: either it became full and was hashed, and hashing goes
    on with the rest of the data; or the data fitted. *)
Lemma Update_fill_spec e m s data l :
  parts m s -> bytes_ok data -> len data = l -> l < 2 ^ 32 ->
  calc e 0 (Update_fill s data l)
    (fun '(ret, s', rest, l') =>
      (ret = 0 /\ same_meta s s' /\ len rest = l' /\ bytes_ok rest /\
       ((sha_buffLen s' = 0 /\ exists hd, hashed hd s' /\ m ++ data = hd ++ rest) \/
        (rest = [] /\ parts (m ++ data) s'))) \/
      (ret = MEMORY_E /\ l' = 0 /\ oom e)).
Proof.
  intros (hd & tail & -> & Hh & Hbl & Ht & Htk) Hok Hl Hmax. unfold Update_fill.
  pose proof (len_nonneg data). pose proof (len_nonneg tail). pose proof (hs_buffer _ _ Hh) as Hbuf.
  destruct (Z.ltb_spec 0 (sha_buffLen s)) as [Hpos|Hz].
  2:{ calc_step. left. assert (tail = []) as -> by (destruct tail; [done|unfold len in *; simpl in *; lia]).
      split_and!; try done. left. split; [unfold len in *; simpl in *; lia|]. exists hd. by rewrite app_nil_r. }
  rewrite (w32_id (64 - _)), min_ct_spec by lia. set (k := Z.min l (64 - sha_buffLen s)).
  calc_step; [lia..|]. assert (len (sub data 0 k) = k) as Hsrc by (apply len_sub; lia).
  calc_step; [lia|unfold len at 2; lia|]. cbn [sha_buffLen sha_buffer set_sha_buffer].
  set (buf := splice (sha_buffer s) (sha_buffLen s) (sub data 0 k)).
  assert (length buf = 64%nat) as Hb64.
  { unfold buf. by rewrite length_splice by (rewrite ?Hsrc; unfold len; lia). }
  assert (take (Z.to_nat (sha_buffLen s + k)) buf = tail ++ sub data 0 k) as Htake.
  { unfold buf. rewrite <-Hsrc at 1. rewrite take_splice by (rewrite ?Hsrc; unfold len; lia). f_equal.
    rewrite Hbl. unfold len. by rewrite Nat2Z.id. }
  assert (bytes_ok buf) as Hbok by (apply bytes_ok_splice; [apply Hh|auto with wf]).
  rewrite w32_id by lia. destruct (Z.eqb_spec (sha_buffLen s + k) 64) as [Hfull|Hpart].
  - rewrite Hfull, take_ge in Htake by (rewrite Hb64; lia). rewrite Htake in *.
    eapply calc_bind; [apply (Transform_hashed e hd (set_sha_buffer (tail ++ sub data 0 k) _ s)); try done|].
    { destruct Hh. by split. }
    intros [ret s1] [(Hr & Hh1 & Hm)|[Hr Ho]]; simpl in Hr; subst ret; eval_tests; calc_step; [left|by right].
    destruct Hm as (? & ? & ? & ?). split_and!; try done; auto with wf.
    + unfold len in *. rewrite length_drop. lia.
    + left. split; [done|]. exists (hd ++ tail ++ sub data 0 k). split; [by destruct Hh1; split|].
      rewrite <-!app_assoc. do 2 f_equal. unfold sub. rewrite drop_0. by rewrite take_drop.
  - calc_step. left. assert (k = l) as Hkl by lia. rewrite Hkl in *.
    assert (sub data 0 l = data) as Hsub by (by apply sub_all). rewrite Hsub in *.
    assert (drop (Z.to_nat l) data = []) as -> by (apply drop_ge; unfold len in *; lia).
    split_and!; try done; [unfold len; simpl; lia|constructor|]. right. split; [done|].
    exists hd, (tail ++ data). rewrite <-app_assoc. split_and!; try done.
    + destruct Hh. by split.
    + cbn. rewrite len_app. lia.
    + rewrite len_app. lia.
    + cbn. rewrite <-Htake at 2. f_equal. rewrite length_app. unfold len in *. lia.
Qed.

Lemma Update_loop_small fuel ret s data l :
  l < 64 -> Update_loop fuel ret s data l = mret (ret, s, data, l).
Proof.
  intros H. destruct fuel; cbn [Update_loop]; by rewrite (proj2 (Z.leb_gt WC_SHA256_BLOCK_SIZE l)).
Qed.

Lemma Sha256Update_spec e m s data l :
  absorbed m s -> bytes_ok data -> len data = l -> l < 2 ^ 32 -> len m + l < 2 ^ 61 ->
  calc e 0 (Sha256Update s data l)
    (fun r => (r.1 = 0 /\ absorbed (m ++ data) r.2) \/ (r.1 = MEMORY_E /\ oom e)).
Proof.
  intros [Hp Hlen Hlo Hdev] Hok Hl Hmax Hm. pose proof (len_nonneg data). pose proof (len_nonneg m).
  destruct (AddLength_spec s (len m) l Hlen Hlo ltac:(lia) ltac:(lia) Hm)
    as (Hlen' & Hlo' & Hd' & Hb' & Hbl' & Hdev').
  unfold Sha256Update. set (s0 := AddLength s l) in *.
  assert (parts m s0) as Hp0.
  { destruct Hp as (hd & tail & -> & [Hx Hy Hz] & ? & ? & ?). exists hd, tail.
    rewrite Hb', Hbl'. split_and!; try done. }
  assert (forall s', same_meta s0 s' -> parts (m ++ data) s' -> absorbed (m ++ data) s') as Hdone.
  { intros s' (E1 & E2 & E3) Hp'. split; [done|..]; rewrite ?E1, ?E2, ?E3, ?len_app, ?Hl; try done. }
  clear Hlen' Hlo' Hd' Hb' Hbl' Hdev'.
  destruct (Z.leb_spec WC_SHA256_BLOCK_SIZE (sha_buffLen s)) as [Hbad|_].
  { destruct Hp as (hd & tail & _ & _ & Hbl & Ht & _). lia. }
  eapply calc_bind; [by apply (Update_fill_spec e m)|].
  intros [[[ret s1] rest] l1] [(-> & Hmeta & Hl1 & Hrok & Hcase)|(-> & -> & Ho)].
  2:{ rewrite Update_loop_small by done. calc_step. eval_tests. calc_step. by right. }
  destruct Hcase as [(Hbl & hd & Hh & Happ)|(-> & Hp1)].
  2:{ change (len []) with 0 in Hl1. subst l1. rewrite Update_loop_small by done. calc_step. eval_tests.
      calc_step. left. auto. }
  eapply calc_bind; [by apply (Update_loop_spec e _ hd); try lia|].
  intros [[[ret s2] rest2] l2] [(-> & (more & -> & Hh2) & -> & Hl2 & Hr2 & Hbl2 & Hm2)|(-> & Ho)].
  2:{ eval_tests. calc_step. by right. }
  assert (same_meta s0 s2) as Hmeta2.
  { destruct Hmeta as (? & ? & ?), Hm2 as (? & ? & ?). split_and!; congruence. }
  pose proof (hs_buffer _ _ Hh2) as Hb2. pose proof (hs_bytes _ _ Hh2) as Hbo2.
  eval_tests. destruct (Z.ltb_spec 0 (len rest2)) as [Hpos|Hz].
  - calc_step; [lia..|]. rewrite sub_all by done. calc_step; [lia|unfold len in *; lia|]. calc_step. left.
    split; [done|]. apply Hdone; [done|]. exists (hd ++ more), rest2. rewrite Happ, app_assoc.
    split_and!; try done.
    + destruct Hh2. split; try done; cbn; [by rewrite length_splice by (unfold len in *; lia)|auto with wf].
    + cbn. pose proof (take_splice (sha_buffer s2) 0 rest2 ltac:(lia) ltac:(unfold len in *; lia)) as Ht.
      rewrite Z.add_0_l in Ht. unfold len in Ht. rewrite Nat2Z.id in Ht. exact Ht.
  - calc_step. left. split; [done|]. apply Hdone; [done|].
    assert (rest2 = []) as -> by (destruct rest2; [done|unfold len in *; simpl in *; lia]).
    exists (hd ++ more), []. rewrite Happ, app_assoc. split_and!; try done.
    cbn. by rewrite Hbl2, Hbl.
Qed.

(** ** Finalisation *)

(** The length in bits, from the two words of the length in bytes. *)
Lemma length_words lo hi n :
  hi * 2 ^ 32 + lo = n -> 0 <= lo < 2 ^ 32 -> 0 <= n < 2 ^ 61 ->
  be_split 4 (w32 (Z.shiftr lo (8 * 4 - 3) + w32 (Z.shiftl hi 3))) ++
  be_split 4 (w32 (Z.shiftl lo 3)) = be_split 8 (8 * n).
Proof.
  intros Hn Hlo Hmax. unfold be_split. rewrite <-rev_app_distr. f_equal.
  rewrite (le_split_app 4 4). change (8 * Z.of_nat 4) with 32. f_equal.
  - rewrite <-(le_split_mod 4 (8 * n)), <-(le_split_mod 4 (w32 _)), w32_mod.
    change (8 * Z.of_nat 4) with 32. f_equal. rewrite Z.mod_mod, Z.shiftl_mul_pow2 by lia.
    rewrite <-Hn. replace (8 * (hi * 2 ^ 32 + lo)) with (lo * 2 ^ 3 + (8 * hi) * 2 ^ 32) by lia.
    by rewrite Z.mod_add by lia.
  - f_equal. change (8 * 4 - 3) with 29. rewrite Z.shiftl_mul_pow2, !Z.shiftr_div_pow2 by lia.
    assert (0 <= lo / 2 ^ 29 < 8) by (split; [apply Z.div_pos|apply Z.div_lt_upper_bound]; lia).
    rewrite (w32_id (hi * 2 ^ 3)), w32_id by lia.
    rewrite <-Hn. apply (Z.div_unique_pos _ _ _ (8 * lo mod 2 ^ 32)); [apply Z.mod_pos_bound; lia|].
    pose proof (Z.div_mod lo (2 ^ 29) ltac:(lia)). pose proof (Z.mod_pos_bound lo (2 ^ 29) ltac:(lia)).
    replace (8 * lo) with (8 * (lo mod 2 ^ 29) + (lo / 2 ^ 29) * 2 ^ 32) by lia.
    rewrite Z.mod_add, Z.mod_small by lia. lia.
Qed.

Lemma ByteReverseWords_app l k n :
  bytes_ok l -> bytes_ok k -> length l = (4 * n)%nat -> (length k = 8)%nat ->
  ByteReverseWords (l ++ k) (Z.of_nat (4 * n + 8)) =
  ByteReverseWords (l ++ k) (Z.of_nat (4 * n)) ++ ByteReverseWords k 8.
Proof.
  intros Hl Hk HL HK. unfold ByteReverseWords.
  replace (Z.to_nat (Z.of_nat (4 * n + 8) / 4)) with (n + 2)%nat by
    (replace (Z.of_nat (4 * n + 8)) with (Z.of_nat (n + 2) * 4) by lia; rewrite Z.div_mul by lia; lia).
  replace (Z.to_nat (Z.of_nat (4 * n) / 4)) with n by
    (replace (Z.of_nat (4 * n)) with (Z.of_nat n * 4) by lia; rewrite Z.div_mul by lia; lia).
  change (Z.to_nat (8 / 4)) with 2%nat.
  rewrite (group_app 4 n 2) by done. rewrite flat_map_app. f_equal.
  rewrite <-(group_take 4 n (l ++ k) (4 * n)) by lia. by rewrite take_app_length' by lia.
Qed.

Lemma ByteReverseWords_take l : ByteReverseWords l 56 = ByteReverseWords (take 56 l) 56.
Proof. unfold ByteReverseWords. by rewrite group_take by (vm_compute; lia). Qed.

Lemma ByteReverseWords_be8 x y :
  ByteReverseWords (be_split 4 x ++ be_split 4 y) 8 = le_split 4 x ++ le_split 4 y.
Proof.
  rewrite ByteReverseWords_rev by (auto with wf; vm_compute; lia).
  change (Z.to_nat (8 / 4)) with 2%nat. cbn [group flat_map].
  assert (length (be_split 4 x) = 4%nat) as Hx by done. assert (length (be_split 4 y) = 4%nat) by done.
  rewrite take_app_length', drop_app_length', take_ge by done. rewrite app_nil_r.
  unfold be_split. by rewrite !rev_involutive.
Qed.

(** The three stores that finish the last block. *)
Lemma last_block {B} e P buf hi lo (k : bytes -> M B) Q :
  length buf = 64%nat -> bytes_ok buf -> length P = 56%nat -> take 56 buf = P ->
  calc e 0 (k (ByteReverseWords (P ++ be_split 4 hi ++ be_split 4 lo) 64)) Q ->
  calc e 0 (b1 ← wr buf 0 (ByteReverseWords buf WC_SHA256_PAD_SIZE);
            b2 ← wr b1 WC_SHA256_PAD_SIZE (le_split 4 hi);
            b3 ← wr b2 (WC_SHA256_PAD_SIZE + 4) (le_split 4 lo); k b3) Q.
Proof.
  intros Hb Hok HP Ht H.
  assert (len (ByteReverseWords buf 56) = 56) as HR by (unfold len; by rewrite length_ByteReverseWords).
  assert (len buf = 64) as Hlb by (unfold len; by rewrite Hb).
  pose proof (take_drop 56 buf) as Hsplit. rewrite Ht in Hsplit.
  assert (length (drop 56 buf) = 8%nat) as HD by (rewrite length_drop; lia).
  pose proof (take_drop 4 (drop 56 buf)) as Hsplit2.
  set (D1 := take 4 (drop 56 buf)) in *. set (D2 := drop 4 (drop 56 buf)) in *.
  assert (length D1 = 4%nat) by (unfold D1; rewrite length_take; lia).
  assert (length D2 = 4%nat) by (unfold D2; rewrite length_drop; lia).
  assert (bytes_ok P) as HPok by (subst P; auto with wf).
  set (R := ByteReverseWords buf 56) in *.
  calc_step; [lia..|]. assert (splice buf 0 R = R ++ D1 ++ D2) as ->.
  { rewrite <-Hsplit, <-Hsplit2. apply (splice_app [] P (D1 ++ D2)); [done|]. rewrite HR. unfold len. lia. }
  calc_step; [lia|unfold len; rewrite !length_app; unfold len in HR; simpl; lia|].
  rewrite (splice_app R D1 D2) by (rewrite ?HR; unfold len; simpl; lia).
  calc_step; [lia|unfold len; rewrite !length_app; unfold len in HR; simpl; lia|].
  replace (R ++ le_split 4 hi ++ D2) with ((R ++ le_split 4 hi) ++ D2 ++ []) by
    (by rewrite app_nil_r, <-app_assoc).
  rewrite splice_app by (rewrite ?len_app, ?HR; unfold len; simpl; lia). rewrite app_nil_r.
  change 64 with (Z.of_nat (4 * 14 + 8)) in H.
  rewrite ByteReverseWords_app, ByteReverseWords_be8, app_assoc in H; auto with wf.
  change (Z.of_nat (4 * 14)) with 56 in H.
  rewrite ByteReverseWords_take, (take_app_length' P) in H by done.
  unfold R. rewrite ByteReverseWords_take, Ht. exact H.
Qed.

(** The last block, when the buffer holds the padded end [T] of the message. *)
Lemma Final_length_spec e hd T s n :
  hashed hd s -> sha_buffLen s = len T -> len T <= 56 -> bytes_ok T ->
  take (length T) (sha_buffer s) = T ->
  sha_hiLen s * 2 ^ 32 + sha_loLen s = n -> 0 <= sha_loLen s < 2 ^ 32 -> 0 <= n < 2 ^ 61 ->
  calc e 0 (Final_length s)
    (fun r => (r.1 = 0 /\ hashed (hd ++ T ++ zeros (56 - len T) ++ be_split 8 (8 * n)) r.2 /\
               sha_devId r.2 = sha_devId s) \/
              (r.1 = MEMORY_E /\ oom e)).
Proof.
  intros Hh Hbl HT HTok Htk Hn Hlo Hmax. unfold Final_length. pose proof (len_nonneg T).
  rewrite Hbl. change (WC_SHA256_PAD_SIZE - len T) with (56 - len T). pose proof (hs_buffer _ _ Hh) as Hb.
  assert (len (zeros (56 - len T)) = 56 - len T) as Hz by (apply len_zeros; lia).
  assert (len (sha_buffer s) = 64) as Hb' by (unfold len; by rewrite Hb).
  calc_step; [lia..|]. set (buf := splice _ _ _).
  apply (last_block e (T ++ zeros (56 - len T))).
  - unfold buf. by rewrite length_splice by lia.
  - apply bytes_ok_splice; [apply Hh|auto with wf].
  - rewrite length_app. unfold len in *. lia.
  - pose proof (take_splice (sha_buffer s) (len T) (zeros (56 - len T)) ltac:(lia) ltac:(lia)) as Ht.
    rewrite Hz in Ht. replace (Z.to_nat (len T + (56 - len T))) with 56%nat in Ht by lia.
    unfold buf. rewrite Ht. f_equal. rewrite <-Htk at 2. f_equal. unfold len. lia.
  - rewrite length_words with (n := n) by done.
    eapply calc_mono; [apply (Transform_hashed e hd (set_sha_len _ _ s))|].
    + destruct Hh. by split.
    + rewrite !length_app. unfold len in *. simpl. lia.
    + auto 6 with wf.
    + intros [ret s'] [(Hr & Hh' & _ & _ & _ & Hd)|?]; [left|by right]. cbn in *. split_and!; try done.
      by rewrite <-app_assoc in Hh'.
Qed.

Lemma take_splice_tail {A} (l T : list A) n src :
  take n l ++ src = T -> (n <= length l)%nat -> Z.of_nat n + len src <= len l ->
  take (length T) (splice l (Z.of_nat n) src) = T.
Proof.
  intros <- Hn Hl. pose proof (take_splice l (Z.of_nat n) src ltac:(lia) Hl) as E.
  rewrite Nat2Z.id in E. rewrite <-E at 2. f_equal. rewrite length_app, length_take. unfold len. lia.
Qed.

(** The padding, with the tail of the last block and its 0x80 as [T]. *)
Lemma pad_parts hd tail :
  (exists n, length hd = (64 * n)%nat) ->
  Fips180.pad (hd ++ tail) =
  hd ++ (tail ++ [128]) ++ zeros ((55 - len tail) mod 64) ++ be_split 8 (8 * len (hd ++ tail)).
Proof.
  intros (n & Hn). unfold Fips180.pad. rewrite <-!app_assoc. do 4 f_equal.
  replace (55 - len (hd ++ tail)) with (55 - len tail + - Z.of_nat n * 64)
    by (rewrite len_app; unfold len; lia).
  by rewrite Z.mod_add by lia.
Qed.

(** The extra block, when the padded end [T] leaves no room for the length. *)
Lemma Final_spill_spec e hd T s :
  hashed hd s -> sha_buffLen s = len T -> len T <= 64 -> bytes_ok T ->
  take (length T) (sha_buffer s) = T ->
  calc e 0 (Final_spill s)
    (fun r => (r.1 = 0 /\ same_meta s r.2 /\
               ((len T <= 56 /\ r.2 = s) \/
                (56 < len T /\ sha_buffLen r.2 = 0 /\ hashed (hd ++ T ++ zeros (64 - len T)) r.2))) \/
              (r.1 = MEMORY_E /\ oom e)).
Proof.
  intros Hh Hbl HT HTok Htk. unfold Final_spill. rewrite Hbl.
  pose proof (hs_buffer _ _ Hh) as Hb. pose proof (len_nonneg T).
  assert (len (sha_buffer s) = 64) as Hb' by (unfold len; by rewrite Hb).
  destruct (Z.ltb_spec 56 (len T)) as [Hgt|Hle]; [|calc_step; left; by split_and!; auto].
  assert (len (zeros (64 - len T)) = 64 - len T) as Hz by (apply len_zeros; lia).
  apply calc_bind with (P := fun buf => buf = T ++ zeros (64 - len T)).
  - destruct (Z.ltb_spec (len T) 64); calc_step; try lia.
    + pose proof (take_splice (sha_buffer s) (len T) (zeros (64 - len T)) ltac:(lia) ltac:(lia)) as E.
      rewrite Hz, take_ge in E by (rewrite length_splice; lia). rewrite E. f_equal.
      unfold len. by rewrite Nat2Z.id.
    + assert (64 - len T = 0) as -> by lia. rewrite app_nil_r, <-Htk. symmetry. apply take_ge.
      unfold len in *. lia.
  - intros buf ->. eapply calc_bind; [apply (Transform_hashed e hd s); try done|].
    + rewrite length_app. unfold len in *. lia.
    + auto with wf.
    + intros [ret s1] [(Hr & Hh1 & Hm)|[Hr Ho]]; simpl in Hr; subst ret; eval_tests; calc_step; [left|by right].
      destruct Hm as (? & ? & ? & ?). split; [done|]. split; [done|]. right. split_and!; try done.
      by destruct Hh1; split.
Qed.

Lemma Sha256Final_spec e m s :
  absorbed m s -> len m < 2 ^ 61 ->
  calc e 0 (Sha256Final s)
    (fun r => (r.1 = 0 /\ hashed (Fips180.pad m) r.2 /\ sha_devId r.2 = INVALID_DEVID) \/
              (r.1 = MEMORY_E /\ oom e)).
Proof.
  intros [(hd & tail & -> & Hh & Hbl & Ht & Htk) Hlen Hlo Hdev] Hmax.
  pose proof (len_nonneg tail). pose proof (len_nonneg (hd ++ tail)). pose proof (hs_buffer _ _ Hh) as Hb.
  assert (len (sha_buffer s) = 64) as Hb' by (unfold len; by rewrite Hb).
  pose proof (hs_bytes _ _ Hh) as Hbo. assert (bytes_ok tail) as Htok by (rewrite <-Htk; auto with wf).
  unfold Sha256Final. rewrite Hbl. destruct (Z.ltb_spec (64 - 1) (len tail)); [lia|].
  assert (len [128] = 1) as E1 by done. set (T := tail ++ [128]).
  assert (len T = len tail + 1) as HT by (unfold T; by rewrite len_app).
  assert (bytes_ok T) as HTok by (apply bytes_ok_app; split; [done|solve_bytes]).
  rewrite pad_parts by (destruct (hs_blocks _ _ Hh) as (n & ? & _); eauto). fold T.
  calc_step; [lia..|]. rewrite <-HT. set (buf := splice _ _ _).
  assert (take (length T) buf = T) as HtT.
  { apply take_splice_tail; [by rewrite Htk|unfold len in *; lia|]. fold (len tail). lia. }
  set (s0 := set_sha_buffer buf (len T) s).
  assert (hashed hd s0) as Hh0.
  { destruct Hh. split; [done|..]; unfold s0, buf; cbn; [by rewrite length_splice by lia|].
    apply bytes_ok_splice; [done|solve_bytes]. }
  eapply calc_bind; [apply (Final_spill_spec e hd T s0); try done; lia|].
  intros [ret s1] [(Hr & (? & ? & ?) & Hcase)|[Hr Ho]]; simpl in *; subst ret; eval_tests; [|calc_step; by right].
  destruct Hcase as [(Hle & ->)|(Hgt & Hbl1 & Hh1)].
  - eapply calc_mono; [apply (Final_length_spec e hd T s0 (len (hd ++ tail)));
      [done|done|lia|done|done|exact Hlen|exact Hlo|lia]|].
    intros [ret s2] [(? & ? & Hd)|?]; [left|by right]. simpl in *. rewrite Hd, Hdev.
    replace ((55 - len tail) mod 64) with (56 - len T); [done|]. rewrite Z.mod_small; lia.
  - eapply calc_mono; [apply (Final_length_spec e (hd ++ T ++ zeros (64 - len T)) [] s1 (len (hd ++ tail)))|];
      [done|done|done|by constructor|done|congruence|congruence|lia|].
    intros [ret s2] [(? & Hh2 & Hd)|?]; [left|by right]. simpl in *. split; [done|]. split; [|congruence].
    replace ((55 - len tail) mod 64) with ((64 - len T) + 56) by
      (replace (55 - len tail) with (120 - len T + -1 * 64) by lia; rewrite Z.mod_add, Z.mod_small; lia).
    rewrite <-zeros_app, <-!app_assoc in * by lia. exact Hh2.
Qed.

(** ** The public interface *)

Lemma digest_bytes d :
  ByteReverseWords (flat_map (le_split 4) d) (Z.of_nat (4 * length d)) = flat_map (be_split 4) d.
Proof.
  assert (Z.to_nat (Z.of_nat (4 * length d) / 4) = length d) as Hn.
  { replace (Z.of_nat (4 * length d)) with (Z.of_nat (length d) * 4) by lia. rewrite Z.div_mul; lia. }
  assert (forall x : Z, x ∈ d -> length (le_split 4 x) = 4%nat) as H4 by (intros; apply le_split_length).
  rewrite ByteReverseWords_rev, Hn, group_flat_map by
    (try done; rewrite ?Hn, ?(length_flat_map_const 4 (le_split 4) d) by done;
     first [lia|clear; induction d; cbn [flat_map]; [constructor|auto with wf]]).
  clear. induction d as [|x d IH]; [done|]. cbn [map flat_map]. by rewrite IH.
Qed.

Lemma length_flat_be (d : list Z) : length (flat_map (be_split 4) d) = (4 * length d)%nat.
Proof. apply length_flat_map_const. intros. done. Qed.

Lemma len_sha256 m : len (Fips180.sha256 m) = 32.
Proof.
  unfold Fips180.sha256, len. rewrite length_flat_be. by destruct (blocks_ok (length (Fips180.pad m) / 64) (Fips180.pad m)) as [-> _].
Qed.

Lemma sha256_bytes_ok m : bytes_ok (Fips180.sha256 m).
Proof.
  unfold Fips180.sha256. induction (Fips180.blocks _ _); cbn [flat_map]; [constructor|auto with wf].
Qed.

#[export] Hint Rewrite len_sha256 : lens.
#[export] Hint Resolve sha256_bytes_ok : wf.

Lemma init_absorbed s :
  sha_devId s = INVALID_DEVID -> absorbed [] (InitSha256 s).2.
Proof.
  intros Hd. split; cbn; try done. exists [], []. split_and!; try done.
  split; [by exists 0%nat|done|apply (bytes_ok_zeros 64)].
Qed.

Lemma InitSha256_absorbed s : absorbed [] (wc_InitSha256_ex s INVALID_DEVID).2.
Proof.
  by apply (init_absorbed {| sha_digest := []; sha_buffer := []; sha_buffLen := 0; sha_loLen := 0;
    sha_hiLen := 0; sha_devId := INVALID_DEVID; sha_devCtx := 0; sha_flags := 0 |}).
Qed.

Section Interface.
  Context `{!Callbacks}.

Lemma wc_Sha256Update_spec e m s data :
  absorbed m s -> bytes_ok data -> len data < 2 ^ 32 -> len m + len data < 2 ^ 61 ->
  calc e 0 (wc_Sha256Update s (Some data) (len data))
    (fun r => (r.1 = 0 /\ absorbed (m ++ data) r.2) \/ (r.1 = MEMORY_E /\ oom e)).
Proof.
  intros Hab Hok Hl Hm. unfold wc_Sha256Update. destruct (Z.eqb_spec (len data) 0) as [Hz|].
  - calc_step. left. assert (data = []) as -> by (destruct data; [done|unfold len in *; simpl in *; lia]).
    by rewrite app_nil_r.
  - rewrite (ab_dev _ _ Hab). eval_tests. by apply Sha256Update_spec.
Qed.

Lemma wc_Sha256Final_spec e m s hash :
  absorbed m s -> len m < 2 ^ 61 -> 32 <= len hash ->
  calc e 0 (wc_Sha256Final s hash)
    (fun '(ret, s', h) =>
      (ret = 0 /\ h = splice hash 0 (Fips180.sha256 m) /\ absorbed [] s') \/
      (ret = MEMORY_E /\ h = hash /\ oom e)).
Proof.
  intros Hab Hm Hh. unfold wc_Sha256Final. rewrite (ab_dev _ _ Hab). eval_tests.
  eapply calc_bind; [by apply (Sha256Final_spec e m)|].
  intros [ret s1] [(Hr & Hh1 & Hd)|[Hr Ho]]; cbn [fst snd] in *; subst ret; eval_tests; [|calc_step; by right].
  destruct Hh1 as [(n & HL & Hdig) _ _]. destruct (blocks_ok n (Fips180.pad m)) as [H8 _].
  rewrite Hdig.
  assert (ByteReverseWords (flat_map (le_split 4) (Fips180.blocks n (Fips180.pad m))) 32
    = Fips180.sha256 m) as ->.
  { pose proof (digest_bytes (Fips180.blocks n (Fips180.pad m))) as E. rewrite H8 in E. change (Z.of_nat (4 * 8)) with 32 in E. rewrite E.
    unfold Fips180.sha256. rewrite HL. rewrite Nat.mul_comm, Nat.div_mul by lia. done. }
  pose proof (len_sha256 m). calc_step; [lia..|]. cbn. calc_step. left. split_and!; try done.
  by apply (init_absorbed s1).
Qed.

(** A message in pieces, the way a caller hashes it. *)
Fixpoint sha_updates (s : wc_Sha256) (segs : list bytes) : M (Z * wc_Sha256) :=
  match segs with
  | [] => mret (0, s)
  | d :: segs =>
      '(ret, s) ← wc_Sha256Update s (Some d) (len d);
      if negb (ret =? 0) then mret (ret, s) else sha_updates s segs
  end.

Definition sha_session (s : wc_Sha256) (segs : list bytes) (hash : bytes) : M (Z * bytes) :=
  let '(ret, s) := wc_InitSha256 s in
  '(ret, s) ← sha_updates s segs;
  if negb (ret =? 0) then mret (ret, hash)
  else '(ret, _, hash) ← wc_Sha256Final s hash; mret (ret, hash).

Lemma sha_updates_spec e m s segs :
  absorbed m s -> Forall bytes_ok segs -> Forall (fun d => len d < 2 ^ 32) segs ->
  len m + len (concat segs) < 2 ^ 61 ->
  calc e 0 (sha_updates s segs)
    (fun r => (r.1 = 0 /\ absorbed (m ++ concat segs) r.2) \/ (r.1 = MEMORY_E /\ oom e)).
Proof.
  intros Hab Hok Hl. revert m s Hab Hl; induction Hok as [|d segs Hd _ IH]; intros m s Hab Hl Hm.
  - cbn [sha_updates concat]. calc_step. left. by rewrite app_nil_r.
  - cbn [concat sha_updates] in *. rewrite len_app in Hm. pose proof (len_nonneg (concat segs)).
    apply Forall_cons_1 in Hl as [Hd' Hl].
    eapply calc_bind; [apply wc_Sha256Update_spec; try done; lia|].
    intros [ret s1] [(Hr & Hab1)|[Hr Ho]]; simpl in *; subst ret; eval_tests; [|calc_step; by right].
    rewrite app_assoc. apply IH; [done..|]. rewrite len_app. lia.
Qed.

(** C19. Hashing a message in any number of pieces gives the FIPS 180-4 digest of
    their concatenation; the only failure is a failed allocation, which leaves
    the output alone.  In both cases every block is given back. *)
Theorem sha256_streaming e s segs hash :
  Forall bytes_ok segs -> Forall (fun d => len d < 2 ^ 32) segs -> len (concat segs) < 2 ^ 61 ->
  32 <= len hash ->
  calc e 0 (sha_session s segs hash)
    (fun '(ret, h) => (ret = 0 /\ h = splice hash 0 (Fips180.sha256 (concat segs))) \/
                      (ret = MEMORY_E /\ h = hash /\ oom e)).
Proof.
  intros Hok Hl Hm Hh. unfold sha_session.
  pose proof (InitSha256_absorbed s) as Hab. change (wc_InitSha256 s) with (wc_InitSha256_ex s INVALID_DEVID).
  destruct (wc_InitSha256_ex s INVALID_DEVID) as [ret0 s0]. simpl in Hab.
  eapply calc_bind; [apply (sha_updates_spec e []); done|].
  intros [ret s1] [(Hr & Hab1)|[Hr Ho]]; simpl in *; subst ret; eval_tests; [|calc_step; by right].
  eapply calc_bind; [by apply (wc_Sha256Final_spec e (concat segs))|].
  intros [[ret s2] h] [(-> & -> & _)|(-> & -> & Ho)]; calc_step; [by left|by right].
Qed.
End Interface.

Lemma sha256_streaming_witness :
  Fips180.sha256 [0x61; 0x62; 0x63] =
    be_split 32 0xba7816bf8f01cfea414140de5dae2223b00361a396177a9cb410ff61f20015ad /\
  calc env_plenty 0 (@sha_session no_callbacks sha_zero [[0x61]; [0x62; 0x63]] (zeros 32))
    (fun '(ret, h) => ret = 0 /\ h = splice (zeros 32) 0 (Fips180.sha256 [0x61; 0x62; 0x63])).
Proof.
  split; [vm_compute; reflexivity|].
  eapply calc_mono; [apply (@sha256_streaming no_callbacks env_plenty sha_zero [[0x61]; [0x62; 0x63]] (zeros 32))|].
  - repeat apply Forall_cons_2; [solve_bytes..|apply Forall_nil_2].
  - repeat apply Forall_cons_2; [done..|apply Forall_nil_2].
  - done.
  - done.
  - intros [ret h] [H|(_ & _ & n & Ho)]; [exact H|discriminate Ho].
Defined.
