(* ===== verification/Hmac.v ===== *)
(** * Hmac: HMAC and HKDF of hmac.c

    The code of hmac.c for SHA-256, the only hash this configuration compiles,
    then RFC 2104 and RFC 5869 as references, then the equivalences. *)

From S2P Require Import Prelude Platform Types Misc CryptoCb Sha256.

(** ** The code *)

(** types.h:1618, [WC_HASH_TYPE_NONE] *)
Notation WC_HASH_TYPE_NONE := (0)%Z (only parsing).
(** types.h:1624, [WC_HASH_TYPE_SHA256] *)
Notation WC_HASH_TYPE_SHA256 := (6)%Z (only parsing).
(** hmac.h:69, [HMAC_FIPS_MIN_KEY] *)
Notation HMAC_FIPS_MIN_KEY := (14)%Z (only parsing).
(** hmac.h:72, [IPAD] *)
Notation IPAD := (0x36)%Z (only parsing).
(** hmac.h:73, [OPAD] *)
Notation OPAD := (0x5C)%Z (only parsing).
(** error-crypt.h:185 *)
Notation HMAC_MIN_KEYLEN_E := (-200)%Z (only parsing).

(** hmac.c:87-100, the hash types HMAC knows of: MD5, SHA, SHA-512/224,
    SHA-512/256, SHA-224, SHA-256, SHA-384, SHA-512 and the four of SHA-3. *)
Definition known_type (type : Z) : bool :=
  bool_decide (type ∈ [3; 4; 16; 17; 5; 6; 7; 8; 10; 11; 12; 13]).

(** hmac.c:83-180, [wc_HmacSizeByType] *)
Definition wc_HmacSizeByType (type : Z) : Z :=
  if negb (known_type type) then BAD_FUNC_ARG
  else if type =? WC_HASH_TYPE_SHA256 then WC_SHA256_DIGEST_SIZE
  else BAD_FUNC_ARG.

Definition set_hm_hash (s : wc_Sha256) (keyed : Z) (h : Hmac) : Hmac :=
  {| hm_hash := s; hm_ipad := hm_ipad h; hm_opad := hm_opad h; hm_innerHash := hm_innerHash h;
     hm_macType := hm_macType h; hm_innerHashKeyed := keyed; hm_devId := hm_devId h;
     hm_devCtx := hm_devCtx h; hm_keyRaw := hm_keyRaw h; hm_keyLen := hm_keyLen h |}.

Definition set_hm_pads (ip op : bytes) (h : Hmac) : Hmac :=
  {| hm_hash := hm_hash h; hm_ipad := ip; hm_opad := op; hm_innerHash := hm_innerHash h;
     hm_macType := hm_macType h; hm_innerHashKeyed := hm_innerHashKeyed h; hm_devId := hm_devId h;
     hm_devCtx := hm_devCtx h; hm_keyRaw := hm_keyRaw h; hm_keyLen := hm_keyLen h |}.

Definition set_hm_inner (b : bytes) (h : Hmac) : Hmac :=
  {| hm_hash := hm_hash h; hm_ipad := hm_ipad h; hm_opad := hm_opad h; hm_innerHash := b;
     hm_macType := hm_macType h; hm_innerHashKeyed := hm_innerHashKeyed h; hm_devId := hm_devId h;
     hm_devCtx := hm_devCtx h; hm_keyRaw := hm_keyRaw h; hm_keyLen := hm_keyLen h |}.

Definition set_hm_type (type keyed devId : Z) (h : Hmac) : Hmac :=
  {| hm_hash := hm_hash h; hm_ipad := hm_ipad h; hm_opad := hm_opad h; hm_innerHash := hm_innerHash h;
     hm_macType := type; hm_innerHashKeyed := keyed; hm_devId := devId;
     hm_devCtx := hm_devCtx h; hm_keyRaw := hm_keyRaw h; hm_keyLen := hm_keyLen h |}.

Definition set_hm_key (key : option bytes) (n : Z) (h : Hmac) : Hmac :=
  {| hm_hash := hm_hash h; hm_ipad := hm_ipad h; hm_opad := hm_opad h; hm_innerHash := hm_innerHash h;
     hm_macType := hm_macType h; hm_innerHashKeyed := hm_innerHashKeyed h; hm_devId := hm_devId h;
     hm_devCtx := hm_devCtx h; hm_keyRaw := key; hm_keyLen := n |}.

(** The object after [memset(hmac, 0, sizeof)] or [ForceZero]. *)
Definition hmac_zero : Hmac :=
  {| hm_hash := sha_zero; hm_ipad := zeros 64; hm_opad := zeros 64; hm_innerHash := zeros 32;
     hm_macType := 0; hm_innerHashKeyed := 0; hm_devId := 0; hm_devCtx := 0;
     hm_keyRaw := None; hm_keyLen := 0 |}.

(** hmac.c:182-267, [HmacKeyInitHash] *)
Definition HmacKeyInitHash (s : wc_Sha256) (type devId : Z) : Z * wc_Sha256 :=
  if type =? WC_HASH_TYPE_SHA256 then wc_InitSha256_ex s devId else (BAD_FUNC_ARG, s).

(** hmac.c:269-290, [_InitHmac] *)
Definition _InitHmac (h : Hmac) (type : Z) : Z * Hmac :=
  let '(ret, s) := HmacKeyInitHash (hm_hash h) type (hm_devId h) in
  (ret, set_hm_hash s (hm_innerHashKeyed h) h).

(** hmac.c:292-376, [HmacKeyCopyHash]: the new destination. *)
Definition HmacKeyCopyHash (macType : Z) (src dst : wc_Sha256) : Z * wc_Sha256 :=
  if macType =? WC_HASH_TYPE_SHA256 then wc_Sha256Copy src else (BAD_FUNC_ARG, dst).

(** hmac.c:382-461, [HmacKeyFreeHash] *)
Definition HmacKeyFreeHash (macType : Z) (s : wc_Sha256) : wc_Sha256 :=
  if macType =? WC_HASH_TYPE_SHA256 then wc_Sha256Free s else s.

(** hmac.c:463-534, [wc_HmacCopy]: the new [dst]. *)
Definition wc_HmacCopy (src : Hmac) : Z * Hmac :=
  let dst := set_hm_hash sha_zero (hm_innerHashKeyed src) src in
  let '(ret, s) := HmacKeyCopyHash (hm_macType src) (hm_hash src) (hm_hash dst) in
  if negb (ret =? 0) then (ret, hmac_zero) else (ret, set_hm_hash s (hm_innerHashKeyed dst) dst).

Section Code.
  Context `{!Callbacks}.

(** hmac.c:536-622, [HmacKeyHashUpdate] *)
Definition HmacKeyHashUpdate (macType : Z) (s : wc_Sha256) (pad : bytes) : M (Z * wc_Sha256) :=
  if macType =? WC_HASH_TYPE_SHA256 then wc_Sha256Update s (Some pad) WC_SHA256_BLOCK_SIZE
  else mret (BAD_FUNC_ARG, s).

(** hmac.c:1648-1675, [wc_HmacInit] *)
Definition wc_HmacInit (devId : Z) : Z * Hmac :=
  (0, set_hm_type WC_HASH_TYPE_NONE 0 devId hmac_zero).

(** hmac.c:1723-1765, [wc_HmacFree]: a device that holds state for the object is
    told to finish; the object ends up zero. *)
Definition wc_HmacFree (h : Hmac) : M Hmac :=
  _ ← (if negb (hm_devId h =? INVALID_DEVID) && negb (hm_devCtx h =? 0) then
        _ ← wc_CryptoCb_Hmac h (hm_macType h) None 0 (Some (zeros 64)); mret tt
      else mret tt);
  let _ := HmacKeyFreeHash (hm_macType h) (hm_hash h) in
  mret hmac_zero.

(** hmac.c:890-907, [wc_HmacSetKey_ex]: the key, or its hash when it is longer
    than a block, to the start of [ipad]. *)
Definition HmacKeyBlock (h : Hmac) (key : option bytes) (length : Z) : M (Z * Hmac * Z) :=
  if length <=? WC_SHA256_BLOCK_SIZE then
    match key with
    | Some key =>
        key ← rd key 0 length;
        ip ← wr (hm_ipad h) 0 key;
        mret (0, set_hm_pads ip (hm_opad h) h, length)
    | None => mret (0, h, length)
    end
  else
    '(ret, s) ← wc_Sha256Update (hm_hash h) key length;
    let h := set_hm_hash s (hm_innerHashKeyed h) h in
    if negb (ret =? 0) then mret (ret, h, length)
    else
      '(ret, s, ip) ← wc_Sha256Final (hm_hash h) (hm_ipad h);
      let h := set_hm_pads ip (hm_opad h) (set_hm_hash s (hm_innerHashKeyed h) h) in
      if negb (ret =? 0) then mret (ret, h, length)
      else mret (ret, h, WC_SHA256_DIGEST_SIZE).

(** hmac.c:651-1138, [wc_HmacSetKey_ex] *)
Definition wc_HmacSetKey_ex (h : Hmac) (type : Z) (key : option bytes) (length : Z)
    (allowFlag : bool) : M (Z * Hmac) :=
  if (bool_decide (key = None) && negb (length =? 0)) || negb (known_type type)
  then mret (BAD_FUNC_ARG, h)
  else
    h ← (if negb (hm_macType h =? WC_HASH_TYPE_NONE) then
           let devId := hm_devId h in
           h ← wc_HmacFree h;
           mret (set_hm_type (hm_macType h) (hm_innerHashKeyed h) devId h)
         else mret h);
    let h := set_hm_type (w8 type) 0 (hm_devId h) h in
    let '(ret, h) := _InitHmac h type in
    if negb (ret =? 0) then mret (ret, h)
    else if negb allowFlag && (length <? HMAC_FIPS_MIN_KEY) then mret (HMAC_MIN_KEYLEN_E, h)
    else
      let h := set_hm_key key (w16 length) h in
      if negb (hm_macType h =? WC_HASH_TYPE_SHA256) then mret (BAD_FUNC_ARG, h)
      else
        '(ret, h, length) ← HmacKeyBlock h key length;
        if ret =? 0 then
          ip ← (if length <? WC_SHA256_BLOCK_SIZE
                then wr (hm_ipad h) length (zeros (WC_SHA256_BLOCK_SIZE - length))
                else mret (hm_ipad h));
          mret (ret, set_hm_pads (map (fun b => b ⊕ IPAD) ip) (map (fun b => w8 (b ⊕ OPAD)) ip) h)
        else mret (ret, h).

(** hmac.c:1140-1149, [wc_HmacSetKey] *)
Definition wc_HmacSetKey (h : Hmac) (type : Z) (key : option bytes) (length : Z) : M (Z * Hmac) :=
  wc_HmacSetKey_ex h type key length true.

(** hmac.c:1195-1204, [wc_HmacUpdate], and hmac.c:1342-1351, [wc_HmacFinal]: feed
    the inner pad once. *)
Definition HmacKeyInner (h : Hmac) : M (Z * Hmac) :=
  if hm_innerHashKeyed h =? 0 then
    '(ret, s) ← HmacKeyHashUpdate (hm_macType h) (hm_hash h) (hm_ipad h);
    if negb (ret =? 0) then mret (ret, set_hm_hash s (hm_innerHashKeyed h) h)
    else mret (ret, set_hm_hash s 1 h)
  else mret (0, h).

(** hmac.c:1158-1286, [wc_HmacUpdate] after the device declined or was not asked. *)
Definition HmacUpdate_soft (h : Hmac) (msg : option bytes) (length : Z) : M (Z * Hmac) :=
  '(ret, h) ← HmacKeyInner h;
  if negb (ret =? 0) then mret (ret, h)
  else if hm_macType h =? WC_HASH_TYPE_SHA256 then
    '(ret, s) ← wc_Sha256Update (hm_hash h) msg length;
    mret (ret, set_hm_hash s (hm_innerHashKeyed h) h)
  else mret (BAD_FUNC_ARG, h).

(** hmac.c:1151-1287, [wc_HmacUpdate] *)
Definition wc_HmacUpdate (h : Hmac) (msg : option bytes) (length : Z) : M (Z * Hmac) :=
  if bool_decide (msg = None) && (0 <? length) then mret (BAD_FUNC_ARG, h)
  else if length =? 0 then mret (0, h)
  else if negb (hm_devId h =? INVALID_DEVID) then
    '(ret, (h, _)) ← wc_CryptoCb_Hmac h (hm_macType h) msg length None;
    if negb (ret =? CRYPTOCB_UNAVAILABLE) then mret (ret, h) else HmacUpdate_soft h msg length
  else HmacUpdate_soft h msg length.

(** hmac.c:1420-1436, [wc_HmacFinal]: inner digest, outer pad, outer digest. *)
Definition HmacOuter (h : Hmac) (hash : bytes) : M (Z * Hmac * bytes) :=
  '(ret, s, inner) ← wc_Sha256Final (hm_hash h) (hm_innerHash h);
  let h := set_hm_inner inner (set_hm_hash s (hm_innerHashKeyed h) h) in
  if negb (ret =? 0) then mret (ret, h, hash)
  else
    '(ret, s) ← wc_Sha256Update (hm_hash h) (Some (hm_opad h)) WC_SHA256_BLOCK_SIZE;
    let h := set_hm_hash s (hm_innerHashKeyed h) h in
    if negb (ret =? 0) then mret (ret, h, hash)
    else
      '(ret, s) ← wc_Sha256Update (hm_hash h) (Some (hm_innerHash h)) WC_SHA256_DIGEST_SIZE;
      let h := set_hm_hash s (hm_innerHashKeyed h) h in
      if negb (ret =? 0) then mret (ret, h, hash)
      else
        '(ret, s, hash) ← wc_Sha256Final (hm_hash h) hash;
        mret (ret, set_hm_hash s (hm_innerHashKeyed h) h, hash).

(** hmac.c:1342-1635, [wc_HmacFinal] after the device declined or was not asked. *)
Definition HmacFinal_soft (h : Hmac) (hash : bytes) : M (Z * Hmac * bytes) :=
  '(ret, h) ← HmacKeyInner h;
  if negb (ret =? 0) then mret (ret, h, hash)
  else
    '(ret, h, hash) ←
      (if hm_macType h =? WC_HASH_TYPE_SHA256 then HmacOuter h hash else mret (BAD_FUNC_ARG, h, hash));
    if ret =? 0 then mret (ret, set_hm_hash (hm_hash h) 0 h, hash) else mret (ret, h, hash).

(** hmac.c:1290-1636, [wc_HmacFinal] *)
Definition wc_HmacFinal (h : Hmac) (hash : bytes) : M (Z * Hmac * bytes) :=
  if negb (hm_devId h =? INVALID_DEVID) then
    '(ret, (h, out)) ← wc_CryptoCb_Hmac h (hm_macType h) None 0 (Some hash);
    let hash := default hash out in
    if negb (ret =? CRYPTOCB_UNAVAILABLE) then mret (ret, h, hash) else HmacFinal_soft h hash
  else HmacFinal_soft h hash.

(** hmac.c:1805-1867, [wc_HKDF_Extract_ex] *)
Definition wc_HKDF_Extract_ex (type : Z) (salt : option bytes) (saltSz : Z) (inKey : option bytes)
    (inKeySz : Z) (out : bytes) (devId : Z) : M (Z * bytes) :=
  let soft out :=
    let ret := wc_HmacSizeByType type in
    if ret <? 0 then mret (ret, out)
    else
      let hashSz := ret in
      myHmac ← wolfSSL_Malloc;
      if negb myHmac then mret (MEMORY_E, out)
      else
        let '(localSalt, saltSz) :=
          match salt with None => (Some (zeros hashSz), hashSz) | Some _ => (salt, saltSz) end in
        let '(ret, h) := wc_HmacInit devId in
        '(ret, out) ←
          (if ret =? 0 then
            '(ret, h) ← wc_HmacSetKey h type localSalt saltSz;
            '(ret, h) ← (if ret =? 0 then wc_HmacUpdate h inKey inKeySz else mret (ret, h));
            '(ret, h, out) ← (if ret =? 0 then wc_HmacFinal h out else mret (ret, h, out));
            _ ← wc_HmacFree h;
            mret (ret, out)
          else mret (ret, out));
        _ ← wolfSSL_Free;
        mret (ret, out) in
  if bool_decide (inKey = None) && (0 <? inKeySz) then mret (BAD_FUNC_ARG, out)
  else if negb (devId =? INVALID_DEVID) then
    '(ret, out) ← wc_CryptoCb_Hkdf_Extract type salt (default [] inKey) out devId;
    if negb (ret =? CRYPTOCB_UNAVAILABLE) then mret (ret, out) else soft out
  else soft out.

(** hmac.c:1869-1874, [wc_HKDF_Extract] *)
Definition wc_HKDF_Extract type salt saltSz inKey inKeySz out : M (Z * bytes) :=
  wc_HKDF_Extract_ex type salt saltSz inKey inKeySz out INVALID_DEVID.

(** hmac.c:1949-1968, [wc_HKDF_Expand_ex]: one block of output into [tmp]. *)
Definition HKDF_block (h : Hmac) (type : Z) (inKey : option bytes) (inKeySz : Z)
    (info : option bytes) (infoSz : Z) (tmp : bytes) (tmpSz n : Z) : M (Z * Hmac * bytes) :=
  '(ret, h) ← wc_HmacSetKey h type inKey inKeySz;
  if negb (ret =? 0) then mret (ret, h, tmp)
  else
    '(ret, h) ← wc_HmacUpdate h (Some (take (Z.to_nat tmpSz) tmp)) tmpSz;
    if negb (ret =? 0) then mret (ret, h, tmp)
    else
      '(ret, h) ← wc_HmacUpdate h info infoSz;
      if negb (ret =? 0) then mret (ret, h, tmp)
      else
        '(ret, h) ← wc_HmacUpdate h (Some [n]) 1;
        if negb (ret =? 0) then mret (ret, h, tmp)
        else wc_HmacFinal h tmp.

(** hmac.c:1941-1975, [wc_HKDF_Expand_ex]: the loop.  At most 255 passes, by
    the test at line 1913. *)
Fixpoint HKDF_loop (fuel : nat) (h : Hmac) (type hashSz : Z) (inKey : option bytes) (inKeySz : Z)
    (info : option bytes) (infoSz : Z) (tmp out : bytes) (outIdx outSz n : Z)
    : M (Z * Hmac * bytes * bytes) :=
  if negb (outIdx <? outSz) then mret (0, h, tmp, out)
  else match fuel with
  | O => fun _ => Fault
  | S fuel =>
    let tmpSz := if n =? 1 then 0 else hashSz in
    let left := outSz - outIdx in
    '(ret, h, tmp) ← HKDF_block h type inKey inKeySz info infoSz tmp tmpSz n;
    if negb (ret =? 0) then mret (ret, h, tmp, out)
    else
      let left := min_ct left hashSz in
      src ← rd tmp 0 left;
      out ← wr out outIdx src;
      HKDF_loop fuel h type hashSz inKey inKeySz info infoSz tmp out (outIdx + left) outSz (w8 (n + 1))
  end.

(** hmac.c:1887-1985, [wc_HKDF_Expand_ex] *)
Definition wc_HKDF_Expand_ex (type : Z) (inKey : option bytes) (inKeySz : Z) (info : option bytes)
    (infoSz : Z) (out : bytes) (outSz devId : Z) : M (Z * bytes) :=
  let soft out hashSz :=
    myHmac ← wolfSSL_Malloc;
    if negb myHmac then mret (MEMORY_E, out)
    else
      let '(ret, h) := wc_HmacInit devId in
      if negb (ret =? 0) then _ ← wolfSSL_Free; mret (ret, out)
      else
        '(ret, h, tmp, out) ←
          HKDF_loop 255 h type hashSz inKey inKeySz info infoSz (zeros 32) out 0 outSz 1;
        let _ := ForceZero tmp in
        _ ← wc_HmacFree h;
        _ ← wolfSSL_Free;
        mret (ret, out) in
  if bool_decide (inKey = None) && (0 <? inKeySz) then mret (BAD_FUNC_ARG, out)
  else
    let ret := wc_HmacSizeByType type in
    if ret <? 0 then mret (ret, out)
    else if ret =? 0 then mret (BAD_FUNC_ARG, out)
    else
      let hashSz := ret in
      if 255 <? outSz / hashSz + Z.b2z (negb (outSz mod hashSz =? 0)) then mret (BAD_FUNC_ARG, out)
      else if negb (devId =? INVALID_DEVID) then
        '(ret, out) ← wc_CryptoCb_Hkdf_Expand type (default [] inKey) info out devId;
        if negb (ret =? CRYPTOCB_UNAVAILABLE) then mret (ret, out) else soft out hashSz
      else soft out hashSz.

(** hmac.c:1987-1992, [wc_HKDF_Expand] *)
Definition wc_HKDF_Expand type inKey inKeySz info infoSz out outSz : M (Z * bytes) :=
  wc_HKDF_Expand_ex type inKey inKeySz info infoSz out outSz INVALID_DEVID.

(** hmac.c:2007-2051, [wc_HKDF_ex] *)
Definition wc_HKDF_ex (type : Z) (inKey : option bytes) (inKeySz : Z) (salt : option bytes)
    (saltSz : Z) (info : option bytes) (infoSz : Z) (out : bytes) (outSz devId : Z) : M (Z * bytes) :=
  let soft out :=
    let ret := wc_HmacSizeByType type in
    if ret <? 0 then mret (ret, out)
    else
      let hashSz := ret in
      '(ret, prk) ← wc_HKDF_Extract_ex type salt saltSz inKey inKeySz (zeros 32) devId;
      if ret =? 0 then
        '(ret, out) ← wc_HKDF_Expand_ex type (Some (take (Z.to_nat hashSz) prk)) hashSz info infoSz
                        out outSz devId;
        let _ := ForceZero prk in mret (ret, out)
      else let _ := ForceZero prk in mret (ret, out) in
  if negb (devId =? INVALID_DEVID) then
    '(ret, out) ← wc_CryptoCb_Hkdf type (default [] inKey) salt info out devId;
    if negb (ret =? CRYPTOCB_UNAVAILABLE) then mret (ret, out) else soft out
  else soft out.

(** hmac.c:2053-2059, [wc_HKDF] *)
Definition wc_HKDF type inKey inKeySz salt saltSz info infoSz out outSz : M (Z * bytes) :=
  wc_HKDF_ex type inKey inKeySz salt saltSz info infoSz out outSz INVALID_DEVID.

End Code.

(** ** RFC 2104 and RFC 5869, with SHA-256 *)

Module Rfc.

(** RFC 2104, section 2: the key made into a block. *)
Definition block_key (K : bytes) : bytes :=
  let K := if 64 <? len K then Fips180.sha256 K else K in
  K ++ zeros (64 - len K).

Definition xor_const (c : Z) (l : bytes) : bytes := map (fun b => b ⊕ c) l.

Definition HMAC (K text : bytes) : bytes :=
  Fips180.sha256 (xor_const 0x5c (block_key K) ++
                  Fips180.sha256 (xor_const 0x36 (block_key K) ++ text)).

(** RFC 5869, section 2.2: an absent salt is a string of zeros. *)
Definition HKDF_Extract (salt : option bytes) (IKM : bytes) : bytes :=
  HMAC (default (zeros 32) salt) IKM.

(** RFC 5869, section 2.3: T(i), and the concatenation of the first [n]. *)
Fixpoint T (PRK info : bytes) (i : nat) : bytes :=
  match i with
  | O => []
  | S j => HMAC PRK (T PRK info j ++ info ++ [Z.of_nat i])
  end.

Fixpoint Ts (PRK info : bytes) (n : nat) : bytes :=
  match n with
  | O => []
  | S m => Ts PRK info m ++ T PRK info n
  end.

Definition HKDF_Expand (PRK info : bytes) (L : Z) : bytes :=
  take (Z.to_nat L) (Ts PRK info (Z.to_nat ((L + 31) / 32))).

#[global] Arguments block_key : simpl never.
#[global] Arguments xor_const : simpl never.
#[global] Arguments HMAC : simpl never.
#[global] Arguments HKDF_Extract : simpl never.
#[global] Arguments HKDF_Expand : simpl never.

End Rfc.

Lemma len_HMAC K t : len (Rfc.HMAC K t) = 32.
Proof. apply len_sha256. Qed.

Lemma HMAC_bytes_ok K t : bytes_ok (Rfc.HMAC K t).
Proof. apply sha256_bytes_ok. Qed.

Lemma len_block_key K : len (Rfc.block_key K) = 64.
Proof.
  unfold Rfc.block_key. pose proof (len_nonneg K). destruct (Z.ltb_spec 64 (len K)).
  - rewrite len_app, len_sha256. done.
  - rewrite len_app, len_zeros by lia. lia.
Qed.

Lemma block_key_ok K : bytes_ok K -> bytes_ok (Rfc.block_key K).
Proof. intros. unfold Rfc.block_key. destruct (64 <? len K); auto with wf. Qed.

Lemma xor_const_ok c l : 0 <= c < 256 -> bytes_ok l -> bytes_ok (Rfc.xor_const c l).
Proof.
  intros Hc. induction 1; cbn [Rfc.xor_const map]; constructor; [by apply (lxor_bound 8)|done].
Qed.

Lemma len_xor_const c l : len (Rfc.xor_const c l) = len l.
Proof. unfold len, Rfc.xor_const. by rewrite length_map. Qed.

#[export] Hint Resolve HMAC_bytes_ok block_key_ok xor_const_ok : wf.
#[export] Hint Rewrite len_HMAC len_block_key len_xor_const : lens.

(** ** HMAC *)

(** The object holds the key [K]. *)
Record keyed (K : bytes) (h : Hmac) : Prop := {
  ky_type : hm_macType h = WC_HASH_TYPE_SHA256;
  ky_dev : hm_devId h = INVALID_DEVID;
  ky_ipad : hm_ipad h = Rfc.xor_const 0x36 (Rfc.block_key K);
  ky_opad : hm_opad h = Rfc.xor_const 0x5c (Rfc.block_key K);
  ky_inner : len (hm_innerHash h) = 32;
}.

(** The object holds the key [K] and has absorbed the text [t]. *)
Record macking (K t : bytes) (h : Hmac) : Prop := {
  mk_keyed : keyed K h;
  mk_state : (hm_innerHashKeyed h = 0 /\ t = [] /\ absorbed [] (hm_hash h)) \/
             (hm_innerHashKeyed h <> 0 /\ absorbed (hm_ipad h ++ t) (hm_hash h));
}.

(** An object that can be keyed. *)
Record fresh (h : Hmac) : Prop := {
  fr_dev : hm_devId h = INVALID_DEVID;
  fr_ipad : len (hm_ipad h) = 64;
  fr_inner : len (hm_innerHash h) = 32;
}.

Lemma macking_fresh K t h : macking K t h -> fresh h.
Proof.
  intros [[_ Hd Hi _ Hn] _]. split; [done| |done]. by rewrite Hi, len_xor_const, len_block_key.
Qed.

Lemma macking_devId K t h : macking K t h -> hm_devId h = INVALID_DEVID.
Proof. intros H. apply (macking_fresh _ _ _ H). Qed.

#[export] Hint Resolve macking_fresh macking_devId fr_dev : wf.

Section Proofs.
  Context `{!Callbacks}.

Lemma wc_HmacFree_calc {B} e d h (k : Hmac -> M B) Q :
  hm_devId h = INVALID_DEVID -> calc e d (k hmac_zero) Q -> calc e d (wc_HmacFree h ≫= k) Q.
Proof. intros Hd Hk. unfold wc_HmacFree. rewrite Hd. eval_tests. exact Hk. Qed.

Lemma opad_w8 l : bytes_ok l -> map (fun b => w8 (b ⊕ OPAD)) l = Rfc.xor_const 0x5c l.
Proof.
  induction 1 as [|b l Hb _ IH]; [done|]. unfold Rfc.xor_const in *. cbn [map]. rewrite IH.
  f_equal. apply w8_id. by apply (lxor_bound 8).
Qed.

Lemma HmacKeyBlock_spec e h K :
  hm_devId h = INVALID_DEVID -> len (hm_ipad h) = 64 -> absorbed [] (hm_hash h) ->
  bytes_ok K -> len K < 2 ^ 32 ->
  calc e 0 (HmacKeyBlock h (Some K) (len K))
    (fun '(ret, h', l) => hm_devId h' = INVALID_DEVID /\
      ((ret = 0 /\ 0 <= l <= 64 /\
        take (Z.to_nat l) (hm_ipad h') ++ zeros (64 - l) = Rfc.block_key K /\
        len (hm_ipad h') = 64 /\ hm_macType h' = hm_macType h /\
        hm_innerHashKeyed h' = hm_innerHashKeyed h /\
        hm_innerHash h' = hm_innerHash h /\ absorbed [] (hm_hash h')) \/
       (ret = MEMORY_E /\ oom e))).
Proof.
  intros Hd Hip Hab HK Hl. unfold HmacKeyBlock, Rfc.block_key. pose proof (len_nonneg K).
  destruct (Z.leb_spec (len K) WC_SHA256_BLOCK_SIZE) as [Hs|Hs].
  - rewrite (proj2 (Z.ltb_ge 64 (len K))) by lia.
    calc_step; [lia..|]. rewrite sub_all by done. calc_step; [lia..|]. calc_step.
    split; [done|left]. cbn. rewrite len_splice by lia. split_and!; try done.
    f_equal. pose proof (take_splice (hm_ipad h) 0 K ltac:(lia) ltac:(lia)) as E.
    rewrite Z.add_0_l in E. exact E.
  - rewrite (proj2 (Z.ltb_lt 64 (len K))) by lia.
    eapply calc_bind; [apply (wc_Sha256Update_spec e [] (hm_hash h) K); [done..|rewrite len_nil; lia]|].
    intros [ret s1] [(Hr & Ha)|[Hr Ho]]; cbn [fst snd] in *; subst ret; eval_tests; [|calc_step; by auto].
    eapply calc_bind; [apply (wc_Sha256Final_spec e K); [done|lia|cbn; lia]|].
    intros [[ret s2] ip] [(-> & -> & Ha2)|(-> & -> & Ho)]; eval_tests; calc_step; cbn; split; try done; [left|by right].
    pose proof (len_sha256 K). rewrite len_splice by lia. split_and!; try done; [lia..|].
    rewrite len_sha256. f_equal.
    pose proof (take_splice (hm_ipad h) 0 (Fips180.sha256 K) ltac:(lia) ltac:(lia)) as E.
    rewrite Z.add_0_l, len_sha256 in E. exact E.
Qed.

Lemma wc_HmacSetKey_spec e h K :
  fresh h -> bytes_ok K -> len K < 2 ^ 32 ->
  calc e 0 (wc_HmacSetKey h WC_HASH_TYPE_SHA256 (Some K) (len K))
    (fun r => hm_devId r.2 = INVALID_DEVID /\
      ((r.1 = 0 /\ macking K [] r.2) \/ (r.1 = MEMORY_E /\ oom e))).
Proof.
  intros [Hd Hip Hin] HK Hl. unfold wc_HmacSetKey, wc_HmacSetKey_ex.
  rewrite (bool_decide_eq_false_2 (Some K = None)) by done. cbn [negb andb orb].
  change (known_type WC_HASH_TYPE_SHA256) with true. cbn [negb].
  apply calc_bind with (P := fresh).
  { destruct (negb _); [|by calc_step]. apply wc_HmacFree_calc; [done|]. by calc_step; cbn. }
  clear h Hd Hip Hin. intros h [Hd Hip Hin]. cbn -[HmacKeyBlock zeros].
  rewrite Hd. eapply calc_bind; [apply HmacKeyBlock_spec; try done; exact (InitSha256_absorbed sha_zero)|].
  intros [[ret h1] l] [Hd1 [(-> & Hl1 & Hblk & Hip1 & Ht & Hk & Hi & Ha)|(-> & Ho)]]; eval_tests;
    [|calc_step; by auto].
  assert (len (zeros (64 - l)) = 64 - l) as Hz by (apply len_zeros; lia).
  apply calc_bind with (P := fun ip => ip = Rfc.block_key K).
  - rewrite <-Hblk. destruct (Z.ltb_spec l 64); calc_step; try lia.
    + pose proof (take_splice (hm_ipad h1) l (zeros (64 - l)) ltac:(lia) ltac:(lia)) as E.
      rewrite <-E, Hz. symmetry. apply take_ge. rewrite length_splice by lia. unfold len in *. lia.
    + assert (l = 64) as -> by lia. rewrite app_nil_r, take_ge; [done|]. unfold len in *. lia.
  - intros ip ->. calc_step. cbn. split; [done|]. left. split; [done|]. split; [split|]; cbn.
    + done.
    + done.
    + done.
    + by apply opad_w8, block_key_ok.
    + by rewrite Hi.
    + left. by rewrite Hk.
Qed.

Lemma HmacKeyInner_spec e K t h :
  macking K t h -> bytes_ok K ->
  calc e 0 (HmacKeyInner h)
    (fun r => hm_devId r.2 = INVALID_DEVID /\
      ((r.1 = 0 /\ keyed K r.2 /\ hm_innerHashKeyed r.2 <> 0 /\
        absorbed (hm_ipad r.2 ++ t) (hm_hash r.2)) \/
       (r.1 = MEMORY_E /\ oom e))).
Proof.
  intros [Hk Hst] HK. unfold HmacKeyInner. pose proof Hk as [Ht Hd Hi Ho Hn].
  assert (len (hm_ipad h) = 64) as Hl by (rewrite Hi; by rewrite len_xor_const, len_block_key).
  destruct Hst as [(Hz & -> & Ha)|(Hnz & Ha)].
  - rewrite Hz. eval_tests. unfold HmacKeyHashUpdate. rewrite Ht. eval_tests.
    eapply calc_bind; [rewrite <-Hl;
      apply (wc_Sha256Update_spec e []); [done| |lia|rewrite len_nil; lia]|].
    { rewrite Hi. apply xor_const_ok; [lia|by apply block_key_ok]. }
    intros [ret s1] [(Hr & Ha1)|[Hr Hoom]]; cbn [fst snd] in *; subst ret; eval_tests; calc_step; cbn;
      (split; [done|]); [left|by right].
    split; [done|]. split; [by destruct Hk; split|]. split; [done|]. by rewrite app_nil_r.
  - rewrite (proj2 (Z.eqb_neq _ _) Hnz). calc_step. split; [done|]. left. by split_and!.
Qed.

Lemma wc_HmacUpdate_spec e K t h msg :
  macking K t h -> bytes_ok K -> bytes_ok (default [] msg) ->
  len (default [] msg) < 2 ^ 32 -> len t + len (default [] msg) < 2 ^ 60 ->
  calc e 0 (wc_HmacUpdate h msg (len (default [] msg)))
    (fun r => hm_devId r.2 = INVALID_DEVID /\
      ((r.1 = 0 /\ macking K (t ++ default [] msg) r.2) \/ (r.1 = MEMORY_E /\ oom e))).
Proof.
  intros Hm HK Hok Hl Hmax. pose proof (macking_devId _ _ _ Hm) as Hd. unfold wc_HmacUpdate.
  pose proof (len_nonneg (default [] msg)).
  destruct (Z.eqb_spec (len (default [] msg)) 0) as [Hz|Hnz].
  { rewrite Hz, andb_false_r. calc_step. split; [done|left; split; [done|]].
    assert (default [] msg = []) as -> by (destruct (default [] msg); [done|unfold len in *; simpl in *; lia]).
    by rewrite app_nil_r. }
  destruct msg as [msg|]; [|done]. cbn [from_option id] in *. cbn [andb].
  rewrite (bool_decide_eq_false_2 (Some msg = None)) by done. cbn [andb]. rewrite Hd. eval_tests.
  unfold HmacUpdate_soft. eapply calc_bind; [by apply (HmacKeyInner_spec e K t)|].
  intros [ret h1] [Hd1 [(Hr & Hk1 & Hnz1 & Ha1)|[Hr Hoom]]]; cbn [fst snd] in *; subst ret; eval_tests;
    [|calc_step; by auto].
  rewrite (ky_type _ _ Hk1). eval_tests.
  assert (len (hm_ipad h1) = 64) as Hl1.
  { rewrite (ky_ipad _ _ Hk1). by rewrite len_xor_const, len_block_key. }
  eapply calc_bind; [apply (wc_Sha256Update_spec e (hm_ipad h1 ++ t)); [done..|rewrite len_app; lia]|].
  intros [ret s1] [(Hr & Ha2)|[Hr Hoom]]; cbn [fst snd] in *; subst ret; calc_step; cbn;
    (split; [done|]); [left|by right].
  split; [done|]. split; [by destruct Hk1; split|]. right. cbn. by rewrite app_assoc.
Qed.

Lemma HmacOuter_spec e K t h hash :
  keyed K h -> absorbed (hm_ipad h ++ t) (hm_hash h) -> bytes_ok K -> len t < 2 ^ 60 -> 32 <= len hash ->
  calc e 0 (HmacOuter h hash)
    (fun '(ret, h', out) => hm_devId h' = INVALID_DEVID /\
      ((ret = 0 /\ out = splice hash 0 (Rfc.HMAC K t) /\ keyed K h' /\ absorbed [] (hm_hash h')) \/
       (ret = MEMORY_E /\ out = hash /\ oom e))).
Proof.
  intros Hk Ha HK Ht Hh. unfold HmacOuter. pose proof Hk as [Hty Hd Hi Ho Hn].
  assert (len (hm_ipad h) = 64) as Hil by (rewrite Hi; by rewrite len_xor_const, len_block_key).
  assert (len (hm_opad h) = 64) as Hol by (rewrite Ho; by rewrite len_xor_const, len_block_key).
  assert (bytes_ok (hm_opad h)) by (rewrite Ho; apply xor_const_ok; [lia|by apply block_key_ok]).
  eapply calc_bind; [apply (wc_Sha256Final_spec e (hm_ipad h ++ t)); [done|rewrite len_app; lia|lia]|].
  intros [[ret s1] inner] [(-> & -> & Ha1)|(-> & -> & Hoom)]; eval_tests; [|calc_step; cbn; by auto].
  cbn [set_hm_inner set_hm_hash hm_hash hm_opad hm_innerHash hm_innerHashKeyed].
  rewrite splice_full by (pose proof (len_sha256 (hm_ipad h ++ t)); unfold len in *; lia).
  set (ih := Fips180.sha256 (hm_ipad h ++ t)). assert (len ih = 32) as Hihl by apply len_sha256.
  eapply calc_bind; [rewrite <-Hol;
    apply (wc_Sha256Update_spec e []); [done..|lia|rewrite len_nil; lia]|].
  intros [ret s2] [(Hr & Ha2)|[Hr Hoom]]; cbn [fst snd] in *; subst ret; eval_tests; [|calc_step; cbn; by auto].
  eapply calc_bind; [rewrite <-Hihl;
    apply (wc_Sha256Update_spec e (hm_opad h)); [done|apply sha256_bytes_ok|lia..]|].
  intros [ret s3] [(Hr & Ha3)|[Hr Hoom]]; cbn [fst snd] in *; subst ret; eval_tests; [|calc_step; cbn; by auto].
  eapply calc_bind; [apply (wc_Sha256Final_spec e (hm_opad h ++ ih)); [done|rewrite len_app; lia|lia]|].
  intros [[ret s4] out] [(-> & -> & Ha4)|(-> & -> & Hoom)]; calc_step; cbn; (split; [done|]); [left|by right].
  split; [done|]. split; [|split; [by split; cbn|done]]. unfold Rfc.HMAC. by rewrite <-Hi, <-Ho.
Qed.

Lemma wc_HmacFinal_spec e K t h hash :
  macking K t h -> bytes_ok K -> len t < 2 ^ 60 -> 32 <= len hash ->
  calc e 0 (wc_HmacFinal h hash)
    (fun '(ret, h', out) => hm_devId h' = INVALID_DEVID /\
      ((ret = 0 /\ out = splice hash 0 (Rfc.HMAC K t) /\ macking K [] h') \/
       (ret = MEMORY_E /\ out = hash /\ oom e))).
Proof.
  intros Hm HK Ht Hh. unfold wc_HmacFinal. rewrite (macking_devId _ _ _ Hm). eval_tests.
  unfold HmacFinal_soft. eapply calc_bind; [by apply (HmacKeyInner_spec e K t)|].
  intros [ret h1] [Hd1 [(Hr & Hk1 & Hnz1 & Ha1)|[Hr Hoom]]]; cbn [fst snd] in *; subst ret; eval_tests;
    [|calc_step; by auto].
  rewrite (ky_type _ _ Hk1). eval_tests. eapply calc_bind; [by apply (HmacOuter_spec e K t)|].
  intros [[ret h2] out] [Hd2 [(-> & -> & Hk2 & Ha2)|(-> & -> & Hoom)]]; eval_tests; calc_step; cbn;
    (split; [done|]); [left|by right].
  split; [done|]. split; [done|]. split; [by destruct Hk2; split|]. by left.
Qed.

(** ** HKDF *)

Lemma HmacInit_fresh : fresh (wc_HmacInit INVALID_DEVID).2.
Proof. by split. Qed.

Lemma wc_HKDF_Extract_spec e salt inKey out :
  bytes_ok (default [] salt) -> len (default [] salt) < 2 ^ 32 ->
  bytes_ok (default [] inKey) -> len (default [] inKey) < 2 ^ 32 -> 32 <= len out ->
  calc e 0 (wc_HKDF_Extract WC_HASH_TYPE_SHA256 salt (len (default [] salt)) inKey
              (len (default [] inKey)) out)
    (fun r => (r.1 = 0 /\ r.2 = splice out 0 (Rfc.HKDF_Extract salt (default [] inKey))) \/
              (r.1 = MEMORY_E /\ r.2 = out /\ oom e)).
Proof.
  intros Hs Hsl Hk Hkl Hout. unfold wc_HKDF_Extract, wc_HKDF_Extract_ex, Rfc.HKDF_Extract.
  replace (bool_decide (inKey = None) && _) with false by (by destruct inKey).
  change (wc_HmacSizeByType WC_HASH_TYPE_SHA256) with 32. eval_tests.
  calc_step; cbn [negb]; [|calc_step; by right].
  set (K := default (zeros 32) salt).
  assert (match salt with None => (Some (zeros 32), 32) | Some _ => (salt, len (default [] salt)) end
    = (Some K, len K)) as -> by (by destruct salt).
  assert (bytes_ok K /\ len K < 2 ^ 32) as [HK HKl] by (unfold K; destruct salt; [done|split; [apply bytes_ok_zeros|done]]).
  pose proof HmacInit_fresh as Hf. destruct (wc_HmacInit INVALID_DEVID) as [ret0 h0] eqn:E0.
  injection E0 as <- _. cbn [snd] in Hf. eval_tests. apply calc_bind with (P := fun r =>
    (r.1 = 0 /\ r.2 = splice out 0 (Rfc.HMAC K (default [] inKey))) \/ (r.1 = MEMORY_E /\ r.2 = out /\ oom e)).
  2:{ intros [ret o] Hro. calc_step. by calc_step. }
  eapply calc_bind; [by apply wc_HmacSetKey_spec|].
  intros [ret h1] [Hd1 [(Hr & Hm1)|[Hr Ho]]]; cbn [fst snd] in *; subst ret; eval_tests.
  2:{ calc_step. cbn beta iota. eval_tests. calc_step. apply wc_HmacFree_calc; [done|]. calc_step. by right. }
  eapply calc_bind; [apply (wc_HmacUpdate_spec e K []); [done..|rewrite len_nil; lia]|].
  intros [ret h2] [Hd2 [(Hr & Hm2)|[Hr Ho]]]; cbn [fst snd] in *; subst ret; eval_tests.
  2:{ calc_step. apply wc_HmacFree_calc; [done|]. calc_step. by right. }
  eapply calc_bind; [apply (wc_HmacFinal_spec e K _ h2 out Hm2 HK); [cbn; lia|done]|].
  intros [[ret h3] o] [Hd3 [(-> & -> & _)|(-> & -> & Ho)]]; (apply wc_HmacFree_calc; [done|]); calc_step; auto.
Qed.

Lemma HKDF_block_spec e h K info tmp tmpSz n :
  fresh h -> bytes_ok K -> len K < 2 ^ 32 -> bytes_ok (default [] info) ->
  len (default [] info) < 2 ^ 32 -> len tmp = 32 -> bytes_ok tmp -> 0 <= tmpSz <= 32 -> 0 <= n < 256 ->
  calc e 0 (HKDF_block h WC_HASH_TYPE_SHA256 (Some K) (len K) info (len (default [] info)) tmp tmpSz n)
    (fun '(ret, h', tmp') => hm_devId h' = INVALID_DEVID /\
      ((ret = 0 /\ fresh h' /\
        tmp' = Rfc.HMAC K (take (Z.to_nat tmpSz) tmp ++ default [] info ++ [n])) \/
       (ret = MEMORY_E /\ oom e))).
Proof.
  intros Hf HK HKl Hi Hil Ht Htok Hsz Hn. unfold HKDF_block.
  assert (len (take (Z.to_nat tmpSz) tmp) = tmpSz) as Htl by (unfold len in *; rewrite length_take; lia).
  eapply calc_bind; [by apply wc_HmacSetKey_spec|].
  intros [ret h1] [Hd1 [(Hr & Hm1)|[Hr Ho]]]; cbn [fst snd] in *; subst ret; eval_tests; [|calc_step; by auto].
  eapply calc_bind.
  { rewrite <-Htl at 2. apply (wc_HmacUpdate_spec e K [] h1 (Some (take (Z.to_nat tmpSz) tmp)));
      cbn [from_option id]; auto with wf; rewrite ?len_nil; lia. }
  intros [ret h2] [Hd2 [(Hr & Hm2)|[Hr Ho]]]; cbn [fst snd] in *; subst ret; eval_tests; [|calc_step; by auto].
  cbn [from_option id app] in Hm2.
  eapply calc_bind; [apply (wc_HmacUpdate_spec e K _ h2 info Hm2); [done..|lia]|].
  intros [ret h3] [Hd3 [(Hr & Hm3)|[Hr Ho]]]; cbn [fst snd] in *; subst ret; eval_tests; [|calc_step; by auto].
  eapply calc_bind; [apply (wc_HmacUpdate_spec e K _ h3 (Some [n]) Hm3); cbn [from_option id];
    [done|solve_bytes|done|rewrite len_app; change (len [n]) with 1; lia]|].
  intros [ret h4] [Hd4 [(Hr & Hm4)|[Hr Ho]]]; cbn [fst snd] in *; subst ret; eval_tests; [|calc_step; by auto].
  eapply calc_mono; [apply (wc_HmacFinal_spec e K _ h4 tmp Hm4); [done| |lia]|].
  { rewrite !len_app. cbn [from_option id]. change (len [n]) with 1. lia. }
  intros [[ret h5] o] [Hd5 [(-> & -> & Hm5)|(-> & -> & Ho)]]; (split; [done|]); [left|by right].
  split; [done|]. split; [by eapply macking_fresh|]. cbn [from_option id]. rewrite <-app_assoc. apply splice_full.
  pose proof (len_HMAC K (take (Z.to_nat tmpSz) tmp ++ default [] info ++ [n])). unfold len in *. lia.
Qed.

Lemma len_T PRK info i : len (Rfc.T PRK info (S i)) = 32.
Proof. apply len_HMAC. Qed.

Lemma len_Ts PRK info n : len (Rfc.Ts PRK info n) = 32 * Z.of_nat n.
Proof.
  induction n as [|n IH]; [done|]. cbn [Rfc.Ts]. rewrite len_app, IH, len_T. lia.
Qed.

Lemma len_HKDF_Expand PRK info L : 0 <= L -> len (Rfc.HKDF_Expand PRK info L) = L.
Proof.
  intros HL. pose proof (len_Ts PRK info (Z.to_nat ((L + 31) / 32))) as HT. unfold Rfc.HKDF_Expand, len in *.
  rewrite length_take. Z.div_mod_to_equations. lia.
Qed.

Lemma take_Ts PRK info L c i :
  L <= 32 * Z.of_nat c -> (c <= i)%nat ->
  take (Z.to_nat L) (Rfc.Ts PRK info i) = take (Z.to_nat L) (Rfc.Ts PRK info c).
Proof.
  intros HL Hi. induction Hi as [|i Hi IH]; [done|]. rewrite <-IH. cbn [Rfc.Ts]. apply take_app_le.
  pose proof (len_Ts PRK info i). unfold len in *. lia.
Qed.

(** Writing behind what was written. *)
Lemma HKDF_loop_spec e PRK info out outSz fuel i h tmp n :
  bytes_ok PRK -> len PRK < 2 ^ 32 -> bytes_ok (default [] info) -> len (default [] info) < 2 ^ 32 ->
  0 <= outSz <= 255 * 32 -> outSz <= len out -> (i + fuel = 255)%nat -> fresh h ->
  len tmp = 32 -> bytes_ok tmp -> (i <> 0%nat -> tmp = Rfc.T PRK (default [] info) i) ->
  n = w8 (Z.of_nat i + 1) ->
  calc e 0 (HKDF_loop fuel h WC_HASH_TYPE_SHA256 32 (Some PRK) (len PRK) info (len (default [] info)) tmp
              (splice out 0 (take (Z.to_nat outSz) (Rfc.Ts PRK (default [] info) i)))
              (Z.min (32 * Z.of_nat i) outSz) outSz n)
    (fun '(ret, h', _, out') => hm_devId h' = INVALID_DEVID /\
      ((ret = 0 /\ out' = splice out 0 (Rfc.HKDF_Expand PRK (default [] info) outSz)) \/
       (ret = MEMORY_E /\ len out' = len out /\ oom e))).
Proof.
  intros HP HPl Hi Hil Hsz Hout. set (info' := default [] info) in *.
  assert (forall i, (i <= 255)%nat -> len (splice out 0 (take (Z.to_nat outSz) (Rfc.Ts PRK info' i))) = len out) as Hlen.
  { intros j _. apply len_splice; [lia|]. unfold len at 1. rewrite length_take. lia. }
  revert i h tmp n; induction fuel as [|fuel IH]; intros i h tmp n Hfu Hf Ht Htok HtT Hn; cbn [HKDF_loop].
  all: destruct (Z.ltb_spec (Z.min (32 * Z.of_nat i) outSz) outSz) as [Hlt|Hge]; cbn [negb];
    [|calc_step; split; [by apply Hf|left; split; [done|]]; f_equal; apply take_Ts;
      [rewrite Z2Nat.id by (apply Z.div_pos; lia); pose proof (Z.div_mod (outSz + 31) 32);
       pose proof (Z.mod_pos_bound (outSz + 31) 32); lia|
       apply Nat2Z.inj_le; rewrite Z2Nat.id by (apply Z.div_pos; lia);
       assert ((outSz + 31) / 32 < Z.of_nat i + 1) by (apply Z.div_lt_upper_bound; lia); lia]].
  { lia. }
  rewrite Z.min_l by lia. assert (n = Z.of_nat i + 1) as Hn' by (rewrite Hn; apply w8_id; lia).
  set (tmpSz := if n =? 1 then 0 else 32).
  assert (take (Z.to_nat tmpSz) tmp = Rfc.T PRK info' i) as Htake.
  { unfold tmpSz. destruct (Z.eqb_spec n 1).
    - assert (i = 0%nat) as -> by lia. apply take_0.
    - rewrite <-HtT by lia. apply take_ge. unfold len in *. lia. }
  eapply calc_bind.
  { apply (HKDF_block_spec e h PRK info tmp tmpSz n); auto; [unfold tmpSz; destruct (_ =? _); lia|lia]. }
  intros [[ret h1] tmp1] [Hd1 [(-> & Hf1 & ->)|(-> & Ho)]]; eval_tests;
    [|calc_step; split; [done|right]; rewrite Hlen by lia; done].
  fold info'. rewrite Htake. replace n with (Z.of_nat (S i)) by lia.
  change (Rfc.HMAC PRK (Rfc.T PRK info' i ++ info' ++ [Z.of_nat (S i)])) with (Rfc.T PRK info' (S i)).
  pose proof (len_T PRK info' i) as HTl. rewrite min_ct_spec by lia.
  set (left := Z.min (outSz - 32 * Z.of_nat i) 32).
  calc_step; [lia..|]. assert (len (sub (Rfc.T PRK info' (S i)) 0 left) = left) as Hsub by (apply len_sub; lia).
  calc_step; [lia|rewrite Hlen; lia|].
  pose proof (len_Ts PRK info' i) as HTs.
  assert (splice (splice out 0 (take (Z.to_nat outSz) (Rfc.Ts PRK info' i))) (32 * Z.of_nat i)
      (sub (Rfc.T PRK info' (S i)) 0 left) =
    splice out 0 (take (Z.to_nat outSz) (Rfc.Ts PRK info' (S i)))) as ->.
  { rewrite (take_ge (Rfc.Ts PRK info' i)) by (unfold len in *; lia).
    rewrite <-HTs, splice_splice_app by lia. f_equal. cbn [Rfc.Ts]. rewrite take_app_ge by (unfold len in *; lia).
    f_equal. unfold sub. rewrite drop_0. unfold left, len in *.
    destruct (decide (outSz - 32 * Z.of_nat i <= 32)); [f_equal; lia|].
    rewrite !take_ge by lia. done. }
  replace (32 * Z.of_nat i + left) with (Z.min (32 * Z.of_nat (S i)) outSz) by lia.
  apply IH; try done; [lia|apply HMAC_bytes_ok].
Qed.

Lemma wc_HKDF_Expand_spec e PRK info out outSz :
  bytes_ok PRK -> len PRK < 2 ^ 32 -> bytes_ok (default [] info) -> len (default [] info) < 2 ^ 32 ->
  0 <= outSz <= 255 * 32 -> outSz <= len out ->
  calc e 0 (wc_HKDF_Expand WC_HASH_TYPE_SHA256 (Some PRK) (len PRK) info (len (default [] info)) out outSz)
    (fun r => (r.1 = 0 /\ r.2 = splice out 0 (Rfc.HKDF_Expand PRK (default [] info) outSz)) \/
              (r.1 = MEMORY_E /\ len r.2 = len out /\ oom e)).
Proof.
  intros HP HPl Hi Hil Hsz Hout. unfold wc_HKDF_Expand, wc_HKDF_Expand_ex.
  rewrite (bool_decide_eq_false_2 (Some PRK = None)) by done. cbn [andb].
  change (wc_HmacSizeByType WC_HASH_TYPE_SHA256) with 32. eval_tests.
  assert ((255 <? outSz / 32 + Z.b2z (negb (outSz mod 32 =? 0))) = false) as ->.
  { apply Z.ltb_ge. pose proof (Z.div_mod outSz 32 ltac:(lia)). pose proof (Z.mod_pos_bound outSz 32 ltac:(lia)).
    destruct (Z.eqb_spec (outSz mod 32) 0); simpl; lia. }
  calc_step; cbn [negb]; [|calc_step; by right].
  pose proof HmacInit_fresh as Hf. destruct (wc_HmacInit INVALID_DEVID) as [ret0 h0] eqn:E0.
  injection E0 as <- _. cbn [snd] in Hf. eval_tests.
  eapply calc_bind.
  { pose proof (HKDF_loop_spec e PRK info out outSz 255 0 h0 (zeros 32) 1 HP HPl Hi Hil Hsz Hout eq_refl Hf
      eq_refl (bytes_ok_zeros 32) ltac:(done) eq_refl) as Hloop.
    cbn [Rfc.Ts] in Hloop. rewrite take_nil in Hloop.
    replace (Z.min (32 * Z.of_nat 0) outSz) with 0 in Hloop by lia. exact Hloop. }
  intros [[[ret h1] tmp] o] [Hd [(-> & ->)|(-> & Hl & Ho)]];
    (apply wc_HmacFree_calc; [done|]); calc_step; calc_step; [by left|by right].
Qed.

(** A MAC the way its users compute it: initialise, key, feed, finish, free. *)
Fixpoint hmac_updates (h : Hmac) (segs : list bytes) : M (Z * Hmac) :=
  match segs with
  | [] => mret (0, h)
  | d :: segs =>
      '(ret, h) ← wc_HmacUpdate h (Some d) (len d);
      if negb (ret =? 0) then mret (ret, h) else hmac_updates h segs
  end.

Definition hmac_session (key : bytes) (segs : list bytes) (hash : bytes) : M (Z * bytes) :=
  let '(_, h) := wc_HmacInit INVALID_DEVID in
  '(ret, h) ← wc_HmacSetKey h WC_HASH_TYPE_SHA256 (Some key) (len key);
  '(ret, h) ← (if ret =? 0 then hmac_updates h segs else mret (ret, h));
  '(ret, h, hash) ← (if ret =? 0 then wc_HmacFinal h hash else mret (ret, h, hash));
  _ ← wc_HmacFree h;
  mret (ret, hash).

Lemma hmac_updates_spec e K t h segs :
  macking K t h -> bytes_ok K -> Forall bytes_ok segs -> Forall (fun d => len d < 2 ^ 32) segs ->
  len t + len (concat segs) < 2 ^ 60 ->
  calc e 0 (hmac_updates h segs)
    (fun r => hm_devId r.2 = INVALID_DEVID /\
      ((r.1 = 0 /\ macking K (t ++ concat segs) r.2) \/ (r.1 = MEMORY_E /\ oom e))).
Proof.
  intros Hm HK Hok Hl. revert t h Hm Hl; induction Hok as [|d segs Hd _ IH]; intros t h Hm Hl Hmax.
  - cbn [hmac_updates concat]. calc_step. rewrite app_nil_r. eauto with wf.
  - cbn [concat hmac_updates] in *. rewrite len_app in Hmax. pose proof (len_nonneg (concat segs)).
    apply Forall_cons_1 in Hl as [Hd' Hl].
    eapply calc_bind; [apply (wc_HmacUpdate_spec e K t h (Some d)); cbn [from_option id]; try done; lia|].
    intros [ret h1] [Hd1 [(Hr & Hm1)|[Hr Ho]]]; cbn [fst snd] in *; subst ret; eval_tests; [|calc_step; by auto].
    rewrite app_assoc. apply IH; [done..|]. cbn [from_option id]. rewrite len_app. lia.
Qed.

(** C18. The MAC computed from a key and a text in pieces is HMAC-SHA-256 of
    RFC 2104, for keys of every length; the only failure is a failed
    allocation, and it leaves the output alone. *)
Theorem hmac_rfc2104 e key segs hash :
  bytes_ok key -> len key < 2 ^ 32 -> Forall bytes_ok segs -> Forall (fun d => len d < 2 ^ 32) segs ->
  len (concat segs) < 2 ^ 60 -> 32 <= len hash ->
  calc e 0 (hmac_session key segs hash)
    (fun '(ret, out) => (ret = 0 /\ out = splice hash 0 (Rfc.HMAC key (concat segs))) \/
                        (ret = MEMORY_E /\ out = hash /\ oom e)).
Proof.
  intros HK HKl Hok Hl Hmax Hh. unfold hmac_session.
  pose proof HmacInit_fresh as Hf. destruct (wc_HmacInit INVALID_DEVID) as [ret0 h0]. cbn [snd] in Hf.
  eapply calc_bind; [by apply wc_HmacSetKey_spec|].
  intros [ret h1] [Hd1 [(Hr & Hm1)|[Hr Ho]]]; cbn [fst snd] in *; subst ret; eval_tests.
  2:{ calc_step. cbn beta iota. eval_tests. calc_step. apply wc_HmacFree_calc; [done|]. calc_step. by right. }
  eapply calc_bind; [by apply (hmac_updates_spec e key [])|].
  intros [ret h2] [Hd2 [(Hr & Hm2)|[Hr Ho]]]; cbn [fst snd] in *; subst ret; eval_tests.
  2:{ calc_step. apply wc_HmacFree_calc; [done|]. calc_step. by right. }
  eapply calc_bind; [by apply (wc_HmacFinal_spec e key (concat segs))|].
  intros [[ret h3] o] [Hd3 [(-> & -> & _)|(-> & -> & Ho)]]; (apply wc_HmacFree_calc; [done|]); calc_step; auto.
Qed.

(** C17. HKDF is that of RFC 5869: extraction followed by expansion to any length up
    to 255 blocks gives the standard's key material. *)
Theorem hkdf_rfc5869 e salt ikm info out outSz :
  bytes_ok (default [] salt) -> len (default [] salt) < 2 ^ 32 ->
  bytes_ok ikm -> len ikm < 2 ^ 32 -> bytes_ok (default [] info) -> len (default [] info) < 2 ^ 32 ->
  0 <= outSz <= 255 * 32 -> outSz <= len out ->
  calc e 0 (wc_HKDF WC_HASH_TYPE_SHA256 (Some ikm) (len ikm) salt (len (default [] salt))
              info (len (default [] info)) out outSz)
    (fun r => (r.1 = 0 /\
               r.2 = splice out 0 (Rfc.HKDF_Expand (Rfc.HKDF_Extract salt ikm) (default [] info) outSz)) \/
              (r.1 = MEMORY_E /\ len r.2 = len out /\ oom e)).
Proof.
  intros Hs Hsl Hk Hkl Hi Hil Hsz Hout. unfold wc_HKDF, wc_HKDF_ex. eval_tests.
  change (wc_HmacSizeByType WC_HASH_TYPE_SHA256) with 32. eval_tests.
  eapply calc_bind; [by apply (wc_HKDF_Extract_spec e salt (Some ikm) (zeros 32))|].
  cbn [from_option id]. intros [ret prk] [(Hr & Hprk)|(Hr & Hprk & Ho)]; cbn [fst snd] in *; subst ret prk; eval_tests.
  2:{ calc_step. by right. }
  set (prk := Rfc.HKDF_Extract salt ikm). assert (len prk = 32) as Hpl by apply len_HMAC.
  rewrite splice_full by (unfold len in Hpl; change (length (zeros 32)) with 32%nat; lia).
  rewrite (take_ge prk) by (unfold len in *; lia). rewrite <-Hpl.
  eapply calc_bind; [apply (wc_HKDF_Expand_spec e prk info out outSz); try done; [apply HMAC_bytes_ok|lia]|].
  intros [ret o] Hro. calc_step. exact Hro.
Qed.

End Proofs.

(** RFC 4231, test case 2. *)
Lemma hmac_rfc2104_witness :
  Rfc.HMAC [0x4a; 0x65; 0x66; 0x65]
    [0x77; 0x68; 0x61; 0x74; 0x20; 0x64; 0x6f; 0x20; 0x79; 0x61; 0x20; 0x77; 0x61; 0x6e; 0x74; 0x20;
     0x66; 0x6f; 0x72; 0x20; 0x6e; 0x6f; 0x74; 0x68; 0x69; 0x6e; 0x67; 0x3f] =
    be_split 32 0x5bdcc146bf60754e6a042426089575c75a003f089d2739839dec58b964ec3843 /\
  calc env_plenty 0 (@hmac_session no_callbacks [0x4a; 0x65] [[0x77]; [0x78]] (zeros 32))
    (fun '(ret, h) => ret = 0 /\ h = splice (zeros 32) 0 (Rfc.HMAC [0x4a; 0x65] [0x77; 0x78])).
Proof.
  split; [vm_compute; reflexivity|].
  eapply calc_mono; [apply (@hmac_rfc2104 no_callbacks env_plenty [0x4a; 0x65] [[0x77]; [0x78]] (zeros 32))|].
  - solve_bytes.
  - done.
  - repeat apply Forall_cons_2; [solve_bytes..|apply Forall_nil_2].
  - repeat apply Forall_cons_2; [done..|apply Forall_nil_2].
  - done.
  - done.
  - intros [ret h] [H|(_ & _ & n & Ho)]; [exact H|discriminate Ho].
Defined.

(** RFC 5869, test case 1. *)
Lemma hkdf_rfc5869_witness :
  Rfc.HKDF_Expand (Rfc.HKDF_Extract (Some (be_split 13 0x000102030405060708090a0b0c)) (replicate 22 0x0b))
    (be_split 10 0xf0f1f2f3f4f5f6f7f8f9) 42 =
    be_split 42 0x3cb25f25faacd57a90434f64d0362f2a2d2d0a90cf1a5a4c5db02d56ecc4c5bf34007208d5b887185865 /\
  calc env_plenty 0 (@wc_HKDF no_callbacks WC_HASH_TYPE_SHA256 (Some [1; 2]) 2 None 0 None 0 (zeros 42) 42)
    (fun r => r.1 = 0).
Proof.
  split; [vm_compute; reflexivity|].
  eapply calc_mono; [apply (@hkdf_rfc5869 no_callbacks env_plenty None [1; 2] None (zeros 42) 42)|].
  - apply Forall_nil_2.
  - done.
  - solve_bytes.
  - done.
  - apply Forall_nil_2.
  - done.
  - done.
  - done.
  - intros r [[H _]|(_ & _ & n & Ho)]; [exact H|discriminate Ho].
Defined.
