(* ===== verification/Hash.v ===== *)
(** * Hash: the front end over the hashes (hash.c)

    An object of the front end is a hash of a type chosen at run time.  The
    configuration compiles SHA-256; the other types of the enumeration are answered
    HASH_TYPE_E, and numbers outside it BAD_FUNC_ARG. *)

From S2P Require Import Prelude Platform Types Misc CryptoCb Sha256 Hmac.

(** error-crypt.h:223 *)
Notation HASH_TYPE_E := (-232)%Z (only parsing).
(** types.h:1620, [WC_HASH_TYPE_MD4] *)
Notation WC_HASH_TYPE_MD4 := (2)%Z (only parsing).
(** types.h:1639, [WC_HASH_TYPE_MAX] *)
Notation WC_HASH_TYPE_MAX := (20)%Z (only parsing).

(** hash.h:113-119, [wc_HashAlg]; the only member of the union is the SHA-256 state. *)
Record wc_HashAlg := { ha_sha256 : wc_Sha256; ha_type : Z }.

(** The answer to a type without code: the labels of the switch statements. *)
Definition no_hash (type : Z) : Z := if (1 <=? type) && (type <=? WC_HASH_TYPE_MAX) then HASH_TYPE_E else BAD_FUNC_ARG.

(** hash.c:406-575, [wc_HashGetDigestSize]; MD4 has a size although it is not there. *)
Definition wc_HashGetDigestSize (hash_type : Z) : Z :=
  if hash_type =? WC_HASH_TYPE_SHA256 then WC_SHA256_DIGEST_SIZE
  else if hash_type =? WC_HASH_TYPE_MD4 then 16
  else no_hash hash_type.

Section Front.
Context `{!Callbacks}.

(** hash.c:1981-2017, [wc_Sha256Hash_ex] *)
Definition wc_Sha256Hash_ex (data : option bytes) (l : Z) (hash : bytes) (devId : Z) : M (Z * bytes) :=
  blk ← wolfSSL_Malloc;
  if negb blk then mret (MEMORY_E, hash)
  else
    let '(ret, s) := wc_InitSha256_ex sha_zero devId in
    '(ret, hash) ←
      (if negb (ret =? 0) then mret (ret, hash)
       else
         '(ret, s) ← wc_Sha256Update s data l;
         '(ret, s, hash) ← (if negb (ret =? 0) then mret (ret, s, hash) else wc_Sha256Final s hash);
         let _ := wc_Sha256Free s in
         mret (ret, hash));
    _ ← XFREE blk;
    mret (ret, hash).

(** hash.c:752-949, [wc_Hash_ex] *)
Definition wc_Hash_ex (hash_type : Z) (data : option bytes) (data_len : Z) (hash : bytes) (hash_len devId : Z) : M (Z * bytes) :=
  let dig_size := wc_HashGetDigestSize hash_type in
  if dig_size <? 0 then mret (dig_size, hash)
  else if hash_len <? dig_size then mret (BUFFER_E, hash)
  else if hash_type =? WC_HASH_TYPE_SHA256 then wc_Sha256Hash_ex data data_len hash devId
  else mret (no_hash hash_type, hash).

(** hash.c:997-1148, [wc_HashInit_ex] *)
Definition wc_HashInit_ex (hash : wc_HashAlg) (type devId : Z) : Z * wc_HashAlg :=
  if type =? WC_HASH_TYPE_SHA256 then
    let '(ret, s) := wc_InitSha256_ex (ha_sha256 hash) devId in (ret, {| ha_sha256 := s; ha_type := type |})
  else (no_hash type, {| ha_sha256 := ha_sha256 hash; ha_type := type |}).

(** hash.c:1155-1303, [wc_HashUpdate] *)
Definition wc_HashUpdate (hash : wc_HashAlg) (type : Z) (data : option bytes) (dataSz : Z) : M (Z * wc_HashAlg) :=
  if is_null data && (0 <? dataSz) then mret (BAD_FUNC_ARG, hash)
  else if type =? WC_HASH_TYPE_SHA256 then
    '(ret, s) ← wc_Sha256Update (ha_sha256 hash) data dataSz; mret (ret, {| ha_sha256 := s; ha_type := ha_type hash |})
  else mret (no_hash type, hash).

(** hash.c:1305-1454, [wc_HashFinal] *)
Definition wc_HashFinal (hash : wc_HashAlg) (type : Z) (out : option bytes) : M (Z * wc_HashAlg * option bytes) :=
  match out with
  | None => mret (BAD_FUNC_ARG, hash, out)
  | Some o =>
    if type =? WC_HASH_TYPE_SHA256 then
      '(ret, s, o) ← wc_Sha256Final (ha_sha256 hash) o; mret (ret, {| ha_sha256 := s; ha_type := ha_type hash |}, Some o)
    else mret (no_hash type, hash, out)
  end.

(** hash.c:1456-1618, [wc_HashFree] *)
Definition wc_HashFree (hash : wc_HashAlg) (type : Z) : Z * wc_HashAlg :=
  if type =? WC_HASH_TYPE_SHA256 then (0, {| ha_sha256 := wc_Sha256Free (ha_sha256 hash); ha_type := ha_type hash |})
  else (no_hash type, hash).

(** ** What it answers *)

(** A message in pieces through an object of type [type]; an error ends it. *)
Fixpoint hash_updates (hash : wc_HashAlg) (type : Z) (segs : list bytes) : M (Z * wc_HashAlg) :=
  match segs with
  | [] => mret (0, hash)
  | d :: segs =>
    '(ret, hash) ← wc_HashUpdate hash type (Some d) (len d);
    if negb (ret =? 0) then mret (ret, hash) else hash_updates hash type segs
  end.

Definition hash_session (hash : wc_HashAlg) (type : Z) (segs : list bytes) (out : bytes) : M (Z * option bytes) :=
  let '(ret, hash) := wc_HashInit_ex hash type INVALID_DEVID in
  if negb (ret =? 0) then mret (ret, Some out)
  else
    '(ret, hash) ← hash_updates hash type segs;
    '(ret, hash, out) ← (if negb (ret =? 0) then mret (ret, hash, Some out) else wc_HashFinal hash type (Some out));
    let _ := wc_HashFree hash type in
    mret (ret, out).

Lemma no_hash_neg type : (no_hash type =? 0) = false /\ no_hash type < 0.
Proof. unfold no_hash. by destruct (_ && _). Qed.

Lemma hash_updates_spec e m hash segs :
  absorbed m (ha_sha256 hash) -> Forall bytes_ok segs -> Forall (fun d => len d < 2 ^ 32) segs -> len m + len (concat segs) < 2 ^ 61 ->
  calc e 0 (hash_updates hash WC_HASH_TYPE_SHA256 segs)
    (fun r => (r.1 = 0 /\ absorbed (m ++ concat segs) (ha_sha256 r.2)) \/ (r.1 = MEMORY_E /\ oom e)).
Proof.
  intros Hab Hok Hl. revert m hash Hab Hl; induction Hok as [|d segs Hd _ IH]; intros m hash Hab Hl Hm; cbn [concat hash_updates] in *.
  - calc_step. left. by rewrite app_nil_r.
  - rewrite len_app in Hm. pose proof (len_nonneg (concat segs)). apply Forall_cons_1 in Hl as [Hd' Hl].
    unfold wc_HashUpdate at 1. cbn [is_null andb]. change (WC_HASH_TYPE_SHA256 =? WC_HASH_TYPE_SHA256) with true. cbv iota.
    calc_step. eapply calc_bind; [apply wc_Sha256Update_spec; try done; lia|].
    intros [ret s1] [(Hr & Hab1)|[Hr Ho]]; cbn [fst snd] in *; subst ret; calc_step.
    + change (negb (0 =? 0)) with false. cbv iota. rewrite app_assoc. apply IH; [done|done|]. rewrite len_app. lia.
    + change (negb (MEMORY_E =? 0)) with true. cbv iota. calc_step. by right.
Qed.

(** What a hash of a type is: the digest of FIPS 180-4, or the code of a type that is not
    there, with the output left alone. *)
Definition hash_answer (e : env) (type : Z) (m out : bytes) (ret : Z) (out' : bytes) : Prop :=
  if type =? WC_HASH_TYPE_SHA256
  then (ret = 0 /\ out' = splice out 0 (Fips180.sha256 m)) \/ (ret = MEMORY_E /\ out' = out /\ oom e)
  else ret = no_hash type /\ out' = out.

(** A session of the front end hashes as its type says, in whatever pieces. *)
Theorem hash_session_spec e hash type segs out :
  Forall bytes_ok segs -> Forall (fun d => len d < 2 ^ 32) segs -> len (concat segs) < 2 ^ 61 -> 32 <= len out ->
  calc e 0 (hash_session hash type segs out) (fun '(ret, o) => exists out', o = Some out' /\ hash_answer e type (concat segs) out ret out').
Proof.
  intros Hok Hl Hm Ho. unfold hash_session, hash_answer, wc_HashInit_ex. destruct (Z.eqb_spec type WC_HASH_TYPE_SHA256) as [->|Hne].
  - pose proof (InitSha256_absorbed (ha_sha256 hash)) as Hab. set (s0 := (wc_InitSha256_ex (ha_sha256 hash) INVALID_DEVID).2) in Hab.
    change (wc_InitSha256_ex (ha_sha256 hash) INVALID_DEVID) with (0, s0). clearbody s0. cbv beta iota. change (negb (0 =? 0)) with false. cbv iota.
    eapply calc_bind; [by apply (hash_updates_spec e [])|]. intros [ret h1] [(Hr & Hab1)|[Hr Hoom]]; cbn [fst snd] in *; subst ret.
    + change (negb (0 =? 0)) with false. cbv iota. unfold wc_HashFinal. change (WC_HASH_TYPE_SHA256 =? WC_HASH_TYPE_SHA256) with true. cbv iota.
      calc_step. eapply calc_bind; [by apply (wc_Sha256Final_spec e (concat segs))|].
      intros [[ret s2] h] [(-> & -> & _)|(-> & -> & Hoom)]; do 2 calc_step; (eexists; split; [done|]); [by left|by right].
    + change (negb (MEMORY_E =? 0)) with true. cbv iota. do 2 calc_step. eexists. split; [done|]. by right.
  - rewrite (proj1 (no_hash_neg type)). cbn [negb]. calc_step. by exists out.
Qed.

(** Hashing at one go, into a buffer that is large enough. *)
Theorem hash_ex_spec e type data out :
  bytes_ok data -> len data < 2 ^ 32 -> 32 <= len out ->
  calc e 0 (wc_Hash_ex type (Some data) (len data) out (len out) INVALID_DEVID) (fun '(ret, out') => hash_answer e type data out ret out').
Proof.
  intros Hok Hl Ho. unfold wc_Hash_ex, wc_HashGetDigestSize, hash_answer. destruct (Z.eqb_spec type WC_HASH_TYPE_SHA256) as [->|Hne].
  - change (WC_SHA256_DIGEST_SIZE <? 0) with false. cbv iota zeta. rewrite (proj2 (Z.ltb_ge (len out) WC_SHA256_DIGEST_SIZE)) by lia.
    unfold wc_Sha256Hash_ex. calc_step; cbn [negb]; [|calc_step; by right].
    pose proof (InitSha256_absorbed sha_zero) as Hab. set (s0 := (wc_InitSha256_ex sha_zero INVALID_DEVID).2) in Hab.
    change (wc_InitSha256_ex sha_zero INVALID_DEVID) with (0, s0). clearbody s0. cbv beta iota. change (negb (0 =? 0)) with false. cbv iota.
    calc_step. eapply calc_bind; [apply (wc_Sha256Update_spec e []); try done; change (len []) with 0; lia|].
    intros [ret s1] [(Hr & Hab1)|[Hr Hoom]]; cbn [fst snd app] in *; subst ret.
    + change (negb (0 =? 0)) with false. cbv iota. calc_step. eapply calc_bind; [apply (wc_Sha256Final_spec e data); [done|lia|lia]|].
      intros [[ret s2] h] [(-> & -> & _)|(-> & -> & Hoom)]; do 3 calc_step; [by left|by right].
    + change (negb (MEMORY_E =? 0)) with true. cbv iota. do 5 calc_step. by right.
  - destruct (Z.eqb_spec type WC_HASH_TYPE_MD4) as [->|Hn4].
    + change (16 <? 0) with false. cbv iota zeta. rewrite (proj2 (Z.ltb_ge (len out) 16)) by lia. by calc_step.
    + rewrite (proj2 (Z.ltb_lt (no_hash type) 0) (proj2 (no_hash_neg type))). by calc_step.
Qed.
End Front.
