(* ===== verification/Kdf.v ===== *)
(** * Kdf: the TLS key derivation functions of kdf.c

    The pseudo-random function of TLS 1.2 and the HKDF labels of TLS 1.3, for
    SHA-256, the only hash this configuration compiles.  The references are RFC
    5246 and RFC 8446. *)

From S2P Require Import Prelude Platform Types Misc CryptoCb Sha256 Hmac.

(** ** The code *)

(** error-crypt.h:223 *)
Notation HASH_TYPE_E := (-232)%Z (only parsing).
(** hash.h:72 *)
Notation md5_mac := 1%Z (only parsing).
(** hash.h:73 *)
Notation sha_mac := 2%Z (only parsing).
(** hash.h:75 *)
Notation sha256_mac := 4%Z (only parsing).
(** hash.h:79 *)
Notation blake2b_mac := 8%Z (only parsing).
(** kdf.h:57 *)
Notation MAX_PRF_HALF := 260%Z (only parsing).
(** kdf.h:59 *)
Notation MAX_PRF_LABSEED := 128%Z (only parsing).
(** kdf.h:60 *)
Notation MAX_PRF_DIG := 224%Z (only parsing).

(** kdf.h:85, [MAX_TLS13_HKDF_LABEL_SZ], with digests of 32 bytes at most *)
Notation MAX_TLS13_HKDF_LABEL_SZ := (47 + WC_SHA256_DIGEST_SIZE)%Z (only parsing).

Section Code.
Context `{!Callbacks}.

(** Update with a first and then a second string, stopping at an error. *)
Definition hmac_update2 (h : Hmac) (a : bytes) (n : Z) (b : option bytes) (m : Z) : M (Z * Hmac) :=
  '(ret, h) ← wc_HmacUpdate h (Some a) n;
  if negb (ret =? 0) then mret (ret, h) else wc_HmacUpdate h b m.

(** kdf.c:179-206, [wc_PRF]: the loop, [todo] passes left; [last] says whether the
    last pass gives less than a whole block.  Gives the code, the object, [current]
    and [result]. *)
Fixpoint prf_loop (todo : nat) (h : Hmac) (n : Z) (seed : option bytes) (seedLen idx lastLen : Z)
    (current result : bytes) : M (Z * Hmac * bytes * bytes) :=
  match todo with
  | O => mret (0, h, current, result)
  | S todo =>
    '(ret, h) ← hmac_update2 h current n seed seedLen;
    if negb (ret =? 0) then mret (ret, h, current, result)
    else if negb (Z.of_nat todo =? 0) || (lastLen =? 0) then
      seg ← rd result idx n;
      '(ret, h, seg) ← wc_HmacFinal h seg;
      result ← wr result idx seg;
      if negb (ret =? 0) then mret (ret, h, current, result)
      else
        '(ret, h) ← wc_HmacUpdate h (Some current) n;
        if negb (ret =? 0) then mret (ret, h, current, result)
        else
          '(ret, h, current) ← wc_HmacFinal h current;
          if negb (ret =? 0) then mret (ret, h, current, result)
          else prf_loop todo h n seed seedLen (idx + n) lastLen current result
    else
      '(ret, h, current) ← wc_HmacFinal h current;
      if negb (ret =? 0) then mret (ret, h, current, result)
      else
        src ← rd current 0 (Z.min lastLen 32);
        result ← wr result idx src;
        prf_loop todo h n seed seedLen idx lastLen current result
  end.

(** kdf.c:168-209, [wc_PRF]: with the two blocks. *)
Definition prf_body (hash_type n : Z) (secret : option bytes) (secLen : Z) (seed : option bytes) (seedLen : Z)
    (times lastLen devId : Z) (result : bytes) : M (Z * bytes) :=
  let '(ret, h) := wc_HmacInit devId in
  if ret =? 0 then
    '(ret, h) ← wc_HmacSetKey h hash_type secret secLen;
    '(ret, h) ← (if ret =? 0 then wc_HmacUpdate h seed seedLen else mret (ret, h));
    '(ret, h, current) ← (if ret =? 0 then wc_HmacFinal h (zeros 32) else mret (ret, h, zeros 32));
    '(ret, h, _, result) ←
      (if ret =? 0 then prf_loop (Z.to_nat times) h n seed seedLen 0 lastLen current result
       else mret (ret, h, current, result));
    _ ← wc_HmacFree h;
    mret (ret, result)
  else mret (ret, result).

(** kdf.c:73-223, [wc_PRF] *)
Definition wc_PRF (result : option bytes) (resLen : Z) (secret : option bytes) (secLen : Z)
    (seed : option bytes) (seedLen hash_type devId : Z) : M (Z * option bytes) :=
  if (is_null result && negb (resLen =? 0)) || (is_null secret && negb (secLen =? 0)) ||
     (is_null seed && negb (seedLen =? 0)) then mret (BAD_FUNC_ARG, result)
  else if negb (hash_type =? sha256_mac) then mret (HASH_TYPE_E, result)
  else
    let n := WC_SHA256_DIGEST_SIZE in
    let lastLen := resLen mod n in
    let times := if negb (lastLen =? 0) then resLen / n + 1 else resLen / n in
    if times =? 0 then mret (BAD_FUNC_ARG, result)
    else
      current ← wolfSSL_Malloc;
      hmac ← wolfSSL_Malloc;
      if negb current || negb hmac then
        _ ← XFREE current; _ ← XFREE hmac; mret (MEMORY_E, result)
      else
        '(ret, r) ← prf_body WC_HASH_TYPE_SHA256 n secret secLen seed seedLen times lastLen devId (default [] result);
        _ ← wolfSSL_Free;
        _ ← wolfSSL_Free;
        mret (ret, (fun _ => r) <$> result).

(** kdf.c:266-269, [wc_PRF_TLSv1], and kdf.c:331-334, [wc_PRF_TLS]: the label and the
    seed, one after the other. *)
Definition label_seed (label : option bytes) (labLen : Z) (seed : option bytes) (seedLen : Z) : M bytes :=
  let labelSeed := zeros MAX_PRF_LABSEED in
  labelSeed ← (if negb (labLen =? 0) then l ← rd (default [] label) 0 labLen; wr labelSeed 0 l else mret labelSeed);
  if negb (seedLen =? 0) then s ← rd (default [] seed) 0 seedLen; wr labelSeed labLen s else mret labelSeed.

(** kdf.c:227-293, [wc_PRF_TLSv1] *)
Definition wc_PRF_TLSv1 (digest : option bytes) (digLen : Z) (secret : option bytes) (secLen : Z)
    (label : option bytes) (labLen : Z) (seed : option bytes) (seedLen devId : Z) : M (Z * option bytes) :=
  let half := w32 (secLen + 1) / 2 in
  if (is_null digest && negb (digLen =? 0)) || (is_null secret && negb (secLen =? 0)) ||
     (is_null label && negb (labLen =? 0)) || (is_null seed && negb (seedLen =? 0)) then mret (BAD_FUNC_ARG, digest)
  else if (MAX_PRF_HALF <? half) || (MAX_PRF_LABSEED <? labLen) || (MAX_PRF_LABSEED - labLen <? seedLen) ||
          (MAX_PRF_DIG <? digLen) then mret (BUFFER_E, digest)
  else
    sha_result ← wolfSSL_Malloc;
    if negb sha_result then mret (MEMORY_E, digest)
    else
      labelSeed ← wolfSSL_Malloc;
      if negb labelSeed then _ ← wolfSSL_Free; mret (MEMORY_E, digest)
      else
        let md5_half := (fun s => sub s 0 half) <$> secret in
        let sha_half := (fun s => sub s (half - secLen mod 2) half) <$> secret in
        ls ← label_seed label labLen seed seedLen;
        let ls := sub ls 0 (labLen + seedLen) in
        '(ret, digest) ← wc_PRF digest digLen md5_half half (Some ls) (labLen + seedLen) md5_mac devId;
        '(ret, digest) ←
          (if ret =? 0 then
             '(ret, sha) ← wc_PRF (Some (zeros MAX_PRF_DIG)) digLen sha_half half (Some ls) (labLen + seedLen) sha_mac devId;
             if ret =? 0 then mret (ret, (fun d => xorbuf d (default [] sha) digLen) <$> digest)
             else mret (ret, digest)
           else mret (ret, digest));
        _ ← wolfSSL_Free;
        _ ← wolfSSL_Free;
        mret (ret, digest).

(** kdf.c:297-364, [wc_PRF_TLS] *)
Definition wc_PRF_TLS (digest : option bytes) (digLen : Z) (secret : option bytes) (secLen : Z)
    (label : option bytes) (labLen : Z) (seed : option bytes) (seedLen useAtLeastSha256 hash_type devId : Z)
    : M (Z * option bytes) :=
  if (is_null digest && negb (digLen =? 0)) || (is_null secret && negb (secLen =? 0)) ||
     (is_null label && negb (labLen =? 0)) || (is_null seed && negb (seedLen =? 0)) then mret (BAD_FUNC_ARG, digest)
  else if negb (useAtLeastSha256 =? 0) then
    if (MAX_PRF_LABSEED <? labLen) || (MAX_PRF_LABSEED - labLen <? seedLen) then mret (BUFFER_E, digest)
    else
      labelSeed ← wolfSSL_Malloc;
      if negb labelSeed then mret (MEMORY_E, digest)
      else
        ls ← label_seed label labLen seed seedLen;
        let ls := sub ls 0 (labLen + seedLen) in
        let hash_type := if (hash_type <? sha256_mac) || (hash_type =? blake2b_mac) then sha256_mac else hash_type in
        '(ret, digest) ← wc_PRF digest digLen secret secLen (Some ls) (labLen + seedLen) hash_type devId;
        _ ← wolfSSL_Free;
        mret (ret, digest)
  else mret (BAD_FUNC_ARG, digest).

(** kdf.c:373-446, [wc_Tls13_HKDF_Extract_ex] *)
Definition wc_Tls13_HKDF_Extract_ex (prk salt : option bytes) (saltLen : Z) (ikm : option bytes) (ikmLen digest devId : Z)
    : M (Z * option bytes) :=
  match prk with
  | None => mret (BAD_FUNC_ARG, prk)
  | Some p =>
    if is_null ikm && (0 <? ikmLen) then mret (BAD_FUNC_ARG, prk)
    else if negb (digest =? WC_HASH_TYPE_SHA256) then mret (BAD_FUNC_ARG, prk)
    else
      let n := WC_SHA256_DIGEST_SIZE in
      let '(localIkm, ikmLen) := if ikmLen =? 0 then (Some (zeros n), n) else (ikm, ikmLen) in
      '(ret, p) ← wc_HKDF_Extract_ex digest salt saltLen localIkm ikmLen p devId;
      mret (ret, Some p)
  end.

(** kdf.c:448-453, [wc_Tls13_HKDF_Extract] *)
Definition wc_Tls13_HKDF_Extract prk salt saltLen ikm ikmLen digest : M (Z * option bytes) :=
  wc_Tls13_HKDF_Extract_ex prk salt saltLen ikm ikmLen digest INVALID_DEVID.

(** kdf.c:484-488, [wc_Tls13_HKDF_Expand_Label_ex], and the same for the label and
    the hash: a string copied to [data] at [idx].  Gives [data] and [idx]. *)
Definition put_string (data : bytes) (idx : Z) (s : option bytes) (n : Z) : M (bytes * Z) :=
  if 0 <? n then s ← rd (default [] s) 0 n; data ← wr data idx s; mret (data, idx + n)
  else mret (data, idx).

(** kdf.c:457-536, [wc_Tls13_HKDF_Expand_Label_ex] *)
Definition wc_Tls13_HKDF_Expand_Label_ex (okm : bytes) (okmLen : Z) (prk : option bytes) (prkLen : Z)
    (protocol : option bytes) (protocolLen : Z) (label : option bytes) (labelLen : Z)
    (info : option bytes) (infoLen digest devId : Z) : M (Z * bytes) :=
  let idx := w32 (4 + protocolLen + labelLen + infoLen) in
  if MAX_TLS13_HKDF_LABEL_SZ <? idx then mret (BUFFER_E, okm)
  else
    data ← wolfSSL_Malloc;
    if negb data then mret (MEMORY_E, okm)
    else
      data ← wr (zeros idx) 0 [w8 (Z.shiftr okmLen 8)];
      data ← wr data 1 [w8 okmLen];
      data ← wr data 2 [w8 (protocolLen + labelLen)];
      '(data, idx) ← put_string data 3 protocol protocolLen;
      '(data, idx) ← put_string data idx label labelLen;
      data ← wr data idx [w8 infoLen];
      let idx := idx + 1 in
      '(data, idx) ← put_string data idx info infoLen;
      '(ret, okm) ← wc_HKDF_Expand_ex digest prk prkLen (Some data) idx okm okmLen devId;
      _ ← wolfSSL_Free;
      mret (ret, okm).

(** kdf.c:538-548, [wc_Tls13_HKDF_Expand_Label] *)
Definition wc_Tls13_HKDF_Expand_Label okm okmLen prk prkLen protocol protocolLen label labelLen info infoLen digest
    : M (Z * bytes) :=
  wc_Tls13_HKDF_Expand_Label_ex okm okmLen prk prkLen protocol protocolLen label labelLen info infoLen digest INVALID_DEVID.

End Code.

(** ** RFC 5246 and RFC 8446, with SHA-256 *)

Module Tls.

(** RFC 5246, section 5: A(i). *)
Fixpoint A (secret seed : bytes) (i : nat) : bytes :=
  match i with
  | O => seed
  | S i => Rfc.HMAC secret (A secret seed i)
  end.

(** The first [n] blocks of P_hash. *)
Fixpoint P_blocks (secret seed : bytes) (n : nat) : bytes :=
  match n with
  | O => []
  | S m => P_blocks secret seed m ++ Rfc.HMAC secret (A secret seed n ++ seed)
  end.

Definition PRF (secret label seed : bytes) (L : Z) : bytes :=
  take (Z.to_nat L) (P_blocks secret (label ++ seed) (Z.to_nat ((L + 31) / 32))).

(** RFC 8446, section 7.1. *)
Definition HkdfLabel (L : Z) (label context : bytes) : bytes :=
  be_split 2 L ++ [len label] ++ label ++ [len context] ++ context.

Definition HKDF_Expand_Label (secret label context : bytes) (L : Z) : bytes :=
  Rfc.HKDF_Expand secret (HkdfLabel L label context) L.

End Tls.

#[global] Arguments Tls.A : simpl never.
#[global] Arguments Tls.P_blocks : simpl never.

Section Proofs.
Context `{!Callbacks} (e : env).

Lemma P_blocks_S K s m : Tls.P_blocks K s (S m) = Tls.P_blocks K s m ++ Rfc.HMAC K (Tls.A K s (S m) ++ s).
Proof. done. Qed.

Lemma A_S K s i : Tls.A K s (S i) = Rfc.HMAC K (Tls.A K s i).
Proof. done. Qed.

Lemma len_P_blocks K s n : len (Tls.P_blocks K s n) = 32 * Z.of_nat n.
Proof. induction n as [|n IH]; [done|]. rewrite P_blocks_S, len_app, IH, len_HMAC. lia. Qed.

(** Two strings fed to a MAC. *)
Lemma hmac_update2_ok K h a b n : macking K [] h -> bytes_ok K -> bytes_ok a -> len a = n -> n < 2 ^ 32 ->
  bytes_ok (default [] b) -> len (default [] b) < 2 ^ 32 ->
  calc e 0 (hmac_update2 h a n b (len (default [] b)))
    (fun r => hm_devId r.2 = INVALID_DEVID /\
      ((r.1 = 0 /\ macking K (a ++ default [] b) r.2) \/ (r.1 = MEMORY_E /\ oom e))).
Proof.
  intros Hm HK Ha <- Hn Hb Hbl. unfold hmac_update2. pose proof (len_nonneg a).
  eapply calc_bind; [apply (wc_HmacUpdate_spec e K [] h (Some a)); cbn [from_option id]; try done; rewrite len_nil; lia|].
  intros [ret h1] [Hd1 [(Hr & Hm1)|[Hr Ho]]]; cbn [fst snd] in *; subst ret; eval_tests; [|calc_step; by auto].
  cbn [from_option id app] in Hm1. apply wc_HmacUpdate_spec; [done..|lia].
Qed.

Section Loop.
Context (K s out : bytes) (T : nat) (resLen lastLen : Z).
Hypothesis HK : bytes_ok K.
Hypothesis Hs : bytes_ok s.
Hypothesis Hsl : len s < 2 ^ 32.
Hypothesis Hres : resLen <= len out.
Hypothesis Hlast : (lastLen = 0 /\ resLen = 32 * Z.of_nat T) \/
                   (0 < lastLen < 32 /\ (0 < T)%nat /\ resLen = 32 * (Z.of_nat T - 1) + lastLen).

(** What is in [result] after [i] passes. *)
Let stored (i : nat) : bytes := splice out 0 (take (Z.to_nat resLen) (Tls.P_blocks K s i)).

Lemma len_stored i : len (stored i) = len out.
Proof.
  apply len_splice; [lia|]. unfold len at 1. rewrite length_take. pose proof (len_nonneg out). unfold len in *. lia.
Qed.

(** A whole block more. *)
Lemma stored_S i : 32 * (Z.of_nat i + 1) <= resLen ->
  splice (stored i) (32 * Z.of_nat i) (Rfc.HMAC K (Tls.A K s (S i) ++ s)) = stored (S i).
Proof.
  intros Hi. unfold stored. pose proof (len_P_blocks K s i) as Hl. pose proof (len_P_blocks K s (S i)) as Hl'.
  rewrite !take_ge by (unfold len in *; lia). rewrite P_blocks_S, <-Hl. apply splice_splice_app.
  rewrite len_HMAC. lia.
Qed.

(** The last part of a block. *)
Lemma stored_last i : resLen = 32 * Z.of_nat i + lastLen -> 0 < lastLen < 32 ->
  splice (stored i) (32 * Z.of_nat i) (sub (Rfc.HMAC K (Tls.A K s (S i) ++ s)) 0 lastLen) = stored (S i).
Proof.
  intros Hi Hl. unfold stored. pose proof (len_P_blocks K s i) as Hp. pose proof (len_HMAC K (Tls.A K s (S i) ++ s)) as Hm.
  rewrite (take_ge (Tls.P_blocks K s i)) by (unfold len in *; lia). rewrite P_blocks_S, <-Hp.
  rewrite splice_splice_app by (rewrite len_sub; lia). f_equal.
  rewrite take_app_ge by (unfold len in *; lia). f_equal. unfold sub. rewrite drop_0. f_equal. unfold len in *. lia.
Qed.

Lemma prf_loop_ok todo i h cur : (i + todo = T)%nat -> macking K [] h -> len cur = 32 -> bytes_ok cur ->
  ((0 < todo)%nat -> cur = Tls.A K s (S i)) ->
  calc e 0 (prf_loop todo h 32 (Some s) (len s) (32 * Z.of_nat i) lastLen cur (stored i))
    (fun '(ret, h', _, res) => hm_devId h' = INVALID_DEVID /\
       ((ret = 0 /\ res = stored T) \/ (ret = MEMORY_E /\ len res = len out /\ oom e))).
Proof.
  revert i h cur. induction todo as [|todo IH]; intros i h cur Hi Hm Hc Hcok HcA.
  { apply calc_ret. split; [by eauto with wf|]. left. by replace i with T by lia. }
  specialize (HcA ltac:(lia)). cbn [prf_loop]. pose proof (len_stored i) as Hst.
  eapply calc_bind; [apply (hmac_update2_ok K h cur (Some s)); cbn [from_option id]; done || lia|].
  cbn [from_option id].
  intros [ret h1] [Hd1 [(Hr & Hm1)|[Hr Ho]]]; cbn [fst snd] in *; subst ret; eval_tests; [|calc_step; by auto].
  rewrite HcA in Hm1. set (m := Tls.A K s (S i) ++ s) in *.
  assert (Hml : len m < 2 ^ 60).
  { unfold m. rewrite len_app, A_S, len_HMAC. lia. }
  destruct (negb (Z.of_nat todo =? 0) || (lastLen =? 0)) eqn:Efull.
  - assert (Hfit : 32 * (Z.of_nat i + 1) <= resLen).
    { rewrite orb_true_iff, negb_true_iff, Z.eqb_neq, Z.eqb_eq in Efull. lia. }
    apply calc_rd; [lia|lia|rewrite Hst; lia|].
    assert (Hseg : len (sub (stored i) (32 * Z.of_nat i) 32) = 32) by (apply len_sub; lia).
    eapply calc_bind; [apply (wc_HmacFinal_spec e K m h1); [done|done|lia|lia]|].
    intros [[ret h2] seg] [Hd2 [(-> & -> & Hm2)|(-> & -> & Ho)]].
    2: { apply calc_wr; [lia|lia|]. eval_tests. calc_step. split; [done|]. right. rewrite len_splice by lia. done. }
    rewrite splice_full by (pose proof (len_HMAC K m); unfold len in *; lia).
    pose proof (len_HMAC K m) as Hh. apply calc_wr; [lia|lia|]. eval_tests. rewrite stored_S by done.
    pose proof (wc_HmacUpdate_spec e K [] h2 (Some cur) Hm2) as Hu. cbn [from_option id] in Hu. rewrite Hc in Hu.
    eapply calc_bind; [apply Hu; done || rewrite ?len_nil; lia|]. clear Hu.
    intros [ret h3] [Hd3 [(Hr & Hm3)|[Hr Ho]]]; cbn [fst snd] in *; subst ret; eval_tests.
    2: { calc_step. split; [done|]. right. by rewrite len_stored. }
    cbn [from_option id app] in Hm3.
    eapply calc_bind; [apply (wc_HmacFinal_spec e K _ h3 cur Hm3); [done|lia|lia]|].
    intros [[ret h4] cur'] [Hd4 [(-> & -> & Hm4)|(-> & -> & Ho)]]; eval_tests.
    2: { calc_step. split; [done|]. right. by rewrite len_stored. }
    rewrite splice_full by (pose proof (len_HMAC K cur); unfold len in *; lia).
    replace (32 * Z.of_nat i + 32) with (32 * Z.of_nat (S i)) by lia.
    apply IH; [lia|done|apply len_HMAC|apply HMAC_bytes_ok|]. intros _. by rewrite (A_S K s (S i)), HcA.
  - rewrite orb_false_iff, negb_false_iff, Z.eqb_eq, Z.eqb_neq in Efull. destruct Efull as [Et El].
    assert (Hr : resLen = 32 * Z.of_nat i + lastLen /\ 0 < lastLen < 32) by lia. destruct Hr as [Hr Hll].
    eapply calc_bind; [apply (wc_HmacFinal_spec e K m h1 cur); [done|done|lia|lia]|].
    intros [[ret h2] cur'] [Hd2 [(-> & -> & Hm2)|(-> & -> & Ho)]]; eval_tests.
    2: { calc_step. split; [done|]. right. by rewrite len_stored. }
    pose proof (len_HMAC K m) as Hh. rewrite splice_full by (unfold len in *; lia).
    rewrite Z.min_l by lia. apply calc_rd; [lia|lia|lia|]. apply calc_wr; [lia|rewrite len_sub by lia; lia|].
    rewrite stored_last by done. destruct todo as [|todo]; [|lia]. apply calc_ret. split; [done|]. left.
    split; [done|]. by replace T with (S i) by lia.
Qed.
End Loop.

(** Times and last length as the code computes them. *)
Lemma prf_times L : 0 < L ->
  let T := Z.to_nat ((L + 31) / 32) in
  (if negb (L mod 32 =? 0) then L / 32 + 1 else L / 32) = Z.of_nat T /\ (0 < T)%nat /\
  ((L mod 32 = 0 /\ L = 32 * Z.of_nat T) \/ (0 < L mod 32 < 32 /\ (0 < T)%nat /\ L = 32 * (Z.of_nat T - 1) + L mod 32)).
Proof.
  intros HL T. unfold T. clear T. rewrite Z2Nat.id by (apply Z.div_pos; lia).
  destruct (Z.eqb_spec (L mod 32) 0); cbn [negb]; Z.div_mod_to_equations; lia.
Qed.

Lemma prf_body_ok K s out L : bytes_ok K -> len K < 2 ^ 32 -> bytes_ok s -> len s < 2 ^ 32 -> 0 < L <= len out ->
  calc e 0 (prf_body WC_HASH_TYPE_SHA256 32 (Some K) (len K) (Some s) (len s)
              (Z.of_nat (Z.to_nat ((L + 31) / 32))) (L mod 32) INVALID_DEVID out)
    (fun r => (r.1 = 0 /\ r.2 = splice out 0 (take (Z.to_nat L) (Tls.P_blocks K s (Z.to_nat ((L + 31) / 32))))) \/
              (r.1 = MEMORY_E /\ len r.2 = len out /\ oom e)).
Proof.
  intros HK HKl Hs Hsl HL. destruct (prf_times L) as (_ & HT & Hlast); [lia|]. set (T := Z.to_nat ((L + 31) / 32)) in *.
  unfold prf_body. pose proof HmacInit_fresh as Hf. destruct (wc_HmacInit INVALID_DEVID) as [ret0 h0] eqn:E0.
  injection E0 as <- _. cbn [snd] in Hf. eval_tests.
  assert (Hfail : forall h cur ret, hm_devId h = INVALID_DEVID -> ret = MEMORY_E -> oom e ->
    calc e 0 ('(ret, h, current) ← mret (ret, h, cur);
              '(ret, h, _, result) ←
                (if ret =? 0 then prf_loop (Z.to_nat (Z.of_nat T)) h 32 (Some s) (len s) 0 (L mod 32) current out
                 else mret (ret, h, current, out));
              _ ← wc_HmacFree h; mret (ret, result))
      (fun r => (r.1 = 0 /\ r.2 = splice out 0 (take (Z.to_nat L) (Tls.P_blocks K s T))) \/
                (r.1 = MEMORY_E /\ len r.2 = len out /\ oom e))).
  { intros h cur ret Hd -> Ho. calc_steps. apply wc_HmacFree_calc; [done|]. calc_steps. by right. }
  eapply calc_bind; [by apply wc_HmacSetKey_spec|].
  intros [ret h1] [Hd1 [(Hr & Hm1)|[Hr Ho]]]; cbn [fst snd] in *; subst ret; eval_tests.
  2: { calc_step. cbv beta iota. eval_tests. by apply Hfail. }
  eapply calc_bind; [apply (wc_HmacUpdate_spec e K [] h1 (Some s) Hm1); cbn [from_option id]; try done; rewrite len_nil; lia|].
  cbn [from_option id app].
  intros [ret h2] [Hd2 [(Hr & Hm2)|[Hr Ho]]]; cbn [fst snd] in *; subst ret; eval_tests; [|by apply Hfail].
  eapply calc_bind; [apply (wc_HmacFinal_spec e K _ h2 (zeros 32) Hm2); [done|cbn [app]; lia|done]|].
  intros [[ret h3] cur] [Hd3 [(-> & -> & Hm3)|(-> & -> & Ho)]].
  2: { exact (Hfail h3 (zeros 32) MEMORY_E Hd3 eq_refl Ho). }
  rewrite splice_full by (pose proof (len_HMAC K s); unfold len, zeros in *; rewrite length_replicate; lia).
  eval_tests. rewrite Nat2Z.id. eapply calc_bind.
  { pose proof (prf_loop_ok K s out T L (L mod 32) HK Hs Hsl ltac:(lia) Hlast T 0 h3 (Rfc.HMAC K s) eq_refl Hm3
      (len_HMAC K s) (HMAC_bytes_ok K s) ltac:(done)) as Hloop.
    cbv beta zeta in Hloop. change (Tls.P_blocks K s 0) with (@nil Z) in Hloop. rewrite take_nil, splice_nil in Hloop. exact Hloop. }
  intros [[[ret h4] c] res] [Hd4 [(-> & ->)|(-> & Hl & Ho)]]; (apply wc_HmacFree_calc; [done|]); calc_step; auto.
Qed.

Lemma wc_PRF_ok K s out L : bytes_ok K -> len K < 2 ^ 32 -> bytes_ok s -> len s < 2 ^ 32 -> 0 < L <= len out ->
  calc e 0 (wc_PRF (Some out) L (Some K) (len K) (Some s) (len s) sha256_mac INVALID_DEVID)
    (fun r => (r.1 = 0 /\ r.2 = Some (splice out 0 (take (Z.to_nat L) (Tls.P_blocks K s (Z.to_nat ((L + 31) / 32)))))) \/
              (r.1 = MEMORY_E /\ option_map len r.2 = Some (len out) /\ oom e)).
Proof.
  intros HK HKl Hs Hsl HL. unfold wc_PRF. cbn [is_null andb orb]. change (negb (sha256_mac =? sha256_mac)) with false.
  cbv iota. change WC_SHA256_DIGEST_SIZE with 32. destruct (prf_times L) as (-> & HT & _); [lia|].
  rewrite (proj2 (Z.eqb_neq _ _)) by lia.
  calc_step; [calc_step|calc_step]; cbn [negb orb]; [|calc_steps; by right|calc_steps; by right|calc_steps; by right].
  eapply calc_bind; [by apply prf_body_ok|].
  intros [ret o] [(Hr & Ho)|(Hr & Hl & Ho)]; cbn [fst snd] in *; subst; calc_steps; [by left|right]. cbn. by rewrite Hl.
Qed.

Lemma label_seed_ok label seed : len label + len seed <= MAX_PRF_LABSEED ->
  calc e 0 (label_seed (Some label) (len label) (Some seed) (len seed))
    (fun ls => sub ls 0 (len label + len seed) = label ++ seed).
Proof.
  intros Hmax. unfold label_seed. cbn [from_option id]. pose proof (len_nonneg label). pose proof (len_nonneg seed).
  assert (Hz : len (zeros MAX_PRF_LABSEED) = 128) by done. set (z := zeros _) in *. clearbody z.
  assert (Hw : forall (b : bytes) off s Q, 0 <= off -> off + len s <= len b -> Q (splice b off s) ->
    calc e 0 (if negb (len s =? 0) then s' ← rd s 0 (len s); wr b off s' else mret b) Q).
  { intros b off s Q Hoff Hb HQ. pose proof (len_nonneg s). destruct (Z.eqb_spec (len s) 0) as [Es|_]; cbn [negb].
    - apply len_0_nil in Es as ->. apply calc_ret. by rewrite splice_nil in HQ.
    - apply calc_rd; [lia..|]. rewrite sub_all by done. by apply calc_wr_end. }
  eapply calc_bind; [apply (Hw _ _ _ (fun b => b = splice z 0 label)); [lia|lia|done]|].
  intros ? ->. apply Hw; [lia|rewrite len_splice by lia; lia|].
  rewrite splice_splice_app by lia. rewrite <-len_app. unfold sub. rewrite drop_0. apply take_spliced. rewrite len_app. lia.
Qed.

(** C28. The pseudo-random function of TLS 1.2: [wc_PRF_TLS] fills the caller's buffer, of
    any length and not only whole digests, with RFC 5246's P_SHA256 of the secret over
    label and seed, for every label and seed that fit and every MAC number that stands
    for SHA-256 or a weaker hash; the one failure is of memory. *)
Theorem tls12_prf secret label seed digest hash_type :
  bytes_ok secret -> len secret < 2 ^ 32 -> bytes_ok label -> bytes_ok seed ->
  len label + len seed <= MAX_PRF_LABSEED -> 0 < len digest ->
  hash_type <= sha256_mac \/ hash_type = blake2b_mac ->
  calc e 0 (wc_PRF_TLS (Some digest) (len digest) (Some secret) (len secret) (Some label) (len label)
              (Some seed) (len seed) 1 hash_type INVALID_DEVID)
    (fun '(ret, out) => (ret = 0 /\ out = Some (Tls.PRF secret label seed (len digest))) \/ (ret = MEMORY_E /\ oom e)).
Proof.
  intros Hs Hsl Hlab Hseed Hlen Hd Hh. pose proof (len_nonneg label). pose proof (len_nonneg seed).
  unfold wc_PRF_TLS. cbn [is_null andb orb]. change (negb (1 =? 0)) with true. cbv iota.
  rewrite !(proj2 (Z.ltb_ge _ _)) by lia. cbn [orb].
  calc_step; cbn [negb]; [|calc_step; by right].
  eapply calc_bind; [by apply label_seed_ok|]. intros ls ->. cbv zeta.
  assert ((if (hash_type <? sha256_mac) || (hash_type =? blake2b_mac) then sha256_mac else hash_type) = sha256_mac) as ->.
  { destruct (Z.ltb_spec hash_type sha256_mac), (Z.eqb_spec hash_type blake2b_mac); cbn [orb]; lia. }
  rewrite <-len_app. eapply calc_bind; [apply wc_PRF_ok; try done || lia; [by apply Forall_app|rewrite len_app; lia]|].
  intros [ret o] [(Hr & Ho)|(Hr & _ & Ho)]; cbn [fst snd] in *; subst; calc_steps; [left|by right]. split; [done|].
  f_equal. unfold Tls.PRF. set (P := Tls.P_blocks _ _ _). apply splice_full. rewrite length_take.
  pose proof (len_P_blocks secret (label ++ seed) (Z.to_nat ((len digest + 31) / 32))) as HP. fold P in HP.
  unfold len in *. Z.div_mod_to_equations. lia.
Qed.

(** Data filled from its start: a byte and a string more. *)
Lemma fill_byte {A} d z pre idx v (k : bytes -> M A) Q : idx = len pre -> len pre + 1 <= len z ->
  calc e d (k (splice z 0 (pre ++ [v]))) Q -> calc e d (wr (splice z 0 pre) idx [v] ≫= k) Q.
Proof.
  intros -> Hpre HQ. pose proof (len_nonneg pre). assert (len [v] = 1) as H1 by done.
  apply calc_wr; [lia|rewrite len_splice by lia; lia|]. by rewrite splice_splice_app by lia.
Qed.

Lemma fill_string {A} d z pre idx s (k : bytes * Z -> M A) Q : idx = len pre -> len pre + len s <= len z ->
  calc e d (k (splice z 0 (pre ++ s), len (pre ++ s))) Q ->
  calc e d (put_string (splice z 0 pre) idx (Some s) (len s) ≫= k) Q.
Proof.
  intros -> Hpre HQ. unfold put_string. cbn [from_option id]. pose proof (len_nonneg pre). pose proof (len_nonneg s).
  destruct (Z.ltb_spec 0 (len s)) as [Hp|Hz].
  - apply calc_assoc, calc_rd; [lia..|]. apply calc_assoc. rewrite sub_all by done.
    apply calc_wr; [lia|rewrite len_splice by lia; lia|]. calc_step. by rewrite splice_splice_app, <-len_app by lia.
  - calc_step. assert (s = []) as -> by (apply len_0_nil; lia). by rewrite app_nil_r in HQ.
Qed.

(** The label as the code lays it out. *)
Lemma hkdf_label_bytes L protocol label context : len protocol + len label < 256 -> len context < 256 ->
  [w8 (Z.shiftr L 8)] ++ [w8 L] ++ [w8 (len protocol + len label)] ++ protocol ++ label ++ [w8 (len context)] ++ context =
  Tls.HkdfLabel L (protocol ++ label) context.
Proof.
  intros Hp Hc. pose proof (len_nonneg protocol). pose proof (len_nonneg label). pose proof (len_nonneg context).
  unfold Tls.HkdfLabel. rewrite len_app, <-!app_assoc. by rewrite (w8_id (len context)), (w8_id (_ + _)) by lia.
Qed.

Lemma expand_label_ok okm prk protocol label context :
  bytes_ok prk -> len prk < 2 ^ 32 -> bytes_ok protocol -> bytes_ok label -> bytes_ok context ->
  4 + len protocol + len label + len context <= MAX_TLS13_HKDF_LABEL_SZ -> len okm <= 255 * 32 ->
  calc e 0 (wc_Tls13_HKDF_Expand_Label okm (len okm) (Some prk) (len prk) (Some protocol) (len protocol)
              (Some label) (len label) (Some context) (len context) WC_HASH_TYPE_SHA256)
    (fun r => (r.1 = 0 /\ r.2 = Tls.HKDF_Expand_Label prk (protocol ++ label) context (len okm)) \/
              (r.1 = MEMORY_E /\ oom e)).
Proof.
  intros Hp Hpl Hpr Hl Hc Hlen Hokm. pose proof (len_nonneg protocol). pose proof (len_nonneg label).
  pose proof (len_nonneg context). pose proof (len_nonneg okm). change MAX_TLS13_HKDF_LABEL_SZ with 79 in Hlen.
  unfold wc_Tls13_HKDF_Expand_Label, wc_Tls13_HKDF_Expand_Label_ex. rewrite w32_id by lia.
  rewrite (proj2 (Z.ltb_ge _ _)) by (change MAX_TLS13_HKDF_LABEL_SZ with 79; lia).
  calc_step; cbn [negb]; [|calc_step; by right].
  set (n := 4 + len protocol + len label + len context).
  assert (Hz : len (zeros n) = n) by (apply len_zeros; lia). set (z := zeros n) in *. clearbody z.
  rewrite <-(splice_nil z 0) at 1.
  assert (Hone : forall v : Z, len [v] = 1) by done.
  do 3 (apply fill_byte; [done|rewrite ?len_app, ?Hone, ?len_nil; lia|]). rewrite app_nil_l, <-!app_assoc.
  do 2 (apply fill_string; [done|rewrite ?len_app, ?Hone; lia|]). apply fill_byte; [done|rewrite ?len_app, ?Hone; lia|].
  apply fill_string; [apply len_snoc|rewrite ?len_app, ?Hone; lia|]. rewrite <-!app_assoc.
  rewrite hkdf_label_bytes by lia.
  assert (Hi : len (Tls.HkdfLabel (len okm) (protocol ++ label) context) = n).
  { rewrite <-hkdf_label_bytes, !len_app, !Hone by lia. lia. }
  set (info := Tls.HkdfLabel _ _ _) in *. rewrite splice_full by (unfold len in *; lia).
  assert (bytes_ok info) as Hok.
  { unfold info. rewrite <-hkdf_label_bytes by lia. assert (forall x, bytes_ok [w8 x]) by (repeat constructor; apply w8_range).
    rewrite !bytes_ok_app. auto 10. }
  change (Tls.HKDF_Expand_Label _ _ _ _) with (Rfc.HKDF_Expand prk info (len okm)). clearbody info.
  pose proof (wc_HKDF_Expand_spec e prk (Some info) okm (len okm)) as HE. cbn [from_option id] in HE.
  eapply calc_bind; [exact (HE Hp Hpl Hok ltac:(lia) ltac:(lia) ltac:(lia))|]. clear HE.
  intros [ret o] [(Hr & Ho)|(Hr & _ & Ho)]; cbn [fst snd] in *; subst; calc_steps; [left|by right].
  split; [done|]. apply splice_full. pose proof (len_HKDF_Expand prk info (len okm) ltac:(lia)). unfold len in *. lia.
Qed.

Lemma tls13_extract_ok prk salt ikm : bytes_ok salt -> len salt < 2 ^ 32 -> bytes_ok ikm -> len ikm < 2 ^ 32 -> len prk = 32 ->
  calc e 0 (wc_Tls13_HKDF_Extract (Some prk) (Some salt) (len salt) (Some ikm) (len ikm) WC_HASH_TYPE_SHA256)
    (fun r => (r.1 = 0 /\ r.2 = Some (Rfc.HKDF_Extract (Some salt) (if len ikm =? 0 then zeros 32 else ikm))) \/
              (r.1 = MEMORY_E /\ r.2 = Some prk /\ oom e)).
Proof.
  intros Hs Hsl Hi Hil Hp. unfold wc_Tls13_HKDF_Extract, wc_Tls13_HKDF_Extract_ex. cbn [is_null andb].
  change (negb (WC_HASH_TYPE_SHA256 =? WC_HASH_TYPE_SHA256)) with false. cbv iota.
  assert ((if len ikm =? 0 then (Some (zeros WC_SHA256_DIGEST_SIZE), WC_SHA256_DIGEST_SIZE) else (Some ikm, len ikm)) =
    let k := if len ikm =? 0 then zeros 32 else ikm in (Some k, len k)) as -> by (by destruct (len ikm =? 0)).
  cbv zeta beta iota. set (k := if len ikm =? 0 then zeros 32 else ikm).
  assert (bytes_ok k /\ len k < 2 ^ 32) as [Hk Hkl] by (unfold k; destruct (len ikm =? 0); [split; [apply bytes_ok_zeros|done]|done]).
  pose proof (wc_HKDF_Extract_spec e (Some salt) (Some k) prk) as HE. cbn [from_option id] in HE. clearbody k.
  eapply calc_bind; [exact (HE Hs Hsl Hk Hkl ltac:(lia))|]. clear HE.
  intros [ret o] [(Hr & Ho)|(Hr & Hpo & Ho)]; cbn [fst snd from_option id] in *; subst; calc_steps; [left|by right].
  split; [done|]. cbn [snd]. f_equal. apply splice_full. pose proof (len_HMAC salt k). unfold Rfc.HKDF_Extract, len in *. cbn. lia.
Qed.
End Proofs.

(** One step of the TLS 1.3 key schedule (RFC 8446, section 7.1): the next secret from
    the last and new input, then a secret derived from it for a label and a transcript.
    Without memory the first step stops. *)
Definition key_schedule_step `{!Callbacks} (salt ikm protocol label context okm : bytes) : M (Z * option bytes * bytes) :=
  '(ret, prk) ← wc_Tls13_HKDF_Extract (Some (zeros 32)) (Some salt) (len salt) (Some ikm) (len ikm) WC_HASH_TYPE_SHA256;
  if ret =? 0 then
    '(ret, okm) ← wc_Tls13_HKDF_Expand_Label okm (len okm) prk 32 (Some protocol) (len protocol)
      (Some label) (len label) (Some context) (len context) WC_HASH_TYPE_SHA256;
    mret (ret, prk, okm)
  else mret (ret, prk, okm).



(** The published test vector of the PRF with SHA-256, 100 bytes: three digests and a part. *)
Lemma tls12_prf_witness :
  calc env_plenty 0 (wc_PRF_TLS (H := no_callbacks) (Some (zeros 100)) 100
      (Some (be_split 16 0x9bbe436ba940f017b17652849a71db35)) 16
      (Some [116; 101; 115; 116; 32; 108; 97; 98; 101; 108]) 10
      (Some (be_split 16 0xa0ba9f936cda311827a6f796ffd5198c)) 16 1 sha_mac INVALID_DEVID)
    (fun '(ret, out) => ret = 0 /\ out = Some (be_split 100
       0xe3f229ba727be17b8d122620557cd453c2aab21d07c3d495329b52d4e61edb5a6b301791e90d35c9c9a46b4e14baf9af0fa022f7077def17abfd3797c0564bab4fbc91666e9def9b97fce34f796789baa48082d122ee42c5a72e5a5110fff70187347b66)).
Proof.
  eapply calc_mono.
  - apply (tls12_prf (H := no_callbacks) env_plenty (be_split 16 0x9bbe436ba940f017b17652849a71db35)
      [116; 101; 115; 116; 32; 108; 97; 98; 101; 108] (be_split 16 0xa0ba9f936cda311827a6f796ffd5198c) (zeros 100) sha_mac);
      first [vm_compute; reflexivity|vm_compute; discriminate|apply be_split_ok|lia|repeat (constructor; [lia|]); constructor].
  - intros [ret out] [(-> & ->)|[_ [n Hn]]]; [|discriminate]. split; [done|]. vm_compute. reflexivity.
Defined.

(** The size of the label is summed in 32 bits: a prefix of 2^32 - 4 bytes gives a buffer
    of none, which passes the test, and the first byte written is outside it. *)
Lemma expand_label_size_wraps (w : world) okm prk protocol :
  e_alloc (w_env w) (w_nalloc w) = true ->
  wc_Tls13_HKDF_Expand_Label (H := no_callbacks) okm (len okm) (Some prk) (len prk) protocol (2 ^ 32 - 4)
    None 0 None 0 WC_HASH_TYPE_SHA256 w = Fault.
Proof.
  intros Ha. unfold wc_Tls13_HKDF_Expand_Label, wc_Tls13_HKDF_Expand_Label_ex.
  change (w32 _) with 0. change (MAX_TLS13_HKDF_LABEL_SZ <? 0) with false. cbv iota.
  unfold mbind, M_bind, wolfSSL_Malloc. by rewrite Ha.
Qed.
