(* ===== verification/Aes.v ===== *)
(** * Aes: the block cipher of aes.c

    Key expansion and block encryption with the tables [Te], as aes.c does them,
    then FIPS 197 as a reference (field arithmetic, S-box, rounds, key
    expansion), then the equivalence for all three key sizes. *)

From S2P Require Import Prelude Platform Types Misc CryptoCb AesTables.

(** ** The code *)

(** aes.h:269, [WC_AES_BLOCK_SIZE] *)
Notation WC_AES_BLOCK_SIZE := (16)%Z (only parsing).
(** aes.h:263, [AES_ENCRYPTION] *)
Notation AES_ENCRYPTION := (0)%Z (only parsing).
(** aes.h:264, [AES_DECRYPTION] *)
Notation AES_DECRYPTION := (1)%Z (only parsing).

(** aes.c:2298, [GETBYTE] *)
Definition GETBYTE (x y : Z) : Z := Z.land (Z.shiftr x (8 * y)) 0xFF.

(** aes.c:2637, [GetTable] *)
Definition GetTable (t : list Z) (o : Z) : Z := t !!! Z.to_nat o.

(** aes.c:2391-2409, [PreFetchTe] *)
Definition PreFetchTe : Z :=
  foldl (fun x t => foldl (fun x j => Z.land x (GetTable t (16 * Z.of_nat j))) x (seq 0 16)) 0
    [Te0; Te1; Te2; Te3].

(** Four words: the state in registers. *)
Definition quad : Type := Z * Z * Z * Z.

(** aes.c:2718-2743, [ENC_ROUND_T_S] and [ENC_ROUND_S_T]: one round with the
    round key at [k]. *)
Definition ENC_ROUND (rk : list Z) (k : nat) (s : quad) : quad :=
  let '(s0, s1, s2, s3) := s in
  let col a b c d := GetTable Te0 (GETBYTE a 3) ⊕ GetTable Te1 (GETBYTE b 2) ⊕
                     GetTable Te2 (GETBYTE c 1) ⊕ GetTable Te3 (GETBYTE d 0) in
  (col s0 s1 s2 s3 ⊕ rk !!! k, col s1 s2 s3 s0 ⊕ rk !!! (k + 1)%nat,
   col s2 s3 s0 s1 ⊕ rk !!! (k + 2)%nat, col s3 s0 s1 s2 ⊕ rk !!! (k + 3)%nat).

(** aes.c:2805-2828, [AesEncrypt_C]: the last round, with the S-box read out of
    the tables by masks. *)
Definition ENC_LAST (rk : list Z) (k : nat) (t : quad) : quad :=
  let '(t0, t1, t2, t3) := t in
  let col a b c d := Z.land (GetTable Te2 (GETBYTE a 3)) 0xff000000 ⊕
                     Z.land (GetTable Te3 (GETBYTE b 2)) 0x00ff0000 ⊕
                     Z.land (GetTable Te0 (GETBYTE c 1)) 0x0000ff00 ⊕
                     Z.land (GetTable Te1 (GETBYTE d 0)) 0x000000ff in
  (col t0 t1 t2 t3 ⊕ rk !!! k, col t1 t2 t3 t0 ⊕ rk !!! (k + 1)%nat,
   col t2 t3 t0 t1 ⊕ rk !!! (k + 2)%nat, col t3 t0 t1 t2 ⊕ rk !!! (k + 3)%nat).

(** aes.c:2770-2780, [AesEncrypt_C]: the rounds but the last, [R k] being the one
    with the round key at [k]; [r] is half their number. *)
Definition block_rounds (R : nat -> quad -> quad) (r : Z) (s : quad) : quad :=
  let pair o t := R (o + 4)%nat (R o t) in
  let t := pair 32%nat (pair 24%nat (pair 16%nat (pair 8%nat (R 4%nat s)))) in
  if 5 <? r then
    let t := pair 40%nat t in
    if 6 <? r then pair 48%nat t else t
  else t.

(** aes.c:2686-2703, [AesEncrypt_C]: load the block and add the first round key. *)
Definition ENC_LOAD (rk : list Z) (inBlock : bytes) : quad :=
  let word i := ByteReverseWord32 (le_combine (sub inBlock (4 * i) 4)) in
  (word 0 ⊕ rk !!! 0%nat, word 1 ⊕ rk !!! 1%nat, word 2 ⊕ rk !!! 2%nat, word 3 ⊕ rk !!! 3%nat).

(** aes.c:2951-2960, [AesEncrypt_C]: store the block. *)
Definition ENC_STORE (s : quad) : bytes :=
  let '(s0, s1, s2, s3) := s in
  flat_map (fun s => le_split 4 (ByteReverseWord32 s)) [s0; s1; s2; s3].

(** aes.c:2660-2962, [AesEncrypt_C]: [r] is half the number of rounds,
    [prefetch] the value of the flag that asks for the tables to be touched. *)
Definition AesEncrypt_C (aes : Aes) (inBlock : bytes) (r : Z) (prefetch : Z) : bytes :=
  let rk := aes_key aes in
  let '(s0, s1, s2, s3) := ENC_LOAD rk inBlock in
  let s0 := if prefetch =? 0 then Z.lor s0 PreFetchTe else s0 in
  let t := block_rounds (ENC_ROUND rk) r (s0, s1, s2, s3) in
  ENC_STORE (ENC_LAST rk (Z.to_nat (r * 8)) t).

(** aes.c:3546-3721, [AesEncrypt_preFetchOpt]: the code, the block written and
    the new value of the prefetch flag ([always] when it is the static one). *)
Definition AesEncrypt_preFetchOpt (aes : Aes) (inBlock outBlock : bytes) (always : bool) (prefetch : Z)
    : Z * bytes * Z :=
  let r := Z.shiftr (aes_rounds aes) 1 in
  if (7 <? r) || (r =? 0) then (KEYUSAGE_E, outBlock, prefetch)
  else (0, AesEncrypt_C aes inBlock r prefetch,
        if (prefetch =? 0) && negb always then 1 else prefetch).

(** ** Keys *)

Definition set_aes_key (k : list Z) (a : Aes) : Aes :=
  {| aes_key := k; aes_rounds := aes_rounds a; aes_keylen := aes_keylen a; aes_reg := aes_reg a;
     aes_tmp := aes_tmp a; aes_invokeCtr := aes_invokeCtr a; aes_nonceSz := aes_nonceSz a;
     aes_gcm_H := aes_gcm_H a; aes_devId := aes_devId a; aes_devCtx := aes_devCtx a;
     aes_devKey := aes_devKey a; aes_keyInstalled := aes_keyInstalled a |}.

Definition set_aes_size (rounds keylen : Z) (reg : bytes) (a : Aes) : Aes :=
  {| aes_key := aes_key a; aes_rounds := rounds; aes_keylen := keylen; aes_reg := reg;
     aes_tmp := aes_tmp a; aes_invokeCtr := aes_invokeCtr a; aes_nonceSz := aes_nonceSz a;
     aes_gcm_H := aes_gcm_H a; aes_devId := aes_devId a; aes_devCtx := aes_devCtx a;
     aes_devKey := aes_devKey a; aes_keyInstalled := aes_keyInstalled a |}.

Definition set_aes_dev (H devKey : bytes) (inst : bool) (a : Aes) : Aes :=
  {| aes_key := aes_key a; aes_rounds := aes_rounds a; aes_keylen := aes_keylen a; aes_reg := aes_reg a;
     aes_tmp := aes_tmp a; aes_invokeCtr := aes_invokeCtr a; aes_nonceSz := aes_nonceSz a;
     aes_gcm_H := H; aes_devId := aes_devId a; aes_devCtx := aes_devCtx a;
     aes_devKey := devKey; aes_keyInstalled := inst |}.

(** aes.c:5443-5446 and 5512-5515, [AesSetKey_C]: the S-box on a rotated word. *)
Definition key_rot_sub (temp : Z) : Z :=
  Z.land (GetTable Te2 (GETBYTE temp 2)) 0xff000000 ⊕
  Z.land (GetTable Te3 (GETBYTE temp 1)) 0x00ff0000 ⊕
  Z.land (GetTable Te0 (GETBYTE temp 0)) 0x0000ff00 ⊕
  Z.land (GetTable Te1 (GETBYTE temp 3)) 0x000000ff.

(** aes.c:5531-5534, [AesSetKey_C]: the S-box on a word. *)
Definition key_sub (temp : Z) : Z :=
  Z.land (GetTable Te2 (GETBYTE temp 3)) 0xff000000 ⊕
  Z.land (GetTable Te3 (GETBYTE temp 2)) 0x00ff0000 ⊕
  Z.land (GetTable Te0 (GETBYTE temp 1)) 0x0000ff00 ⊕
  Z.land (GetTable Te1 (GETBYTE temp 0)) 0x000000ff.

(** [rk[o + d] = rk[o + a] ^ rk[o + b]] *)
Definition key_xor (o d a b : nat) (rk : list Z) : list Z :=
  <[(o + d)%nat := rk !!! (o + a)%nat ⊕ rk !!! (o + b)%nat]> rk.

(** aes.c:5440-5456, [AesSetKey_C]: pass [i] of the loop for 16-byte keys. *)
Definition key_pass16 (rk : list Z) (i : nat) : list Z :=
  let o := (4 * i)%nat in
  let temp := rk !!! (o + 3)%nat in
  let rk := <[(o + 4)%nat := rk !!! o ⊕ key_rot_sub temp ⊕ rcon !!! i]> rk in
  let rk := key_xor o 5 1 4 rk in
  let rk := key_xor o 6 2 5 rk in
  key_xor o 7 3 6 rk.

(** aes.c:5474-5495, [AesSetKey_C]: pass [i] of the loop for 24-byte keys. *)
Definition key_pass24 (rk : list Z) (i : nat) : list Z :=
  let o := (6 * i)%nat in
  let temp := rk !!! (o + 5)%nat in
  let rk := <[(o + 6)%nat := rk !!! o ⊕ key_rot_sub temp ⊕ rcon !!! i]> rk in
  let rk := key_xor o 7 1 6 rk in
  let rk := key_xor o 8 2 7 rk in
  let rk := key_xor o 9 3 8 rk in
  if (i =? 7)%nat then rk
  else
    let rk := key_xor o 10 4 9 rk in
    key_xor o 11 5 10 rk.

(** aes.c:5509-5545, [AesSetKey_C]: pass [i] of the loop for 32-byte keys. *)
Definition key_pass32 (rk : list Z) (i : nat) : list Z :=
  let o := (8 * i)%nat in
  let temp := rk !!! (o + 7)%nat in
  let rk := <[(o + 8)%nat := rk !!! o ⊕ key_rot_sub temp ⊕ rcon !!! i]> rk in
  let rk := key_xor o 9 1 8 rk in
  let rk := key_xor o 10 2 9 rk in
  let rk := key_xor o 11 3 10 rk in
  if (i =? 6)%nat then rk
  else
    let temp := rk !!! (o + 11)%nat in
    let rk := <[(o + 12)%nat := rk !!! (o + 4)%nat ⊕ key_sub temp]> rk in
    let rk := key_xor o 13 5 12 rk in
    let rk := key_xor o 14 6 13 rk in
    key_xor o 15 7 14 rk.

(** aes.c:5564-5567, [AesSetKey_C]: the round keys at [i] and [j] swapped. *)
Definition key_swap (rk : list Z) (i j : nat) : list Z :=
  foldl (fun rk c => <[(j + c)%nat := rk !!! (i + c)%nat]> (<[(i + c)%nat := rk !!! (j + c)%nat]> rk))
    rk (seq 0 4).

(** aes.c:5563-5568, [AesSetKey_C]: the order of the round keys reversed; the
    loop ends when [4 * k >= 4 * (rounds - k)]. *)
Definition key_reverse (rounds : nat) (rk : list Z) : list Z :=
  foldl (fun rk k => key_swap rk (4 * k) (4 * (rounds - k))) rk (seq 0 ((rounds + 1) / 2)).

(** aes.c:5575-5594, [AesSetKey_C]: the inverse column mix of a round key word. *)
Definition key_inv_mix (w : Z) : Z :=
  let sub y := Z.land (GetTable Te1 (GETBYTE w y)) 0xff in
  GetTable Td0 (sub 3) ⊕ GetTable Td1 (sub 2) ⊕ GetTable Td2 (sub 1) ⊕ GetTable Td3 (sub 0).

(** aes.c:5553-5595, [AesSetKey_C]: the schedule turned round for decryption. *)
Definition key_decrypt (n : nat) (rk : list Z) : list Z :=
  let rk := key_reverse n rk in
  take 4 rk ++ map key_inv_mix (take (4 * (n - 1)) (drop 4 rk)) ++ drop (4 * n) rk.

(** aes.c:5385-5607, [AesSetKey_C] *)
Definition AesSetKey_C (aes : Aes) (key : bytes) (keySz dir : Z) : Aes :=
  let words := map (fun w => ByteReverseWord32 (le_combine w)) (group 4 (Z.to_nat (keySz / 4)) key) in
  let rk := splice (aes_key aes) 0 words in
  let rk := if keySz =? 16 then foldl key_pass16 rk (seq 0 10)
            else if keySz =? 24 then foldl key_pass24 rk (seq 0 8)
            else if keySz =? 32 then foldl key_pass32 rk (seq 0 7)
            else rk in
  let n := Z.to_nat (aes_rounds aes) in
  let rk := if dir =? AES_DECRYPTION then key_decrypt n rk else rk in
  set_aes_key rk aes.

(** aes.c:6189-6236, [wc_AesSetIV] *)
Definition wc_AesSetIV (aes : Aes) (iv : option bytes) : Z * Aes :=
  let reg := match iv with
             | Some iv => take 16 iv
             | None => zeros WC_AES_BLOCK_SIZE
             end in
  (0, set_aes_size (aes_rounds aes) (aes_keylen aes) reg aes).

(** aes.c:5655-6133, [AesSetKeyLocal_body]; its later tests of [keylen] against
    the sizes of [devKey] and [key] are decided by the first one, and the copy of
    the key into [aes->key] is made again by [AesSetKey_C]. *)
Definition AesSetKeyLocal_body (aes : Aes) (userKey : bytes) (keylen : Z) (iv : option bytes) (dir : Z)
    : Z * Aes :=
  if negb ((keylen =? 16) || (keylen =? 24) || (keylen =? 32)) then (BAD_FUNC_ARG, aes)
  else
    let aes := if negb (aes_devId aes =? INVALID_DEVID)
               then set_aes_dev (aes_gcm_H aes) (splice (aes_devKey aes) 0 (sub userKey 0 keylen))
                      (aes_keyInstalled aes) aes
               else aes in
    let aes := set_aes_size (keylen / 4 + 6) keylen (aes_reg aes) aes in
    let '(ret, aes) := wc_AesSetIV aes iv in
    if negb (ret =? 0) then (ret, aes)
    else (ret, AesSetKey_C aes userKey keylen dir).

(** aes.c:5639-5653, [wc_AesSetKeyLocal] *)
Definition wc_AesSetKeyLocal (aes : Aes) (userKey : bytes) (keylen : Z) (iv : option bytes) (dir : Z)
    : Z * Aes :=
  let aes := set_aes_dev (aes_gcm_H aes) (aes_devKey aes) false aes in
  let '(ret, aes) := AesSetKeyLocal_body aes userKey keylen iv dir in
  (ret, set_aes_dev (aes_gcm_H aes) (aes_devKey aes) (ret =? 0) aes).

(** aes.c:6135-6167, [wc_AesSetKey] *)
Definition wc_AesSetKey (aes : Aes) (userKey : bytes) (keylen : Z) (iv : option bytes) (dir : Z)
    : Z * Aes :=
  if 4 * 60 <? keylen then (BAD_FUNC_ARG, aes) else wc_AesSetKeyLocal aes userKey keylen iv dir.

(** The object after [memset(aes, 0, sizeof)] or [ForceZero]. *)
Definition aes_zero : Aes :=
  {| aes_key := replicate 60 0; aes_rounds := 0; aes_keylen := 0; aes_reg := zeros 16;
     aes_tmp := zeros 16; aes_invokeCtr := (0, 0); aes_nonceSz := 0; aes_gcm_H := zeros 16;
     aes_devId := 0; aes_devCtx := 0; aes_devKey := zeros 32; aes_keyInstalled := false |}.

(** aes.c:16157-16202, [wc_AesInit] *)
Definition wc_AesInit (devId : Z) : Z * Aes :=
  (0, {| aes_key := aes_key aes_zero; aes_rounds := 0; aes_keylen := 0; aes_reg := zeros 16;
         aes_tmp := zeros 16; aes_invokeCtr := (0, 0); aes_nonceSz := 0; aes_gcm_H := zeros 16;
         aes_devId := devId; aes_devCtx := 0; aes_devKey := zeros 32; aes_keyInstalled := false |}).

(** aes.c:16254-16358, [wc_AesFree] *)
Definition wc_AesFree (aes : Aes) : Aes := aes_zero.

(** aes.c:16360-16397, [wc_AesGetKeySize] *)
Definition wc_AesGetKeySize (aes : Aes) : Z * Z :=
  if aes_rounds aes =? 10 then (0, 16)
  else if aes_rounds aes =? 12 then (0, 24)
  else if aes_rounds aes =? 14 then (0, 32)
  else (BAD_FUNC_ARG, 0).

(** ** FIPS 197 *)

Module Fips197.

(** Multiplication by [x] in GF(2^8). *)
Definition xtime (a : Z) : Z := if a <? 128 then 2 * a else (2 * a) ⊕ 0x11b.

Definition gmul (a b : Z) : Z :=
  (foldl (fun '(acc, a) i => (if Z.testbit b (Z.of_nat i) then acc ⊕ a else acc, xtime a))
     (0, a) (seq 0 8)).1.

(** The inverse, with 0 sent to 0: the power 254. *)
Definition ginv (a : Z) : Z := Nat.iter 254 (gmul a) 1.

Definition rotl8 (x : Z) (n : Z) : Z := w8 (Z.lor (Z.shiftl x n) (Z.shiftr x (8 - n))).

Definition sbox (a : Z) : Z :=
  let b := ginv a in b ⊕ rotl8 b 1 ⊕ rotl8 b 2 ⊕ rotl8 b 3 ⊕ rotl8 b 4 ⊕ 0x63.

(** The state is the block, column by column. *)
Definition SubBytes (st : bytes) : bytes := map sbox st.

Definition ShiftRows (st : bytes) : bytes :=
  map (fun i => st !!! ((i + 4 * (i mod 4)) mod 16)%nat) (seq 0 16).

Definition MixColumn (c : bytes) : bytes :=
  match c with
  | [a; b; c; d] =>
    [xtime a ⊕ (xtime b ⊕ b) ⊕ c ⊕ d; a ⊕ xtime b ⊕ (xtime c ⊕ c) ⊕ d;
     a ⊕ b ⊕ xtime c ⊕ (xtime d ⊕ d); (xtime a ⊕ a) ⊕ b ⊕ c ⊕ xtime d]
  | _ => c
  end.

Definition MixColumns (st : bytes) : bytes := flat_map MixColumn (group 4 4 st).

Definition AddRoundKey (w : list Z) (st : bytes) : bytes :=
  xorb_list st (flat_map (be_split 4) w).

Definition round_key (w : list Z) (i : nat) : list Z := take 4 (drop (4 * i) w).

Definition Round (w : list Z) (st : bytes) (i : nat) : bytes :=
  AddRoundKey (round_key w i) (MixColumns (ShiftRows (SubBytes st))).

Definition Cipher (Nr : nat) (w : list Z) (st : bytes) : bytes :=
  let st := AddRoundKey (round_key w 0) st in
  let st := foldl (Round w) st (seq 1 (Nr - 1)) in
  AddRoundKey (round_key w Nr) (ShiftRows (SubBytes st)).

(** Key expansion *)

Definition SubWord (x : Z) : Z := be_combine (map sbox (be_split 4 x)).

Definition RotWord (x : Z) : Z :=
  match be_split 4 x with
  | [a; b; c; d] => be_combine [b; c; d; a]
  | _ => x
  end.

Definition Rcon (i : nat) : Z := Z.shiftl (Nat.iter (i - 1) xtime 1) 24.

Definition next_word (Nk : nat) (w : list Z) : Z :=
  let i := length w in
  let temp := w !!! (i - 1)%nat in
  let temp := if (i mod Nk =? 0)%nat then SubWord (RotWord temp) ⊕ Rcon (i / Nk)
              else if ((6 <? Nk) && (i mod Nk =? 4))%nat then SubWord temp
              else temp in
  w !!! (i - Nk)%nat ⊕ temp.

Definition KeyExpansion (key : bytes) : list Z :=
  let Nk := (length key / 4)%nat in
  Nat.iter (4 * (Nk + 7) - Nk) (fun w => w ++ [next_word Nk w]) (map be_combine (group 4 Nk key)).

Definition Nr (key : bytes) : nat := length key / 4 + 6.

Definition AES (key block : bytes) : bytes := Cipher (Nr key) (KeyExpansion key) block.

End Fips197.

#[global] Arguments Fips197.AES : simpl never.
#[global] Arguments Fips197.sbox : simpl never.
#[global] Arguments Fips197.xtime : simpl never.

Import Fips197.

(** ** The tables *)

(** What the entries at [x] are, and what the masks leave of them. *)
Definition table_entry_ok (x : Z) : bool :=
  let S := sbox x in let S2 := xtime S in let S3 := S2 ⊕ S in
  (0 <=? S) && (S <? 256) && (0 <=? S2) && (S2 <? 256) &&
  (GetTable Te0 x =? be_combine [S2; S; S; S3]) && (GetTable Te1 x =? be_combine [S3; S2; S; S]) &&
  (GetTable Te2 x =? be_combine [S; S3; S2; S]) && (GetTable Te3 x =? be_combine [S; S; S3; S2]) &&
  (Z.land (GetTable Te2 x) 0xff000000 =? be_combine [S; 0; 0; 0]) &&
  (Z.land (GetTable Te3 x) 0x00ff0000 =? be_combine [0; S; 0; 0]) &&
  (Z.land (GetTable Te0 x) 0x0000ff00 =? be_combine [0; 0; S; 0]) &&
  (Z.land (GetTable Te1 x) 0x000000ff =? be_combine [0; 0; 0; S]).

Lemma table_entries x : 0 <= x < 256 -> table_entry_ok x = true.
Proof.
  intros Hx.
  assert (forallb (fun n => table_entry_ok (Z.of_nat n)) (seq 0 256) = true) as Hall by (vm_compute; reflexivity).
  rewrite forallb_forall in Hall.
  specialize (Hall (Z.to_nat x)). rewrite Z2Nat.id in Hall by lia.
  apply Hall, in_seq. lia.
Qed.

Ltac pick_entries :=
  cbv zeta in *; repeat match goal with |- _ /\ _ => split end;
  match goal with
  | E : GetTable ?t ?x = _ |- GetTable ?t ?x = _ => exact E
  | E : Z.land (GetTable ?t ?x) ?m = _ |- Z.land (GetTable ?t ?x) ?m = _ => exact E
  end.

Section Entries.
#[local] Opaque GetTable sbox xtime be_combine Z.land Z.lxor Z.eqb Z.ltb Z.leb andb.
Context (x : Z) (Hx : 0 <= x < 256).

Lemma sbox_byte : 0 <= sbox x < 256.
Proof. pose proof (table_entries x Hx) as He. unfold table_entry_ok in He. bool_to_prop. split; assumption. Qed.

Lemma xtime_byte : 0 <= xtime (sbox x) < 256.
Proof. pose proof (table_entries x Hx) as He. unfold table_entry_ok in He. bool_to_prop. split; assumption. Qed.

Lemma Te_entries :
  let S := sbox x in let S2 := xtime S in let S3 := S2 ⊕ S in
  GetTable Te0 x = be_combine [S2; S; S; S3] /\ GetTable Te1 x = be_combine [S3; S2; S; S] /\
  GetTable Te2 x = be_combine [S; S3; S2; S] /\ GetTable Te3 x = be_combine [S; S; S3; S2].
Proof. pose proof (table_entries x Hx) as He. unfold table_entry_ok in He. bool_to_prop. pick_entries. Qed.

Lemma Te_masked :
  let S := sbox x in
  Z.land (GetTable Te2 x) 0xff000000 = be_combine [S; 0; 0; 0] /\
  Z.land (GetTable Te3 x) 0x00ff0000 = be_combine [0; S; 0; 0] /\
  Z.land (GetTable Te0 x) 0x0000ff00 = be_combine [0; 0; S; 0] /\
  Z.land (GetTable Te1 x) 0x000000ff = be_combine [0; 0; 0; S].
Proof. pose proof (table_entries x Hx) as He. unfold table_entry_ok in He. bool_to_prop. pick_entries. Qed.

End Entries.

(** ** Rounds *)

Lemma GETBYTE_be a b c d :
  bytes_ok [a; b; c; d] ->
  GETBYTE (be_combine [a; b; c; d]) 3 = a /\ GETBYTE (be_combine [a; b; c; d]) 2 = b /\
  GETBYTE (be_combine [a; b; c; d]) 1 = c /\ GETBYTE (be_combine [a; b; c; d]) 0 = d.
Proof.
  intros Hok. split_bytes. unfold GETBYTE, be_combine. cbn [rev app].
  change (8 * 3) with (8 + 8 + 8). change (8 * 2) with (8 + 8). change (8 * 1) with 8. change (8 * 0) with 0.
  rewrite <-!Z.shiftr_shiftr, !shiftr_le_combine, Z.shiftr_0_r by lia.
  change (Z.land ?x 255) with (w8 x). rewrite !w8_le_combine by lia. auto.
Qed.

Lemma be_combine_xor4 a b c d a' b' c' d' :
  bytes_ok [a; b; c; d] -> bytes_ok [a'; b'; c'; d'] ->
  be_combine [a; b; c; d] ⊕ be_combine [a'; b'; c'; d'] = be_combine [a ⊕ a'; b ⊕ b'; c ⊕ c'; d ⊕ d'].
Proof. intros. symmetry. by apply (be_combine_xor [a; b; c; d] [a'; b'; c'; d']). Qed.

Lemma byte_xor a b : 0 <= a < 256 -> 0 <= b < 256 -> 0 <= a ⊕ b < 256.
Proof. apply (lxor_bound 8); lia. Qed.

(** The bytes of the tables' entries. *)
Lemma zero_byte : 0 <= 0 < 256.
Proof. lia. Qed.

Ltac sbytes :=
  repeat apply Forall_cons_2; try apply Forall_nil_2;
  repeat match goal with
  | |- 0 <= _ ⊕ _ < 256 => apply byte_xor
  | |- 0 <= xtime (sbox _) < 256 => apply xtime_byte
  | |- 0 <= sbox _ < 256 => apply sbox_byte
  | |- 0 <= 0 < 256 => exact zero_byte
  end; try assumption.

Definition is_word (w : Z) : Prop := 0 <= w < 2 ^ 32.

(** A word is its four bytes. *)
Lemma word_bytes w : is_word w -> exists a b c d, be_split 4 w = [a; b; c; d] /\
  bytes_ok [a; b; c; d] /\ w = be_combine [a; b; c; d].
Proof.
  intros Hw. pose proof (be_split_ok 4 w) as Hok. pose proof (be_combine_split 4 w) as Hc.
  rewrite Z.mod_small in Hc by (unfold is_word in Hw; lia).
  destruct (be_split 4 w) as [|a [|b [|c [|d [|]]]]] eqn:E;
    try (apply (f_equal length) in E; unfold be_split in E; by rewrite length_rev, le_split_length in E).
  eauto 10.
Qed.

Definition quad_of (st : bytes) : quad :=
  (be_combine (take 4 st), be_combine (take 4 (drop 4 st)),
   be_combine (take 4 (drop 8 st)), be_combine (take 4 (drop 12 st))).

Definition block_ok (st : bytes) : Prop := length st = 16%nat /\ bytes_ok st.

Lemma block_ok_inv st : block_ok st -> exists a0 a1 a2 a3 b0 b1 b2 b3 c0 c1 c2 c3 d0 d1 d2 d3,
  st = [a0; a1; a2; a3; b0; b1; b2; b3; c0; c1; c2; c3; d0; d1; d2; d3].
Proof.
  intros [Hl _].
  do 17 (destruct st as [|? st]; [simpl in Hl; try lia|]); [eauto 20|simpl in Hl; lia].
Qed.

Lemma col_Te a b c d :
  0 <= a < 256 -> 0 <= b < 256 -> 0 <= c < 256 -> 0 <= d < 256 ->
  GetTable Te0 a ⊕ GetTable Te1 b ⊕ GetTable Te2 c ⊕ GetTable Te3 d =
  be_combine (MixColumn [sbox a; sbox b; sbox c; sbox d]).
Proof.
  intros Ha Hb Hc Hd.
  rewrite (proj1 (Te_entries a Ha)), (proj1 (proj2 (Te_entries b Hb))),
    (proj1 (proj2 (proj2 (Te_entries c Hc)))), (proj2 (proj2 (proj2 (Te_entries d Hd)))).
  rewrite !be_combine_xor4 by sbytes. done.
Qed.

Lemma col_sbox a b c d :
  0 <= a < 256 -> 0 <= b < 256 -> 0 <= c < 256 -> 0 <= d < 256 ->
  Z.land (GetTable Te2 a) 0xff000000 ⊕ Z.land (GetTable Te3 b) 0x00ff0000 ⊕
  Z.land (GetTable Te0 c) 0x0000ff00 ⊕ Z.land (GetTable Te1 d) 0x000000ff =
  be_combine [sbox a; sbox b; sbox c; sbox d].
Proof.
  intros Ha Hb Hc Hd.
  rewrite (proj1 (Te_masked a Ha)), (proj1 (proj2 (Te_masked b Hb))),
    (proj1 (proj2 (proj2 (Te_masked c Hc)))), (proj2 (proj2 (proj2 (Te_masked d Hd)))).
  rewrite !be_combine_xor4 by sbytes. by rewrite ?Z.lxor_0_r, ?Z.lxor_0_l.
Qed.

(** A list of four elements, written out. *)
Ltac explicit4 l := do 4 (destruct l as [|? l]; [discriminate|]); destruct l; [|discriminate].

Lemma quad_xor (x y z t : bytes) k0 k1 k2 k3 :
  length x = 4%nat -> length y = 4%nat -> length z = 4%nat -> length t = 4%nat ->
  bytes_ok (x ++ y ++ z ++ t) -> Forall is_word [k0; k1; k2; k3] ->
  (be_combine x ⊕ k0, be_combine y ⊕ k1, be_combine z ⊕ k2, be_combine t ⊕ k3) =
  quad_of (AddRoundKey [k0; k1; k2; k3] (x ++ y ++ z ++ t)).
Proof.
  intros Hx Hy Hz Ht Hok Hk. rewrite !bytes_ok_app in Hok. destruct Hok as (Ox & Oy & Oz & Ot).
  assert (forall x k, length x = 4%nat -> bytes_ok x -> is_word k ->
            be_combine x ⊕ k = be_combine (xorb_list x (be_split 4 k))) as Hone.
  { clear. intros x k Hl Hok Hk. destruct (word_bytes k Hk) as (a & b & c & d & Es & Hb & Ek).
    rewrite Es, (be_combine_xor x [a; b; c; d]) by assumption. by rewrite <-Ek. }
  unfold AddRoundKey. cbn [flat_map]. rewrite app_nil_r.
  assert (forall k, length (be_split 4 k) = 4%nat) as Lk by done.
  unfold quad_of. inversion_clear Hk as [|? ? W0 Hk1]. inversion_clear Hk1 as [|? ? W1 Hk2].
  inversion_clear Hk2 as [|? ? W2 Hk3]. inversion_clear Hk3 as [|? ? W3 _].
  rewrite !Hone by assumption. clear Hone W0 W1 W2 W3 Ox Oy Oz Ot.
  pose proof (Lk k0) as L0. pose proof (Lk k1) as L1. pose proof (Lk k2) as L2. pose proof (Lk k3) as L3.
  generalize dependent (be_split 4 k0). generalize dependent (be_split 4 k1).
  generalize dependent (be_split 4 k2). generalize dependent (be_split 4 k3). clear Lk.
  intros u3 L3 u2 L2 u1 L1 u0 L0. explicit4 x. explicit4 y. explicit4 z. explicit4 t.
  explicit4 u0. explicit4 u1. explicit4 u2. explicit4 u3. done.
Qed.

Section Rounds.
Context (rk : list Z) (k : nat).
Hypothesis Hrk : Forall is_word (take 4 (drop k rk)).
Hypothesis Hlen : (k + 4 <= length rk)%nat.

Lemma round_words : take 4 (drop k rk) = [rk !!! k; rk !!! (k + 1)%nat; rk !!! (k + 2)%nat; rk !!! (k + 3)%nat].
Proof.
  assert (length (take 4 (drop k rk)) = 4%nat) as L by (rewrite length_take, length_drop; lia).
  apply (list_eq_same_length _ _ 4); [done|done|]. intros i x y Hi Hx Hy.
  rewrite lookup_take_lt, lookup_drop in Hx by done.
  do 4 (destruct i as [|i]; [cbn in Hy; injection Hy as <-; symmetry; apply list_lookup_total_correct;
    rewrite <-Hx; f_equal; lia|]). lia.
Qed.

Lemma ENC_ROUND_spec st : block_ok st ->
  ENC_ROUND rk k (quad_of st) =
  quad_of (AddRoundKey (take 4 (drop k rk)) (MixColumns (ShiftRows (SubBytes st)))).
Proof.
  intros Hst. pose proof (block_ok_inv st Hst) as Hex. destruct Hst as [_ Hok].
  destruct Hex as (a0 & a1 & a2 & a3 & b0 & b1 & b2 & b3 & c0 & c1 & c2 & c3 & d0 & d1 & d2 & d3 & ->).
  split_bytes. pose proof Hrk as Hw. rewrite round_words in Hw |- *. unfold ENC_ROUND, quad_of at 1. cbn [take drop].
  destruct (GETBYTE_be a0 a1 a2 a3) as (-> & -> & -> & ->); [solve_bytes|].
  destruct (GETBYTE_be b0 b1 b2 b3) as (-> & -> & -> & ->); [solve_bytes|].
  destruct (GETBYTE_be c0 c1 c2 c3) as (-> & -> & -> & ->); [solve_bytes|].
  destruct (GETBYTE_be d0 d1 d2 d3) as (-> & -> & -> & ->); [solve_bytes|].
  rewrite !col_Te by assumption. apply quad_xor; try reflexivity; [|exact Hw]. sbytes.
Qed.

Lemma ENC_LAST_spec st : block_ok st ->
  ENC_LAST rk k (quad_of st) = quad_of (AddRoundKey (take 4 (drop k rk)) (ShiftRows (SubBytes st))).
Proof.
  intros Hst. pose proof (block_ok_inv st Hst) as Hex. destruct Hst as [_ Hok].
  destruct Hex as (a0 & a1 & a2 & a3 & b0 & b1 & b2 & b3 & c0 & c1 & c2 & c3 & d0 & d1 & d2 & d3 & ->).
  split_bytes. pose proof Hrk as Hw. rewrite round_words in Hw |- *. unfold ENC_LAST, quad_of at 1. cbn [take drop].
  destruct (GETBYTE_be a0 a1 a2 a3) as (-> & -> & -> & ->); [solve_bytes|].
  destruct (GETBYTE_be b0 b1 b2 b3) as (-> & -> & -> & ->); [solve_bytes|].
  destruct (GETBYTE_be c0 c1 c2 c3) as (-> & -> & -> & ->); [solve_bytes|].
  destruct (GETBYTE_be d0 d1 d2 d3) as (-> & -> & -> & ->); [solve_bytes|].
  rewrite !col_sbox by assumption. apply quad_xor; try reflexivity; [|exact Hw]. sbytes.
Qed.

End Rounds.

(** ** Block encryption *)

Lemma ShiftRows_Sub_block st : block_ok st -> block_ok (ShiftRows (SubBytes st)).
Proof.
  intros Hst. pose proof (block_ok_inv st Hst) as Hex. destruct Hst as [_ Hok].
  destruct Hex as (a0 & a1 & a2 & a3 & b0 & b1 & b2 & b3 & c0 & c1 & c2 & c3 & d0 & d1 & d2 & d3 & ->).
  split_bytes. split; [reflexivity|]. cbv -[sbox xtime Z.lxor bytes_ok]. sbytes.
Qed.

Lemma MixColumns_block st : block_ok st -> block_ok (MixColumns (ShiftRows (SubBytes st))).
Proof.
  intros Hst. pose proof (block_ok_inv st Hst) as Hex. destruct Hst as [_ Hok].
  destruct Hex as (a0 & a1 & a2 & a3 & b0 & b1 & b2 & b3 & c0 & c1 & c2 & c3 & d0 & d1 & d2 & d3 & ->).
  split_bytes. split; [reflexivity|]. cbv -[sbox xtime Z.lxor bytes_ok]. sbytes.
Qed.

Lemma AddRoundKey_block w st : length w = 4%nat -> block_ok st -> block_ok (AddRoundKey w st).
Proof.
  intros Hw [Hl Hok]. explicit4 w. unfold AddRoundKey. split.
  - unfold xorb_list. rewrite length_zip_with, Hl. reflexivity.
  - apply bytes_ok_xorb; [done|]. cbn [flat_map]. rewrite !bytes_ok_app.
    repeat split; try apply be_split_ok. apply Forall_nil_2.
Qed.

Lemma ENC_STORE_quad st : block_ok st -> ENC_STORE (quad_of st) = st.
Proof.
  intros Hst. pose proof (block_ok_inv st Hst) as Hex. destruct Hst as [_ Hok].
  destruct Hex as (a0 & a1 & a2 & a3 & b0 & b1 & b2 & b3 & c0 & c1 & c2 & c3 & d0 & d1 & d2 & d3 & ->).
  split_bytes. unfold ENC_STORE, quad_of. cbn [take drop flat_map].
  assert (forall a b c d, bytes_ok [a; b; c; d] ->
    le_split 4 (ByteReverseWord32 (be_combine [a; b; c; d])) = [a; b; c; d]) as Hone.
  { intros a b c d Ho. change (be_combine [a; b; c; d]) with (le_combine [d; c; b; a]).
    rewrite ByteReverseWord32_le by (split_bytes; solve_bytes).
    change (be_combine [d; c; b; a]) with (le_combine [a; b; c; d]).
    by apply (le_split_combine [a; b; c; d]). }
  rewrite !Hone by solve_bytes. reflexivity.
Qed.

Section Block.
Context (rk : list Z) (Nr : nat).
Let w := take (4 * (Nr + 1)) rk.
Hypothesis Hw : Forall is_word w.
Hypothesis Hl : (4 * (Nr + 1) <= length rk)%nat.

Lemma round_key_prefix i : (i <= Nr)%nat -> round_key w i = take 4 (drop (4 * i) rk).
Proof.
  intros Hi. unfold round_key, w. rewrite skipn_firstn_comm, take_take. f_equal. lia.
Qed.

Lemma round_key_words i : (i <= Nr)%nat -> Forall is_word (take 4 (drop (4 * i) rk)).
Proof. intros Hi. rewrite <-round_key_prefix by done. unfold round_key. apply Forall_take, Forall_drop, Hw. Qed.

Lemma round_key_length i : (i <= Nr)%nat -> length (round_key w i) = 4%nat.
Proof. intros Hi. rewrite round_key_prefix by done. rewrite length_take, length_drop. lia. Qed.

Lemma Round_block st i : (i <= Nr)%nat -> block_ok st -> block_ok (Round w st i).
Proof. intros Hi Hst. apply AddRoundKey_block; [by apply round_key_length|]. by apply MixColumns_block. Qed.

Lemma ENC_ROUND_step k st i : k = (4 * i)%nat -> (i <= Nr)%nat -> block_ok st ->
  ENC_ROUND rk k (quad_of st) = quad_of (Round w st i).
Proof.
  intros -> Hi Hst. unfold Round. rewrite round_key_prefix by done.
  apply ENC_ROUND_spec; [by apply round_key_words|lia|done].
Qed.

Lemma ENC_LOAD_spec blk : block_ok blk -> ENC_LOAD rk blk = quad_of (AddRoundKey (round_key w 0) blk).
Proof.
  intros Hst. pose proof (block_ok_inv blk Hst) as Hex. destruct Hst as [_ Hok].
  destruct Hex as (a0 & a1 & a2 & a3 & b0 & b1 & b2 & b3 & c0 & c1 & c2 & c3 & d0 & d1 & d2 & d3 & ->).
  split_bytes. pose proof (round_key_words 0 ltac:(lia)) as Hk.
  rewrite round_key_prefix by lia. rewrite round_words in Hk |- * by lia.
  change (ENC_LOAD rk _) with
    (ByteReverseWord32 (le_combine [a0; a1; a2; a3]) ⊕ rk !!! 0%nat,
     ByteReverseWord32 (le_combine [b0; b1; b2; b3]) ⊕ rk !!! 1%nat,
     ByteReverseWord32 (le_combine [c0; c1; c2; c3]) ⊕ rk !!! 2%nat,
     ByteReverseWord32 (le_combine [d0; d1; d2; d3]) ⊕ rk !!! 3%nat).
  rewrite !ByteReverseWord32_le by solve_bytes.
  apply (quad_xor [a0; a1; a2; a3] [b0; b1; b2; b3] [c0; c1; c2; c3] [d0; d1; d2; d3]);
    try reflexivity; [solve_bytes|exact Hk].
Qed.

Lemma ENC_final k st : k = (4 * Nr)%nat -> block_ok st ->
  ENC_STORE (ENC_LAST rk k (quad_of st)) = AddRoundKey (round_key w Nr) (ShiftRows (SubBytes st)).
Proof.
  intros -> Hst. rewrite ENC_LAST_spec by (try lia; auto using round_key_words).
  rewrite round_key_prefix by lia. apply ENC_STORE_quad, AddRoundKey_block; [|by apply ShiftRows_Sub_block].
  rewrite <-round_key_prefix by lia. by apply round_key_length.
Qed.

End Block.

Lemma PreFetchTe_0 : PreFetchTe = 0.
Proof. reflexivity. Qed.

(** Rounds that compute [F] on blocks compute its iteration. *)
Lemma block_rounds_spec R (F : bytes -> nat -> bytes) (r : nat) st : (5 <= r <= 7)%nat ->
  (forall i st, (i < 2 * r)%nat -> block_ok st -> R (4 * i)%nat (quad_of st) = quad_of (F st i)) ->
  (forall i st, (i < 2 * r)%nat -> block_ok st -> block_ok (F st i)) -> block_ok st ->
  block_rounds R (Z.of_nat r) (quad_of st) = quad_of (foldl F st (seq 1 (2 * r - 1))) /\
  block_ok (foldl F st (seq 1 (2 * r - 1))).
Proof.
  intros Hr HR HF Hst.
  assert (Hk : forall k i st, k = (4 * i)%nat -> (i < 2 * r)%nat -> block_ok st -> R k (quad_of st) = quad_of (F st i))
    by (intros k i s ->; apply HR).
  split.
  2: { assert (forall l st, block_ok st -> Forall (fun i => i < 2 * r)%nat l -> block_ok (foldl F st l)) as Hfold.
       { induction l as [|i l IH]; intros s Hs Hi; [done|]. inversion_clear Hi. cbn [foldl]. auto. }
       apply Hfold; [done|]. apply list.Forall_forall. intros i Hi. apply elem_of_seq in Hi. lia. }
  unfold block_rounds. cbv zeta.
  rewrite (Hk _ 1%nat), (Hk _ 2%nat), (Hk _ 3%nat), (Hk _ 4%nat), (Hk _ 5%nat), (Hk _ 6%nat), (Hk _ 7%nat),
    (Hk _ 8%nat), (Hk _ 9%nat) by (lia || auto 20 with lia).
  assert (block_ok (foldl F st (seq 1 9))) as H9 by (cbn [seq foldl]; auto 20 with lia).
  change (F (F _ 8%nat) 9%nat) with (foldl F st (seq 1 9)).
  assert (forall n, (2 * r - 1 = 9 + n)%nat -> foldl F st (seq 1 (2 * r - 1)) =
    foldl F (foldl F st (seq 1 9)) (seq 10 n)) as Hsplit by (intros n ->; by rewrite seq_app, foldl_app).
  assert (r = 5 \/ r = 6 \/ r = 7)%nat as [Hr'|[Hr'|Hr']] by lia;
    [rewrite (Hsplit 0%nat) by lia|rewrite (Hsplit 2%nat) by lia|rewrite (Hsplit 4%nat) by lia];
    (generalize dependent (foldl F st (seq 1 9)); intros st9 H9 Hsplit); cbn [seq foldl].
  - by destruct (Z.ltb_spec 5 (Z.of_nat r)); [lia|].
  - destruct (Z.ltb_spec 5 (Z.of_nat r)); [|lia]. destruct (Z.ltb_spec 6 (Z.of_nat r)); [lia|].
    by rewrite (Hk _ 10%nat), (Hk _ 11%nat) by (lia || auto 20 with lia).
  - destruct (Z.ltb_spec 5 (Z.of_nat r)); [|lia]. destruct (Z.ltb_spec 6 (Z.of_nat r)); [|lia].
    by rewrite (Hk _ 10%nat), (Hk _ 11%nat), (Hk _ 12%nat), (Hk _ 13%nat) by (lia || auto 20 with lia).
Qed.

(** [r] counts pairs of rounds, as the code does. *)
Lemma AesEncrypt_C_spec aes blk (r : nat) prefetch :
  (5 <= r <= 7)%nat -> block_ok blk -> (4 * (2 * r + 1) <= length (aes_key aes))%nat ->
  Forall is_word (take (4 * (2 * r + 1)) (aes_key aes)) ->
  AesEncrypt_C aes blk (Z.of_nat r) prefetch =
  Cipher (2 * r) (take (4 * (2 * r + 1)) (aes_key aes)) blk.
Proof.
  intros Hr Hblk Hl Hw. set (rk := aes_key aes) in *. set (w := take (4 * (2 * r + 1)) rk) in *.
  unfold AesEncrypt_C. fold rk. rewrite (ENC_LOAD_spec rk (2 * r) Hw Hl blk Hblk). fold w.
  set (st0 := AddRoundKey (round_key w 0) blk).
  assert (block_ok st0) as H0 by (apply AddRoundKey_block; [apply round_key_length; [done|lia]|done]).
  replace (let '(s0, s1, s2, s3) := quad_of st0 in _) with
    (ENC_STORE (ENC_LAST rk (Z.to_nat (Z.of_nat r * 8)) (block_rounds (ENC_ROUND rk) (Z.of_nat r) (quad_of st0)))).
  2:{ unfold quad_of. rewrite PreFetchTe_0, Z.lor_0_r. by destruct (prefetch =? 0). }
  destruct (block_rounds_spec (ENC_ROUND rk) (Round w) r st0) as [-> Hst]; [done| | |done|].
  - intros. apply ENC_ROUND_step; done || lia.
  - intros. apply Round_block; done || lia.
  - apply ENC_final; [done|done|lia|done].
Qed.

(** ** Key expansion *)

Lemma rcon_Rcon i : (i < 10)%nat -> rcon !!! i = Rcon (S i).
Proof. intros Hi. do 10 (destruct i as [|i]; [reflexivity|]). lia. Qed.

Lemma key_rot_sub_spec x : is_word x -> key_rot_sub x = SubWord (RotWord x).
Proof.
  intros Hx. destruct (word_bytes x Hx) as (a & b & c & d & Es & Hok & Ex).
  unfold RotWord. rewrite Es. unfold key_rot_sub. rewrite Ex.
  destruct (GETBYTE_be a b c d Hok) as (-> & -> & -> & ->). split_bytes.
  rewrite col_sbox by assumption. unfold SubWord.
  change 4%nat with (length [b; c; d; a]). rewrite be_split_combine by solve_bytes. reflexivity.
Qed.

Lemma key_sub_spec x : is_word x -> key_sub x = SubWord x.
Proof.
  intros Hx. destruct (word_bytes x Hx) as (a & b & c & d & Es & Hok & Ex).
  unfold key_sub. rewrite Ex.
  destruct (GETBYTE_be a b c d Hok) as (-> & -> & -> & ->). split_bytes.
  rewrite col_sbox by assumption. unfold SubWord.
  change 4%nat with (length [a; b; c; d]). rewrite be_split_combine by solve_bytes. reflexivity.
Qed.

Lemma is_word_SubWord x : is_word (SubWord x).
Proof.
  unfold is_word, SubWord. apply (be_combine_range (map sbox (be_split 4 x))).
  pose proof (be_split_ok 4 x) as Hok. induction Hok; cbn; constructor; auto using sbox_byte.
Qed.

Lemma is_word_xor x y : is_word x -> is_word y -> is_word (x ⊕ y).
Proof. apply (lxor_bound 32); lia. Qed.

Lemma is_word_Rcon i : (i < 11)%nat -> is_word (Rcon i).
Proof. intros Hi. do 11 (destruct i as [|i]; [vm_compute; split; congruence|]). lia. Qed.

Section Schedule.
Context (Nk : nat) (w0 : list Z).
Hypothesis HNk : (0 < Nk)%nat.
Hypothesis Hw0 : length w0 = Nk.

Definition sched (n : nat) : list Z := Nat.iter n (fun w => w ++ [next_word Nk w]) w0.

Lemma sched_S n : sched (S n) = sched n ++ [next_word Nk (sched n)].
Proof. reflexivity. Qed.

Lemma length_sched n : length (sched n) = (Nk + n)%nat.
Proof. induction n as [|n IH]; [cbn; lia|]. rewrite sched_S, length_app, IH. cbn; lia. Qed.

(** [n] words have been added at the front of the array. *)
Definition expanded (n : nat) (rk : list Z) : Prop :=
  length rk = 60%nat /\ take (Nk + n) rk = sched n /\ Forall is_word (sched n).

Lemma expanded_lookup n rk i : expanded n rk -> (i < Nk + n)%nat ->
  sched n !!! i = rk !!! i /\ is_word (rk !!! i).
Proof.
  intros (Hl & Ht & Hw) Hi.
  assert (sched n !!! i = rk !!! i) as E by (rewrite <-Ht; apply lookup_total_take_lt; lia).
  split; [done|]. rewrite <-E. rewrite Forall_lookup in Hw. apply (Hw i).
  apply list_lookup_lookup_total_lt. rewrite length_sched. lia.
Qed.

Lemma expanded_insert n rk x : expanded n rk -> (Nk + n < 60)%nat -> is_word x ->
  x = next_word Nk (sched n) -> expanded (S n) (<[(Nk + n)%nat := x]> rk).
Proof.
  intros (Hl & Ht & Hw) Hn Hx E. subst x. split; [by rewrite length_insert|]. rewrite sched_S. split.
  - rewrite Nat.add_succ_r, (take_S_r _ _ (next_word Nk (sched n))).
    + rewrite take_insert_ge by lia. by rewrite Ht.
    + apply list_lookup_insert_eq. lia.
  - apply Forall_app. split; [done|]. by constructor.
Qed.

(** One assignment of the loops. *)
Lemma expanded_xor n rk o d a b : expanded n rk -> (Nk + n < 60)%nat ->
  (o + d = Nk + n)%nat -> (o + a = n)%nat -> (o + b = Nk + n - 1)%nat ->
  (n mod Nk <> 0)%nat -> ((6 < Nk)%nat -> (n mod Nk <> 4)%nat) ->
  expanded (S n) (key_xor o d a b rk).
Proof.
  intros He Hn E1 E2 E3 M0 M4. unfold key_xor. rewrite E1, E2, E3.
  destruct (expanded_lookup n rk n He ltac:(lia)) as [Ea Wa].
  destruct (expanded_lookup n rk (Nk + n - 1) He ltac:(lia)) as [Eb Wb].
  apply expanded_insert; [done|done|by apply is_word_xor|].
  unfold next_word. rewrite length_sched. replace (Nk + n - Nk)%nat with n by lia.
  rewrite Ea, Eb. replace ((Nk + n) mod Nk)%nat with (n mod Nk)%nat
    by (replace (Nk + n)%nat with (n + 1 * Nk)%nat by lia; by rewrite Nat.Div0.mod_add).
  rewrite (proj2 (Nat.eqb_neq _ _) M0).
  destruct (Nat.ltb_spec 6 Nk) as [H6|]; [|done]. cbn [andb]. by rewrite (proj2 (Nat.eqb_neq _ _) (M4 H6)).
Qed.

Lemma expanded_rot n rk i : expanded n rk -> (Nk + n < 60)%nat -> n = (Nk * i)%nat -> (i < 10)%nat ->
  expanded (S n) (<[(Nk + n)%nat := rk !!! n ⊕ key_rot_sub (rk !!! (Nk + n - 1)%nat) ⊕ rcon !!! i]> rk).
Proof.
  intros He Hn Ei Hi.
  destruct (expanded_lookup n rk n He ltac:(lia)) as [Ea Wa].
  destruct (expanded_lookup n rk (Nk + n - 1) He ltac:(lia)) as [Eb Wb].
  rewrite key_rot_sub_spec, rcon_Rcon by done.
  apply expanded_insert; [done|done| |].
  - apply is_word_xor; [apply is_word_xor; auto using is_word_SubWord|apply is_word_Rcon; lia].
  - unfold next_word. rewrite length_sched. replace (Nk + n - Nk)%nat with n by lia. rewrite Ea, Eb.
    replace (Nk + n)%nat with (S i * Nk)%nat by lia.
    rewrite Nat.Div0.mod_mul, Nat.div_mul by lia. cbn [Nat.eqb]. by rewrite Z.lxor_assoc.
Qed.

Lemma expanded_sub n rk : expanded n rk -> (Nk + n < 60)%nat -> (n mod Nk = 4)%nat -> (6 < Nk)%nat ->
  expanded (S n) (<[(Nk + n)%nat := rk !!! n ⊕ key_sub (rk !!! (Nk + n - 1)%nat)]> rk).
Proof.
  intros He Hn M4 H6.
  destruct (expanded_lookup n rk n He ltac:(lia)) as [Ea Wa].
  destruct (expanded_lookup n rk (Nk + n - 1) He ltac:(lia)) as [Eb Wb].
  rewrite key_sub_spec by done.
  apply expanded_insert; [done|done| |].
  - apply is_word_xor; auto using is_word_SubWord.
  - unfold next_word. rewrite length_sched. replace (Nk + n - Nk)%nat with n by lia. rewrite Ea, Eb.
    replace ((Nk + n) mod Nk)%nat with (n mod Nk)%nat
      by (replace (Nk + n)%nat with (n + 1 * Nk)%nat by lia; by rewrite Nat.Div0.mod_add).
    rewrite M4, (proj2 (Nat.ltb_lt _ _) H6). cbn [Nat.eqb andb]. reflexivity.
Qed.

End Schedule.

(** The loops: a pass adds a whole key's length of words, the last pass of the
    longer keys four. *)
Section Passes.
Context (w0 : list Z).

Lemma mod_offset Nk i c : (c < Nk)%nat -> ((Nk * i + c) mod Nk = c)%nat.
Proof. intros. rewrite Nat.add_comm, Nat.mul_comm, Nat.Div0.mod_add. by apply Nat.mod_small. Qed.

Section Xor.
Context (Nk : nat) (HNk : (0 < Nk)%nat) (Hw0 : length w0 = Nk).

(** The [c]-th word of pass [i]. *)
Lemma expanded_pass_xor i c rk d a b :
  expanded Nk w0 (Nk * i + c) rk -> (Nk + (Nk * i + c) < 60)%nat -> (0 < c < Nk)%nat ->
  (6 < Nk -> c <> 4)%nat -> (d = Nk + c)%nat -> a = c -> (b = Nk + c - 1)%nat ->
  expanded Nk w0 (Nk * i + S c) (key_xor (Nk * i) d a b rk).
Proof.
  intros He Hn Hc H4 -> -> ->. rewrite Nat.add_succ_r.
  apply expanded_xor; try lia; try done; rewrite mod_offset; lia.
Qed.

Lemma expanded_pass_rot i rk :
  expanded Nk w0 (Nk * i) rk -> (Nk + Nk * i < 60)%nat -> (i < 10)%nat ->
  expanded Nk w0 (Nk * i + 1)
    (<[(Nk * i + Nk)%nat := rk !!! (Nk * i)%nat ⊕ key_rot_sub (rk !!! (Nk * i + (Nk - 1))%nat) ⊕ rcon !!! i]> rk).
Proof.
  intros He Hn Hi. replace (Nk * i + Nk)%nat with (Nk + Nk * i)%nat by lia.
  replace (Nk * i + (Nk - 1))%nat with (Nk + Nk * i - 1)%nat by lia. rewrite Nat.add_1_r.
  by apply expanded_rot.
Qed.

End Xor.

Lemma key_pass16_spec i rk : length w0 = 4%nat -> (i < 10)%nat ->
  expanded 4 w0 (4 * i) rk -> expanded 4 w0 (4 * S i) (key_pass16 rk i).
Proof.
  intros Hw Hi He. replace (4 * S i)%nat with (4 * i + 4)%nat by lia. unfold key_pass16.
  do 3 (apply expanded_pass_xor; try lia). apply (expanded_pass_rot 4); try lia. done.
Qed.

Lemma key_pass24_spec i rk : length w0 = 6%nat -> (i < 8)%nat ->
  expanded 6 w0 (6 * i) rk -> expanded 6 w0 (if (i =? 7)%nat then 46 else 6 * S i) (key_pass24 rk i).
Proof.
  intros Hw Hi He.
  pose proof (expanded_pass_rot 6 ltac:(lia) Hw i rk He ltac:(lia) ltac:(lia)) as H1.
  unfold key_pass24. destruct (Nat.eqb_spec i 7) as [->|Hne].
  - change 46%nat with (6 * 7 + 4)%nat. do 3 (apply expanded_pass_xor; try lia). exact H1.
  - replace (6 * S i)%nat with (6 * i + 6)%nat by lia. do 5 (apply expanded_pass_xor; try lia). exact H1.
Qed.

Lemma key_pass32_spec i rk : length w0 = 8%nat -> (i < 7)%nat ->
  expanded 8 w0 (8 * i) rk -> expanded 8 w0 (if (i =? 6)%nat then 52 else 8 * S i) (key_pass32 rk i).
Proof.
  intros Hw Hi He.
  pose proof (expanded_pass_rot 8 ltac:(lia) Hw i rk He ltac:(lia) ltac:(lia)) as H1.
  unfold key_pass32. destruct (Nat.eqb_spec i 6) as [->|Hne].
  - change 52%nat with (8 * 6 + 4)%nat. do 3 (apply expanded_pass_xor; try lia). exact H1.
  - replace (8 * S i)%nat with (8 * i + 8)%nat by lia. do 3 (apply expanded_pass_xor; try lia).
    set (rk4 := key_xor _ 11 3 10 _).
    assert (expanded 8 w0 (8 * i + 4) rk4) as H4 by (do 3 (apply expanded_pass_xor; try lia); exact H1).
    pose proof (expanded_sub 8 w0 ltac:(lia) Hw (8 * i + 4) rk4 H4 ltac:(lia) (mod_offset 8 i 4 ltac:(lia)) ltac:(lia)) as H5.
    rewrite <-Nat.add_succ_r in H5. replace (8 + (8 * i + 4))%nat with (8 * i + 12)%nat in H5 by lia.
    replace (8 * i + 12 - 1)%nat with (8 * i + 11)%nat in H5 by lia. exact H5.
Qed.

End Passes.

Definition key_size (n : Z) : Prop := n = 16 \/ n = 24 \/ n = 32.

(** The object holds the expanded encryption key of [key]. *)
Definition aes_keyed (key : bytes) (a : Aes) : Prop :=
  key_size (len key) /\ bytes_ok key /\ aes_rounds a = len key / 4 + 6 /\ length (aes_key a) = 60%nat /\
  take (4 * (Nr key + 1)) (aes_key a) = KeyExpansion key /\ Forall is_word (KeyExpansion key).

Lemma key_words key : bytes_ok key -> forall n,
  (4 * n <= length key)%nat ->
  map (fun w => ByteReverseWord32 (le_combine w)) (group 4 n key) = map be_combine (group 4 n key) /\
  Forall is_word (map be_combine (group 4 n key)) /\ length (map be_combine (group 4 n key)) = n.
Proof.
  intros Hok n. revert key Hok. induction n as [|n IH]; intros key Hok Hl; [by repeat constructor|].
  cbn [group map length]. destruct (IH (drop 4 key)) as (E & W & L); [auto with wf|rewrite length_drop; lia|].
  rewrite E, L. do 4 (destruct key as [|? key]; [cbn in Hl; lia|]). cbn [take].
  assert (bytes_ok (take 4 (z :: z0 :: z1 :: z2 :: key))) as H4 by auto with wf. cbn [take] in H4.
  rewrite ByteReverseWord32_le by done. split; [done|]. split; [|done]. constructor; [|done].
  by apply (be_combine_range [z; z0; z1; z2]).
Qed.

Lemma foldl_seq_ind {A} (P : nat -> A -> Prop) f a n :
  P 0%nat a -> (forall i x, (i < n)%nat -> P i x -> P (S i) (f x i)) -> P n (foldl f a (seq 0 n)).
Proof.
  induction n as [|n IH]; intros H0 HS; [done|].
  rewrite seq_S, foldl_app. cbn. apply HS; [lia|]. apply IH; auto.
Qed.

Lemma expanded_init key rk n : bytes_ok key -> (4 * n <= length key)%nat -> (n <= 60)%nat ->
  length rk = 60%nat ->
  let w0 := map be_combine (group 4 n key) in expanded n w0 0 (splice rk 0 w0).
Proof.
  intros Hok Hle Hn Hrk w0. destruct (key_words key Hok n Hle) as (_ & Hw & Hl). fold w0 in Hw, Hl.
  split; [rewrite length_splice; unfold len; lia|]. unfold splice. cbn [Z.to_nat].
  rewrite take_0, app_nil_l, Nat.add_0_r. split; [|done].
  rewrite <-Hl at 1. by rewrite take_app_length.
Qed.

Definition key_loops (n : Z) (rk : list Z) : list Z :=
  if n =? 16 then foldl key_pass16 rk (seq 0 10)
  else if n =? 24 then foldl key_pass24 rk (seq 0 8)
  else if n =? 32 then foldl key_pass32 rk (seq 0 7) else rk.

Lemma expansion_loops key rk : key_size (len key) -> bytes_ok key -> length rk = 60%nat ->
  let Nk := (length key / 4)%nat in
  let w0 := map be_combine (group 4 Nk key) in
  expanded Nk w0 (4 * (Nk + 7) - Nk) (key_loops (len key) (splice rk 0 w0)).
Proof.
  intros Hsz Hok Hrk Nk w0.
  assert (length key = 16 \/ length key = 24 \/ length key = 32)%nat as Hl by (unfold key_size, len in Hsz; lia).
  clear Hsz. unfold key_loops. destruct Hl as [Hl|[Hl|Hl]];
    (unfold len; rewrite Hl; cbn [Z.of_nat Z.eqb Pos.of_succ_nat Pos.succ Pos.eqb]); unfold w0, Nk; rewrite Hl.
  - destruct (key_words key Hok 4 ltac:(lia)) as (_ & Hw & Hlw). change (16 / 4)%nat with 4%nat.
    change (4 * (4 + 7) - 4)%nat with (4 * 10)%nat.
    apply (foldl_seq_ind (fun i => expanded 4 _ (4 * i))); [apply expanded_init; lia || done|].
    intros i x Hi. by apply key_pass16_spec.
  - destruct (key_words key Hok 6 ltac:(lia)) as (_ & Hw & Hlw). change (24 / 4)%nat with 6%nat.
    change (4 * (6 + 7) - 6)%nat with 46%nat. rewrite (seq_S 7 0), foldl_app. cbn [foldl Nat.add].
    apply (key_pass24_spec _ 7); [done|lia|].
    apply (foldl_seq_ind (fun i => expanded 6 _ (6 * i))); [apply expanded_init; lia || done|].
    intros i x Hi He. pose proof (key_pass24_spec _ i x Hlw ltac:(lia) He) as Hp.
    by rewrite (proj2 (Nat.eqb_neq i 7)) in Hp by lia.
  - destruct (key_words key Hok 8 ltac:(lia)) as (_ & Hw & Hlw). change (32 / 4)%nat with 8%nat.
    change (4 * (8 + 7) - 8)%nat with 52%nat. rewrite (seq_S 6 0), foldl_app. cbn [foldl Nat.add].
    apply (key_pass32_spec _ 6); [done|lia|].
    apply (foldl_seq_ind (fun i => expanded 8 _ (8 * i))); [apply expanded_init; lia || done|].
    intros i x Hi He. pose proof (key_pass32_spec _ i x Hlw ltac:(lia) He) as Hp.
    by rewrite (proj2 (Nat.eqb_neq i 6)) in Hp by lia.
Qed.

Lemma KeyExpansion_sched key :
  KeyExpansion key =
  sched (length key / 4) (map be_combine (group 4 (length key / 4) key)) (4 * (length key / 4 + 7) - length key / 4).
Proof. reflexivity. Qed.

Lemma nat_len_div4 (key : bytes) : Z.to_nat (len key / 4) = (length key / 4)%nat.
Proof. unfold len. rewrite <-(Nat2Z.id (length key / 4)). f_equal. by rewrite Nat2Z.inj_div. Qed.

Lemma AesSetKey_C_spec aes key :
  key_size (len key) -> bytes_ok key -> length (aes_key aes) = 60%nat ->
  aes_rounds aes = len key / 4 + 6 ->
  aes_keyed key (AesSetKey_C aes key (len key) AES_ENCRYPTION).
Proof.
  intros Hsz Hok Hl Hr. unfold AesSetKey_C. cbn [Z.eqb].
  rewrite nat_len_div4.
  destruct (key_words key Hok (length key / 4)) as (-> & _ & _); [apply Nat.Div0.mul_div_le|].
  destruct (expansion_loops key (aes_key aes) Hsz Hok Hl) as (H1 & H2 & H3). unfold key_loops in H1, H2.
  set (Nk := (length key / 4)%nat) in *.
  assert (Nk + (4 * (Nk + 7) - Nk) = 4 * (Nr key + 1))%nat as E by (unfold Nr; fold Nk; lia).
  rewrite E in H2. pose proof (KeyExpansion_sched key) as Ek. fold Nk in Ek. rewrite <-Ek in H2, H3.
  repeat split; done.
Qed.

(** Setting a key for encryption: the object holds the key's expansion, and the
    register is cleared or loaded. *)
Lemma wc_AesSetKeyLocal_spec aes key iv :
  key_size (len key) -> bytes_ok key -> length (aes_key aes) = 60%nat ->
  exists aes', wc_AesSetKeyLocal aes key (len key) iv AES_ENCRYPTION = (0, aes') /\
    aes_keyed key aes' /\ aes_keyInstalled aes' = true /\ aes_devId aes' = aes_devId aes /\
    aes_gcm_H aes' = aes_gcm_H aes.
Proof.
  intros Hsz Hok Hl. unfold wc_AesSetKeyLocal, AesSetKeyLocal_body.
  assert ((len key =? 16) || (len key =? 24) || (len key =? 32) = true) as ->
    by (rewrite !orb_true_iff, !Z.eqb_eq; unfold key_size in Hsz; tauto).
  cbn [negb wc_AesSetIV Z.eqb].
  match goal with |- context [AesSetKey_C ?a _ _ _] => set (aes0 := a) end.
  assert (aes_keyed key (AesSetKey_C aes0 key (len key) AES_ENCRYPTION)) as Hk.
  { apply AesSetKey_C_spec; [done|done| |reflexivity]. unfold aes0.
    destruct (negb _); done. }
  eexists. split; [reflexivity|]. split; [exact Hk|]. unfold aes0. by destruct (negb _).
Qed.

Lemma AES_block aes key blk : aes_keyed key aes -> block_ok blk -> block_ok (AES key blk).
Proof.
  intros (Hsz & Hok & Hr & Hl & Ht & Hw) Hblk. unfold AES, Cipher. rewrite <-Ht in *.
  assert (4 * (Nr key + 1) <= length (aes_key aes))%nat as Hn.
  { rewrite Hl. unfold Nr. destruct Hsz as [Hs|[Hs|Hs]]; unfold len in Hs;
      replace (length key) with (Z.to_nat (Z.of_nat (length key))) by lia; rewrite Hs; vm_compute; lia. }
  apply AddRoundKey_block; [apply round_key_length; [done|lia]|]. apply ShiftRows_Sub_block.
  assert (forall l st, block_ok st -> Forall (fun i => i <= Nr key)%nat l ->
    block_ok (foldl (Round (take (4 * (Nr key + 1)) (aes_key aes))) st l)) as Hfold.
  { induction l as [|i l IH]; intros st Hst Hi; [done|]. inversion_clear Hi. cbn [foldl].
    apply IH; [|done]. by apply Round_block. }
  apply Hfold; [apply AddRoundKey_block; [apply round_key_length; [done|lia]|done]|].
  apply list.Forall_forall. intros i Hi. apply elem_of_seq in Hi. lia.
Qed.

(** A block encrypted under the key. *)
Lemma AesEncrypt_spec aes key blk out always prefetch :
  aes_keyed key aes -> block_ok blk ->
  exists p, AesEncrypt_preFetchOpt aes blk out always prefetch = (0, AES key blk, p).
Proof.
  intros (Hsz & Hok & Hr & Hl & Ht & Hw) Hblk. unfold AesEncrypt_preFetchOpt. rewrite Hr.
  set (r := (length key / 8 + 3)%nat).
  assert (Z.shiftr (len key / 4 + 6) 1 = Z.of_nat r /\ (5 <= r <= 7)%nat /\ (2 * r)%nat = Nr key) as (-> & Hr2 & EN).
  { unfold r, Nr. destruct Hsz as [Hs|[Hs|Hs]]; rewrite Hs; unfold len in Hs;
      replace (length key) with (Z.to_nat (Z.of_nat (length key))) by lia; rewrite Hs; repeat split; vm_compute; lia. }
  destruct (Z.ltb_spec 7 (Z.of_nat r)); [lia|]. destruct (Z.eqb_spec (Z.of_nat r) 0); [lia|]. cbn [orb].
  assert (4 * (Nr key + 1) <= 60)%nat as H60 by lia. eexists.
  rewrite AesEncrypt_C_spec by (try rewrite EN; try rewrite Ht; done || lia). rewrite EN, Ht. reflexivity.
Qed.

(** C20. Setting a 16, 24 or 32 byte key and encrypting a block with the tables gives
    the AES of FIPS 197, with the key's size read back; any other size is refused
    and leaves the key schedule as it was. *)
Theorem aes_fips197 aes key blk out iv :
  length (aes_key aes) = 60%nat -> bytes_ok key -> block_ok blk -> 0 <= len key < 2 ^ 32 ->
  let '(ret, aes1) := wc_AesSetKey aes key (len key) iv AES_ENCRYPTION in
  (key_size (len key) -> ret = 0 /\ wc_AesGetKeySize aes1 = (0, len key) /\
     (AesEncrypt_preFetchOpt aes1 blk out true 0).1 = (0, AES key blk)) /\
  (~ key_size (len key) -> ret = BAD_FUNC_ARG /\ aes_key aes1 = aes_key aes).
Proof.
  intros Hl Hok Hblk Hsz. destruct (wc_AesSetKey _ _ _ _ _) as [ret aes1] eqn:E. unfold wc_AesSetKey in E.
  split; intros Hk.
  - destruct (Z.ltb_spec (4 * 60) (len key)); [unfold key_size in Hk; lia|].
    destruct (wc_AesSetKeyLocal_spec aes key iv Hk Hok Hl) as (aes' & E' & Hkeyed & _).
    rewrite E in E'. injection E' as -> ->. split; [done|]. split.
    + destruct Hkeyed as (_ & _ & Hr & _). unfold wc_AesGetKeySize. rewrite Hr.
      by destruct Hk as [-> | [-> | ->]].
    + destruct (AesEncrypt_spec aes' key blk out true 0 Hkeyed Hblk) as [p ->]. done.
  - destruct (Z.ltb_spec (4 * 60) (len key)); [by injection E as <- <-|].
    unfold wc_AesSetKeyLocal, AesSetKeyLocal_body in E.
    assert ((len key =? 16) || (len key =? 24) || (len key =? 32) = false) as En.
    { rewrite !orb_false_iff, !Z.eqb_neq. unfold key_size in Hk. tauto. }
    rewrite En in E. by injection E as <- <-.
Qed.

(** FIPS 197, appendix C.1. *)
Lemma aes_fips197_witness :
  let key := be_split 16 0x000102030405060708090a0b0c0d0e0f in
  let blk := be_split 16 0x00112233445566778899aabbccddeeff in
  let aes1 := (wc_AesSetKey (wc_AesInit 0).2 key 16 None AES_ENCRYPTION).2 in
  (AesEncrypt_preFetchOpt aes1 blk [] true 0).1 = (0, AES key blk) /\
  AES key blk = be_split 16 0x69c4e0d86a7b0430d8cdb78070b4c55a.
Proof.
  intros key blk aes1. split; [|vm_compute; reflexivity].
  pose proof (aes_fips197 (wc_AesInit 0).2 key blk [] None eq_refl (be_split_ok _ _)
    (conj eq_refl (be_split_ok _ _)) ltac:(vm_compute; split; congruence)) as Hw.
  change (len key) with 16 in Hw. unfold aes1. destruct (wc_AesSetKey _ _ _ _ _) as [ret a1].
  destruct (proj1 Hw (or_introl eq_refl)) as (_ & _ & Hc). exact Hc.
Defined.
