(* ===== verification/AesCbc.v ===== *)
(** * AesCbc: block decryption and CBC mode (aes.c)

    The inverse cipher with the tables [Td], on the key schedule that
    [AesSetKey_C] turns round for decryption, and cipher block chaining in both
    directions.  The references are the inverse cipher of FIPS 197 and the CBC
    mode of SP 800-38A; decryption undoes encryption for every key size. *)

From S2P Require Import Prelude Platform Types Misc CryptoCb AesTables Aes.

(** ** The code *)

(** aes.c:3734-3748, [PreFetchTd] *)
Definition PreFetchTd : Z :=
  foldl (fun x t => foldl (fun x j => Z.land x (GetTable t (16 * Z.of_nat j))) x (seq 0 16)) 0
    [Td0; Td1; Td2; Td3].

(** aes.c:3752-3766, [PreFetchTd4] *)
Definition PreFetchTd4 : Z :=
  foldl (fun x j => Z.land x (GetTable Td4 (64 * Z.of_nat j))) 0 (seq 0 4).

(** aes.c:3841-3858, [DEC_ROUND_T_S] and [DEC_ROUND_S_T]: one round with the round
    key at [k]. *)
Definition DEC_ROUND (rk : list Z) (k : nat) (s : quad) : quad :=
  let '(s0, s1, s2, s3) := s in
  let col a b c d := GetTable Td0 (GETBYTE a 3) ⊕ GetTable Td1 (GETBYTE b 2) ⊕
                     GetTable Td2 (GETBYTE c 1) ⊕ GetTable Td3 (GETBYTE d 0) in
  (col s0 s3 s2 s1 ⊕ rk !!! k, col s1 s0 s3 s2 ⊕ rk !!! (k + 1)%nat,
   col s2 s1 s0 s3 ⊕ rk !!! (k + 2)%nat, col s3 s2 s1 s0 ⊕ rk !!! (k + 3)%nat).

(** aes.c:2643-2645, [GetTable8_4] *)
Definition GetTable8_4 (t : list Z) (o0 o1 o2 o3 : Z) : Z :=
  Z.lor (Z.lor (Z.lor (Z.shiftl (GetTable t o0) 24) (Z.shiftl (GetTable t o1) 16))
           (Z.shiftl (GetTable t o2) 8)) (Z.shiftl (GetTable t o3) 0).

(** aes.c:3928-3935, [AesDecrypt_C]: the last round. *)
Definition DEC_LAST (rk : list Z) (k : nat) (t : quad) : quad :=
  let '(t0, t1, t2, t3) := t in
  let col a b c d := GetTable8_4 Td4 (GETBYTE a 3) (GETBYTE b 2) (GETBYTE c 1) (GETBYTE d 0) in
  (col t0 t3 t2 t1 ⊕ rk !!! k, col t1 t0 t3 t2 ⊕ rk !!! (k + 1)%nat,
   col t2 t1 t0 t3 ⊕ rk !!! (k + 2)%nat, col t3 t2 t1 t0 ⊕ rk !!! (k + 3)%nat).

(** aes.c:3782-4043, [AesDecrypt_C]; loading and storing the block are as in
    [AesEncrypt_C]. *)
Definition AesDecrypt_C (aes : Aes) (inBlock : bytes) (r : Z) (prefetch : Z) : bytes :=
  let rk := aes_key aes in
  let '(s0, s1, s2, s3) := ENC_LOAD rk inBlock in
  let s0 := if prefetch =? 0 then Z.lor s0 PreFetchTd else s0 in
  let '(t0, t1, t2, t3) := block_rounds (DEC_ROUND rk) r (s0, s1, s2, s3) in
  let t0 := if prefetch =? 0 then Z.lor t0 PreFetchTd4 else t0 in
  ENC_STORE (DEC_LAST rk (Z.to_nat (r * 8)) (t0, t1, t2, t3)).

(** aes.c:4422-4571, [AesDecrypt_preFetchOpt]: the code, the block written and the
    new value of the prefetch flag. *)
Definition AesDecrypt_preFetchOpt (aes : Aes) (inBlock outBlock : bytes) (always : bool) (prefetch : Z)
    : Z * bytes * Z :=
  let r := Z.shiftr (aes_rounds aes) 1 in
  if (7 <? r) || (r =? 0) then (KEYUSAGE_E, outBlock, prefetch)
  else (0, AesDecrypt_C aes inBlock r prefetch,
        if (prefetch =? 0) && negb always then 1 else prefetch).

Definition set_aes_reg (reg tmp : bytes) (a : Aes) : Aes :=
  {| aes_key := aes_key a; aes_rounds := aes_rounds a; aes_keylen := aes_keylen a; aes_reg := reg;
     aes_tmp := tmp; aes_invokeCtr := aes_invokeCtr a; aes_nonceSz := aes_nonceSz a;
     aes_gcm_H := aes_gcm_H a; aes_devId := aes_devId a; aes_devCtx := aes_devCtx a;
     aes_devKey := aes_devKey a; aes_keyInstalled := aes_keyInstalled a |}.

(** aes.c:7462-7473, [wc_AesCbcEncrypt]: the loop over the blocks, [in] and [out] at
    [off].  A block is read before its place in [out] is written, so the buffers may
    be the same. *)
Fixpoint cbc_enc_blocks (blocks : nat) (aes : Aes) (out inp : bytes) (off did_prefetches : Z) : M (Z * Aes * bytes) :=
  match blocks with
  | O => mret (0, aes, out)
  | S blocks =>
    b ← rd inp off WC_AES_BLOCK_SIZE;
    let aes := set_aes_reg (xorbuf (aes_reg aes) b WC_AES_BLOCK_SIZE) (aes_tmp aes) aes in
    let '(ret, reg, did_prefetches) := AesEncrypt_preFetchOpt aes (aes_reg aes) (aes_reg aes) false did_prefetches in
    let aes := set_aes_reg reg (aes_tmp aes) aes in
    if negb (ret =? 0) then mret (ret, aes, out)
    else
      out ← wr out off (sub reg 0 WC_AES_BLOCK_SIZE);
      cbc_enc_blocks blocks aes out inp (off + WC_AES_BLOCK_SIZE) did_prefetches
  end.

(** aes.c:7747-7758, [wc_AesCbcDecrypt]: the loop over the blocks. *)
Fixpoint cbc_dec_blocks (blocks : nat) (aes : Aes) (out inp : bytes) (off did_prefetches : Z) : M (Z * Aes * bytes) :=
  match blocks with
  | O => mret (0, aes, out)
  | S blocks =>
    b ← rd inp off WC_AES_BLOCK_SIZE;
    let aes := set_aes_reg (aes_reg aes) (splice (aes_tmp aes) 0 b) aes in
    o ← rd out off WC_AES_BLOCK_SIZE;
    let '(ret, o, did_prefetches) := AesDecrypt_preFetchOpt aes b o false did_prefetches in
    out ← wr out off o;
    if negb (ret =? 0) then mret (ret, aes, out)
    else
      out ← wr out off (xorbuf o (aes_reg aes) WC_AES_BLOCK_SIZE);
      let aes := set_aes_reg (splice (aes_reg aes) 0 (sub (aes_tmp aes) 0 WC_AES_BLOCK_SIZE)) (aes_tmp aes) aes in
      cbc_dec_blocks blocks aes out inp (off + WC_AES_BLOCK_SIZE) did_prefetches
  end.

Section Device.
Context `{!Callbacks}.

(** aes.c:7256-7482, [wc_AesCbcEncrypt]: the code, the object and [out]. *)
Definition wc_AesCbcEncrypt (aes : Aes) (out inp : option bytes) (sz : Z) : M (Z * Aes * option bytes) :=
  match out, inp with
  | Some o, Some i =>
    if sz =? 0 then mret (0, aes, out)
    else
      let blocks := sz / WC_AES_BLOCK_SIZE in
      '(crypto_cb_ret, (aes, o)) ←
        (if negb (aes_devId aes =? INVALID_DEVID) then wc_CryptoCb_AesCbcEncrypt aes o i sz
         else mret (CRYPTOCB_UNAVAILABLE, (aes, o)));
      if negb (crypto_cb_ret =? CRYPTOCB_UNAVAILABLE) then mret (crypto_cb_ret, aes, Some o)
      else if negb (aes_keyInstalled aes) then mret (MISSING_KEY, aes, Some o)
      else
        '(ret, aes, o) ← cbc_enc_blocks (Z.to_nat blocks) aes o i 0 0;
        mret (ret, aes, Some o)
  | _, _ => mret (BAD_FUNC_ARG, aes, out)
  end.

(** aes.c:7486-7769, [wc_AesCbcDecrypt]: the code, the object and [out]. *)
Definition wc_AesCbcDecrypt (aes : Aes) (out inp : option bytes) (sz : Z) : M (Z * Aes * option bytes) :=
  match out, inp with
  | Some o, Some i =>
    if sz =? 0 then mret (0, aes, out)
    else
      let blocks := sz / WC_AES_BLOCK_SIZE in
      if negb (sz mod WC_AES_BLOCK_SIZE =? 0) then mret (BAD_FUNC_ARG, aes, out)
      else
        '(crypto_cb_ret, (aes, o)) ←
          (if negb (aes_devId aes =? INVALID_DEVID) then wc_CryptoCb_AesCbcDecrypt aes o i sz
           else mret (CRYPTOCB_UNAVAILABLE, (aes, o)));
        if negb (crypto_cb_ret =? CRYPTOCB_UNAVAILABLE) then mret (crypto_cb_ret, aes, Some o)
        else if negb (aes_keyInstalled aes) then mret (MISSING_KEY, aes, Some o)
        else
          '(ret, aes, o) ← cbc_dec_blocks (Z.to_nat blocks) aes o i 0 0;
          mret (ret, aes, Some o)
  | _, _ => mret (BAD_FUNC_ARG, aes, out)
  end.

End Device.

(** ** FIPS 197: the inverse cipher *)

Module Inverse.
Import Fips197.

(** The inverse of the affine map, then of the field. *)
Definition invsbox (b : Z) : Z := ginv (rotl8 b 1 ⊕ rotl8 b 3 ⊕ rotl8 b 6 ⊕ 0x05).

Definition InvSubBytes (st : bytes) : bytes := map invsbox st.

Definition InvShiftRows (st : bytes) : bytes :=
  map (fun i => st !!! ((i + 12 * (i mod 4)) mod 16)%nat) (seq 0 16).

Definition InvMixColumn (c : bytes) : bytes :=
  match c with
  | [a; b; c; d] =>
    [gmul a 0x0e ⊕ gmul b 0x0b ⊕ gmul c 0x0d ⊕ gmul d 0x09; gmul a 0x09 ⊕ gmul b 0x0e ⊕ gmul c 0x0b ⊕ gmul d 0x0d;
     gmul a 0x0d ⊕ gmul b 0x09 ⊕ gmul c 0x0e ⊕ gmul d 0x0b; gmul a 0x0b ⊕ gmul b 0x0d ⊕ gmul c 0x09 ⊕ gmul d 0x0e]
  | _ => c
  end.

Definition InvMixColumns (st : bytes) : bytes := flat_map InvMixColumn (group 4 4 st).

Definition InvRound (w : list Z) (st : bytes) (i : nat) : bytes :=
  InvMixColumns (AddRoundKey (round_key w i) (InvSubBytes (InvShiftRows st))).

Definition InvCipher (Nr : nat) (w : list Z) (st : bytes) : bytes :=
  let st := AddRoundKey (round_key w Nr) st in
  let st := foldl (InvRound w) st (rev (seq 1 (Nr - 1))) in
  AddRoundKey (round_key w 0) (InvSubBytes (InvShiftRows st)).

(** The equivalent inverse cipher, with the key schedule [dw]. *)
Definition EqInvRound (dw : list Z) (st : bytes) (i : nat) : bytes :=
  AddRoundKey (round_key dw i) (InvMixColumns (InvSubBytes (InvShiftRows st))).

Definition EqInvCipher (Nr : nat) (dw : list Z) (st : bytes) : bytes :=
  let st := AddRoundKey (round_key dw 0) st in
  let st := foldl (EqInvRound dw) st (seq 1 (Nr - 1)) in
  AddRoundKey (round_key dw Nr) (InvSubBytes (InvShiftRows st)).

Definition AES_inv (key block : bytes) : bytes := InvCipher (Nr key) (KeyExpansion key) block.

End Inverse.

Import Fips197 Inverse.

#[global] Arguments Inverse.invsbox : simpl never.
#[global] Arguments Fips197.gmul : simpl never.

(** ** The tables *)

(** What the entries at [x] are. *)
Definition inv_entry_ok (x : Z) : bool :=
  let y := invsbox x in
  let ye := gmul y 0x0e in let y9 := gmul y 0x09 in let yd := gmul y 0x0d in let yb := gmul y 0x0b in
  byte_ok y && (invsbox (sbox x) =? x) && (GetTable Td4 x =? y) &&
  (GetTable Td0 x =? be_combine [ye; y9; yd; yb]) && (GetTable Td1 x =? be_combine [yb; ye; y9; yd]) &&
  (GetTable Td2 x =? be_combine [yd; yb; ye; y9]) && (GetTable Td3 x =? be_combine [y9; yd; yb; ye]).

Lemma inv_entries x : 0 <= x < 256 -> inv_entry_ok x = true.
Proof. revert x. apply (below_spec 256). vm_compute. reflexivity. Qed.

Lemma byte_ok_iff x : byte_ok x = true <-> 0 <= x < 256.
Proof. unfold byte_ok. rewrite andb_true_iff, Z.leb_le, Z.ltb_lt. done. Qed.

(** Multiples of a byte, by doubling. *)
Lemma gmul_bytes a : 0 <= a < 256 ->
  let a2 := xtime a in let a4 := xtime a2 in let a8 := xtime a4 in
  0 <= a2 < 256 /\ 0 <= a4 < 256 /\ 0 <= a8 < 256 /\
  gmul a 0x09 = a8 ⊕ a /\ gmul a 0x0b = a8 ⊕ a2 ⊕ a /\ gmul a 0x0d = a8 ⊕ a4 ⊕ a /\ gmul a 0x0e = a8 ⊕ a4 ⊕ a2.
Proof.
  intros Ha. assert (H : below 256 (fun a =>
    let a2 := xtime a in let a4 := xtime a2 in let a8 := xtime a4 in
    byte_ok a2 && byte_ok a4 && byte_ok a8 && (gmul a 0x09 =? a8 ⊕ a) && (gmul a 0x0b =? a8 ⊕ a2 ⊕ a) &&
    (gmul a 0x0d =? a8 ⊕ a4 ⊕ a) && (gmul a 0x0e =? a8 ⊕ a4 ⊕ a2)) = true) by (vm_compute; reflexivity).
  apply (below_spec _ _ H) in Ha. cbv zeta in *. rewrite !andb_true_iff, !byte_ok_iff, !Z.eqb_eq in Ha. tauto.
Qed.

Lemma xtime_xor a b : 0 <= a < 256 -> 0 <= b < 256 -> xtime (a ⊕ b) = xtime a ⊕ xtime b.
Proof.
  intros Ha Hb. assert (H : below 256 (fun a => below 256 (fun b => xtime (a ⊕ b) =? xtime a ⊕ xtime b)) = true)
    by (vm_compute; reflexivity).
  apply Z.eqb_eq. exact (below_spec _ _ (below_spec _ _ H a Ha) b Hb).
Qed.

Lemma gmul_byte a k : 0 <= a < 256 -> k = 0x09 \/ k = 0x0b \/ k = 0x0d \/ k = 0x0e -> 0 <= gmul a k < 256.
Proof.
  intros Ha Hk. destruct (gmul_bytes a Ha) as (H2 & H4 & H8 & E9 & Eb & Ed & Ee).
  destruct Hk as [->|[->|[->| ->]]]; rewrite ?E9, ?Eb, ?Ed, ?Ee; repeat apply byte_xor; done.
Qed.

Section Entries.
#[local] Opaque GetTable sbox invsbox xtime gmul be_combine Z.lxor Z.eqb Z.ltb Z.leb andb.
Context (x : Z) (Hx : 0 <= x < 256).

Lemma inv_entry :
  0 <= invsbox x < 256 /\ invsbox (sbox x) = x /\ GetTable Td4 x = invsbox x /\
  GetTable Td0 x = be_combine [gmul (invsbox x) 0x0e; gmul (invsbox x) 0x09; gmul (invsbox x) 0x0d; gmul (invsbox x) 0x0b] /\
  GetTable Td1 x = be_combine [gmul (invsbox x) 0x0b; gmul (invsbox x) 0x0e; gmul (invsbox x) 0x09; gmul (invsbox x) 0x0d] /\
  GetTable Td2 x = be_combine [gmul (invsbox x) 0x0d; gmul (invsbox x) 0x0b; gmul (invsbox x) 0x0e; gmul (invsbox x) 0x09] /\
  GetTable Td3 x = be_combine [gmul (invsbox x) 0x09; gmul (invsbox x) 0x0d; gmul (invsbox x) 0x0b; gmul (invsbox x) 0x0e].
Proof.
  pose proof (inv_entries x Hx) as H. unfold inv_entry_ok in H. cbv zeta in H.
  repeat match goal with H : _ && _ = true |- _ => apply andb_prop in H; destruct H end.
  repeat match goal with |- _ /\ _ => split end;
    first [apply Z.eqb_eq; assumption|apply byte_ok_iff; assumption].
Qed.

Lemma invsbox_byte : 0 <= invsbox x < 256.
Proof. apply inv_entry. Qed.

Lemma invsbox_sbox : invsbox (sbox x) = x.
Proof. apply inv_entry. Qed.

End Entries.

(** Equality of exclusive or of the same terms. *)
Ltac solve_xor := apply Z.bits_inj'; intros ? _; rewrite !Z.lxor_spec; btauto.

Ltac ibytes :=
  repeat apply Forall_cons_2; try apply Forall_nil_2;
  repeat match goal with
  | |- 0 <= _ ⊕ _ < 256 => apply byte_xor
  | |- 0 <= gmul _ _ < 256 => apply gmul_byte; [|auto]
  | |- 0 <= invsbox _ < 256 => apply invsbox_byte
  end; try assumption.

(** The four factors of the inverse column mix. *)
Definition inv_factor (k : Z) : Prop := k = 0x09 \/ k = 0x0b \/ k = 0x0d \/ k = 0x0e.

Lemma gmul_xor a b k : 0 <= a < 256 -> 0 <= b < 256 -> inv_factor k -> gmul (a ⊕ b) k = gmul a k ⊕ gmul b k.
Proof.
  intros Ha Hb Hk. destruct (gmul_bytes a Ha) as (A2 & A4 & _ & A9 & Ab & Ad & Ae).
  destruct (gmul_bytes b Hb) as (B2 & B4 & _ & B9 & Bb & Bd & Be).
  destruct (gmul_bytes (a ⊕ b) (byte_xor a b Ha Hb)) as (_ & _ & _ & C9 & Cb & Cd & Ce).
  rewrite !xtime_xor in C9, Cb, Cd, Ce by (repeat rewrite xtime_xor by done; try apply byte_xor; done).
  destruct Hk as [->|[->|[->| ->]]]; rewrite ?A9, ?Ab, ?Ad, ?Ae, ?B9, ?Bb, ?Bd, ?Be, ?C9, ?Cb, ?Cd, ?Ce; solve_xor.
Qed.

(** ** Columns *)

Lemma be_combine4 a b c d :
  be_combine [a; b; c; d] = Z.lor (Z.lor (Z.lor (Z.shiftl a 24) (Z.shiftl b 16)) (Z.shiftl c 8)) (Z.shiftl d 0).
Proof.
  unfold be_combine. cbn [rev app le_combine]. rewrite Z.shiftl_0_l, Z.lor_0_r, Z.shiftl_0_r.
  rewrite !Z.shiftl_lor, !Z.shiftl_shiftl by lia. change (8 + (8 + 8)) with 24. change (8 + 8) with 16.
  apply Z.bits_inj'. intros n _. rewrite !Z.lor_spec. btauto.
Qed.

(** Doubling keeps bytes. *)
Lemma xtime_range x : 0 <= x < 256 -> 0 <= xtime x < 256.
Proof. intros Hx. apply (gmul_bytes x Hx). Qed.

Ltac mix_side :=
  first [assumption|apply byte_xor; mix_side|apply xtime_range; mix_side|unfold inv_factor; tauto].

Section Columns.
#[local] Opaque GetTable sbox invsbox xtime gmul be_combine.
Context (a b c d : Z) (Ha : 0 <= a < 256) (Hb : 0 <= b < 256) (Hc : 0 <= c < 256) (Hd : 0 <= d < 256).

Lemma col_Td :
  GetTable Td0 a ⊕ GetTable Td1 b ⊕ GetTable Td2 c ⊕ GetTable Td3 d =
  be_combine (InvMixColumn [invsbox a; invsbox b; invsbox c; invsbox d]).
Proof.
  destruct (inv_entry a Ha) as (_ & _ & _ & -> & _). destruct (inv_entry b Hb) as (_ & _ & _ & _ & -> & _).
  destruct (inv_entry c Hc) as (_ & _ & _ & _ & _ & -> & _). destruct (inv_entry d Hd) as (_ & _ & _ & _ & _ & _ & ->).
  rewrite !be_combine_xor4 by ibytes. done.
Qed.

Lemma col_Td4 : GetTable8_4 Td4 a b c d = be_combine [invsbox a; invsbox b; invsbox c; invsbox d].
Proof.
  unfold GetTable8_4.
  destruct (inv_entry a Ha) as (_ & _ & -> & _). destruct (inv_entry b Hb) as (_ & _ & -> & _).
  destruct (inv_entry c Hc) as (_ & _ & -> & _). destruct (inv_entry d Hd) as (_ & _ & -> & _).
  symmetry. apply be_combine4.
Qed.

Lemma InvMix_Mix : InvMixColumn (MixColumn [a; b; c; d]) = [a; b; c; d].
Proof.
  destruct (gmul_bytes (xtime a) (xtime_range a Ha)) as (_ & _ & _ & A29 & A2b & A2d & A2e).
  destruct (gmul_bytes (xtime b) (xtime_range b Hb)) as (_ & _ & _ & B29 & B2b & B2d & B2e).
  destruct (gmul_bytes (xtime c) (xtime_range c Hc)) as (_ & _ & _ & C29 & C2b & C2d & C2e).
  destruct (gmul_bytes (xtime d) (xtime_range d Hd)) as (_ & _ & _ & D29 & D2b & D2d & D2e).
  destruct (gmul_bytes a Ha) as (_ & _ & _ & A9 & Ab & Ad & Ae).
  destruct (gmul_bytes b Hb) as (_ & _ & _ & B9 & Bb & Bd & Be).
  destruct (gmul_bytes c Hc) as (_ & _ & _ & C9 & Cb & Cd & Ce).
  destruct (gmul_bytes d Hd) as (_ & _ & _ & D9 & Db & Dd & De).
  unfold MixColumn, InvMixColumn. rewrite !gmul_xor by mix_side.
  rewrite A29, A2b, A2d, A2e, B29, B2b, B2d, B2e, C29, C2b, C2d, C2e, D29, D2b, D2d, D2e,
    A9, Ab, Ad, Ae, B9, Bb, Bd, Be, C9, Cb, Cd, Ce, D9, Db, Dd, De.
  repeat (apply (f_equal2 cons); [solve_xor|]). done.
Qed.
End Columns.

Lemma InvMix_xor a b c d a' b' c' d' : bytes_ok [a; b; c; d] -> bytes_ok [a'; b'; c'; d'] ->
  InvMixColumn [a ⊕ a'; b ⊕ b'; c ⊕ c'; d ⊕ d'] =
  xorb_list (InvMixColumn [a; b; c; d]) (InvMixColumn [a'; b'; c'; d']).
Proof.
  intros H H'. split_bytes. unfold InvMixColumn. rewrite !gmul_xor by mix_side. cbn [xorb_list zip_with].
  repeat (apply (f_equal2 cons); [solve_xor|]). done.
Qed.

(** ** Rounds *)

Section Rounds.
Context (rk : list Z) (k : nat).
Hypothesis Hrk : Forall is_word (take 4 (drop k rk)).
Hypothesis Hlen : (k + 4 <= length rk)%nat.

Lemma DEC_ROUND_spec st : block_ok st ->
  DEC_ROUND rk k (quad_of st) =
  quad_of (AddRoundKey (take 4 (drop k rk)) (InvMixColumns (InvSubBytes (InvShiftRows st)))).
Proof.
  intros Hst. pose proof (block_ok_inv st Hst) as Hex. destruct Hst as [_ Hok].
  destruct Hex as (a0 & a1 & a2 & a3 & b0 & b1 & b2 & b3 & c0 & c1 & c2 & c3 & d0 & d1 & d2 & d3 & ->).
  split_bytes. pose proof Hrk as Hw. rewrite round_words in Hw |- * by done. unfold DEC_ROUND, quad_of at 1. cbn [take drop].
  destruct (GETBYTE_be a0 a1 a2 a3) as (-> & -> & -> & ->); [solve_bytes|].
  destruct (GETBYTE_be b0 b1 b2 b3) as (-> & -> & -> & ->); [solve_bytes|].
  destruct (GETBYTE_be c0 c1 c2 c3) as (-> & -> & -> & ->); [solve_bytes|].
  destruct (GETBYTE_be d0 d1 d2 d3) as (-> & -> & -> & ->); [solve_bytes|].
  rewrite !col_Td by assumption. apply quad_xor; try reflexivity; [|exact Hw].
  unfold InvMixColumn. cbn [app]. ibytes.
Qed.

Lemma DEC_LAST_spec st : block_ok st ->
  DEC_LAST rk k (quad_of st) = quad_of (AddRoundKey (take 4 (drop k rk)) (InvSubBytes (InvShiftRows st))).
Proof.
  intros Hst. pose proof (block_ok_inv st Hst) as Hex. destruct Hst as [_ Hok].
  destruct Hex as (a0 & a1 & a2 & a3 & b0 & b1 & b2 & b3 & c0 & c1 & c2 & c3 & d0 & d1 & d2 & d3 & ->).
  split_bytes. pose proof Hrk as Hw. rewrite round_words in Hw |- * by done. unfold DEC_LAST, quad_of at 1. cbn [take drop].
  destruct (GETBYTE_be a0 a1 a2 a3) as (-> & -> & -> & ->); [solve_bytes|].
  destruct (GETBYTE_be b0 b1 b2 b3) as (-> & -> & -> & ->); [solve_bytes|].
  destruct (GETBYTE_be c0 c1 c2 c3) as (-> & -> & -> & ->); [solve_bytes|].
  destruct (GETBYTE_be d0 d1 d2 d3) as (-> & -> & -> & ->); [solve_bytes|].
  rewrite !col_Td4 by assumption. apply quad_xor; try reflexivity; [|exact Hw]. cbn [app]. ibytes.
Qed.

End Rounds.

(** ** The key schedule *)

(** A list of 60 elements, written out. *)
Ltac explicit60 l := do 60 (destruct l as [|? l]; [discriminate|]); destruct l; [|discriminate].

(** Round key [i] of the schedule for decryption is the one counted from the end,
    its columns mixed except for the first and the last. *)
Lemma key_decrypt_round n rk i : n = 10%nat \/ n = 12%nat \/ n = 14%nat -> length rk = 60%nat -> (i <= n)%nat ->
  round_key (key_decrypt n rk) i =
  if ((i =? 0) || (i =? n))%nat then round_key rk (n - i) else map key_inv_mix (round_key rk (n - i)).
Proof.
  intros Hn Hl Hi. explicit60 rk. destruct Hn as [->|[->| ->]].
  all: do 15 (destruct i as [|i]; [first [reflexivity|lia]|]); lia.
Qed.

Lemma length_key_decrypt n rk : n = 10%nat \/ n = 12%nat \/ n = 14%nat -> length rk = 60%nat ->
  length (key_decrypt n rk) = 60%nat.
Proof. intros Hn Hl. explicit60 rk. by destruct Hn as [->|[->| ->]]. Qed.

Lemma key_inv_mix_spec a b c d : bytes_ok [a; b; c; d] ->
  key_inv_mix (be_combine [a; b; c; d]) = be_combine (InvMixColumn [a; b; c; d]).
Proof.
  intros Hok. unfold key_inv_mix. destruct (GETBYTE_be a b c d Hok) as (-> & -> & -> & ->). split_bytes.
  assert (Hs : forall x, 0 <= x < 256 -> Z.land (GetTable Te1 x) 0xff = sbox x).
  { intros x Hx. destruct (Te_masked x Hx) as (_ & _ & _ & ->). unfold be_combine. cbn [rev app le_combine].
    by rewrite !Z.shiftl_0_l, Z.lor_0_r. }
  rewrite !Hs by assumption. rewrite col_Td by (apply sbox_byte; assumption).
  by rewrite !invsbox_sbox by assumption.
Qed.

(** ** Blocks *)

Lemma InvShift_Sub_block st : block_ok st -> block_ok (InvSubBytes (InvShiftRows st)).
Proof.
  intros Hst. pose proof (block_ok_inv st Hst) as Hex. destruct Hst as [_ Hok].
  destruct Hex as (a0 & a1 & a2 & a3 & b0 & b1 & b2 & b3 & c0 & c1 & c2 & c3 & d0 & d1 & d2 & d3 & ->).
  split_bytes. split; [reflexivity|]. cbv -[invsbox Z.lxor bytes_ok]. ibytes.
Qed.

Lemma InvMixColumns_block st : block_ok st -> block_ok (InvMixColumns st).
Proof.
  intros Hst. pose proof (block_ok_inv st Hst) as Hex. destruct Hst as [_ Hok].
  destruct Hex as (a0 & a1 & a2 & a3 & b0 & b1 & b2 & b3 & c0 & c1 & c2 & c3 & d0 & d1 & d2 & d3 & ->).
  split_bytes. split; [reflexivity|]. cbv -[gmul Z.lxor bytes_ok]. ibytes.
Qed.

(** Mixing the sum of a state and a round key mixes both. *)
Lemma InvMixColumns_key ws st : block_ok st -> length ws = 4%nat -> Forall is_word ws ->
  InvMixColumns (AddRoundKey ws st) = AddRoundKey (map key_inv_mix ws) (InvMixColumns st).
Proof.
  intros Hst Hl Hw. pose proof (block_ok_inv st Hst) as Hex. destruct Hst as [_ Hok].
  destruct Hex as (a0 & a1 & a2 & a3 & b0 & b1 & b2 & b3 & c0 & c1 & c2 & c3 & d0 & d1 & d2 & d3 & ->).
  explicit4 ws. split_bytes.
  destruct (word_bytes z) as (k0 & k1 & k2 & k3 & E0 & K0 & ->); [done|].
  destruct (word_bytes z0) as (l0 & l1 & l2 & l3 & E1 & K1 & ->); [done|].
  destruct (word_bytes z1) as (m0 & m1 & m2 & m3 & E2 & K2 & ->); [done|].
  destruct (word_bytes z2) as (n0 & n1 & n2 & n3 & E3 & K3 & ->); [done|].
  unfold AddRoundKey. cbn [map flat_map]. rewrite E0, E1, E2, E3, !key_inv_mix_spec by done.
  assert (Hs : forall a b c d, bytes_ok [a; b; c; d] ->
    be_split 4 (be_combine (InvMixColumn [a; b; c; d])) = InvMixColumn [a; b; c; d]).
  { intros a b c d Hb. split_bytes. apply (be_split_combine (InvMixColumn [a; b; c; d])).
    unfold InvMixColumn. ibytes. }
  rewrite !Hs by done. unfold InvMixColumns. cbn [app group take drop flat_map xorb_list zip_with].
  rewrite !InvMix_xor by (done || solve_bytes). done.
Qed.

Lemma PreFetchTd_0 : PreFetchTd = 0 /\ PreFetchTd4 = 0.
Proof. by split. Qed.

Lemma AesDecrypt_C_spec aes blk (r : nat) prefetch :
  (5 <= r <= 7)%nat -> block_ok blk -> (4 * (2 * r + 1) <= length (aes_key aes))%nat ->
  Forall is_word (take (4 * (2 * r + 1)) (aes_key aes)) ->
  AesDecrypt_C aes blk (Z.of_nat r) prefetch =
  EqInvCipher (2 * r) (take (4 * (2 * r + 1)) (aes_key aes)) blk.
Proof.
  intros Hr Hblk Hl Hw. set (rk := aes_key aes) in *. set (w := take (4 * (2 * r + 1)) rk) in *.
  unfold AesDecrypt_C. fold rk. rewrite (ENC_LOAD_spec rk (2 * r) Hw Hl blk Hblk). fold w.
  set (st0 := AddRoundKey (round_key w 0) blk).
  assert (Hk : forall i, (i <= 2 * r)%nat -> length (round_key w i) = 4%nat) by (intros; by apply round_key_length).
  assert (block_ok st0) as H0 by (apply AddRoundKey_block; [apply Hk; lia|done]).
  replace (let '(s0, s1, s2, s3) := quad_of st0 in _) with
    (ENC_STORE (DEC_LAST rk (Z.to_nat (Z.of_nat r * 8)) (block_rounds (DEC_ROUND rk) (Z.of_nat r) (quad_of st0)))).
  2:{ destruct PreFetchTd_0 as [-> ->]. unfold quad_of. rewrite Z.lor_0_r.
      replace (if prefetch =? 0 then _ else _) with (be_combine (take 4 st0)) by (by destruct (prefetch =? 0)).
      destruct (block_rounds _ _ _) as [[[t0 t1] t2] t3]. rewrite Z.lor_0_r. by destruct (prefetch =? 0). }
  destruct (block_rounds_spec (DEC_ROUND rk) (EqInvRound w) r st0) as [-> Hst]; [done| | |done|].
  - intros i st Hi Hs. unfold EqInvRound, w. rewrite (round_key_prefix rk (2 * r)) by lia.
    pose proof (round_key_words rk (2 * r) Hw Hl i ltac:(lia)) as Hwi. apply DEC_ROUND_spec; done || lia.
  - intros i st Hi Hs. apply AddRoundKey_block; [apply Hk; lia|]. by apply InvMixColumns_block, InvShift_Sub_block.
  - unfold EqInvCipher. fold st0. set (st := foldl _ _ _) in *.
    replace (Z.to_nat (Z.of_nat r * 8)) with (4 * (2 * r))%nat by lia.
    pose proof (round_key_words rk (2 * r) Hw Hl (2 * r) ltac:(lia)) as Hwr.
    rewrite DEC_LAST_spec by (done || lia).
    unfold w. rewrite (round_key_prefix rk (2 * r)) by lia. apply ENC_STORE_quad, AddRoundKey_block; [|by apply InvShift_Sub_block].
    rewrite <-(round_key_prefix rk (2 * r)) by lia. by apply Hk.
Qed.

(** ** The inverse of the cipher *)

Lemma InvSub_Sub st : block_ok st -> InvSubBytes (InvShiftRows (ShiftRows (SubBytes st))) = st.
Proof.
  intros Hst. pose proof (block_ok_inv st Hst) as Hex. destruct Hst as [_ Hok].
  destruct Hex as (a0 & a1 & a2 & a3 & b0 & b1 & b2 & b3 & c0 & c1 & c2 & c3 & d0 & d1 & d2 & d3 & ->).
  split_bytes. cbv -[sbox invsbox]. by rewrite !invsbox_sbox by assumption.
Qed.

Lemma InvMixColumns_Mix st : block_ok st -> InvMixColumns (MixColumns st) = st.
Proof.
  intros Hst. pose proof (block_ok_inv st Hst) as Hex. destruct Hst as [_ Hok].
  destruct Hex as (a0 & a1 & a2 & a3 & b0 & b1 & b2 & b3 & c0 & c1 & c2 & c3 & d0 & d1 & d2 & d3 & ->).
  split_bytes.
  change (InvMixColumns (MixColumns _)) with
    (InvMixColumn (MixColumn [a0; a1; a2; a3]) ++ InvMixColumn (MixColumn [b0; b1; b2; b3]) ++
     InvMixColumn (MixColumn [c0; c1; c2; c3]) ++ InvMixColumn (MixColumn [d0; d1; d2; d3]) ++ []).
  by rewrite !InvMix_Mix by assumption.
Qed.

Lemma AddRoundKey_twice w st : length w = 4%nat -> length st = 16%nat -> AddRoundKey w (AddRoundKey w st) = st.
Proof.
  intros Hw Hst. unfold AddRoundKey. set (k := flat_map (be_split 4) w).
  assert (length k = 16%nat) as Hk by (unfold k; explicit4 w; done). clearbody k.
  rewrite <-Hst in Hk. clear Hw Hst. revert st Hk.
  induction k as [|x k IH]; intros [|y st] H; try done. cbn [xorb_list zip_with]. f_equal.
  - by rewrite Z.lxor_assoc, Z.lxor_nilpotent, Z.lxor_0_r.
  - apply IH. by injection H.
Qed.

Section Undo.
Context (n : nat) (w : list Z).
Hypothesis Hk : forall i, (i <= n)%nat -> length (round_key w i) = 4%nat.

Lemma Round_ok st i : (i <= n)%nat -> block_ok st -> block_ok (Round w st i).
Proof. intros Hi Hs. apply AddRoundKey_block; [by apply Hk|]. by apply MixColumns_block. Qed.

Lemma rounds_ok st m : (m <= n)%nat -> block_ok st -> block_ok (foldl (Round w) st (seq 1 m)).
Proof.
  intros Hm Hs. induction m as [|m IH]; [done|]. rewrite seq_S, foldl_app. cbn [foldl].
  apply Round_ok; [lia|]. apply IH. lia.
Qed.

(** The inverse rounds undo the rounds. *)
Lemma rounds_undone st m : (m <= n)%nat -> block_ok st ->
  foldl (InvRound w) (ShiftRows (SubBytes (foldl (Round w) st (seq 1 m)))) (rev (seq 1 m)) = ShiftRows (SubBytes st).
Proof.
  intros Hm Hs. induction m as [|m IH]; [done|].
  rewrite seq_S, foldl_app, rev_app_distr. cbn [foldl rev app]. set (x := foldl (Round w) st (seq 1 m)) in *.
  assert (block_ok x) as Hx by (apply rounds_ok; [lia|done]).
  replace (InvRound w _ (1 + m)) with (ShiftRows (SubBytes x)); [apply IH; lia|].
  unfold InvRound. rewrite InvSub_Sub by (apply Round_ok; [lia|done]). unfold Round.
  rewrite AddRoundKey_twice; [|apply Hk; lia|by apply MixColumns_block].
  by rewrite InvMixColumns_Mix by (by apply ShiftRows_Sub_block).
Qed.

Lemma InvCipher_Cipher st : (1 <= n)%nat -> block_ok st -> InvCipher n w (Cipher n w st) = st.
Proof.
  intros Hn Hs. unfold InvCipher, Cipher.
  assert (block_ok (AddRoundKey (round_key w 0) st)) as H0 by (apply AddRoundKey_block; [apply Hk; lia|done]).
  assert (block_ok (foldl (Round w) (AddRoundKey (round_key w 0) st) (seq 1 (n - 1)))) as H1 by (apply rounds_ok; [lia|done]).
  rewrite AddRoundKey_twice; [|by apply Hk|by apply ShiftRows_Sub_block].
  rewrite rounds_undone by (done || lia). rewrite InvSub_Sub by done.
  apply AddRoundKey_twice; [apply Hk; lia|apply Hs].
Qed.
End Undo.

(** ** The schedule for decryption gives the inverse cipher *)

Lemma rev_seq a m : rev (seq a m) = map (fun i => (2 * a + m - 1 - i)%nat) (seq a m).
Proof.
  induction m as [|m IH]; [done|]. rewrite seq_S at 1. rewrite rev_app_distr, IH. cbn [rev app seq map].
  f_equal; [lia|]. rewrite <-seq_shift, map_map. apply map_ext. intros i. lia.
Qed.

Lemma foldl_ext_inv {A B} (P : A -> Prop) (f g : A -> B -> A) (a : A) (l : list B) :
  P a -> (forall a x, x ∈ l -> P a -> f a x = g a x /\ P (f a x)) -> foldl f a l = foldl g a l.
Proof.
  revert a. induction l as [|x l IH]; intros a Ha H; [done|]. cbn [foldl].
  destruct (H a x) as [<- Hf]; [by left|done|]. apply IH; [done|]. intros b y Hy. apply H. by right.
Qed.

Lemma round_key_take n rk i : (i <= n)%nat -> round_key (take (4 * (n + 1)) rk) i = round_key rk i.
Proof. intros Hi. unfold round_key. rewrite skipn_firstn_comm, take_take. f_equal. lia. Qed.

Section Turned.
Context (n : nat) (rk : list Z).
Hypothesis Hn : n = 10%nat \/ n = 12%nat \/ n = 14%nat.
Hypothesis Hl : length rk = 60%nat.
Hypothesis Hw : Forall is_word (take (4 * (n + 1)) rk).

Lemma turned_words i : (i <= n)%nat -> length (round_key rk i) = 4%nat /\ Forall is_word (round_key rk i).
Proof.
  intros Hi. split; [unfold round_key; rewrite length_take, length_drop; lia|].
  rewrite <-(round_key_take n) by done. unfold round_key. by apply Forall_take, Forall_drop.
Qed.

Lemma is_word_inv_mix x : is_word x -> is_word (key_inv_mix x).
Proof.
  intros Hx. destruct (word_bytes x Hx) as (a & b & c & d & _ & Hok & ->). rewrite key_inv_mix_spec by done.
  split_bytes. apply (be_combine_range (InvMixColumn [a; b; c; d])). unfold InvMixColumn. ibytes.
Qed.

(** The words of the schedule for decryption. *)
Lemma key_decrypt_words i : (i <= n)%nat -> Forall is_word (round_key (key_decrypt n rk) i).
Proof.
  intros Hi. rewrite key_decrypt_round by done. destruct (turned_words (n - i)) as [_ H]; [lia|].
  case_match; [done|]. apply Forall_fmap. eapply list.Forall_impl; [exact H|]. apply is_word_inv_mix.
Qed.

Lemma EqInv_Inv st : block_ok st -> EqInvCipher n (key_decrypt n rk) st = InvCipher n rk st.
Proof.
  intros Hst. unfold EqInvCipher, InvCipher. rewrite rev_seq.
  replace (foldl (InvRound rk) _ (map _ _)) with
    (foldl (fun st i => InvRound rk st (n - i)) (AddRoundKey (round_key rk n) st) (seq 1 (n - 1))).
  2: { rewrite <-(foldl_fmap (InvRound rk) _ _ (fun i => (n - i)%nat)). f_equal. apply map_ext. intros i. lia. }
  rewrite !key_decrypt_round by (done || lia). cbn [Nat.eqb orb]. rewrite Nat.eqb_refl, orb_true_r, Nat.sub_0_r, Nat.sub_diag.
  do 3 f_equal. destruct (turned_words n) as [Ln _]; [lia|].
  apply (foldl_ext_inv block_ok); [by apply AddRoundKey_block|]. intros s i Hi Hs. apply elem_of_seq in Hi.
  destruct (turned_words (n - i)) as [Li Wi]; [lia|].
  pose proof (InvShift_Sub_block s Hs) as Hb.
  unfold EqInvRound, InvRound. rewrite key_decrypt_round by (done || lia).
  rewrite (proj2 (Nat.eqb_neq i 0)), (proj2 (Nat.eqb_neq i n)) by lia. cbn [orb]. split.
  - by rewrite InvMixColumns_key.
  - apply AddRoundKey_block; [by rewrite length_map|]. by apply InvMixColumns_block.
Qed.
End Turned.

(** ** Keys for decryption *)

(** The object holds the schedule of [key] turned round for decryption. *)
Definition aes_keyed_dec (key : bytes) (a : Aes) : Prop :=
  exists a', aes_keyed key a' /\ aes_rounds a = aes_rounds a' /\ aes_key a = key_decrypt (Nr key) (aes_key a').

Lemma key_size_rounds key : key_size (len key) ->
  (Nr key = 10%nat \/ Nr key = 12%nat \/ Nr key = 14%nat) /\ len key / 4 + 6 = Z.of_nat (Nr key).
Proof.
  intros Hs. unfold Nr. destruct Hs as [Hs|[Hs|Hs]]; rewrite Hs; unfold len in Hs;
    replace (length key) with (Z.to_nat (Z.of_nat (length key))) by lia; rewrite Hs; vm_compute; auto.
Qed.

Lemma AesSetKey_C_dec aes key : key_size (len key) -> bytes_ok key -> length (aes_key aes) = 60%nat ->
  aes_rounds aes = len key / 4 + 6 -> aes_keyed_dec key (AesSetKey_C aes key (len key) AES_DECRYPTION).
Proof.
  intros Hsz Hok Hl Hr. exists (AesSetKey_C aes key (len key) AES_ENCRYPTION).
  split; [by apply AesSetKey_C_spec|]. split; [done|]. unfold AesSetKey_C.
  cbn [Z.eqb aes_key set_aes_key Pos.eqb].
  destruct (key_size_rounds key Hsz) as [_ Hn]. by rewrite Hr, Hn, Nat2Z.id.
Qed.

Lemma wc_AesSetKey_dec aes key iv : key_size (len key) -> bytes_ok key -> length (aes_key aes) = 60%nat ->
  exists aes', wc_AesSetKey aes key (len key) iv AES_DECRYPTION = (0, aes') /\ aes_keyed_dec key aes' /\
    aes_keyInstalled aes' = true /\ aes_devId aes' = aes_devId aes /\ aes_tmp aes' = aes_tmp aes /\
    aes_reg aes' = match iv with Some iv => take 16 iv | None => zeros 16 end.
Proof.
  intros Hsz Hok Hl. unfold wc_AesSetKey, wc_AesSetKeyLocal, AesSetKeyLocal_body.
  rewrite (proj2 (Z.ltb_ge _ _)) by (unfold key_size in Hsz; lia).
  assert ((len key =? 16) || (len key =? 24) || (len key =? 32) = true) as ->
    by (rewrite !orb_true_iff, !Z.eqb_eq; unfold key_size in Hsz; tauto).
  cbn [negb wc_AesSetIV Z.eqb].
  match goal with |- context [AesSetKey_C ?a _ _ _] => set (aes0 := a) end.
  assert (aes_keyed_dec key (AesSetKey_C aes0 key (len key) AES_DECRYPTION)) as Hk.
  { apply AesSetKey_C_dec; [done|done| |reflexivity]. unfold aes0. destruct (negb _); done. }
  eexists. split; [reflexivity|]. split; [exact Hk|]. unfold aes0. by destruct (negb _), iv.
Qed.

(** The same for encryption. *)
Lemma wc_AesSetKey_enc aes key iv : key_size (len key) -> bytes_ok key -> length (aes_key aes) = 60%nat ->
  exists aes', wc_AesSetKey aes key (len key) iv AES_ENCRYPTION = (0, aes') /\ aes_keyed key aes' /\
    aes_keyInstalled aes' = true /\ aes_devId aes' = aes_devId aes /\
    aes_reg aes' = match iv with Some iv => take 16 iv | None => zeros 16 end.
Proof.
  intros Hsz Hok Hl. unfold wc_AesSetKey. rewrite (proj2 (Z.ltb_ge _ _)) by (unfold key_size in Hsz; lia).
  destruct (wc_AesSetKeyLocal_spec aes key iv Hsz Hok Hl) as (aes' & E & Hk & Hi & Hd & _).
  exists aes'. do 4 (split; [done|]).
  unfold wc_AesSetKeyLocal, AesSetKeyLocal_body in E.
  assert ((len key =? 16) || (len key =? 24) || (len key =? 32) = true) as Eq
    by (rewrite !orb_true_iff, !Z.eqb_eq; unfold key_size in Hsz; tauto).
  rewrite Eq in E. cbn [negb wc_AesSetIV Z.eqb] in E. injection E as <-.
  by destruct (negb _), iv.
Qed.

Lemma keyed_round_length key a i : aes_keyed key a -> (i <= Nr key)%nat -> length (round_key (KeyExpansion key) i) = 4%nat.
Proof.
  intros (Hsz & _ & _ & Hl & Ht & _) Hi. destruct (key_size_rounds key Hsz) as [Hn _]. rewrite <-Ht.
  rewrite round_key_take by done. unfold round_key. rewrite length_take, length_drop. lia.
Qed.

(** Decryption of a block undoes its encryption. *)
Lemma AES_inv_AES key a blk : aes_keyed key a -> block_ok blk -> AES_inv key (AES key blk) = blk.
Proof.
  intros Hk Hb. unfold AES_inv, AES. apply (InvCipher_Cipher (Nr key) (KeyExpansion key)).
  - intros i Hi. by apply (keyed_round_length key a).
  - unfold Nr. lia.
  - exact Hb.
Qed.

Lemma InvCipher_ext n w w' st : (forall i, (i <= n)%nat -> round_key w i = round_key w' i) -> (1 <= n)%nat ->
  InvCipher n w st = InvCipher n w' st.
Proof.
  intros H Hn. unfold InvCipher. rewrite (H 0%nat), (H n) by lia. do 3 f_equal.
  apply (foldl_ext_inv (fun _ => True)); [done|]. intros s i Hi _. split; [|done].
  unfold InvRound. rewrite H; [done|]. rewrite list_elem_of_In, <-in_rev, in_seq in Hi. lia.
Qed.

Lemma EqInvCipher_ext n w w' st : (forall i, (i <= n)%nat -> round_key w i = round_key w' i) -> (1 <= n)%nat ->
  EqInvCipher n w st = EqInvCipher n w' st.
Proof.
  intros H Hn. unfold EqInvCipher. rewrite (H 0%nat), (H n) by lia. do 3 f_equal.
  apply (foldl_ext_inv (fun _ => True)); [done|]. intros s i Hi _. split; [|done].
  unfold EqInvRound. rewrite H; [done|]. apply elem_of_seq in Hi. lia.
Qed.

Lemma Forall_round_keys (P : Z -> Prop) rk m : (forall i, (i < m)%nat -> Forall P (round_key rk i)) ->
  Forall P (take (4 * m) rk).
Proof.
  induction m as [|m IH]; intros H; [constructor|]. replace (4 * S m)%nat with (4 * m + 4)%nat by lia.
  rewrite <-take_take_drop. apply Forall_app. split; [apply IH; auto with lia|]. apply (H m). lia.
Qed.

Lemma AesDecrypt_spec aes key blk out always prefetch : aes_keyed_dec key aes -> block_ok blk ->
  exists p, AesDecrypt_preFetchOpt aes blk out always prefetch = (0, AES_inv key blk, p).
Proof.
  intros (a' & (Hsz & Hok & Hr & Hl & Ht & Hw) & Hra & Hka) Hblk. unfold AesDecrypt_preFetchOpt.
  destruct (key_size_rounds key Hsz) as [Hn En]. rewrite Hra, Hr, En.
  assert (exists r, Nr key = (2 * r)%nat /\ (5 <= r <= 7)%nat) as (r & Er & Hr7).
  { destruct Hn as [->|[->| ->]]; [exists 5%nat|exists 6%nat|exists 7%nat]; lia. }
  replace (Z.shiftr (Z.of_nat (Nr key)) 1) with (Z.of_nat r).
  2: { rewrite Er, Z.shiftr_div_pow2, Nat2Z.inj_mul by lia. change (2 ^ 1) with 2. rewrite Z.mul_comm, Z.div_mul; lia. }
  destruct (Z.ltb_spec 7 (Z.of_nat r)); [lia|]. destruct (Z.eqb_spec (Z.of_nat r) 0); [lia|]. cbn [orb].
  assert (4 * (2 * r + 1) <= 60)%nat as H60 by lia. eexists. do 2 f_equal. rewrite Er in *.
  rewrite <-Ht in Hw. pose proof (length_key_decrypt (2 * r) (aes_key a') Hn Hl) as Hkl.
  rewrite AesDecrypt_C_spec; rewrite ?Hka; [|done|done|lia|].
  2: { apply Forall_round_keys. intros i Hi. apply key_decrypt_words; done || lia. }
  rewrite (EqInvCipher_ext _ _ (key_decrypt (2 * r) (aes_key a'))) by (intros; apply round_key_take || lia; lia).
  rewrite EqInv_Inv by done. unfold AES_inv. rewrite Er, <-Ht.
  apply InvCipher_ext; [|lia]. intros i Hi. symmetry. by apply round_key_take.
Qed.

(** ** SP 800-38A: cipher block chaining *)

Module Sp800_38A.

Fixpoint CBC_Encrypt (E : bytes -> bytes) (iv : bytes) (P : list bytes) : list bytes :=
  match P with
  | [] => []
  | p :: P => let c := E (xorb_list iv p) in c :: CBC_Encrypt E c P
  end.

Fixpoint CBC_Decrypt (D : bytes -> bytes) (iv : bytes) (C : list bytes) : list bytes :=
  match C with
  | [] => []
  | c :: C => xorb_list (D c) iv :: CBC_Decrypt D c C
  end.

End Sp800_38A.
Import Sp800_38A.

Lemma xorb_list_comm a b : xorb_list a b = xorb_list b a.
Proof. revert b. induction a as [|x a IH]; intros [|y b]; cbn; try done. by rewrite Z.lxor_comm, IH. Qed.

Lemma xorb_block a b : block_ok a -> block_ok b -> block_ok (xorb_list a b).
Proof. intros [La Oa] [Lb Ob]. split; [unfold xorb_list; rewrite length_zip_with; lia|by apply bytes_ok_xorb]. Qed.

Lemma xorb_cancel a b : length a = length b -> xorb_list (xorb_list a b) a = b.
Proof.
  revert b. induction a as [|x a IH]; intros [|y b] H; try done. cbn [xorb_list zip_with]. f_equal.
  - rewrite (Z.lxor_comm x), Z.lxor_assoc, Z.lxor_nilpotent. apply Z.lxor_0_r.
  - apply IH. by injection H.
Qed.

(** Chaining is undone by chaining with the inverse. *)
Lemma CBC_undone E D iv P : (forall b, block_ok b -> D (E b) = b /\ block_ok (E b)) -> block_ok iv ->
  Forall block_ok P -> CBC_Decrypt D iv (CBC_Encrypt E iv P) = P.
Proof.
  intros HE. revert iv. induction P as [|p P IH]; intros iv Hiv HP; [done|]. inversion_clear HP as [|? ? Hp HP'].
  cbn. pose proof (xorb_block iv p Hiv Hp) as Hx. destruct (HE _ Hx) as [-> Ho].
  rewrite xorb_cancel by (destruct Hiv, Hp; lia). f_equal. by apply IH.
Qed.

Lemma CBC_Encrypt_blocks E iv P : (forall b, block_ok b -> block_ok (E b)) -> block_ok iv -> Forall block_ok P ->
  Forall block_ok (CBC_Encrypt E iv P).
Proof.
  intros HE. revert iv. induction P as [|p P IH]; intros iv Hiv HP; [constructor|]. inversion_clear HP.
  cbn. pose proof (xorb_block iv p) as Hx. constructor; auto.
Qed.

Lemma CBC_Decrypt_blocks D iv C : (forall b, block_ok b -> block_ok (D b)) -> block_ok iv -> Forall block_ok C ->
  Forall block_ok (CBC_Decrypt D iv C).
Proof.
  intros HD. revert iv. induction C as [|c C IH]; intros iv Hiv HC; [constructor|]. inversion_clear HC.
  cbn. constructor; [apply xorb_block|]; auto.
Qed.

Lemma group_blocks n l : bytes_ok l -> (16 * n <= length l)%nat -> Forall block_ok (group 16 n l).
Proof.
  revert l. induction n as [|n IH]; intros l Hok Hl; [constructor|]. cbn [group]. constructor.
  - split; [rewrite length_take; lia|by apply Forall_take].
  - apply IH; [by apply Forall_drop|rewrite length_drop; lia].
Qed.

(** ** The loops *)

Lemma xorbuf_block a b : block_ok a -> block_ok b -> xorbuf a b WC_AES_BLOCK_SIZE = xorb_list a b.
Proof.
  intros [La _] [Lb _]. unfold xorbuf, xorbufout.
  change (Z.to_nat WC_AES_BLOCK_SIZE) with 16%nat. rewrite !take_ge by lia.
  apply splice_full. unfold xorb_list. rewrite length_zip_with. lia.
Qed.

Lemma sub_block l off : bytes_ok l -> 0 <= off -> off + 16 <= len l -> block_ok (sub l off 16).
Proof.
  intros Hok H0 Hl. split; [|by apply bytes_ok_sub]. pose proof (len_sub l off 16 H0 ltac:(lia) Hl). unfold len in *. lia.
Qed.

Lemma group_step n (l : bytes) off : 0 <= off ->
  group 16 (S n) (drop (Z.to_nat off) l) = sub l off 16 :: group 16 n (drop (Z.to_nat (off + 16)) l).
Proof.
  intros H0. cbn [group]. unfold sub. change (Z.to_nat 16) with 16%nat. rewrite drop_drop. do 3 f_equal. lia.
Qed.

Lemma len_block b : block_ok b -> len b = 16.
Proof. intros [H _]. unfold len. lia. Qed.

Lemma last_cons {A} (c d : A) l : List.last (c :: l) d = List.last l c.
Proof.
  revert c d. induction l as [|x l IH]; intros c d; [done|].
  change (List.last (x :: l) d = List.last (x :: l) c). by rewrite !IH.
Qed.

Lemma length_CBC_Encrypt E iv P : length (CBC_Encrypt E iv P) = length P.
Proof. revert iv. induction P as [|p P IH]; intros iv; [done|]. cbn. by rewrite IH. Qed.

Lemma len_blocks bs : Forall block_ok bs -> len (concat bs) = 16 * Z.of_nat (length bs).
Proof.
  induction 1 as [|b bs Hb _ IH]; [done|]. cbn [concat length]. rewrite len_app, IH, len_block by done. lia.
Qed.

Lemma cbc_enc_ok e key n aes out inp off p :
  aes_keyed key aes -> block_ok (aes_reg aes) -> bytes_ok inp -> 0 <= off ->
  off + 16 * Z.of_nat n <= len inp -> off + 16 * Z.of_nat n <= len out ->
  calc e 0 (cbc_enc_blocks n aes out inp off p)
    (fun r => let cs := CBC_Encrypt (AES key) (aes_reg aes) (group 16 n (drop (Z.to_nat off) inp)) in
       r = (0, set_aes_reg (List.last cs (aes_reg aes)) (aes_tmp aes) aes, splice out off (concat cs))).
Proof.
  revert aes out off p. induction n as [|n IH]; intros aes out off p Hk Hr Hi Ho Li Lo.
  { apply calc_ret. cbn. rewrite splice_nil. by destruct aes. }
  cbn [cbc_enc_blocks]. apply calc_rd; [done|done|change WC_AES_BLOCK_SIZE with 16; lia|].
  change WC_AES_BLOCK_SIZE with 16. pose proof (sub_block inp off Hi Ho ltac:(lia)) as Hb.
  rewrite group_step by done. set (b := sub inp off 16) in *.
  change 16 with WC_AES_BLOCK_SIZE. rewrite (xorbuf_block _ b) by done. set (x := xorb_list (aes_reg aes) b).
  assert (block_ok x) as Hx by (by apply xorb_block).
  destruct (AesEncrypt_spec (set_aes_reg x (aes_tmp aes) aes) key x x false p) as [q Eq]; [done|done|].
  cbn [aes_reg set_aes_reg]. rewrite Eq. change (0 =? 0) with true. cbn [negb]. cbv iota.
  pose proof (AES_block aes key x Hk Hx) as Hc. set (c := AES key x) in *.
  rewrite (sub_all c) by (change WC_AES_BLOCK_SIZE with 16; by rewrite len_block).
  apply calc_wr; [done|rewrite len_block by done; lia|]. change WC_AES_BLOCK_SIZE with 16.
  eapply calc_mono.
  { apply (IH (set_aes_reg c (aes_tmp aes) aes)); [done|done|done|lia|lia|]. rewrite len_splice by (rewrite ?len_block by done; lia). lia. }
  cbn [aes_reg set_aes_reg aes_tmp]. cbv zeta. intros r ->. cbn [CBC_Encrypt]. fold x. fold c.
  set (cs := CBC_Encrypt (AES key) c (group 16 n (drop (Z.to_nat (off + 16)) inp))).
  assert (Lc : len (concat cs) = 16 * Z.of_nat n).
  { unfold cs. rewrite len_blocks, length_CBC_Encrypt, length_group; [done|].
    apply CBC_Encrypt_blocks; [by intros; apply (AES_block aes)|done|].
    apply group_blocks; [by apply Forall_drop|rewrite length_drop; unfold len in *; lia]. }
  rewrite last_cons. f_equal. cbn [concat]. replace (off + 16) with (off + len c) by (by rewrite len_block).
  apply splice_splice; [done|]. rewrite len_block by done. lia.
Qed.

Lemma length_CBC_Decrypt D iv C : length (CBC_Decrypt D iv C) = length C.
Proof. revert iv. induction C as [|c C IH]; intros iv; [done|]. cbn. by rewrite IH. Qed.

Lemma AES_inv_block key a blk : aes_keyed key a -> block_ok blk -> block_ok (AES_inv key blk).
Proof.
  intros Hk Hb. pose proof (fun i => keyed_round_length key a i Hk) as Hl.
  assert (forall l st, block_ok st -> Forall (fun i => i <= Nr key)%nat l ->
    block_ok (foldl (InvRound (KeyExpansion key)) st l)) as Hfold.
  { induction l as [|i l IH]; intros st Hst Hi; [done|]. inversion_clear Hi. cbn [foldl].
    apply IH; [|done]. apply InvMixColumns_block, AddRoundKey_block; [by apply Hl|]. by apply InvShift_Sub_block. }
  unfold AES_inv, InvCipher. apply AddRoundKey_block; [apply Hl; lia|]. apply InvShift_Sub_block, Hfold.
  - apply AddRoundKey_block; [by apply Hl|done].
  - apply list.Forall_forall. intros i Hi. rewrite list_elem_of_In, <-in_rev, in_seq in Hi. lia.
Qed.

Lemma cbc_dec_ok e key n aes out inp off p :
  aes_keyed_dec key aes -> block_ok (aes_reg aes) -> length (aes_tmp aes) = 16%nat -> bytes_ok inp -> 0 <= off ->
  off + 16 * Z.of_nat n <= len inp -> off + 16 * Z.of_nat n <= len out ->
  calc e 0 (cbc_dec_blocks n aes out inp off p)
    (fun r => let cs := group 16 n (drop (Z.to_nat off) inp) in
       r = (0, set_aes_reg (List.last cs (aes_reg aes)) (List.last cs (aes_tmp aes)) aes,
            splice out off (concat (CBC_Decrypt (AES_inv key) (aes_reg aes) cs)))).
Proof.
  revert aes out off p. induction n as [|n IH]; intros aes out off p Hk Hr Ht Hi Ho Li Lo.
  { apply calc_ret. cbn. rewrite splice_nil. by destruct aes. }
  assert (HD : forall b, block_ok b -> block_ok (AES_inv key b)).
  { destruct Hk as (a' & Hk' & _). intros. by apply (AES_inv_block key a'). }
  cbn [cbc_dec_blocks]. apply calc_rd; [done|done|change WC_AES_BLOCK_SIZE with 16; lia|].
  change WC_AES_BLOCK_SIZE with 16. pose proof (sub_block inp off Hi Ho ltac:(lia)) as Hb.
  rewrite group_step by done. set (b := sub inp off 16) in *.
  apply calc_rd; [done|done|lia|]. rewrite splice_full by (destruct Hb; lia).
  match goal with |- context [AesDecrypt_preFetchOpt ?a b ?o false p] => destruct (AesDecrypt_spec a key b o false p Hk Hb) as [q ->] end.
  pose proof (HD b Hb) as Hx. set (x := AES_inv key b) in *.
  apply calc_wr; [done|rewrite len_block by done; lia|]. change (0 =? 0) with true. cbn [negb]. cbv iota.
  cbn [aes_reg aes_tmp set_aes_reg]. change 16 with WC_AES_BLOCK_SIZE at 1. rewrite (xorbuf_block x) by done.
  set (m := xorb_list x (aes_reg aes)). assert (block_ok m) as Hm by (by apply xorb_block).
  rewrite (sub_all b) by (by rewrite len_block). rewrite splice_full by (destruct Hb, Hr; lia).
  apply calc_wr; [done|rewrite len_splice, len_block by (done || rewrite ?len_block by done; lia); lia|].
  rewrite splice_again by (rewrite ?len_block by done; done || lia).
  eapply calc_mono.
  { apply (IH (set_aes_reg b b aes)); [done|done|by destruct Hb|done|lia|lia|].
    rewrite len_splice by (rewrite ?len_block by done; lia). lia. }
  cbn [aes_reg set_aes_reg aes_tmp]. cbv zeta. intros r ->. cbn [CBC_Decrypt]. fold x. fold m.
  set (cs := group 16 n (drop (Z.to_nat (off + 16)) inp)). rewrite !last_cons. f_equal.
  assert (Lc : len (concat (CBC_Decrypt (AES_inv key) b cs)) = 16 * Z.of_nat n).
  { unfold cs. rewrite len_blocks, length_CBC_Decrypt, length_group; [done|].
    apply CBC_Decrypt_blocks; [done|done|]. apply group_blocks; [by apply Forall_drop|rewrite length_drop; unfold len in *; lia]. }
  cbn [concat]. replace (off + 16) with (off + len m) by (by rewrite len_block).
  apply splice_splice; [done|]. rewrite len_block by done. lia.
Qed.

Lemma concat_group n (l : bytes) : length l = (16 * n)%nat -> concat (group 16 n l) = l.
Proof.
  revert l. induction n as [|n IH]; intros l Hl; [by destruct l|]. cbn [group concat].
  rewrite IH by (rewrite length_drop; lia). apply take_drop.
Qed.

Lemma group_concat n (bs : list bytes) : Forall block_ok bs -> length bs = n -> group 16 n (concat bs) = bs.
Proof.
  intros Hb <-. induction Hb as [|b bs [Hl _] _ IH]; [done|]. cbn [length group concat].
  rewrite take_app_length' by done. rewrite drop_app_length' by done. by rewrite IH.
Qed.

Lemma bytes_ok_concat bs : Forall block_ok bs -> bytes_ok (concat bs).
Proof. induction 1 as [|b bs [_ Hb] _ IH]; [constructor|]. cbn. by apply bytes_ok_app. Qed.

Section Modes.
Context `{!Callbacks} (e : env).

(** CBC encryption on an object keyed for it and bound to no device.  Bytes past
    the last whole block are left out. *)
Lemma wc_AesCbcEncrypt_spec key aes out inp sz :
  aes_keyed key aes -> aes_devId aes = INVALID_DEVID -> aes_keyInstalled aes = true -> block_ok (aes_reg aes) ->
  bytes_ok inp -> 0 <= sz <= len inp -> sz <= len out ->
  calc e 0 (wc_AesCbcEncrypt aes (Some out) (Some inp) sz)
    (fun r => let cs := CBC_Encrypt (AES key) (aes_reg aes) (group 16 (Z.to_nat (sz / 16)) inp) in
       r = (0, set_aes_reg (List.last cs (aes_reg aes)) (aes_tmp aes) aes, Some (splice out 0 (concat cs)))).
Proof.
  intros Hk Hd Hki Hr Hi Hs Ho. unfold wc_AesCbcEncrypt. destruct (Z.eqb_spec sz 0) as [->|Hsz].
  { apply calc_ret. change (Z.to_nat (0 / 16)) with 0%nat. cbn. rewrite splice_nil. by destruct aes. }
  rewrite Hd, Z.eqb_refl. cbn [negb]. calc_step. change (CRYPTOCB_UNAVAILABLE =? CRYPTOCB_UNAVAILABLE) with true.
  cbn [negb]. cbv iota. rewrite Hki. cbn [negb]. change WC_AES_BLOCK_SIZE with 16.
  pose proof (Z.mul_div_le sz 16 ltac:(lia)). pose proof (Z.div_pos sz 16 ltac:(lia) ltac:(lia)).
  eapply calc_bind; [apply (cbc_enc_ok e key); try done; lia|]. cbv beta zeta. intros r ->. by apply calc_ret.
Qed.

(** CBC decryption, of whole blocks only. *)
Lemma wc_AesCbcDecrypt_spec key aes out inp sz :
  aes_keyed_dec key aes -> aes_devId aes = INVALID_DEVID -> aes_keyInstalled aes = true -> block_ok (aes_reg aes) ->
  length (aes_tmp aes) = 16%nat -> bytes_ok inp -> 0 <= sz <= len inp -> sz <= len out ->
  calc e 0 (wc_AesCbcDecrypt aes (Some out) (Some inp) sz)
    (fun r => let cs := group 16 (Z.to_nat (sz / 16)) inp in
       if sz mod 16 =? 0 then
         r = (0, set_aes_reg (List.last cs (aes_reg aes)) (List.last cs (aes_tmp aes)) aes,
              Some (splice out 0 (concat (CBC_Decrypt (AES_inv key) (aes_reg aes) cs))))
       else r = (BAD_FUNC_ARG, aes, Some out)).
Proof.
  intros Hk Hd Hki Hr Ht Hi Hs Ho. unfold wc_AesCbcDecrypt. destruct (Z.eqb_spec sz 0) as [->|Hsz].
  { apply calc_ret. change (Z.to_nat (0 / 16)) with 0%nat. cbn. rewrite splice_nil. by destruct aes. }
  change WC_AES_BLOCK_SIZE with 16. destruct (sz mod 16 =? 0); cbn [negb]; [|by apply calc_ret].
  rewrite Hd, Z.eqb_refl. cbn [negb]. calc_step. change (CRYPTOCB_UNAVAILABLE =? CRYPTOCB_UNAVAILABLE) with true.
  cbn [negb]. cbv iota. rewrite Hki. cbn [negb].
  pose proof (Z.mul_div_le sz 16 ltac:(lia)). pose proof (Z.div_pos sz 16 ltac:(lia) ltac:(lia)).
  eapply calc_bind; [apply (cbc_dec_ok e key); try done; lia|]. cbv beta zeta. intros r ->. by apply calc_ret.
Qed.

(** A message encrypted by one object and decrypted by another: the codes, the
    ciphertext and what is read back. *)
Definition cbc_exchange (key iv inp : bytes) : M (Z * Z * Z * Z * option bytes * option bytes) :=
  let sz := len inp in
  let '(r1, sender) := wc_AesSetKey (wc_AesInit INVALID_DEVID).2 key (len key) (Some iv) AES_ENCRYPTION in
  '(r2, _, c) ← wc_AesCbcEncrypt sender (Some (zeros sz)) (Some inp) sz;
  let '(r3, receiver) := wc_AesSetKey (wc_AesInit INVALID_DEVID).2 key (len key) (Some iv) AES_DECRYPTION in
  '(r4, _, p) ← wc_AesCbcDecrypt receiver (Some (zeros sz)) c sz;
  mret (r1, r2, r3, r4, c, p).

End Modes.


(** Setting a key for decryption and decrypting a block with the inverse tables
    is the inverse cipher of FIPS 197, and undoes the encryption of every block
    under the same key. *)
Theorem aes_inverse (aes : Aes) (key blk out : bytes) (iv : option bytes) :
  length (aes_key aes) = 60%nat -> key_size (len key) -> bytes_ok key -> block_ok blk ->
  let '(ret, aes1) := wc_AesSetKey aes key (len key) iv AES_DECRYPTION in
  ret = 0 /\ (AesDecrypt_preFetchOpt aes1 blk out true 0).1 = (0, AES_inv key blk) /\
  (AesDecrypt_preFetchOpt aes1 (AES key blk) out true 0).1 = (0, blk).
Proof.
  intros Hl Hs Hk Hb. destruct (wc_AesSetKey_dec aes key iv Hs Hk Hl) as (aes1 & -> & Hd & _).
  pose proof Hd as (a & Ha & _). pose proof (AES_block a key blk Ha Hb) as Hc. split; [done|].
  destruct (AesDecrypt_spec aes1 key blk out true 0 Hd Hb) as [p ->].
  destruct (AesDecrypt_spec aes1 key (AES key blk) out true 0 Hd Hc) as [q ->].
  split; [done|]. cbn [fst]. by rewrite (AES_inv_AES key a).
Qed.

(** FIPS 197, appendix C.3: 256-bit key. *)
Lemma aes_inverse_witness :
  let key := be_split 32 0x000102030405060708090a0b0c0d0e0f101112131415161718191a1b1c1d1e1f in
  let blk := be_split 16 0x00112233445566778899aabbccddeeff in
  let aes1 := (wc_AesSetKey (wc_AesInit 0).2 key 32 None AES_DECRYPTION).2 in
  AES key blk = be_split 16 0x8ea2b7ca516745bfeafc49904b496089 /\
  (AesDecrypt_preFetchOpt aes1 (be_split 16 0x8ea2b7ca516745bfeafc49904b496089) [] true 0).1 = (0, blk).
Proof.
  intros key blk aes1. assert (E : AES key blk = be_split 16 0x8ea2b7ca516745bfeafc49904b496089) by (vm_compute; reflexivity).
  split; [exact E|]. rewrite <-E.
  pose proof (aes_inverse (wc_AesInit 0).2 key blk [] None eq_refl (or_intror (or_intror eq_refl)) (be_split_ok _ _)
    (conj eq_refl (be_split_ok _ _))) as H.
  change (len key) with 32 in H. unfold aes1. destruct (wc_AesSetKey _ _ _ _ _) as [ret a1]. apply H.
Defined.
