(* ===== verification/Gcm.v ===== *)
(** * Gcm: authenticated encryption of aes.c

    GHASH with its bitwise multiplier, the counter mode, tag computation and
    checking, as aes.c does them; then SP 800-38D as a reference, and the
    refinement: encryption computes the ciphertext and tag of the standard,
    decryption gives the plaintext exactly when the tag is right and an all-zero
    buffer with [AES_GCM_AUTH_E] when it is not. *)

From S2P Require Import Prelude Platform Types Misc CryptoCb AesTables Aes.

(** ** The code *)

(** aes.h:285, [GCM_NONCE_MID_SZ] *)
Notation GCM_NONCE_MID_SZ := (12)%Z (only parsing).
(** aes.h:289, [CTR_SZ] *)
Notation CTR_SZ := (4)%Z (only parsing).

(** aes.c:8406-8453, [wc_local_AesGcmCheckTagSz] *)
Definition wc_local_AesGcmCheckTagSz (authTagSz : Z) : Z :=
  if (12 <=? authTagSz) && (authTagSz <=? 16) then 0 else BAD_FUNC_ARG.

(** aes.c:8474-8479, [IncrementGcmCounter]: the loop from index [i] down, [n]
    steps left. *)
Fixpoint IncrementGcmCounter_loop (ctr : bytes) (i n : nat) {struct n} : bytes :=
  match n with
  | O => ctr
  | S n =>
    let b := Z.land (ctr !!! i + 1) 0xFF in
    let ctr := <[i := b]> ctr in
    if negb (b =? 0) then ctr else IncrementGcmCounter_loop ctr (i - 1) n
  end.

(** aes.c:8469-8480, [IncrementGcmCounter] *)
Definition IncrementGcmCounter (inOutCtr : bytes) : bytes :=
  IncrementGcmCounter_loop inOutCtr 15 (Z.to_nat CTR_SZ).

(** aes.c:10128-10144, [GMULT]: the inner step on [Z], [V] and [y]. *)
Definition GMULT_step (st : (Z * Z) * (Z * Z) * Z) : (Z * Z) * (Z * Z) * Z :=
  let '((za, zb), (va, vb), y) := st in
  let mask := w64 (0 - Z.shiftr y 63) in
  let za := za ⊕ Z.land va mask in
  let zb := zb ⊕ Z.land vb mask in
  let v1 := Z.land (w64 (0 - Z.land vb 1)) 0xE100000000000000 in
  let vb := Z.shiftr vb 1 in
  let vb := Z.lor vb (w64 (Z.shiftl va 63)) in
  let va := Z.shiftr va 1 in
  let va := va ⊕ v1 in
  ((za, zb), (va, vb), w64 (Z.shiftl y 1)).

(** aes.c:10115-10149, [GMULT]: the new value of [X]. *)
Definition GMULT (X Y : Z * Z) : Z * Z :=
  let '(zz, vv, _) := Nat.iter 64 GMULT_step ((0, 0), X, Y.1) in
  let '(zz, _, _) := Nat.iter 64 GMULT_step (zz, vv, Y.2) in
  zz.

(** Two words read from 16 bytes of memory and reversed, as in aes.c:10170-10172. *)
Definition load_block (b : bytes) : Z * Z :=
  match ByteReverseWords64 [le_combine (take 8 b); le_combine (take 8 (drop 8 b))] 16 with
  | [x0; x1] => (x0, x1)
  | _ => (0, 0)
  end.

Definition xor2 (x y : Z * Z) : Z * Z := (x.1 ⊕ y.1, x.2 ⊕ y.2).

(** aes.c:10169-10178, [GHASH]: the loop over whole blocks of [p]. *)
Fixpoint ghash_blocks (bigH x : Z * Z) (p : bytes) (off : Z) (blocks : nat) {struct blocks} : M (Z * Z) :=
  match blocks with
  | O => mret x
  | S blocks =>
    b ← rd p off WC_AES_BLOCK_SIZE;
    ghash_blocks bigH (GMULT (xor2 x (load_block b)) bigH) p (off + WC_AES_BLOCK_SIZE) blocks
  end.

(** aes.c:10165-10188 and 10199-10230, [GHASH]: hash one of the two inputs. *)
Definition ghash_input (bigH x : Z * Z) (p : option bytes) (sz : Z) : M (Z * Z) :=
  match p with
  | Some p =>
    if negb (sz =? 0) then
      let blocks := sz / WC_AES_BLOCK_SIZE in
      let partial := sz mod WC_AES_BLOCK_SIZE in
      x ← ghash_blocks bigH x p 0 (Z.to_nat blocks);
      if negb (partial =? 0) then
        b ← rd p (WC_AES_BLOCK_SIZE * blocks) partial;
        mret (GMULT (xor2 x (load_block (splice (zeros WC_AES_BLOCK_SIZE) 0 b))) bigH)
      else mret x
    else mret x
  | None => mret x
  end.

(** aes.c:10152-10252, [GHASH]: the new contents of [s]. *)
Definition GHASH (H : bytes) (a : option bytes) (aSz : Z) (c : option bytes) (cSz : Z)
    (s : bytes) (sSz : Z) : M bytes :=
  let bigH := load_block H in
  x ← ghash_input bigH (0, 0) a aSz;
  x ← ghash_input bigH x c cSz;
  let x := GMULT (xor2 x (w64 (aSz * 8), w64 (cSz * 8))) bigH in
  let xb := flat_map (le_split 8) (ByteReverseWords64 [x.1; x.2] 16) in
  b ← rd xb 0 sSz;
  wr s 0 b.

(** aes.c:11228-11245 and 12069-12086, [AES_GCM_encrypt_C] and
    [AES_GCM_decrypt_C]: the initial counter. *)
Definition gcm_counter (H iv : bytes) (ivSz : Z) : M bytes :=
  let counter := zeros WC_AES_BLOCK_SIZE in
  if ivSz =? GCM_NONCE_MID_SZ then
    b ← rd iv 0 ivSz;
    counter ← wr counter 0 b;
    counter ← wr counter GCM_NONCE_MID_SZ (zeros (WC_AES_BLOCK_SIZE - GCM_NONCE_MID_SZ - 1));
    wr counter (WC_AES_BLOCK_SIZE - 1) [1]
  else GHASH H None 0 (Some iv) ivSz counter WC_AES_BLOCK_SIZE.

(** aes.c:11286-11297 and 12155-12165, [AES_GCM_encrypt_C] and
    [AES_GCM_decrypt_C]: the loop over whole blocks, giving the code, the
    counter, the output and the prefetch flag. *)
Fixpoint gcm_ctr_loop (aes : Aes) (blocks : nat) (counter inp out : bytes) (off : Z)
    (always : bool) (prefetch : Z) {struct blocks} : M (Z * bytes * bytes * Z) :=
  match blocks with
  | O => mret (0, counter, out, prefetch)
  | S blocks =>
    let counter := IncrementGcmCounter counter in
    let '(ret, scratch, prefetch) :=
      AesEncrypt_preFetchOpt aes counter (zeros WC_AES_BLOCK_SIZE) always prefetch in
    if negb (ret =? 0) then mret (ret, counter, out, prefetch)
    else
      p ← rd inp off WC_AES_BLOCK_SIZE;
      out ← wr out off (xorbufout scratch p WC_AES_BLOCK_SIZE);
      gcm_ctr_loop aes blocks counter inp out (off + WC_AES_BLOCK_SIZE) always prefetch
  end.

(** aes.c:11300-11306, [AES_GCM_encrypt_C]: the last, incomplete block. *)
Definition gcm_enc_partial (aes : Aes) (counter inp out : bytes) (off partial did_prefetches : Z)
    : M (Z * bytes * Z) :=
  if negb (partial =? 0) then
    let counter := IncrementGcmCounter counter in
    let '(ret, scratch, did_prefetches) :=
      AesEncrypt_preFetchOpt aes counter (zeros WC_AES_BLOCK_SIZE) false did_prefetches in
    if negb (ret =? 0) then mret (ret, out, did_prefetches)
    else
      p ← rd inp off partial;
      out ← wr out off (xorbufout scratch p partial);
      mret (ret, out, did_prefetches)
  else mret (0, out, did_prefetches).

(** aes.c:12168-12175, [AES_GCM_decrypt_C]: the last, incomplete block. *)
Definition gcm_dec_partial (aes : Aes) (counter inp out : bytes) (off partial : Z) : M (Z * bytes) :=
  if negb (partial =? 0) then
    let counter := IncrementGcmCounter counter in
    let '(ret, scratch, _) := AesEncrypt_preFetchOpt aes counter (zeros WC_AES_BLOCK_SIZE) true 0 in
    if negb (ret =? 0) then mret (ret, out)
    else
      c ← rd inp off partial;
      let scratch := xorbuf scratch c partial in
      s ← rd scratch 0 partial;
      out ← wr out off s;
      mret (ret, out)
  else mret (0, out).

(** aes.c:11210-11322, [AES_GCM_encrypt_C]: the code, [out] and [authTag].  A
    NULL [out] or [inp], which the caller allows only with [sz = 0], is [[]]. *)
Definition AES_GCM_encrypt_C (aes : Aes) (out inp : bytes) (sz : Z) (iv : bytes) (ivSz : Z)
    (authTag : option bytes) (authTagSz : Z) (authIn : option bytes) (authInSz : Z)
    : M (Z * bytes * option bytes) :=
  let blocks := sz / WC_AES_BLOCK_SIZE in
  let partial := sz mod WC_AES_BLOCK_SIZE in
  counter ← gcm_counter (aes_gcm_H aes) iv ivSz;
  let initialCounter := counter in
  '(ret, counter, out, did_prefetches) ← gcm_ctr_loop aes (Z.to_nat blocks) counter inp out 0 false 0;
  if negb (ret =? 0) then mret (ret, out, authTag)
  else
    '(ret, out, did_prefetches) ←
      gcm_enc_partial aes counter inp out (WC_AES_BLOCK_SIZE * blocks) partial did_prefetches;
    if negb (ret =? 0) then mret (ret, out, authTag)
    else match authTag with
    | None => mret (ret, out, None)
    | Some tag =>
      tag ← GHASH (aes_gcm_H aes) authIn authInSz (Some out) sz tag authTagSz;
      let '(ret, scratch, _) :=
        AesEncrypt_preFetchOpt aes initialCounter (zeros WC_AES_BLOCK_SIZE) false did_prefetches in
      if negb (ret =? 0) then mret (ret, out, Some tag)
      else mret (ret, out, Some (xorbuf tag scratch authTagSz))
    end.

(** aes.c:12181-12199, [AES_GCM_decrypt_C]: the tag comparison turned into a
    mask, the code and the output chosen by it without branching. *)
Definition gcm_verdict (authTag Tprime : bytes) (authTagSz ret : Z) (out : bytes) (sz : Z) : Z * bytes :=
  let res := ConstantCompare authTag Tprime authTagSz in
  let res := 0 - Z.shiftr (w32 (0 - res)) 31 in
  let ret := Z.land ret (Z.lnot res) in
  let ret := Z.lor ret (Z.land res AES_GCM_AUTH_E) in
  let mask := w8 res in
  (ret, map (fun b => Z.land b (w8 (Z.lnot mask))) (take (Z.to_nat sz) out) ++ drop (Z.to_nat sz) out).

(** aes.c:12048-12202, [AES_GCM_decrypt_C]: the code and [out]. *)
Definition AES_GCM_decrypt_C (aes : Aes) (out inp : bytes) (sz : Z) (iv : bytes) (ivSz : Z)
    (authTag : bytes) (authTagSz : Z) (authIn : option bytes) (authInSz : Z) : M (Z * bytes) :=
  let blocks := sz / WC_AES_BLOCK_SIZE in
  let partial := sz mod WC_AES_BLOCK_SIZE in
  counter ← gcm_counter (aes_gcm_H aes) iv ivSz;
  Tprime ← GHASH (aes_gcm_H aes) authIn authInSz (Some inp) sz (zeros WC_AES_BLOCK_SIZE) WC_AES_BLOCK_SIZE;
  let '(ret, EKY0, _) := AesEncrypt_preFetchOpt aes counter (zeros WC_AES_BLOCK_SIZE) true 0 in
  if negb (ret =? 0) then mret (ret, out)
  else
    let Tprime := xorbuf Tprime EKY0 WC_AES_BLOCK_SIZE in
    '(ret, counter, out, _) ← gcm_ctr_loop aes (Z.to_nat blocks) counter inp out 0 true 0;
    if negb (ret =? 0) then mret (ret, out)
    else
      '(ret, out) ← gcm_dec_partial aes counter inp out (WC_AES_BLOCK_SIZE * blocks) partial;
      if negb (ret =? 0) then mret (ret, out)
      else
        t ← rd authTag 0 authTagSz;
        mret (gcm_verdict t Tprime authTagSz ret out sz).

(** aes.c:8717-8934, [wc_AesGcmSetKey] *)
Definition wc_AesGcmSetKey (aes : Aes) (key : option bytes) (len : Z) : Z * Aes :=
  if negb ((len =? 16) || (len =? 24) || (len =? 32)) then (BAD_FUNC_ARG, aes)
  else match key with
  | None => (BAD_FUNC_ARG, aes)
  | Some key =>
    let iv := zeros WC_AES_BLOCK_SIZE in
    let '(ret, aes) := wc_AesSetKey aes key len (Some iv) AES_ENCRYPTION in
    let '(ret, aes) :=
      if ret =? 0 then
        let '(ret, H, _) := AesEncrypt_preFetchOpt aes iv (aes_gcm_H aes) true 0 in
        (ret, set_aes_dev H (aes_devKey aes) (aes_keyInstalled aes) aes)
      else (ret, aes) in
    let aes := if negb (aes_devId aes =? INVALID_DEVID)
               then set_aes_dev (aes_gcm_H aes) (splice (aes_devKey aes) 0 (sub key 0 len))
                      (aes_keyInstalled aes) aes
               else aes in
    (ret, aes)
  end.

Section Device.
Context `{!Callbacks}.

(** aes.c:11459-11725, [wc_AesGcmEncrypt]: the code, the object, [out] and
    [authTag]. *)
Definition wc_AesGcmEncrypt (aes : Aes) (out inp : option bytes) (sz : Z) (iv : option bytes) (ivSz : Z)
    (authTag : option bytes) (authTagSz : Z) (authIn : option bytes) (authInSz : Z)
    : M (Z * Aes * option bytes * option bytes) :=
  if is_null iv || (ivSz =? 0) || (negb (sz =? 0) && (is_null inp || is_null out)) ||
     is_null authTag || ((0 <? authInSz) && is_null authIn)
  then mret (BAD_FUNC_ARG, aes, out, authTag)
  else
    let ret := wc_local_AesGcmCheckTagSz authTagSz in
    if negb (ret =? 0) then mret (ret, aes, out, authTag)
    else
      '(crypto_cb_ret, (aes, out, authTag)) ←
        (if negb (aes_devId aes =? INVALID_DEVID)
         then wc_CryptoCb_AesGcmEncrypt aes out inp sz iv ivSz authTag authTagSz authIn authInSz
         else mret (CRYPTOCB_UNAVAILABLE, (aes, out, authTag)));
      if negb (crypto_cb_ret =? CRYPTOCB_UNAVAILABLE) then mret (crypto_cb_ret, aes, out, authTag)
      else if negb (aes_keyInstalled aes) then mret (MISSING_KEY, aes, out, authTag)
      else
        '(ret, out', authTag) ← AES_GCM_encrypt_C aes (default [] out) (default [] inp) sz (default [] iv) ivSz
                                  authTag authTagSz authIn authInSz;
        mret (ret, aes, (fun _ => out') <$> out, authTag).

(** aes.c:12319-12600, [wc_AesGcmDecrypt]: the code, the object and [out]. *)
Definition wc_AesGcmDecrypt (aes : Aes) (out inp : option bytes) (sz : Z) (iv : option bytes) (ivSz : Z)
    (authTag : option bytes) (authTagSz : Z) (authIn : option bytes) (authInSz : Z)
    : M (Z * Aes * option bytes) :=
  if is_null iv || (negb (sz =? 0) && (is_null inp || is_null out)) || is_null authTag || (ivSz =? 0)
  then mret (BAD_FUNC_ARG, aes, out)
  else
    let ret := wc_local_AesGcmCheckTagSz authTagSz in
    if negb (ret =? 0) then mret (ret, aes, out)
    else
      '(crypto_cb_ret, (aes, out, _)) ←
        (if negb (aes_devId aes =? INVALID_DEVID)
         then wc_CryptoCb_AesGcmDecrypt aes out inp sz iv ivSz authTag authTagSz authIn authInSz
         else mret (CRYPTOCB_UNAVAILABLE, (aes, out, authTag)));
      if negb (crypto_cb_ret =? CRYPTOCB_UNAVAILABLE) then mret (crypto_cb_ret, aes, out)
      else if negb (aes_keyInstalled aes) then mret (MISSING_KEY, aes, out)
      else
        '(ret, out') ← AES_GCM_decrypt_C aes (default [] out) (default [] inp) sz (default [] iv) ivSz
                         (default [] authTag) authTagSz authIn authInSz;
        mret (ret, aes, (fun _ => out') <$> out).

End Device.

#[global] Arguments GMULT : simpl never.
#[global] Arguments GMULT_step : simpl never.
#[global] Arguments load_block : simpl never.

(** ** SP 800-38D *)

Module Sp800_38D.

(** The field GF(2^128): the block [X] is the polynomial whose coefficient of
    degree [i] is bit [i], the leftmost being bit 0. *)
Definition bit (X : Z) (i : nat) : bool := Z.testbit X (127 - Z.of_nat i).

Definition R : Z := Z.shiftl 0xE1 120.

(** Multiplication by the polynomial x. *)
Definition times_x (V : Z) : Z := if Z.testbit V 0 then Z.shiftr V 1 ⊕ R else Z.shiftr V 1.

(** Algorithm 1. *)
Definition mul (X Y : Z) : Z :=
  (foldl (fun '(z, v) i => (if bit X i then z ⊕ v else z, times_x v)) (0, Y) (seq 0 128)).1.

(** Algorithm 2, on a string of whole blocks. *)
Definition GHASH_from (H y : Z) (s : bytes) : Z :=
  foldl (fun y b => mul (y ⊕ be_combine b) H) y (group 16 (length s / 16) s).

Definition GHASH_H (H : Z) (s : bytes) : bytes := be_split 16 (GHASH_from H 0 s).

Definition pad (s : bytes) : bytes := s ++ zeros ((- len s) mod 16).

Definition inc32 (cb : bytes) : bytes := take 12 cb ++ be_split 4 (be_combine (drop 12 cb) + 1).

(** The [i]-th counter block. *)
Definition counter_block (icb : bytes) (i : nat) : bytes := Nat.iter i inc32 icb.

(** Algorithm 3. *)
Definition GCTR (E : bytes -> bytes) (icb x : bytes) : bytes :=
  xorb_list x (take (length x)
    (flat_map (fun i => E (counter_block icb i)) (seq 0 ((length x + 15) / 16)))).

Section Gcm.
Context (E : bytes -> bytes).   (* the block cipher under the key *)

Definition hash_key : Z := be_combine (E (zeros 16)).

Definition J0 (iv : bytes) : bytes :=
  if len iv =? 12 then iv ++ [0; 0; 0; 1]
  else GHASH_H hash_key (pad iv ++ be_split 8 0 ++ be_split 8 (8 * len iv)).

Definition tag (iv aad c : bytes) (t : Z) : bytes :=
  take (Z.to_nat t) (GCTR E (J0 iv)
    (GHASH_H hash_key (pad aad ++ pad c ++ be_split 8 (8 * len aad) ++ be_split 8 (8 * len c)))).

(** Algorithm 4. *)
Definition GCM_AE (iv p aad : bytes) (t : Z) : bytes * bytes :=
  let c := GCTR E (inc32 (J0 iv)) p in (c, tag iv aad c t).

(** Algorithm 5. *)
Definition GCM_AD (iv c aad t : bytes) : option bytes :=
  if bool_decide (tag iv aad c (len t) = t) then Some (GCTR E (inc32 (J0 iv)) c) else None.

End Gcm.
End Sp800_38D.

Import Fips197 Sp800_38D.
#[global] Arguments mul : simpl never.
#[global] Arguments times_x : simpl never.
#[global] Arguments GHASH_from : simpl never.

(** ** The multiplier *)

(** The block held in two words. *)
Definition val (p : Z * Z) : Z := Z.shiftl p.1 64 ⊕ p.2.

Definition is_word64 (x : Z) : Prop := 0 <= x < 2 ^ 64.
Definition pair_ok (p : Z * Z) : Prop := is_word64 p.1 /\ is_word64 p.2.
Definition is_block (x : Z) : Prop := 0 <= x < 2 ^ 128.

Lemma lxor_4 a b c d : a ⊕ b ⊕ (c ⊕ d) = a ⊕ c ⊕ (b ⊕ d).
Proof. rewrite !Z.lxor_assoc. f_equal. rewrite <-!Z.lxor_assoc. f_equal. apply Z.lxor_comm. Qed.

Lemma val_xor a b : val (xor2 a b) = val a ⊕ val b.
Proof. unfold val, xor2. cbn [fst snd]. rewrite Z.shiftl_lxor. apply lxor_4. Qed.

Lemma val_block p : pair_ok p -> is_block (val p).
Proof.
  intros [H1 H2]. unfold val. apply lxor_bound; [lia| |unfold is_word64 in *; lia].
  rewrite Z.shiftl_mul_pow2 by lia. unfold is_word64 in *. nia.
Qed.

Lemma val_shiftr a b : is_word64 b ->
  Z.shiftr (val (a, b)) 1 = val (Z.shiftr a 1, Z.lor (Z.shiftr b 1) (w64 (Z.shiftl a 63))).
Proof.
  intros Hb. apply Z.bits_inj'. intros i Hi. unfold val. cbn [fst snd].
  rewrite Z.shiftr_spec, !Z.lxor_spec, Z.lor_spec, Z.shiftr_spec, testbit_w64 by lia.
  rewrite !shiftl_spec_any, shiftr_spec_any.
  destruct (Z.ltb_spec i 64) as [Hlt|Hge].
  - replace (i + 1 - 64) with (i - 63) by lia.
    destruct (Z.ltb_spec (i - 64) 0); [|lia]. destruct (Z.ltb_spec (i + 1) 0); [lia|].
    destruct (Z.ltb_spec i 0); [lia|]. cbn [negb andb xorb]. destruct (Z.eq_dec i 63) as [->|].
    + rewrite (testbit_above 64 b (63 + 1) Hb) by lia. by destruct (Z.testbit a _).
    + rewrite (Z.testbit_neg_r a) by lia. by destruct (Z.testbit b _).
  - rewrite (testbit_above 64 b (i + 1) Hb) by lia.
    destruct (Z.ltb_spec (i - 64) 0); [lia|]. destruct (Z.ltb_spec (i + 1) 0); [lia|].
    destruct (Z.ltb_spec i 0); [lia|]. cbn [negb andb orb]. by replace (i + 1 - 64) with (i - 64 + 1) by lia.
Qed.

Lemma val_bit0 a b : Z.testbit (val (a, b)) 0 = Z.testbit b 0.
Proof.
  unfold val. cbn [fst snd]. rewrite Z.lxor_spec, shiftl_spec_any. cbn [Z.ltb Z.compare negb].
  by rewrite Z.testbit_neg_r by lia.
Qed.

Lemma mask_bit b : w64 (0 - Z.b2z b) = if b then 2 ^ 64 - 1 else 0.
Proof. by destruct b. Qed.

Lemma land_mask x (b : bool) : is_word64 x -> Z.land x (if b then 2 ^ 64 - 1 else 0) = if b then x else 0.
Proof.
  intros Hx. destruct b; [|apply Z.land_0_r]. change (2 ^ 64 - 1) with (Z.ones 64).
  rewrite Z.land_ones by lia. by apply Z.mod_small.
Qed.

Lemma top_bit y : is_word64 y -> Z.shiftr y 63 = Z.b2z (Z.testbit y 63).
Proof.
  intros Hy. rewrite Z.testbit_spec' by lia. rewrite Z.shiftr_div_pow2 by lia.
  symmetry. apply Z.mod_small. unfold is_word64 in Hy. split; [apply Z.div_pos; lia|].
  apply Z.div_lt_upper_bound; lia.
Qed.

Lemma low_bit x : Z.land x 1 = Z.b2z (Z.testbit x 0).
Proof. change 1 with (Z.ones 1) at 1. rewrite Z.land_ones, Z.bit0_mod by lia. done. Qed.

Lemma xor_if (b : bool) x y : (if b then x ⊕ y else x) = x ⊕ (if b then y else 0).
Proof. destruct b; [done|]. by rewrite Z.lxor_0_r. Qed.

Lemma pair_xor a b : pair_ok a -> pair_ok b -> pair_ok (xor2 a b).
Proof. intros [? ?] [? ?]. split; apply (lxor_bound 64); done || lia. Qed.

(** One step of the loop: the multiplier's bit selects, and the multiplicand is
    multiplied by x. *)
Lemma GMULT_step_spec z v y : pair_ok z -> pair_ok v -> is_word64 y ->
  exists z' v', GMULT_step (z, v, y) = (z', v', w64 (Z.shiftl y 1)) /\ pair_ok z' /\ pair_ok v' /\
    val z' = (if Z.testbit y 63 then val z ⊕ val v else val z) /\ val v' = times_x (val v).
Proof.
  destruct z as [za zb], v as [va vb]. intros Hz Hv Hy.
  unfold GMULT_step. rewrite (top_bit y Hy), low_bit, !mask_bit.
  destruct Hv as [Hva Hvb]. cbn [fst snd] in Hva, Hvb. rewrite !land_mask by done.
  set (sel := if Z.testbit y 63 then (va, vb) else (0, 0)).
  set (red := if Z.testbit vb 0 then (0xE100000000000000, 0) else (0, 0)).
  assert (forall b : bool, Z.land (if b then 2 ^ 64 - 1 else 0) 0xE100000000000000 =
    (if b then 0xE100000000000000 else 0)) as -> by (by intros []).
  exists (xor2 (za, zb) sel), (xor2 (Z.shiftr va 1, Z.lor (Z.shiftr vb 1) (w64 (Z.shiftl va 63))) red).
  assert (is_word64 0) as H0 by (unfold is_word64; lia).
  split; [|split; [|split; [|split]]].
  - unfold xor2, sel, red. cbn [fst snd]. destruct (Z.testbit y 63), (Z.testbit vb 0); cbn [fst snd];
      by rewrite ?Z.lxor_0_r.
  - apply pair_xor; [done|]. unfold sel. by destruct (Z.testbit y 63).
  - apply pair_xor; [|unfold red; destruct (Z.testbit vb 0); [split; unfold is_word64; cbn; lia|done]].
    split; cbn [fst snd]; [apply (shiftr_bound 64); [lia|done]|].
    apply (lor_bound 64); [lia|apply (shiftr_bound 64); [lia|done]|apply w64_range].
  - rewrite val_xor, xor_if. f_equal. unfold sel. by destruct (Z.testbit y 63).
  - rewrite val_xor, <-val_shiftr by done. unfold times_x. rewrite val_bit0, xor_if. f_equal.
    unfold red. by destruct (Z.testbit vb 0).
Qed.

(** The spec's loop over bits [k], [k+1], ..., [k+n-1] of [X]. *)
Definition mul_loop (X : Z) (k n : nat) (zv : Z * Z) : Z * Z :=
  foldl (fun '(z, v) i => (if bit X i then z ⊕ v else z, times_x v)) zv (seq k n).

Lemma testbit_shl1 y i : 0 <= i < 64 -> Z.testbit (w64 (Z.shiftl y 1)) i = Z.testbit y (i - 1).
Proof.
  intros Hi. rewrite testbit_w64, shiftl_spec_any. rewrite (proj2 (Z.ltb_lt i 64)) by lia.
  by rewrite (proj2 (Z.ltb_ge i 0)) by lia.
Qed.

Lemma GMULT_half X k n : forall z v y, pair_ok z -> pair_ok v -> is_word64 y -> (n <= 64)%nat ->
  (forall i, (i < n)%nat -> Z.testbit y (63 - Z.of_nat i) = bit X (k + i)) ->
  exists z' v' y', Nat.iter n GMULT_step (z, v, y) = (z', v', y') /\ pair_ok z' /\ pair_ok v' /\
    (val z', val v') = mul_loop X k n (val z, val v).
Proof.
  revert k. induction n as [|n IH]; intros k z v y Hz Hv Hy Hn Hb; [by exists z, v, y|].
  rewrite Nat.iter_succ_r. destruct (GMULT_step_spec z v y Hz Hv Hy) as (z1 & v1 & -> & Hz1 & Hv1 & Ez & Ev).
  destruct (IH (S k) z1 v1 (w64 (Z.shiftl y 1))) as (z' & v' & y' & E & ? & ? & Eq); [done|done|apply w64_range|lia| |].
  { intros i Hi. rewrite testbit_shl1 by lia. replace (63 - Z.of_nat i - 1) with (63 - Z.of_nat (S i)) by lia.
    rewrite Hb by lia. f_equal. lia. }
  exists z', v', y'. split; [exact E|]. split; [done|]. split; [done|]. rewrite Eq.
  unfold mul_loop. cbn [seq foldl]. f_equal. rewrite Ez, Ev, <-(Nat.add_0_r k) at 1. rewrite <-(Hb 0%nat) by lia. done.
Qed.

Lemma val_testbit p i : pair_ok p -> 0 <= i ->
  Z.testbit (val p) i = if i <? 64 then Z.testbit p.2 i else Z.testbit p.1 (i - 64).
Proof.
  intros [Ha Hb] Hi. unfold val. rewrite Z.lxor_spec, shiftl_spec_any, (proj2 (Z.ltb_ge i 0)) by lia. cbn [negb andb].
  destruct (Z.ltb_spec i 64); [by rewrite (Z.testbit_neg_r p.1) by lia|].
  rewrite (testbit_above 64 p.2) by (done || lia). apply xorb_false_r.
Qed.

Lemma mul_split X Y : mul X Y = (mul_loop X 64 64 (mul_loop X 0 64 (0, Y))).1.
Proof.
  unfold mul, mul_loop. rewrite <-foldl_app. change (seq 64 64) with (seq (0 + 64) 64).
  by rewrite <-seq_app.
Qed.

Lemma GMULT_spec X Y : pair_ok X -> pair_ok Y ->
  pair_ok (GMULT X Y) /\ val (GMULT X Y) = mul (val Y) (val X).
Proof.
  intros HX HY. unfold GMULT.
  assert (pair_ok (0, 0)) as H0 by (split; unfold is_word64; cbn; lia).
  assert (forall i, (i < 64)%nat -> Z.testbit Y.1 (63 - Z.of_nat i) = bit (val Y) (0 + i)) as B1.
  { intros i Hi. unfold bit. rewrite val_testbit by (done || lia). rewrite (proj2 (Z.ltb_ge _ _)) by lia. f_equal. lia. }
  assert (forall i, (i < 64)%nat -> Z.testbit Y.2 (63 - Z.of_nat i) = bit (val Y) (64 + i)) as B2.
  { intros i Hi. unfold bit. rewrite val_testbit by (done || lia). rewrite (proj2 (Z.ltb_lt _ _)) by lia. f_equal. lia. }
  destruct (GMULT_half (val Y) 0 64 (0, 0) X Y.1 H0 HX (proj1 HY) (le_n 64) B1) as (z1 & v1 & y1 & -> & Hz1 & Hv1 & E1).
  destruct (GMULT_half (val Y) 64 64 z1 v1 Y.2 Hz1 Hv1 (proj2 HY) (le_n 64) B2) as (z2 & v2 & y2 & -> & Hz2 & Hv2 & E2).
  split; [done|]. rewrite mul_split. rewrite E1 in E2. change (val (0, 0)) with 0 in E2. by rewrite <-E2.
Qed.

(** Multiplication is commutative: both sides are the sum of the products of
    the coefficients. *)

Fixpoint xsum (n : nat) (f : nat -> Z) : Z :=
  match n with O => 0 | S n => xsum n f ⊕ f n end.

Lemma xsum_ext n f g : (forall i, (i < n)%nat -> f i = g i) -> xsum n f = xsum n g.
Proof. induction n as [|n IH]; intros H; cbn; [done|]. rewrite IH, H by auto with lia. done. Qed.

Lemma xsum_xor n f g : xsum n (fun i => f i ⊕ g i) = xsum n f ⊕ xsum n g.
Proof. induction n as [|n IH]; cbn; [done|]. rewrite IH. apply lxor_4. Qed.

Lemma xsum_0 n : xsum n (fun _ => 0) = 0.
Proof. induction n as [|n IH]; cbn; [done|]. by rewrite IH. Qed.

Lemma xsum_swap n m f : xsum n (fun i => xsum m (f i)) = xsum m (fun j => xsum n (fun i => f i j)).
Proof.
  induction n as [|n IH]; cbn; [by rewrite xsum_0|]. rewrite IH. by rewrite <-xsum_xor.
Qed.

Lemma times_x_xor u v : times_x (u ⊕ v) = times_x u ⊕ times_x v.
Proof.
  unfold times_x. rewrite !xor_if, Z.lxor_spec, Z.shiftr_lxor, <-lxor_4. f_equal.
  destruct (Z.testbit u 0), (Z.testbit v 0); cbn [xorb]; by rewrite ?Z.lxor_nilpotent, ?Z.lxor_0_r.
Qed.

Lemma iter_times_x_xor n u v : Nat.iter n times_x (u ⊕ v) = Nat.iter n times_x u ⊕ Nat.iter n times_x v.
Proof. induction n as [|n IH]; [done|]. by rewrite !Nat.iter_succ, IH, times_x_xor. Qed.

Lemma iter_times_x_0 n : Nat.iter n times_x 0 = 0.
Proof. induction n as [|n IH]; [done|]. by rewrite Nat.iter_succ, IH. Qed.

Lemma iter_times_x_xsum n m f : Nat.iter n times_x (xsum m f) = xsum m (fun j => Nat.iter n times_x (f j)).
Proof. induction m as [|m IH]; cbn [xsum]; [apply iter_times_x_0|]. by rewrite iter_times_x_xor, IH. Qed.

Lemma times_x_pow m : 0 < m -> times_x (2 ^ m) = 2 ^ (m - 1).
Proof.
  intros Hm. unfold times_x. rewrite Z.pow2_bits_false by lia.
  rewrite Z.shiftr_div_pow2 by lia. change (2 ^ 1) with 2. replace m with (m - 1 + 1) at 1 by lia.
  rewrite Z.pow_add_r by lia. apply Z.div_mul. lia.
Qed.

Lemma iter_times_x_one j : (j < 128)%nat -> Nat.iter j times_x (2 ^ 127) = 2 ^ (127 - Z.of_nat j).
Proof.
  induction j as [|j IH]; intros Hj; [done|]. rewrite Nat.iter_succ, IH, times_x_pow by lia. f_equal. lia.
Qed.

Lemma mul_loop_xsum X Y n : mul_loop X 0 n (0, Y) =
  (xsum n (fun i => if bit X i then Nat.iter i times_x Y else 0), Nat.iter n times_x Y).
Proof.
  induction n as [|n IH]; [done|]. unfold mul_loop in *. rewrite seq_S, foldl_app, IH. cbn [foldl Nat.add].
  rewrite xor_if. reflexivity.
Qed.

(** A block is the sum of its coefficients. *)
Lemma block_xsum Y : is_block Y -> Y = xsum 128 (fun j => if bit Y j then Nat.iter j times_x (2 ^ 127) else 0).
Proof.
  intros HY. rewrite (xsum_ext 128 _ (fun j => if bit Y j then 2 ^ (127 - Z.of_nat j) else 0)).
  2:{ intros i Hi. by rewrite iter_times_x_one. }
  assert (forall n, (n <= 128)%nat -> forall k, 0 <= k ->
    Z.testbit (xsum n (fun j => if bit Y j then 2 ^ (127 - Z.of_nat j) else 0)) k =
    (127 - k <? Z.of_nat n) && (k <? 128) && Z.testbit Y k) as Hbits.
  { induction n as [|n IH]; intros Hn k Hk; cbn [xsum].
    - rewrite Z.bits_0. destruct (Z.ltb_spec (127 - k) (Z.of_nat 0)), (Z.ltb_spec k 128); done || lia.
    - rewrite Z.lxor_spec, IH by lia.
      destruct (Z.eq_dec k (127 - Z.of_nat n)) as [->|Hne].
      + rewrite (proj2 (Z.ltb_ge _ (Z.of_nat n))), (proj2 (Z.ltb_lt _ (Z.of_nat (S n)))), (proj2 (Z.ltb_lt _ 128)) by lia.
        unfold bit. cbn [andb xorb]. destruct (Z.testbit Y _); [apply Z.pow2_bits_true; lia|apply Z.bits_0].
      + replace (127 - k <? Z.of_nat (S n)) with (127 - k <? Z.of_nat n)
          by (destruct (Z.ltb_spec (127 - k) (Z.of_nat n)), (Z.ltb_spec (127 - k) (Z.of_nat (S n))); done || lia).
        destruct (bit Y n); [rewrite Z.pow2_bits_false by lia|rewrite Z.bits_0]; apply xorb_false_r. }
  apply Z.bits_inj'. intros k Hk. rewrite Hbits by lia. rewrite (proj2 (Z.ltb_lt (127 - k) _)) by lia.
  destruct (Z.ltb_spec k 128); [done|]. by rewrite (testbit_above 128 Y k HY) by lia.
Qed.

Lemma mul_expand X Y : is_block Y -> mul X Y =
  xsum 128 (fun i => xsum 128 (fun j => if bit X i && bit Y j then Nat.iter (i + j) times_x (2 ^ 127) else 0)).
Proof.
  intros HY. assert (mul X Y = (mul_loop X 0 128 (0, Y)).1) as -> by (unfold mul, mul_loop; reflexivity).
  rewrite mul_loop_xsum. cbn [fst]. pose proof (block_xsum Y HY) as E.
  generalize dependent 128%nat. intros n E.
  apply xsum_ext. intros i Hi. destruct (bit X i); cbn [andb]; [|by rewrite xsum_0].
  rewrite E at 1. rewrite iter_times_x_xsum. apply xsum_ext. intros j Hj.
  destruct (bit Y j); [by rewrite Nat.iter_add|apply iter_times_x_0].
Qed.

Lemma mul_comm X Y : is_block X -> is_block Y -> mul X Y = mul Y X.
Proof.
  intros HX HY. rewrite !mul_expand, xsum_swap by done. apply xsum_ext. intros i Hi. apply xsum_ext. intros j Hj.
  by rewrite andb_comm, Nat.add_comm.
Qed.

(** ** GHASH *)

Lemma le_combine_cons b t : 0 <= b < 256 -> le_combine (b :: t) = b ⊕ Z.shiftl (le_combine t) 8.
Proof.
  intros Hb. cbn [le_combine]. apply Z.bits_inj'. intros i Hi.
  rewrite Z.lor_spec, Z.lxor_spec, shiftl_spec_any. destruct (Z.ltb_spec i 8).
  - rewrite (Z.testbit_neg_r (le_combine t)) by lia. rewrite andb_false_r. by destruct (Z.testbit b i).
  - by rewrite (testbit_above 8 b i Hb) by lia.
Qed.

Lemma le_combine_app_xor a b : bytes_ok a -> le_combine (a ++ b) = le_combine a ⊕ Z.shiftl (le_combine b) (8 * len a).
Proof.
  intros Ha. induction Ha as [|x a Hx Ha IH]; [cbn; by rewrite Z.shiftl_0_r|].
  cbn [app]. rewrite !le_combine_cons, IH by done. rewrite Z.shiftl_lxor, Z.shiftl_shiftl by (unfold len; lia).
  rewrite len_cons, Z.lxor_assoc. do 3 f_equal. lia.
Qed.

Lemma be_combine_app_xor a b : bytes_ok b -> be_combine (a ++ b) = Z.shiftl (be_combine a) (8 * len b) ⊕ be_combine b.
Proof.
  intros Hb. unfold be_combine. rewrite rev_app_distr, le_combine_app_xor by auto with wf.
  unfold len. rewrite length_rev. apply Z.lxor_comm.
Qed.

Lemma load_block_spec b : block_ok b -> pair_ok (load_block b) /\ val (load_block b) = be_combine b.
Proof.
  intros Hb. pose proof (block_ok_inv b Hb) as Hex. destruct Hb as [_ Hok].
  destruct Hex as (a0 & a1 & a2 & a3 & b0 & b1 & b2 & b3 & c0 & c1 & c2 & c3 & d0 & d1 & d2 & d3 & ->).
  split_bytes.
  change (load_block _) with (ByteReverseWord64 (le_combine [a0; a1; a2; a3; b0; b1; b2; b3]),
    ByteReverseWord64 (le_combine [c0; c1; c2; c3; d0; d1; d2; d3])).
  rewrite !ByteReverseWord64_le by solve_bytes.
  split; [split; (apply (be_combine_range [_; _; _; _; _; _; _; _]); solve_bytes)|].
  symmetry. apply (be_combine_app_xor [_; _; _; _; _; _; _; _] [_; _; _; _; _; _; _; _]). solve_bytes.
Qed.

(** A word is its eight bytes. *)
Lemma word64_bytes w : is_word64 w -> exists a b c d e f g h,
  bytes_ok [a; b; c; d; e; f; g; h] /\ w = be_combine [a; b; c; d; e; f; g; h].
Proof.
  intros Hw. pose proof (be_split_ok 8 w) as Hok. pose proof (be_combine_split 8 w) as Hc.
  rewrite Z.mod_small in Hc by (unfold is_word64 in Hw; lia).
  assert (length (be_split 8 w) = 8%nat) as L by done.
  destruct (be_split 8 w) as [|a [|b [|c [|d [|e [|f [|g [|h [|]]]]]]]]]; try discriminate. eauto 20.
Qed.

Lemma store_block x : pair_ok x ->
  flat_map (le_split 8) (ByteReverseWords64 [x.1; x.2] 16) = be_split 16 (val x).
Proof.
  destruct x as [x0 x1]. intros [H0 H1]. cbn [fst snd] in *.
  destruct (word64_bytes x0 H0) as (a & b & c & d & e & f & g & h & Hok0 & ->).
  destruct (word64_bytes x1 H1) as (a' & b' & c' & d' & e' & f' & g' & h' & Hok1 & ->).
  pose proof (be_combine_app_xor [a; b; c; d; e; f; g; h] [a'; b'; c'; d'; e'; f'; g'; h'] Hok1) as E.
  change (8 * len [a'; b'; c'; d'; e'; f'; g'; h']) with 64 in E. unfold val. cbn [fst snd]. rewrite <-E.
  assert (bytes_ok ([a; b; c; d; e; f; g; h] ++ [a'; b'; c'; d'; e'; f'; g'; h'])) as Hok by (by rewrite bytes_ok_app).
  pose proof (be_split_combine _ Hok) as E2. change (length _) with 16%nat in E2. rewrite E2.
  assert (forall a b c d e f g h, bytes_ok [a; b; c; d; e; f; g; h] ->
    le_split 8 (ByteReverseWord64 (be_combine [a; b; c; d; e; f; g; h])) = [a; b; c; d; e; f; g; h]) as Hone.
  { clear. intros a b c d e f g h Ho. split_bytes.
    change (be_combine [a; b; c; d; e; f; g; h]) with (le_combine [h; g; f; e; d; c; b; a]).
    rewrite ByteReverseWord64_le by solve_bytes.
    change (be_combine [h; g; f; e; d; c; b; a]) with (le_combine [a; b; c; d; e; f; g; h]).
    apply (le_split_combine [a; b; c; d; e; f; g; h]). solve_bytes. }
  change (flat_map (le_split 8) _) with
    (le_split 8 (ByteReverseWord64 (be_combine [a; b; c; d; e; f; g; h])) ++
     le_split 8 (ByteReverseWord64 (be_combine [a'; b'; c'; d'; e'; f'; g'; h'])) ++ []).
  by rewrite !Hone.
Qed.

Lemma times_x_block v : is_block v -> is_block (times_x v).
Proof.
  intros Hv. unfold times_x. rewrite xor_if. apply (lxor_bound 128); [lia|apply shiftr_bound; [lia|done]|].
  destruct (Z.testbit v 0); vm_compute; split; congruence.
Qed.

Lemma GMULT_mul x h : pair_ok x -> pair_ok h -> pair_ok (GMULT x h) /\ val (GMULT x h) = mul (val x) (val h).
Proof.
  intros Hx Hh. destruct (GMULT_spec x h Hx Hh) as [Hok E]. split; [done|]. rewrite E.
  apply mul_comm; by apply val_block.
Qed.

Lemma GHASH_from_app H y a b : (length a mod 16 = 0)%nat ->
  GHASH_from H y (a ++ b) = GHASH_from H (GHASH_from H y a) b.
Proof.
  intros Ha. unfold GHASH_from. rewrite <-foldl_app. f_equal.
  assert (length a = 16 * (length a / 16))%nat as La.
  { pose proof (Nat.div_mod_eq (length a) 16). lia. }
  rewrite length_app. replace (length a + length b)%nat with (length a / 16 * 16 + length b)%nat by lia.
  rewrite Nat.div_add_l by lia. by apply group_app.
Qed.

Lemma GHASH_from_block H y b : length b = 16%nat -> GHASH_from H y b = mul (y ⊕ be_combine b) H.
Proof. intros Hb. unfold GHASH_from. rewrite Hb. cbn. by rewrite firstn_all2 by lia. Qed.

Lemma length_pad s : (length (pad s) mod 16 = 0)%nat.
Proof.
  apply Nat2Z.inj. rewrite Nat2Z.inj_mod. fold (len (pad s)). unfold pad. pose proof (Z.mod_pos_bound (- len s) 16).
  rewrite len_app, len_zeros by lia. cbn [Z.of_nat]. change (Z.of_nat 16) with 16.
  rewrite Zplus_mod_idemp_r. by replace (len s + - len s) with 0 by lia.
Qed.

(** The bytes a nullable pointer and a size give. *)
Definition input (p : option bytes) (sz : Z) : bytes := take (Z.to_nat sz) (default [] p).

Definition input_ok (p : option bytes) (sz : Z) : Prop :=
  0 <= sz < 2 ^ 32 /\ match p with Some d => sz <= len d /\ bytes_ok d | None => sz = 0 end.

Section Ghash.
Context (e : env) (bigH : Z * Z).
Hypothesis HH : pair_ok bigH.

Lemma ghash_blocks_spec p : bytes_ok p -> forall n x off, pair_ok x -> 0 <= off ->
  off + 16 * Z.of_nat n <= len p ->
  calc e 0 (ghash_blocks bigH x p off n) (fun x' => pair_ok x' /\
    val x' = GHASH_from (val bigH) (val x) (sub p off (16 * Z.of_nat n))).
Proof.
  intros Hp. induction n as [|n IH]; intros x off Hx Ho Hl; cbn [ghash_blocks].
  - calc_step. split; [done|]. reflexivity.
  - calc_step; [lia|lia|lia|].
    set (b := sub p off WC_AES_BLOCK_SIZE).
    assert (length b = 16%nat) as Lb.
    { pose proof (len_sub p off WC_AES_BLOCK_SIZE Ho) as L. unfold b, len in *. lia. }
    assert (block_ok b) as Hb by (split; [done|unfold b; auto with wf]).
    destruct (load_block_spec b Hb) as [Hlb Elb].
    destruct (GMULT_mul (xor2 x (load_block b)) bigH (pair_xor _ _ Hx Hlb) HH) as [Hg Eg].
    eapply calc_mono; [apply IH; [done|lia|lia]|].
    intros x' [Hx' E]. split; [done|]. rewrite E, Eg, val_xor, Elb, <-GHASH_from_block by done.
    rewrite <-GHASH_from_app by (by rewrite Lb). f_equal. unfold b, sub.
    replace (Z.to_nat (16 * Z.of_nat (S n))) with (16 + Z.to_nat (16 * Z.of_nat n))%nat by lia.
    rewrite <-take_take_drop, drop_drop. do 3 f_equal; lia.
Qed.

Lemma ghash_input_spec x p sz : pair_ok x -> input_ok p sz ->
  calc e 0 (ghash_input bigH x p sz) (fun x' => pair_ok x' /\
    val x' = GHASH_from (val bigH) (val x) (pad (input p sz))).
Proof.
  intros Hx [Hsz Hp]. destruct p as [p|]; cbn [ghash_input].
  2:{ subst sz. calc_step. by split. }
  destruct Hp as [Hl Hok]. destruct (Z.eqb_spec sz 0) as [->|Hne]; cbn [negb]; [calc_step; by split|].
  pose proof (Z.div_mod sz 16 ltac:(lia)) as Hdm.
  pose proof (Z.mod_pos_bound sz 16 ltac:(lia)) as Hm. pose proof (Z.div_pos sz 16 ltac:(lia) ltac:(lia)) as Hd.
  eapply calc_bind; [apply (ghash_blocks_spec p Hok); [done|lia|lia]|].
  intros x1 [Hx1 E1]. rewrite Z2Nat.id in E1 by lia.
  assert (input (Some p) sz = sub p 0 (16 * (sz / 16)) ++ sub p (16 * (sz / 16)) (sz mod 16)) as Es.
  { unfold input, sub. cbn [from_option id]. rewrite drop_0, take_take_drop. f_equal. lia. }
  assert (len (input (Some p) sz) = sz) as Li by (unfold input, len in *; cbn [from_option id]; rewrite length_take; lia).
  assert (len (sub p 0 (16 * (sz / 16))) = 16 * (sz / 16)) as L0 by (apply len_sub; lia).
  assert (length (sub p 0 (16 * (sz / 16))) mod 16 = 0)%nat as M0.
  { replace (length _) with (Z.to_nat (sz / 16) * 16)%nat by (unfold len in L0; lia). apply Nat.Div0.mod_mul. }
  destruct (Z.eqb_spec (sz mod 16) 0) as [Hz|Hnz]; cbn [negb].
  - calc_step. split; [done|]. rewrite E1. unfold pad. rewrite Li. rewrite Z.mod_opp_l_z by lia.
    rewrite Es, Hz. unfold sub at 3. cbn [Z.to_nat]. by rewrite take_0, !app_nil_r.
  - calc_step; [lia|lia|lia|]. calc_step. set (b := sub p (16 * (sz / 16)) (sz mod 16)) in *.
    assert (len b = sz mod 16) as Lb by (apply len_sub; lia).
    assert (splice (zeros 16) 0 b = b ++ zeros ((- sz) mod 16)) as Eb.
    { rewrite Z.mod_opp_l_nz by lia. unfold splice, zeros. cbn [Z.to_nat]. rewrite take_0, app_nil_l. f_equal.
      rewrite drop_replicate. f_equal. unfold len in Lb. lia. }
    rewrite Eb. assert (block_ok (b ++ zeros ((- sz) mod 16))) as Hb.
    { split; [|rewrite bytes_ok_app; unfold b; auto with wf]. rewrite <-Eb, length_splice; [done|lia|].
      rewrite Lb, len_zeros; lia. }
    destruct (load_block_spec _ Hb) as [Hlb Elb].
    destruct (GMULT_mul (xor2 x1 (load_block (b ++ zeros ((- sz) mod 16)))) bigH (pair_xor _ _ Hx1 Hlb) HH) as [Hg Eg].
    split; [done|]. rewrite Eg, val_xor, Elb, E1, <-GHASH_from_block by (apply Hb).
    rewrite <-GHASH_from_app by done. f_equal. unfold pad. by rewrite Li, Es, <-app_assoc.
Qed.

End Ghash.

#[local] Opaque mul GMULT GHASH_from.

Lemma len_input p sz : input_ok p sz -> len (input p sz) = sz.
Proof.
  intros [Hsz Hp]. destruct p as [p|]; unfold input, len in *; cbn [from_option id].
  - rewrite length_take. lia.
  - subst. done.
Qed.

Lemma input_bytes p sz : input_ok p sz -> bytes_ok (input p sz).
Proof. intros [_ Hp]. destruct p as [p|]; unfold input; cbn [from_option id]; [destruct Hp; auto with wf|rewrite take_nil; constructor]. Qed.

Lemma lengths_block a c : is_word64 a -> is_word64 c -> be_combine (be_split 8 a ++ be_split 8 c) = val (a, c).
Proof.
  intros Ha Hc. rewrite be_combine_app_xor by auto with wf. rewrite !be_combine_split, len_be_split.
  unfold val. by rewrite !Z.mod_small by (unfold is_word64 in *; cbn; lia).
Qed.

Lemma GHASH_code e H a aSz c cSz s sSz :
  block_ok H -> input_ok a aSz -> input_ok c cSz -> 0 <= sSz <= 16 -> sSz <= len s ->
  calc e 0 (GHASH H a aSz c cSz s sSz) (fun s' => s' = splice s 0 (take (Z.to_nat sSz)
    (GHASH_H (be_combine H)
       (pad (input a aSz) ++ pad (input c cSz) ++ be_split 8 (8 * aSz) ++ be_split 8 (8 * cSz))))).
Proof.
  intros HH Ha Hc Hs Hl. destruct (load_block_spec H HH) as [Hbig EH]. unfold GHASH.
  assert (pair_ok (0, 0)) as H0 by (split; unfold is_word64; cbn; lia).
  eapply calc_bind; [by apply ghash_input_spec|]. intros x1 [Hx1 E1].
  eapply calc_bind; [by apply ghash_input_spec|]. intros x2 [Hx2 E2].
  destruct Ha as [Ha _], Hc as [Hc _]. rewrite !w64_id by lia.
  assert (pair_ok (aSz * 8, cSz * 8)) as Hp by (split; unfold is_word64; cbn [fst snd]; lia).
  destruct (GMULT_mul _ _ (pair_xor _ _ Hx2 Hp) Hbig) as [Hg Eg].
  set (g := GMULT _ _) in *. rewrite store_block by done.
  calc_step; [lia|lia|rewrite len_be_split; lia|].
  rewrite val_xor, EH in Eg. calc_step; [lia|rewrite len_sub; [lia..|rewrite len_be_split; lia]|].
  unfold sub. rewrite drop_0. unfold GHASH_H. do 4 f_equal. rewrite Eg, E2, E1, EH.
  rewrite 2!GHASH_from_app by apply length_pad. rewrite (GHASH_from_block _ _ (be_split 8 _ ++ _)) by reflexivity. f_equal. f_equal.
  rewrite lengths_block by (unfold is_word64; lia). by rewrite (Z.mul_comm aSz), (Z.mul_comm cSz).
Qed.

(** ** The counter *)

Lemma be_combine_num a b c d : bytes_ok [a; b; c; d] ->
  be_combine [a; b; c; d] = d + 256 * (c + 256 * (b + 256 * a)).
Proof.
  intros Hok. split_bytes. unfold be_combine. cbn [rev app]. rewrite !le_combine_num by lia. cbn [le_combine]. lia.
Qed.

Lemma be_split_num a b c d w : bytes_ok [a; b; c; d] ->
  w mod 2 ^ 32 = d + 256 * (c + 256 * (b + 256 * a)) -> be_split 4 w = [a; b; c; d].
Proof.
  intros Hok E. rewrite <-be_combine_num in E by done.
  rewrite <-(be_split_combine [a; b; c; d] Hok), <-E. cbn [length]. unfold be_split. f_equal.
  pose proof (le_combine_split 4 w) as E2. change (8 * Z.of_nat 4) with 32 in E2. rewrite <-E2.
  symmetry. apply (le_split_combine (le_split 4 w)), le_split_ok.
Qed.

Lemma IncrementGcmCounter_inc32 ctr : block_ok ctr -> IncrementGcmCounter ctr = inc32 ctr.
Proof.
  intros Hb. pose proof (block_ok_inv ctr Hb) as Hex. destruct Hb as [_ Hok].
  destruct Hex as (a0 & a1 & a2 & a3 & b0 & b1 & b2 & b3 & c0 & c1 & c2 & c3 & d0 & d1 & d2 & d3 & ->).
  split_bytes. unfold inc32. cbn [take drop]. rewrite be_combine_num by solve_bytes.
  assert (forall d, 0 <= d < 256 -> Z.land (d + 1) 255 = if d =? 255 then 0 else d + 1) as Hinc.
  { intros d Hd. change (Z.land (d + 1) 255) with (w8 (d + 1)). rewrite w8_mod.
    destruct (Z.eqb_spec d 255) as [->|]; [done|]. apply Z.mod_small. lia. }
  assert (forall d, 0 <= d < 256 -> ((if d =? 255 then 0 else d + 1) =? 0) = (d =? 255)) as Hz.
  { intros d Hd. destruct (Z.eqb_spec d 255); [done|]. apply Z.eqb_neq. lia. }
  unfold IncrementGcmCounter. change (Z.to_nat CTR_SZ) with 4%nat.
  cbn [IncrementGcmCounter_loop lookup_total list_lookup_total insert list_insert Nat.sub].
  rewrite !Hinc, !Hz by assumption.
  destruct (Z.eqb_spec d3 255), (Z.eqb_spec d2 255), (Z.eqb_spec d1 255), (Z.eqb_spec d0 255);
    subst; cbn [negb]; (erewrite be_split_num; [reflexivity|solve_bytes|]).
  1:reflexivity.
  all: rewrite Z.mod_small; lia.
Qed.

Lemma inc32_block cb : block_ok cb -> block_ok (inc32 cb).
Proof.
  intros [Hl Hok]. unfold inc32. split; [rewrite length_app, length_take, Hl; reflexivity|].
  rewrite bytes_ok_app. auto with wf.
Qed.

Lemma counter_block_ok cb i : block_ok cb -> block_ok (counter_block cb i).
Proof. intros H. induction i as [|i IH]; [done|]. by apply inc32_block. Qed.

Lemma counter_block_S cb i : counter_block (inc32 cb) i = counter_block cb (S i).
Proof. unfold counter_block. by rewrite Nat.iter_succ_r. Qed.

(** ** Counter mode *)

(** The object is ready for GCM under [key]. *)
Definition gcm_keyed (key : bytes) (a : Aes) : Prop :=
  aes_keyed key a /\ aes_gcm_H a = AES key (zeros 16) /\ aes_keyInstalled a = true.

Section Ctr.
Context (e : env) (key : bytes) (aes : Aes).
Hypothesis Hkey : aes_keyed key aes.

Definition keystream (icb : bytes) (n : nat) : bytes :=
  flat_map (fun i => AES key (counter_block icb i)) (seq 0 n).

Lemma keystream_S icb n : keystream icb (S n) = keystream icb n ++ AES key (counter_block icb n).
Proof. unfold keystream. rewrite seq_S, flat_map_app. cbn [flat_map Nat.add]. by rewrite app_nil_r. Qed.

Lemma keystream_cons icb n : keystream icb (S n) = AES key icb ++ keystream (inc32 icb) n.
Proof.
  unfold keystream. cbn [seq flat_map]. f_equal. rewrite <-seq_shift, flat_map_concat_map, map_map, <-flat_map_concat_map.
  apply flat_map_ext. intros i. by rewrite counter_block_S.
Qed.

Lemma length_keystream icb n : block_ok icb -> length (keystream icb n) = (16 * n)%nat.
Proof.
  intros Hi. induction n as [|n IH]; [done|]. rewrite keystream_S, length_app, IH.
  rewrite (proj1 (AES_block aes key _ Hkey (counter_block_ok icb n Hi))). lia.
Qed.

Lemma keystream_bytes icb n : block_ok icb -> bytes_ok (keystream icb n).
Proof.
  intros Hi. induction n as [|n IH]; [constructor|]. rewrite keystream_S, bytes_ok_app. split; [done|].
  apply (AES_block aes key _ Hkey (counter_block_ok icb n Hi)).
Qed.

Lemma xorbufout_block s p : length s = 16%nat -> length p = 16%nat -> xorbufout s p WC_AES_BLOCK_SIZE = xorb_list p s.
Proof.
  intros Hs Hp. unfold xorbufout. rewrite !take_ge by (cbn; lia). apply xorb_comm.
Qed.

Lemma gcm_ctr_loop_spec inp always : bytes_ok inp -> forall n counter out off p,
  block_ok counter -> 0 <= off -> off + 16 * Z.of_nat n <= len inp -> off + 16 * Z.of_nat n <= len out ->
  calc e 0 (gcm_ctr_loop aes n counter inp out off always p) (fun r => exists p',
    r = (0, counter_block counter n,
         splice out off (xorb_list (sub inp off (16 * Z.of_nat n)) (keystream (inc32 counter) n)), p')).
Proof.
  intros Hinp. induction n as [|n IH]; intros counter out off p Hc Ho Hi Hl; cbn [gcm_ctr_loop].
  - calc_step. exists p. unfold splice, sub. rewrite Z.mul_0_r.
    change (Z.to_nat 0) with 0%nat. rewrite take_0. change (xorb_list [] _) with (@nil Z).
    cbn [length app]. by rewrite Nat.add_0_r, take_drop.
  - rewrite IncrementGcmCounter_inc32 by done.
    destruct (AesEncrypt_spec aes key (inc32 counter) (zeros WC_AES_BLOCK_SIZE) always p Hkey (inc32_block _ Hc)) as [p' ->].
    cbn [Z.eqb negb]. destruct (AES_block aes key _ Hkey (inc32_block _ Hc)) as [Le Oe].
    calc_step; [lia|lia|lia|].
    assert (len (sub inp off 16) = 16) as Ls by (apply len_sub; lia).
    rewrite xorbufout_block by (unfold len in Ls; lia).
    set (b := xorb_list (sub inp off 16) (AES key (inc32 counter))).
    assert (len b = 16) as Lb by (unfold b; rewrite len_xorb; [done|unfold len in *; lia]).
    calc_step; [lia|lia|]. eapply calc_mono; [apply IH; [by apply inc32_block|lia|lia|rewrite len_splice; lia]|].
    intros r [p'' ->]. exists p''. rewrite counter_block_S.
    match goal with |- (_, _, ?x, _) = (_, _, ?y, _) => enough (x = y) as -> by done end.
    set (rest := xorb_list (sub inp (off + 16) (16 * Z.of_nat n)) (keystream (inc32 (inc32 counter)) n)).
    assert (len rest = 16 * Z.of_nat n) as Lr.
    { unfold rest. rewrite len_xorb; [apply len_sub; lia|].
      rewrite len_sub by lia. unfold len. rewrite length_keystream; [lia|]. by apply inc32_block, inc32_block. }
    rewrite <-Lb at 1. rewrite splice_splice by lia. f_equal.
    rewrite keystream_cons. unfold b, rest. rewrite <-xorb_app by (unfold len in Ls; lia). f_equal.
    unfold sub. replace (Z.to_nat (16 * Z.of_nat (S n))) with (Z.to_nat 16 + Z.to_nat (16 * Z.of_nat n))%nat by lia.
    rewrite <-take_take_drop, drop_drop. do 3 f_equal; lia.
Qed.

(** The standard's counter mode, whole blocks first. *)
Lemma GCTR_split x icb : block_ok icb ->
  GCTR (AES key) icb x =
  xorb_list (take (16 * (length x / 16)) x) (keystream icb (length x / 16)) ++
  xorb_list (drop (16 * (length x / 16)) x) (take (length x mod 16) (AES key (counter_block icb (length x / 16)))).
Proof.
  intros Hi. unfold GCTR. set (n := (length x / 16)%nat). set (m := (length x mod 16)%nat).
  fold (keystream icb ((length x + 15) / 16)).
  pose proof (Nat.div_mod_eq (length x) 16) as Hdm. fold n m in Hdm.
  pose proof (Nat.mod_upper_bound (length x) 16 ltac:(lia)) as Hm. fold m in Hm.
  rewrite <-xorb_app by (rewrite length_take, length_keystream by done; lia). rewrite take_drop. f_equal.
  rewrite Hdm at 1. destruct (Nat.eq_dec m 0%nat) as [E|E].
  - replace ((length x + 15) / 16)%nat with n by (apply (Nat.div_unique _ _ _ 15%nat); lia).
    rewrite E, take_0, app_nil_r. apply take_ge. rewrite length_keystream by done. lia.
  - replace ((length x + 15) / 16)%nat with (S n) by (apply (Nat.div_unique _ _ _ (m - 1)%nat); lia).
    rewrite keystream_S, take_app. rewrite length_keystream by done.
    rewrite take_ge by (rewrite length_keystream by done; lia). do 2 f_equal. lia.
Qed.

Lemma len_GCTR x icb : block_ok icb -> length (GCTR (AES key) icb x) = length x.
Proof.
  intros Hi. unfold GCTR. fold (keystream icb ((length x + 15) / 16)). unfold xorb_list.
  rewrite length_zip_with, length_take, length_keystream by done.
  pose proof (Nat.div_mod_eq (length x + 15) 16). pose proof (Nat.mod_upper_bound (length x + 15) 16 ltac:(lia)). lia.
Qed.

Lemma GCTR_bytes x icb : block_ok icb -> bytes_ok x -> bytes_ok (GCTR (AES key) icb x).
Proof.
  intros Hi Hx. unfold GCTR. fold (keystream icb ((length x + 15) / 16)).
  apply bytes_ok_xorb; [done|]. apply bytes_ok_take. by apply keystream_bytes.
Qed.

(** Applied twice it gives the input back. *)
Lemma GCTR_involutive x icb : block_ok icb -> GCTR (AES key) icb (GCTR (AES key) icb x) = x.
Proof.
  intros Hi. unfold GCTR at 1. rewrite len_GCTR by done. unfold GCTR. rewrite xorb_comm.
  rewrite (xorb_comm x). apply xorb_involutive.
  fold (keystream icb ((length x + 15) / 16)). rewrite length_take, length_keystream by done.
  pose proof (Nat.div_mod_eq (length x + 15) 16). pose proof (Nat.mod_upper_bound (length x + 15) 16 ltac:(lia)). lia.
Qed.

Lemma AES_zeros_block : block_ok (AES key (zeros 16)).
Proof. apply (AES_block aes key _ Hkey). split; [done|auto with wf]. Qed.

Lemma J0_block iv : bytes_ok iv -> block_ok (J0 (AES key) iv).
Proof.
  intros Hiv. unfold J0. destruct (Z.eqb_spec (len iv) 12) as [E|E].
  - split; [rewrite length_app; unfold len in E; cbn; lia|]. rewrite bytes_ok_app. split; [done|solve_bytes].
  - split; [reflexivity|]. apply be_split_ok.
Qed.

Lemma gcm_counter_spec iv ivSz : bytes_ok iv -> 0 < ivSz < 2 ^ 32 -> ivSz <= len iv ->
  calc e 0 (gcm_counter (AES key (zeros 16)) iv ivSz) (fun c => c = J0 (AES key) (take (Z.to_nat ivSz) iv)).
Proof.
  intros Hiv Hsz Hl. unfold gcm_counter, J0.
  assert (len (take (Z.to_nat ivSz) iv) = ivSz) as Lt by (unfold len in *; rewrite length_take; lia). rewrite Lt.
  change GCM_NONCE_MID_SZ with 12. destruct (Z.eqb_spec ivSz 12) as [->|Hne].
  - calc_step; [lia|lia|lia|]. unfold sub. change (Z.to_nat 0) with 0%nat. rewrite drop_0.
    assert (length (take (Z.to_nat 12) iv) = 12%nat) as L12 by (unfold len in Lt; lia).
    generalize dependent (take (Z.to_nat 12) iv). intros b _ Lb.
    do 12 (destruct b as [|? b]; [discriminate|]). destruct b; [|discriminate].
    calc_step; [lia|vm_compute; congruence|]. calc_step; [lia|vm_compute; congruence|].
    apply calc_wr_end; [lia|vm_compute; congruence|]. reflexivity.
  - eapply calc_mono; [apply GHASH_code; [apply AES_zeros_block|split; [lia|done]|split; [lia|done]|lia
      |rewrite len_zeros; lia]|].
    intros c ->. unfold hash_key, input. cbn [from_option id]. change (pad (take (Z.to_nat 0) [])) with (@nil Z).
    rewrite app_nil_l. change (8 * 0) with 0. apply splice_full. reflexivity.
Qed.

(** The same by the sizes the code computes. *)
Lemma GCTR_parts inp sz icb : block_ok icb -> 0 <= sz <= len inp ->
  GCTR (AES key) icb (take (Z.to_nat sz) inp) =
  xorb_list (sub inp 0 (16 * (sz / 16))) (keystream icb (Z.to_nat (sz / 16))) ++
  xorb_list (sub inp (16 * (sz / 16)) (sz mod 16))
    (take (Z.to_nat (sz mod 16)) (AES key (counter_block icb (Z.to_nat (sz / 16))))).
Proof.
  intros Hi Hsz. rewrite GCTR_split by done.
  assert (length (take (Z.to_nat sz) inp) = Z.to_nat sz) as -> by (rewrite length_take; unfold len in Hsz; lia).
  pose proof (Z.div_mod sz 16 ltac:(lia)) as Hdm. pose proof (Z.mod_pos_bound sz 16 ltac:(lia)) as Hm.
  pose proof (Z.div_pos sz 16 ltac:(lia) ltac:(lia)) as Hd.
  replace (Z.to_nat sz / 16)%nat with (Z.to_nat (sz / 16)) by (by rewrite Z2Nat.inj_div by lia).
  replace (Z.to_nat sz mod 16)%nat with (Z.to_nat (sz mod 16)) by (by rewrite Z2Nat.inj_mod by lia).
  unfold sub. change (Z.to_nat 0) with 0%nat. rewrite drop_0, take_take, skipn_firstn_comm. repeat f_equal; lia.
Qed.

Lemma splice_last (out a b : bytes) n : len a = n -> n + len b <= len out ->
  splice (splice out 0 a) n b = splice out 0 (a ++ b).
Proof. intros <- Hl. by apply splice_splice_app. Qed.

Lemma whole_len inp sz icb : block_ok icb -> 0 <= sz <= len inp ->
  len (xorb_list (sub inp 0 (16 * (sz / 16))) (keystream icb (Z.to_nat (sz / 16)))) = 16 * (sz / 16).
Proof.
  intros Hi Hsz. pose proof (Z.div_mod sz 16 ltac:(lia)). pose proof (Z.mod_pos_bound sz 16 ltac:(lia)).
  pose proof (Z.div_pos sz 16 ltac:(lia) ltac:(lia)).
  rewrite len_xorb; rewrite len_sub by lia; [done|]. unfold len. rewrite length_keystream by done. lia.
Qed.

Lemma partial_xor inp sz s : 0 <= sz <= len inp -> length s = 16%nat ->
  let n := sz mod 16 in
  let p := sub inp (16 * (sz / 16)) n in
  len (xorb_list p (take (Z.to_nat n) s)) = n /\ n <= 16 /\ xorbufout s p n = xorb_list p (take (Z.to_nat n) s) /\
  sub (xorbuf s p n) 0 n = xorb_list p (take (Z.to_nat n) s).
Proof.
  intros Hsz Hs n p. pose proof (Z.div_mod sz 16 ltac:(lia)) as Hdm.
  pose proof (Z.mod_pos_bound sz 16 ltac:(lia)) as Hm. pose proof (Z.div_pos sz 16 ltac:(lia) ltac:(lia)) as Hd.
  assert (len p = n) as Lp by (apply len_sub; unfold n; lia).
  assert (xorbufout s p n = xorb_list p (take (Z.to_nat n) s)) as E.
  { unfold xorbufout. rewrite xorb_comm. f_equal. apply take_ge. unfold len in Lp. lia. }
  split; [rewrite len_xorb; [done|]; rewrite Lp; unfold len; rewrite length_take; lia|].
  split; [unfold n; lia|]. split; [done|]. unfold xorbuf. rewrite E.
  unfold splice, sub. change (Z.to_nat 0) with 0%nat. rewrite take_0, drop_0. cbn [app].
  apply take_app_length'. unfold xorb_list. rewrite length_zip_with, length_take. unfold len in Lp. lia.
Qed.

(** The last block, in either direction, after the whole ones. *)
Section Partial.
Context (inp out icb : bytes) (sz : Z).
Hypothesis Hicb : block_ok icb.
Hypothesis Hsz : 0 <= sz.
Hypothesis Linp : sz <= len inp.
Hypothesis Lout : sz <= len out.

Let W := xorb_list (sub inp 0 (16 * (sz / 16))) (keystream (inc32 icb) (Z.to_nat (sz / 16))).
Let c := GCTR (AES key) (inc32 icb) (take (Z.to_nat sz) inp).

Lemma partial_none : sz mod 16 = 0 -> W = c.
Proof.
  intros Hz. unfold c. rewrite GCTR_parts by (auto using inc32_block). rewrite Hz. unfold sub at 2.
  change (Z.to_nat 0) with 0%nat. rewrite take_0. change (xorb_list [] _) with (@nil Z). by rewrite app_nil_r.
Qed.

Lemma partial_some :
  let n := sz mod 16 in
  let p := sub inp (16 * (sz / 16)) n in
  let s := AES key (counter_block (inc32 icb) (Z.to_nat (sz / 16))) in
  splice (splice out 0 W) (16 * (sz / 16)) (xorb_list p (take (Z.to_nat n) s)) = splice out 0 c /\
  len (xorb_list p (take (Z.to_nat n) s)) = n /\ len (splice out 0 W) = len out.
Proof.
  intros n p s. pose proof (inc32_block _ Hicb) as HI.
  pose proof (Z.div_mod sz 16 ltac:(lia)) as Hdm. pose proof (Z.mod_pos_bound sz 16 ltac:(lia)) as Hm.
  destruct (AES_block aes key _ Hkey (counter_block_ok _ (Z.to_nat (sz / 16)) HI)) as [Ls _]. fold s in Ls.
  destruct (partial_xor inp sz s ltac:(lia) Ls) as (Lp & Hn & _). fold n p in Lp, Hn.
  pose proof (whole_len inp sz _ HI ltac:(lia)) as Lw. fold W in Lw. fold n in Hm, Hdm.
  split; [|split; [done|apply len_splice; lia]].
  unfold c. rewrite GCTR_parts by (done || lia). apply splice_last; [exact Lw|]. fold n p s. lia.
Qed.

Lemma gcm_enc_partial_spec prefetch :
  calc e 0 (gcm_enc_partial aes (counter_block icb (Z.to_nat (sz / 16))) inp (splice out 0 W) (16 * (sz / 16)) (sz mod 16) prefetch)
    (fun r => exists p, r = (0, splice out 0 c, p)).
Proof.
  unfold gcm_enc_partial. destruct (Z.eqb_spec (sz mod 16) 0) as [Hz|Hnz]; cbn [negb].
  - calc_step. exists prefetch. by rewrite partial_none.
  - pose proof (inc32_block _ Hicb) as HI. rewrite IncrementGcmCounter_inc32 by (by apply counter_block_ok).
    change (inc32 (counter_block icb (Z.to_nat (sz / 16)))) with (counter_block icb (S (Z.to_nat (sz / 16)))).
    rewrite <-counter_block_S.
    destruct (AesEncrypt_spec aes key _ (zeros WC_AES_BLOCK_SIZE) false prefetch Hkey (counter_block_ok _ (Z.to_nat (sz / 16)) HI)) as [p2 ->].
    cbn [Z.eqb negb]. destruct (AES_block aes key _ Hkey (counter_block_ok _ (Z.to_nat (sz / 16)) HI)) as [Ls _].
    destruct (partial_xor inp sz _ ltac:(lia) Ls) as (_ & Hn & Ex & _). destruct partial_some as (Es & Lp & Lw).
    pose proof (Z.div_mod sz 16 ltac:(lia)). pose proof (Z.mod_pos_bound sz 16 ltac:(lia)).
    calc_step; [lia|lia|lia|]. rewrite Ex. calc_step; [lia|lia|]. calc_step. exists p2. by rewrite Es.
Qed.

Lemma gcm_dec_partial_spec :
  calc e 0 (gcm_dec_partial aes (counter_block icb (Z.to_nat (sz / 16))) inp (splice out 0 W) (16 * (sz / 16)) (sz mod 16))
    (fun r => r = (0, splice out 0 c)).
Proof.
  unfold gcm_dec_partial. destruct (Z.eqb_spec (sz mod 16) 0) as [Hz|Hnz]; cbn [negb].
  - calc_step. by rewrite partial_none.
  - pose proof (inc32_block _ Hicb) as HI. rewrite IncrementGcmCounter_inc32 by (by apply counter_block_ok).
    change (inc32 (counter_block icb (Z.to_nat (sz / 16)))) with (counter_block icb (S (Z.to_nat (sz / 16)))).
    rewrite <-counter_block_S.
    destruct (AesEncrypt_spec aes key _ (zeros WC_AES_BLOCK_SIZE) true 0 Hkey (counter_block_ok _ (Z.to_nat (sz / 16)) HI)) as [p2 ->].
    cbn [Z.eqb negb]. destruct (AES_block aes key _ Hkey (counter_block_ok _ (Z.to_nat (sz / 16)) HI)) as [Ls _].
    destruct (partial_xor inp sz _ ltac:(lia) Ls) as (_ & Hn & Ex & Ey). destruct partial_some as (Es & Lp & Lw).
    pose proof (Z.div_mod sz 16 ltac:(lia)). pose proof (Z.mod_pos_bound sz 16 ltac:(lia)).
    calc_step; [lia|lia|lia|].
    assert (len (xorbuf (AES key (counter_block (inc32 icb) (Z.to_nat (sz / 16)))) (sub inp (16 * (sz / 16)) (sz mod 16)) (sz mod 16)) = 16) as Lx.
    { unfold xorbuf. rewrite len_splice; [unfold len; lia|lia|]. rewrite Ex. unfold len in *. lia. }
    calc_step; [lia|lia|lia|]. rewrite Ey. calc_step; [lia|lia|]. calc_step. by rewrite Es.
Qed.
End Partial.

End Ctr.

(** ** Encryption *)

Section Seal.
Context (e : env) (key : bytes) (aes : Aes) (inp out iv tagbuf : bytes) (aad : option bytes) (sz ivSz tagSz aadSz : Z).
Hypothesis Hkey : gcm_keyed key aes.
Hypothesis Hinp : bytes_ok inp.
Hypothesis Hout : bytes_ok out.
Hypothesis Hsz : 0 <= sz < 2 ^ 32.
Hypothesis Linp : sz <= len inp.
Hypothesis Lout : sz <= len out.
Hypothesis Hiv : bytes_ok iv.
Hypothesis HivSz : 0 < ivSz < 2 ^ 32.
Hypothesis Liv : ivSz <= len iv.
Hypothesis HtagSz : 0 <= tagSz <= 16.
Hypothesis Ltag : tagSz <= len tagbuf.
Hypothesis Haad : input_ok aad aadSz.

Let E := AES key.
Let IV := take (Z.to_nat ivSz) iv.
Let X := take (Z.to_nat sz) inp.
Let A := input aad aadSz.

(** The masked hash of the two inputs, cut to [n] bytes. *)
Lemma tag_value c n : tag E IV A c n = take (Z.to_nat n) (xorb_list
  (GHASH_H (hash_key E) (pad A ++ pad c ++ be_split 8 (8 * len A) ++ be_split 8 (8 * len c))) (E (J0 E IV))).
Proof.
  unfold tag. f_equal. unfold GCTR. f_equal.
  change (length (GHASH_H _ _)) with 16%nat. change ((16 + 15) / 16)%nat with 1%nat.
  cbn [seq flat_map]. rewrite app_nil_r. change (counter_block (J0 E IV) 0) with (J0 E IV). apply take_ge.
  destruct Hkey as [Hk _]. unfold E.
  rewrite (proj1 (AES_block aes key _ Hk (J0_block key IV (bytes_ok_take _ _ Hiv)))). done.
Qed.

Lemma xorbuf_prefix (buf G m : bytes) n :
  length G = 16%nat -> length m = 16%nat -> 0 <= n <= 16 -> n <= len buf ->
  xorbuf (splice buf 0 (take (Z.to_nat n) G)) m n = splice buf 0 (take (Z.to_nat n) (xorb_list G m)).
Proof.
  intros LG Lm Hn Hl. unfold xorbuf, xorbufout, splice. change (Z.to_nat 0) with 0%nat.
  rewrite !take_0. cbn [app Nat.add].
  rewrite take_app_length' by (rewrite length_take; lia).
  unfold xorb_list. rewrite <-zip_with_take. f_equal.
  rewrite !length_take, length_zip_with, drop_app_ge by (rewrite length_take; lia).
  rewrite drop_drop, length_take. f_equal. lia.
Qed.

(** The tag written over the hash. *)
Lemma xor_tag c : input_ok (Some c) sz ->
  xorbuf (splice tagbuf 0 (take (Z.to_nat tagSz) (GHASH_H (hash_key E)
    (pad A ++ pad (input (Some c) sz) ++ be_split 8 (8 * aadSz) ++ be_split 8 (8 * sz))))) (E (J0 E IV)) tagSz =
  splice tagbuf 0 (tag E IV A (input (Some c) sz) tagSz).
Proof.
  intros Hc. pose proof (len_input _ _ Haad) as LA. fold A in LA. rewrite tag_value, LA, (len_input _ _ Hc).
  apply xorbuf_prefix; [reflexivity| |done|done]. destruct Hkey as [Hk _].
  apply (AES_block aes key _ Hk (J0_block key IV (bytes_ok_take _ _ Hiv))).
Qed.

Lemma input_spliced c : len c = sz -> bytes_ok c ->
  input_ok (Some (splice out 0 c)) sz /\ input (Some (splice out 0 c)) sz = c.
Proof.
  intros Lc Oc. split.
  - split; [done|]. split; [rewrite len_splice; lia|auto with wf].
  - unfold input. cbn [from_option id]. pose proof (take_splice out 0 c ltac:(lia) ltac:(lia)) as E0.
    rewrite Z.add_0_l, Lc in E0. by rewrite E0.
Qed.

Lemma AES_GCM_encrypt_C_spec :
  let (c, t) := GCM_AE E IV X A tagSz in
  calc e 0 (AES_GCM_encrypt_C aes out inp sz iv ivSz (Some tagbuf) tagSz aad aadSz)
    (fun r => r = (0, splice out 0 c, Some (splice tagbuf 0 t))).
Proof.
  unfold GCM_AE, AES_GCM_encrypt_C. destruct Hkey as (Hk & HH & _). rewrite HH.
  assert (block_ok (J0 E IV)) as HJ by (apply J0_block; unfold IV; auto with wf).
  pose proof (inc32_block _ HJ) as HI.
  pose proof (Z.div_mod sz 16 ltac:(lia)) as Hdm. pose proof (Z.mod_pos_bound sz 16 ltac:(lia)) as Hm.
  pose proof (Z.div_pos sz 16 ltac:(lia) ltac:(lia)) as Hd.
  eapply calc_bind; [by apply (gcm_counter_spec e key aes Hk)|]. intros counter ->. fold E IV.
  eapply calc_bind; [by apply (gcm_ctr_loop_spec e key aes Hk); lia || done|].
  intros r [p' ->]. rewrite Z2Nat.id by lia. cbn [Z.eqb negb].
  set (c := GCTR E (inc32 (J0 E IV)) X).
  assert (len c = sz) as Lc by (unfold len, c, E; rewrite (len_GCTR key aes Hk) by done; unfold X; rewrite length_take;
    unfold len in *; lia).
  assert (bytes_ok c) as Oc by (apply (GCTR_bytes key aes Hk); [done|unfold X; auto with wf]).
  eapply calc_bind; [apply (gcm_enc_partial_spec e key aes Hk inp out (J0 E IV) sz); lia || done|]. fold X E. fold c.
  intros r [p2 ->]. cbn [Z.eqb negb].
  destruct (input_spliced c Lc Oc) as [Ic Ec].
  eapply calc_bind; [apply (GHASH_code e (AES key (zeros 16))); [by apply (AES_zeros_block key aes)|done|exact Ic|done|done]|].
  intros t ->. destruct (AesEncrypt_spec aes key (J0 E IV) (zeros 16) false p2 Hk HJ) as [p3 ->]. cbn [Z.eqb negb].
  calc_step. fold E A. change (be_combine (E (zeros 16))) with (hash_key E).
  rewrite (xor_tag _ Ic), Ec. reflexivity.
Qed.

End Seal.

(** ** Decryption *)

Lemma land_id b : 0 <= b < 256 -> Z.land b 255 = b.
Proof. intros Hb. change (Z.land b 255) with (w8 b). by apply w8_id. Qed.

Lemma take_splice_0 {A} (l src : list A) n : len src = n -> n <= len l -> 
  take (Z.to_nat n) (splice l 0 src) = src /\ drop (Z.to_nat n) (splice l 0 src) = drop (Z.to_nat n) l.
Proof.
  intros <- Hl. unfold splice, len in *. rewrite Nat2Z.id. change (Z.to_nat 0) with 0%nat. rewrite take_0. cbn [app Nat.add].
  split; [apply take_app_length|apply drop_app_length].
Qed.

Lemma map_land_id l : bytes_ok l -> map (fun b => Z.land b 255) l = l.
Proof. intros Hl. induction Hl; cbn; [done|]. rewrite land_id by done. by f_equal. Qed.

Lemma map_land_0 l : map (fun b => Z.land b 0) l = zeros (len l).
Proof.
  unfold zeros, len. rewrite Nat2Z.id. induction l as [|x l IH]; cbn [map length replicate]; [done|].
  rewrite Z.land_0_r, IH. done.
Qed.

Lemma gcm_verdict_spec t Tp n (out c : bytes) sz :
  bytes_ok t -> bytes_ok Tp -> len t = n -> n <= len Tp -> bytes_ok c -> len c = sz -> sz <= len out ->
  gcm_verdict t Tp n 0 (splice out 0 c) sz =
  if bool_decide (take (Z.to_nat n) Tp = t) then (0, splice out 0 c)
  else (AES_GCM_AUTH_E, splice out 0 (zeros sz)).
Proof.
  intros Ht HT Lt LT Oc Lc Lo. unfold gcm_verdict.
  destruct (take_splice_0 out c sz Lc Lo) as [-> Ed]. rewrite Ed.
  pose proof (ConstantCompare_loop_range t Tp (Z.to_nat n) 0 Ht HT ltac:(lia)) as Hr.
  fold (ConstantCompare t Tp n) in Hr.
  assert (forall d, len d = sz -> d ++ drop (Z.to_nat sz) out = splice out 0 d) as Hsp.
  { intros d Hd. unfold splice, len in *. change (Z.to_nat 0) with 0%nat. rewrite take_0. cbn [app Nat.add]. do 2 f_equal. lia. }
  case_bool_decide as E.
  - assert (ConstantCompare t Tp n = 0) as ->.
    { apply ConstantCompare_0; [unfold len in *; lia..|]. rewrite E. apply take_ge. unfold len in *; lia. }
    cbn -[splice map drop]. rewrite map_land_id, Hsp by done. done.
  - assert (ConstantCompare t Tp n <> 0) as Hne.
    { intros E0. apply E. apply ConstantCompare_0 in E0; [|unfold len in *; lia..].
      rewrite <-E0. apply take_ge. unfold len in *; lia. }
    assert (Z.shiftr (w32 (0 - ConstantCompare t Tp n)) 31 = 1) as ->.
    { rewrite w32_mod, Z.shiftr_div_pow2 by lia.
      replace (0 - ConstantCompare t Tp n) with (2 ^ 32 - ConstantCompare t Tp n + (-1) * 2 ^ 32) by lia.
      rewrite Z.mod_add, Z.mod_small by lia. symmetry. apply (Z.div_unique _ _ _ (2 ^ 31 - ConstantCompare t Tp n)); lia. }
    change (w8 (0 - 1)) with 255. change (w8 (Z.lnot 255)) with 0. rewrite map_land_0, Lc, Hsp; [done|].
    apply len_zeros. rewrite <-Lc. apply len_nonneg.
Qed.

Section Open.
Context (e : env) (key : bytes) (aes : Aes) (inp out iv authTag : bytes) (aad : option bytes) (sz ivSz tagSz aadSz : Z).
Hypothesis Hkey : gcm_keyed key aes.
Hypothesis Hinp : bytes_ok inp.
Hypothesis Hsz : 0 <= sz < 2 ^ 32.
Hypothesis Linp : sz <= len inp.
Hypothesis Lout : sz <= len out.
Hypothesis Hiv : bytes_ok iv.
Hypothesis HivSz : 0 < ivSz < 2 ^ 32.
Hypothesis Liv : ivSz <= len iv.
Hypothesis HtagSz : 0 <= tagSz <= 16.
Hypothesis Htag : bytes_ok authTag.
Hypothesis Ltag : tagSz <= len authTag.
Hypothesis Haad : input_ok aad aadSz.

Let E := AES key.
Let IV := take (Z.to_nat ivSz) iv.
Let X := take (Z.to_nat sz) inp.
Let A := input aad aadSz.
Let T := take (Z.to_nat tagSz) authTag.

Lemma AES_GCM_decrypt_C_spec :
  calc e 0 (AES_GCM_decrypt_C aes out inp sz iv ivSz authTag tagSz aad aadSz)
    (fun r => r = match GCM_AD E IV X A T with
                  | Some p => (0, splice out 0 p)
                  | None => (AES_GCM_AUTH_E, splice out 0 (zeros sz))
                  end).
Proof.
  unfold AES_GCM_decrypt_C. pose proof Hkey as (Hk & HH & _). rewrite HH.
  assert (block_ok (J0 E IV)) as HJ by (apply J0_block; unfold IV; auto with wf).
  pose proof (inc32_block _ HJ) as HI.
  pose proof (Z.div_mod sz 16 ltac:(lia)) as Hdm. pose proof (Z.mod_pos_bound sz 16 ltac:(lia)) as Hm.
  pose proof (Z.div_pos sz 16 ltac:(lia) ltac:(lia)) as Hd.
  assert (input_ok (Some inp) sz) as Hii by done.
  eapply calc_bind; [by apply (gcm_counter_spec e key aes Hk)|]. intros counter ->. fold E IV.
  eapply calc_bind; [apply (GHASH_code e (AES key (zeros 16))); [by apply (AES_zeros_block key aes)|done|exact Hii|lia|
    rewrite len_zeros; lia]|].
  intros t ->. destruct (AesEncrypt_spec aes key (J0 E IV) (zeros 16) true 0 Hk HJ) as [p3 ->]. cbn [Z.eqb negb].
  destruct (AES_block aes key _ Hk HJ) as [LE OE].
  rewrite xorbuf_prefix by (done || lia). fold A E. fold E in LE, OE. change (be_combine (E (zeros 16))) with (hash_key E).
  set (T' := splice _ 0 _).
  eapply calc_bind; [by apply (gcm_ctr_loop_spec e key aes Hk); lia || done|].
  intros r [p' ->]. rewrite Z2Nat.id by lia. cbn [Z.eqb negb].
  eapply calc_bind; [apply (gcm_dec_partial_spec e key aes Hk inp out (J0 E IV) sz); lia || done|].
  intros r ->. cbn [Z.eqb negb]. fold X E. set (c := GCTR E (inc32 (J0 E IV)) X).
  assert (len c = sz) as Lc by (unfold len, c, E; rewrite (len_GCTR key aes Hk) by done; unfold X; rewrite length_take;
    unfold len in *; lia).
  assert (bytes_ok c) as Oc by (apply (GCTR_bytes key aes Hk); [done|unfold X; auto with wf]).
  calc_step; [lia|lia|lia|]. calc_step. unfold sub. change (Z.to_nat 0) with 0%nat. rewrite drop_0. fold T.
  assert (len T = tagSz) as LT by (unfold T, len in *; rewrite length_take; lia).
  assert (len T' = 16 /\ take (Z.to_nat tagSz) T' = tag E IV A X (len T)) as [LT' ET].
  { unfold T'. rewrite splice_full by (rewrite length_take; unfold xorb_list; rewrite length_zip_with, LE; reflexivity).
    rewrite LT. rewrite (tag_value key aes iv aad ivSz aadSz Hkey Hiv).
    pose proof (len_input _ _ Haad) as LA. pose proof (len_input _ _ Hii) as LX. rewrite LA. fold A.
    unfold input in LX |- *. cbn [from_option id] in LX |- *. fold X in LX |- *. rewrite LX. fold E IV.
    split; [unfold len; rewrite length_take; unfold xorb_list; rewrite length_zip_with, LE; reflexivity|].
    rewrite take_take. f_equal. lia. }
  rewrite gcm_verdict_spec; [|unfold T; auto with wf| |done|lia|done|done|done].
  - rewrite ET. unfold GCM_AD. fold c. by case_bool_decide.
  - unfold T'. apply bytes_ok_splice; [auto with wf|]. apply bytes_ok_take, bytes_ok_xorb; [apply be_split_ok|done].
Qed.

End Open.

(** ** The interface *)

Lemma wc_AesGcmSetKey_spec aes key :
  key_size (len key) -> bytes_ok key -> length (aes_key aes) = 60%nat ->
  exists aes', wc_AesGcmSetKey aes (Some key) (len key) = (0, aes') /\ gcm_keyed key aes' /\
    aes_devId aes' = aes_devId aes.
Proof.
  intros Hsz Hok Hl. unfold wc_AesGcmSetKey.
  assert ((len key =? 16) || (len key =? 24) || (len key =? 32) = true) as ->
    by (rewrite !orb_true_iff, !Z.eqb_eq; unfold key_size in Hsz; tauto).
  cbn [negb]. unfold wc_AesSetKey. destruct (Z.ltb_spec (4 * 60) (len key)); [unfold key_size in Hsz; lia|].
  destruct (wc_AesSetKeyLocal_spec aes key (Some (zeros WC_AES_BLOCK_SIZE)) Hsz Hok Hl) as (a1 & -> & Hk & Hi & Hd & _).
  cbn [Z.eqb]. destruct (AesEncrypt_spec a1 key (zeros WC_AES_BLOCK_SIZE) (aes_gcm_H a1) true 0 Hk) as [p ->];
    [split; [done|auto with wf]|].
  eexists. split; [reflexivity|]. unfold gcm_keyed. rewrite <-Hd. destruct (negb _); done.
Qed.

Section Interface.
Context `{!Callbacks} (e : env) (key : bytes) (aes : Aes) (inp out iv tagbuf : bytes) (aad : option bytes)
  (sz ivSz tagSz aadSz : Z).
Hypothesis Hkey : gcm_keyed key aes.
Hypothesis Hdev : aes_devId aes = INVALID_DEVID.
Hypothesis Hinp : bytes_ok inp.
Hypothesis Hout : bytes_ok out.
Hypothesis Hsz : 0 <= sz < 2 ^ 32.
Hypothesis Linp : sz <= len inp.
Hypothesis Lout : sz <= len out.
Hypothesis Hiv : bytes_ok iv.
Hypothesis HivSz : 0 < ivSz < 2 ^ 32.
Hypothesis Liv : ivSz <= len iv.
Hypothesis Htag : bytes_ok tagbuf.
Hypothesis HtagSz : 12 <= tagSz <= 16.
Hypothesis Ltag : tagSz <= len tagbuf.
Hypothesis Haad : input_ok aad aadSz.

Let IV := take (Z.to_nat ivSz) iv.
Let X := take (Z.to_nat sz) inp.
Let A := input aad aadSz.

Lemma CheckTagSz_ok : wc_local_AesGcmCheckTagSz tagSz = 0.
Proof.
  unfold wc_local_AesGcmCheckTagSz. destruct (Z.leb_spec 12 tagSz), (Z.leb_spec tagSz 16); done || lia.
Qed.

Lemma wc_AesGcmEncrypt_spec :
  let (c, t) := GCM_AE (AES key) IV X A tagSz in
  calc e 0 (wc_AesGcmEncrypt aes (Some out) (Some inp) sz (Some iv) ivSz (Some tagbuf) tagSz aad aadSz)
    (fun r => r = (0, aes, Some (splice out 0 c), Some (splice tagbuf 0 t))).
Proof.
  pose proof (AES_GCM_encrypt_C_spec e key aes inp out iv tagbuf aad sz ivSz tagSz aadSz Hkey Hinp Hout Hsz Linp Lout
    Hiv HivSz Liv ltac:(lia) Ltag Haad) as HC. fold IV X A in HC.
  destruct (GCM_AE (AES key) IV X A tagSz) as [c t]. unfold wc_AesGcmEncrypt.
  assert (is_null (Some iv) || (ivSz =? 0) || (negb (sz =? 0) && (is_null (Some inp) || is_null (Some out))) ||
    is_null (Some tagbuf) || ((0 <? aadSz) && is_null aad) = false) as ->.
  { cbn [is_null]. rewrite (proj2 (Z.eqb_neq ivSz 0)) by lia. cbn [orb]. rewrite andb_false_r. cbn [orb].
    destruct aad; [apply andb_false_r|]. destruct Haad as [_ ->]. done. }
  rewrite CheckTagSz_ok, Hdev. cbn [Z.eqb negb]. eval_tests. calc_step. cbn beta iota. eval_tests.
  rewrite (proj2 (proj2 Hkey)). cbn [negb from_option id].
  eapply calc_bind; [exact HC|]. intros r ->. calc_step. done.
Qed.

Lemma wc_AesGcmDecrypt_spec :
  calc e 0 (wc_AesGcmDecrypt aes (Some out) (Some inp) sz (Some iv) ivSz (Some tagbuf) tagSz aad aadSz)
    (fun r => r = match GCM_AD (AES key) IV X A (take (Z.to_nat tagSz) tagbuf) with
                  | Some p => (0, aes, Some (splice out 0 p))
                  | None => (AES_GCM_AUTH_E, aes, Some (splice out 0 (zeros sz)))
                  end).
Proof.
  pose proof (AES_GCM_decrypt_C_spec e key aes inp out iv tagbuf aad sz ivSz tagSz aadSz Hkey Hinp Hsz Linp Lout
    Hiv HivSz Liv ltac:(lia) Htag Ltag Haad) as HC. fold IV X A in HC.
  unfold wc_AesGcmDecrypt.
  assert (is_null (Some iv) || (negb (sz =? 0) && (is_null (Some inp) || is_null (Some out))) ||
    is_null (Some tagbuf) || (ivSz =? 0) = false) as ->.
  { cbn [is_null]. rewrite (proj2 (Z.eqb_neq ivSz 0)) by lia. cbn [orb]. by rewrite andb_false_r. }
  rewrite CheckTagSz_ok, Hdev. cbn [Z.eqb negb]. eval_tests. calc_step. cbn beta iota. eval_tests.
  rewrite (proj2 (proj2 Hkey)). cbn [negb from_option id].
  eapply calc_bind; [exact HC|]. intros r ->. destruct (GCM_AD _ _ _ _ _); calc_step; done.
Qed.

End Interface.

(** What the caller of the interface owes: buffers of bytes at least as long as
    the sizes passed with them, sizes of 32 bits, a nonempty IV. *)
Record gcm_args (inp out iv tagbuf : bytes) (aad : option bytes) (sz ivSz tagSz aadSz : Z) : Prop := {
  ga_inp : bytes_ok inp; ga_out : bytes_ok out; ga_iv : bytes_ok iv; ga_tag : bytes_ok tagbuf;
  ga_sz : 0 <= sz < 2 ^ 32; ga_linp : sz <= len inp; ga_lout : sz <= len out;
  ga_ivSz : 0 < ivSz < 2 ^ 32; ga_liv : ivSz <= len iv;
  ga_ltag : tagSz <= len tagbuf; ga_aad : input_ok aad aadSz }.

Lemma CheckTagSz_bad n : ~ 12 <= n <= 16 -> wc_local_AesGcmCheckTagSz n = BAD_FUNC_ARG.
Proof.
  intros Hn. unfold wc_local_AesGcmCheckTagSz. destruct (Z.leb_spec 12 n), (Z.leb_spec n 16); done || lia.
Qed.

Section Theorems.
Context `{!Callbacks}.

(** C13. On an object keyed by [wc_AesGcmSetKey] and bound to no device,
    [wc_AesGcmEncrypt] writes exactly the ciphertext and tag of SP 800-38D
    (over AES of FIPS 197), and nothing else; it refuses tags shorter than 12 or
    longer than 16 bytes without writing. *)
Theorem gcm_encrypt_sp800_38d e key aes inp out iv tagbuf aad sz ivSz tagSz aadSz :
  gcm_keyed key aes -> aes_devId aes = INVALID_DEVID ->
  gcm_args inp out iv tagbuf aad sz ivSz tagSz aadSz ->
  let (c, t) := GCM_AE (AES key) (take (Z.to_nat ivSz) iv) (take (Z.to_nat sz) inp) (input aad aadSz) tagSz in
  calc e 0 (wc_AesGcmEncrypt aes (Some out) (Some inp) sz (Some iv) ivSz (Some tagbuf) tagSz aad aadSz)
    (fun r => (12 <= tagSz <= 16 -> r = (0, aes, Some (splice out 0 c), Some (splice tagbuf 0 t))) /\
              (~ 12 <= tagSz <= 16 -> r = (BAD_FUNC_ARG, aes, Some out, Some tagbuf))).
Proof.
  intros Hkey Hdev []. destruct (decide (12 <= tagSz <= 16)) as [Ht|Ht].
  - pose proof (wc_AesGcmEncrypt_spec e key aes inp out iv tagbuf aad sz ivSz tagSz aadSz) as Hs.
    destruct (GCM_AE _ _ _ _ _) as [c t]. eapply calc_mono; [apply Hs; done|]. intros r ->. by split.
  - destruct (GCM_AE _ _ _ _ _) as [c t]. unfold wc_AesGcmEncrypt.
    rewrite CheckTagSz_bad by done.
    destruct (_ || _); [|cbn [Z.eqb negb]]; calc_step; by split.
Qed.

(** C14. [wc_AesGcmDecrypt] is the authenticated decryption of SP 800-38D: the
    plaintext and 0 when the tag is the one computed over IV, additional data and
    ciphertext; otherwise [AES_GCM_AUTH_E] and only zero bytes in the output. *)
Theorem gcm_decrypt_sp800_38d e key aes inp out iv tagbuf aad sz ivSz tagSz aadSz :
  gcm_keyed key aes -> aes_devId aes = INVALID_DEVID -> 12 <= tagSz <= 16 ->
  gcm_args inp out iv tagbuf aad sz ivSz tagSz aadSz ->
  calc e 0 (wc_AesGcmDecrypt aes (Some out) (Some inp) sz (Some iv) ivSz (Some tagbuf) tagSz aad aadSz)
    (fun r => r = match GCM_AD (AES key) (take (Z.to_nat ivSz) iv) (take (Z.to_nat sz) inp) (input aad aadSz)
                          (take (Z.to_nat tagSz) tagbuf) with
                  | Some p => (0, aes, Some (splice out 0 p))
                  | None => (AES_GCM_AUTH_E, aes, Some (splice out 0 (zeros sz)))
                  end).
Proof. intros Hkey Hdev Ht []. by apply wc_AesGcmDecrypt_spec. Qed.

(** Seal and open with the same object. *)
Definition gcm_session (key inp iv aad : bytes) (tagSz : Z) : M (Z * option bytes) :=
  let '(_, aes) := wc_AesInit INVALID_DEVID in
  let '(ret, aes) := wc_AesGcmSetKey aes (Some key) (len key) in
  if negb (ret =? 0) then mret (ret, None)
  else
    '(ret, aes, c, t) ← wc_AesGcmEncrypt aes (Some (zeros (len inp))) (Some inp) (len inp) (Some iv) (len iv)
                          (Some (zeros tagSz)) tagSz (Some aad) (len aad);
    if negb (ret =? 0) then mret (ret, None)
    else
      '(ret, aes, p) ← wc_AesGcmDecrypt aes (Some (zeros (len inp))) c (len inp) (Some iv) (len iv)
                         t tagSz (Some aad) (len aad);
      mret (ret, p).

Lemma take_len {A} (l : list A) n : n = len l -> take (Z.to_nat n) l = l.
Proof. intros ->. apply take_ge. unfold len. lia. Qed.

Lemma GCM_AD_AE aes key iv p aad t : aes_keyed key aes -> bytes_ok iv -> 0 <= t <= 16 ->
  let (c, tg) := GCM_AE (AES key) iv p aad t in
  len c = len p /\ len tg = t /\ GCM_AD (AES key) iv c aad tg = Some p.
Proof.
  intros Hk Hiv Ht. unfold GCM_AE, GCM_AD. pose proof (J0_block key iv Hiv) as HJ. pose proof (inc32_block _ HJ) as HI.
  set (c := GCTR (AES key) (inc32 (J0 (AES key) iv)) p).
  assert (len (tag (AES key) iv aad c t) = t) as Lt.
  { unfold tag, len. rewrite length_take, (len_GCTR key aes Hk) by done. change (length (GHASH_H _ _)) with 16%nat. lia. }
  split; [unfold c, len; by rewrite (len_GCTR key aes Hk)|]. split; [done|].
  rewrite Lt, bool_decide_true by done. f_equal. by apply (GCTR_involutive key aes Hk).
Qed.

Lemma GCM_AE_ok aes key iv p aad t : aes_keyed key aes -> bytes_ok iv -> bytes_ok p ->
  let (c, tg) := GCM_AE (AES key) iv p aad t in bytes_ok c /\ bytes_ok tg.
Proof.
  intros Hk Hiv Hp. cbn [GCM_AE]. split; [by apply (GCTR_bytes key aes Hk); [apply inc32_block, J0_block|]|].
  apply bytes_ok_take, (GCTR_bytes key aes Hk); [by apply J0_block|apply be_split_ok].
Qed.

Lemma GCM_AD_len aes key iv c aad tg p : aes_keyed key aes -> bytes_ok iv -> GCM_AD (AES key) iv c aad tg = Some p -> len p = len c.
Proof.
  intros Hk Hiv. unfold GCM_AD. case_bool_decide; [|done]. intros [= <-]. unfold len.
  by rewrite (len_GCTR key aes Hk) by apply inc32_block, (J0_block key iv Hiv).
Qed.

(** C15. Whatever the key size, IV length, additional data and tag length, opening
    what was sealed succeeds and gives the plaintext back. *)
Theorem gcm_roundtrip e key inp iv aad tagSz :
  key_size (len key) -> bytes_ok key -> bytes_ok inp -> bytes_ok iv -> bytes_ok aad ->
  0 < len iv < 2 ^ 32 -> len inp < 2 ^ 32 -> len aad < 2 ^ 32 -> 12 <= tagSz <= 16 ->
  calc e 0 (gcm_session key inp iv aad tagSz) (fun r => r = (0, Some inp)).
Proof.
  intros Hs Hk Hi Hv Ha Lv Li La Ht. unfold gcm_session. cbn [wc_AesInit].
  match goal with |- context [wc_AesGcmSetKey ?a _ _] => destruct (wc_AesGcmSetKey_spec a key Hs Hk eq_refl) as (aes & -> & Hkey & Hd) end.
  cbn [Z.eqb negb]. cbn [aes_devId] in Hd. pose proof (len_nonneg inp). pose proof (len_nonneg aad).
  pose proof (wc_AesGcmEncrypt_spec e key aes inp (zeros (len inp)) iv (zeros tagSz) (Some aad) (len inp) (len iv) tagSz (len aad)) as He.
  pose proof (GCM_AD_AE aes key iv inp aad tagSz (proj1 Hkey) Hv ltac:(lia)) as Had.
  unfold input in He. cbn [from_option id] in He. rewrite !take_len in He by done.
  pose proof (GCM_AE_ok aes key iv inp aad tagSz (proj1 Hkey) Hv Hi) as Hae.
  destruct (GCM_AE (AES key) iv inp aad tagSz) as [c t]. destruct Had as (Lc & Lt & Ead), Hae as [Oc Ot].
  eapply calc_bind; [apply He; try done; try (auto with wf; fail); try (rewrite len_zeros; lia); split; done|].
  intros r ->. cbn [Z.eqb negb].
  assert (splice (zeros (len inp)) 0 c = c) as -> by (apply splice_full; unfold zeros, len in *; rewrite length_replicate; lia).
  assert (splice (zeros tagSz) 0 t = t) as -> by (apply splice_full; unfold zeros, len in *; rewrite length_replicate; lia).
  eapply calc_bind; [apply (wc_AesGcmDecrypt_spec e key); try done; try (auto with wf; fail); try lia; try (rewrite len_zeros; lia); split; done|].
  unfold input. cbn [from_option id]. rewrite !take_len by done. rewrite Ead. intros r ->. calc_step.
  do 2 f_equal. apply splice_full. unfold zeros, len in *. rewrite length_replicate. lia.
Qed.

End Theorems.

(** ** Test vectors *)

(** The object a zero key of 16 bytes gives. *)
Definition aes_zero_key : Aes := (wc_AesGcmSetKey (wc_AesInit INVALID_DEVID).2 (Some (zeros 16)) 16).2.

Lemma aes_zero_key_ok : gcm_keyed (zeros 16) aes_zero_key /\ aes_devId aes_zero_key = INVALID_DEVID.
Proof.
  unfold aes_zero_key.
  destruct (wc_AesGcmSetKey_spec (wc_AesInit INVALID_DEVID).2 (zeros 16) (or_introl eq_refl) (bytes_ok_zeros 16) eq_refl)
    as (a & E & Hk & Hd).
  change (len (zeros 16)) with 16 in E. rewrite E. cbn [snd]. by split.
Qed.

Lemma gcm_args_zero n iv out tagbuf : 0 <= n < 2 ^ 32 -> bytes_ok iv -> bytes_ok out -> bytes_ok tagbuf ->
  0 < len iv < 2 ^ 32 -> len out = n -> len tagbuf = 16 ->
  gcm_args (zeros n) out iv tagbuf None n (len iv) 16 0.
Proof.
  intros Hn Hiv Ho Ht Hl Lo Lt. split; try done; try (auto with wf; fail); try lia; rewrite len_zeros; lia.
Qed.

(** Test case 2 of the GCM specification: a zero key, IV and block. *)
Lemma gcm_encrypt_witness :
  calc env_plenty 0
    (wc_AesGcmEncrypt (H := no_callbacks) aes_zero_key (Some (zeros 16)) (Some (zeros 16)) 16 (Some (zeros 12)) 12
       (Some (zeros 16)) 16 None 0)
    (fun r => r.1.1.1 = 0 /\ r.1.2 = Some (be_split 16 0x0388dace60b6a392f328c2b971b2fe78) /\
              r.2 = Some (be_split 16 0xab6e47d42cec13bdf53a67b21257bddf)).
Proof.
  destruct aes_zero_key_ok as [Hk Hd].
  assert (gcm_args (zeros 16) (zeros 16) (zeros 12) (zeros 16) None 16 12 16 0) as Ha
    by (apply (gcm_args_zero 16 (zeros 12)); done || (auto with wf) || lia).
  pose proof (gcm_encrypt_sp800_38d (H := no_callbacks) env_plenty (zeros 16) aes_zero_key (zeros 16) (zeros 16)
    (zeros 12) (zeros 16) None 16 12 16 0 Hk Hd Ha) as Hc.
  assert (GCM_AE (AES (zeros 16)) (take (Z.to_nat 12) (zeros 12)) (take (Z.to_nat 16) (zeros 16)) (input None 0) 16 =
    (be_split 16 0x0388dace60b6a392f328c2b971b2fe78, be_split 16 0xab6e47d42cec13bdf53a67b21257bddf)) as E
    by (vm_compute; reflexivity).
  rewrite E in Hc. eapply calc_mono; [exact Hc|]. intros r [Hr _]. rewrite Hr by lia. cbn [fst snd].
  repeat split; f_equal; apply splice_full; reflexivity.
Defined.

Lemma gcm_decrypt_witness :
  let c := be_split 16 0x0388dace60b6a392f328c2b971b2fe78 in
  calc env_plenty 0
    (wc_AesGcmDecrypt (H := no_callbacks) aes_zero_key (Some (replicate 16 7)) (Some (zeros 16)) 16 (Some (zeros 12)) 12
       (Some c) 16 None 0)
    (fun r => r.1.1 = AES_GCM_AUTH_E /\ r.2 = Some (zeros 16)).
Proof.
  intros c. destruct aes_zero_key_ok as [Hk Hd].
  assert (gcm_args (zeros 16) (replicate 16 7) (zeros 12) c None 16 12 16 0) as Ha.
  { apply (gcm_args_zero 16 (zeros 12)); try done; try lia; try apply bytes_ok_zeros; [|apply be_split_ok].
    cbn [replicate]. solve_bytes. }
  pose proof (gcm_decrypt_sp800_38d (H := no_callbacks) env_plenty (zeros 16) aes_zero_key (zeros 16) (replicate 16 7)
    (zeros 12) c None 16 12 16 0 Hk Hd ltac:(lia) Ha) as Hc.
  assert (GCM_AD (AES (zeros 16)) (take (Z.to_nat 12) (zeros 12)) (take (Z.to_nat 16) (zeros 16)) (input None 0)
    (take (Z.to_nat 16) c) = None) as E by (vm_compute; reflexivity).
  rewrite E in Hc. eapply calc_mono; [exact Hc|]. intros r ->. by split.
Defined.

Lemma gcm_roundtrip_witness :
  calc env_plenty 0 (gcm_session (H := no_callbacks) (be_split 32 0x2a) (be_split 5 0x68656c6c6f) (be_split 7 1) [9] 12)
    (fun r => r = (0, Some (be_split 5 0x68656c6c6f))).
Proof.
  apply gcm_roundtrip; try apply be_split_ok; try (vm_compute; split; congruence); try (vm_compute; congruence).
  - right. right. reflexivity.
  - solve_bytes.
Defined.
