(* ===== verification/Drbg.v ===== *)
(** * Drbg: the random generator of random.c

    The Hash_DRBG of SP 800-90A over SHA-256, its health tests and its seeding
    from the system, as random.c has them; then the standard's definitions and
    the refinement. *)

From stdpp Require Import strings.
From S2P Require Import Prelude Platform Types Misc CryptoCb Sha256.

(** ** Constants *)

(** random.c:407, [DRBG_SUCCESS] *)
Notation DRBG_SUCCESS := (0)%Z (only parsing).
(** random.c:408, [DRBG_FAILURE] *)
Notation DRBG_FAILURE := (1)%Z (only parsing).
(** random.c:409, [DRBG_NEED_RESEED] *)
Notation DRBG_NEED_RESEED := (2)%Z (only parsing).
(** random.c:410, [DRBG_CONT_FAILURE] *)
Notation DRBG_CONT_FAILURE := (3)%Z (only parsing).
(** random.c:450, [drbgInitC] *)
Notation drbgInitC := (0)%Z (only parsing).
(** random.c:451, [drbgReseed] *)
Notation drbgReseed := (1)%Z (only parsing).
(** random.c:452, [drbgGenerateW] *)
Notation drbgGenerateW := (2)%Z (only parsing).
(** random.c:453, [drbgGenerateH] *)
Notation drbgGenerateH := (3)%Z (only parsing).
(** random.c:454, [drbgInitV] *)
Notation drbgInitV := (4)%Z (only parsing).
(** random.c:385, [OUTPUT_BLOCK_LEN] *)
Notation OUTPUT_BLOCK_LEN := (WC_SHA256_DIGEST_SIZE)%Z (only parsing).
(** random.h:199, [DRBG_SEED_LEN] *)
Notation DRBG_SEED_LEN := (440 / 8)%Z (only parsing).
(** random.h:218, [WC_RESEED_INTERVAL] *)
Notation WC_RESEED_INTERVAL := (1000000)%Z (only parsing).
(** random.h:193, [RNG_MAX_BLOCK_LEN] *)
Notation RNG_MAX_BLOCK_LEN := (0x10000)%Z (only parsing).
(** random.h:521, [WC_DRBG_NOT_INIT] *)
Notation WC_DRBG_NOT_INIT := (0)%Z (only parsing).
(** random.h:522, [WC_DRBG_OK] *)
Notation WC_DRBG_OK := (1)%Z (only parsing).
(** random.h:523, [WC_DRBG_FAILED] *)
Notation WC_DRBG_FAILED := (2)%Z (only parsing).
(** random.h:524, [WC_DRBG_CONT_FAILED] *)
Notation WC_DRBG_CONT_FAILED := (3)%Z (only parsing).
(** random.h:514, [WC_DRBG_SHA256] *)
Notation WC_DRBG_SHA256 := (0)%Z (only parsing).

Definition set_drbg_VC (V C : bytes) (ctr : Z) (d : DRBG_internal) : DRBG_internal :=
  {| drbg_reseedCtr := ctr; drbg_V := V; drbg_C := C; drbg_devId := drbg_devId d |}.

Definition set_rng_drbg (d : option DRBG_internal) (r : WC_RNG) : WC_RNG :=
  {| rng_seed := rng_seed r; rng_status := rng_status r; rng_flags := rng_flags r; rng_drbg := d;
     rng_drbgType := rng_drbgType r; rng_devId := rng_devId r |}.

Definition set_rng_status (s : Z) (r : WC_RNG) : WC_RNG :=
  {| rng_seed := rng_seed r; rng_status := s; rng_flags := rng_flags r; rng_drbg := rng_drbg r;
     rng_drbgType := rng_drbgType r; rng_devId := rng_devId r |}.

Definition set_rng_seed (s : OS_Seed) (r : WC_RNG) : WC_RNG :=
  {| rng_seed := s; rng_status := rng_status r; rng_flags := rng_flags r; rng_drbg := rng_drbg r;
     rng_drbgType := rng_drbgType r; rng_devId := rng_devId r |}.

(** ** Arithmetic on big-endian byte strings *)

(** random.c:1429-1432, [array_add_one]: from the last byte to the first, the
    string read backwards. *)
Fixpoint incr_rev (data : bytes) : bytes :=
  match data with
  | [] => []
  | b :: data =>
    let b := Z.land (b + 1) 0xFF in
    if negb (b =? 0) then b :: data else b :: incr_rev data
  end.

(** random.c:1426-1433, [array_add_one] *)
Definition array_add_one (data : bytes) : bytes := rev (incr_rev (rev data)).

(** random.c:1565-1576, [array_add]: both loops, the strings read backwards. *)
Fixpoint add_rev (d s : bytes) (carry : Z) : bytes :=
  match d, s with
  | [], _ => []
  | x :: d, y :: s =>
    let carry := w16 (carry + x + y) in
    Z.land carry 0xFF :: add_rev d s (Z.shiftr carry 8)
  | x :: d, [] =>
    let carry := w16 (carry + x) in
    Z.land carry 0xFF :: add_rev d [] (Z.shiftr carry 8)
  end.

(** random.c:1558-1578, [array_add]: the new contents of [d]. *)
Definition array_add (d s : bytes) : bytes :=
  if (0 <? len d) && (0 <? len s) && (len s <=? len d) then rev (add_rev (rev d) (rev s) 0) else d.

(** ** Test vectors of the health test *)

(** random.c:6329-6334, [seedA_data] *)
Definition seedA_data : bytes :=
  [0x63; 0x36; 0x33; 0x77; 0xe4; 0x1e; 0x86; 0x46; 0x8d; 0xeb; 0x0a; 0xb4; 0xa8; 0xed; 0x68; 0x3f;
   0x6a; 0x13; 0x4e; 0x47; 0xe0; 0x14; 0xc7; 0x00; 0x45; 0x4e; 0x81; 0xe9; 0x53; 0x58; 0xa5; 0x69;
   0x80; 0x8a; 0xa3; 0x8f; 0x2a; 0x72; 0xa6; 0x23; 0x59; 0x91; 0x5a; 0x9f; 0x8a; 0x04; 0xca; 0x68].

(** random.c:6336-6340, [reseedSeedA_data] *)
Definition reseedSeedA_data : bytes :=
  [0xe6; 0x2b; 0x8a; 0x8e; 0xe8; 0xf1; 0x41; 0xb6; 0x98; 0x05; 0x66; 0xe3; 0xbf; 0xe3; 0xc0; 0x49;
   0x03; 0xda; 0xd4; 0xac; 0x2c; 0xdf; 0x9f; 0x22; 0x80; 0x01; 0x0a; 0x67; 0x39; 0xbc; 0x83; 0xd3].

(** random.c:6342-6354, [outputA_data] *)
Definition outputA_data : bytes :=
  [0x04; 0xee; 0xc6; 0x3b; 0xb2; 0x31; 0xdf; 0x2c; 0x63; 0x0a; 0x1a; 0xfb; 0xe7; 0x24; 0x94; 0x9d;
   0x00; 0x5a; 0x58; 0x78; 0x51; 0xe1; 0xaa; 0x79; 0x5e; 0x47; 0x73; 0x47; 0xc8; 0xb0; 0x56; 0x62;
   0x1c; 0x18; 0xbd; 0xdc; 0xdd; 0x8d; 0x99; 0xfc; 0x5f; 0xc2; 0xb9; 0x20; 0x53; 0xd8; 0xcf; 0xac;
   0xfb; 0x0b; 0xb8; 0x83; 0x12; 0x05; 0xfa; 0xd1; 0xdd; 0xd6; 0xc0; 0x71; 0x31; 0x8a; 0x60; 0x18;
   0xf0; 0x3b; 0x73; 0xf5; 0xed; 0xe4; 0xd4; 0xd0; 0x71; 0xf9; 0xde; 0x03; 0xfd; 0x7a; 0xea; 0x10;
   0x5d; 0x92; 0x99; 0xb8; 0xaf; 0x99; 0xaa; 0x07; 0x5b; 0xdb; 0x4d; 0xb9; 0xaa; 0x28; 0xc1; 0x8d;
   0x17; 0x4b; 0x56; 0xee; 0x2a; 0x01; 0x4d; 0x09; 0x88; 0x96; 0xff; 0x22; 0x82; 0xc9; 0x55; 0xa8;
   0x19; 0x69; 0xe0; 0x69; 0xfa; 0x8c; 0xe0; 0x07; 0xa1; 0x80; 0x18; 0x3a; 0x07; 0xdf; 0xae; 0x17].

(** random.c:6356-6362, [seedB_data] *)
Definition seedB_data : bytes :=
  [0xa6; 0x5a; 0xd0; 0xf3; 0x45; 0xdb; 0x4e; 0x0e; 0xff; 0xe8; 0x75; 0xc3; 0xa2; 0xe7; 0x1f; 0x42;
   0xc7; 0x12; 0x9d; 0x62; 0x0f; 0xf5; 0xc1; 0x19; 0xa9; 0xef; 0x55; 0xf0; 0x51; 0x85; 0xe0; 0xfb;
   0x85; 0x81; 0xf9; 0x31; 0x75; 0x17; 0x27; 0x6e; 0x06; 0xe9; 0x60; 0x7d; 0xdb; 0xcb; 0xcc; 0x2e].

(** random.c:6364-6376, [outputB_data] *)
Definition outputB_data : bytes :=
  [0xd3; 0xe1; 0x60; 0xc3; 0x5b; 0x99; 0xf3; 0x40; 0xb2; 0x62; 0x82; 0x64; 0xd1; 0x75; 0x10; 0x60;
   0xe0; 0x04; 0x5d; 0xa3; 0x83; 0xff; 0x57; 0xa5; 0x7d; 0x73; 0xa6; 0x73; 0xd2; 0xb8; 0xd8; 0x0d;
   0xaa; 0xf6; 0xa6; 0xc3; 0x5a; 0x91; 0xbb; 0x45; 0x79; 0xd7; 0x3f; 0xd0; 0xc8; 0xfe; 0xd1; 0x11;
   0xb0; 0x39; 0x13; 0x06; 0x82; 0x8a; 0xdf; 0xed; 0x52; 0x8f; 0x01; 0x81; 0x21; 0xb3; 0xfe; 0xbd;
   0xc3; 0x43; 0xe7; 0x97; 0xb8; 0x7d; 0xbb; 0x63; 0xdb; 0x13; 0x33; 0xde; 0xd9; 0xd1; 0xec; 0xe1;
   0x77; 0xcf; 0xa6; 0xb7; 0x1f; 0xe8; 0xab; 0x1d; 0xa4; 0x66; 0x24; 0xed; 0x64; 0x15; 0xe5; 0x1c;
   0xcd; 0xe2; 0xc7; 0xca; 0x86; 0xe2; 0x83; 0x99; 0x0e; 0xea; 0xeb; 0x91; 0x12; 0x04; 0x15; 0x52;
   0x8b; 0x22; 0x95; 0x91; 0x02; 0x81; 0xb0; 0x2d; 0xd4; 0x31; 0xf4; 0xc9; 0xf7; 0x04; 0x27; 0xdf].

Section Code.
Context `{!Callbacks}.

(** ** Hash_DRBG *)

(** A pointer and a size, absent when NULL or empty. *)
Definition segment (p : option bytes) : list bytes :=
  match p with
  | Some b => if 0 <? len b then [b] else []
  | None => []
  end.

(** random.c:744-783, [Hash_df], and likewise 1492-1505, 1679-1700, 1724-1742: a
    fresh hash of the segments, given with their lengths. *)
Definition sha_digest (devId : Z) (segs : list bytes) (digest : bytes) : M (Z * bytes) :=
  let '(ret, sha) := wc_InitSha256_ex sha_zero devId in
  '(ret, sha) ← (if ret =? 0 then sha_updates sha segs else mret (ret, sha));
  '(ret, digest) ←
    (if ret =? 0 then '(ret, _, digest) ← wc_Sha256Final sha digest; mret (ret, digest)
     else mret (ret, digest));
  let _ := wc_Sha256Free sha in
  mret (ret, digest).

(** random.c:744-783, [Hash_df]: the digest of one pass. *)
Definition Hash_df_pass (drbg : DRBG_internal) (ctr bits type : Z) (inA : bytes) (inB inC : option bytes)
    (digest : bytes) : M (Z * bytes) :=
  sha_digest (drbg_devId drbg)
    ([[ctr]; le_split 4 bits] ++ (if negb (type =? drbgInitV) then [[type]] else []) ++
     [inA] ++ segment inB ++ segment inC) digest.

(** random.c:741-798, [Hash_df]: the loop, storing at offset [off]. *)
Fixpoint Hash_df_loop (n : nat) (ret : Z) (drbg : DRBG_internal) (ctr bits type : Z) (inA : bytes)
    (inB inC : option bytes) (digest out : bytes) (off outSz : Z) {struct n} : M (Z * bytes * bytes) :=
  match n with
  | O => mret (ret, digest, out)
  | S n =>
    '(ret, digest) ← Hash_df_pass drbg ctr bits type inA inB inC digest;
    let ctr := w8 (ctr + 1) in
    if ret =? 0 then
      if OUTPUT_BLOCK_LEN <? outSz then
        d ← rd digest 0 OUTPUT_BLOCK_LEN;
        out ← wr out off d;
        Hash_df_loop n ret drbg ctr bits type inA inB inC digest out (off + OUTPUT_BLOCK_LEN)
          (outSz - OUTPUT_BLOCK_LEN)
      else
        d ← rd digest 0 outSz;
        out ← wr out off d;
        Hash_df_loop n ret drbg ctr bits type inA inB inC digest out off outSz
    else mret (ret, digest, out)
  end.

(** random.c:686-819, [Hash_df] *)
Definition Hash_df (drbg : DRBG_internal) (out : bytes) (outSz type : Z) (inA : bytes)
    (inB inC : option bytes) : M (Z * bytes) :=
  let bits := w32 (outSz * 8) in
  digest ← wolfSSL_Malloc;
  if negb digest then mret (DRBG_FAILURE, out)
  else
    let bits := ByteReverseWord32 bits in
    let len := outSz / OUTPUT_BLOCK_LEN + Z.b2z (negb (outSz mod OUTPUT_BLOCK_LEN =? 0)) in
    '(ret, digest, out) ← Hash_df_loop (Z.to_nat len) DRBG_FAILURE drbg 1 bits type inA inB inC
                            (zeros WC_SHA256_DIGEST_SIZE) out 0 outSz;
    let _ := ForceZero digest in
    _ ← wolfSSL_Free;
    mret (if ret =? 0 then DRBG_SUCCESS else DRBG_FAILURE, out).

(** random.c:822-873, [Hash256_DRBG_Reseed] *)
Definition Hash256_DRBG_Reseed (drbg : DRBG_internal) (seed additional : option bytes)
    : M (Z * DRBG_internal) :=
  newV_C ← wolfSSL_Malloc;
  if negb newV_C then mret (DRBG_FAILURE, drbg)
  else
    '(ret, newV) ← Hash_df drbg (zeros DRBG_SEED_LEN) DRBG_SEED_LEN drbgReseed (drbg_V drbg) seed additional;
    '(ret, newC) ←
      (if ret =? DRBG_SUCCESS
       then Hash_df drbg (zeros DRBG_SEED_LEN) DRBG_SEED_LEN drbgInitC newV None None
       else mret (ret, zeros DRBG_SEED_LEN));
    let drbg := if ret =? DRBG_SUCCESS then set_drbg_VC newV newC 1 drbg else drbg in
    let _ := ForceZero (newV ++ newC) in
    _ ← wolfSSL_Free;
    mret (ret, drbg).

(** random.c:1806-1827, [Hash_DRBG_Init] *)
Definition Hash_DRBG_Init (drbg : DRBG_internal) (seed nonce perso : option bytes) : M (Z * DRBG_internal) :=
  match seed with
  | None => mret (DRBG_FAILURE, drbg)
  | Some seed =>
    '(ret, V) ← Hash_df drbg (drbg_V drbg) (len (drbg_V drbg)) drbgInitV seed nonce perso;
    let drbg := set_drbg_VC V (drbg_C drbg) (drbg_reseedCtr drbg) drbg in
    if ret =? DRBG_SUCCESS then
      '(ret, C) ← Hash_df drbg (drbg_C drbg) (len (drbg_C drbg)) drbgInitC (drbg_V drbg) None None;
      let drbg := set_drbg_VC (drbg_V drbg) C (drbg_reseedCtr drbg) drbg in
      if ret =? DRBG_SUCCESS then mret (DRBG_SUCCESS, set_drbg_VC (drbg_V drbg) (drbg_C drbg) 1 drbg)
      else mret (DRBG_FAILURE, drbg)
    else mret (DRBG_FAILURE, drbg)
  end.

(** The object after [memset] or [ForceZero]. *)
Definition drbg_zero : DRBG_internal :=
  {| drbg_reseedCtr := 0; drbg_V := zeros DRBG_SEED_LEN; drbg_C := zeros DRBG_SEED_LEN; drbg_devId := 0 |}.

(** random.c:1830-1863, [Hash_DRBG_Instantiate] *)
Definition Hash_DRBG_Instantiate (seed nonce perso : option bytes) (devId : Z) : M (Z * DRBG_internal) :=
  let drbg := {| drbg_reseedCtr := 0; drbg_V := zeros DRBG_SEED_LEN; drbg_C := zeros DRBG_SEED_LEN;
                 drbg_devId := devId |} in
  match seed with
  | Some _ => Hash_DRBG_Init drbg seed nonce perso
  | None => mret (DRBG_FAILURE, drbg)
  end.

(** random.c:1866-1883, [Hash_DRBG_Uninstantiate]: the object is cleared and
    then checked to be clear. *)
Definition Hash_DRBG_Uninstantiate (drbg : DRBG_internal) : Z * DRBG_internal :=
  let drbg := drbg_zero in
  let compareSum := foldl Z.lor 0 (drbg_reseedCtr drbg :: drbg_devId drbg :: drbg_V drbg ++ drbg_C drbg) in
  (if compareSum =? 0 then DRBG_SUCCESS else DRBG_FAILURE, drbg).

(** random.c:1492-1505, [Hash_gen]: the digest of [data]. *)
Definition Hash_gen_pass (drbg : DRBG_internal) (data digest : bytes) : M (Z * bytes) :=
  data ← rd data 0 DRBG_SEED_LEN;
  sha_digest (drbg_devId drbg) [data] digest.

(** random.c:1489-1526, [Hash_gen]: the loop. *)
Fixpoint Hash_gen_loop (n : nat) (ret : Z) (drbg : DRBG_internal) (data digest : bytes) (out : option bytes)
    (off outSz : Z) {struct n} : M (Z * bytes * option bytes) :=
  match n with
  | O => mret (ret, digest, out)
  | S n =>
    '(ret, digest) ← Hash_gen_pass drbg data digest;
    if ret =? 0 then
      match out with
      | Some o =>
        if negb (outSz =? 0) then
          if OUTPUT_BLOCK_LEN <=? outSz then
            d ← rd digest 0 OUTPUT_BLOCK_LEN;
            o ← wr o off d;
            Hash_gen_loop n ret drbg (array_add_one data) digest (Some o) (off + OUTPUT_BLOCK_LEN)
              (outSz - OUTPUT_BLOCK_LEN)
          else
            d ← rd digest 0 outSz;
            o ← wr o off d;
            Hash_gen_loop n ret drbg data digest (Some o) off 0
        else Hash_gen_loop n ret drbg data digest out off outSz
      | None => Hash_gen_loop n ret drbg data digest out off outSz
      end
    else mret (ret, digest, out)
  end.

(** random.c:1438-1552, [Hash_gen] *)
Definition Hash_gen (drbg : DRBG_internal) (out : option bytes) (outSz : Z) (V : bytes) : M (Z * option bytes) :=
  data ← wolfSSL_Malloc;
  digest ← wolfSSL_Malloc;
  if negb data || negb digest then
    _ ← XFREE digest;
    _ ← XFREE data;
    mret (DRBG_FAILURE, out)
  else
    let outSz := if outSz =? 0 then 1 else outSz in
    let len := outSz / OUTPUT_BLOCK_LEN + Z.b2z (negb (outSz mod OUTPUT_BLOCK_LEN =? 0)) in
    data ← rd V 0 DRBG_SEED_LEN;
    '(ret, _, out) ← Hash_gen_loop (Z.to_nat len) DRBG_FAILURE drbg data (zeros WC_SHA256_DIGEST_SIZE) out 0 outSz;
    let _ := ForceZero data in
    _ ← wolfSSL_Free;
    _ ← wolfSSL_Free;
    mret (if ret =? 0 then DRBG_SUCCESS else DRBG_FAILURE, out).

(** random.c:1644-1714, [Hash_DRBG_Generate]: the additional input mixed into a
    copy of [V]: [thisV], with whether the copy [shadowV] was allocated. *)
Definition Generate_additional (drbg : DRBG_internal) (additional : option bytes) : M (Z * bytes * bool) :=
  match segment additional with
  | add :: _ =>
    shadowV ← wolfSSL_Malloc;
    if negb shadowV then mret (DRBG_FAILURE, drbg_V drbg, false)
    else
      '(ret, digest) ← sha_digest (drbg_devId drbg) [[drbgGenerateW]; drbg_V drbg; add]
                         (zeros WC_SHA256_DIGEST_SIZE);
      if ret =? 0 then mret (0, array_add (drbg_V drbg) digest, true)
      else _ ← wolfSSL_Free; mret (DRBG_FAILURE, drbg_V drbg, false)
  | [] => mret (0, drbg_V drbg, false)
  end.

(** random.c:1717-1770, [Hash_DRBG_Generate]: the state update. *)
Definition Generate_update (drbg : DRBG_internal) (thisV : bytes) : M (Z * DRBG_internal) :=
  let reseedCtr := drbg_reseedCtr drbg in
  '(ret, digest) ← sha_digest (drbg_devId drbg) [[drbgGenerateH]; thisV] (zeros WC_SHA256_DIGEST_SIZE);
  if ret =? 0 then
    let V := array_add thisV digest in
    let V := array_add V (drbg_C drbg) in
    let reseedCtr := ByteReverseWord64 reseedCtr in
    let V := array_add V (le_split 8 reseedCtr) in
    mret (DRBG_SUCCESS, set_drbg_VC V (drbg_C drbg) (w64 (drbg_reseedCtr drbg + 1)) drbg)
  else mret (ret, drbg).

(** random.c:1584-1803, [Hash_DRBG_Generate] *)
Definition Hash_DRBG_Generate (drbg : DRBG_internal) (out : option bytes) (outSz : Z) (additional : option bytes)
    : M (Z * DRBG_internal * option bytes) :=
  if WC_RESEED_INTERVAL <=? drbg_reseedCtr drbg then mret (DRBG_NEED_RESEED, drbg, out)
  else
    digest ← wolfSSL_Malloc;
    if negb digest then mret (DRBG_FAILURE, drbg, out)
    else
      '(ret, thisV, shadowV) ← Generate_additional drbg additional;
      if negb (ret =? 0) then _ ← wolfSSL_Free; mret (DRBG_FAILURE, drbg, out)
      else
        '(ret, out) ← Hash_gen drbg out outSz thisV;
        '(ret, drbg) ← (if ret =? DRBG_SUCCESS then Generate_update drbg thisV else mret (ret, drbg));
        _ ← wolfSSL_Free;
        _ ← XFREE shadowV;
        if ret =? 0 then mret (DRBG_SUCCESS, drbg, out)
        else mret (DRBG_FAILURE, drbg, (fun o => ForceZero (take (Z.to_nat outSz) o) ++ drop (Z.to_nat outSz) o) <$> out).

(** ** Health tests *)

(** random.c:2656-2670, [wc_RNG_TestSeed]: the repetition count test. *)
Definition rct_step (st : Z * Z * bool) (b : Z) : Z * Z * bool :=
  let '(repCount, prevByte, rctFailed) := st in
  let match_ := Z.b2z (b =? prevByte) in
  let nmatch := 1 - match_ in
  let repCount := match_ * (repCount + 1) + nmatch * 1 in
  let prevByte := w8 (match_ * prevByte + nmatch * b) in
  (repCount, prevByte, rctFailed || (31 <=? repCount)).

(** random.c:2704, [wc_RNG_TestSeed]: one count up or down. *)
Definition count_byte (delta : Z) (counts : list Z) (b : Z) : list Z :=
  let i := Z.to_nat (Z.land b 0xFF) in <[i := w16 (counts !!! i + delta)]> counts.

(** random.c:2713-2725, [wc_RNG_TestSeed]: the sliding window. *)
Fixpoint apt_slide (n : nat) (seed : bytes) (windowStart windowSize : nat) (counts : list Z) (failed : bool) : bool :=
  match n with
  | O => failed
  | S n =>
    let counts := count_byte (-1) counts (seed !!! windowStart) in
    let windowStart := S windowStart in
    let newIdx := (windowStart + windowSize - 1)%nat in
    let counts := count_byte 1 counts (seed !!! newIdx) in
    apt_slide n seed windowStart windowSize counts
      (failed || (325 <=? counts !!! Z.to_nat (Z.land (seed !!! newIdx) 0xFF)))
  end.

(** random.c:2636-2741, [wc_RNG_TestSeed] *)
Definition wc_RNG_TestSeed (seed : bytes) (seedSz : Z) : M Z :=
  if seedSz <? 4 then mret BAD_FUNC_ARG
  else
    seed ← rd seed 0 seedSz;
    let '(_, _, rctFailed) := foldl rct_step (1, seed !!! 0%nat, false) (drop 1 seed) in
    let windowSize := min_ct seedSz 512 in
    byteCounts ← wolfSSL_Malloc;
    if negb byteCounts then mret MEMORY_E
    else
      let counts := foldl (count_byte 1) (replicate 256 0) (take (Z.to_nat windowSize) seed) in
      let aptFailed := existsb (fun c => 325 <=? c) counts in
      let aptFailed := apt_slide (Z.to_nat (seedSz - windowSize)) seed 0 (Z.to_nat windowSize) counts aptFailed in
      _ ← wolfSSL_Free;
      if rctFailed then mret ENTROPY_RT_E
      else if aptFailed then mret ENTROPY_APT_E
      else mret 0.

(** random.c:6211-6279, [wc_RNG_HealthTest_ex_internal] *)
Definition wc_RNG_HealthTest_ex_internal (reseed : bool) (nonce seedA seedB output : option bytes)
    (outputSz devId : Z) : M (Z * option bytes) :=
  match seedA, output with
  | Some _, Some _ =>
    if reseed && bool_decide (seedB = None) then mret (BAD_FUNC_ARG, output)
    else if negb (outputSz =? 32 * 4) then mret (BAD_FUNC_ARG, output)
    else
      let done ret drbg output :=
        let '(u, _) := Hash_DRBG_Uninstantiate drbg in
        mret (if negb (u =? 0) && (ret =? 0) then DRBG_FAILURE else ret, output) in
      '(r, drbg) ← Hash_DRBG_Instantiate seedA nonce None devId;
      if negb (r =? 0) then done DRBG_FAILURE drbg output
      else
        '(r, drbg) ← (if reseed then Hash256_DRBG_Reseed drbg seedB None else mret (0, drbg));
        if negb (r =? 0) then done DRBG_FAILURE drbg output
        else
          '(r, drbg, output) ← Hash_DRBG_Generate drbg output outputSz None;
          if negb (r =? 0) then done DRBG_FAILURE drbg output
          else
            '(r, drbg, output) ← Hash_DRBG_Generate drbg output outputSz None;
            if negb (r =? 0) then done DRBG_FAILURE drbg output
            else done 0 drbg output
  | _, _ => mret (BAD_FUNC_ARG, output)
  end.

(** random.c:6484-6695, [wc_RNG_HealthTestLocal] *)
Definition wc_RNG_HealthTestLocal (reseed : bool) (devId : Z) : M Z :=
  check ← wolfSSL_Malloc;
  if negb check then mret MEMORY_E
  else
    drbg ← wolfSSL_Malloc;
    if negb drbg then _ ← wolfSSL_Free; mret MEMORY_E
    else
      let check := Some (zeros (32 * 4)) in
      ret ←
        (if reseed then
           '(ret, check) ← wc_RNG_HealthTest_ex_internal true None (Some seedA_data) (Some reseedSeedA_data) check
                             (32 * 4) devId;
           if ret =? 0 then
             if negb (ConstantCompare (default [] check) outputA_data (32 * 4) =? 0)
             then mret DRBG_CONT_FAILURE else mret ret
           else mret ret
         else
           '(ret, check) ← wc_RNG_HealthTest_ex_internal false None (Some seedB_data) None check (32 * 4) devId;
           let ret := if negb (ret =? 0) then ret
                      else if negb (ConstantCompare (default [] check) outputB_data (32 * 4) =? 0)
                      then DRBG_CONT_FAILURE else 0 in
           if ret =? 0 then
             '(ret, check) ← wc_RNG_HealthTest_ex_internal false (Some (drop 32 seedB_data))
                               (Some (take 32 seedB_data)) None check (32 * 4) devId;
             if ret =? 0 then
               if negb (ConstantCompare (default [] check) outputB_data (len outputB_data) =? 0)
               then mret DRBG_CONT_FAILURE else mret ret
             else mret ret
           else mret ret);
      _ ← wolfSSL_Free;
      _ ← wolfSSL_Free;
      mret ret.

(** ** Seeding *)

(** wc_port.c:6119-6131, [wc_set_cloexec] *)
Definition wc_set_cloexec (fd : Z) : M unit :=
  if fd <? 0 then mret tt
  else
    a ← os (Fcntl fd 1 0);
    if 0 <=? os_val a then _ ← os (Fcntl fd 2 (Z.lor (os_val a) 1)); mret tt else mret tt.

(** wc_port.c:6133-6143, [wc_open_cloexec] *)
Definition wc_open_cloexec (path : string) (flags : Z) : M Z :=
  a ← os (Open path (Z.lor flags 0x80000));
  if (os_val a <? 0) && (os_errno a =? 22) then
    a ← os (Open path flags);
    _ ← wc_set_cloexec (os_val a);
    mret (os_val a)
  else mret (os_val a).

(** random.c:10039-10058, [wc_GenerateSeed]: the read loop; a second pass never
    happens, since a short read breaks out. *)
Definition seed_read (fd : Z) (output : bytes) (sz : Z) : M (Z * bytes) :=
  if sz =? 0 then mret (0, output)
  else
    a ← os (Read fd sz);
    let len := os_val a in
    if len <=? 0 then mret (READ_RAN_E, output)
    else
      output ← wr output 0 (os_data a);
      if negb (sz - len =? 0) then mret (RAN_BLOCK_E, output) else mret (0, output).

(** random.c:10015-10075, [wc_GenerateSeed]: the system's generator. *)
Definition GenerateSeed_soft (os_ : OS_Seed) (output : bytes) (sz : Z) : M (Z * OS_Seed * bytes) :=
  let dev fd := {| seed_fd := fd; seed_devId := seed_devId os_ |} in
  fd ← wc_open_cloexec "/dev/urandom" 0;
  fd ← (if fd =? -1 then wc_open_cloexec "/dev/random" 0 else mret fd);
  if fd =? -1 then mret (OPEN_RAN_E, dev fd, output)
  else
    '(ret, output) ← seed_read fd output sz;
    _ ← os (Close fd);
    mret (ret, dev fd, output).

(** random.c:9832-10081, [wc_GenerateSeed] *)
Definition wc_GenerateSeed (os_ : OS_Seed) (output : bytes) (sz : Z) : M (Z * OS_Seed * bytes) :=
  if negb (seed_devId os_ =? INVALID_DEVID) then
    '(ret, (os_, output)) ← wc_CryptoCb_RandomSeed os_ output sz;
    if negb (ret =? CRYPTOCB_UNAVAILABLE) then mret (ret, os_, output) else GenerateSeed_soft os_ output sz
  else GenerateSeed_soft os_ output sz.

(** random.c:3331-3355, [_InitRng]: the code and the status. *)
Definition InitRng_verdict (ret : Z) : Z * Z :=
  if ret =? DRBG_SUCCESS then (0, WC_DRBG_OK)
  else if ret =? DRBG_CONT_FAILURE then (DRBG_CONT_FIPS_E, WC_DRBG_CONT_FAILED)
  else if ret =? DRBG_FAILURE then (RNG_FAILURE_E, WC_DRBG_FAILED)
  else (ret, WC_DRBG_FAILED).

(** random.c:3223-3315, [_InitRng]: seed the generator ([drbg_instantiated] says
    whether the object was set up). *)
Definition InitRng_seed (rng : WC_RNG) (seed : bytes) (seedSz : Z) (nonce perso : option bytes)
    : M (Z * WC_RNG * bytes * bool) :=
  '(ret, sd, seed) ← wc_GenerateSeed (rng_seed rng) seed seedSz;
  let rng := set_rng_seed sd rng in
  let '(ret, rng) := if negb (ret =? 0) then (DRBG_FAILURE, set_rng_status WC_DRBG_FAILED rng) else (ret, rng) in
  ret ← (if ret =? 0 then wc_RNG_TestSeed seed seedSz else mret ret);
  if ret =? DRBG_SUCCESS then
    s ← rd seed 4 (seedSz - 4);
    '(ret, drbg) ← Hash_DRBG_Instantiate (Some s) nonce perso (rng_devId rng);
    mret (ret, set_rng_drbg (Some drbg) rng, seed, ret =? 0)
  else mret (ret, rng, seed, false).

(** random.c:3316-3452, [_InitRng]: give back the seed, set the status, and undo
    everything on failure. *)
Definition InitRng_end (drbg seed : bool) (ret : Z) (rng : WC_RNG) (buf : bytes) (drbg_instantiated : bool)
    : M (Z * WC_RNG) :=
  let _ := ForceZero buf in
  _ ← XFREE seed;
  let '(ret, status) := InitRng_verdict ret in
  let rng := set_rng_status status rng in
  if negb (ret =? 0) then
    let _ := if drbg_instantiated then Hash_DRBG_Uninstantiate (default drbg_zero (rng_drbg rng))
             else (0, drbg_zero) in
    _ ← XFREE drbg;
    mret (ret, set_rng_drbg None rng)
  else mret (ret, rng).

(** random.c:2856-3452, [_InitRng].  No caller passes a [seedRng]. *)
Definition _InitRng (nonce : option bytes) (nonceSz : Z) (perso : option bytes) (persoSz devId flags : Z)
    (rng : WC_RNG) : M (Z * WC_RNG) :=
  if bool_decide (nonce = None) && negb (nonceSz =? 0) then mret (BAD_FUNC_ARG, rng)
  else if bool_decide (perso = None) && negb (persoSz =? 0) then mret (BAD_FUNC_ARG, rng)
  else if Z.testbit flags 4 && (Z.testbit flags 5 || Z.testbit flags 2) then mret (BAD_FUNC_ARG, rng)
  else if Z.testbit flags 3 then mret (NOT_COMPILED_IN, rng)
  else if Z.testbit flags 2 then mret (NOT_COMPILED_IN, rng)
  else if Z.testbit flags 4 then mret (NOT_COMPILED_IN, rng)
  else
    let rng := {| rng_seed := {| seed_fd := 0; seed_devId := devId |}; rng_status := WC_DRBG_NOT_INIT;
                  rng_flags := 0; rng_drbg := None; rng_drbgType := WC_DRBG_SHA256; rng_devId := devId |} in
    let seedSz := if nonceSz =? 0 then 256 / 8 + 256 / 8 / 2 + 4 else 256 / 8 + 4 in
    drbg ← wolfSSL_Malloc;
    let rng := if negb drbg then set_rng_status WC_DRBG_FAILED rng else set_rng_drbg (Some drbg_zero) rng in
    ret ← (if negb drbg then mret MEMORY_E else wc_RNG_HealthTestLocal false devId);
    seed ← (if ret =? 0 then wolfSSL_Malloc else mret false);
    let '(ret, rng) :=
      if (ret =? 0) && negb seed then (MEMORY_E, set_rng_status WC_DRBG_FAILED rng) else (ret, rng) in
    '(ret, rng, buf, drbg_instantiated) ←
      (if negb (ret =? 0) then mret (ret, rng, zeros (256 / 8 + 256 / 8 / 2 + 4), false)
       else InitRng_seed rng (zeros (256 / 8 + 256 / 8 / 2 + 4)) seedSz (take (Z.to_nat nonceSz) <$> nonce)
              (take (Z.to_nat persoSz) <$> perso));
    InitRng_end drbg seed ret rng buf drbg_instantiated.

Definition rng_zero : WC_RNG :=
  {| rng_seed := {| seed_fd := 0; seed_devId := 0 |}; rng_status := 0; rng_flags := 0; rng_drbg := None;
     rng_drbgType := 0; rng_devId := 0 |}.

(** random.c:3515-3519, [wc_InitRng] *)
Definition wc_InitRng (rng : WC_RNG) : M (Z * WC_RNG) := _InitRng None 0 None 0 INVALID_DEVID 0 rng.

(** random.c:3522-3526, [wc_InitRng_ex] *)
Definition wc_InitRng_ex (rng : WC_RNG) (devId : Z) : M (Z * WC_RNG) := _InitRng None 0 None 0 devId 0 rng.

(** random.c:3536-3541, [wc_InitRngNonce_ex] *)
Definition wc_InitRngNonce_ex (rng : WC_RNG) (nonce : option bytes) (nonceSz devId : Z) : M (Z * WC_RNG) :=
  _InitRng nonce nonceSz None 0 devId 0 rng.

(** random.c:3476-3498, [wc_rng_new_ex]: the code and the new object, if any. *)
Definition wc_rng_new_ex (nonce : option bytes) (nonceSz devId : Z) : M (Z * option WC_RNG) :=
  p ← wolfSSL_Malloc;
  if negb p then mret (MEMORY_E, None)
  else
    '(ret, rng) ← _InitRng nonce nonceSz None 0 devId 0 rng_zero;
    if negb (ret =? 0) then _ ← wolfSSL_Free; mret (ret, None)
    else mret (ret, Some rng).

(** random.c:3456-3473, [wc_rng_new] *)
Definition wc_rng_new (nonce : option bytes) (nonceSz : Z) : M (option WC_RNG) :=
  '(ret, rng) ← wc_rng_new_ex nonce nonceSz INVALID_DEVID;
  if negb (ret =? 0) then mret None else mret rng.

(** random.c:6032-6193, [wc_FreeRng] *)
Definition wc_FreeRng (rng : WC_RNG) : M (Z * WC_RNG) :=
  '(ret, rng) ←
    (match rng_drbg rng with
     | Some drbg =>
       let '(u, drbg) := Hash_DRBG_Uninstantiate drbg in
       let ret := if negb (u =? DRBG_SUCCESS) then RNG_FAILURE_E else 0 in
       _ ← wolfSSL_Free;
       mret (ret, set_rng_drbg None rng)
     | None => mret (0, rng)
     end);
  mret (ret, set_rng_status WC_DRBG_NOT_INIT rng).

(** random.c:3502-3512, [wc_rng_free] *)
Definition wc_rng_free (rng : option WC_RNG) : M unit :=
  match rng with
  | Some rng => _ ← wc_FreeRng rng; wolfSSL_Free
  | None => mret tt
  end.

(** ** Drawing and reseeding *)

(** random.c:353-358, [wc_RNG_GetStatus] *)
Definition wc_RNG_GetStatus (rng : WC_RNG) : Z := rng_status rng.

(** random.c:363-376, [wc_RNG_DRBG_Present] *)
Definition wc_RNG_DRBG_Present (rng : WC_RNG) : bool :=
  (rng_drbgType rng =? WC_DRBG_SHA256) && bool_decide (is_Some (rng_drbg rng)).

(** random.c:1344-1367, [wc_RNG_DRBG_GetReseedCtr] *)
Definition wc_RNG_DRBG_GetReseedCtr (rng : WC_RNG) (reseedCtr : Z) : Z * Z :=
  if negb (wc_RNG_DRBG_Present rng) then (WRONG_TYPE_OBJECT_E, reseedCtr)
  else if negb (rng_status rng =? WC_DRBG_OK) then (BAD_STATE_E, reseedCtr)
  else match rng_drbg rng with
  | Some drbg => if rng_drbgType rng =? WC_DRBG_SHA256 then (0, drbg_reseedCtr drbg) else (BAD_FUNC_ARG, reseedCtr)
  | None => (BAD_FUNC_ARG, reseedCtr)
  end.

(** random.c:1388-1407, [wc_RNG_DRBG_ScheduleReseed_local] *)
Definition wc_RNG_DRBG_ScheduleReseed_local (rng : WC_RNG) : Z * WC_RNG :=
  match rng_drbg rng with
  | Some drbg =>
    if rng_drbgType rng =? WC_DRBG_SHA256
    then (0, set_rng_drbg (Some (set_drbg_VC (drbg_V drbg) (drbg_C drbg) WC_RESEED_INTERVAL drbg)) rng)
    else (WRONG_TYPE_OBJECT_E, rng)
  | None => (WRONG_TYPE_OBJECT_E, rng)
  end.

(** random.c:971-1216, [Hash_DRBG_Reseed] *)
Definition Hash_DRBG_Reseed (rng : WC_RNG) (seed additional : option bytes) : M (Z * WC_RNG) :=
  if rng_drbgType rng =? WC_DRBG_SHA256 then
    match rng_drbg rng with
    | None => mret (BAD_FUNC_ARG, rng)
    | Some drbg =>
      '(ret, drbg) ← Hash256_DRBG_Reseed drbg seed additional;
      mret (ret, set_rng_drbg (Some drbg) rng)
    end
  else mret (WRONG_TYPE_OBJECT_E, rng).

(** random.c:1218-1281, [wc_RNG_DRBG_Reseed_Nonce] *)
Definition wc_RNG_DRBG_Reseed_Nonce (rng : WC_RNG) (seed : option bytes) (nonce : option bytes) (nonceSz : Z)
    : M (Z * WC_RNG) :=
  if bool_decide (seed = None) then mret (BAD_FUNC_ARG, rng)
  else if bool_decide (nonce = None) && (0 <? nonceSz) then mret (BAD_FUNC_ARG, rng)
  else if negb (rng_status rng =? WC_DRBG_OK) then mret (RNG_FAILURE_E, rng)
  else Hash_DRBG_Reseed rng seed (take (Z.to_nat nonceSz) <$> nonce).

(** random.c:1283-1285, [wc_RNG_DRBG_Reseed] *)
Definition wc_RNG_DRBG_Reseed (rng : WC_RNG) (seed : option bytes) : M (Z * WC_RNG) :=
  wc_RNG_DRBG_Reseed_Nonce rng seed None 0.

(** random.c:4760-4861, [PollAndReSeed] *)
Definition PollAndReSeed (rng : WC_RNG) (additional : option bytes) : M (Z * WC_RNG) :=
  ret ← wc_RNG_HealthTestLocal true (rng_devId rng);
  if ret =? 0 then
    newSeed ← wolfSSL_Malloc;
    let sz := 256 / 8 + 4 in
    '(ret, rng, seed) ←
      (if newSeed then
         '(ret, sd, seed) ← wc_GenerateSeed (rng_seed rng) (zeros sz) sz;
         mret (ret, set_rng_seed sd rng, seed)
       else mret (MEMORY_E, rng, zeros sz));
    ret ← (if ret =? DRBG_SUCCESS then wc_RNG_TestSeed seed sz else mret ret);
    '(ret, rng) ←
      (if ret =? DRBG_SUCCESS then s ← rd seed 4 (256 / 8); Hash_DRBG_Reseed rng (Some s) additional
       else mret (ret, rng));
    let _ := ForceZero seed in
    _ ← XFREE newSeed;
    mret (ret, rng)
  else mret (ret, rng).

(** random.c:4873-4932, [wc_RNG_DRBG_Reseed_Now] *)
Definition wc_RNG_DRBG_Reseed_Now (rng : WC_RNG) (nonce : option bytes) (nonceSz : Z) : M (Z * WC_RNG) :=
  if bool_decide (nonce = None) && (0 <? nonceSz) then mret (BAD_FUNC_ARG, rng)
  else if negb (rng_status rng =? WC_DRBG_OK) then mret (RNG_FAILURE_E, rng)
  else if negb (wc_RNG_DRBG_Present rng) then mret (0, rng)
  else
    '(ret, rng) ← PollAndReSeed rng (take (Z.to_nat nonceSz) <$> nonce);
    if ret =? DRBG_SUCCESS then mret (0, rng)
    else if ret =? DRBG_CONT_FAILURE then mret (DRBG_CONT_FIPS_E, set_rng_status WC_DRBG_CONT_FAILED rng)
    else
      let '(_, ctr) := wc_RNG_DRBG_GetReseedCtr rng WC_RESEED_INTERVAL in
      let rng := if WC_RESEED_INTERVAL <=? ctr then set_rng_status WC_DRBG_FAILED rng else rng in
      let ret := if 0 <? ret then (if WC_RESEED_INTERVAL <=? ctr then RNG_FAILURE_E else NOT_READY_E) else ret in
      mret (ret, rng).

(** random.c:5902-5969, [wc_RNG_GenerateBlock]: the software generator. *)
Definition GenerateBlock_soft (rng : WC_RNG) (output : bytes) (sz : Z) : M (Z * WC_RNG * bytes) :=
  if RNG_MAX_BLOCK_LEN <? sz then mret (BAD_FUNC_ARG, rng, output)
  else if negb (rng_status rng =? WC_DRBG_OK) then mret (RNG_FAILURE_E, rng, output)
  else
    let generate rng output :=
      match rng_drbg rng with
      | Some drbg =>
        '(ret, drbg, o) ← Hash_DRBG_Generate drbg (Some output) sz None;
        mret (ret, set_rng_drbg (Some drbg) rng, default output o)
      | None => mret (DRBG_FAILURE, rng, output)
      end in
    '(ret, rng, output) ←
      (if rng_drbgType rng =? WC_DRBG_SHA256 then
         '(ret, rng, output) ← generate rng output;
         if ret =? DRBG_NEED_RESEED then
           '(ret, rng) ← PollAndReSeed rng None;
           if negb (ret =? DRBG_SUCCESS) then
             mret (ret, set_rng_status (if ret =? DRBG_CONT_FAILURE then WC_DRBG_CONT_FAILED else WC_DRBG_FAILED) rng,
                   output)
           else generate rng output
         else mret (ret, rng, output)
       else mret (DRBG_FAILURE, set_rng_status WC_DRBG_FAILED rng, output));
    if ret =? DRBG_SUCCESS then mret (0, rng, output)
    else if ret =? DRBG_CONT_FAILURE then mret (DRBG_CONT_FIPS_E, set_rng_status WC_DRBG_CONT_FAILED rng, output)
    else mret (RNG_FAILURE_E, rng, output).

(** random.c:5751-5981, [wc_RNG_GenerateBlock] *)
Definition wc_RNG_GenerateBlock (rng : WC_RNG) (output : option bytes) (sz : Z) : M (Z * WC_RNG * option bytes) :=
  match output with
  | None => mret (BAD_FUNC_ARG, rng, None)
  | Some out =>
    if sz =? 0 then mret (0, rng, output)
    else
      '(ret, (rng, out)) ←
        (if negb (rng_devId rng =? INVALID_DEVID) then wc_CryptoCb_RandomBlock rng out sz
         else mret (CRYPTOCB_UNAVAILABLE, (rng, out)));
      if negb (ret =? CRYPTOCB_UNAVAILABLE) then mret (ret, rng, Some out)
      else '(ret, rng, out) ← GenerateBlock_soft rng out sz; mret (ret, rng, Some out)
  end.

(** random.c:6026-6029, [wc_RNG_GenerateByte] *)
Definition wc_RNG_GenerateByte (rng : WC_RNG) (b : option bytes) : M (Z * WC_RNG * option bytes) :=
  wc_RNG_GenerateBlock rng b 1.

(** random.c:2499-2544, [Hash_DRBG_StirGenerate] *)
Definition Hash_DRBG_StirGenerate (rng : WC_RNG) (add : bytes) : M (Z * WC_RNG) :=
  let '(ret, ctr) := wc_RNG_DRBG_GetReseedCtr rng 0 in
  if negb (ret =? 0) then mret (ret, rng)
  else if WC_RESEED_INTERVAL <=? ctr then mret (NOT_READY_E, rng)
  else
    '(ret, rng) ←
      (match rng_drbg rng with
       | Some drbg =>
         if rng_drbgType rng =? WC_DRBG_SHA256 then
           '(ret, drbg, _) ← Hash_DRBG_Generate drbg None 0 (Some add);
           mret (ret, set_rng_drbg (Some drbg) rng)
         else mret (RNG_FAILURE_E, rng)
       | None => mret (RNG_FAILURE_E, rng)
       end);
    if ret =? DRBG_NEED_RESEED then mret (NOT_READY_E, rng)
    else if 0 <? ret then mret (RNG_FAILURE_E, rng)
    else mret (ret, rng).

(** random.c:2546-2574, [wc_RNG_DRBG_Stir_Nonce_local] *)
Definition wc_RNG_DRBG_Stir_Nonce (rng : WC_RNG) (seed nonce : option bytes) (nonceSz : Z) : M (Z * WC_RNG) :=
  match seed with
  | None => mret (BAD_FUNC_ARG, rng)
  | Some seed =>
    if bool_decide (nonce = None) && negb (nonceSz =? 0) then mret (BAD_FUNC_ARG, rng)
    else if negb (rng_status rng =? WC_DRBG_OK) then mret (RNG_FAILURE_E, rng)
    else
      '(ret, rng) ← Hash_DRBG_StirGenerate rng seed;
      match nonce with
      | Some nonce => if (ret =? 0) && (0 <? nonceSz) then Hash_DRBG_StirGenerate rng (take (Z.to_nat nonceSz) nonce)
                      else mret (ret, rng)
      | None => mret (ret, rng)
      end
  end.

End Code.

(** ** SP 800-90A, Hash_DRBG with SHA-256 *)

Module Sp800_90A.

(** Section 10.3.1, for 440 bits. *)
Definition Hash_df (input : bytes) : bytes :=
  take 55 (flat_map (fun c => Fips180.sha256 ([c] ++ be_split 4 440 ++ input)) [1; 2]).

(** The working state: V, C and the reseed counter. *)
Record state := { V : bytes; C : bytes; reseed_counter : Z }.

Definition from_seed (v : bytes) : state := {| V := v; C := Hash_df (0 :: v); reseed_counter := 1 |}.

(** Section 10.1.1.2 *)
Definition Instantiate (entropy nonce personalization : bytes) : state :=
  from_seed (Hash_df (entropy ++ nonce ++ personalization)).

(** Section 10.1.1.3 *)
Definition Reseed (s : state) (entropy additional : bytes) : state :=
  from_seed (Hash_df (1 :: V s ++ entropy ++ additional)).

(** Addition modulo 2^440. *)
Definition plus (v : bytes) (n : Z) : bytes := be_split 55 (be_combine v + n).

(** Section 10.1.1.4, Hashgen: [n] bytes. *)
Definition Hashgen (n : Z) (v : bytes) : bytes :=
  take (Z.to_nat n) (flat_map (fun i => Fips180.sha256 (plus v (Z.of_nat i))) (seq 0 (Z.to_nat ((n + 31) / 32)))).

(** Section 10.1.1.4 *)
Definition Generate (s : state) (n : Z) (additional : bytes) : bytes * state :=
  let v := if 0 <? len additional
           then plus (V s) (be_combine (Fips180.sha256 ([2] ++ V s ++ additional))) else V s in
  let H := Fips180.sha256 (3 :: v) in
  (Hashgen n v,
   {| V := be_split 55 (be_combine v + be_combine H + be_combine (C s) + reseed_counter s);
      C := C s; reseed_counter := reseed_counter s + 1 |}).

End Sp800_90A.

#[global] Arguments Sp800_90A.Hash_df : simpl never.
#[global] Arguments Sp800_90A.Hashgen : simpl never.
#[global] Arguments Sp800_90A.plus : simpl never.
#[local] Opaque Fips180.sha256.

(** ** Arithmetic *)

Lemma length_incr_rev d : length (incr_rev d) = length d.
Proof. induction d as [|b d IH]; cbn; [done|]. destruct (negb _); cbn; congruence. Qed.

Lemma incr_rev_spec d : bytes_ok d -> incr_rev d = le_split (length d) (le_combine d + 1).
Proof.
  induction 1 as [|b d Hb Hd IH]; [done|]. cbn [incr_rev length le_split].
  rewrite le_combine_num by done. change (Z.land (b + 1) 255) with (w8 (b + 1)).
  assert (forall x, Z.shiftr x 8 = x / 256) as Hs by (intros; by rewrite Z.shiftr_div_pow2 by lia).
  rewrite !w8_mod. change (2 ^ 8) with 256. rewrite Hs.
  assert ((b + 256 * le_combine d + 1) mod 256 = (b + 1) mod 256) as ->.
  { replace (b + 256 * le_combine d + 1) with (b + 1 + le_combine d * 256) by lia. by rewrite Z.mod_add by lia. }
  destruct (Z.eq_dec b 255) as [->|Hne].
  - change ((255 + 1) mod 256) with 0. cbn [negb Z.eqb]. f_equal. rewrite IH. f_equal.
    replace (255 + 256 * le_combine d + 1) with ((le_combine d + 1) * 256) by lia. by rewrite Z.div_mul by lia.
  - rewrite Z.mod_small by lia. rewrite (proj2 (Z.eqb_neq (b + 1) 0)) by lia. cbn [negb]. f_equal.
    replace (b + 256 * le_combine d + 1) with (b + 1 + le_combine d * 256) by lia.
    rewrite Z.div_add, Z.div_small by lia. symmetry. by apply le_split_combine.
Qed.

Lemma array_add_one_spec d : bytes_ok d -> array_add_one d = be_split (length d) (be_combine d + 1).
Proof.
  intros Hd. unfold array_add_one, be_split, be_combine.
  rewrite incr_rev_spec by auto with wf. by rewrite length_rev.
Qed.

Lemma add_rev_spec d : bytes_ok d -> forall s c, bytes_ok s -> (length s <= length d)%nat -> 0 <= c <= 1 ->
  add_rev d s c = le_split (length d) (le_combine d + le_combine s + c).
Proof.
  assert (forall x, Z.shiftr x 8 = x / 256) as Hs by (intros; by rewrite Z.shiftr_div_pow2 by lia).
  induction 1 as [|x d Hx Hd IH]; intros s c Hok Hl Hc; [done|].
  assert (forall y t, 0 <= y < 256 -> bytes_ok t -> (length t <= length d)%nat ->
    Z.land (w16 (c + x + y)) 255 :: add_rev d t (Z.shiftr (w16 (c + x + y)) 8) =
    le_split (S (length d)) (x + 256 * le_combine d + (y + 256 * le_combine t) + c)) as Hstep.
  { intros y t Hy Ht Hlt. rewrite w16_id by lia. change (Z.land ?a 255) with (w8 a). cbn [le_split].
    rewrite !w8_mod, !Hs. change (2 ^ 8) with 256.
    replace (x + 256 * le_combine d + (y + 256 * le_combine t) + c) with (c + x + y + (le_combine d + le_combine t) * 256) by lia.
    rewrite Z.mod_add, Z.div_add by lia. f_equal.
    rewrite IH; [f_equal; lia|done|done|]. split; [apply Z.div_pos; lia|]. apply Z.lt_succ_r, Z.div_lt_upper_bound; lia. }
  cbn [length]. rewrite le_combine_num by done. destruct s as [|y s].
  - cbn [add_rev]. pose proof (Hstep 0 [] ltac:(lia) ltac:(constructor) ltac:(cbn; lia)) as E.
    rewrite Z.add_0_r in E. rewrite E. done.
  - apply Forall_cons_1 in Hok as [Hy Hok]. cbn [add_rev]. rewrite le_combine_num by done.
    apply Hstep; [done|done|cbn in Hl; lia].
Qed.

Lemma array_add_spec d s : bytes_ok d -> bytes_ok s -> 0 < len s <= len d ->
  array_add d s = be_split (length d) (be_combine d + be_combine s).
Proof.
  intros Hd Hs Hl. unfold array_add.
  rewrite (proj2 (Z.ltb_lt 0 (len d))), (proj2 (Z.ltb_lt 0 (len s))), (proj2 (Z.leb_le (len s) (len d))) by lia.
  cbn [andb]. unfold be_split, be_combine. rewrite add_rev_spec; [|auto with wf|auto with wf| |lia].
  - by rewrite length_rev, Z.add_0_r.
  - rewrite !length_rev. unfold len in Hl. lia.
Qed.

Lemma be_split_add n x y : be_split n (be_combine (be_split n x) + y) = be_split n (x + y).
Proof.
  unfold be_split at 1 3. f_equal. rewrite be_combine_split. rewrite <-(le_split_mod n (_ + y)), <-(le_split_mod n (x + y)).
  f_equal. by rewrite Zplus_mod_idemp_l.
Qed.

(** ** Refinement *)

Lemma drop_splice {A} (l src : list A) off n : 0 <= off -> off + len src <= len l -> off + len src <= n ->
  drop (Z.to_nat n) (splice l off src) = drop (Z.to_nat n) l.
Proof.
  intros Ho Hl Hn. unfold splice, len in *. rewrite app_assoc, drop_app_ge by (rewrite length_app, length_take; lia).
  rewrite drop_drop. f_equal. rewrite length_app, length_take. lia.
Qed.

Lemma concat_segment p : concat (segment p) = default [] p.
Proof.
  destruct p as [b|]; [|done]. cbn. destruct (Z.ltb_spec 0 (len b)) as [H|H]; cbn; [by rewrite app_nil_r|].
  destruct b; [done|]. rewrite len_cons in H. pose proof (len_nonneg b). lia.
Qed.

(** The inputs of a hash: bytes, shorter than 2^32. *)
Definition seg_ok (p : bytes) : Prop := bytes_ok p /\ len p < 2 ^ 32.
Definition oseg_ok (p : option bytes) : Prop := seg_ok (default [] p).

Lemma segment_ok p : oseg_ok p -> Forall seg_ok (segment p).
Proof.
  destruct p as [b|]; [|constructor]. intros H. cbn. destruct (0 <? len b); [apply Forall_cons_2; [done|]|]; apply Forall_nil_2.
Qed.

Lemma seg_ok_byte b : 0 <= b < 256 -> seg_ok [b].
Proof. intros Hb. split; [|done]. by apply Forall_cons_2; [|apply Forall_nil_2]. Qed.

Lemma seg_ok_split segs : Forall seg_ok segs -> Forall bytes_ok segs /\ Forall (fun d => len d < 2 ^ 32) segs.
Proof. induction 1 as [|x l [? ?] _ [IH1 IH2]]; split; constructor; done. Qed.

Lemma len_concat_bound segs n : Forall seg_ok segs -> (length segs <= n)%nat -> len (concat segs) <= Z.of_nat n * 2 ^ 32.
Proof.
  intros H. revert n. induction H as [|x l [_ Hx] _ IH]; intros n Hn; cbn [concat].
  - rewrite len_nil. lia.
  - destruct n as [|n]; [cbn in Hn; lia|]. rewrite len_app. specialize (IH n ltac:(cbn in Hn; lia)). lia.
Qed.

Section Refinement.
Context `{!Callbacks} (e : env).

Lemma sha_digest_spec segs digest :
  Forall seg_ok segs -> (length segs <= 8)%nat -> len digest = 32 ->
  calc e 0 (sha_digest INVALID_DEVID segs digest)
    (fun r => (r.1 = 0 /\ r.2 = Fips180.sha256 (concat segs)) \/ (r.1 = MEMORY_E /\ len r.2 = 32 /\ oom e)).
Proof.
  intros Hs Hn Hd. destruct (seg_ok_split segs Hs) as [H1 H2]. unfold sha_digest. cbn [wc_InitSha256_ex Z.eqb].
  pose proof (len_concat_bound segs 8 Hs Hn) as Hl.
  eapply calc_bind; [apply (sha_updates_spec e []); [apply (InitSha256_absorbed sha_zero)|done|done|rewrite len_nil; lia]|].
  intros [ret s] [(Hr & Hab)|(Hr & Ho)]; cbn [fst snd] in *; subst ret; eval_tests.
  - calc_step. eapply calc_bind; [apply (wc_Sha256Final_spec e (concat segs)); [done|lia|lia]|].
    intros [[ret s'] h] [(-> & -> & _)|(-> & -> & Ho)]; calc_step; calc_step; [left|by right]. split; [done|].
    apply splice_full. pose proof (len_sha256 (concat segs)). unfold len in *. lia.
  - calc_step. calc_step. by right.
Qed.

Definition df_prefix (type : Z) : bytes := if type =? drbgInitV then [] else [type].

Section Df.
Context (drbg : DRBG_internal) (type : Z) (inA : bytes) (inB inC : option bytes).
Hypothesis Hdev : drbg_devId drbg = INVALID_DEVID.
Hypothesis Htype : 0 <= type < 256.
Hypothesis HA : seg_ok inA.
Hypothesis HB : oseg_ok inB.
Hypothesis HC : oseg_ok inC.

Let input := df_prefix type ++ inA ++ default [] inB ++ default [] inC.

Lemma Hash_df_pass_spec ctr bits digest : 0 <= ctr < 256 -> len digest = 32 ->
  calc e 0 (Hash_df_pass drbg ctr bits type inA inB inC digest)
    (fun r => (r.1 = 0 /\ r.2 = Fips180.sha256 ([ctr] ++ le_split 4 bits ++ input)) \/
              (r.1 = MEMORY_E /\ len r.2 = 32 /\ oom e)).
Proof.
  intros Hc Hd. unfold Hash_df_pass. rewrite Hdev.
  set (segs := [[ctr]; le_split 4 bits] ++ (if negb (type =? drbgInitV) then [[type]] else []) ++
     [inA] ++ segment inB ++ segment inC).
  assert (concat segs = [ctr] ++ le_split 4 bits ++ input) as E.
  { unfold segs, input, df_prefix. destruct (type =? drbgInitV); cbn [negb app concat];
      by rewrite concat_app, !concat_segment. }
  rewrite <-E.
  assert (Forall seg_ok segs) as Hs.
  { unfold segs. repeat apply Forall_app_2; try (by apply segment_ok).
    - repeat apply Forall_cons_2; [split; [solve_bytes|done]|split; [auto with wf|done]|apply Forall_nil_2].
    - destruct (negb _); repeat apply Forall_cons_2; try apply Forall_nil_2. split; [solve_bytes|done].
    - repeat apply Forall_cons_2; [done|apply Forall_nil_2]. }
  apply (sha_digest_spec segs digest Hs); [|done].
  unfold segs. rewrite !length_app. assert (forall p, length (segment p) <= 1)%nat as Hl.
  { intros [b|]; cbn; [destruct (0 <? len b)|]; cbn; lia. }
  pose proof (Hl inB). pose proof (Hl inC). destruct (negb _); cbn [length]; lia.
Qed.

Lemma Hash_df_spec out : len out = 55 ->
  calc e 0 (Hash_df drbg out 55 type inA inB inC)
    (fun r => (r.1 = DRBG_SUCCESS /\ r.2 = Sp800_90A.Hash_df input) \/ (r.1 = DRBG_FAILURE /\ len r.2 = 55 /\ oom e)).
Proof.
  intros Hout. unfold Hash_df. calc_step; cbn [negb]; [|calc_step; right; by split].
  change (w32 (55 * 8)) with 440. change (Z.to_nat _) with 2%nat.
  eapply (calc_bind _ _ _ _ (fun '(ret, _, out) => (ret = 0 /\ out = Sp800_90A.Hash_df input) \/
    (ret = MEMORY_E /\ len out = 55 /\ oom e))).
  - cbn [Hash_df_loop].
    eapply calc_bind; [apply Hash_df_pass_spec; [lia|done]|].
    intros [ret d1] [(Hr & Hd)|(Hr & Hd & Ho)]; cbn [fst snd] in *; subst ret; eval_tests; [|calc_step; by right].
    pose proof (len_sha256 ([1] ++ le_split 4 (ByteReverseWord32 440) ++ input)) as L1. rewrite <-Hd in L1.
    calc_step; [done|done|lia|].
    rewrite sub_all by done. calc_step; [done|lia|].
    eapply calc_bind; [apply Hash_df_pass_spec; [done|done]|].
    intros [ret d2] [(Hr & Hd2)|(Hr & Hd2 & Ho)]; cbn [fst snd] in *; subst ret; eval_tests.
    2:{ calc_step. right. split; [done|]. split; [rewrite len_splice; lia|done]. }
    change (w8 (1 + 1)) with 2 in Hd2.
    pose proof (len_sha256 ([2] ++ le_split 4 (ByteReverseWord32 440) ++ input)) as L2. rewrite <-Hd2 in L2.
    eval_tests.
    calc_step; [done|lia|lia|]. calc_step; [done|rewrite len_splice, len_sub; lia|]. calc_step. left. split; [done|].
    pose proof (splice_splice_app out d1 (sub d2 0 (55 - 32))) as Es. rewrite L1, len_sub in Es by lia.
    change (0 + 32) with 32. rewrite Es by lia.
    unfold Sp800_90A.Hash_df. cbn [flat_map]. rewrite app_nil_r.
    change (le_split 4 (ByteReverseWord32 440)) with (be_split 4 440) in Hd, Hd2. rewrite <-Hd, <-Hd2.
    rewrite take_app, (take_ge d1) by (unfold len in L1; lia).
    replace (55 - length d1)%nat with 23%nat by (unfold len in L1; lia).
    apply splice_full. rewrite length_app, length_take. unfold len in *. lia.
  - intros [[ret d] o] [[-> ->]|(-> & Lo & Ho)]; cbv zeta; calc_step; calc_step; [by left|right]. by eval_tests.
Qed.

End Df.

(** The object holds the working state [s]. *)
Record drbg_rel (s : Sp800_90A.state) (d : DRBG_internal) : Prop := {
  dr_V : drbg_V d = Sp800_90A.V s;
  dr_C : drbg_C d = Sp800_90A.C s;
  dr_ctr : drbg_reseedCtr d = Sp800_90A.reseed_counter s;
  dr_dev : drbg_devId d = INVALID_DEVID;
  dr_lenV : len (drbg_V d) = 55;
  dr_lenC : len (drbg_C d) = 55;
  dr_okV : bytes_ok (drbg_V d);
  dr_okC : bytes_ok (drbg_C d);
  dr_pos : 1 <= drbg_reseedCtr d }.

Lemma Hash_df_len x : len (Sp800_90A.Hash_df x) = 55 /\ bytes_ok (Sp800_90A.Hash_df x).
Proof.
  unfold Sp800_90A.Hash_df. cbn [flat_map]. rewrite app_nil_r. split.
  - unfold len. rewrite length_take, length_app.
    pose proof (len_sha256 ([1] ++ be_split 4 440 ++ x)). pose proof (len_sha256 ([2] ++ be_split 4 440 ++ x)).
    unfold len in *. lia.
  - apply bytes_ok_take. rewrite bytes_ok_app. split; apply sha256_bytes_ok.
Qed.

Lemma from_seed_rel v d : len v = 55 -> bytes_ok v -> drbg_devId d = INVALID_DEVID ->
  drbg_rel (Sp800_90A.from_seed v) (set_drbg_VC v (Sp800_90A.Hash_df (0 :: v)) 1 d).
Proof.
  intros Lv Ov Hd. destruct (Hash_df_len (0 :: v)) as [L O]. by split.
Qed.

Lemma Hash_DRBG_Instantiate_spec seed nonce perso :
  seg_ok seed -> oseg_ok nonce -> oseg_ok perso ->
  calc e 0 (Hash_DRBG_Instantiate (Some seed) nonce perso INVALID_DEVID)
    (fun r => (r.1 = DRBG_SUCCESS /\
               drbg_rel (Sp800_90A.Instantiate seed (default [] nonce) (default [] perso)) r.2) \/
              (r.1 = DRBG_FAILURE /\ oom e)).
Proof.
  intros Hs Hn Hp. unfold Hash_DRBG_Instantiate, Hash_DRBG_Init.
  set (d0 := {| drbg_reseedCtr := 0 |}). change (len (drbg_V d0)) with 55.
  eapply calc_bind; [by apply (Hash_df_spec d0 drbgInitV seed nonce perso)|].
  intros [ret v] [(Hr & Hv)|(Hr & Lv & Ho)]; cbn [fst snd] in *; subst ret; eval_tests; [|calc_step; by right].
  change (df_prefix drbgInitV ++ ?x) with x in Hv.
  destruct (Hash_df_len (seed ++ default [] nonce ++ default [] perso)) as [Lv Ov]. rewrite <-Hv in Lv, Ov.
  set (d1 := set_drbg_VC _ _ _ _). change (len (drbg_C d1)) with 55.
  eapply calc_bind; [apply (Hash_df_spec d1 drbgInitC (drbg_V d1) None None); [done|done|split; [done|cbn; lia]|
    split; [constructor|done]|split; [constructor|done]|done]|].
  intros [ret c] [(Hr & Hc)|(Hr & Lc & Ho)]; cbn [fst snd] in *; subst ret; eval_tests; calc_step; [left|by right].
  split; [done|]. cbn [snd]. unfold Sp800_90A.Instantiate. rewrite <-Hv. rewrite Hc.
  change (df_prefix drbgInitC ++ ?x) with (0 :: x). cbn [default from_option]. rewrite !app_nil_r.
  by apply (from_seed_rel v d0).
Qed.

Lemma Hash256_DRBG_Reseed_spec s d seed add :
  drbg_rel s d -> oseg_ok seed -> oseg_ok add ->
  calc e 0 (Hash256_DRBG_Reseed d seed add)
    (fun r => (r.1 = DRBG_SUCCESS /\ drbg_rel (Sp800_90A.Reseed s (default [] seed) (default [] add)) r.2) \/
              (r.1 = DRBG_FAILURE /\ r.2 = d /\ oom e)).
Proof.
  intros Hrel Hs Ha. pose proof (dr_dev _ _ Hrel) as Hdev. unfold Hash256_DRBG_Reseed.
  calc_step; cbn [negb]; [|calc_step; by right]. change DRBG_SEED_LEN with 55.
  assert (seg_ok (drbg_V d)) as HV by (destruct Hrel; split; [done|lia]).
  eapply calc_bind; [by apply (Hash_df_spec d drbgReseed (drbg_V d) seed add)|].
  intros [ret v] [(Hr & Hv)|(Hr & Lv & Ho)]; cbn [fst snd] in *; subst ret; eval_tests.
  2:{ calc_step. eval_tests. cbv zeta. calc_step. calc_step. by right. }
  destruct (Hash_df_len (df_prefix drbgReseed ++ drbg_V d ++ default [] seed ++ default [] add)) as [Lv Ov].
  rewrite <-Hv in Lv, Ov.
  eapply calc_bind; [apply (Hash_df_spec d drbgInitC v None None); [done|done|split; [done|lia]|
    split; [constructor|done]|split; [constructor|done]|done]|].
  intros [ret c] [(Hr & Hc)|(Hr & Lc & Ho)]; cbn [fst snd] in *; subst ret; cbv zeta; eval_tests; calc_step; calc_step;
    [left|by right].
  split; [done|]. cbn [snd]. unfold Sp800_90A.Reseed. rewrite <-(dr_V _ _ Hrel).
  change (1 :: ?x) with (df_prefix drbgReseed ++ x). rewrite <-Hv, Hc.
  change (df_prefix drbgInitC ++ ?x) with (0 :: x). cbn [default from_option]. rewrite !app_nil_r.
  by apply from_seed_rel.
Qed.

Lemma plus_ok v n : len (Sp800_90A.plus v n) = 55 /\ bytes_ok (Sp800_90A.plus v n).
Proof. unfold Sp800_90A.plus. split; [by rewrite len_be_split|apply be_split_ok]. Qed.

Lemma plus_one v n : array_add_one (Sp800_90A.plus v n) = Sp800_90A.plus v (n + 1).
Proof.
  rewrite array_add_one_spec by apply plus_ok. unfold Sp800_90A.plus.
  change (length (be_split 55 _)) with 55%nat. rewrite be_split_add. f_equal. lia.
Qed.

Lemma Hash_gen_pass_spec d data digest :
  drbg_devId d = INVALID_DEVID -> len data = 55 -> bytes_ok data -> len digest = 32 ->
  calc e 0 (Hash_gen_pass d data digest)
    (fun r => (r.1 = 0 /\ r.2 = Fips180.sha256 data) \/ (r.1 = MEMORY_E /\ len r.2 = 32 /\ oom e)).
Proof.
  intros Hdev Ld Od Lg. unfold Hash_gen_pass. rewrite Hdev.
  change DRBG_SEED_LEN with 55. calc_step; [lia|lia|lia|]. rewrite sub_all by done.
  pose proof (sha_digest_spec [data] digest) as Hs. cbn [concat] in Hs. rewrite app_nil_r in Hs.
  apply Hs; [|cbn; lia|done]. apply Forall_cons_2; [split; [done|lia]|apply Forall_nil_2].
Qed.

(** [k] digests, the first of [V + i]. *)
Definition gen_stream (v : bytes) (i k : nat) : bytes :=
  flat_map (fun j => Fips180.sha256 (Sp800_90A.plus v (Z.of_nat j))) (seq i k).

Lemma len_gen_stream v i k : len (gen_stream v i k) = 32 * Z.of_nat k.
Proof.
  unfold gen_stream. revert i. induction k as [|k IH]; intros i; [done|]. cbn [seq flat_map].
  rewrite len_app, IH, len_sha256. lia.
Qed.

Lemma Hash_gen_loop_spec d v : drbg_devId d = INVALID_DEVID -> forall k i ret o off n digest,
  len digest = 32 -> 0 <= off -> 0 < n -> off + n <= len o -> 32 * (Z.of_nat k - 1) < n <= 32 * Z.of_nat k ->
  calc e 0 (Hash_gen_loop k ret d (Sp800_90A.plus v (Z.of_nat i)) digest (Some o) off n)
    (fun '(ret, _, o') => (ret = 0 /\ o' = Some (splice o off (take (Z.to_nat n) (gen_stream v i k)))) \/
      (ret = MEMORY_E /\ (exists o1, o' = Some o1 /\ len o1 = len o /\ drop (Z.to_nat (off + n)) o1 = drop (Z.to_nat (off + n)) o) /\ oom e)).
Proof.
  intros Hdev. induction k as [|k IH]; intros i ret o off n digest Ld Ho Hn Hl Hk; [lia|]. cbn [Hash_gen_loop].
  destruct (plus_ok v (Z.of_nat i)) as [Lp Op].
  eapply calc_bind; [by apply Hash_gen_pass_spec|].
  intros [r h] [(Hr & Hh)|(Hr & Lh & Hoom)]; cbn [fst snd] in *; subst r; eval_tests.
  2:{ calc_step. right. split; [done|]. split; [by exists o|done]. }
  pose proof (len_sha256 (Sp800_90A.plus v (Z.of_nat i))) as L1. rewrite <-Hh in L1.
  rewrite (proj2 (Z.eqb_neq n 0)) by lia. cbn [negb].
  assert (gen_stream v i (S k) = h ++ gen_stream v (S i) k) as Eg by (rewrite Hh; reflexivity).
  destruct (Z.leb_spec 32 n) as [H32|H32].
  - calc_step; [lia|lia|lia|]. rewrite sub_all by done. calc_step; [lia|lia|].
    rewrite plus_one. replace (Z.of_nat i + 1) with (Z.of_nat (S i)) by lia.
    destruct (Z.eq_dec n 32) as [->|Hne].
    + assert (k = 0)%nat as -> by lia. cbn [Hash_gen_loop]. calc_step. left. split; [done|].
      rewrite Eg. unfold gen_stream. cbn [seq flat_map]. rewrite app_nil_r, take_ge by (unfold len in L1; lia). done.
    + eapply calc_mono; [apply IH; try lia; rewrite ?len_splice; lia|].
      intros [[r' dg] o'] [[-> ->]|(-> & (o1 & -> & Lo & Ed) & Hoom)]; [left|right]; (split; [done|]).
      * set (rest := take (Z.to_nat (n - 32)) (gen_stream v (S i) k)).
        assert (len rest = n - 32) as Lr.
        { unfold rest, len. rewrite length_take. pose proof (len_gen_stream v (S i) k). unfold len in *. lia. }
        pose proof (splice_splice o h rest off Ho) as Es. rewrite L1, Lr in Es. rewrite Es by lia.
        rewrite Eg, take_app, (take_ge h) by (unfold len in L1; lia). unfold rest. do 4 f_equal. unfold len in L1. lia.
      * split; [|done]. exists o1. split; [done|]. rewrite len_splice in Lo by lia. split; [done|].
        replace (off + 32 + (n - 32)) with (off + n) in Ed by lia. rewrite Ed. by apply drop_splice; lia.
  - assert (k = 0)%nat as -> by lia. calc_step; [lia|lia|lia|]. calc_step; [lia|rewrite len_sub; lia|]. cbn [Hash_gen_loop]. calc_step. left.
    split; [done|]. rewrite Eg. unfold gen_stream. cbn [seq flat_map]. rewrite app_nil_r.
    unfold sub. by rewrite drop_0.
Qed.

Lemma plus_0 v : len v = 55 -> bytes_ok v -> Sp800_90A.plus v 0 = v.
Proof.
  intros Lv Ov. unfold Sp800_90A.plus. rewrite Z.add_0_r. replace 55%nat with (length v) by (unfold len in Lv; lia).
  by apply be_split_combine.
Qed.

Lemma blocks_needed n : 0 < n -> n / 32 + Z.b2z (negb (n mod 32 =? 0)) = (n + 31) / 32 /\
  32 * ((n + 31) / 32 - 1) < n <= 32 * ((n + 31) / 32).
Proof.
  intros Hn. pose proof (Z.div_mod n 32 ltac:(lia)) as Hdm. pose proof (Z.mod_pos_bound n 32 ltac:(lia)) as Hm.
  pose proof (Z.div_mod (n + 31) 32 ltac:(lia)) as Hdm'. pose proof (Z.mod_pos_bound (n + 31) 32 ltac:(lia)) as Hm'.
  split; [|lia]. destruct (Z.eqb_spec (n mod 32) 0); cbn [negb Z.b2z]; lia.
Qed.

(** The buffer after a failed draw: the same size, nothing beyond [n] touched. *)
Definition spoiled (o o1 : bytes) (n : Z) : Prop := len o1 = len o /\ drop (Z.to_nat n) o1 = drop (Z.to_nat n) o.

Lemma Hash_gen_spec d v o n :
  drbg_devId d = INVALID_DEVID -> len v = 55 -> bytes_ok v -> 0 < n <= len o ->
  calc e 0 (Hash_gen d (Some o) n v)
    (fun r => (r.1 = DRBG_SUCCESS /\ r.2 = Some (splice o 0 (Sp800_90A.Hashgen n v))) \/
              (r.1 = DRBG_FAILURE /\ (exists o1, r.2 = Some o1 /\ spoiled o o1 n) /\ oom e)).
Proof.
  intros Hdev Lv Ov Hn. unfold Hash_gen.
  calc_step; (calc_step; cbn [negb orb]; [|repeat calc_step; right; split; [done|]; split; [by exists o|done]]).
  2:{ repeat calc_step. right. split; [done|]. split; [by exists o|done]. }
  rewrite (proj2 (Z.eqb_neq n 0)) by lia.
  destruct (blocks_needed n ltac:(lia)) as [-> Hb]. change DRBG_SEED_LEN with 55.
  calc_step; [lia|lia|lia|]. rewrite sub_all by lia. rewrite <-(plus_0 v Lv Ov) at 1.
  eapply calc_bind; [apply (Hash_gen_loop_spec d v Hdev _ 0); [done|lia|lia|lia|rewrite Z2Nat.id by lia; lia]|].
  intros [[ret dg] o'] [[-> ->]|(-> & (o1 & -> & Lo & Ed) & Hoom)]; cbv zeta; calc_step; calc_step; calc_step.
  - left. by split.
  - right. eval_tests. split; [done|]. split; [by exists o1|done].
Qed.

Lemma hash_add d digest : len d = 55 -> bytes_ok d -> len digest = 32 -> bytes_ok digest ->
  array_add d digest = Sp800_90A.plus d (be_combine digest).
Proof.
  intros Ld Od Lg Og. rewrite array_add_spec by (done || lia). unfold Sp800_90A.plus. f_equal. unfold len in Ld. lia.
Qed.

(** The value [thisV] for an additional input. *)
Definition mixed (v add : bytes) : bytes :=
  if 0 <? len add then Sp800_90A.plus v (be_combine (Fips180.sha256 ([2] ++ v ++ add))) else v.

Lemma mixed_ok v add : len v = 55 -> bytes_ok v -> len (mixed v add) = 55 /\ bytes_ok (mixed v add).
Proof. intros Lv Ov. unfold mixed. destruct (0 <? len add); [apply plus_ok|done]. Qed.

(** The copy of [V] is the caller's to free when the flag is set. *)
Lemma Generate_additional_spec {B} d add dd (k : Z * bytes * bool -> M B) Q :
  drbg_devId d = INVALID_DEVID -> len (drbg_V d) = 55 -> bytes_ok (drbg_V d) -> oseg_ok add ->
  (forall b : bool, calc e (if b then S dd else dd) (k (0, mixed (drbg_V d) (default [] add), b)) Q) ->
  (oom e -> calc e dd (k (DRBG_FAILURE, drbg_V d, false)) Q) ->
  calc e dd (Generate_additional d add ≫= k) Q.
Proof.
  intros Hdev Lv Ov Ha Hok Hfail. unfold Generate_additional, segment.
  destruct add as [add|].
  2:{ calc_step. exact (Hok false). }
  cbn [default from_option id] in Hok. unfold mixed in Hok.
  destruct (0 <? len add) eqn:Ea; cbv iota; [|calc_step; exact (Hok false)].
  calc_step. calc_step; cbn [negb]; [|calc_step; auto]. rewrite Hdev.
  assert (Forall seg_ok [[drbgGenerateW]; drbg_V d; add]) as Hs.
  { repeat apply Forall_cons_2; try apply Forall_nil_2; [by apply seg_ok_byte|split; [done|lia]|exact Ha]. }
  calc_step. eapply calc_bind; [apply (sha_digest_spec _ _ Hs); [cbn; lia|done]|].
  intros [ret h] [(Hr & Hh)|(Hr & Lh & Ho)]; cbn [fst snd] in *; subst ret; eval_tests; calc_step; [|calc_step; auto].
  subst h. rewrite hash_add by (done || apply len_sha256 || apply sha256_bytes_ok).
  specialize (Hok true). cbn [concat] in Hok |- *. by rewrite app_nil_r.
Qed.

Lemma le_split_reverse c : 0 <= c < 2 ^ 64 -> le_split 8 (ByteReverseWord64 c) = be_split 8 c.
Proof.
  intros Hc. pose proof (le_split_ok 8 c) as Hok. pose proof (le_split_length 8 c) as Hl.
  assert (c = le_combine (le_split 8 c)) as Ec by (rewrite le_combine_split, Z.mod_small; [done|exact Hc]).
  unfold be_split. destruct (le_split 8 c) as [|b0 [|b1 [|b2 [|b3 [|b4 [|b5 [|b6 [|b7 [|]]]]]]]]] eqn:E; try done.
  rewrite Ec, ByteReverseWord64_le by done.
  apply (le_split_combine (rev [b0; b1; b2; b3; b4; b5; b6; b7])). by apply bytes_ok_rev.
Qed.

Lemma Generate_update_spec s d v :
  drbg_rel s d -> drbg_reseedCtr d < WC_RESEED_INTERVAL -> len v = 55 -> bytes_ok v ->
  calc e 0 (Generate_update d v)
    (fun r => (r.1 = DRBG_SUCCESS /\
       drbg_rel {| Sp800_90A.V := be_split 55 (be_combine v + be_combine (Fips180.sha256 (3 :: v)) +
                                               be_combine (Sp800_90A.C s) + Sp800_90A.reseed_counter s);
                   Sp800_90A.C := Sp800_90A.C s;
                   Sp800_90A.reseed_counter := Sp800_90A.reseed_counter s + 1 |} r.2) \/
      (r.1 = MEMORY_E /\ r.2 = d /\ oom e)).
Proof.
  intros Hrel Hctr Lv Ov. unfold Generate_update. rewrite (dr_dev _ _ Hrel).
  assert (Forall seg_ok [[drbgGenerateH]; v]) as Hs.
  { repeat apply Forall_cons_2; try apply Forall_nil_2; [by apply seg_ok_byte|split; [done|lia]]. }
  eapply calc_bind; [apply (sha_digest_spec _ _ Hs); [cbn; lia|done]|].
  intros [ret h] [(Hr & Hh)|(Hr & Lh & Ho)]; cbn [fst snd] in *; subst ret; eval_tests; calc_step; [left|by right].
  split; [done|]. cbn [concat] in Hh. rewrite app_nil_r in Hh. change ([drbgGenerateH] ++ v) with (3 :: v) in Hh.
  destruct Hrel. change WC_RESEED_INTERVAL with 1000000 in Hctr.
  rewrite le_split_reverse by lia. subst h. cbn [snd].
  rewrite (hash_add v) by (done || apply len_sha256 || apply sha256_bytes_ok).
  set (h := Fips180.sha256 (3 :: v)). destruct (plus_ok v (be_combine h)) as [L1 O1].
  rewrite (array_add_spec _ (drbg_C d)) by (done || lia).
  unfold Sp800_90A.plus. rewrite !length_be_split, be_split_add.
  rewrite array_add_spec by (apply be_split_ok || (rewrite !len_be_split; lia)).
  rewrite (be_combine_split 8), (Z.mod_small (drbg_reseedCtr d)) by (change (8 * Z.of_nat 8) with 64; lia).
  rewrite !length_be_split, !be_split_add.
  assert (w64 (drbg_reseedCtr d + 1) = drbg_reseedCtr d + 1) as -> by (rewrite w64_mod, Z.mod_small; lia).
  rewrite <-dr_C0, <-dr_ctr0. split; cbn [set_drbg_VC drbg_V drbg_C drbg_reseedCtr drbg_devId]; try done.
  - apply be_split_ok.
  - lia.
Qed.

(** The failure of a draw: the object unchanged, the buffer untouched or wiped. *)
Definition draw_failed (d d' : DRBG_internal) (o : bytes) (o' : option bytes) (n : Z) : Prop :=
  d' = d /\ (o' = Some o \/ o' = Some (splice o 0 (zeros n))).

Lemma wiped_spoiled o o1 n : 0 <= n <= len o -> spoiled o o1 n ->
  ForceZero (take (Z.to_nat n) o1) ++ drop (Z.to_nat n) o1 = splice o 0 (zeros n).
Proof.
  intros Hn [L E]. rewrite E. unfold splice, ForceZero, zeros. rewrite length_replicate, length_take.
  change (take (Z.to_nat 0) o) with (@nil Z). cbn [app Z.to_nat Nat.add]. do 2 f_equal.
  unfold len in *. lia.
Qed.

Lemma len_Hashgen n v : 0 < n -> len (Sp800_90A.Hashgen n v) = n.
Proof.
  intros Hn. unfold Sp800_90A.Hashgen. fold (gen_stream v 0 (Z.to_nat ((n + 31) / 32))).
  pose proof (len_gen_stream v 0 (Z.to_nat ((n + 31) / 32))) as L. destruct (blocks_needed n Hn) as [_ Hb].
  unfold len in *. rewrite length_take. lia.
Qed.

Lemma Hash_DRBG_Generate_spec s d o n add :
  drbg_rel s d -> 0 < n <= len o -> oseg_ok add -> drbg_reseedCtr d < WC_RESEED_INTERVAL ->
  calc e 0 (Hash_DRBG_Generate d (Some o) n add)
    (fun '(ret, d', o') =>
      (ret = DRBG_SUCCESS /\ drbg_rel (Sp800_90A.Generate s n (default [] add)).2 d' /\
       o' = Some (splice o 0 (Sp800_90A.Generate s n (default [] add)).1)) \/
      (ret = DRBG_FAILURE /\ draw_failed d d' o o' n /\ oom e)).
Proof.
  intros Hrel Hn Ha Hctr. unfold Hash_DRBG_Generate.
  rewrite (proj2 (Z.leb_gt WC_RESEED_INTERVAL (drbg_reseedCtr d))) by done.
  calc_step; cbn [negb]; [|calc_step; right; split; [done|]; split; [split; auto|done]].
  pose proof Hrel as [EV EC Ec Hdev LV LC OV OC Hp].
  apply Generate_additional_spec; [done|done|done|done| |].
  2:{ intros Ho. eval_tests. calc_step. calc_step. right. split; [done|]. split; [split; auto|done]. }
  intros b. eval_tests. set (v := mixed _ _). destruct (mixed_ok (drbg_V d) (default [] add) LV OV) as [Lv Ov].
  eapply calc_bind; [by apply (Hash_gen_spec d v)|].
  intros [ret o'] [(Hr & Hh)|(Hr & (o1 & Hh & Hsp) & Ho)]; cbn [fst snd] in *; subst ret o'; eval_tests.
  - eapply calc_bind; [by apply (Generate_update_spec s d v)|].
    intros [ret d'] [(Hr & Hd)|(Hr & Hd & Ho)]; cbn [fst snd] in *; subst ret; eval_tests; cbn [fmap option_fmap option_map].
    + assert (drbg_rel (Sp800_90A.Generate s n (default [] add)).2 d') as Hd'.
      { revert Hd. unfold v, mixed, Sp800_90A.Generate. by rewrite EV. }
      assert (Sp800_90A.Hashgen n v = (Sp800_90A.Generate s n (default [] add)).1) as ->.
      { unfold v, mixed, Sp800_90A.Generate. by rewrite EV. }
      destruct b; repeat calc_step; by left.
    + subst d'. assert (spoiled o (splice o 0 (Sp800_90A.Hashgen n v)) n) as Hsp.
      { pose proof (len_Hashgen n v ltac:(lia)). split; [apply len_splice; lia|apply drop_splice; lia]. }
      rewrite (wiped_spoiled o _ n) by (done || lia).
      destruct b; repeat calc_step; right; (split; [done|]); (split; [|done]); by split; [|right].
  - calc_step. eval_tests. cbn [fmap option_fmap option_map]. rewrite (wiped_spoiled o _ n) by (done || lia).
    destruct b; repeat calc_step; right; (split; [done|]); (split; [|done]); by split; [|right].
Qed.

(** Requests made of an instance between its creation and its end. *)
Inductive request :=
  | Draw (o : bytes) (n : Z) (add : option bytes)
  | Refresh (seed add : option bytes).

Definition request_ok (r : request) : Prop :=
  match r with
  | Draw o n add => 0 < n <= len o /\ oseg_ok add
  | Refresh seed add => oseg_ok seed /\ oseg_ok add
  end.

(** The requests served in order by the code, to the first that is not served. *)
Fixpoint serve (d : DRBG_internal) (rs : list request) : M (Z * list bytes) :=
  match rs with
  | [] => mret (DRBG_SUCCESS, [])
  | Draw o n add :: rs =>
    '(ret, d, o) ← Hash_DRBG_Generate d (Some o) n add;
    if ret =? DRBG_SUCCESS then '(ret, os) ← serve d rs; mret (ret, default [] o :: os) else mret (ret, [])
  | Refresh seed add :: rs =>
    '(ret, d) ← Hash256_DRBG_Reseed d seed add;
    if ret =? DRBG_SUCCESS then serve d rs else mret (ret, [])
  end.

(** The same by the standard, which refuses to draw past the reseed interval. *)
Fixpoint serve_ref (s : Sp800_90A.state) (rs : list request) : Z * list bytes :=
  match rs with
  | [] => (DRBG_SUCCESS, [])
  | Draw o n add :: rs =>
    if WC_RESEED_INTERVAL <=? Sp800_90A.reseed_counter s then (DRBG_NEED_RESEED, [])
    else
      let '(bits, s) := Sp800_90A.Generate s n (default [] add) in
      let '(ret, os) := serve_ref s rs in (ret, splice o 0 bits :: os)
  | Refresh seed add :: rs => serve_ref (Sp800_90A.Reseed s (default [] seed) (default [] add)) rs
  end.

Definition served (s : Sp800_90A.state) (rs : list request) (r : Z * list bytes) : Prop :=
  r = serve_ref s rs \/
  (r.1 = DRBG_FAILURE /\ (exists os, (serve_ref s rs).2 = r.2 ++ os) /\ oom e).

Lemma serve_spec rs : Forall request_ok rs -> forall s d, drbg_rel s d ->
  calc e 0 (serve d rs) (served s rs).
Proof.
  induction 1 as [|[o n add|seed add] rs Hr _ IH]; intros s d Hrel; cbn [serve].
  - calc_step. by left.
  - destruct Hr as [Hn Ha]. unfold served. cbn [serve_ref]. rewrite <-(dr_ctr _ _ Hrel).
    destruct (Z.leb_spec WC_RESEED_INTERVAL (drbg_reseedCtr d)) as [Hi|Hi].
    { unfold Hash_DRBG_Generate. rewrite (proj2 (Z.leb_le _ _) Hi). calc_step. eval_tests. calc_step. by left. }
    eapply calc_bind; [by apply (Hash_DRBG_Generate_spec s)|].
    intros [[ret d'] o'] [(-> & Hd & ->)|(-> & _ & Ho)]; eval_tests.
    + destruct (Sp800_90A.Generate s n (default [] add)) as [bits s'] eqn:Eg. cbn [fst snd] in Hd |- *.
      eapply calc_bind; [by apply (IH s')|]. intros [ret os] Hs. calc_step. cbn [default from_option id].
      destruct (serve_ref s' rs) as [r' os'] eqn:Er. destruct Hs as [Hs|(Hf & (os2 & Hs) & Ho)].
      * left. rewrite Er in Hs. by inversion Hs.
      * right. cbn [fst snd] in *. split; [done|]. split; [|done]. exists os2. rewrite Er in Hs. cbn [snd] in Hs. by rewrite Hs.
    + calc_step. right. split; [done|]. split; [|done]. by eexists.
  - destruct Hr as [Hs Ha]. eapply calc_bind; [by apply (Hash256_DRBG_Reseed_spec s)|].
    intros [ret d'] [(Hr & Hd)|(Hr & _ & Ho)]; cbn [fst snd] in *; subst ret; eval_tests; [by apply IH|].
    calc_step. right. split; [done|]. split; [|done]. by eexists.
Qed.

(** C16. A Hash_DRBG instance of random.c, created from entropy, a nonce and a
    personalization string and then asked for draws and reseedings in any order,
    computes what SP 800-90A prescribes for SHA-256: every buffer holds the
    bytes of [Sp800_90A.Generate], a draw past the reseed interval is refused
    with [DRBG_NEED_RESEED], and the only other way to stop is [DRBG_FAILURE]
    when an allocation failed, the buffers served before still being right.
    Nothing faults and no heap block is kept. *)
Theorem drbg_sp800_90a seed nonce perso rs :
  seg_ok seed -> oseg_ok nonce -> oseg_ok perso -> Forall request_ok rs ->
  calc e 0
    ('(ret, d) ← Hash_DRBG_Instantiate (Some seed) nonce perso INVALID_DEVID;
     if ret =? DRBG_SUCCESS then serve d rs else mret (ret, []))
    (served (Sp800_90A.Instantiate seed (default [] nonce) (default [] perso)) rs).
Proof.
  intros Hs Hn Hp Hrs. eapply calc_bind; [by apply Hash_DRBG_Instantiate_spec|].
  intros [ret d] [[Hr Hd]|[Hr Ho]]; cbn [fst snd] in *; subst ret; eval_tests; [by apply serve_spec|].
  calc_step. right. split; [done|]. split; [by eexists|done].
Qed.
End Refinement.

Definition seedB_requests : list request := [Draw (zeros 128) 128 None; Draw (zeros 128) 128 None].

Lemma drbg_sp800_90a_witness :
  (serve_ref (Sp800_90A.Instantiate seedB_data [] []) seedB_requests).2 !! 1%nat = Some outputB_data /\
  calc env_plenty 0
    ('(ret, d) ← Hash_DRBG_Instantiate (H := no_callbacks) (Some seedB_data) None None INVALID_DEVID;
     if ret =? DRBG_SUCCESS then serve (H := no_callbacks) d seedB_requests else mret (ret, []))
    (fun r => r.1 = DRBG_SUCCESS /\ r.2 !! 1%nat = Some outputB_data).
Proof.
  assert ((serve_ref (Sp800_90A.Instantiate seedB_data [] []) seedB_requests).1 = DRBG_SUCCESS) as E1
    by (vm_compute; reflexivity).
  assert ((serve_ref (Sp800_90A.Instantiate seedB_data [] []) seedB_requests).2 !! 1%nat = Some outputB_data) as E2
    by (vm_compute; reflexivity).
  split; [exact E2|].
  eapply calc_mono; [apply (@drbg_sp800_90a no_callbacks env_plenty seedB_data None None seedB_requests)|].
  - split; [solve_bytes|done].
  - split; [apply Forall_nil_2|done].
  - split; [apply Forall_nil_2|done].
  - assert (request_ok (Draw (zeros 128) 128 None)) as Hr.
    { split; [rewrite len_zeros; lia|]. split; [apply Forall_nil_2|done]. }
    exact (Forall_cons_2 _ _ _ Hr (Forall_cons_2 _ _ _ Hr (Forall_nil_2 _))).
  - intros r [->|(_ & _ & n & Ho)]; [|discriminate Ho]. split; [exact E1|exact E2].
Defined.
