(* ===== verification/Rng.v ===== *)
(** * Rng: the generator object of random.c

    Theorems on the layer above Hash_DRBG: the seed tests catch what they are
    meant to catch, the known-answer test passes, creating a generator
    ([wc_rng_new]) succeeds when the system's entropy source and the heap do and
    otherwise leaves nothing behind, and drawing from it
    ([wc_RNG_GenerateBlock]) gives the bytes of SP 800-90A. *)

From stdpp Require Import strings.
From S2P Require Import Prelude Platform Types Misc CryptoCb Sha256 Drbg.

#[local] Opaque Fips180.sha256.

(** ** The seed tests *)

(** [n] consecutive equal bytes somewhere in [l]. *)
Definition has_run (n : nat) (l : bytes) : Prop :=
  exists i b, forall j, (i <= j < i + n)%nat -> l !! j = Some b.

(** What the repetition count knows after the non-empty string [l]: the last
    byte, the length of the run it ends, and whether a run of 31 was seen. *)
Record rct_inv (l : bytes) (rep : nat) (prev : Z) (failed : bool) : Prop := {
  ri_pos : (1 <= rep <= length l)%nat;
  ri_run : forall j, (length l - rep <= j < length l)%nat -> l !! j = Some prev;
  ri_max : rep = length l \/ l !! (length l - rep - 1)%nat <> Some prev;
  ri_failed : failed = true <-> has_run 31 l }.

Lemma has_run_snoc l rep prev failed x : rct_inv l rep prev failed ->
  has_run 31 (l ++ [x]) <-> has_run 31 l \/ (31 <= if decide (x = prev) then S rep else 1)%nat.
Proof.
  intros [Hp Hr Hm _]. split.
  - intros (i & b & H). destruct (decide (i + 31 <= length l)%nat) as [Hi|Hi].
    { left. exists i, b. intros j Hj. rewrite <-(H j Hj). symmetry. apply lookup_app_l. lia. }
    right. assert (i + 30 <= length l)%nat as Hl.
    { pose proof (lookup_lt_Some _ _ _ (H (i + 30)%nat ltac:(lia))) as Hlt. rewrite length_app in Hlt. cbn in Hlt. lia. }
    assert (x = b) as ->.
    { specialize (H (length l) ltac:(lia)). rewrite lookup_app_r, Nat.sub_diag in H by lia. by injection H. }
    assert (forall j, (i <= j < length l)%nat -> l !! j = Some b) as Hb.
    { intros j Hj. rewrite <-(H j ltac:(lia)). symmetry. apply lookup_app_l. lia. }
    assert (prev = b) as -> by (pose proof (Hb (length l - 1)%nat ltac:(lia)); pose proof (Hr (length l - 1)%nat ltac:(lia)); congruence).
    rewrite decide_True by done. destruct Hm as [->|Hm]; [lia|].
    destruct (decide (30 <= rep)%nat); [lia|]. exfalso. apply Hm, Hb. lia.
  - intros [(i & b & H)|H].
    + exists i, b. intros j Hj. by apply lookup_app_l_Some, H.
    + case_decide as E; [subst x|lia]. exists (length l - 30)%nat, prev. intros j Hj.
      destruct (decide (j < length l)%nat); [apply lookup_app_l_Some, Hr; lia|].
      rewrite lookup_app_r by lia. by replace (j - length l)%nat with 0%nat by lia.
Qed.

Lemma rct_step_inv l rep prev failed x : rct_inv l rep prev failed -> 0 <= prev < 256 -> 0 <= x < 256 ->
  exists rep' failed', rct_step (Z.of_nat rep, prev, failed) x = (Z.of_nat rep', x, failed') /\ rct_inv (l ++ [x]) rep' x failed'.
Proof.
  intros Hi Hp Hx. pose proof (has_run_snoc _ _ _ _ x Hi) as Hs. destruct Hi as [H1 H2 H3 H4]. unfold rct_step.
  assert (forall y, (l ++ [x]) !! length l = Some y <-> y = x) as Hlast.
  { intros y. rewrite lookup_app_r, Nat.sub_diag by lia. cbn. naive_solver. }
  destruct (Z.eqb_spec x prev) as [->|Hn]; cbn [Z.b2z].
  - rewrite decide_True in Hs by done. exists (S rep), (failed || (31 <=? Z.of_nat (S rep))). split.
    { replace (w8 (1 * prev + (1 - 1) * prev)) with prev by (rewrite w8_mod, Z.mod_small by lia; lia).
      replace (1 * (Z.of_nat rep + 1) + (1 - 1) * 1) with (Z.of_nat (S rep)) by lia. done. }
    split; rewrite ?length_app; cbn [length].
    + lia.
    + intros j Hj. destruct (decide (j < length l)%nat); [apply lookup_app_l_Some, H2; lia|].
      replace j with (length l) by lia. by apply Hlast.
    + destruct H3 as [->|H3]; [left; lia|right]. rewrite lookup_app_l by lia. by replace (length l + 1 - S rep - 1)%nat with (length l - rep - 1)%nat by lia.
    + rewrite orb_true_iff, H4, Hs, Z.leb_le. intuition lia.
  - rewrite decide_False in Hs by done. exists 1%nat, (failed || (31 <=? 1)). split.
    { replace (w8 (0 * prev + (1 - 0) * x)) with x by (rewrite w8_mod, Z.mod_small by lia; lia). done. }
    split; rewrite ?length_app; cbn [length].
    + lia.
    + intros j Hj. replace j with (length l) by lia. by apply Hlast.
    + right. replace (length l + 1 - 1 - 1)%nat with (length l - 1)%nat by lia. rewrite lookup_app_l by lia. rewrite H2 by lia. congruence.
    + rewrite orb_false_r, H4, Hs. intuition lia.
Qed.

(** The repetition count test fails exactly on 31 equal bytes in a row. *)
Lemma rct_spec b l : bytes_ok (b :: l) ->
  (foldl rct_step (1, b, false) l).2 = true <-> has_run 31 (b :: l).
Proof.
  intros Hok. assert (forall l' l0 rep prev failed, rct_inv l0 rep prev failed -> 0 <= prev < 256 -> bytes_ok l' ->
    (foldl rct_step (Z.of_nat rep, prev, failed) l').2 = true <-> has_run 31 (l0 ++ l')) as H.
  { induction l' as [|x l' IH]; intros l0 rep prev failed Hi Hp Hl'.
    - rewrite app_nil_r. apply Hi.
    - apply Forall_cons_1 in Hl' as [Hx Hl']. cbn [foldl].
      destruct (rct_step_inv _ _ _ _ x Hi Hp Hx) as (rep' & f' & -> & Hi').
      rewrite (IH _ _ _ _ Hi' Hx Hl'). by rewrite <-app_assoc. }
  apply Forall_cons_1 in Hok as [Hb Hl]. apply (H l [b] 1%nat b false); [|done|done]. split; cbn.
  - lia.
  - intros j Hj. by replace j with 0%nat by lia.
  - by left.
  - split; [done|]. intros (i & c & Hr). specialize (Hr (S i) ltac:(lia)). done.
Qed.

(** How often a byte occurs. *)
Definition occurs (b : Z) (l : bytes) : Z := Z.of_nat (count_occ Z.eq_dec l b).

Lemma occurs_snoc b l x : occurs b (l ++ [x]) = occurs b l + (if decide (x = b) then 1 else 0).
Proof.
  unfold occurs. rewrite count_occ_app. cbn [count_occ]. destruct (Z.eq_dec x b); case_decide; try done; lia.
Qed.

Lemma occurs_range b l : 0 <= occurs b l <= len l.
Proof. unfold occurs, len. pose proof (count_occ_bound Z.eq_dec b l). lia. Qed.

(** The table after the string [l]. *)
Definition counted (l : bytes) (counts : list Z) : Prop :=
  length counts = 256%nat /\ forall b, 0 <= b < 256 -> counts !! Z.to_nat b = Some (occurs b l).

Lemma count_byte_step l counts x : counted l counts -> 0 <= x < 256 -> len l < 512 -> counted (l ++ [x]) (count_byte 1 counts x).
Proof.
  intros [Hl Hc] Hx Hn. unfold count_byte. assert (Z.land x 255 = x) as ->.
  { change (Z.land x 255) with (w8 x). rewrite w8_mod, Z.mod_small; done. }
  split; [by rewrite length_insert|]. intros b Hb. rewrite occurs_snoc. pose proof (occurs_range b l).
  case_decide as E.
  - subst x. rewrite list_lookup_insert_eq by lia. f_equal. rewrite (list_lookup_total_correct _ _ _ (Hc b Hb)).
    rewrite w16_mod, Z.mod_small; lia.
  - rewrite list_lookup_insert_ne by lia. rewrite Hc by done. f_equal. lia.
Qed.

Lemma counted_all l : bytes_ok l -> len l <= 512 -> counted l (foldl (count_byte 1) (replicate 256 0) l).
Proof.
  induction l as [|x l IH] using rev_ind; intros Hok Hn.
  - split; [done|]. intros b Hb. cbn [foldl]. apply lookup_replicate_2. lia.
  - apply bytes_ok_app in Hok as [Hl Hx]. apply Forall_cons_1 in Hx as [Hx _]. rewrite len_app in Hn. change (len [x]) with 1 in Hn.
    rewrite foldl_snoc. apply count_byte_step; [apply IH; [done|lia]|done|lia].
Qed.

Lemma apt_spec l : bytes_ok l -> len l <= 512 ->
  existsb (fun c => 325 <=? c) (foldl (count_byte 1) (replicate 256 0) l) = true <-> exists b, 325 <= occurs b l.
Proof.
  intros Hok Hn. destruct (counted_all l Hok Hn) as [Hl Hc]. rewrite existsb_exists. split.
  - intros (c & Hin & H). apply Z.leb_le in H. apply list_elem_of_In, list_elem_of_lookup in Hin as [i Hi].
    pose proof (lookup_lt_Some _ _ _ Hi). specialize (Hc (Z.of_nat i) ltac:(lia)). rewrite Nat2Z.id, Hi in Hc. injection Hc as ->. eauto.
  - intros (b & H). assert (0 <= b < 256) as Hb.
    { unfold occurs in H. assert (In b l) as Hin by (apply (count_occ_In Z.eq_dec); lia).
      by apply (proj1 (List.Forall_forall _ _) Hok). }
    exists (occurs b l). split; [|by apply Z.leb_le]. apply list_elem_of_In. eapply list_elem_of_lookup_2, Hc, Hb.
Qed.

(** A seed the tests accept. *)
Definition healthy (seed : bytes) : Prop := ~ has_run 31 seed /\ forall b, occurs b seed < 325.

Lemma TestSeed_spec e seed seedSz :
  bytes_ok seed -> 4 <= seedSz <= 512 -> seedSz <= len seed ->
  let s := take (Z.to_nat seedSz) seed in
  calc e 0 (wc_RNG_TestSeed seed seedSz) (fun r =>
    (r = ENTROPY_RT_E /\ has_run 31 s) \/
    (r = ENTROPY_APT_E /\ ~ has_run 31 s /\ exists b, 325 <= occurs b s) \/
    (r = 0 /\ healthy s) \/ (r = MEMORY_E /\ oom e)).
Proof.
  intros Hok Hs Hl s. unfold wc_RNG_TestSeed. rewrite (proj2 (Z.ltb_ge seedSz 4)) by lia.
  calc_step; [lia|lia|lia|]. unfold sub. change (drop (Z.to_nat 0) seed) with seed. fold s.
  assert (len s = seedSz) as Ls by (unfold s, len in *; rewrite length_take; lia).
  assert (bytes_ok s) as Os by (by apply bytes_ok_take).
  clearbody s. destruct s as [|b s'] eqn:Es; [rewrite len_nil in Ls; lia|]. rewrite <-Es in Ls |- *.
  replace (s !!! 0%nat) with b by (by rewrite Es). replace (drop 1 s) with s' by (by rewrite Es).
  pose proof (rct_spec b s' Os) as Hrct. rewrite <-Es in Hrct, Os.
  destruct (foldl rct_step (1, b, false) s') as [[rc pb] rct]. cbn [snd] in Hrct.
  rewrite min_ct_spec, Z.min_l by lia. rewrite take_ge by (unfold len in Ls; lia). rewrite Z.sub_diag. change (Z.to_nat 0) with 0%nat. cbn [apt_slide].
  pose proof (apt_spec s Os ltac:(lia)) as Hapt.
  calc_step; cbn [negb]; [|calc_step; tauto]. calc_step.
  destruct rct; [calc_step; left; tauto|]. assert (~ has_run 31 s) as Hnr by (intros H%Hrct; done).
  destruct (existsb _ _); cbv iota.
  - calc_step. right; left. split; [done|]. split; [done|]. by apply Hapt.
  - calc_step. right; right; left. split; [done|]. split; [done|]. intros x. destruct (Z.lt_ge_cases (occurs x s) 325); [done|].
    assert (exists y, 325 <= occurs y s) as Hy%Hapt by eauto. done.
Qed.



(** ** The known-answer test *)

Section Health.
Context `{!Callbacks} (e : env) {x : mode} `{!MayCall x}.

(** What the test draws: the second 128 bytes. *)
Definition kat (reseed : bool) (nonce seedA seedB : bytes) : bytes :=
  let s := Sp800_90A.Instantiate seedA nonce [] in
  let s := if reseed then Sp800_90A.Reseed s seedB [] else s in
  (Sp800_90A.Generate (Sp800_90A.Generate s 128 []).2 128 []).1.

Lemma oseg_ok_None : oseg_ok None.
Proof. split; [constructor|done]. Qed.

Lemma Uninstantiate_ok d : Hash_DRBG_Uninstantiate d = (DRBG_SUCCESS, drbg_zero).
Proof. reflexivity. Qed.

Lemma len_Generate s n add : 0 < n -> len (Sp800_90A.Generate s n add).1 = n.
Proof. intros Hn. apply len_Hashgen. done. Qed.

(** The test's outcome: its own output buffer holds the second draw. *)
Definition kat_result (reseed : bool) (nonce seedA seedB : bytes) (r : Z * option bytes) : Prop :=
  (r.1 = 0 /\ r.2 = Some (kat reseed nonce seedA seedB)) \/
  (r.1 = DRBG_FAILURE /\ (exists o, r.2 = Some o /\ len o = 128) /\ oom e).

(** The two draws, from an instance in its first interval. *)
Lemma two_draws s d o : drbg_rel s d -> Sp800_90A.reseed_counter s = 1 -> len o = 128 ->
  calc e 0
    (let done ret drbg output :=
       let '(u, _) := Hash_DRBG_Uninstantiate drbg in
       mret (if negb (u =? 0) && (ret =? 0) then DRBG_FAILURE else ret, output) in
     '(r, drbg, output) ← Hash_DRBG_Generate d (Some o) (32 * 4) None;
     if negb (r =? 0) then done DRBG_FAILURE drbg output
     else
       '(r, drbg, output) ← Hash_DRBG_Generate drbg output (32 * 4) None;
       if negb (r =? 0) then done DRBG_FAILURE drbg output else done 0 drbg output)
    (fun r => (r.1 = 0 /\ r.2 = Some (Sp800_90A.Generate (Sp800_90A.Generate s 128 []).2 128 []).1) \/
              (r.1 = DRBG_FAILURE /\ (exists o, r.2 = Some o /\ len o = 128) /\ oom e)).
Proof.
  intros Hrel Hc Lo. change (32 * 4) with 128. cbv zeta. pose proof (dr_ctr _ _ Hrel) as Ec.
  assert (forall d d' o o', draw_failed d d' o o' 128 -> len o = 128 -> exists o1, o' = Some o1 /\ len o1 = 128) as Hfail.
  { intros d0 d' o0 o' [_ [->| ->]] L; eexists; (split; [done|]); [done|]. rewrite len_splice; rewrite ?len_zeros; lia. }
  eapply calc_bind; [apply (Hash_DRBG_Generate_spec e s); [done|lia|apply oseg_ok_None|change WC_RESEED_INTERVAL with 1000000; lia]|].
  intros [[r d1] o1] [(-> & Hrel1 & ->)|(-> & Hf & Ho)]; eval_tests; rewrite ?Uninstantiate_ok.
  2:{ eval_tests. calc_step. right. split; [done|]. split; [by eapply Hfail|done]. }
  cbn [default from_option id] in *. pose proof (dr_ctr _ _ Hrel1) as Ec1.
  set (s1 := (Sp800_90A.Generate s 128 []).2) in *. assert (Sp800_90A.reseed_counter s1 = 2) as Hc1 by (cbn; lia).
  set (o1 := splice o 0 _). assert (len o1 = 128) as Lo1.
  { unfold o1. rewrite len_splice; rewrite ?len_Generate; lia. }
  eapply calc_bind; [apply (Hash_DRBG_Generate_spec e s1); [done|lia|apply oseg_ok_None|change WC_RESEED_INTERVAL with 1000000; lia]|].
  intros [[r d2] o2] [(-> & Hrel2 & ->)|(-> & Hf & Ho)]; eval_tests; rewrite ?Uninstantiate_ok; eval_tests; calc_step.
  - left. split; [done|]. cbn [snd default from_option id]. f_equal. apply splice_full.
    pose proof (len_Generate s1 128 [] ltac:(lia)). unfold len in *. lia.
  - right. split; [done|]. split; [by eapply Hfail|done].
Qed.

Lemma HealthTest_ex_spec reseed nonce seedA seedB o :
  seg_ok seedA -> oseg_ok nonce -> oseg_ok seedB -> (reseed = true -> seedB <> None) -> len o = 128 ->
  calc e 0 (wc_RNG_HealthTest_ex_internal reseed nonce (Some seedA) seedB (Some o) (32 * 4) INVALID_DEVID)
    (kat_result reseed (default [] nonce) seedA (default [] seedB)).
Proof.
  intros HA Hn HB Hr Lo. unfold wc_RNG_HealthTest_ex_internal.
  assert (reseed && bool_decide (seedB = None) = false) as -> by (destruct reseed; [rewrite bool_decide_false; auto|done]).
  change (negb (32 * 4 =? 32 * 4)) with false. cbv iota zeta.
  eapply calc_bind; [apply (Hash_DRBG_Instantiate_spec e seedA nonce None); [done|done|apply oseg_ok_None]|].
  intros [r d] [[Hr0 Hrel]|[Hr0 Ho]]; cbn [fst snd] in *; subst r; eval_tests; rewrite ?Uninstantiate_ok.
  2:{ eval_tests. calc_step. right. split; [done|]. split; [by exists o|done]. }
  cbn [default from_option] in Hrel. unfold kat_result, kat. set (s := Sp800_90A.Instantiate _ _ _) in *. destruct reseed.
  - eapply calc_bind; [apply (Hash256_DRBG_Reseed_spec e s); [done|done|apply oseg_ok_None]|].
    intros [r d'] [[Hr1 Hrel1]|(Hr1 & Hd1 & Ho)]; cbn [fst snd] in *; subst r; eval_tests; rewrite ?Uninstantiate_ok.
    + by apply two_draws.
    + eval_tests. calc_step. right. split; [done|]. split; [by exists o|done].
  - calc_step. eval_tests. by apply two_draws.
Qed.

(** The vectors of the two tests. *)
Lemma kat_A : kat true [] seedA_data reseedSeedA_data = outputA_data.
Proof. vm_compute. reflexivity. Qed.

Lemma kat_B : kat false [] seedB_data [] = outputB_data.
Proof. vm_compute. reflexivity. Qed.

Lemma kat_B_split : kat false (drop 32 seedB_data) (take 32 seedB_data) [] = outputB_data.
Proof. vm_compute. reflexivity. Qed.

#[local] Opaque kat ConstantCompare.

Lemma seg_ok_seed (s : bytes) : forallb (fun b => (0 <=? b) && (b <? 256)) s && (len s <=? 512) = true -> seg_ok s.
Proof.
  intros [H1 H2]%andb_true_iff. split; [|lia]. apply List.Forall_forall. intros b Hb.
  apply (proj1 (forallb_forall _ _)) with (x := b) in H1; [|done]. lia.
Qed.

Lemma ConstantCompare_refl l : ConstantCompare l l (len l) = 0.
Proof. apply ConstantCompare_0; [lia|lia|done]. Qed.

(** The power-up self test passes on every input world: it fails only for want
    of memory. *)
Lemma HealthTestLocal_spec reseed :
  calc e 0 (wc_RNG_HealthTestLocal reseed INVALID_DEVID) (fun r => r = 0 \/ (r <> 0 /\ oom e)).
Proof.
  unfold wc_RNG_HealthTestLocal. calc_step; cbn [negb]; [|by calc_step; right].
  calc_step; cbn [negb]; [|by do 2 calc_step; right]. cbv zeta.
  eapply (calc_bind _ _ _ _ (fun r => r = 0 \/ (r <> 0 /\ oom e))); [|intros r Hr; by do 3 calc_step].
  destruct reseed.
  - eapply calc_bind; [apply (HealthTest_ex_spec true None seedA_data (Some reseedSeedA_data) (zeros (32 * 4)));
      [by apply seg_ok_seed|apply oseg_ok_None|by apply seg_ok_seed|done|done]|].
    intros [r o] [(Hr & Ho)|(Hr & _ & Hoom)]; cbn [fst snd default from_option id] in *; subst r; [|eval_tests; by calc_step; right].
    rewrite kat_A in Ho. subst o. change (0 =? 0) with true. cbn [negb]. cbv iota. cbn [default from_option id]. change (32 * 4) with (len outputA_data).
    rewrite ConstantCompare_refl. change (0 =? 0) with true. cbn [negb]. calc_step. by left.
  - eapply calc_bind; [apply (HealthTest_ex_spec false None seedB_data None (zeros (32 * 4)));
      [by apply seg_ok_seed|apply oseg_ok_None|apply oseg_ok_None|done|done]|].
    intros [r o] [(Hr & Ho)|(Hr & _ & Hoom)]; cbn [fst snd default from_option id] in *; subst r; [|eval_tests; by calc_step; right].
    rewrite kat_B in Ho. subst o. change (0 =? 0) with true. cbn [negb]. cbv iota. cbn [default from_option id]. change (32 * 4) with (len outputB_data).
    rewrite ConstantCompare_refl. change (0 =? 0) with true. cbn [negb]. cbv iota. change (0 =? 0) with true. cbv iota. change (len outputB_data) with (32 * 4) at 1.
    eapply calc_bind; [apply (HealthTest_ex_spec false (Some (drop 32 seedB_data)) (take 32 seedB_data) None outputB_data);
      [by apply seg_ok_seed|by apply seg_ok_seed|apply oseg_ok_None|done|done]|].
    intros [r o] [(Hr & Ho)|(Hr & _ & Hoom)]; cbn [fst snd default from_option id] in *; subst r; [|eval_tests; by calc_step; right].
    rewrite kat_B_split in Ho. subst o. change (0 =? 0) with true. cbn [negb]. cbv iota. cbn [default from_option id]. rewrite ConstantCompare_refl. change (0 =? 0) with true. cbn [negb]. calc_step. by left.
Qed.

(** ** Seeding *)

(** What read(2) promises: the bytes stored are as many as the value returned,
    and at most as many as asked for. *)
Definition os_sane : Prop := forall n fd sz,
  let a := e_os e n (Read fd sz) in 0 < os_val a -> len (os_data a) = os_val a /\ os_val a <= sz /\ bytes_ok (os_data a).

(** A random device that opens and gives all the bytes asked for, none of its
    blocks degenerate. *)
Definition entropy_ok : Prop :=
  (forall n path flags, 0 <= os_val (e_os e n (Open path flags))) /\
  (forall n fd sz, 0 < sz <= 512 -> os_val (e_os e n (Read fd sz)) = sz /\ healthy (os_data (e_os e n (Read fd sz)))).

Lemma set_cloexec_ok fd : calc_in x e 0 (wc_set_cloexec fd) (fun _ => True).
Proof.
  unfold wc_set_cloexec. destruct (fd <? 0); [by calc_step|]. calc_step. intros n.
  case_match; [|by calc_step]. calc_step. intros n'. by calc_step.
Qed.

Lemma open_cloexec_ok path flags :
  calc_in x e 0 (wc_open_cloexec path flags) (fun fd => entropy_ok -> 0 <= fd).
Proof.
  unfold wc_open_cloexec. calc_step. intros n. destruct (_ && _).
  - calc_step. intros n'. eapply calc_bind; [apply set_cloexec_ok|]. intros _ _. calc_step. intros [Hop _]. apply Hop.
  - calc_step. intros [Hop _]. apply Hop.
Qed.

Hypothesis Hos : os_sane.

Definition seed_out (output : bytes) (sz : Z) (r : Z) (o : bytes) : Prop :=
  len o = len output /\ bytes_ok o /\ (entropy_ok -> r = 0) /\ (entropy_ok -> healthy (take (Z.to_nat sz) o)).

Lemma seed_read_spec fd output sz : 0 < sz <= len output -> sz <= 512 -> bytes_ok output ->
  calc_in x e 0 (seed_read fd output sz) (fun r => seed_out output sz r.1 r.2).
Proof.
  intros Hsz H512 Hok. unfold seed_read. rewrite (proj2 (Z.eqb_neq sz 0)) by lia. calc_step. intros n. cbv zeta.
  pose proof (Hos n fd sz) as Hs. cbv zeta in Hs. set (a := e_os e n (Read fd sz)) in *.
  destruct (Z.leb_spec (os_val a) 0).
  - calc_step. assert (~ entropy_ok) as Hne.
    { intros [_ He]. specialize (He n fd sz ltac:(lia)). fold a in He. lia. }
    split; [done|]. split; [done|]. split; intros; done.
  - destruct (Hs ltac:(lia)) as (Hl & Hle & Ho). calc_step; [lia|lia|].
    assert (len (splice output 0 (os_data a)) = len output) by (apply len_splice; lia).
    assert (bytes_ok (splice output 0 (os_data a))) by (by apply bytes_ok_splice).
    assert (forall r, (entropy_ok -> r = 0) -> seed_out output sz r (splice output 0 (os_data a))) as Hq.
    { intros r Hr. split; [done|]. split; [done|]. split; [done|]. intros [_ He].
      specialize (He n fd sz ltac:(lia)). fold a in He. destruct He as [Ev Hh].
      unfold splice. change (take (Z.to_nat 0) output) with (@nil Z). cbn [app].
      rewrite take_app_le by (unfold len in *; lia). rewrite take_ge by (unfold len in *; lia). done. }
    destruct (Z.eqb_spec (sz - os_val a) 0); cbn [negb]; calc_step; apply Hq; [done|].
    intros [_ He]. specialize (He n fd sz ltac:(lia)). fold a in He. lia.
Qed.

Lemma GenerateSeed_spec sd output sz :
  seed_devId sd = INVALID_DEVID -> 0 < sz <= len output -> sz <= 512 -> bytes_ok output ->
  calc_in x e 0 (wc_GenerateSeed sd output sz)
    (fun r => seed_devId r.1.2 = INVALID_DEVID /\ seed_out output sz r.1.1 r.2).
Proof.
  intros Hd Hsz H512 Hok. unfold wc_GenerateSeed. rewrite Hd. change (negb (INVALID_DEVID =? INVALID_DEVID)) with false. cbv iota.
  unfold GenerateSeed_soft. eapply calc_bind; [apply open_cloexec_ok|]. intros fd Hfd.
  eapply (calc_bind _ _ _ _ (fun fd => entropy_ok -> 0 <= fd)).
  { destruct (fd =? -1); [apply open_cloexec_ok|]. by calc_step. }
  clear fd Hfd. intros fd Hfd. destruct (Z.eqb_spec fd (-1)) as [E|E].
  - assert (~ entropy_ok) as Hne by (intros ?%Hfd; lia). calc_step. split; [done|].
    split; [done|]. split; [done|]. split; done.
  - eapply calc_bind; [by apply seed_read_spec|]. intros [r o] Hr. calc_step. intros n. by calc_step.
Qed.

(** A generator in the state [s] of the standard. *)
Record rng_ready (s : Sp800_90A.state) (rng : WC_RNG) : Prop := {
  rr_drbg : exists d, rng_drbg rng = Some d /\ drbg_rel s d;
  rr_status : rng_status rng = WC_DRBG_OK;
  rr_type : rng_drbgType rng = WC_DRBG_SHA256;
  rr_dev : rng_devId rng = INVALID_DEVID;
  rr_seed : seed_devId (rng_seed rng) = INVALID_DEVID }.

(** A generator [_InitRng] can have made: seeded with 48 bytes the device gave. *)
Definition rng_fresh (rng : WC_RNG) : Prop :=
  exists seed, len seed = 48 /\ bytes_ok seed /\ rng_ready (Sp800_90A.Instantiate seed [] []) rng.

Lemma TestSeed_zero seed sz : bytes_ok seed -> 4 <= sz <= 512 -> sz <= len seed ->
  calc e 0 (wc_RNG_TestSeed seed sz) (fun r => healthy (take (Z.to_nat sz) seed) -> r = 0 \/ (r <> 0 /\ oom e)).
Proof.
  intros H1 H2 H3. eapply calc_mono; [by apply TestSeed_spec|]. cbv zeta.
  intros r [(-> & Hx)|[(-> & _ & b & Hx)|[(-> & _)|(-> & Hx)]]] [Hn Ho]; [done| |by left|by right].
  specialize (Ho b). lia.
Qed.

Lemma InitRng_seed_spec rng : rng_devId rng = INVALID_DEVID -> seed_devId (rng_seed rng) = INVALID_DEVID ->
  rng_drbgType rng = WC_DRBG_SHA256 ->
  calc_in x e 0 (InitRng_seed rng (zeros 52) 52 None None)
    (fun r => let '(ret, rng', _, _) := r in
      (ret = 0 /\ rng_fresh (set_rng_status WC_DRBG_OK rng')) \/ (ret <> 0 /\ (entropy_ok -> oom e))).
Proof.
  intros Hd Hs Ht. unfold InitRng_seed.
  eapply calc_bind; [apply (GenerateSeed_spec _ (zeros 52) 52); [done|done|done|apply bytes_ok_zeros]|].
  intros [[r sd] o] [Hsd (Lo & Ho & He & Hh)]. cbn [fst snd] in *. change (len (zeros 52)) with 52 in Lo. cbv zeta.
  destruct (Z.eqb_spec r 0) as [->|Hr]; cbn [negb]; eval_tests.
  2:{ calc_step. eval_tests. calc_step. right. split; [done|]. by intros ?%He. }
  eapply calc_bind; [apply calc_lift, (TestSeed_zero o 52); [done|lia|lia]|].
  intros r Hr. change DRBG_SUCCESS with 0. destruct (Z.eqb_spec r 0) as [->|Hn].
  2:{ calc_step. right. split; [done|]. intros Hy%Hh. destruct (Hr Hy) as [->|[_ ?]]; done. }
  change (52 - 4) with 48. calc_step; [lia|lia|lia|].
  assert (len (sub o 4 48) = 48) as L48 by (rewrite len_sub; lia).
  assert (bytes_ok (sub o 4 48)) as O48 by (by apply bytes_ok_sub).
  cbn [rng_devId set_rng_seed]. rewrite Hd.
  eapply calc_bind; [apply calc_lift, (Hash_DRBG_Instantiate_spec e (sub o 4 48) None None);
    [split; [done|lia]|apply oseg_ok_None|apply oseg_ok_None]|].
  intros [r d] [[Hr0 Hrel]|[Hr0 Hoom]]; cbn [fst snd] in *; subst r; calc_step.
  - left. split; [done|]. exists (sub o 4 48). split; [done|]. split; [done|]. split; try done. by exists d.
  - right. by split.
Qed.

Lemma verdict_failed ret : ret <> 0 -> (InitRng_verdict ret).1 <> 0.
Proof. unfold InitRng_verdict. change DRBG_SUCCESS with 0. intros H0. rewrite (proj2 (Z.eqb_neq ret 0)) by done. by repeat case_match. Qed.

Lemma InitRng_end_failed {B} d (drbg seed : bool) ret rng buf i (k : Z * WC_RNG -> M B) Q : ret <> 0 ->
  (forall ret rng, ret <> 0 -> calc_in x e d (k (ret, rng)) Q) ->
  calc_in x e ((if seed then 1 else 0) + ((if drbg then 1 else 0) + d))%nat (InitRng_end drbg seed ret rng buf i ≫= k) Q.
Proof.
  intros Hr Hk. unfold InitRng_end. pose proof (verdict_failed ret Hr) as Hv.
  destruct (InitRng_verdict ret) as [r' st]. cbn [fst] in Hv. cbv zeta. rewrite (proj2 (Z.eqb_neq r' 0)) by done.
  destruct seed, drbg; cbn [negb Nat.add]; repeat calc_step; by apply Hk.
Qed.

(** The initialisation either makes a seeded generator, keeping one block, or
    reports an error, keeping none. *)
Lemma InitRng_spec {B} d rng0 (k : Z * WC_RNG -> M B) Q :
  (forall rng, rng_fresh rng -> calc_in x e (S d) (k (0, rng)) Q) ->
  (forall ret rng, ret <> 0 -> (entropy_ok -> oom e) -> calc_in x e d (k (ret, rng)) Q) ->
  calc_in x e d (_InitRng None 0 None 0 INVALID_DEVID 0 rng0 ≫= k) Q.
Proof.
  intros Hk Hf. unfold _InitRng. cbv beta. rewrite !bool_decide_true by done.
  change (negb (0 =? 0)) with false. cbn [andb]. rewrite !Z.testbit_0_l. cbn [andb orb].
  calc_step. calc_step; cbn [negb].
  2:{ calc_steps. apply (InitRng_end_failed d false false); [done|]. intros; by apply Hf. }
  calc_step. eapply calc_bind; [apply calc_lift, HealthTestLocal_spec|]. intros r [->|[Hr Ho]].
  2:{ rewrite (proj2 (Z.eqb_neq r 0)) by done. calc_steps. rewrite (proj2 (Z.eqb_neq r 0)) by done. calc_steps.
      apply (InitRng_end_failed d true false); [done|]. intros; by apply Hf. }
  eval_tests. calc_step. calc_step; cbn [negb andb].
  2:{ calc_steps. apply (InitRng_end_failed d true false); [done|]. intros; by apply Hf. }
  change (256 / 8 + 256 / 8 / 2 + 4) with 52. calc_step. eapply calc_bind; [by apply InitRng_seed_spec|].
  intros [[[ret rng] buf] i] [[-> Hfr]|[Hret He]]; [|by apply (InitRng_end_failed d true true); [|intros; apply Hf]].
  unfold InitRng_end. change (InitRng_verdict 0) with (0, WC_DRBG_OK). calc_steps. by apply Hk.
Qed.

(** ** Reseeding and drawing *)

(** After a failure: the object still owns its state, whatever its status. *)
Definition rng_kept (rng : WC_RNG) : Prop := is_Some (rng_drbg rng).

Lemma ready_kept s rng : rng_ready s rng -> rng_kept rng.
Proof. intros [(d & Hd & _) _ _ _ _]. by exists d. Qed.

Lemma Hash_DRBG_Reseed_spec s rng seed : rng_ready s rng -> seg_ok seed ->
  calc e 0 (Hash_DRBG_Reseed rng (Some seed) None)
    (fun r => (r.1 = 0 /\ rng_ready (Sp800_90A.Reseed s seed []) r.2) \/ (r.1 <> 0 /\ rng_kept r.2 /\ oom e)).
Proof.
  intros [(d & Hd & Hrel) ? Ht ? ?] Hs. unfold Hash_DRBG_Reseed. rewrite Ht, Hd. eval_tests.
  eapply calc_bind; [apply (Hash256_DRBG_Reseed_spec e s d (Some seed) None); [done|done|apply oseg_ok_None]|].
  intros [r d'] [[Hr Hrel']|(Hr & Hd' & Ho)]; cbn [fst snd] in *; subst r; calc_step.
  - left. split; [done|]. split; try done. by exists d'.
  - right. split; [done|]. split; [by exists d'|done].
Qed.

Lemma ready_reseeded_source s rng sd : rng_ready s rng -> seed_devId sd = INVALID_DEVID -> rng_ready s (set_rng_seed sd rng).
Proof. by intros [(d & ? & ?) ? ? ? ?] ?; split; try done; exists d. Qed.

Lemma PollAndReSeed_spec s rng : rng_ready s rng ->
  calc_in x e 0 (PollAndReSeed rng None)
    (fun r => (r.1 = 0 /\ exists seed, len seed = 32 /\ bytes_ok seed /\ rng_ready (Sp800_90A.Reseed s seed []) r.2) \/
              (r.1 <> 0 /\ rng_kept r.2 /\ (entropy_ok -> oom e))).
Proof.
  intros Hrng. unfold PollAndReSeed. rewrite (rr_dev _ _ Hrng).
  eapply calc_bind; [apply calc_lift, HealthTestLocal_spec|]. intros r [->|[Hr Ho]].
  2:{ rewrite (proj2 (Z.eqb_neq r 0)) by done. calc_step. right. split; [done|]. split; [by eapply ready_kept|done]. }
  eval_tests. calc_step.
  2:{ calc_steps. right. split; [done|]. split; [by eapply ready_kept|done]. }
  cbv zeta. change (256 / 8 + 4) with 36. change (256 / 8) with 32. calc_step.
  eapply calc_bind; [apply (GenerateSeed_spec _ (zeros 36) 36); [apply Hrng|done|done|apply bytes_ok_zeros]|].
  intros [[r sd] o] [Hsd (Lo & Ho & He & Hh)]. cbn [fst snd] in *. change (len (zeros 36)) with 36 in Lo.
  calc_step. apply (ready_reseeded_source _ _ _ Hrng) in Hsd. set (rng' := set_rng_seed sd rng) in *. change DRBG_SUCCESS with 0.
  destruct (Z.eqb_spec r 0) as [->|Hr].
  2:{ calc_step. rewrite (proj2 (Z.eqb_neq r 0)) by done. calc_steps. right. split; [done|]. split; [by eapply ready_kept|]. by intros ?%He. }
  eapply calc_bind; [apply calc_lift, (TestSeed_zero o 36); [done|lia|lia]|].
  intros r Hr. destruct (Z.eqb_spec r 0) as [->|Hn].
  2:{ calc_steps. right. split; [done|]. split; [by eapply ready_kept|]. intros Hy%Hh. destruct (Hr Hy) as [->|[_ ?]]; done. }
  calc_step. calc_step; [lia|lia|lia|].
  assert (len (sub o 4 32) = 32) as L32 by (rewrite len_sub; lia).
  assert (bytes_ok (sub o 4 32)) as O32 by (by apply bytes_ok_sub).
  eapply calc_bind; [apply calc_lift, (Hash_DRBG_Reseed_spec s rng' (sub o 4 32)); [done|split; [done|lia]]|].
  intros [r rng''] [[Hr0 Hrdy]|(Hr0 & Hk & Hoom)]; cbn [fst snd] in *; calc_steps.
  - left. split; [done|]. by exists (sub o 4 32).
  - by right.
Qed.

(** The state a draw starts from: reseeded first when the interval is over. *)
Definition drawn_from (s s0 : Sp800_90A.state) : Prop :=
  (s0 = s /\ Sp800_90A.reseed_counter s < WC_RESEED_INTERVAL) \/
  (WC_RESEED_INTERVAL <= Sp800_90A.reseed_counter s /\
   exists seed, len seed = 32 /\ bytes_ok seed /\ s0 = Sp800_90A.Reseed s seed []).

(** The outcome of a draw of [sz] bytes into [out]. *)
Definition draw_result (s : Sp800_90A.state) (out : bytes) (sz : Z) (r : Z * WC_RNG * bytes) : Prop :=
  let '(ret, rng', out') := r in
  (ret = 0 /\ exists s0, drawn_from s s0 /\ rng_ready (Sp800_90A.Generate s0 sz []).2 rng' /\
     out' = splice out 0 (Sp800_90A.Generate s0 sz []).1) \/
  (ret <> 0 /\ rng_kept rng' /\ (out' = out \/ out' = splice out 0 (zeros sz)) /\ (entropy_ok -> oom e)).

Lemma generate_spec s rng out sz : rng_ready s rng -> 0 < sz <= len out ->
  Sp800_90A.reseed_counter s < WC_RESEED_INTERVAL ->
  calc e 0
    (match rng_drbg rng with
     | Some drbg =>
       '(ret, drbg, o) ← Hash_DRBG_Generate drbg (Some out) sz None;
       mret (ret, set_rng_drbg (Some drbg) rng, default out o)
     | None => mret (DRBG_FAILURE, rng, out)
     end)
    (fun r => let '(ret, rng', out') := r in
      (ret = 0 /\ rng_ready (Sp800_90A.Generate s sz []).2 rng' /\ out' = splice out 0 (Sp800_90A.Generate s sz []).1) \/
      (ret = DRBG_FAILURE /\ rng_kept rng' /\ (out' = out \/ out' = splice out 0 (zeros sz)) /\ oom e)).
Proof.
  intros [(d & Hd & Hrel) ? ? ? ?] Hsz Hc. rewrite Hd. pose proof (dr_ctr _ _ Hrel).
  eapply calc_bind; [apply (Hash_DRBG_Generate_spec e s d out sz None); [done|done|apply oseg_ok_None|lia]|].
  intros [[r d'] o] [(-> & Hrel' & ->)|(-> & [_ Ho] & Hoom)]; calc_step.
  - left. split; [done|]. split; [|done]. split; try done. by exists d'.
  - right. split; [done|]. split; [by exists d'|]. split; [|done]. destruct Ho as [->| ->]; [by left|by right].
Qed.

Lemma GenerateBlock_spec s rng out sz : rng_ready s rng -> 0 < sz <= len out -> sz <= RNG_MAX_BLOCK_LEN ->
  calc_in x e 0 (wc_RNG_GenerateBlock rng (Some out) sz)
    (fun r => let '(ret, rng', o) := r in exists out', o = Some out' /\ draw_result s out sz (ret, rng', out')).
Proof.
  intros Hrng Hsz Hmax. unfold wc_RNG_GenerateBlock. rewrite (proj2 (Z.eqb_neq sz 0)) by lia.
  pose proof Hrng as [(d & Hd & Hrel) Hst Hty Hdev _]. rewrite Hdev.
  change (negb (INVALID_DEVID =? INVALID_DEVID)) with false. cbv iota. calc_step. cbv beta iota.
  change (negb (CRYPTOCB_UNAVAILABLE =? CRYPTOCB_UNAVAILABLE)) with false. cbv iota.
  eapply (calc_bind _ _ _ _ (draw_result s out sz)); [|intros [[r rng'] o] Hr; calc_step; eauto].
  unfold GenerateBlock_soft. rewrite (proj2 (Z.ltb_ge RNG_MAX_BLOCK_LEN sz)) by lia. rewrite Hst, Hty.
  change (negb (WC_DRBG_OK =? WC_DRBG_OK)) with false. change (WC_DRBG_SHA256 =? WC_DRBG_SHA256) with true. cbv iota zeta.
  destruct (Z.lt_ge_cases (Sp800_90A.reseed_counter s) WC_RESEED_INTERVAL) as [Hc|Hc].
  - calc_step. eapply calc_bind; [by apply calc_lift, generate_spec|].
    intros [[r rng'] o] [(-> & Hrdy & ->)|(-> & Hk & Ho & Hoom)].
    + calc_steps. left. split; [done|]. exists s. split; [by left|done].
    + calc_steps. right. split; [done|done].
  - rewrite Hd. pose proof (dr_ctr _ _ Hrel) as Ec.
    assert (Hash_DRBG_Generate d (Some out) sz None = mret (DRBG_NEED_RESEED, d, Some out)) as ->.
    { unfold Hash_DRBG_Generate. by rewrite (proj2 (Z.leb_le WC_RESEED_INTERVAL (drbg_reseedCtr d))) by lia. }
    do 4 calc_step. cbn [default from_option id]. change (DRBG_NEED_RESEED =? DRBG_NEED_RESEED) with true. cbv iota.
    assert (rng_ready s (set_rng_drbg (Some d) rng)) as Hrng' by (destruct Hrng; split; try done; by exists d).
    calc_step. eapply calc_bind; [by apply PollAndReSeed_spec|].
    intros [r rng'] [(Hr & seed & Ls & Os & Hrdy)|(Hr & Hk & He)]; cbn [fst snd] in *; change DRBG_SUCCESS with 0.
    + subst r. change (negb (0 =? 0)) with false. cbv iota.
      eapply calc_bind; [apply calc_lift, (generate_spec _ rng' out sz Hrdy); [done|cbn; change WC_RESEED_INTERVAL with 1000000; lia]|].
      intros [[r rng''] o] [(-> & Hrdy' & ->)|(-> & Hk & Ho & Hoom)].
      * calc_steps. left. split; [done|]. eexists. split; [right; split; [done|]; by exists seed|done].
      * calc_steps. right. split; [done|done].
    + rewrite (proj2 (Z.eqb_neq r 0)) by done. cbn [negb]. calc_step. rewrite (proj2 (Z.eqb_neq r 0)) by done.
      destruct (r =? DRBG_CONT_FAILURE); calc_step; right; (split; [done|]); (split; [exact Hk|]); auto.
Qed.

(** ** The object's life *)

Lemma rng_new_spec {B} d (k : option WC_RNG -> M B) Q :
  (forall rng, rng_fresh rng -> calc_in x e (S (S d)) (k (Some rng)) Q) ->
  ((entropy_ok -> oom e) -> calc_in x e d (k None) Q) ->
  calc_in x e d (wc_rng_new None 0 ≫= k) Q.
Proof.
  intros Hk Hf. unfold wc_rng_new, wc_rng_new_ex. calc_step. calc_step. calc_step; cbn [negb].
  2:{ calc_steps. by apply Hf. }
  calc_step. apply InitRng_spec.
  - intros rng Hrng. calc_steps. by apply Hk.
  - intros ret rng Hret He. rewrite (proj2 (Z.eqb_neq ret 0)) by done. cbn [negb]. do 3 calc_step.
    rewrite (proj2 (Z.eqb_neq ret 0)) by done. cbn [negb]. calc_step. by apply Hf.
Qed.

Lemma rng_free_spec {B} d rng (k : unit -> M B) Q : rng_kept rng ->
  calc_in x e d (k tt) Q -> calc_in x e (S (S d)) (wc_rng_free (Some rng) ≫= k) Q.
Proof.
  intros [dr Hd] Hk. unfold wc_rng_free, wc_FreeRng. rewrite Hd. rewrite Uninstantiate_ok. by calc_steps.
Qed.
End Health.

(** ** Properties *)

Section Properties.
Context `{!Callbacks} (e : env) (x : mode) `{!MayCall x}.

(** Make a generator, draw [sz] bytes, free it. *)
Definition rng_session (out : bytes) (sz : Z) : M (option (Z * bytes)) :=
  rng ← wc_rng_new None 0;
  match rng with
  | None => mret None
  | Some rng =>
    '(ret, rng, o) ← wc_RNG_GenerateBlock rng (Some out) sz;
    _ ← wc_rng_free (Some rng);
    mret (Some (ret, default out o))
  end.


End Properties.

(** A random device that answers every read with a counting sequence. *)
Definition count_up : bytes := (fun i => Z.of_nat i mod 256) <$> seq 0 512.

Definition env_device : env :=
  {| e_alloc := fun _ => true;
     e_os := fun _ c => match c with
       | Read _ n => let d := take (Z.to_nat n) count_up in {| os_val := len d; os_errno := 0; os_data := d |}
       | _ => {| os_val := 3; os_errno := 0; os_data := [] |} end;
     e_jvm := fun _ => {| j_val := 0; j_bytes := [] |} |}.

Lemma healthy_take n l : healthy l -> healthy (take n l).
Proof.
  intros [Hr Ho]. split.
  - intros (i & c & H). apply Hr. exists i, c. intros j Hj. specialize (H j Hj).
    by apply lookup_take_Some in H as [H _].
  - intros b. specialize (Ho b). rewrite <-(take_drop n l) in Ho. unfold occurs in *. rewrite count_occ_app in Ho. lia.
Qed.

Lemma count_up_ok : bytes_ok count_up /\ healthy count_up.
Proof.
  assert (bytes_ok count_up) as Hok.
  { apply Forall_fmap, Forall_forall. intros i _. cbn. pose proof (Z.mod_pos_bound (Z.of_nat i) 256). lia. }
  split; [done|]. split.
  - intros (i & c & H). pose proof (H i ltac:(lia)) as H0. pose proof (H (i + 1)%nat ltac:(lia)) as H1. unfold count_up in H0, H1. rewrite list_lookup_fmap in H0, H1.
    apply fmap_Some in H0 as (a & [-> _]%lookup_seq & ->). apply fmap_Some in H1 as (a & [-> _]%lookup_seq & E).
    replace (Z.of_nat (0 + (i + 1))) with (Z.of_nat (0 + i) + 1) in E by lia.
    rewrite Z.add_mod in E by lia. pose proof (Z.mod_pos_bound (Z.of_nat (0 + i)) 256 ltac:(lia)) as Hm.
    change (1 mod 256) with 1 in E. destruct (decide ((Z.of_nat (0 + i)) mod 256 = 255)) as [E5|E5].
    + rewrite E5 in E. vm_compute in E. done.
    + rewrite (Z.mod_small (_ + 1)) in E by lia. lia.
  - intros b. destruct (decide (0 <= b < 256)) as [Hb|Hb].
    + assert (forallb (fun i => occurs (Z.of_nat i) count_up <? 325) (seq 0 256) = true) as Hall by (vm_compute; reflexivity).
      apply (proj1 (forallb_forall _ _)) with (x := Z.to_nat b) in Hall; [|apply in_seq; lia].
      rewrite Z2Nat.id in Hall by lia. lia.
    + unfold occurs. rewrite (proj1 (count_occ_not_In Z.eq_dec count_up b)); [done|].
      intros Hin. apply Hb. by apply (proj1 (List.Forall_forall _ _) Hok).
Qed.

Lemma length_count_up : length count_up = 512%nat.
Proof. reflexivity. Qed.

#[local] Opaque count_up.

Lemma env_device_sane : os_sane env_device.
Proof.
  intros n fd sz a Ha. subst a. cbn [env_device e_os os_val os_data] in *. cbv zeta in *. cbn [os_val os_data] in *. split; [done|]. split; [|apply bytes_ok_take, count_up_ok].
  unfold len in *. rewrite length_take in Ha |- *. lia.
Qed.

Lemma env_device_entropy : entropy_ok env_device.
Proof.
  split; [intros; cbn; lia|]. intros n fd sz Hsz. cbn [env_device e_os]. cbv zeta. cbn [os_val os_data]. split; [|apply healthy_take, count_up_ok].
  unfold len. rewrite length_take. rewrite length_count_up. lia.
Qed.

Lemma env_device_plenty : ~ oom env_device.
Proof. by intros [n Hn]. Qed.


(** A generator at the end of its reseed interval. *)
Definition old_state : Sp800_90A.state :=
  {| Sp800_90A.V := zeros 55; Sp800_90A.C := zeros 55; Sp800_90A.reseed_counter := 1000000 |}.

Definition old_rng : WC_RNG :=
  {| rng_seed := {| seed_fd := 3; seed_devId := INVALID_DEVID |}; rng_status := WC_DRBG_OK; rng_flags := 0;
     rng_drbg := Some {| drbg_reseedCtr := 1000000; drbg_V := zeros 55; drbg_C := zeros 55; drbg_devId := INVALID_DEVID |};
     rng_drbgType := WC_DRBG_SHA256; rng_devId := INVALID_DEVID |}.

