(* ===== verification/SpInt.v ===== *)
(** * SpInt: the multi-precision integers of sp_int.c

    A number is an array of 35 digits of 32 bits, of which the low [mp_used]
    are significant.  Modelled are the operations the key import, export and
    range check use: setting, clearing, copying, comparing and counting bits,
    and the conversions from and to big-endian bytes and from hexadecimal.
    The theorems relate each to the integer [sp_val] a number stands for.

    An object of the code is passed by value and returned, so the shortcuts
    taken for [a == b] (same object) need no clause of their own. *)

From Stdlib Require Import Ascii.
From stdpp Require Import strings.
From S2P Require Import Prelude Platform Types Misc.

(** sp_int.h:527-536, [SP_INT_DIGITS] for 521-bit operands *)
Definition SP_INT_DIGITS : Z := (521 + 32 - 1) / 32 * 2 + 1.

(** sp_int.h:313, [SP_WORD_SIZEOF] *)
Notation SP_WORD_SIZEOF := (4)%Z (only parsing).

Definition set_digits (used : Z) (dp : list Z) (a : mp_int) : mp_int :=
  {| mp_used := used; mp_size := mp_size a; mp_dp := dp |}.

(** ** Setting and clearing *)

(** sp_int.c:5203-5212, [_sp_zero] *)
Definition _sp_zero (a : mp_int) : mp_int := set_digits 0 (<[0%nat := 0]> (mp_dp a)) a.

(** sp_int.c:5220-5230, [_sp_init_size] *)
Definition _sp_init_size (a : mp_int) (size : Z) : mp_int :=
  let a := _sp_zero a in {| mp_used := mp_used a; mp_size := w16 size; mp_dp := mp_dp a |}.

(** sp_int.c:5240-5254, [sp_init_size] *)
Definition sp_init_size (a : mp_int) (size : Z) : Z * mp_int :=
  if (size =? 0) || (SP_INT_DIGITS <? size) then (MP_VAL, a) else (0, _sp_init_size a size).

(** sp_int.c:5263-5277, [sp_init] *)
Definition sp_init (a : mp_int) : Z * mp_int := (0, _sp_init_size a SP_INT_DIGITS).

(** sp_int.c:5291-5315, [sp_init_multi]: the numbers given, in order. *)
Definition sp_init_multi (ns : list mp_int) : Z * list mp_int :=
  (0, (fun n => _sp_init_size n SP_INT_DIGITS) <$> ns).

(** sp_int.c:5342-5364, [sp_grow] *)
Definition sp_grow (a : mp_int) (l : Z) : Z * mp_int :=
  if l <? 0 then (MP_VAL, a)
  else if mp_size a <? l then (MP_MEM, a)
  else (0, set_digits (mp_used a)
             (if mp_used a <? l then splice (mp_dp a) (mp_used a) (zeros (l - mp_used a)) else mp_dp a) a).

(** sp_int.c:5373-5379, [sp_zero] *)
Definition sp_zero (a : mp_int) : mp_int := _sp_zero a.

(** sp_int.c:5386-5404, [sp_clear] *)
Definition sp_clear (a : mp_int) : mp_int :=
  _sp_zero (set_digits (mp_used a) (splice (mp_dp a) 0 (zeros (mp_used a))) a).

(** sp_int.c:5414-5429, [sp_forcezero] *)
Definition sp_forcezero (a : mp_int) : mp_int :=
  _sp_zero (set_digits (mp_used a) (splice (mp_dp a) 0 (zeros (mp_size a))) a).

(** sp_int.c:6287-6298, [_sp_set] *)
Definition _sp_set (a : mp_int) (d : Z) : mp_int :=
  set_digits (Z.b2z (0 <? d)) (<[0%nat := d]> (mp_dp a)) a.

(** sp_int.c:6308-6321, [sp_set] *)
Definition sp_set (a : mp_int) (d : Z) : Z * mp_int := (0, _sp_set a d).

(** ** Copying and comparing *)

(** sp_int.c:5439-5454, [_sp_copy] *)
Definition _sp_copy (a r : mp_int) : mp_int :=
  if mp_used a =? 0 then set_digits (mp_used a) (<[0%nat := 0]> (mp_dp r)) r
  else set_digits (mp_used a) (splice (mp_dp r) 0 (take (Z.to_nat (mp_used a)) (mp_dp a))) r.

(** sp_int.c:5463-5484, [sp_copy] *)
Definition sp_copy (a r : mp_int) : Z * mp_int :=
  if mp_size r <? mp_used a then (MP_VAL, r) else (0, _sp_copy a r).

(** sp_int.c:5556-5567, [sp_init_copy] *)
Definition sp_init_copy (r a : mp_int) : Z * mp_int :=
  let '(err, r) := sp_init r in if err =? 0 then sp_copy a r else (err, r).

(** sp_int.c:5749-5758, [_sp_cmp_abs]: the digits below index [n], from the top. *)
Fixpoint cmp_digits (n : nat) (a b : list Z) : Z :=
  match n with
  | O => 0
  | S n => if b !!! n <? a !!! n then 1 else if a !!! n <? b !!! n then -1 else cmp_digits n a b
  end.

(** sp_int.c:5732-5763, [_sp_cmp_abs] *)
Definition _sp_cmp_abs (a b : mp_int) : Z :=
  if mp_used b <? mp_used a then 1
  else if mp_used a <? mp_used b then -1
  else cmp_digits (Z.to_nat (mp_used a)) (mp_dp a) (mp_dp b).

(** sp_int.c:5778-5801, [sp_cmp_mag] *)
Definition sp_cmp_mag (a b : mp_int) : Z := _sp_cmp_abs a b.

(** sp_int.c:5817-5844, [_sp_cmp] *)
Definition _sp_cmp (a b : mp_int) : Z := _sp_cmp_abs a b.

(** sp_int.c:5860-5883, [sp_cmp] *)
Definition sp_cmp (a b : mp_int) : Z := _sp_cmp a b.

(** ** Counting *)

(** sp_int.c:5970-5985, [sp_clamp_ct]: the digits below index [n], from the top. *)
Fixpoint clamp_ct_loop (n : nat) (dp : list Z) (used mask : Z) : Z :=
  match n with
  | O => used
  | S n =>
    let zeroMask := w16 (Z.shiftr (dp !!! n - 1) 32) in
    let mask := Z.land mask zeroMask in
    clamp_ct_loop n dp (w16 (used + mask)) mask
  end.

(** sp_int.c:5964-5987, [sp_clamp_ct] *)
Definition sp_clamp_ct (a : mp_int) : mp_int :=
  set_digits (clamp_ct_loop (Z.to_nat (mp_used a)) (mp_dp a) (mp_used a) 0xffff) (mp_dp a) a.

(** sp_int.c:6006-6022, [sp_is_bit_set] *)
Definition sp_is_bit_set (a : mp_int) (b : Z) : Z :=
  let i := Z.shiftr b 5 in
  if i <? mp_used a then
    let s := Z.land b 31 in Z.land (Z.shiftr (mp_dp a !!! Z.to_nat i) s) 1
  else 0.

(** sp_int.c:6041-6045, [sp_count_bits]: the index of the top non-zero digit
    below [n], or -1. *)
Fixpoint top_digit (n : nat) (dp : list Z) : Z :=
  match n with
  | O => -1
  | S n => if dp !!! n =? 0 then top_digit n dp else Z.of_nat n
  end.

(** sp_int.c:6080-6083, [sp_count_bits]: count down to the top bit. *)
Fixpoint count_down (fuel : nat) (n d : Z) : Z :=
  match fuel with
  | O => n
  | S fuel => if Z.land d 0x80000000 =? 0 then count_down fuel (n - 1) (w32 (Z.shiftl d 1)) else n
  end.

(** sp_int.c:6087-6090, [sp_count_bits]: count up from the bottom bit. *)
Fixpoint count_up (fuel : nat) (n d : Z) : Z :=
  match fuel with
  | O => n
  | S fuel => if negb (d =? 0) then count_up fuel (n + 1) (Z.shiftr d 1) else n
  end.

(** sp_int.c:6034-6096, [sp_count_bits] *)
Definition sp_count_bits (a : mp_int) : Z :=
  let n := if 0 <? mp_used a then top_digit (Z.to_nat (mp_used a)) (mp_dp a) else -1 in
  if n <? 0 then 0
  else
    let d := mp_dp a !!! Z.to_nat n in
    let n := n * 32 in
    if 0xffff <? d then count_down 32 (n + 32) d else count_up 32 n d.

(** sp_int.c:6167-6187, [sp_leading_bit]: the byte at the top of a digit. *)
Fixpoint top_byte (fuel : nat) (d : Z) : Z :=
  match fuel with
  | O => d
  | S fuel => if 0xff <? d then top_byte fuel (Z.shiftr d 8) else d
  end.

(** sp_int.c:6167-6187, [sp_leading_bit] *)
Definition sp_leading_bit (a : mp_int) : Z :=
  if 0 <? mp_used a then Z.shiftr (top_byte 4 (mp_dp a !!! Z.to_nat (mp_used a - 1))) 7 else 0.

(** sp_int.c:18292-18301, [sp_unsigned_bin_size] *)
Definition sp_unsigned_bin_size (a : mp_int) : Z := Z.shiftr (sp_count_bits a + 7) 3.

(** ** Bytes and hexadecimal *)

(** sp_int.c:18343-18360, [sp_read_unsigned_bin]: whole digits, from the end of
    [inp].  Gives the index left over and the digits. *)
Fixpoint read_bin_digits (n : nat) (inp : bytes) (i j : Z) (dp : list Z) : M (Z * list Z) :=
  match n with
  | O => mret (i, dp)
  | S n =>
    if SP_WORD_SIZEOF - 1 <=? i then
      b ← rd inp (i - 3) 4;
      let d := Z.lor (Z.lor (Z.lor (b !!! 3%nat) (Z.shiftl (b !!! 2%nat) 8)) (Z.shiftl (b !!! 1%nat) 16))
                 (Z.shiftl (b !!! 0%nat) 24) in
      dp ← wr dp j [d];
      read_bin_digits n inp (i - SP_WORD_SIZEOF) (j + 1) dp
    else mret (i, dp)
  end.

(** Store [b] at byte [pos] of the digits, seen as memory. *)
Definition wr_digit_byte (dp : list Z) (pos b : Z) : M (list Z) :=
  d ← rd dp (pos / 4) 1;
  wr dp (pos / 4) [le_combine (splice (le_split 4 (d !!! 0%nat)) (pos mod 4) [b])].

(** sp_int.c:18383-18395, [sp_read_unsigned_bin]: the switch on [i], cases
    [n - 1] down to 0. *)
Fixpoint read_bin_rest (n : nat) (inp : bytes) (inSz : Z) (dp : list Z) : M (list Z) :=
  match n with
  | O => mret dp
  | S k =>
    b ← rd inp (Z.of_nat k) 1;
    dp ← wr_digit_byte dp (inSz - 1 - Z.of_nat k) (b !!! 0%nat);
    read_bin_rest k inp inSz dp
  end.

(** sp_int.c:18313-18403, [sp_read_unsigned_bin] *)
Definition sp_read_unsigned_bin (a : mp_int) (inp : option bytes) (inSz : Z) : M (Z * mp_int) :=
  if bool_decide (inp = None) && (0 <? inSz) then mret (MP_VAL, a)
  else if mp_size a * SP_WORD_SIZEOF <? inSz then mret (MP_VAL, a)
  else
    let inp := default [] inp in
    let used := w16 ((inSz + SP_WORD_SIZEOF - 1) / SP_WORD_SIZEOF) in
    '(i, dp) ← read_bin_digits (Z.to_nat (mp_size a)) inp (inSz - 1) 0 (mp_dp a);
    dp ← (if 0 <=? i then
            dp ← wr dp (used - 1) [0];
            read_bin_rest (Z.to_nat (i + 1)) inp inSz dp
          else mret dp);
    mret (0, sp_clamp_ct (set_digits used dp a)).

(** sp_int.c:18457-18467, [sp_to_unsigned_bin_len]: the bytes of one digit,
    [n] left; [more] says that another digit follows.  [out] starts at [off]. *)
Fixpoint to_bin_digit (n : nat) (more : bool) (d : Z) (out : bytes) (off j : Z) : M (Z * bytes * Z) :=
  match n with
  | O => mret (0, out, j)
  | S n =>
    out ← wr out (off + j) [w8 d];
    let j := j - 1 in
    let d := Z.shiftr d 8 in
    if j <? 0 then mret (if more || (0 <? d) then MP_VAL else 0, out, j)
    else to_bin_digit n more d out off j
  end.

(** sp_int.c:18453-18468, [sp_to_unsigned_bin_len]: the digits from index [i],
    [n] of them. *)
Fixpoint to_bin_digits (n : nat) (dp : list Z) (i : nat) (out : bytes) (off j : Z) : M (Z * bytes * Z) :=
  match n with
  | O => mret (0, out, j)
  | S n =>
    if j <? 0 then mret (0, out, j)
    else
      '(err, out, j) ← to_bin_digit 4 (0 <? Z.of_nat n) (dp !!! i) out off j;
      if j <? 0 then mret (err, out, j) else to_bin_digits n dp (S i) out off j
  end.

(** sp_int.c:18435-18492, [sp_to_unsigned_bin_len], to the bytes of [out] from
    [off] on. *)
Definition sp_to_unsigned_bin_len (a : mp_int) (out : bytes) (off outSz : Z) : M (Z * bytes) :=
  if outSz <? 0 then mret (MP_VAL, out)
  else
    let j := outSz - 1 in
    '(err, out, j) ←
      (if negb (mp_used a =? 0) then to_bin_digits (Z.to_nat (mp_used a)) (mp_dp a) 0 out off j
       else mret (0, out, j));
    out ← (if 0 <=? j then wr out off (zeros (j + 1)) else mret out);
    mret (err, out).

(** sp_int.c:18416-18420, [sp_to_unsigned_bin] *)
Definition sp_to_unsigned_bin (a : mp_int) (out : bytes) (off : Z) : M (Z * bytes) :=
  sp_to_unsigned_bin_len a out off (sp_unsigned_bin_size a).

(** misc.c:1115-1127, [HexCharToByte] *)
Definition HexCharToByte (ch : ascii) : Z :=
  let ret := Z.of_nat (nat_of_ascii ch) in
  if (48 <=? ret) && (ret <=? 57) then ret - 48
  else if (65 <=? ret) && (ret <=? 70) then ret - 55
  else if (97 <=? ret) && (ret <=? 102) then ret - 87
  else -1.

(** misc.c:1148-1164, [CharIsWhiteSpace] *)
Definition CharIsWhiteSpace (ch : ascii) : bool :=
  let c := Z.of_nat (nat_of_ascii ch) in (c =? 32) || (c =? 9) || (c =? 10).

(** sp_int.c:18615-18647, [_sp_read_radix_16]: the characters, last first.
    Gives the code, the digits, the index [j] and the digit being filled. *)
Fixpoint read_hex (cs : list ascii) (size j s d : Z) (eol_done : bool) (dp : list Z) : M (Z * list Z * Z * Z) :=
  match cs with
  | [] => mret (0, dp, j, d)
  | c :: cs =>
    let ch := HexCharToByte c in
    if ch <? 0 then
      if negb eol_done && CharIsWhiteSpace c then read_hex cs size j s d eol_done dp
      else mret (MP_VAL, dp, j, d)
    else if s =? 32 then
      dp ← wr dp j [d];
      if size <=? j + 1 then mret (MP_VAL, dp, j + 1, d)
      else read_hex cs size (j + 1) 4 ch true dp
    else read_hex cs size j (s + 4) (Z.lor d (w32 (Z.shiftl ch s))) true dp
  end.

(** sp_int.c:18601-18661, [_sp_read_radix_16]; the last step is [sp_clamp]. *)
Definition _sp_read_radix_16 (a : mp_int) (cs : list ascii) : M (Z * mp_int) :=
  '(err, dp, j, d) ← read_hex (rev cs) (mp_size a) 0 0 0 false (mp_dp a);
  if err =? 0 then
    dp ← (if j <? mp_size a then wr dp j [d] else mret dp);
    let used := w16 (j + 1) in
    mret (0, set_digits (top_digit (Z.to_nat used) dp + 1) dp a)
  else mret (err, set_digits (mp_used a) dp a).

(** sp_int.c:18758-18760, [sp_read_radix]: the leading zeros. *)
Fixpoint skip_zeros (cs : list ascii) : list ascii :=
  match cs with
  | c :: cs' => if ascii_dec c (ascii_of_nat 48) then skip_zeros cs' else cs
  | [] => []
  end.

(** sp_int.c:18731-18789, [sp_read_radix] *)
Definition sp_read_radix (a : mp_int) (inp : string) (radix : Z) : M (Z * mp_int) :=
  let cs := String.list_ascii_of_string inp in
  match cs with
  | c :: _ =>
    if ascii_dec c (ascii_of_nat 45) then mret (MP_VAL, a)
    else if radix =? 16 then _sp_read_radix_16 a (skip_zeros cs) else mret (MP_VAL, a)
  | [] => if radix =? 16 then _sp_read_radix_16 a [] else mret (MP_VAL, a)
  end.

(** ** The integer a number stands for *)

Fixpoint digits_val (l : list Z) : Z :=
  match l with
  | [] => 0
  | d :: l => d + 2 ^ 32 * digits_val l
  end.

Definition sp_val (a : mp_int) : Z := digits_val (take (Z.to_nat (mp_used a)) (mp_dp a)).

Definition digits_ok (l : list Z) : Prop := Forall (fun d => 0 <= d < 2 ^ 32) l.

(** A number in working order: the digits in range, no zero digit on top. *)
Record sp_ok (a : mp_int) : Prop := {
  so_size : mp_size a = SP_INT_DIGITS;
  so_len : len (mp_dp a) = SP_INT_DIGITS;
  so_used : 0 <= mp_used a <= SP_INT_DIGITS;
  so_digits : digits_ok (mp_dp a);
  so_top : mp_used a = 0 \/ mp_dp a !!! Z.to_nat (mp_used a - 1) <> 0 }.

(** What of this does not depend on the room: the digits in range, no zero on top. *)
Record sp_num (a : mp_int) : Prop := {
  sn_used : 0 <= mp_used a <= len (mp_dp a);
  sn_digits : digits_ok (mp_dp a);
  sn_top : mp_used a = 0 \/ mp_dp a !!! Z.to_nat (mp_used a - 1) <> 0 }.

Lemma sp_ok_num a : sp_ok a -> sp_num a.
Proof. intros [_ Hl Hu Hd Ht]. split; [by rewrite Hl|done|done]. Qed.

#[export] Hint Resolve sp_ok_num : wf.

Lemma digits_val_app a b : digits_val (a ++ b) = digits_val a + 2 ^ (32 * len a) * digits_val b.
Proof.
  induction a as [|d a IH]; [cbn [app digits_val]; change (len []) with 0; lia|].
  cbn [app digits_val]. rewrite IH, len_cons. replace (32 * (1 + len a)) with (32 + 32 * len a) by lia.
  pose proof (len_nonneg a). rewrite Z.pow_add_r by lia. lia.
Qed.

Lemma digits_val_range l : digits_ok l -> 0 <= digits_val l < 2 ^ (32 * len l).
Proof.
  induction 1 as [|d l Hd _ IH]; [done|]. cbn [digits_val]. rewrite len_cons.
  replace (32 * (1 + len l)) with (32 + 32 * len l) by lia.
  pose proof (len_nonneg l). rewrite Z.pow_add_r by lia. nia.
Qed.

Lemma digits_ok_lookup l i : digits_ok l -> 0 <= l !!! i < 2 ^ 32.
Proof.
  intros H. rewrite list_lookup_total_alt. destruct (l !! i) as [d|] eqn:E; [|done].
  by apply (Forall_lookup_1 _ _ _ _ H E).
Qed.

Lemma digits_ok_take n l : digits_ok l -> digits_ok (take n l).
Proof. apply Forall_take. Qed.

Lemma digits_ok_drop n l : digits_ok l -> digits_ok (drop n l).
Proof. apply Forall_drop. Qed.

Lemma digits_ok_splice l off src : digits_ok l -> digits_ok src -> digits_ok (splice l off src).
Proof. intros Hl Hs. unfold splice. apply Forall_app_2; [by apply Forall_take|]. apply Forall_app_2; [done|by apply Forall_drop]. Qed.

#[export] Hint Resolve digits_ok_take digits_ok_drop digits_ok_splice : wf.

(** The digits from [i] on, one at a time. *)
Lemma take_snoc_lookup (l : list Z) n : (n < length l)%nat -> take (S n) l = take n l ++ [l !!! n].
Proof. intros H. apply take_S_r. by apply list_lookup_lookup_total_lt. Qed.

Lemma digits_val_snoc l n : (n < length l)%nat ->
  digits_val (take (S n) l) = digits_val (take n l) + 2 ^ (32 * Z.of_nat n) * (l !!! n).
Proof.
  intros H. rewrite take_snoc_lookup by done. rewrite digits_val_app. cbn [digits_val].
  unfold len. rewrite length_take. replace (n `min` length l)%nat with n by lia. lia.
Qed.

(** *** The top digit *)

Lemma top_digit_spec dp n : (n <= length dp)%nat ->
  -1 <= top_digit n dp < Z.of_nat n /\ (0 <= top_digit n dp -> dp !!! Z.to_nat (top_digit n dp) <> 0) /\
  digits_val (take n dp) = digits_val (take (Z.to_nat (top_digit n dp + 1)) dp).
Proof.
  induction n as [|n IH]; intros Hn; [by cbn|]. cbn [top_digit].
  destruct (Z.eqb_spec (dp !!! n) 0) as [E|E].
  - destruct IH as (H1 & H2 & H3); [lia|]. split; [lia|]. split; [done|].
    rewrite digits_val_snoc by lia. rewrite E, <-H3. lia.
  - split; [lia|]. split; [intros _; by rewrite Nat2Z.id|]. f_equal. f_equal. lia.
Qed.

Lemma clamp_ct_done n dp used : 0 <= used < 2 ^ 16 -> clamp_ct_loop n dp used 0 = used.
Proof.
  intros Hu. induction n as [|n IH]; [done|]. cbn [clamp_ct_loop]. rewrite Z.land_0_l, Z.add_0_r.
  rewrite w16_mod, Z.mod_small by done. exact IH.
Qed.

Lemma clamp_ct_loop_spec dp n : digits_ok dp -> Z.of_nat n < 2 ^ 16 ->
  clamp_ct_loop n dp (Z.of_nat n) 0xffff = top_digit n dp + 1.
Proof.
  intros Hd. induction n as [|n IH]; intros Hn; [done|]. cbn [clamp_ct_loop top_digit].
  pose proof (digits_ok_lookup dp n Hd) as Hr. destruct (Z.eqb_spec (dp !!! n) 0) as [E|E].
  - rewrite E. change (Z.land 65535 (w16 (Z.shiftr (0 - 1) 32))) with 65535.
    rewrite w16_mod. replace (Z.of_nat (S n) + 65535) with (Z.of_nat n + 1 * 2 ^ 16) by lia.
    rewrite Z.mod_add, Z.mod_small by lia. apply IH. lia.
  - rewrite Z.shiftr_div_pow2, Z.div_small by lia. change (Z.land 65535 (w16 0)) with 0.
    rewrite Z.add_0_r, w16_mod, Z.mod_small by lia. rewrite clamp_ct_done by lia. lia.
Qed.

Lemma sp_clamp_ct_spec a : mp_size a = SP_INT_DIGITS -> len (mp_dp a) = SP_INT_DIGITS ->
  0 <= mp_used a <= SP_INT_DIGITS -> digits_ok (mp_dp a) ->
  sp_ok (sp_clamp_ct a) /\ sp_val (sp_clamp_ct a) = sp_val a.
Proof.
  intros Hs Hl Hu Hd. unfold sp_clamp_ct, sp_val. change SP_INT_DIGITS with 35 in *.
  pose proof (clamp_ct_loop_spec (mp_dp a) (Z.to_nat (mp_used a)) Hd ltac:(lia)) as Ec.
  rewrite Z2Nat.id in Ec by lia. rewrite Ec.
  destruct (top_digit_spec (mp_dp a) (Z.to_nat (mp_used a))) as (H1 & H2 & H3); [unfold len in Hl; lia|].
  set (t := top_digit _ _) in *. split; [split; cbn; try done; [change SP_INT_DIGITS with 35; lia|]|by cbn].
  destruct (Z.eq_dec t (-1)) as [->|]; [by left|right]. replace (t + 1 - 1) with t by lia. apply H2. lia.
Qed.

(** *** Counting bits *)

Lemma count_down_spec k : forall fuel n d, (k < fuel)%nat -> 0 < d < 2 ^ 32 -> Z.log2 d = 31 - Z.of_nat k ->
  count_down fuel n d = n - Z.of_nat k.
Proof.
  induction k as [|k IH]; intros [|fuel] n d Hf Hd Hl; try lia; cbn [count_down].
  - assert (Z.testbit d 31 = true) as Hb by (replace 31 with (Z.log2 d) by lia; apply Z.bit_log2; lia).
    destruct (Z.eqb_spec (Z.land d 2147483648) 0) as [E|]; [|lia].
    assert (Z.testbit (Z.land d 2147483648) 31 = true) as Hb' by (by rewrite Z.land_spec, Hb).
    rewrite E, Z.testbit_0_l in Hb'. done.
  - assert (d < 2 ^ 31) as Hs.
    { destruct (Z.le_gt_cases (2 ^ 31) d) as [Hle|]; [|done]. apply Z.log2_le_mono in Hle.
      rewrite Z.log2_pow2 in Hle by lia. lia. }
    assert (Z.land d 2147483648 = 0) as ->.
    { apply Z.bits_inj'. intros i Hi. rewrite Z.land_spec, Z.testbit_0_l. change 2147483648 with (2 ^ 31).
      destruct (Z.eq_dec i 31) as [->|Hn]; [|by rewrite (Z.pow2_bits_false 31 i), andb_false_r by lia].
      rewrite (Z.bits_above_log2 d 31) by lia. done. }
    cbn [Z.eqb]. rewrite Z.shiftl_mul_pow2 by lia. change (2 ^ 1) with 2.
    rewrite w32_mod, Z.mod_small by lia. rewrite IH; [lia|lia|lia|].
    rewrite Z.mul_comm, Z.log2_double by lia. lia.
Qed.

Lemma count_up_spec fuel : forall n d, 0 <= d < 2 ^ Z.of_nat fuel ->
  count_up fuel n d = n + (if d =? 0 then 0 else Z.log2 d + 1).
Proof.
  induction fuel as [|fuel IH]; intros n d Hd; cbn [count_up].
  - assert (d = 0) as -> by lia. cbn. lia.
  - destruct (Z.eqb_spec d 0) as [->|Hn]; cbn [negb]; [lia|].
    rewrite Nat2Z.inj_succ, Z.pow_succ_r in Hd by lia.
    rewrite Z.shiftr_div_pow2 by lia. change (2 ^ 1) with 2.
    rewrite IH by (split; [apply Z.div_pos; lia|apply Z.div_lt_upper_bound; lia]).
    destruct (Z.eqb_spec (d / 2) 0) as [E|E].
    + assert (d = 1) as -> by (apply Z.div_small_iff in E; lia). change (Z.log2 1) with 0. lia.
    + change (d / 2) with (d / 2 ^ 1). rewrite <-Z.shiftr_div_pow2, Z.log2_shiftr by lia.
      assert (1 <= Z.log2 d); [|lia]. change 1 with (Z.log2 2). apply Z.log2_le_mono.
      destruct (Z.eq_dec d 1) as [->|]; [done|lia].
Qed.

Lemma log2_digits v d n : 0 <= v < 2 ^ n -> 0 < d -> 0 <= n -> Z.log2 (v + 2 ^ n * d) = n + Z.log2 d.
Proof.
  intros Hv Hd Hn. pose proof (Z.log2_spec d Hd) as [H1 H2]. rewrite Z.pow_succ_r in H2 by apply Z.log2_nonneg.
  pose proof (Z.log2_nonneg d). apply Z.log2_unique; [lia|].
  rewrite Z.pow_succ_r, Z.pow_add_r by lia. nia.
Qed.

(** The number of bits of a number in working order. *)
Lemma sp_count_bits_num a : sp_num a ->
  sp_count_bits a = if sp_val a =? 0 then 0 else Z.log2 (sp_val a) + 1.
Proof.
  intros [Hu Hd Ht]. unfold sp_count_bits, sp_val.
  destruct (Z.ltb_spec 0 (mp_used a)) as [Hp|Hp].
  2:{ assert (mp_used a = 0) as -> by lia. done. }
  assert (exists n, Z.to_nat (mp_used a) = S n) as [n En] by (exists (pred (Z.to_nat (mp_used a))); lia).
  destruct Ht as [Ht|Ht]; [lia|]. replace (Z.to_nat (mp_used a - 1)) with n in Ht by lia.
  rewrite En. cbn [top_digit]. rewrite (proj2 (Z.eqb_neq _ _) Ht).
  rewrite (proj2 (Z.ltb_ge (Z.of_nat n) 0)) by lia. rewrite Nat2Z.id.
  rewrite digits_val_snoc by (unfold len in Hu; lia).
  pose proof (digits_ok_lookup _ n Hd) as Hr. set (d := mp_dp a !!! n) in *.
  pose proof (digits_val_range (take n (mp_dp a)) (digits_ok_take _ _ Hd)) as Hv.
  unfold len in Hv. rewrite length_take in Hv. replace (n `min` length (mp_dp a))%nat with n in Hv by (unfold len in Hu; lia).
  set (v := digits_val _) in *.
  rewrite (proj2 (Z.eqb_neq (v + 2 ^ (32 * Z.of_nat n) * d) 0)) by nia. rewrite log2_digits by lia.
  assert (Z.log2 d < 32) by (apply Z.log2_lt_pow2; lia).
  destruct (Z.ltb_spec 0xffff d).
  - rewrite (count_down_spec (Z.to_nat (31 - Z.log2 d))); [lia| |lia|lia].
    assert (16 <= Z.log2 d); [|lia]. change 16 with (Z.log2 (2 ^ 16)). apply Z.log2_le_mono. lia.
  - rewrite count_up_spec by (change (2 ^ Z.of_nat 32) with (2 ^ 32); lia). rewrite (proj2 (Z.eqb_neq d 0)) by done. lia.
Qed.

Lemma sp_count_bits_spec a : sp_ok a ->
  sp_count_bits a = if sp_val a =? 0 then 0 else Z.log2 (sp_val a) + 1.
Proof. intros H. by apply sp_count_bits_num, sp_ok_num. Qed.

(** ... and of bytes. *)
Lemma sp_unsigned_bin_size_spec a : sp_ok a ->
  0 <= sp_unsigned_bin_size a <= 140 /\ 0 <= sp_val a < 2 ^ (8 * sp_unsigned_bin_size a) /\
  forall n, 0 <= n -> sp_val a < 2 ^ (8 * n) -> sp_unsigned_bin_size a <= n.
Proof.
  intros Hok. unfold sp_unsigned_bin_size. rewrite sp_count_bits_spec by done.
  assert (0 <= sp_val a < 2 ^ (32 * 35)) as Hr.
  { destruct Hok as [Hs Hl Hu Hd Ht]. change SP_INT_DIGITS with 35 in *.
    pose proof (digits_val_range _ (digits_ok_take (Z.to_nat (mp_used a)) _ Hd)) as [H1 H2]. fold (sp_val a) in H1, H2.
    split; [done|]. eapply Z.lt_le_trans; [apply H2|]. apply Z.pow_le_mono_r; [lia|]. unfold len. rewrite length_take. lia. }
  rewrite Z.shiftr_div_pow2 by lia. change (2 ^ 3) with 8.
  destruct (Z.eqb_spec (sp_val a) 0) as [->|Hn].
  - split; [done|]. split; [done|]. intros n Hn _. change ((0 + 7) / 8) with 0. lia.
  - pose proof (Z.log2_spec (sp_val a) ltac:(lia)) as [H1 H2]. pose proof (Z.log2_nonneg (sp_val a)).
    assert (Z.log2 (sp_val a) < 32 * 35) by (apply Z.log2_lt_pow2; lia).
    set (b := Z.log2 (sp_val a)) in *. pose proof (Z.div_mod (b + 1 + 7) 8 ltac:(lia)). pose proof (Z.mod_pos_bound (b + 1 + 7) 8 ltac:(lia)).
    split; [lia|]. split.
    + split; [lia|]. eapply Z.lt_le_trans; [apply H2|]. apply Z.pow_le_mono_r; lia.
    + intros n Hn' Hv. assert (b < 8 * n) by (apply Z.log2_lt_pow2; lia). lia.
Qed.

(** *** To bytes *)

Lemma splice_before {A} (l a b : list A) off : 0 <= off -> off + len b + len a <= len l ->
  splice (splice l (off + len b) a) off b = splice l off (b ++ a).
Proof.
  intros Ho Hl. unfold splice, len in *. rewrite length_app.
  replace (Z.to_nat (off + Z.of_nat (length b))) with (Z.to_nat off + length b)%nat by lia.
  rewrite take_app_le, take_take by (rewrite length_take; lia). replace (Z.to_nat off `min` _)%nat with (Z.to_nat off) by lia.
  rewrite drop_app_ge by (rewrite length_take; lia). rewrite length_take.
  replace (Z.to_nat off + length b - _)%nat with 0%nat by lia. rewrite drop_0, <-!app_assoc.
  do 4 f_equal. lia.
Qed.

Lemma be_split_app a b w : be_split (a + b) w = be_split b (Z.shiftr w (8 * Z.of_nat a)) ++ be_split a w.
Proof. unfold be_split. by rewrite le_split_app, rev_app_distr. Qed.

Lemma be_split_S n w : be_split (S n) w = be_split n (Z.shiftr w 8) ++ [w8 w].
Proof. exact (be_split_app 1 n w). Qed.

(** The bytes of a digit go to the end of what is left of the buffer. *)
Lemma to_bin_digit_spec e n more d : forall out off j, (0 < n)%nat -> 0 <= d < 2 ^ (8 * Z.of_nat n) -> 0 <= off -> 0 <= j ->
  off + j < len out ->
  calc e 0 (to_bin_digit n more d out off j) (fun r =>
    if Z.of_nat n <=? j then r = (0, splice out (off + (j + 1 - Z.of_nat n)) (be_split n d), j - Z.of_nat n)
    else r = (if more || (2 ^ (8 * (j + 1)) <=? d) then MP_VAL else 0, splice out off (be_split (Z.to_nat (j + 1)) d), -1)).
Proof.
  revert d. induction n as [|n IH]; intros d out off j Hn Hd Ho Hj Hl; [lia|]. cbn [to_bin_digit].
  calc_step; [lia|change (len [w8 d]) with 1; lia|].
  assert (0 <= Z.shiftr d 8 < 2 ^ (8 * Z.of_nat n)) as Hd'.
  { rewrite Z.shiftr_div_pow2 by lia. split; [apply Z.div_pos; lia|]. apply Z.div_lt_upper_bound; [lia|].
    rewrite <-Z.pow_add_r by lia. replace (8 + 8 * Z.of_nat n) with (8 * Z.of_nat (S n)) by lia. lia. }
  assert (forall k, 0 <= k -> (2 ^ (8 * k) <=? Z.shiftr d 8) = (2 ^ (8 * (k + 1)) <=? d)) as Hcmp.
  { intros k Hk. rewrite Z.shiftr_div_pow2 by lia. replace (8 * (k + 1)) with (8 * k + 8) by lia.
    rewrite Z.pow_add_r by lia. pose proof (Z.div_mod d (2 ^ 8) ltac:(lia)). pose proof (Z.mod_pos_bound d (2 ^ 8) ltac:(lia)).
    destruct (Z.leb_spec (2 ^ (8 * k)) (d / 2 ^ 8)), (Z.leb_spec (2 ^ (8 * k) * 2 ^ 8) d); try done; nia. }
  destruct (Z.ltb_spec (j - 1) 0) as [Hj0|Hj0].
  - assert (j = 0) as -> by lia. rewrite (proj2 (Z.leb_gt (Z.of_nat (S n)) 0)) by lia. calc_step.
    rewrite <-(Hcmp 0) by lia. change (2 ^ (8 * 0)) with 1.
    change (be_split (Z.to_nat (0 + 1)) d) with [w8 d]. replace (off + 0) with off by lia. do 3 f_equal.
    destruct (Z.ltb_spec 0 (Z.shiftr d 8)), (Z.leb_spec 1 (Z.shiftr d 8)); try done; lia.
  - destruct n as [|n].
    + cbn [to_bin_digit]. calc_step. change (Z.of_nat 1) with 1. rewrite (proj2 (Z.leb_le 1 j)) by lia.
      do 2 f_equal. by replace (off + (j + 1 - 1)) with (off + j) by lia.
    + eapply calc_mono; [apply IH; try lia; rewrite len_splice; change (len [w8 d]) with 1; lia|]. intros r.
      destruct (Z.leb_spec (Z.of_nat (S n)) (j - 1)) as [Hn1|Hn1].
      * rewrite (proj2 (Z.leb_le (Z.of_nat (S (S n))) j)) by lia. intros ->. f_equal; [|lia]. f_equal.
        rewrite (be_split_S (S n)), <-splice_before; rewrite ?len_be_split; change (len [w8 d]) with 1; try lia.
        f_equal; [f_equal; lia|lia].
      * rewrite (proj2 (Z.leb_gt (Z.of_nat (S (S n))) j)) by lia. intros ->. rewrite Hcmp by lia.
        replace (j - 1 + 1 + 1) with (j + 1) by lia. do 2 f_equal.
        replace (Z.to_nat (j + 1)) with (S (Z.to_nat (j - 1 + 1))) by lia. rewrite be_split_S.
        rewrite <-splice_before; rewrite ?len_be_split; change (len [w8 d]) with 1; try lia. do 2 f_equal. lia.
Qed.

Lemma be_split_mod n x y : x mod 2 ^ (8 * Z.of_nat n) = y mod 2 ^ (8 * Z.of_nat n) -> be_split n x = be_split n y.
Proof. intros H. unfold be_split. by rewrite <-le_split_mod, H, le_split_mod. Qed.

Lemma be_split_low n d x : (n <= 4)%nat -> be_split n (d + 2 ^ 32 * x) = be_split n d.
Proof.
  intros Hn. apply be_split_mod. replace (2 ^ 32) with (2 ^ (32 - 8 * Z.of_nat n) * 2 ^ (8 * Z.of_nat n)).
  2:{ rewrite <-Z.pow_add_r by lia. f_equal. lia. }
  replace (d + _) with (d + (2 ^ (32 - 8 * Z.of_nat n) * x) * 2 ^ (8 * Z.of_nat n)) by lia.
  apply Z.mod_add. apply Z.pow_nonzero; lia.
Qed.

(** [n] digits from index [i] of [dp]. *)
Lemma take_drop_lookup (dp : list Z) i n : (i < length dp)%nat -> take (S n) (drop i dp) = dp !!! i :: take n (drop (S i) dp).
Proof. intros Hi. rewrite (drop_S dp (dp !!! i) i) by (by apply list_lookup_lookup_total_lt). done. Qed.

Lemma to_bin_digits_spec e dp off : digits_ok dp -> 0 <= off -> forall n i out j,
  (i + n <= length dp)%nat -> 0 <= j -> off + j < len out ->
  let v := digits_val (take n (drop i dp)) in
  calc e 0 (to_bin_digits n dp i out off j) (fun r =>
    if 4 * Z.of_nat n <=? j
    then r = (0, splice out (off + (j + 1 - 4 * Z.of_nat n)) (be_split (4 * n) v), j - 4 * Z.of_nat n)
    else exists err, r = (err, splice out off (be_split (Z.to_nat (j + 1)) v), -1) /\
           (v < 2 ^ (8 * (j + 1)) -> 2 ^ (32 * (Z.of_nat n - 1)) <= v -> err = 0)).
Proof.
  intros Hd Ho. induction n as [|n IH]; intros i out j Hi Hj Hl; cbn [to_bin_digits].
  { rewrite (proj2 (Z.leb_le _ _)) by lia. calc_step. change (4 * 0)%nat with 0%nat. cbn [be_split le_split rev].
    rewrite splice_nil. f_equal. lia. }
  rewrite (proj2 (Z.ltb_ge j 0)) by lia. rewrite take_drop_lookup by lia. cbn [digits_val].
  pose proof (digits_ok_lookup _ i Hd) as Hr. set (d := dp !!! i) in *.
  pose proof (digits_val_range _ (digits_ok_take n _ (digits_ok_drop (S i) _ Hd))) as Hv.
  specialize (IH (S i)). set (v := digits_val _) in *.
  eapply calc_bind; [apply (to_bin_digit_spec e 4); done || lia|]. intros [[err o] j'].
  change (Z.of_nat 4) with 4. destruct (Z.leb_spec 4 j) as [H4|H4]; intros [= -> -> ->].
  - rewrite (proj2 (Z.ltb_ge (j - 4) 0)) by lia.
    assert (forall k, be_split (k + 4) (d + 2 ^ 32 * v) = be_split k v ++ be_split 4 d) as Es.
    { intros k. rewrite Nat.add_comm, be_split_app. f_equal; [f_equal|by apply be_split_low].
      rewrite Z.shiftr_div_pow2 by lia. change (8 * Z.of_nat 4) with 32.
      rewrite Z.mul_comm, Z.div_add, Z.div_small by lia. lia. }
    eapply calc_mono; [apply IH; [lia|lia|rewrite len_splice; rewrite ?len_be_split; lia]|]. intros r.
    destruct (Z.leb_spec (4 * Z.of_nat n) (j - 4)).
    + rewrite (proj2 (Z.leb_le _ _)) by lia. intros ->. f_equal; [|lia]. f_equal.
      replace (4 * S n)%nat with (4 * n + 4)%nat by lia. rewrite Es, <-splice_before; rewrite ?len_be_split; try lia.
      f_equal; [f_equal; lia|lia].
    + rewrite (proj2 (Z.leb_gt (4 * Z.of_nat (S n)) j)) by lia. intros (err & -> & He). exists err. split.
      * do 2 f_equal. replace (Z.to_nat (j + 1)) with (Z.to_nat (j - 4 + 1) + 4)%nat by lia.
        rewrite Es, <-splice_before; rewrite ?len_be_split; try lia. do 2 f_equal. lia.
      * intros Hlt Hge. apply He.
        -- replace (8 * (j + 1)) with (32 + 8 * (j - 4 + 1)) in Hlt by lia. rewrite Z.pow_add_r in Hlt by lia. nia.
        -- replace (32 * (Z.of_nat (S n) - 1)) with (32 * Z.of_nat n) in Hge by lia. destruct n as [|n]; [cbn in *; lia|].
           replace (32 * Z.of_nat (S n)) with (32 + 32 * (Z.of_nat (S n) - 1)) in Hge by lia.
           rewrite Z.pow_add_r in Hge by lia. nia.
  - eval_tests. calc_step. rewrite (proj2 (Z.leb_gt (4 * Z.of_nat (S n)) j)) by lia. eexists. split.
    { rewrite be_split_low by lia. done. }
    intros Hlt Hge. assert (2 ^ (8 * (j + 1)) <= 2 ^ 32) by (apply Z.pow_le_mono_r; lia).
    destruct n as [|n].
    + rewrite (proj2 (Z.leb_gt (2 ^ (8 * (j + 1))) d)) by nia. done.
    + replace (32 * (Z.of_nat (S (S n)) - 1)) with (32 + 32 * Z.of_nat n) in Hge by lia.
      rewrite Z.pow_add_r in Hge by lia. assert (0 < 2 ^ (32 * Z.of_nat n)) by (apply Z.pow_pos_nonneg; lia). nia.
Qed.

Lemma be_split_0 n : be_split n 0 = zeros (Z.of_nat n).
Proof.
  unfold be_split, zeros. rewrite Nat2Z.id. assert (le_split n 0 = replicate n 0) as ->.
  { induction n as [|n IH]; [done|]. cbn [le_split replicate]. by rewrite <-IH. }
  rewrite rev_alt. apply reverse_replicate.
Qed.

Lemma sp_val_top_num a : sp_num a -> mp_used a <> 0 -> 2 ^ (32 * (mp_used a - 1)) <= sp_val a.
Proof.
  intros [Hu Hd Ht] Hn. destruct Ht as [|Ht]; [done|].
  unfold sp_val. replace (Z.to_nat (mp_used a)) with (S (Z.to_nat (mp_used a - 1))) by lia.
  rewrite digits_val_snoc by (unfold len in Hu; lia). rewrite Z2Nat.id by lia.
  pose proof (digits_ok_lookup _ (Z.to_nat (mp_used a - 1)) Hd).
  pose proof (digits_val_range _ (digits_ok_take (Z.to_nat (mp_used a - 1)) _ Hd)).
  assert (0 < 2 ^ (32 * (mp_used a - 1))) by (apply Z.pow_pos_nonneg; lia). nia.
Qed.

Lemma sp_val_range_num a : sp_num a -> 0 <= sp_val a < 2 ^ (32 * mp_used a).
Proof.
  intros [Hu Hd Ht]. pose proof (digits_val_range _ (digits_ok_take (Z.to_nat (mp_used a)) _ Hd)) as H.
  unfold len in *. rewrite length_take in H. by replace (Z.of_nat _) with (mp_used a) in H by lia.
Qed.

Lemma sp_val_top a : sp_ok a -> mp_used a <> 0 -> 2 ^ (32 * (mp_used a - 1)) <= sp_val a.
Proof. intros H. by apply sp_val_top_num, sp_ok_num. Qed.

Lemma sp_val_range a : sp_ok a -> 0 <= sp_val a < 2 ^ (32 * mp_used a).
Proof. intros H. by apply sp_val_range_num, sp_ok_num. Qed.

(** The number as [outSz] big-endian bytes; the code is 0 when it fits. *)
Lemma sp_to_unsigned_bin_len_spec e a out off outSz :
  sp_ok a -> 0 <= off -> 0 <= outSz -> off + outSz <= len out ->
  calc e 0 (sp_to_unsigned_bin_len a out off outSz) (fun r =>
    r.2 = splice out off (be_split (Z.to_nat outSz) (sp_val a)) /\ (sp_val a < 2 ^ (8 * outSz) -> r.1 = 0)).
Proof.
  intros Hok Ho Hs Hl. unfold sp_to_unsigned_bin_len. rewrite (proj2 (Z.ltb_ge outSz 0)) by lia.
  pose proof (sp_val_range a Hok) as Hv. pose proof Hok as [_ Hlen Hu Hd _]. change SP_INT_DIGITS with 35 in *.
  destruct (Z.eqb_spec (mp_used a) 0) as [Hu0|Hu0]; cbn [negb].
  { assert (sp_val a = 0) as -> by (rewrite Hu0 in Hv; cbn in Hv; lia). calc_step. rewrite be_split_0, Z2Nat.id by lia.
    destruct (Z.leb_spec 0 (outSz - 1)).
    - replace (outSz - 1 + 1) with outSz by lia. calc_step; [lia|rewrite len_zeros; lia|]. by calc_step.
    - assert (outSz = 0) as -> by lia. calc_step. calc_step. change (zeros 0) with (@nil Z). by rewrite splice_nil. }
  destruct (Z.eq_dec outSz 0) as [->|Hs0].
  { assert (exists n, Z.to_nat (mp_used a) = S n) as [n ->] by (exists (pred (Z.to_nat (mp_used a))); lia).
    cbn [to_bin_digits]. eval_tests. calc_step. eval_tests. calc_step. calc_step.
    change (be_split (Z.to_nat 0) (sp_val a)) with (@nil Z). by rewrite splice_nil. }
  eapply calc_bind; [apply (to_bin_digits_spec e (mp_dp a) off Hd Ho); unfold len in *; lia|].
  intros [[err o] j]. rewrite drop_0. fold (sp_val a). rewrite Z2Nat.id by lia.
  destruct (Z.leb_spec (4 * mp_used a) (outSz - 1)) as [H4|H4].
  - intros [= -> -> ->]. rewrite (proj2 (Z.leb_le 0 _)) by lia.
    calc_step; [lia|rewrite len_zeros, len_splice; rewrite ?len_be_split; lia|]. calc_step. split; [|done]. cbn [snd].
    replace (off + (outSz - 1 + 1 - 4 * mp_used a)) with (off + len (zeros (outSz - 1 - 4 * mp_used a + 1))) by (rewrite len_zeros; lia).
    rewrite splice_before by (rewrite ?len_be_split, ?len_zeros; lia). f_equal.
    replace (Z.to_nat outSz) with (4 * Z.to_nat (mp_used a) + Z.to_nat (outSz - 4 * mp_used a))%nat by lia.
    rewrite be_split_app. f_equal. rewrite Z.shiftr_div_pow2, Z.div_small by lia || (split; [lia|]; replace (8 * _) with (32 * mp_used a) by lia; lia).
    rewrite be_split_0. f_equal. lia.
  - intros (e' & [= -> -> ->] & He). eval_tests. calc_step. calc_step. cbn [fst snd].
    replace (outSz - 1 + 1) with outSz in * by lia. split; [done|]. intros Hlt. apply He; [done|]. by apply sp_val_top.
Qed.

Lemma sp_to_unsigned_bin_spec e a out off :
  sp_ok a -> 0 <= off -> off + sp_unsigned_bin_size a <= len out ->
  calc e 0 (sp_to_unsigned_bin a out off)
    (fun r => r = (0, splice out off (be_split (Z.to_nat (sp_unsigned_bin_size a)) (sp_val a)))).
Proof.
  intros Hok Ho Hl. destruct (sp_unsigned_bin_size_spec a Hok) as (H1 & H2 & _). unfold sp_to_unsigned_bin.
  eapply calc_mono; [apply sp_to_unsigned_bin_len_spec; done || lia|]. intros [r o] [E1 E2]. cbn [fst snd] in *.
  rewrite E1, E2; [done|lia].
Qed.

(** *** From bytes *)

Lemma le_combine_app a b : bytes_ok a -> le_combine (a ++ b) = le_combine a + 2 ^ (8 * len a) * le_combine b.
Proof.
  induction 1 as [|x a Hx _ IH]; [cbn [app le_combine]; change (len []) with 0; lia|].
  cbn [app]. rewrite !le_combine_num, IH, len_cons by done. pose proof (len_nonneg a).
  replace (8 * (1 + len a)) with (8 + 8 * len a) by lia. rewrite Z.pow_add_r by lia. lia.
Qed.

Lemma be_combine_app a b : bytes_ok b -> be_combine (a ++ b) = be_combine a * 2 ^ (8 * len b) + be_combine b.
Proof.
  intros Hb. unfold be_combine. rewrite rev_app_distr, le_combine_app by auto with wf.
  unfold len. rewrite length_rev. lia.
Qed.

Lemma be_digit b0 b1 b2 b3 : bytes_ok [b0; b1; b2; b3] ->
  Z.lor (Z.lor (Z.lor b3 (Z.shiftl b2 8)) (Z.shiftl b1 16)) (Z.shiftl b0 24) = be_combine [b0; b1; b2; b3].
Proof.
  intros H. unfold be_combine. cbn [rev app le_combine]. rewrite !Z.shiftl_lor, Z.shiftl_0_l, !Z.lor_0_r, !Z.shiftl_shiftl by lia.
  cbn [Z.add Pos.add]. by rewrite <-!Z.lor_assoc.
Qed.

Lemma list_4 (l : list Z) : len l = 4 -> l = [l !!! 0%nat; l !!! 1%nat; l !!! 2%nat; l !!! 3%nat].
Proof. destruct l as [|a [|b [|c [|d [|]]]]]; unfold len; cbn; intros; lia || done. Qed.

Lemma read_bin_digits_spec e inp q : bytes_ok inp -> forall fuel i j dp,
  (q <= fuel)%nat -> 4 * Z.of_nat q <= i + 1 < 4 * Z.of_nat q + 4 -> i < len inp -> 0 <= j -> j + Z.of_nat q <= len dp ->
  calc e 0 (read_bin_digits fuel inp i j dp) (fun r => exists ds,
    r = (i - 4 * Z.of_nat q, splice dp j ds) /\ length ds = q /\ digits_ok ds /\
    digits_val ds = be_combine (sub inp (i + 1 - 4 * Z.of_nat q) (4 * Z.of_nat q))).
Proof.
  intros Hok. induction q as [|q IH]; intros fuel i j dp Hf Hi Hl Hj Hd.
  - assert (calc e 0 (mret (i, dp)) (fun r => exists ds, r = (i - 4 * Z.of_nat 0, splice dp j ds) /\ length ds = 0%nat /\
      digits_ok ds /\ digits_val ds = be_combine (sub inp (i + 1 - 4 * Z.of_nat 0) (4 * Z.of_nat 0)))) as Hdone.
    { calc_step. exists []. rewrite splice_nil. split; [f_equal; lia|]. split; [done|]. split; [constructor|done]. }
    destruct fuel as [|fuel]; [done|]. cbn [read_bin_digits].
    by rewrite (proj2 (Z.leb_gt (4 - 1) i)) by lia.
  - destruct fuel as [|fuel]; [lia|]. cbn [read_bin_digits].
    rewrite (proj2 (Z.leb_le (4 - 1) i)) by lia. calc_step; [lia|lia|lia|].
    pose proof (len_sub inp (i - 3) 4 ltac:(lia) ltac:(lia) ltac:(lia)) as Ls.
    pose proof (bytes_ok_sub inp (i - 3) 4 Hok) as Os.
    set (b := sub inp (i - 3) 4) in *. pose proof (list_4 b Ls) as Eb. rewrite be_digit by (by rewrite <-Eb). rewrite <-Eb.
    calc_step; [lia|change (len [_]) with 1; lia|].
    eapply calc_mono; [apply IH; rewrite ?len_splice; change (len [be_combine b]) with 1; lia|].
    intros r (ds & -> & Lds & Ods & Vds). exists (be_combine b :: ds).
    pose proof (be_combine_range b Os) as Hr. rewrite Ls in Hr. change (8 * 4) with 32 in Hr.
    split; [|split; [cbn; lia|split; [by constructor|]]].
    + f_equal; [lia|]. pose proof (splice_splice dp [be_combine b] ds j) as E. change (len [be_combine b]) with 1 in E.
      apply E; unfold len in *; lia.
    + cbn [digits_val]. rewrite Vds. pose proof (sub_split inp (i + 1 - 4 * Z.of_nat (S q)) (4 * Z.of_nat q) 4) as E.
      replace (4 * Z.of_nat q + 4) with (4 * Z.of_nat (S q)) in E by lia. rewrite <-E by lia.
      replace (i + 1 - 4 * Z.of_nat (S q) + 4 * Z.of_nat q) with (i - 3) by lia. fold b.
      rewrite be_combine_app, Ls by done. change (8 * 4) with 32.
      replace (i - 4 + 1 - 4 * Z.of_nat q) with (i + 1 - 4 * Z.of_nat (S q)) by lia. lia.
Qed.

Lemma lookup_splice_1 (l : list Z) i x : 0 <= i < len l -> sub (splice l i [x]) i 1 = [x].
Proof.
  intros Hi. unfold sub, splice. rewrite drop_app_ge by (rewrite length_take; unfold len in Hi; lia).
  rewrite length_take. replace (Z.to_nat i - _)%nat with 0%nat by (unfold len in Hi; lia). done.
Qed.

(** One byte of the digit at index [q], whose bytes are [bs]. *)
Lemma wr_digit_byte_spec {B} e d dp q m bs b (k : list Z -> M B) Q : bytes_ok bs -> len bs = 4 -> 0 <= q < len dp -> 0 <= m < 4 ->
  calc e d (k (splice dp q [le_combine (splice bs m [b])])) Q ->
  calc e d (wr_digit_byte (splice dp q [le_combine bs]) (4 * q + m) b ≫= k) Q.
Proof.
  intros Hb Lb Hq Hm Hk. unfold wr_digit_byte.
  replace ((4 * q + m) / 4) with q by (rewrite Z.mul_comm, Z.div_add_l, Z.div_small by lia; lia).
  replace ((4 * q + m) mod 4) with m by (rewrite Z.add_comm, Z.mul_comm, Z.mod_add, Z.mod_small; lia).
  assert (len (splice dp q [le_combine bs]) = len dp) as L by (apply len_splice; [lia|change (len [_]) with 1; lia]).
  calc_step. calc_step; [lia|lia|lia|]. rewrite lookup_splice_1 by done. cbn [lookup_total list_lookup_total].
  replace (le_split 4 (le_combine bs)) with bs.
  2:{ symmetry. replace 4%nat with (length bs) by (unfold len in Lb; lia). by apply le_split_combine. }
  calc_step; [lia|rewrite L; change (len [_]) with 1; lia|].
  rewrite splice_again by (change (len [_]) with 1; done || lia). done.
Qed.

Lemma sub_1 (inp : bytes) k : 0 <= k < len inp -> sub inp k 1 = [inp !!! Z.to_nat k].
Proof.
  intros Hk. assert (inp !! Z.to_nat k = Some (inp !!! Z.to_nat k)) as E
    by (apply list_lookup_lookup_total_lt; unfold len in Hk; lia).
  unfold sub. by rewrite (drop_S _ _ _ E).
Qed.

(** The bytes of the top digit once those of [inp] from [k] to [r] are in. *)
Definition rest_bytes (inp : bytes) (k r : Z) : bytes := rev (sub inp k (r - k)) ++ zeros (4 - (r - k)).

Lemma rest_bytes_step inp k r : 0 <= k < r -> r < 4 -> r <= len inp ->
  splice (rest_bytes inp (k + 1) r) (r - 1 - k) [inp !!! Z.to_nat k] = rest_bytes inp k r.
Proof.
  intros Hk Hr Hl. unfold rest_bytes.
  replace (zeros (4 - (r - (k + 1)))) with ([0] ++ zeros (4 - (r - k))).
  2:{ unfold zeros. by replace (Z.to_nat (4 - (r - (k + 1)))) with (S (Z.to_nat (4 - (r - k)))) by lia. }
  rewrite splice_app; [|unfold len; rewrite length_rev; fold (len (sub inp (k + 1) (r - (k + 1)))); rewrite len_sub; lia|done].
  rewrite app_assoc. f_equal. pose proof (sub_split inp k 1 (r - (k + 1))) as E. rewrite sub_1 in E by lia.
  replace (r - k) with (1 + (r - (k + 1))) by lia. rewrite <-E by lia. rewrite rev_app_distr. done.
Qed.

Lemma read_bin_rest_spec e inp dp q r : bytes_ok inp -> 0 < r < 4 -> len inp = 4 * q + r -> 0 <= q < len dp ->
  calc e 0 (read_bin_rest (Z.to_nat r) inp (len inp) (splice dp q [0]))
    (fun d => d = splice dp q [be_combine (sub inp 0 r)]).
Proof.
  intros Hb Hr Hl Hq.
  assert (forall k, 0 <= k <= r -> le_combine (rest_bytes inp k r) = be_combine (sub inp k (r - k))) as Hv.
  { intros k Hk. unfold rest_bytes. rewrite le_combine_app by auto using bytes_ok_rev, bytes_ok_sub.
    unfold zeros. replace (le_combine (replicate _ 0)) with 0; [unfold be_combine; lia|].
    generalize (Z.to_nat (4 - (r - k))). induction n as [|n IH]; [done|]. cbn. by rewrite <-IH. }
  assert (forall n, Z.of_nat n <= r -> calc e 0 (read_bin_rest n inp (len inp) (splice dp q [le_combine (rest_bytes inp (Z.of_nat n) r)]))
    (fun d => d = splice dp q [be_combine (sub inp 0 r)])) as H.
  2:{ specialize (H (Z.to_nat r) ltac:(lia)). rewrite Z2Nat.id in H by lia. rewrite Hv in H by lia.
      replace (r - r) with 0 in H by lia. exact H. }
  induction n as [|n IH]; intros Hn; cbn [read_bin_rest].
  - calc_step. change (Z.of_nat 0) with 0. rewrite Hv by lia. by rewrite Z.sub_0_r.
  - calc_step; [lia|lia|lia|]. rewrite sub_1 by lia. cbn [lookup_total list_lookup_total].
    replace (len inp - 1 - Z.of_nat n) with (4 * q + (r - 1 - Z.of_nat n)) by lia.
    replace (Z.of_nat (S n)) with (Z.of_nat n + 1) by lia.
    apply wr_digit_byte_spec; [| |lia|lia|].
    + unfold rest_bytes. apply bytes_ok_app. split; [by apply bytes_ok_rev, bytes_ok_sub|apply bytes_ok_zeros].
    + unfold rest_bytes. rewrite len_app, len_zeros by lia. unfold len. rewrite length_rev. fold (len (sub inp (Z.of_nat n + 1) (r - (Z.of_nat n + 1)))). rewrite len_sub; lia.
    + rewrite rest_bytes_step by lia. apply IH. lia.
Qed.

Lemma take_splice_end (l src : list Z) off n : 0 <= off -> off + len src <= len l -> n = off + len src ->
  take (Z.to_nat n) (splice l off src) = take (Z.to_nat off) l ++ src.
Proof. intros H1 H2 ->. by apply take_splice. Qed.

Lemma take_splice_len (l src : list Z) : len src <= len l -> take (length src) (splice l 0 src) = src.
Proof.
  intros H. pose proof (take_splice_end l src 0 (len src)) as E. unfold len in E at 5. rewrite Nat2Z.id in E. by apply E.
Qed.

(** Reading bytes gives the number they encode. *)
Lemma sp_read_unsigned_bin_spec e a inp : mp_size a = SP_INT_DIGITS -> len (mp_dp a) = SP_INT_DIGITS -> digits_ok (mp_dp a) ->
  bytes_ok inp -> len inp <= 140 ->
  calc e 0 (sp_read_unsigned_bin a (Some inp) (len inp))
    (fun r => r.1 = 0 /\ sp_ok r.2 /\ sp_val r.2 = be_combine inp).
Proof.
  intros Hs Hl Hd Hb Hi. unfold sp_read_unsigned_bin. cbn [bool_decide andb default from_option id].
  rewrite Hs. change SP_INT_DIGITS with 35 in *. change (bool_decide (Some inp = None)) with false. cbn [andb].
  rewrite (proj2 (Z.ltb_ge (35 * 4) (len inp))) by lia. pose proof (len_nonneg inp).
  pose proof (Z.div_mod (len inp) 4 ltac:(lia)) as Hdm. pose proof (Z.mod_pos_bound (len inp) 4 ltac:(lia)) as Hm.
  set (q := len inp / 4) in *. set (r := len inp mod 4) in *.
  eapply calc_bind; [apply (read_bin_digits_spec e inp (Z.to_nat q)); [done|lia|lia|lia|lia|lia]|].
  intros [i dp] (ds & [= -> ->] & Lds & Ods & Vds). rewrite Z2Nat.id in * by lia.
  replace (len inp - 1 - 4 * q) with (r - 1) in * by lia. replace (len inp - 1 + 1 - 4 * q) with r in Vds by lia.
  assert (forall u dp', len dp' = 35 -> digits_ok dp' -> 0 <= u <= 35 -> digits_val (take (Z.to_nat u) dp') = be_combine inp ->
    calc e 0 (mret (0, sp_clamp_ct (set_digits u dp' a))) (fun r => r.1 = 0 /\ sp_ok r.2 /\ sp_val r.2 = be_combine inp)) as Hend.
  { intros u dp' Hl' Ho' Hu Hv. calc_step. cbn [fst snd]. destruct (sp_clamp_ct_spec (set_digits u dp' a)) as [H1 H2]; try done.
    split; [done|]. split; [done|]. rewrite H2. exact Hv. }
  assert (len (splice (mp_dp a) 0 ds) = 35) as L1 by (rewrite len_splice; unfold len in *; lia).
  assert (take (Z.to_nat q) (splice (mp_dp a) 0 ds) = ds) as Et.
  { rewrite <-Lds. apply take_splice_len. unfold len in *. lia. }
  destruct (Z.leb_spec 0 (r - 1)).
  - assert ((len inp + 4 - 1) / 4 = q + 1) as ->.
    { symmetry. apply (Z.div_unique _ _ _ (r - 1)); lia. }
    replace (w16 (q + 1)) with (q + 1) by (rewrite w16_mod, Z.mod_small; lia). replace (q + 1 - 1) with q by lia.
    replace (r - 1 + 1) with r by lia.
    calc_step. calc_step; [lia|rewrite L1; change (len [0]) with 1; lia|].
    eapply calc_bind; [apply (read_bin_rest_spec e inp _ q r); [done|lia|lia|lia]|]. intros dp ->.
    pose proof (be_combine_range _ (bytes_ok_sub inp 0 r Hb)) as Hr. rewrite len_sub in Hr by lia.
    assert (2 ^ (8 * r) <= 2 ^ 32) by (apply Z.pow_le_mono_r; lia).
    apply Hend; [rewrite len_splice; change (len [_]) with 1; lia| |lia|].
    + apply digits_ok_splice; [auto with wf|]. constructor; [lia|constructor].
    + rewrite (take_splice_end _ _ q) by (change (len [_]) with 1; lia).
      rewrite Et, digits_val_app, Vds. cbn [digits_val]. unfold len at 1. rewrite Lds, Z2Nat.id by lia.
      pose proof (sub_split inp 0 r (4 * q) ltac:(lia) ltac:(lia) ltac:(lia)) as E.
      rewrite (sub_all inp (r + 4 * q)) in E by lia. rewrite Z.add_0_l in E. rewrite <-E at 3.
      rewrite be_combine_app, len_sub by (auto using bytes_ok_sub || lia). replace (8 * (4 * q)) with (32 * q) by lia. lia.
  - assert ((len inp + 4 - 1) / 4 = q) as -> by (symmetry; apply (Z.div_unique _ _ _ 3); lia).
    replace (w16 q) with q by (rewrite w16_mod, Z.mod_small; lia). calc_step.
    apply Hend; [done|auto with wf|lia|]. rewrite Et, Vds. f_equal. assert (r = 0) as -> by lia. apply sub_all. lia.
Qed.

(** *** Comparing *)

Lemma cmp_digits_spec a b n : digits_ok a -> digits_ok b -> (n <= length a)%nat -> (n <= length b)%nat ->
  cmp_digits n a b = Z.sgn (digits_val (take n a) - digits_val (take n b)).
Proof.
  intros Ha Hb. induction n as [|n IH]; intros Hla Hlb; [done|]. cbn [cmp_digits]. rewrite !digits_val_snoc by lia.
  pose proof (digits_val_range _ (digits_ok_take n _ Ha)) as Hva. pose proof (digits_val_range _ (digits_ok_take n _ Hb)) as Hvb.
  unfold len in Hva, Hvb. rewrite length_take in Hva, Hvb.
  replace (n `min` length a)%nat with n in Hva by lia. replace (n `min` length b)%nat with n in Hvb by lia.
  destruct (Z.ltb_spec (b !!! n) (a !!! n)); [symmetry; apply Z.sgn_pos; nia|].
  destruct (Z.ltb_spec (a !!! n) (b !!! n)); [symmetry; apply Z.sgn_neg; nia|].
  rewrite IH by lia. f_equal. replace (a !!! n) with (b !!! n) by lia. lia.
Qed.

(** The order of the numbers is that of the integers. *)
Lemma sp_cmp_abs_num a b : sp_num a -> sp_num b -> _sp_cmp_abs a b = Z.sgn (sp_val a - sp_val b).
Proof.
  intros Ha Hb. unfold _sp_cmp_abs.
  assert (forall x y, sp_num x -> sp_num y -> mp_used y < mp_used x -> sp_val y < sp_val x) as Hlt.
  { intros x y Hx Hy Hl. destruct (sp_val_range_num y Hy) as [_ H1]. pose proof (sn_used _ Hy).
    pose proof (sp_val_top_num x Hx ltac:(lia)). eapply Z.lt_le_trans; [apply H1|]. etransitivity; [|done].
    apply Z.pow_le_mono_r; lia. }
  destruct (Z.ltb_spec (mp_used b) (mp_used a)); [symmetry; apply Z.sgn_pos; specialize (Hlt a b Ha Hb); lia|].
  destruct (Z.ltb_spec (mp_used a) (mp_used b)); [symmetry; apply Z.sgn_neg; specialize (Hlt b a Hb Ha); lia|].
  destruct Ha as [Ua Da _], Hb as [Ub Db _]. unfold len in *.
  rewrite cmp_digits_spec by (done || lia). unfold sp_val. by replace (mp_used b) with (mp_used a) by lia.
Qed.

Lemma sp_cmp_spec a b : sp_ok a -> sp_ok b -> sp_cmp a b = Z.sgn (sp_val a - sp_val b).
Proof. intros Ha Hb. apply sp_cmp_abs_num; by apply sp_ok_num. Qed.

(** *** Hexadecimal *)

Definition is_hex (c : ascii) : Prop := 0 <= HexCharToByte c.

(** The value of a string of hexadecimal digits, least significant first. *)
Fixpoint hex_val_rev (cs : list ascii) : Z :=
  match cs with
  | [] => 0
  | c :: cs => HexCharToByte c + 16 * hex_val_rev cs
  end.

Definition hex_val (cs : list ascii) : Z := hex_val_rev (rev cs).

Lemma HexCharToByte_bound c : HexCharToByte c < 16.
Proof. unfold HexCharToByte. repeat case_match; bool_to_prop; lia. Qed.

Lemma read_hex_spec e cs : Forall is_hex cs -> forall j t d eol dp,
  len dp = 35 -> digits_ok dp -> 0 <= j < 35 -> 0 <= t <= 8 -> 0 <= d < 2 ^ (4 * t) -> 8 * j + t + len cs <= 280 ->
  calc e 0 (read_hex cs 35 j (4 * t) d eol dp) (fun '(err, dp', j', d') =>
    err = 0 /\ len dp' = 35 /\ digits_ok dp' /\ 0 <= j' < 35 /\ 0 <= d' < 2 ^ 32 /\
    digits_val (take (Z.to_nat j') dp') + 2 ^ (32 * j') * d' =
    digits_val (take (Z.to_nat j) dp) + 2 ^ (32 * j) * d + 2 ^ (32 * j + 4 * t) * hex_val_rev cs).
Proof.
  induction 1 as [|c cs Hc Hcs IH]; intros j t d eol dp Ld Od Hj Ht Hd Hn; cbn [read_hex hex_val_rev].
  { calc_step. assert (2 ^ (4 * t) <= 2 ^ 32) by (apply Z.pow_le_mono_r; lia).
    do 5 (split; [done || lia|]). lia. }
  pose proof (HexCharToByte_bound c). unfold is_hex in Hc. rewrite len_cons in Hn. pose proof (len_nonneg cs).
  rewrite (proj2 (Z.ltb_ge (HexCharToByte c) 0)) by done. set (ch := HexCharToByte c) in *.
  destruct (Z.eqb_spec (4 * t) 32) as [E|E].
  - calc_step; [lia|change (len [_]) with 1; lia|]. rewrite (proj2 (Z.leb_gt 35 (j + 1))) by lia.
    assert (t = 8) as -> by lia. change (4 * 8) with 32 in *.
    eapply calc_mono; [apply (IH (j + 1) 1)|].
    + rewrite len_splice; change (len [_]) with 1; lia.
    + apply digits_ok_splice; [done|]. by constructor.
    + lia.
    + lia.
    + change (2 ^ (4 * 1)) with 16. lia.
    + lia.
    + intros [[[err dp'] j'] d'] (H1 & H2 & H3 & H4 & H5 & H6). do 5 (split; [done|]). rewrite H6.
      rewrite (take_splice_end _ _ j) by (change (len [_]) with 1; lia). rewrite digits_val_app. cbn [digits_val].
      unfold len in Ld |- *. rewrite length_take. replace (Z.of_nat (Z.to_nat j `min` length dp)) with j by lia.
      replace (32 * (j + 1)) with (32 * j + 32) by lia. rewrite !Z.pow_add_r by lia. change (2 ^ (4 * 1)) with 16. lia.
  - assert (2 ^ (4 * t + 4) <= 2 ^ 32) as Hp by (apply Z.pow_le_mono_r; lia). rewrite Z.pow_add_r in Hp by lia.
    assert (Z.lor d (w32 (Z.shiftl ch (4 * t))) = d + 2 ^ (4 * t) * ch) as ->.
    { rewrite w32_mod, Z.mod_small; [apply lor_shift_add; lia|]. rewrite Z.shiftl_mul_pow2 by lia. nia. }
    replace (4 * t + 4) with (4 * (t + 1)) by lia.
    eapply calc_mono; [apply (IH j (t + 1)); [lia|done|lia|lia| |lia]|].
    + replace (4 * (t + 1)) with (4 * t + 4) by lia. rewrite Z.pow_add_r by lia. nia.
    + intros [[[err dp'] j'] d'] (H3 & H4 & H5 & H6 & H7 & H8). do 5 (split; [done|]). rewrite H8.
      replace (32 * j + 4 * (t + 1)) with (32 * j + 4 * t + 4) by lia. rewrite !Z.pow_add_r by lia. lia.
Qed.

Lemma hex_val_rev_app a b : hex_val_rev (a ++ b) = hex_val_rev a + 16 ^ len a * hex_val_rev b.
Proof.
  induction a as [|c a IH]; [cbn [app hex_val_rev]; change (len []) with 0; lia|]. cbn [app hex_val_rev].
  rewrite IH, len_cons, Z.pow_add_r by (pose proof (len_nonneg a); lia). lia.
Qed.

Lemma skip_zeros_spec cs : Forall is_hex cs ->
  Forall is_hex (skip_zeros cs) /\ len (skip_zeros cs) <= len cs /\ hex_val (skip_zeros cs) = hex_val cs.
Proof.
  induction 1 as [|c cs Hc Hcs (IH1 & IH2 & IH3)]; [done|]. cbn [skip_zeros].
  destruct (ascii_dec c (ascii_of_nat 48)) as [->|]; [|split; [by constructor|done]].
  split; [done|]. rewrite len_cons. split; [lia|]. rewrite IH3. unfold hex_val. cbn [rev].
  rewrite hex_val_rev_app. change (hex_val_rev [ascii_of_nat 48]) with 0. lia.
Qed.

(** Reading a string of at most 280 hexadecimal digits gives its value. *)
Lemma sp_read_radix_spec e a s :
  mp_size a = SP_INT_DIGITS -> len (mp_dp a) = SP_INT_DIGITS -> digits_ok (mp_dp a) ->
  Forall is_hex (String.list_ascii_of_string s) -> len (String.list_ascii_of_string s) <= 280 ->
  calc e 0 (sp_read_radix a s 16)
    (fun r => r.1 = 0 /\ sp_ok r.2 /\ sp_val r.2 = hex_val (String.list_ascii_of_string s)).
Proof.
  intros Hs Hl Hd Hh Hn. unfold sp_read_radix. set (cs := String.list_ascii_of_string s) in *.
  assert (forall ds, Forall is_hex ds -> len ds <= 280 -> hex_val ds = hex_val cs ->
    calc e 0 (_sp_read_radix_16 a ds) (fun r => r.1 = 0 /\ sp_ok r.2 /\ sp_val r.2 = hex_val cs)) as Hgen.
  { intros ds Hds Lds <-. unfold _sp_read_radix_16. rewrite Hs. change SP_INT_DIGITS with 35 in *.
    eapply calc_bind; [apply (read_hex_spec e (rev ds)) with (t := 0); try done; [by apply Forall_rev|]; unfold len in *; rewrite length_rev; lia|].
    intros [[[err dp] j] d] (-> & Ldp & Odp & Hj & Hd' & Hv). eval_tests. rewrite (proj2 (Z.ltb_lt j 35)) by lia.
    calc_step; [lia|change (len [d]) with 1; lia|]. replace (w16 (j + 1)) with (j + 1) by (rewrite w16_mod, Z.mod_small; lia).
    assert (len (splice dp j [d]) = 35) as L by (rewrite len_splice; change (len [d]) with 1; lia).
    calc_step. cbn [fst snd].
    pose proof (sp_clamp_ct_spec (set_digits (j + 1) (splice dp j [d]) a)) as Hc.
    unfold sp_clamp_ct in Hc. cbn [set_digits mp_used mp_size mp_dp] in Hc. change SP_INT_DIGITS with 35 in Hc.
    assert (digits_ok (splice dp j [d])) as Ok by (apply digits_ok_splice; [done|by constructor]).
    pose proof (clamp_ct_loop_spec (splice dp j [d]) (Z.to_nat (j + 1)) Ok ltac:(lia)) as Ec. rewrite Z2Nat.id in Ec by lia. rewrite Ec in Hc.
    destruct Hc as [H1 H2]; [done|done|lia|done|]. split; [done|]. split; [exact H1|].
    etransitivity; [exact H2|]. unfold sp_val. cbn [set_digits mp_used mp_dp].
    rewrite (take_splice_end _ _ j) by (change (len [d]) with 1; lia). rewrite digits_val_app. cbn [digits_val].
    unfold len in Ldp |- *. rewrite length_take. replace (Z.of_nat (Z.to_nat j `min` length dp)) with j by lia.
    rewrite Z.mul_0_r, Z.add_0_r, Hv. cbn [Z.to_nat take digits_val]. change (2 ^ (32 * 0)) with 1. change (2 ^ (32 * 0 + 4 * 0)) with 1.
    change (digits_val (take (Z.to_nat 0) (mp_dp a))) with 0. unfold hex_val. lia. }
  destruct (skip_zeros_spec cs Hh) as (H1 & H2 & H3). destruct cs as [|c cs'] eqn:Ecs; [by apply Hgen|].
  destruct (ascii_dec c (ascii_of_nat 45)) as [->|]; [apply Forall_cons_1 in Hh as [Hh _]; done|].
  cbn [Z.eqb Pos.eqb]. apply Hgen; [done|lia|done].
Qed.

(** ** Objects *)

(** An object with room for a number, whatever it holds. *)
Record sp_room (a : mp_int) : Prop := {
  sr_size : mp_size a = SP_INT_DIGITS;
  sr_len : len (mp_dp a) = SP_INT_DIGITS;
  sr_digits : digits_ok (mp_dp a) }.

Lemma sp_ok_room a : sp_ok a -> sp_room a.
Proof. by intros []. Qed.

Lemma insert_0_ok (dp : list Z) d : digits_ok dp -> 0 <= d < 2 ^ 32 -> digits_ok (<[0%nat := d]> dp).
Proof. intros H Hd. by apply Forall_insert. Qed.

Lemma _sp_zero_ok a : sp_room a -> sp_ok (_sp_zero a) /\ sp_val (_sp_zero a) = 0.
Proof.
  intros [Hs Hl Hd]. split; [|done]. split; cbn; try done.
  - unfold len in *. by rewrite length_insert.
  - by apply insert_0_ok.
  - by left.
Qed.

Lemma _sp_init_size_ok a : len (mp_dp a) = SP_INT_DIGITS -> digits_ok (mp_dp a) ->
  sp_ok (_sp_init_size a SP_INT_DIGITS) /\ sp_val (_sp_init_size a SP_INT_DIGITS) = 0.
Proof.
  intros Hl Hd. split; [|done]. split; cbn; try done.
  - unfold len in *. by rewrite length_insert.
  - by apply insert_0_ok.
  - by left.
Qed.

Lemma digits_ok_zeros n : digits_ok (zeros n).
Proof. by apply Forall_replicate. Qed.

Lemma sp_clear_ok a : sp_ok a -> sp_ok (sp_clear a) /\ sp_val (sp_clear a) = 0.
Proof.
  intros [Hs Hl Hu Hd _]. apply _sp_zero_ok. split; cbn; [done| |apply digits_ok_splice; [done|apply digits_ok_zeros]].
  rewrite len_splice; [done|lia|]. rewrite len_zeros; lia.
Qed.

(** Every digit is gone, also those above [mp_used]. *)
Lemma sp_forcezero_spec a : sp_room a ->
  sp_forcezero a = {| mp_used := 0; mp_size := SP_INT_DIGITS; mp_dp := zeros SP_INT_DIGITS |}.
Proof.
  intros [Hs Hl Hd]. unfold sp_forcezero, _sp_zero, set_digits. cbn [mp_used mp_size mp_dp]. rewrite Hs.
  rewrite splice_full; [done|]. unfold len in Hl. unfold zeros. rewrite length_replicate. change SP_INT_DIGITS with 35 in *. lia.
Qed.

Lemma _sp_set_ok a d : sp_room a -> 0 <= d < 2 ^ 32 -> sp_ok (_sp_set a d) /\ sp_val (_sp_set a d) = d.
Proof.
  intros [Hs Hl Hd] Hr. change SP_INT_DIGITS with 35 in *.
  assert (exists x l, mp_dp a = x :: l) as (x & l & E) by (destruct (mp_dp a); [done|by eexists _, _]).
  split.
  - split; cbn; try done; [unfold len in *; by rewrite length_insert|destruct (0 <? d); cbn; change SP_INT_DIGITS with 35; lia|by apply insert_0_ok|].
    rewrite E. destruct (Z.ltb_spec 0 d); [right|by left]. change (d <> 0). lia.
  - unfold sp_val, _sp_set. cbn [set_digits mp_used mp_dp]. rewrite E. cbn [insert list_insert].
    destruct (Z.ltb_spec 0 d); cbn [Z.b2z].
    + change (d + 2 ^ 32 * 0 = d). lia.
    + change (0 = d). lia.
Qed.

Lemma be_split_bytes l : bytes_ok l -> be_split (Z.to_nat (len l)) (be_combine l) = l.
Proof. intros H. unfold len. rewrite Nat2Z.id. by apply be_split_combine. Qed.

(** Importing a big-endian byte string of up to 140 bytes into a number and
    writing the number back in as many bytes gives the string again; the bit
    count in between is that of the integer encoded. *)
Theorem sp_bin_roundtrip e a inp out :
  sp_room a -> bytes_ok inp -> len inp <= 140 -> len inp <= len out ->
  calc e 0
    ('(err, a) ← sp_read_unsigned_bin a (Some inp) (len inp);
     '(err', out) ← sp_to_unsigned_bin_len a out 0 (len inp);
     mret (err, err', sp_count_bits a, out))
    (fun r => let v := be_combine inp in
              r = (0, 0, if v =? 0 then 0 else Z.log2 v + 1, splice out 0 inp)).
Proof.
  intros [] Hb Hl Ho. pose proof (len_nonneg inp).
  eapply calc_bind; [by apply sp_read_unsigned_bin_spec|]. intros [err a'] (H1 & H2 & H3). cbn [fst snd] in *. subst err.
  eapply calc_bind; [apply sp_to_unsigned_bin_len_spec; done || lia|]. intros [err out'] [H4 H5]. cbn [fst snd] in *.
  calc_step. rewrite sp_count_bits_spec, H4, H3, be_split_bytes, H5 by done || (rewrite H3; by apply be_combine_range). done.
Qed.

Definition sp_zeroed : mp_int := {| mp_used := 0; mp_size := SP_INT_DIGITS; mp_dp := zeros SP_INT_DIGITS |}.

Lemma sp_zeroed_room : sp_room sp_zeroed.
Proof. by split; [| |apply digits_ok_zeros]. Qed.

Lemma sp_bin_roundtrip_witness :
  calc env_plenty 0
    ('(err, a) ← sp_read_unsigned_bin sp_zeroed (Some [0; 1; 2; 3; 4]) 5;
     '(err', out) ← sp_to_unsigned_bin_len a (zeros 6) 0 5;
     mret (err, err', sp_count_bits a, out))
    (fun r => r = (0, 0, 25, [0; 1; 2; 3; 4; 0])).
Proof.
  eapply calc_mono; [apply (sp_bin_roundtrip env_plenty sp_zeroed [0; 1; 2; 3; 4] (zeros 6))|].
  - apply sp_zeroed_room.
  - solve_bytes.
  - done.
  - done.
  - intros r ->. reflexivity.
Defined.
