(* ===== verification/SpArith.v ===== *)
(** * SpArith: arithmetic on the multi-precision integers of sp_int.c

    Addition, subtraction, and multiplication and division by one digit, each with
    the theorem that it computes the operation on integers.  A result goes
    to an object [r] with a size of its own, which the code tests; digits are read
    and written one at a time and in bounds, or the model faults.

    Objects are passed by value.  The loops read a digit of an operand before they
    write the digit of the result with that index or a higher one, so a result that
    is the same object as an operand comes out the same; the copies the code leaves
    out in that case change nothing.  NULL arguments, which every function answers
    with MP_VAL, have no counterpart except where a function allows one. *)

From S2P Require Import Prelude Platform Types Misc SpInt.

(** ** Digits *)

(** Write a digit, in bounds. *)
Definition poke (dp : list Z) (i v : Z) : M (list Z) := wr dp i [v].

(** ... if there is an array. *)
Definition poke_opt (dp : option (list Z)) (i v : Z) : M (option (list Z)) :=
  match dp with
  | Some dp => dp ← poke dp i v; mret (Some dp)
  | None => mret None
  end.

(** Copy the digits from [lo] up to [hi]. *)
Definition copy_digits (src : list Z) (lo hi : Z) (dp : list Z) : M (list Z) :=
  for_range lo hi (fun i dp => x ← peek src i; poke dp i x) dp.

(** Store the low digit of a word, keep the rest to carry. *)
Definition put_carry (dp : list Z) (i t : Z) : M (Z * list Z) :=
  dp ← poke dp i (w32 t); mret (Z.shiftr t 32, dp).

(** sp_int.h:767-778, [sp_clamp] *)
Definition sp_clamp (a : mp_int) : mp_int :=
  if 0 <? mp_used a then set_digits (w16 (top_digit (Z.to_nat (mp_used a)) (mp_dp a) + 1)) (mp_dp a) a else a.

(** sp_int.c:222-235, [ALLOC_SP_INT]: the error, and whether there is a block to free. *)
Definition ALLOC_SP_INT (s err : Z) : M (Z * bool) :=
  let err := if (err =? 0) && (SP_INT_DIGITS <? s) then MP_VAL else err in
  if err =? 0 then blk ← wolfSSL_Malloc; mret (if negb blk then MP_MEM else err, blk)
  else mret (err, false).

(** sp_int.c:238-246, [ALLOC_SP_INT_SIZE], and one number of sp_int.c:321-336,
    [ALLOC_DYN_SP_INT_ARRAY]: an object of [s] digits as allocated. *)
Definition new_sp_int (s : Z) : mp_int := {| mp_used := 0; mp_size := w16 s; mp_dp := zeros s |}.

(** ** One digit *)

(** sp_int.c:6389-6430, [sp_cmp_d] *)
Definition sp_cmp_d (a : mp_int) (d : Z) : M Z :=
  if 1 <? mp_used a then mret 1
  else if mp_used a =? 0 then mret (if negb (d =? 0) then -1 else 0)
  else
    x ← peek (mp_dp a) 0;
    mret (if d <? x then 1 else if x <? d then -1 else 0).

(** sp_int.c:6465-6470, [_sp_add_d]: carry on from index [i], at most [n] digits. *)
Fixpoint add_carry (n : nat) (adp : list Z) (i : Z) (dp : list Z) : M (Z * list Z) :=
  match n with
  | O => mret (i, dp)
  | S n =>
    x ← peek adp i;
    let v := w32 (x + 1) in
    dp ← poke dp i v;
    if negb (v =? 0) then mret (i, dp) else add_carry n adp (i + 1) dp
  end.

(** sp_int.c:6444-6493, [_sp_add_d] *)
Definition _sp_add_d (a : mp_int) (d : Z) (r : mp_int) : M (Z * mp_int) :=
  if mp_used a =? 0 then
    dp ← poke (mp_dp r) 0 d; mret (0, set_digits (Z.b2z (0 <? d)) dp r)
  else
    a0 ← peek (mp_dp a) 0;
    let v := w32 (a0 + d) in
    dp ← poke (mp_dp r) 0 v;
    '(err, i, used, dp) ←
      (if v <? a0 then
         '(i, dp) ← add_carry (Z.to_nat (mp_used a - 1)) (mp_dp a) 1 dp;
         if i =? mp_used a then
           if i <? mp_size r then dp ← poke dp i 1; mret (0, i, mp_used a + 1, dp)
           else mret (MP_VAL, i, mp_used a, dp)
         else mret (0, i, mp_used a, dp)
       else mret (0, 0, mp_used a, dp));
    dp ← (if err =? 0 then copy_digits (mp_dp a) (i + 1) (mp_used a) dp else mret dp);
    mret (err, set_digits used dp r).

(** sp_int.c:6524-6529, [_sp_sub_d]: borrow on from index [i], at most [n] digits. *)
Fixpoint sub_borrow (n : nat) (adp : list Z) (i : Z) (dp : list Z) : M (Z * list Z) :=
  match n with
  | O => mret (i, dp)
  | S n =>
    x ← peek adp i;
    let v := w32 (x - 1) in
    dp ← poke dp i v;
    if negb (v =? 0xffffffff) then mret (i, dp) else sub_borrow n adp (i + 1) dp
  end.

(** sp_int.c:6507-6541, [_sp_sub_d] *)
Definition _sp_sub_d (a : mp_int) (d : Z) (r : mp_int) : M mp_int :=
  if mp_used a =? 0 then
    dp ← poke (mp_dp r) 0 0; mret (set_digits (mp_used a) dp r)
  else
    a0 ← peek (mp_dp a) 0;
    let v := w32 (a0 - d) in
    dp ← poke (mp_dp r) 0 v;
    '(i, dp) ← (if a0 <? v then sub_borrow (Z.to_nat (mp_used a - 1)) (mp_dp a) 1 dp else mret (0, dp));
    dp ← copy_digits (mp_dp a) (i + 1) (mp_used a) dp;
    mret (sp_clamp (set_digits (mp_used a) dp r)).

(** sp_int.c:6556-6606, [sp_add_d] *)
Definition sp_add_d (a : mp_int) (d : Z) (r : mp_int) : M (Z * mp_int) :=
  if mp_size r <? mp_used a + 1 then mret (MP_VAL, r) else _sp_add_d a d r.

(** sp_int.c:6619-6669, [sp_sub_d] *)
Definition sp_sub_d (a : mp_int) (d : Z) (r : mp_int) : M (Z * mp_int) :=
  if mp_size r <? mp_used a then mret (MP_VAL, r) else r ← _sp_sub_d a d r; mret (0, r).

(** sp_int.c:6689-6757, [_sp_mul_d] *)
Definition _sp_mul_d (a : mp_int) (d : Z) (r : mp_int) (o : Z) : M (Z * mp_int) :=
  '(t, dp) ← for_range 0 (mp_used a) (fun i '(t, dp) =>
      x ← peek (mp_dp a) i; put_carry dp (o + i) (w64 (t + x * d))) (0, mp_dp r);
  let o := o + mp_used a in
  '(err, o, dp) ←
    (if 0 <? t then
       if o =? mp_size r then mret (MP_VAL, o, dp)
       else dp ← poke dp o (w32 t); mret (0, o + 1, dp)
     else mret (0, o, dp));
  mret (err, sp_clamp (set_digits (w16 o) dp r)).

(** sp_int.c:6772-6799, [sp_mul_d] *)
Definition sp_mul_d (a : mp_int) (d : Z) (r : mp_int) : M (Z * mp_int) :=
  if mp_size r <? mp_used a then mret (MP_VAL, r) else _sp_mul_d a d r 0.

(** sp_int.c:6827-6899, [sp_div_word] *)
Definition sp_div_word (hi lo d : Z) : Z := w32 (Z.lor (Z.shiftl hi 32) lo / d).

(** sp_int.c:6952-6954, [_sp_div_3] *)
Notation sp_r6 := ([0; 0; 0; 1; 1; 1])%Z (only parsing).
Notation sp_rem6 := ([0; 1; 2; 0; 1; 2])%Z (only parsing).

(** sp_int.c:6938-7036, [_sp_div_3]: the quotient if wanted, and the remainder, which
    has a place to go to when [rem]. *)
Definition _sp_div_3 (a : mp_int) (r : option mp_int) (rem : bool) : M (option mp_int * Z) :=
  match r with
  | None =>
    t ← for_range 0 (mp_used a) (fun i t => x ← peek (mp_dp a) i; mret (w64 (t + x))) 0;
    let t := w64 (Z.shiftr t 32 + Z.land t 0xffffffff) in
    let tt := w32 (Z.shiftr (w64 (t * 0x55555555)) 32) in
    let tr := w32 (t - tt * 3) in
    tr ← peek sp_rem6 tr;
    _ ← assert rem;
    mret (None, tr)
  | Some r =>
    '(tr, dp) ← for_down (Z.to_nat (mp_used a)) (fun i '(tr, dp) =>
        x ← peek (mp_dp a) i;
        let t := Z.lor (Z.shiftl tr 32) x in
        let tt := w32 (Z.shiftr (w64 (t * 0x55555555)) 32) in
        let tr := w32 (t - tt * 3) in
        c ← peek sp_r6 tr;
        let tt := w32 (tt + c) in
        tr ← peek sp_rem6 tr;
        dp ← poke dp i tt;
        mret (tr, dp)) (0, mp_dp r);
    mret (Some (sp_clamp (set_digits (mp_used a) dp r)), tr)
  end.

(** sp_int.c:7063-7083 and 7089-7113, [_sp_div_10]: the loop over the digits. *)
Definition div_10_loop (a : mp_int) (dp : option (list Z)) : M (Z * option (list Z)) :=
  for_down (Z.to_nat (mp_used a)) (fun i '(tr, dp) =>
    x ← peek (mp_dp a) i;
    let t := Z.lor (Z.shiftl tr 32) x in
    let tt := w32 (Z.shiftr (w64 (t * 0x19999999)) 32) in
    let tr := w32 (t - tt * 10) in
    dp ← poke_opt dp i (w32 (tt + tr / 10));
    mret (tr mod 10, dp)) (0, dp).

(** sp_int.c:7047-7124, [_sp_div_10] *)
Definition _sp_div_10 (a : mp_int) (r : option mp_int) (rem : bool) : M (option mp_int * Z) :=
  match r with
  | None => '(tr, _) ← div_10_loop a None; _ ← assert rem; mret (None, tr)
  | Some r =>
    '(tr, dp) ← div_10_loop a (Some (mp_dp r));
    mret (Some (sp_clamp (set_digits (mp_used a) (default [] dp) r)), tr)
  end.

(** sp_int.c:7153-7172 and 7180-7208, [_sp_div_small]: the loop over the digits. *)
Definition div_small_loop (a : mp_int) (d : Z) (dp : option (list Z)) : M (Z * option (list Z)) :=
  let m := 0xffffffff / d in
  for_down (Z.to_nat (mp_used a)) (fun i '(tr, dp) =>
    x ← peek (mp_dp a) i;
    let t := Z.lor (Z.shiftl tr 32) x in
    let tt := w32 (Z.shiftr (w64 (t * m)) 32) in
    let tr := w32 (w32 t - w32 (tt * d)) in
    dp ← poke_opt dp i (w32 (tt + tr / d));
    mret (tr mod d, dp)) (0, dp).

(** sp_int.c:7135-7224, [_sp_div_small] *)
Definition _sp_div_small (a : mp_int) (d : Z) (r : option mp_int) (rem : bool) : M (option mp_int * Z) :=
  match r with
  | None => '(tr, _) ← div_small_loop a d None; _ ← assert rem; mret (None, tr)
  | Some r =>
    '(tr, dp) ← div_small_loop a d (Some (mp_dp r));
    mret (Some (sp_clamp (set_digits (mp_used a) (default [] dp) r)), tr)
  end.

(** sp_int.c:7239-7288, [_sp_div_d] *)
Definition _sp_div_d (a : mp_int) (d : Z) (r : option mp_int) : M (option mp_int * Z) :=
  '(w, dp) ← for_down (Z.to_nat (mp_used a)) (fun i '(w, dp) =>
      x ← peek (mp_dp a) i;
      let t := sp_div_word (w32 w) x d in
      let w := Z.lor (w64 (Z.shiftl w 32)) x in
      dp ← poke_opt dp i t;
      mret (w64 (w - t * d), dp)) (0, mp_dp <$> r);
  mret ((fun r => sp_clamp (set_digits (mp_used a) (default [] dp) r)) <$> r, w32 w).

(** sp_int.c:7302-7347, [sp_div_d] *)
Definition sp_div_d (a : mp_int) (d : Z) (r : option mp_int) (rem : bool) : M (Z * option mp_int * Z) :=
  if d =? 0 then mret (MP_VAL, r, 0)
  else if match r with Some r => mp_size r <? mp_used a | None => false end then mret (MP_VAL, r, 0)
  else
    '(r, rem) ←
      (if d =? 3 then _sp_div_3 a r rem
       else if d =? 10 then _sp_div_10 a r rem
       else if d <=? 0xffff then _sp_div_small a d r rem
       else _sp_div_d a d r);
    mret (0, r, rem).

(** sp_int.c:7357-7389, [_sp_mod_d] *)
Definition _sp_mod_d (a : mp_int) (d : Z) : M Z :=
  w ← for_down (Z.to_nat (mp_used a)) (fun i w =>
      x ← peek (mp_dp a) i;
      let t := sp_div_word (w32 w) x d in
      let w := Z.lor (w64 (Z.shiftl w 32)) x in
      mret (w64 (w - t * d))) 0;
  mret (w32 w).

(** sp_int.c:7404-7460, [sp_mod_d] *)
Definition sp_mod_d (a : mp_int) (d : Z) : M (Z * Z) :=
  if d =? 0 then mret (MP_VAL, 0)
  else if Z.land d (d - 1) =? 0 then
    if mp_used a =? 0 then mret (0, 0) else x ← peek (mp_dp a) 0; mret (0, Z.land x (d - 1))
  else if d =? 3 then '(_, rem) ← _sp_div_3 a None true; mret (0, rem)
  else if d =? 10 then '(_, rem) ← _sp_div_10 a None true; mret (0, rem)
  else if d <=? 0xffff then '(_, rem) ← _sp_div_small a d None true; mret (0, rem)
  else rem ← _sp_mod_d a d; mret (0, rem).

(** sp_int.c:7471-7489, [_sp_div_2] *)
Definition _sp_div_2 (a r : mp_int) : M mp_int :=
  dp ← for_range 0 (mp_used a - 1) (fun i dp =>
      x ← peek (mp_dp a) i;
      y ← peek (mp_dp a) (i + 1);
      poke dp i (Z.lor (Z.shiftr x 1) (w32 (Z.shiftl y 31)))) (mp_dp r);
  let i := Z.max 0 (mp_used a - 1) in
  x ← peek (mp_dp a) i;
  let v := Z.shiftr x 1 in
  dp ← poke dp i v;
  mret (set_digits (w16 (i + 1 - Z.shiftr (w32 (v - 1)) 31)) dp r).

(** sp_int.c:7500-7518, [sp_div_2] *)
Definition sp_div_2 (a r : mp_int) : M (Z * mp_int) :=
  if mp_size r <? mp_used a then mret (MP_VAL, r) else r ← _sp_div_2 a r; mret (0, r).

(** sp_int.c:7535-7619, [sp_div_2_mod_ct]; the digits of [a] above its [mp_used] are
    read and masked. *)
Definition sp_div_2_mod_ct (a m r : mp_int) : M (Z * mp_int) :=
  if mp_size r <? mp_used m + 1 then mret (MP_VAL, r)
  else
    a0 ← peek (mp_dp a) 0;
    let mask := w32 (0 - Z.land a0 1) in
    '(w, dp) ← for_range 0 (mp_used m) (fun i '(w, dp) =>
        let mask_a := w32 (0 - Z.b2z (i <? mp_used a)) in
        y ← peek (mp_dp m) i;
        x ← peek (mp_dp a) i;
        put_carry dp i (w64 (w + Z.land y mask + Z.land x mask_a))) (0, mp_dp r);
    dp ← poke dp (mp_used m) (w32 w);
    let r := set_digits (w16 (mp_used m + 1)) dp r in
    r ← _sp_div_2 r r;
    mret (0, sp_clamp_ct r).

(** ** Addition and subtraction *)

(** sp_int.c:7634-7765, [_sp_add_off] *)
Definition _sp_add_off (a b r : mp_int) : M mp_int :=
  let both := Z.min (mp_used a) (mp_used b) in
  '(t, dp) ← for_range 0 both (fun i '(t, dp) =>
      x ← peek (mp_dp a) i; y ← peek (mp_dp b) i; put_carry dp i (w64 (t + x + y))) (0, mp_dp r);
  '(t, dp) ← for_range both (mp_used a) (fun i '(t, dp) =>
      x ← peek (mp_dp a) i; put_carry dp i (w64 (t + x))) (t, dp);
  let i := Z.max both (mp_used a) in
  '(t, dp) ← for_range i (mp_used b) (fun i '(t, dp) =>
      y ← peek (mp_dp b) i; put_carry dp i (w64 (t + y))) (t, dp);
  let i := Z.max i (mp_used b) in
  dp ← poke dp i (w32 t);
  mret (sp_clamp (set_digits (w16 (i + Z.b2z (negb (t =? 0)))) dp r)).

(** sp_int.c:7781-7849, [_sp_sub_off]; the word is signed. *)
Definition _sp_sub_off (a b r : mp_int) (o : Z) : M mp_int :=
  dp ← copy_digits (mp_dp a) 0 (Z.min o (mp_used a)) (mp_dp r);
  let i := Z.min o (mp_used a) in
  let n := Z.min (mp_used a - i) (mp_used b) in
  '(t, dp) ← for_range 0 n (fun j '(t, dp) =>
      x ← peek (mp_dp a) (i + j); y ← peek (mp_dp b) j; put_carry dp (i + j) (t + x - y)) (0, dp);
  '(_, dp) ← for_range (i + n) (mp_used a) (fun i '(t, dp) =>
      x ← peek (mp_dp a) i; put_carry dp i (t + x)) (t, dp);
  mret (sp_clamp (set_digits (mp_used a) dp r)).

(** sp_int.c:7863-7907, [sp_add] *)
Definition sp_add (a b r : mp_int) : M (Z * mp_int) :=
  if (mp_size r <=? mp_used a) || (mp_size r <=? mp_used b) then mret (MP_VAL, r)
  else r ← _sp_add_off a b r; mret (0, r).

(** sp_int.c:7923-7975, [sp_sub] *)
Definition sp_sub (a b r : mp_int) : M (Z * mp_int) :=
  if (mp_size r <? mp_used a) || (mp_size r <? mp_used b) then mret (MP_VAL, r)
  else r ← _sp_sub_off a b r 0; mret (0, r).

(** sp_int.c:8211-8357, [sp_addmod_ct]; [r_is_m] says that the result is to go to the
    modulus itself.  The masks are counted down to zero where an operand ends. *)
Definition sp_addmod_ct (a b m r : mp_int) (r_is_m : bool) : M (Z * mp_int) :=
  if mp_size r <? mp_used m then mret (MP_VAL, r)
  else if r_is_m then mret (MP_VAL, r)
  else
    '(w, s, _, _, dp) ← for_range 0 (mp_used m) (fun i '(w, s, mask_a, mask_b, dp) =>
        let mask_a := w32 (mask_a + Z.b2z (i =? mp_used a)) in
        let mask_b := w32 (mask_b + Z.b2z (i =? mp_used b)) in
        x ← peek (mp_dp a) i;
        y ← peek (mp_dp b) i;
        let w := w + Z.land x mask_a + Z.land y mask_b in
        dp ← poke dp i (w32 w);
        z ← peek (mp_dp m) i;
        let s := s + w32 w - z in
        mret (Z.shiftr w 32, Z.shiftr s 32, mask_a, mask_b, dp)) (0, 0, 0xffffffff, 0xffffffff, mp_dp r);
    let s := s + w32 w in
    let mask := w32 (0 - Z.b2z (0 <=? s)) in
    '(_, dp) ← for_range 0 (mp_used m) (fun i '(w, dp) =>
        x ← peek dp i;
        z ← peek (mp_dp m) i;
        put_carry dp i (w + x - Z.land z mask)) (0, dp);
    mret (0, sp_clamp_ct (set_digits (mp_used m) dp r)).

(** sp_int.c:8377-8469, [_sp_submod_ct] *)
Definition _sp_submod_ct (a b m : mp_int) (max_size : Z) (r : mp_int) : M mp_int :=
  '(w, _, _, dp) ← for_range 0 max_size (fun i '(w, mask_a, mask_b, dp) =>
      let mask_a := w32 (mask_a + Z.b2z (i =? mp_used a)) in
      let mask_b := w32 (mask_b + Z.b2z (i =? mp_used b)) in
      x ← peek (mp_dp a) i;
      y ← peek (mp_dp b) i;
      '(w, dp) ← put_carry dp i (w + Z.land x mask_a - Z.land y mask_b);
      mret (w, mask_a, mask_b, dp)) (0, 0xffffffff, 0xffffffff, mp_dp r);
  let mask := w32 (0 - Z.b2z (w <? 0)) in
  '(_, dp) ← for_range 0 (mp_used m) (fun i '(w, dp) =>
      x ← peek dp i;
      z ← peek (mp_dp m) i;
      put_carry dp i (w + x + Z.land z mask)) (0, dp);
  mret (sp_clamp_ct (set_digits (w16 (mp_used m)) dp r)).

(** sp_int.c:8488-8516, [sp_submod_ct] *)
Definition sp_submod_ct (a b m r : mp_int) (r_is_m : bool) : M (Z * mp_int) :=
  if mp_size r <? mp_used m then mret (MP_VAL, r)
  else if r_is_m then mret (MP_VAL, r)
  else r ← _sp_submod_ct a b m (mp_used m) r; mret (0, r).

(** ** The value of the low digits *)

Notation "l .[ i ]" := (l !!! Z.to_nat i) (at level 2, left associativity, format "l .[ i ]") : zr_scope.
Notation "l .[ i := v ]" := (<[Z.to_nat i := v]> l) (at level 2, left associativity, format "l .[ i := v ]") : zr_scope.

(** The weight of the digit at [n], and the value of the digits below [n]. *)
Definition pw (n : Z) : Z := 2 ^ (32 * n).
Definition val (dp : list Z) (n : Z) : Z := digits_val (take (Z.to_nat n) dp).

Lemma pw_0 : pw 0 = 1.
Proof. done. Qed.

Lemma pw_add n k : 0 <= n -> 0 <= k -> pw (n + k) = pw n * pw k.
Proof. intros. unfold pw. rewrite <-Z.pow_add_r by lia. f_equal. lia. Qed.

Lemma pw_succ n : 0 <= n -> pw (n + 1) = 2 ^ 32 * pw n.
Proof. intros. rewrite pw_add by lia. change (pw 1) with (2 ^ 32). lia. Qed.

Lemma pw_pos n : 0 <= n -> 0 < pw n.
Proof. intros. apply Z.pow_pos_nonneg; lia. Qed.

Lemma pw_le n k : 0 <= n <= k -> pw n <= pw k.
Proof. intros. apply Z.pow_le_mono_r; lia. Qed.

Lemma val_0 dp : val dp 0 = 0.
Proof. done. Qed.

Lemma val_succ dp n : 0 <= n < len dp -> val dp (n + 1) = val dp n + pw n * dp.[n].
Proof.
  intros H. unfold val, pw. replace (Z.to_nat (n + 1)) with (S (Z.to_nat n)) by lia.
  rewrite digits_val_snoc by (unfold len in H; lia). by rewrite Z2Nat.id by lia.
Qed.

Lemma val_range dp n : digits_ok dp -> 0 <= n -> 0 <= val dp n < pw n.
Proof.
  intros Hd Hn. unfold val. pose proof (digits_val_range _ (digits_ok_take (Z.to_nat n) _ Hd)) as [H1 H2].
  split; [done|]. eapply Z.lt_le_trans; [exact H2|]. apply Z.pow_le_mono_r; [lia|].
  unfold len. rewrite length_take. lia.
Qed.

Lemma digit_range dp i : digits_ok dp -> 0 <= dp.[i] < 2 ^ 32.
Proof. apply digits_ok_lookup. Qed.

Lemma len_poke (dp : list Z) i v : len dp.[i := v] = len dp.
Proof. unfold len. by rewrite length_insert. Qed.

Lemma digits_ok_poke dp i v : digits_ok dp -> 0 <= v < 2 ^ 32 -> digits_ok dp.[i := v].
Proof. intros H Hv. by apply Forall_insert. Qed.

Lemma digit_poke (dp : list Z) i v : 0 <= i < len dp -> dp.[i := v].[i] = v.
Proof. intros H. apply list_lookup_total_insert_eq. unfold len in H. lia. Qed.

Lemma digit_poke_ne (dp : list Z) i j v : 0 <= i -> 0 <= j -> i <> j -> dp.[i := v].[j] = dp.[j].
Proof. intros. apply list_lookup_total_insert_ne. lia. Qed.

Lemma val_poke_ge dp i n v : 0 <= n <= i -> val dp.[i := v] n = val dp n.
Proof. intros H. unfold val. by rewrite take_insert_ge by lia. Qed.

(** The digits from [o] on. *)
Lemma digit_drop (dp : list Z) o i : 0 <= o -> 0 <= i -> (drop (Z.to_nat o) dp).[i] = dp.[o + i].
Proof. intros. rewrite lookup_total_drop. f_equal. lia. Qed.

Lemma len_drop (dp : list Z) o : 0 <= o <= len dp -> len (drop (Z.to_nat o) dp) = len dp - o.
Proof. unfold len. rewrite length_drop. lia. Qed.

Lemma val_split dp o k : 0 <= o -> 0 <= k -> o + k <= len dp -> val dp (o + k) = val dp o + pw o * val (drop (Z.to_nat o) dp) k.
Proof.
  intros Ho Hk Hl. unfold val. rewrite Z2Nat.inj_add, <-take_take_drop by lia. rewrite digits_val_app. f_equal. f_equal.
  unfold pw, len in *. rewrite length_take. f_equal. lia.
Qed.

(** Writing the digit above those of a value. *)
Lemma val_poke dp i v : 0 <= i < len dp -> val dp.[i := v] (i + 1) = val dp i + pw i * v.
Proof. intros H. rewrite val_succ by (rewrite len_poke; lia). by rewrite val_poke_ge, digit_poke by lia. Qed.

(** The step of every loop with a carry, signed or not. *)
Lemma val_carry dp i t : 0 <= i < len dp ->
  val dp.[i := w32 t] (i + 1) + pw (i + 1) * Z.shiftr t 32 = val dp i + pw i * t.
Proof.
  intros H. rewrite val_poke, pw_succ, w32_mod, Z.shiftr_div_pow2 by lia.
  pose proof (Z.div_mod t (2 ^ 32) ltac:(lia)). nia.
Qed.

#[export] Hint Resolve digits_ok_poke : wf.

(** ** Objects and the numbers in them *)

(** An object of [n] digits, whatever it holds. *)
Record sp_box (n : Z) (a : mp_int) : Prop := {
  sb_size : mp_size a = n;
  sb_n : 1 <= n <= SP_INT_DIGITS;
  sb_len : n <= len (mp_dp a);
  sb_digits : digits_ok (mp_dp a) }.

(** An object of [n] digits that holds the integer [v]. *)
Record sp_is (n v : Z) (a : mp_int) : Prop := {
  si_box : sp_box n a;
  si_used : 0 <= mp_used a <= n;
  si_top : mp_used a = 0 \/ (mp_dp a).[mp_used a - 1] <> 0;
  si_val : val (mp_dp a) (mp_used a) = v }.

(** ... with zeros on top, perhaps. *)
Record sp_raw (n v : Z) (a : mp_int) : Prop := {
  sw_box : sp_box n a;
  sw_used : 0 <= mp_used a <= n;
  sw_val : val (mp_dp a) (mp_used a) = v }.

Lemma sp_is_raw n v a : sp_is n v a -> sp_raw n v a.
Proof. by intros []. Qed.

Lemma sp_raw_range n v a : sp_raw n v a -> 0 <= v < pw (mp_used a).
Proof. intros [[] Hu <-]. apply val_range; [done|lia]. Qed.

Lemma sp_is_num n v a : sp_is n v a -> sp_num a.
Proof. intros [[] Hu Ht _]. split; [lia|done|done]. Qed.

Lemma sp_is_sp_val n v a : sp_is n v a -> sp_val a = v.
Proof. by intros []. Qed.

Lemma sp_ok_is a : sp_ok a -> sp_is SP_INT_DIGITS (sp_val a) a.
Proof. intros [Hs Hl Hu Hd Ht]. split; [split; try done; lia|done|done|done]. Qed.

Lemma sp_is_ok v a : sp_is SP_INT_DIGITS v a -> len (mp_dp a) = SP_INT_DIGITS -> sp_ok a.
Proof. intros [[] Hu Ht Hv] Hl. by split. Qed.

#[export] Hint Resolve si_box sw_box sp_is_num sp_is_raw : wf.

Section Facts.
Context {n v : Z} {a : mp_int} (H : sp_is n v a).

Lemma sp_is_range : 0 <= v < pw (mp_used a).
Proof. destruct H as [[] Hu _ <-]. apply val_range; [done|lia]. Qed.

Lemma sp_is_top : mp_used a <> 0 -> pw (mp_used a - 1) <= v.
Proof. intros Hn. rewrite <-(sp_is_sp_val _ _ _ H). by apply sp_val_top_num; [eapply sp_is_num|]. Qed.

Lemma sp_is_0 : mp_used a = 0 <-> v = 0.
Proof.
  pose proof sp_is_range as Hr. split; intros E; [rewrite E in Hr; change (pw 0) with 1 in Hr; lia|].
  destruct (Z.eq_dec (mp_used a) 0) as [|Hn]; [done|]. pose proof (sp_is_top Hn).
  destruct H as [_ Hu _ _]. pose proof (pw_pos (mp_used a - 1) ltac:(lia)). lia.
Qed.

Lemma sp_is_used k : 0 <= k -> v < pw k -> mp_used a <= k.
Proof.
  intros Hk Hv. destruct (Z_le_gt_dec (mp_used a) k) as [|Hgt]; [done|].
  pose proof (sp_is_top ltac:(lia)). pose proof (pw_le k (mp_used a - 1) ltac:(lia)). lia.
Qed.

(** The digits a number does not use count as zeros. *)
Lemma sp_is_val_used : val (mp_dp a) (mp_used a) = v.
Proof. by destruct H. Qed.
End Facts.

(** Equal numbers use the same digits. *)
Lemma sp_is_same_used n n' v a a' : sp_is n v a -> sp_is n' v a' -> mp_used a = mp_used a'.
Proof.
  intros H H'. apply Z.le_antisymm.
  - apply (sp_is_used H); [destruct H'; lia|apply (sp_is_range H')].
  - apply (sp_is_used H'); [destruct H; lia|apply (sp_is_range H)].
Qed.

Lemma sp_box_poke n a i v u : sp_box n a -> 0 <= v < 2 ^ 32 -> sp_box n (set_digits u (mp_dp a).[i := v] a).
Proof. intros [] Hv. split; cbn; [done|done|by rewrite len_poke|by apply digits_ok_poke]. Qed.

Lemma sp_box_set n a u dp : sp_box n a -> len dp = len (mp_dp a) -> digits_ok dp -> sp_box n (set_digits u dp a).
Proof. intros [] Hl Hd. split; cbn; [done|done|by rewrite Hl|done]. Qed.

(** Dropping the zeros on top. *)
Lemma sp_top_is n a (t := top_digit (Z.to_nat (mp_used a)) (mp_dp a)) : sp_box n a -> 0 <= mp_used a <= n ->
  0 <= t + 1 <= n /\ sp_is n (val (mp_dp a) (mp_used a)) (set_digits (t + 1) (mp_dp a) a).
Proof.
  intros Hb Hu. pose proof Hb as [Hs Hn Hl Hd].
  destruct (top_digit_spec (mp_dp a) (Z.to_nat (mp_used a))) as (H1 & H2 & H3); [unfold len in Hl; lia|].
  subst t. set (t := top_digit _ _) in *. split; [lia|]. split; [by apply sp_box_set|cbn; lia| |unfold val; cbn; by rewrite <-H3].
  cbn. destruct (Z.eq_dec t (-1)) as [->|]; [by left|right]. replace (t + 1 - 1) with t by lia. apply H2. lia.
Qed.

Lemma sp_clamp_is n a : sp_box n a -> 0 <= mp_used a <= n -> sp_is n (val (mp_dp a) (mp_used a)) (sp_clamp a).
Proof.
  intros Hb Hu. pose proof (sb_n _ _ Hb) as Hn. change SP_INT_DIGITS with 35 in Hn. destruct (sp_top_is n a Hb Hu) as [Ht Hi].
  unfold sp_clamp. destruct (Z.ltb_spec 0 (mp_used a)) as [Hp|Hp]; [by rewrite w16_id by lia|].
  assert (mp_used a = 0) as E by lia. split; [done|done|by left|done].
Qed.

Lemma sp_clamp_ct_is n a : sp_box n a -> 0 <= mp_used a <= n -> sp_is n (val (mp_dp a) (mp_used a)) (sp_clamp_ct a).
Proof.
  intros Hb Hu. pose proof Hb as [Hs Hn Hl Hd]. change SP_INT_DIGITS with 35 in Hn. unfold sp_clamp_ct.
  pose proof (clamp_ct_loop_spec (mp_dp a) (Z.to_nat (mp_used a)) Hd ltac:(lia)) as Ec.
  rewrite Z2Nat.id in Ec by lia. rewrite Ec. by apply sp_top_is.
Qed.

Lemma sp_zero_is n a : sp_box n a -> sp_is n 0 (_sp_zero a).
Proof.
  intros [Hs Hn Hl Hd]. split; [|cbn; lia|by left|done].
  split; cbn; [done|done|by rewrite (len_poke _ 0)|by apply (digits_ok_poke _ 0)].
Qed.

Lemma sp_set_is n a d : sp_box n a -> 0 <= d < 2 ^ 32 -> sp_is n d (_sp_set a d).
Proof.
  intros Hb Hd. pose proof Hb as [Hs Hn Hl Hok]. change (_sp_set a d) with (set_digits (Z.b2z (0 <? d)) (mp_dp a).[0 := d] a).
  split; cbn [set_digits mp_used mp_dp]; [by apply sp_box_poke|destruct (0 <? d); cbn; lia| |].
  - destruct (Z.ltb_spec 0 d); [right|by left]. cbn [Z.b2z]. change (1 - 1) with 0. rewrite digit_poke by lia. lia.
  - destruct (Z.ltb_spec 0 d); cbn [Z.b2z]; [|rewrite val_0; lia]. change 1 with (0 + 1) at 1.
    rewrite val_poke, val_0, pw_0 by lia. lia.
Qed.

Lemma val_ext a b n : 0 <= n -> n <= len a -> n <= len b -> (forall i, 0 <= i < n -> a.[i] = b.[i]) -> val a n = val b n.
Proof.
  intros Hn. pattern n. apply natlike_ind; [done| |done]. clear n Hn. intros n Hn IH Ha Hb Hab.
  unfold Z.succ in *. rewrite !val_succ, Hab by lia. rewrite IH; [done|lia|lia|]. intros. apply Hab. lia.
Qed.

Lemma val_splice (dp src : list Z) n : 0 <= n <= len src -> len src <= len dp -> val (splice dp 0 src) n = val src n.
Proof. intros H Hl. unfold val, splice, len in *. change (take (Z.to_nat 0) dp) with (@nil Z). cbn [app]. by rewrite take_app_le by lia. Qed.

Lemma val_take (dp : list Z) k n : 0 <= n <= k -> val (take (Z.to_nat k) dp) n = val dp n.
Proof. intros H. unfold val. rewrite take_take. f_equal. f_equal. lia. Qed.

Lemma sp_copy_raw n m v a r : sp_raw m v a -> sp_box n r -> mp_used a <= n ->
  sp_raw n v (_sp_copy a r) /\ mp_used (_sp_copy a r) = mp_used a /\
  (forall i, 0 <= i < mp_used a -> (mp_dp (_sp_copy a r)).[i] = (mp_dp a).[i]).
Proof.
  intros [[Hs _ Hl Hd] Hua Hv] Hr Hu. pose proof Hr as [Hrs Hrn Hrl Hrd]. unfold _sp_copy.
  destruct (Z.eqb_spec (mp_used a) 0) as [E|E].
  { rewrite E in *. subst v. split; [|split; [done|lia]]. apply sp_is_raw. by apply (sp_zero_is n). }
  set (src := take (Z.to_nat (mp_used a)) (mp_dp a)). assert (Hsl : len src = mp_used a).
  { unfold src, len in *. rewrite length_take. lia. }
  assert (forall i, 0 <= i < mp_used a -> (splice (mp_dp r) 0 src).[i] = (mp_dp a).[i]) as Hi.
  { intros i Hi. unfold splice. change (take (Z.to_nat 0) (mp_dp r)) with (@nil Z). cbn [app]. rewrite lookup_total_app_l by (unfold len in *; lia).
    unfold src. by apply lookup_total_take_lt; lia. }
  split; [|done]. split; cbn [set_digits mp_used mp_dp].
  - apply sp_box_set; [done|apply len_splice; lia|]. apply digits_ok_splice; [done|by apply digits_ok_take].
  - lia.
  - rewrite val_splice by lia. unfold src. rewrite val_take by lia. done.
Qed.

Lemma sp_copy_is n m v a r : sp_is m v a -> sp_box n r -> mp_used a <= n -> sp_is n v (_sp_copy a r).
Proof.
  intros Ha Hr Hu. destruct (sp_copy_raw n m v a r (sp_is_raw _ _ _ Ha) Hr Hu) as ([Hb Hu' Hv'] & E & Hi). destruct Ha as [_ Hua Ht _].
  split; [done|done| |done]. rewrite E. destruct Ht as [|Ht]; [by left|]. destruct (Z.eq_dec (mp_used a) 0); [by left|]. right. by rewrite Hi by lia.
Qed.

Lemma sp_copy_spec n m v a r : sp_is m v a -> sp_box n r -> mp_used a <= n ->
  exists r', sp_copy a r = (0, r') /\ sp_is n v r'.
Proof.
  intros Ha Hr Hu. unfold sp_copy. rewrite (sb_size _ _ Hr), (proj2 (Z.ltb_ge _ _)) by lia. eexists. split; [done|].
  by eapply sp_copy_is.
Qed.

(** ** The operations compute *)

Section Rules.
Context {B : Type} {x : mode} (e : env) (d : nat).

Lemma calc_get (dp : list Z) i (k : Z -> M B) Q : 0 <= i < len dp ->
  calc_in x e d (k dp.[i]) Q -> calc_in x e d (peek dp i ≫= k) Q.
Proof.
  intros Hi H. unfold peek. calc_steps; try lia. unfold sub. change (Z.to_nat 1) with 1%nat.
  rewrite (take_drop_lookup dp (Z.to_nat i) 0) by (unfold len in Hi; lia). exact H.
Qed.

Lemma calc_poke (dp : list Z) i v (k : list Z -> M B) Q : 0 <= i < len dp ->
  calc_in x e d (k dp.[i := v]) Q -> calc_in x e d (poke dp i v ≫= k) Q.
Proof.
  intros Hi H. apply calc_wr; [lia|unfold len at 1; cbn; lia|]. unfold splice. cbn [length app].
  replace (take (Z.to_nat i) dp ++ v :: drop (Z.to_nat i + 1) dp) with dp.[i := v]; [done|].
  rewrite insert_take_drop by (unfold len in Hi; lia). by rewrite Nat.add_1_r.
Qed.

Lemma calc_put_carry dp i t (k : Z * list Z -> M B) Q : 0 <= i < len dp ->
  calc_in x e d (k (Z.shiftr t 32, dp.[i := w32 t])) Q -> calc_in x e d (put_carry dp i t ≫= k) Q.
Proof. intros Hi H. unfold put_carry. calc_step. apply calc_poke; [done|]. calc_step. exact H. Qed.
End Rules.

Lemma calc_poke_end {x : mode} e dp i v (Q : list Z -> Prop) : 0 <= i < len dp -> Q dp.[i := v] ->
  calc_in x e 0 (poke dp i v) Q.
Proof.
  intros Hi HQ. apply (calc_mono e 0 _ (eq dp.[i := v])); [|by intros ? <-].
  intros w He Hm Hd. pose proof (calc_poke (x := x) e 0 dp i v mret (eq dp.[i := v]) Hi (calc_ret _ _ _ eq_refl) w He Hm Hd) as H.
  unfold wp, mbind, M_bind in *. by destruct (poke dp i v w).
Qed.

Lemma calc_put_carry_end {x : mode} e dp i t (Q : Z * list Z -> Prop) : 0 <= i < len dp ->
  Q (Z.shiftr t 32, dp.[i := w32 t]) -> calc_in x e 0 (put_carry dp i t) Q.
Proof. intros Hi HQ. unfold put_carry. apply calc_poke; [done|]. by calc_step. Qed.

(** Symbolic execution, with the bounds of the digits read and written. *)
Ltac sp_step :=
  lazymatch goal with
  | |- calc_in _ _ _ (peek _ _ ≫= _) _ => apply calc_get; [rewrite ?len_poke; lia|]
  | |- calc_in _ _ _ (poke _ _ _ ≫= _) _ => apply calc_poke; [rewrite ?len_poke; lia|]
  | |- calc_in _ _ _ (put_carry _ _ _ ≫= _) _ => apply calc_put_carry; [rewrite ?len_poke; lia|]
  | |- calc_in _ _ 0 (poke _ _ _) _ => apply calc_poke_end; [rewrite ?len_poke; lia|]
  | |- calc_in _ _ 0 (put_carry _ _ _) _ => apply calc_put_carry_end; [rewrite ?len_poke; lia|]
  | |- calc_in _ _ _ ((_ ≫= _) ≫= _) _ => apply calc_assoc
  | |- calc_in _ _ _ (mret _ ≫= _) _ => apply calc_bind_ret
  | |- calc_in _ _ 0 (mret _) _ => apply calc_ret
  end.

Ltac sp_steps := repeat first [sp_step | progress cbv beta iota zeta].

(** An object from the heap. *)
Lemma calc_alloc {A} e d s (k : Z * bool -> M A) Q : s <= SP_INT_DIGITS -> calc e (S d) (k (0, true)) Q ->
  (oom e -> calc e d (k (MP_MEM, false)) Q) -> calc e d (ALLOC_SP_INT s 0 ≫= k) Q.
Proof.
  intros Hs Hk Hm. unfold ALLOC_SP_INT. rewrite (proj2 (Z.ltb_ge SP_INT_DIGITS s)) by done. cbn [Z.eqb andb].
  calc_step. calc_step; calc_step; [exact Hk|by apply Hm].
Qed.

Lemma calc_alloc_failed {A} e d s err (k : Z * bool -> M A) Q : err <> 0 -> calc e d (k (err, false)) Q ->
  calc e d (ALLOC_SP_INT s err ≫= k) Q.
Proof. intros He Hk. unfold ALLOC_SP_INT. rewrite (proj2 (Z.eqb_neq err 0)) by done. cbn [andb]. rewrite (proj2 (Z.eqb_neq err 0)) by done. exact Hk. Qed.

(** After an error the rest is skipped. *)
Ltac sp_skip := repeat first [progress change (MP_MEM =? 0) with false | progress change (MP_VAL =? 0) with false | progress change (0 =? 0) with true
  | progress cbn [negb andb orb] | progress cbv beta iota zeta | calc_step].

(** *** Loops that carry

    After the digits below [i], the digits stored and the carry stand for [R i]. *)
Definition carrying (l : Z) (lo hi : Z) (R : Z -> Z) (i : Z) (s : Z * list Z) : Prop :=
  len s.2 = l /\ digits_ok s.2 /\ lo <= s.1 <= hi /\ val s.2 i + pw i * s.1 = R i.

Lemma carrying_step l lo hi R i t dp t' : 0 <= i < l -> carrying l lo hi R i (t, dp) ->
  lo <= Z.shiftr t' 32 <= hi -> R (i + 1) = R i + pw i * (t' - t) ->
  carrying l lo hi R (i + 1) (Z.shiftr t' 32, dp.[i := w32 t']).
Proof.
  intros Hi (Hl & Hd & Ht & Hv) Ht' HR. cbn [fst snd] in *. split; cbn [fst snd].
  - by rewrite len_poke.
  - split; [apply digits_ok_poke; [done|apply w32_range]|]. split; [done|]. rewrite val_carry by lia. rewrite HR. lia.
Qed.

Lemma carrying_init dp lo hi R : digits_ok dp -> lo <= 0 <= hi -> R 0 = 0 -> carrying (len dp) lo hi R 0 (0, dp).
Proof. intros Hd H0 HR. split; [done|]. split; [done|]. split; [done|]. rewrite HR. done. Qed.

Lemma shiftr_32_range t a b : a * 2 ^ 32 <= t < (b + 1) * 2 ^ 32 -> a <= Z.shiftr t 32 <= b.
Proof. intros H. rewrite Z.shiftr_div_pow2 by lia. Z.div_mod_to_equations. lia. Qed.

(** The digits below [i] of a number of [u] digits. *)
Definition low (dp : list Z) (u i : Z) : Z := val dp (Z.min i u).

Lemma low_in dp u i : 0 <= i < u -> u <= len dp -> low dp u (i + 1) = low dp u i + pw i * dp.[i].
Proof. intros. unfold low. rewrite !Z.min_l by lia. by rewrite val_succ by lia. Qed.

Lemma low_0 dp u : 0 <= u -> low dp u 0 = 0.
Proof. intros. unfold low. by rewrite Z.min_l, val_0 by lia. Qed.

Lemma low_out dp u i : u <= i -> low dp u i = val dp u.
Proof. intros. unfold low. by rewrite Z.min_r by lia. Qed.

Lemma sp_clamp_dp a : mp_dp (sp_clamp a) = mp_dp a.
Proof. unfold sp_clamp. by destruct (0 <? mp_used a). Qed.

(** A result with the zeros on top dropped. *)
Lemma sp_finish n v u dp r : sp_box n r -> len dp = len (mp_dp r) -> digits_ok dp -> 0 <= u <= n -> val dp u = v ->
  sp_is n v (sp_clamp (set_digits u dp r)).
Proof. intros Hr Hl Hd Hu <-. by apply (sp_clamp_is n (set_digits u dp r)); [apply sp_box_set|]. Qed.

Section Add.
Context (e : env).

(** Copying digits. *)
Lemma copy_digits_is {B} d src lo hi dp (k : list Z -> M B) Q : 0 <= lo -> hi <= len src -> hi <= len dp ->
  digits_ok src -> digits_ok dp ->
  (forall dp', len dp' = len dp -> digits_ok dp' -> (forall i, lo <= i < hi -> dp'.[i] = src.[i]) ->
    (forall i, 0 <= i < lo \/ Z.max lo hi <= i -> dp'.[i] = dp.[i]) -> calc e d (k dp') Q) ->
  calc e d (copy_digits src lo hi dp ≫= k) Q.
Proof.
  intros Hlo Hs Hdp Hsok Hdok Hk. unfold copy_digits.
  apply (calc_for_range_max e (fun i dp' => len dp' = len dp /\ digits_ok dp' /\ (forall j, lo <= j < i -> dp'.[j] = src.[j]) /\
    (forall j, 0 <= j < lo \/ i <= j -> dp'.[j] = dp.[j]))).
  - split; [done|]. split; [done|]. split; [intros; lia|done].
  - intros i dp' Hi (Hl & Hd & H1 & H2). sp_steps. split; [by rewrite len_poke|]. split; [apply digits_ok_poke; [done|by apply digit_range]|].
    split; intros j Hj.
    + destruct (Z.eq_dec j i) as [->|]; [by rewrite digit_poke by lia|]. rewrite digit_poke_ne by lia. apply H1. lia.
    + rewrite digit_poke_ne by lia. apply H2. lia.
  - intros dp' (Hl & Hd & H1 & H2). apply Hk; [done|done| |done]. intros i Hi. apply H1. lia.
Qed.

(** ... the digits above the ones in use are zeros. *)
Lemma _sp_sub_off_raw na nb n va vb a b r o : sp_raw na va a -> sp_is nb vb b -> sp_box n r ->
  0 <= o <= mp_used a -> mp_used a <= n -> pw o * vb <= va ->
  calc e 0 (_sp_sub_off a b r o) (fun r' =>
    sp_is n (va - pw o * vb) r' /\ len (mp_dp r') = len (mp_dp r) /\ val (mp_dp r') (mp_used a) = va - pw o * vb).
Proof.
  intros Ha Hb Hr Ho Hn Hle. pose proof (sp_raw_range _ _ _ Ha) as Hva. pose proof (sp_is_range Hb) as Hvb.
  assert (Hubo : mp_used b <= mp_used a - o).
  { apply (sp_is_used Hb); [lia|]. pose proof (pw_pos o ltac:(lia)).
    replace (mp_used a) with (o + (mp_used a - o)) in Hva by lia. rewrite pw_add in Hva by lia. nia. }
  destruct Ha as [[_ _ Hal Had] Hua <-], Hb as [[_ _ Hbl Hbd] Hub _ <-]. pose proof Hr as [Hs Hn35 Hl Hd].
  unfold _sp_sub_off. set (ua := mp_used a) in *. set (ub := mp_used b) in *. rewrite (Z.min_l o), (Z.min_r _ ub) by lia.
  apply copy_digits_is; [lia..|done|done|]. intros dp0 Hl0 Hd0 Hc _.
  set (R := fun i => val (mp_dp a) i - pw o * low (mp_dp b) ub (i - o)). set (inv := carrying (len (mp_dp r)) (-1) 0 R).
  assert (Hstep : forall i t dp x y, 0 <= i < n -> inv i (t, dp) -> 0 <= x < 2 ^ 32 -> 0 <= y < 2 ^ 32 ->
    R (i + 1) = R i + pw i * (x - y) -> inv (i + 1) (Z.shiftr (t + x - y) 32, dp.[i := w32 (t + x - y)])).
  { intros i t dp x y Hi Hinv Hx Hy HR. pose proof Hinv as (_ & _ & Ht & _). cbn [fst] in Ht.
    apply (carrying_step _ _ _ _ _ t); [lia|done|apply shiftr_32_range; lia|]. rewrite HR. f_equal. f_equal. lia. }
  apply (calc_for_range e (fun j => inv (o + j))); [lia| | |].
  { split; [done|]. split; [done|]. split; [done|]. cbn [fst snd]. unfold R. rewrite !Z.add_0_r, Z.sub_diag.
    rewrite low_0 by lia. rewrite (val_ext dp0 (mp_dp a)); [lia|lia|lia|lia|]. intros. apply Hc. lia. }
  { intros j [t dp] Hj Hinv. pose proof Hinv as (Hlen & _). cbn [snd] in Hlen. sp_steps. rewrite Z.add_assoc.
    apply Hstep; [lia|done|by apply digit_range|by apply digit_range|]. unfold R. rewrite val_succ by lia.
    replace (o + j + 1 - o) with (j + 1) by lia. replace (o + j - o) with j by lia. rewrite low_in by lia. rewrite pw_add by lia. lia. }
  intros [t dp] Hinv. apply (calc_for_range e inv); [lia|done| |].
  { intros i [t' dp'] Hi Hinv'. pose proof Hinv' as (Hlen & _). cbn [snd] in Hlen. sp_steps.
    replace (t' + _) with (t' + (mp_dp a).[i] - 0) by lia.
    apply Hstep; [lia|done|by apply digit_range|lia|]. unfold R. rewrite val_succ, !low_out by lia. lia. }
  clear t dp Hinv. intros [t dp] (Hlen & Hok & Ht & Hv). cbn [fst snd] in *. sp_steps.
  unfold R in Hv. rewrite low_out in Hv by lia. pose proof (val_range dp ua Hok ltac:(lia)). assert (t = 0) as -> by nia.
  split; [apply sp_finish; [done|done|done|lia|lia]|]. rewrite sp_clamp_dp. split; [done|]. cbn [set_digits mp_dp]. lia.
Qed.

Lemma _sp_sub_off_is na nb n va vb a b r o : sp_is na va a -> sp_is nb vb b -> sp_box n r ->
  0 <= o <= mp_used a -> mp_used a <= n -> pw o * vb <= va ->
  calc e 0 (_sp_sub_off a b r o) (sp_is n (va - pw o * vb)).
Proof.
  intros Ha Hb Hr Ho Hn Hle. eapply calc_mono; [by apply (_sp_sub_off_raw na nb n va vb); [apply sp_is_raw| | | | |]|]. by intros r' [? _].
Qed.

Lemma _sp_add_off_is na nb n va vb a b r : sp_is na va a -> sp_is nb vb b -> sp_box n r ->
  Z.max (mp_used a) (mp_used b) < n -> calc e 0 (_sp_add_off a b r) (sp_is n (va + vb)).
Proof.
  intros [[_ _ Hal Had] Hua _ <-] [[_ _ Hbl Hbd] Hub _ <-] Hr Hn. pose proof Hr as [Hs Hn35 Hl Hd].
  change SP_INT_DIGITS with 35 in Hn35. unfold _sp_add_off.
  set (ua := mp_used a) in *. set (ub := mp_used b) in *.
  set (R := fun i => low (mp_dp a) ua i + low (mp_dp b) ub i). set (inv := carrying (len (mp_dp r)) 0 1 R).
  assert (Hstep : forall i t dp x y, 0 <= i < n -> inv i (t, dp) -> 0 <= x < 2 ^ 32 -> 0 <= y < 2 ^ 32 ->
    R (i + 1) = R i + pw i * (x + y) -> inv (i + 1) (Z.shiftr (w64 (t + x + y)) 32, dp.[i := w32 (w64 (t + x + y))])).
  { intros i t dp x y Hi Hinv Hx Hy HR. pose proof Hinv as (_ & _ & Ht & _). cbn [fst] in Ht.
    rewrite w64_id by lia. apply (carrying_step _ _ _ _ _ t); [lia|done|apply shiftr_32_range; lia|]. rewrite HR. f_equal. f_equal. lia. }
  apply (calc_for_range e inv); [lia|apply carrying_init; [done|lia|unfold R; by rewrite !low_0 by lia]| |].
  { intros i [t dp] Hi Hinv. pose proof Hinv as (Hlen & _). cbn [snd] in Hlen. sp_steps.
    apply Hstep; [lia|done|by apply digit_range|by apply digit_range|]. unfold R. rewrite !low_in by lia. lia. }
  intros [t dp] Hinv. apply (calc_for_range e inv); [lia|done| |].
  { intros i [t' dp'] Hi Hinv'. pose proof Hinv' as (Hlen & _). cbn [snd] in Hlen. sp_steps.
    replace (t' + _) with (t' + (mp_dp a).[i] + 0) by lia.
    apply Hstep; [lia|done|by apply digit_range|lia|]. unfold R. rewrite (low_in (mp_dp a)), !(low_out (mp_dp b)) by lia. lia. }
  clear t dp Hinv. intros [t dp] Hinv. rewrite (Z.max_r _ ua) by lia. apply (calc_for_range_max e inv); [done| |].
  { intros i [t' dp'] Hi Hinv'. pose proof Hinv' as (Hlen & _). cbn [snd] in Hlen. sp_steps.
    replace (t' + _) with (t' + 0 + (mp_dp b).[i]) by lia.
    apply Hstep; [lia|done|lia|by apply digit_range|]. unfold R. rewrite (low_in (mp_dp b)), !(low_out (mp_dp a)) by lia. lia. }
  clear t dp Hinv. intros [t dp] (Hlen & Hok & Ht & Hv). cbn [fst snd] in *. set (i := Z.max ua ub) in *.
  sp_steps. rewrite w32_id by lia. rewrite w16_id by (destruct (t =? 0); cbn; lia).
  pose proof (sp_clamp_is n (set_digits (i + Z.b2z (negb (t =? 0))) dp.[i := t] r)) as Hc. cbn [set_digits mp_used mp_dp] in Hc.
  replace (val (mp_dp a) ua + val (mp_dp b) ub) with (val dp.[i := t] (i + Z.b2z (negb (t =? 0)))).
  - apply Hc; [apply sp_box_set; [done|by rewrite len_poke|apply digits_ok_poke; [done|lia]]|destruct (t =? 0); cbn; lia].
  - unfold R in Hv. rewrite !low_out in Hv by lia. rewrite <-Hv. destruct (Z.eqb_spec t 0) as [->|E]; cbn [negb Z.b2z].
    + rewrite Z.add_0_r, val_poke_ge by lia. lia.
    + by rewrite val_poke by lia.
Qed.

Lemma sp_add_is na nb n va vb a b r : sp_is na va a -> sp_is nb vb b -> sp_box n r ->
  calc e 0 (sp_add a b r) (fun '(err, r') =>
    if n <=? Z.max (mp_used a) (mp_used b) then err = MP_VAL /\ r' = r else err = 0 /\ sp_is n (va + vb) r').
Proof.
  intros Ha Hb Hr. unfold sp_add. rewrite (sb_size _ _ Hr).
  replace ((n <=? mp_used a) || _) with (n <=? Z.max (mp_used a) (mp_used b))
    by (destruct (Z.leb_spec n (mp_used a)), (Z.leb_spec n (mp_used b)); cbn; destruct (Z.leb_spec n (Z.max (mp_used a) (mp_used b))); lia).
  destruct (Z.leb_spec n (Z.max (mp_used a) (mp_used b))); [by sp_steps|].
  eapply calc_bind; [by eapply _sp_add_off_is|]. intros r' Hr'. by sp_steps.
Qed.

Lemma sp_sub_is na nb n va vb a b r : sp_is na va a -> sp_is nb vb b -> sp_box n r -> vb <= va ->
  calc e 0 (sp_sub a b r) (fun '(err, r') =>
    if n <? mp_used a then err = MP_VAL /\ r' = r else err = 0 /\ sp_is n (va - vb) r').
Proof.
  intros Ha Hb Hr Hle. unfold sp_sub. rewrite (sb_size _ _ Hr). pose proof (si_used _ _ _ Ha).
  assert (mp_used b <= mp_used a) by (apply (sp_is_used Hb); [lia|pose proof (sp_is_range Ha); lia]).
  replace (n <? mp_used b) with ((n <? mp_used a) && (n <? mp_used b)) by (destruct (Z.ltb_spec n (mp_used a)), (Z.ltb_spec n (mp_used b)); cbn; lia).
  destruct (Z.ltb_spec n (mp_used a)); cbn [orb andb]; [by sp_steps|].
  eapply calc_bind; [eapply (_sp_sub_off_is _ _ n _ _ _ _ _ 0 Ha Hb Hr); rewrite ?pw_0; lia|]. intros r' Hr'. rewrite pw_0, Z.mul_1_l in Hr'. by sp_steps.
Qed.

Lemma _sp_mul_d_is na n va a d r : sp_is na va a -> sp_box n r -> mp_used a <= n -> 0 <= d < 2 ^ 32 ->
  calc e 0 (_sp_mul_d a d r 0) (fun '(err, r') =>
    if va * d <? pw n then err = 0 /\ sp_is n (va * d) r' else err = MP_VAL).
Proof.
  intros Ha Hr Hn Hd32. pose proof (sp_is_range Ha) as Hva. destruct Ha as [[_ _ Hal Had] Hua _ <-]. pose proof Hr as [Hs Hn35 Hl Hd].
  change SP_INT_DIGITS with 35 in Hn35. unfold _sp_mul_d. set (ua := mp_used a) in *.
  set (R := fun i => val (mp_dp a) i * d). set (inv := carrying (len (mp_dp r)) 0 (2 ^ 32 - 1) R).
  apply (calc_for_range e inv); [lia|by apply carrying_init| |].
  { intros i [t dp] Hi Hinv. pose proof Hinv as (Hlen & _ & Ht & _). cbn [fst snd] in Hlen, Ht. rewrite Z.add_0_l. sp_steps.
    pose proof (digit_range (mp_dp a) i Had). rewrite w64_id by nia.
    apply (carrying_step _ _ _ _ _ t); [lia|done|apply shiftr_32_range; nia|]. unfold R. rewrite val_succ by lia. lia. }
  intros [t dp] (Hlen & Hok & Ht & Hv). cbn [fst snd] in *. unfold R in Hv. rewrite Z.add_0_l, (sb_size _ _ Hr).
  pose proof (val_range dp ua Hok ltac:(lia)). destruct (Z.ltb_spec 0 t) as [Hp|Hz].
  - destruct (Z.eqb_spec ua n) as [->|Hne]; sp_steps.
    + rewrite (proj2 (Z.ltb_ge _ _)) by nia. done.
    + assert (val (mp_dp a) ua * d < pw (ua + 1)) by (rewrite pw_succ by lia; nia). pose proof (pw_le (ua + 1) n ltac:(lia)).
      rewrite (proj2 (Z.ltb_lt _ _)) by lia. split; [done|]. rewrite w16_id by lia.
      apply sp_finish; [done|by rewrite len_poke|apply digits_ok_poke; [done|apply w32_range]|lia|]. rewrite val_poke, w32_id by lia. lia.
  - assert (t = 0) as -> by lia. sp_steps. pose proof (pw_le ua n ltac:(lia)). rewrite (proj2 (Z.ltb_lt _ _)) by lia.
    split; [done|]. rewrite w16_id by lia. apply sp_finish; [done|done|done|lia|lia].
Qed.

Lemma sp_mul_d_is na n va a d r : sp_is na va a -> sp_box n r -> 0 <= d < 2 ^ 32 ->
  calc e 0 (sp_mul_d a d r) (fun '(err, r') =>
    if (mp_used a <=? n) && (va * d <? pw n) then err = 0 /\ sp_is n (va * d) r' else err = MP_VAL).
Proof.
  intros Ha Hr Hd. unfold sp_mul_d. rewrite (sb_size _ _ Hr). destruct (Z.ltb_spec n (mp_used a)), (Z.leb_spec (mp_used a) n); try lia.
  - by sp_steps.
  - by apply (_sp_mul_d_is na).
Qed.

(** Digits that are the same above [k] add the same. *)
Lemma val_same_above a b k n : 0 <= k <= n -> n <= len a -> n <= len b -> (forall i, k <= i < n -> a.[i] = b.[i]) ->
  val a n - val a k = val b n - val b k.
Proof.
  intros [Hk Hkn]. replace n with (k + (n - k)) by lia. generalize (n - k) (Zle_minus_le_0 _ _ Hkn). clear n Hkn.
  apply (natlike_ind (fun m => _ -> _ -> _ -> _)); [intros; rewrite Z.add_0_r; lia|]. intros m Hm IH Ha Hb Hab.
  replace (k + Z.succ m) with (k + m + 1) in * by lia. rewrite !val_succ by lia. rewrite Hab by lia.
  specialize (IH ltac:(lia) ltac:(lia) ltac:(intros; apply Hab; lia)). lia.
Qed.

Lemma top_by_val dp u : digits_ok dp -> 0 < u <= len dp -> pw (u - 1) <= val dp u -> dp.[u - 1] <> 0.
Proof.
  intros Hd Hu Hv E. replace u with (u - 1 + 1) in Hv by lia. rewrite val_succ in Hv by lia. rewrite E in Hv.
  pose proof (val_range dp (u - 1) Hd ltac:(lia)). replace (u - 1 + 1 - 1) with (u - 1) in Hv by lia. lia.
Qed.

Lemma sp_raw_is n v a : sp_raw n v a -> mp_used a = 0 \/ pw (mp_used a - 1) <= v -> sp_is n v a.
Proof.
  intros [Hb Hu Hv] Ht. split; [done|done| |done]. destruct (Z.eq_dec (mp_used a) 0); [by left|right].
  destruct Hb. destruct Ht; [done|]. apply top_by_val; [done|lia|by rewrite Hv].
Qed.

(** A result that uses exactly the digits it says. *)
Lemma sp_exact n v u dp r : sp_box n r -> len dp = len (mp_dp r) -> digits_ok dp -> 0 <= u <= n -> val dp u = v ->
  (u = 0 \/ pw (u - 1) <= v) -> sp_is n v (set_digits u dp r).
Proof.
  intros Hr Hl Hd Hu Hv Ht. pose proof (sb_len _ _ Hr). split; [by apply sp_box_set|done| |done]. cbn.
  destruct Ht as [|Ht]; [by left|]. destruct (Z.eq_dec u 0); [by left|right]. apply top_by_val; [done|lia|by rewrite Hv].
Qed.

Lemma add_carry_is adp ua d m : digits_ok adp -> ua <= len adp -> forall i dp, 0 <= i -> i + Z.of_nat m = ua -> digits_ok dp -> ua <= len dp ->
  val dp i + pw i = val adp i + d ->
  calc e 0 (add_carry m adp i dp) (fun '(i', dp') => len dp' = len dp /\ digits_ok dp' /\ i <= i' /\
    ((i' < ua /\ val dp' (i' + 1) = val adp (i' + 1) + d) \/ (i' = ua /\ val dp' ua + pw ua = val adp ua + d))).
Proof.
  intros Had Hal. induction m as [|m IH]; intros i dp Hi Hm Hok Hl Hv; cbn [add_carry].
  { sp_steps. split; [done|]. split; [done|]. split; [lia|]. right. replace i with ua in * by lia. done. }
  sp_steps. pose proof (digit_range adp i Had). pose proof (pw_succ i Hi). pose proof (val_succ adp i ltac:(lia)).
  destruct (Z.eq_dec adp.[i] (2 ^ 32 - 1)) as [E|E].
  - rewrite E. change (w32 (2 ^ 32 - 1 + 1)) with 0. cbn [negb Z.eqb].
    eapply calc_mono; [apply IH; [lia|lia|by apply digits_ok_poke|by rewrite len_poke|rewrite val_poke by lia; lia]|].
    intros [i' dp'] (Q1 & Q2 & Q3 & Q4). rewrite len_poke in Q1. split; [done|]. split; [done|]. split; [lia|done].
  - rewrite w32_id by lia. rewrite (proj2 (Z.eqb_neq _ _)) by lia. cbn [negb]. sp_steps.
    split; [by rewrite len_poke|]. split; [apply digits_ok_poke; [done|lia]|]. split; [lia|]. left. split; [lia|]. rewrite val_poke by lia. lia.
Qed.

Lemma _sp_add_d_is na n va a d r : sp_is na va a -> sp_box n r -> mp_used a < n -> 0 <= d < 2 ^ 32 ->
  calc e 0 (_sp_add_d a d r) (fun '(err, r') => err = 0 /\ sp_is n (va + d) r').
Proof.
  intros Ha Hr Hn Hd32. pose proof (sp_is_top Ha) as Htop. pose proof (sp_is_0 Ha) as H0. destruct Ha as [[_ _ Hal Had] Hua Ht <-].
  pose proof Hr as [Hs Hn35 Hl Hd]. unfold _sp_add_d. set (ua := mp_used a) in *.
  destruct (Z.eqb_spec ua 0) as [E|E].
  { rewrite (proj1 H0 E). sp_steps. split; [done|]. by apply sp_set_is. }
  specialize (Htop E). sp_steps. pose proof (digit_range (mp_dp a) 0 Had) as Ha0. set (a0 := (mp_dp a).[0]) in *.
  set (dp := (mp_dp r).[0 := w32 (a0 + d)]). assert (Hdp : digits_ok dp) by (apply digits_ok_poke; [done|apply w32_range]).
  assert (Hdl : len dp = len (mp_dp r)) by apply len_poke.
  assert (Hv1 : val dp 1 = w32 (a0 + d)) by (unfold dp; change 1 with (0 + 1) at 1; rewrite val_poke, val_0, pw_0 by lia; lia).
  assert (Ha1 : val (mp_dp a) 1 = a0) by (change 1 with (0 + 1) at 1; rewrite val_succ, val_0, pw_0 by lia; unfold a0; lia).
  assert (Hdone : forall i dp', len dp' = len (mp_dp r) -> digits_ok dp' -> 0 <= i < ua -> val dp' (i + 1) = val (mp_dp a) (i + 1) + d ->
    calc e 0 (copy_digits (mp_dp a) (i + 1) ua dp' ≫= fun dp => mret (0, set_digits ua dp r))
      (fun '(err, r') => err = 0 /\ sp_is n (val (mp_dp a) ua + d) r')).
  { intros i dp' Hl' Hd' Hi Hv'. apply copy_digits_is; [lia..|done|done|]. intros dp2 Hl2 Hd2 Hc Hk. sp_steps. split; [done|].
    apply sp_exact; [done|by rewrite Hl2|done|lia| |right; lia].
    pose proof (val_same_above dp2 (mp_dp a) (i + 1) ua ltac:(lia) ltac:(lia) ltac:(lia) Hc) as Hs2.
    rewrite (val_ext dp2 dp' (i + 1)) in Hs2; [lia|lia|lia|lia|]. intros j Hj. apply Hk. lia. }
  destruct (Z.ltb_spec (w32 (a0 + d)) a0) as [Hc|Hc].
  - assert (w32 (a0 + d) + 2 ^ 32 = a0 + d) as Hw by (rewrite w32_mod in *; Z.div_mod_to_equations; nia).
    apply calc_assoc. eapply calc_bind; [apply (add_carry_is _ ua d); [done|lia|lia|lia|done|lia|rewrite Hv1, Ha1; change (pw 1) with (2 ^ 32); lia]|].
    intros [i dp'] (Hl' & Hd' & Hi & [[Hlt Hv']|[-> Hv']]).
    + rewrite (proj2 (Z.eqb_neq _ _)) by lia. sp_steps. apply Hdone; [by rewrite Hl'|done|lia|done].
    + rewrite Z.eqb_refl, (sb_size _ _ Hr), (proj2 (Z.ltb_lt _ _)) by lia. sp_steps.
      apply copy_digits_is; [lia|lia|rewrite len_poke; lia|done|by apply digits_ok_poke|]. intros dp2 Hl2 Hd2 _ Hk. sp_steps. split; [done|].
      rewrite len_poke in Hl2. assert (Hv2 : val dp2 (ua + 1) = val (mp_dp a) ua + d).
      { rewrite (val_ext dp2 dp'.[ua := 1]); [|lia|lia|rewrite len_poke; lia|intros j Hj; apply Hk; lia]. rewrite val_poke by lia. lia. }
      apply sp_exact; [done|lia|done|lia|done|right]. replace (ua + 1 - 1) with ua by lia. pose proof (val_range dp' ua Hd' ltac:(lia)). lia.
  - sp_steps. apply (Hdone 0); [done|done|lia|]. change (0 + 1) with 1. rewrite Hv1, Ha1. rewrite w32_mod in *. Z.div_mod_to_equations. nia.
Qed.

Lemma sp_add_d_is na n va a d r : sp_is na va a -> sp_box n r -> 0 <= d < 2 ^ 32 ->
  calc e 0 (sp_add_d a d r) (fun '(err, r') =>
    if mp_used a <? n then err = 0 /\ sp_is n (va + d) r' else err = MP_VAL /\ r' = r).
Proof.
  intros Ha Hr Hd. unfold sp_add_d. rewrite (sb_size _ _ Hr). destruct (Z.ltb_spec n (mp_used a + 1)), (Z.ltb_spec (mp_used a) n); try lia.
  - by sp_steps.
  - by apply (_sp_add_d_is na).
Qed.

Lemma sub_borrow_is adp ua d m : digits_ok adp -> ua <= len adp -> forall i dp, 0 <= i -> i + Z.of_nat m = ua -> digits_ok dp -> ua <= len dp ->
  val dp i - pw i = val adp i - d ->
  calc e 0 (sub_borrow m adp i dp) (fun '(i', dp') => len dp' = len dp /\ digits_ok dp' /\ i <= i' /\
    ((i' < ua /\ val dp' (i' + 1) = val adp (i' + 1) - d) \/ (i' = ua /\ val dp' ua - pw ua = val adp ua - d))).
Proof.
  intros Had Hal. induction m as [|m IH]; intros i dp Hi Hm Hok Hl Hv; cbn [sub_borrow].
  { sp_steps. split; [done|]. split; [done|]. split; [lia|]. right. replace i with ua in * by lia. done. }
  sp_steps. pose proof (digit_range adp i Had). pose proof (pw_succ i Hi). pose proof (val_succ adp i ltac:(lia)).
  destruct (Z.eq_dec adp.[i] 0) as [E|E].
  - rewrite E. change (w32 (0 - 1)) with 0xffffffff. cbn [negb Z.eqb].
    eapply calc_mono; [apply IH; [lia|lia|by apply digits_ok_poke|by rewrite len_poke|rewrite val_poke by lia; lia]|].
    intros [i' dp'] (Q1 & Q2 & Q3 & Q4). rewrite len_poke in Q1. split; [done|]. split; [done|]. split; [lia|done].
  - rewrite w32_id by lia. rewrite (proj2 (Z.eqb_neq _ _)) by lia. cbn [negb]. sp_steps.
    split; [by rewrite len_poke|]. split; [apply digits_ok_poke; [done|lia]|]. split; [lia|]. left. split; [lia|]. rewrite val_poke by lia. lia.
Qed.

Lemma _sp_sub_d_is na n va a d r : sp_is na va a -> sp_box n r -> mp_used a <= n -> 0 <= d < 2 ^ 32 -> d <= va ->
  calc e 0 (_sp_sub_d a d r) (sp_is n (va - d)).
Proof.
  intros Ha Hr Hn Hd32 Hle. pose proof (sp_is_0 Ha) as H0. destruct Ha as [[_ _ Hal Had] Hua Ht <-].
  pose proof Hr as [Hs Hn35 Hl Hd]. unfold _sp_sub_d. set (ua := mp_used a) in *.
  destruct (Z.eqb_spec ua 0) as [E|E].
  { assert (d = 0) as -> by lia. sp_steps. rewrite (proj1 H0 E), E. by apply (sp_zero_is n). }
  sp_steps. pose proof (digit_range (mp_dp a) 0 Had) as Ha0. set (a0 := (mp_dp a).[0]) in *.
  set (dp := (mp_dp r).[0 := w32 (a0 - d)]). assert (Hdp : digits_ok dp) by (apply digits_ok_poke; [done|apply w32_range]).
  assert (Hdl : len dp = len (mp_dp r)) by apply len_poke.
  assert (Hv1 : val dp 1 = w32 (a0 - d)) by (unfold dp; change 1 with (0 + 1) at 1; rewrite val_poke, val_0, pw_0 by lia; lia).
  assert (Ha1 : val (mp_dp a) 1 = a0) by (change 1 with (0 + 1) at 1; rewrite val_succ, val_0, pw_0 by lia; unfold a0; lia).
  assert (Hdone : forall i dp', len dp' = len (mp_dp r) -> digits_ok dp' -> 0 <= i < ua -> val dp' (i + 1) = val (mp_dp a) (i + 1) - d ->
    calc e 0 (copy_digits (mp_dp a) (i + 1) ua dp' ≫= fun dp => mret (sp_clamp (set_digits ua dp r))) (sp_is n (val (mp_dp a) ua - d))).
  { intros i dp' Hl' Hd' Hi Hv'. apply copy_digits_is; [lia..|done|done|]. intros dp2 Hl2 Hd2 Hc Hk. sp_steps.
    apply sp_finish; [done|by rewrite Hl2|done|lia|].
    pose proof (val_same_above dp2 (mp_dp a) (i + 1) ua ltac:(lia) ltac:(lia) ltac:(lia) Hc) as Hs2.
    rewrite (val_ext dp2 dp' (i + 1)) in Hs2; [lia|lia|lia|lia|]. intros j Hj. apply Hk. lia. }
  destruct (Z.ltb_spec a0 (w32 (a0 - d))) as [Hc|Hc].
  - assert (w32 (a0 - d) - 2 ^ 32 = a0 - d) as Hw by (rewrite w32_mod in *; Z.div_mod_to_equations; nia).
    eapply calc_bind; [apply (sub_borrow_is _ ua d); [done|lia|lia|lia|done|lia|rewrite Hv1, Ha1; change (pw 1) with (2 ^ 32); lia]|].
    intros [i dp'] (Hl' & Hd' & Hi & [[Hlt Hv']|[-> Hv']]).
    + apply Hdone; [by rewrite Hl'|done|lia|done].
    + pose proof (val_range dp' ua Hd' ltac:(lia)). lia.
  - sp_steps. apply (Hdone 0); [done|done|lia|]. change (0 + 1) with 1. rewrite Hv1, Ha1. rewrite w32_mod in *. Z.div_mod_to_equations. nia.
Qed.
End Add.

(** *** Division by a digit *)

(** From the top down to digit [i]: quotient and remainder of the digits so far. *)
Definition dividing (l : option Z) (adp : list Z) (ua d i : Z) (s : Z * option (list Z)) : Prop :=
  0 <= s.1 < d /\
  match l, s.2 with
  | Some l, Some dp =>
    len dp = l /\ ua <= l /\ digits_ok dp /\ val adp ua - val adp i = d * (val dp ua - val dp i) + pw i * s.1
  | None, None => exists q, val adp ua - val adp i = d * q + pw i * s.1
  | _, _ => False
  end.

Lemma val_above_poke dp i u v : 0 <= i < u -> u <= len dp ->
  val dp.[i := v] u - val dp.[i := v] i = val dp u - val dp (i + 1) + pw i * v.
Proof.
  intros Hi Hu. pose proof (val_same_above dp.[i := v] dp (i + 1) u ltac:(lia)) as H. rewrite len_poke in H.
  specialize (H ltac:(lia) ltac:(lia) ltac:(intros; apply digit_poke_ne; lia)).
  rewrite val_poke, (val_poke_ge _ _ i) in * by lia. lia.
Qed.

Lemma dividing_step l adp ua d i tr o q tr' : 0 <= i < ua -> ua <= len adp ->
  dividing l adp ua d (i + 1) (tr, o) -> tr * 2 ^ 32 + adp.[i] = d * q + tr' -> 0 <= q < 2 ^ 32 -> 0 <= tr' < d ->
  dividing l adp ua d i (tr', (fun dp => dp.[i := q]) <$> o).
Proof.
  intros Hi Hua [Htr Ho] Ht Hq Htr'. split; [done|]. cbn [fst snd] in *. pose proof (val_succ adp i ltac:(lia)).
  rewrite pw_succ in Ho by lia. assert (pw i * (tr * 2 ^ 32 + adp.[i]) = pw i * (d * q + tr')) by (f_equal; done).
  destruct l as [l|], o as [dp|]; try done; cbn.
  - destruct Ho as (Hlen & Hul & Hok & Hv). split; [by rewrite len_poke|]. split; [done|]. split; [by apply digits_ok_poke|].
    rewrite val_above_poke by lia. lia.
  - destruct Ho as [q' Hv]. exists (q' + pw i * q). lia.
Qed.

(** A multiplication in place of a division: [m] is at most 2^32 / d. *)
Lemma approx d m t (tt := t * m / 2 ^ 32) : 0 < d -> 0 <= m -> d * m <= 2 ^ 32 -> 0 <= t < d * 2 ^ 32 ->
  0 <= t * m < 2 ^ 64 /\ 0 <= tt < 2 ^ 32 /\ 0 <= t - d * tt < d + d * (2 ^ 32 - d * m).
Proof.
  intros Hd Hm Hdm Ht. assert (0 <= t * m < 2 ^ 64) as Htm by nia. subst tt.
  pose proof (Z.div_mod (t * m) (2 ^ 32) ltac:(lia)). pose proof (Z.mod_pos_bound (t * m) (2 ^ 32) ltac:(lia)).
  set (tt := t * m / 2 ^ 32) in *. clearbody tt. split; [done|]. split; [nia|]. split; nia.
Qed.

(** The quotient digit and the remainder, corrected. *)
Lemma approx_correct d t tt : 0 < d -> 0 <= t < d * 2 ^ 32 -> 0 <= tt -> 0 <= t - d * tt ->
  t = d * (tt + (t - d * tt) / d) + (t - d * tt) mod d /\ 0 <= tt + (t - d * tt) / d < 2 ^ 32 /\ 0 <= (t - d * tt) mod d < d.
Proof.
  intros Hd Ht Htt Hr. pose proof (Z.div_mod (t - d * tt) d ltac:(lia)). pose proof (Z.mod_pos_bound (t - d * tt) d Hd).
  pose proof (Z.div_pos (t - d * tt) d Hr Hd). split; [lia|]. split; [nia|lia].
Qed.

Lemma word_lor hi lo : 0 <= hi -> 0 <= lo < 2 ^ 32 -> Z.lor (Z.shiftl hi 32) lo = hi * 2 ^ 32 + lo.
Proof. intros. rewrite Z.lor_comm, lor_shift_add by lia. lia. Qed.

Section DivDigit.
Context (e : env).

Lemma calc_poke_opt {B} d (o : option (list Z)) i v (k : option (list Z) -> M B) Q :
  match o with Some dp => 0 <= i < len dp | None => True end ->
  calc e d (k ((fun dp => dp.[i := v]) <$> o)) Q -> calc e d (poke_opt o i v ≫= k) Q.
Proof. intros Ho H. destruct o as [dp|]; cbn [poke_opt]; [calc_step; apply calc_poke; [done|]|]; by calc_step. Qed.

Lemma dividing_box l adp ua d i j tr o : dividing l adp ua d j (tr, o) -> 0 <= i < ua ->
  match o with Some dp => 0 <= i < len dp | None => True end.
Proof. intros [_ H] Hi. destruct l, o as [dp|]; try done. destruct H as (H & H' & _). cbn in *. lia. Qed.

(** What a division by one digit leaves. *)
Definition div_digit_result (n v d : Z) (r : option mp_int) (s : option mp_int * Z) : Prop :=
  s.2 = v mod d /\
  match r with Some _ => exists q, s.1 = Some q /\ sp_is n (v / d) q | None => s.1 = None end.

Section Loops.
Context (na n va d : Z) (a : mp_int) (r : option mp_int).
Hypothesis Ha : sp_is na va a.
Hypothesis Hr : match r with Some r => sp_box n r /\ mp_used a <= n | None => True end.
Hypothesis Hd : 0 < d < 2 ^ 32.

(** The length of the digits of the quotient, if it is wanted. *)
Let l : option Z := (fun r => len (mp_dp r)) <$> r.
Let inv : Z -> Z * option (list Z) -> Prop := dividing l (mp_dp a) (mp_used a) d.

Lemma dividing_start : inv (mp_used a) (0, mp_dp <$> r).
Proof.
  split; cbn [fst snd]; [lia|]. subst l. destruct r as [r0|]; cbn; [|exists 0; lia]. destruct Hr as [[] ?].
  split; [done|]. split; [lia|]. split; [done|lia].
Qed.

Lemma dividing_end tr o : inv 0 (tr, o) ->
  div_digit_result n va d r ((fun r => sp_clamp (set_digits (mp_used a) (default [] o) r)) <$> r, tr).
Proof.
  intros [Htr Ho]. cbn [fst snd] in *. rewrite val_0 in Ho. pose proof (sp_is_val_used Ha) as Hv. pose proof (si_used _ _ _ Ha).
  assert (forall q, va = d * q + tr -> tr = va mod d /\ q = va / d) as Hqr.
  { intros q E. split; [apply (Z.mod_unique _ _ q); lia|apply (Z.div_unique _ _ _ tr); lia]. }
  subst l. destruct r as [r0|], o as [dp|]; cbn in Ho; try done.
  - destruct Ho as (Hl & Hul & Hok & E). rewrite val_0, pw_0 in E. destruct Hr as [Hb Hu].
    destruct (Hqr (val dp (mp_used a))) as [H1 H2]; [lia|]. split; [done|]. eexists. split; [done|].
    apply sp_finish; [done|done|done|lia|done].
  - destruct Ho as [q E]. rewrite pw_0 in E. by destruct (Hqr q) as [H1 H2]; [lia|].
Qed.

Lemma div_small_loop_is : d <= 0xffff -> calc e 0 (div_small_loop a d (mp_dp <$> r)) (inv 0).
Proof.
  intros Hd16. unfold div_small_loop. pose proof Ha as [[_ _ Hal Had] Hua _ _].
  assert (0 <= 0xffffffff / d /\ d * (0xffffffff / d) <= 2 ^ 32 /\ 2 ^ 32 - d * (0xffffffff / d) <= d) as (Hm1 & Hm2 & Hm3)
    by (Z.div_mod_to_equations; nia). set (m := 0xffffffff / d) in *.
  apply (calc_for_down_end e inv); rewrite Z2Nat.id by lia; [apply dividing_start|].
  intros i [tr o] Hi Hinv. sp_steps. pose proof (digit_range (mp_dp a) i Had) as Hx. pose proof (proj1 Hinv) as Htr. cbn [fst] in Htr.
  rewrite word_lor by lia. set (t := tr * 2 ^ 32 + (mp_dp a).[i]). assert (Ht : 0 <= t < d * 2 ^ 32) by (unfold t; nia).
  destruct (approx d m t) as (H1 & H2 & H3); [lia..|].
  rewrite (w64_id (t * m)), Z.shiftr_div_pow2, (w32_id (t * m / 2 ^ 32)) by lia. set (tt := t * m / 2 ^ 32) in *.
  assert (w32 (w32 t - w32 (tt * d)) = t - d * tt) as ->.
  { rewrite !w32_mod, <-Zminus_mod, Z.mod_small; [lia|]. nia. }
  destruct (approx_correct d t tt) as (E & H4 & H5); [lia..|]. rewrite (w32_id (tt + _)) by lia.
  apply calc_poke_opt; [eapply dividing_box; [exact Hinv|lia]|]. sp_steps.
  eapply dividing_step; [lia|lia|done|exact E|done|done].
Qed.

Lemma div_10_loop_is : d = 10 -> calc e 0 (div_10_loop a (mp_dp <$> r)) (inv 0).
Proof.
  intros Hd10. unfold div_10_loop. pose proof Ha as [[_ _ Hal Had] Hua _ _].
  apply (calc_for_down_end e inv); rewrite Z2Nat.id by lia; [apply dividing_start|].
  intros i [tr o] Hi Hinv. sp_steps. pose proof (digit_range (mp_dp a) i Had) as Hx. pose proof (proj1 Hinv) as Htr. cbn [fst] in Htr.
  rewrite word_lor by lia. set (t := tr * 2 ^ 32 + (mp_dp a).[i]). assert (Ht : 0 <= t < d * 2 ^ 32) by (unfold t; nia).
  destruct (approx d 0x19999999 t) as (H1 & H2 & H3); [lia..|].
  rewrite (w64_id (t * _)), Z.shiftr_div_pow2, (w32_id (t * _ / 2 ^ 32)) by lia. set (tt := t * _ / 2 ^ 32) in *.
  rewrite (w32_id (t - tt * 10)) by lia. destruct (approx_correct d t tt) as (E & H4 & H5); [lia..|].
  replace (t - tt * 10) with (t - d * tt) by lia. rewrite <-Hd10. rewrite (w32_id (tt + _)) by lia.
  apply calc_poke_opt; [eapply dividing_box; [exact Hinv|lia]|]. sp_steps.
  eapply dividing_step; [lia|lia|done|exact E|done|done].
Qed.

Lemma _sp_div_d_is : calc e 0 (_sp_div_d a d r) (div_digit_result n va d r).
Proof.
  unfold _sp_div_d. pose proof Ha as [[_ _ Hal Had] Hua _ _].
  apply (calc_for_down e inv); rewrite ?Z2Nat.id by lia; [apply dividing_start| |].
  - intros i [tr o] Hi Hinv. sp_steps. pose proof (digit_range (mp_dp a) i Had) as Hx. pose proof (proj1 Hinv) as Htr. cbn [fst] in Htr.
    unfold sp_div_word. rewrite (w32_id tr), (w64_id (Z.shiftl tr 32)) by (rewrite ?Z.shiftl_mul_pow2 by lia; lia).
    rewrite word_lor by lia. set (t := tr * 2 ^ 32 + (mp_dp a).[i]). assert (Ht : 0 <= t < d * 2 ^ 32) by (unfold t; nia).
    pose proof (Z.div_mod t d ltac:(lia)) as E. pose proof (Z.mod_pos_bound t d ltac:(lia)).
    assert (0 <= t / d < 2 ^ 32) by nia. rewrite (w32_id (t / d)) by lia. replace (t - t / d * d) with (t mod d) by lia. rewrite w64_id by lia.
    apply calc_poke_opt; [eapply dividing_box; [exact Hinv|lia]|]. sp_steps.
    eapply dividing_step; [lia|lia|done|exact E|done|done].
  - intros [w o] Hinv. pose proof (proj1 Hinv) as Hw. cbn [fst] in Hw. sp_steps. rewrite w32_id by lia. by apply dividing_end.
Qed.

Lemma div_3_table k : 0 <= k < 6 -> sp_r6.[k] = k / 3 /\ sp_rem6.[k] = k mod 3.
Proof. intros H. assert (k = 0 \/ k = 1 \/ k = 2 \/ k = 3 \/ k = 4 \/ k = 5) as Hk by lia. by decompose [or] Hk; subst k. Qed.

Lemma div_3_loop_is r0 rem : d = 3 -> r = Some r0 -> calc e 0 (_sp_div_3 a r rem) (div_digit_result n va d r).
Proof.
  intros Hd3 Er. pose proof Ha as [[_ _ Hal Had] Hua _ _]. pose proof dividing_start as Hst. rewrite Er in Hst. rewrite Er at 1. cbn [_sp_div_3].
  apply (calc_for_down e (fun i '(tr, dp) => inv i (tr, Some dp))); rewrite ?Z2Nat.id by lia.
  - exact Hst.
  - intros i [tr dp] Hi Hinv. pose proof (digit_range (mp_dp a) i Had) as Hx. pose proof (proj1 Hinv) as Htr. cbn [fst] in Htr.
    apply calc_get; [lia|]. cbv zeta. rewrite word_lor by lia. set (t := tr * 2 ^ 32 + (mp_dp a).[i]).
    assert (Ht : 0 <= t < d * 2 ^ 32) by (unfold t; nia). destruct (approx d 0x55555555 t) as (H1 & H2 & H3); [lia..|].
    rewrite (w64_id (t * _)), Z.shiftr_div_pow2, (w32_id (t * _ / 2 ^ 32)) by lia. set (tt := t * _ / 2 ^ 32) in *.
    rewrite (w32_id (t - tt * 3)) by lia. destruct (approx_correct d t tt) as (E & H4 & H5); [lia..|].
    replace (t - tt * 3) with (t - d * tt) by lia. destruct (div_3_table (t - d * tt)) as [T1 T2]; [lia|].
    apply calc_get; [change (len sp_r6) with 6; lia|]. apply calc_get; [change (len sp_rem6) with 6; lia|].
    rewrite T1, T2, <-Hd3. rewrite (w32_id (tt + _)) by lia.
    pose proof (dividing_box _ _ _ _ i _ _ _ Hinv ltac:(lia)) as Hb. cbn in Hb. apply calc_poke; [done|]. sp_steps.
    eapply (dividing_step _ _ _ _ i tr (Some dp)); [lia|lia|exact Hinv|exact E|done|done].
  - intros [tr dp] Hinv. sp_steps. pose proof (dividing_end tr (Some dp) Hinv) as He. rewrite Er in He |- *. exact He.
Qed.

(** The sum of the digits for the remainder by 3. *)
Lemma div_3_sum_is : d = 3 -> r = None -> calc e 0 (_sp_div_3 a r true) (div_digit_result n va d r).
Proof.
  intros Hd3 Er. pose proof Ha as [[_ Hn35 Hal Had] Hua _ Hv]. change SP_INT_DIGITS with 35 in Hn35. rewrite Er. cbn [_sp_div_3].
  assert (forall i, 0 <= i -> (pw i - 1) mod 3 = 0) as H3.
  { intros i Hi. pattern i. apply natlike_ind; [done| |done]. intros k Hk IH. unfold Z.succ. rewrite pw_succ by lia.
    Z.div_mod_to_equations. lia. }
  apply (calc_for_range e (fun i t => 0 <= t <= i * (2 ^ 32 - 1) /\ (val (mp_dp a) i - t) mod 3 = 0)); [lia|done| |].
  { intros i t Hi [Ht Hm]. apply calc_get; [lia|]. apply calc_ret. pose proof (digit_range (mp_dp a) i Had).
    rewrite w64_id by lia. split; [lia|]. rewrite val_succ by lia.
    replace (_ - _) with (val (mp_dp a) i - t + (pw i - 1) * (mp_dp a).[i]) by lia.
    rewrite Z.add_mod, Hm, Z.mul_mod, H3 by lia. done. }
  intros t [Ht Hm]. cbv zeta. change 0xffffffff with (Z.ones 32). rewrite Z.land_ones, Z.shiftr_div_pow2 by lia.
  assert (Hdm : t = 2 ^ 32 * (t / 2 ^ 32) + t mod 2 ^ 32) by (apply Z.div_mod; lia). pose proof (Z.mod_pos_bound t (2 ^ 32) ltac:(lia)).
  assert (0 <= t / 2 ^ 32 <= 35) by nia. rewrite (w64_id (t / 2 ^ 32 + _)) by lia. set (t' := t / 2 ^ 32 + t mod 2 ^ 32) in *.
  destruct (approx d 0x55555555 t') as (H1 & H2 & Hb); [lia..|].
  rewrite (w64_id (t' * _)), Z.shiftr_div_pow2, (w32_id (t' * _ / 2 ^ 32)) by lia. set (tt := t' * _ / 2 ^ 32) in *.
  rewrite (w32_id (t' - tt * 3)) by lia. destruct (div_3_table (t' - tt * 3)) as [_ T2]; [lia|].
  apply calc_get; [change (len sp_rem6) with 6; lia|]. rewrite T2. calc_step; [done|]. calc_step. split; [|done]. cbn [snd].
  rewrite Hd3. rewrite Hv in Hm. Z.div_mod_to_equations. lia.
Qed.

Lemma div_digit_loop (f : option (list Z) -> M (Z * option (list Z))) rem : (r = None -> rem = true) ->
  calc e 0 (f (mp_dp <$> r)) (inv 0) ->
  calc e 0 (match r with
            | None => '(tr, _) ← f None; _ ← assert rem; mret (None, tr)
            | Some r => '(tr, dp) ← f (Some (mp_dp r)); mret (Some (sp_clamp (set_digits (mp_used a) (default [] dp) r)), tr)
            end) (div_digit_result n va d r).
Proof.
  intros Hrem Hf. pose proof dividing_end as Hend. destruct r as [r0|] eqn:E; cbn in Hf.
  - eapply calc_bind; [exact Hf|]. intros [tr o] Hi. calc_step. by apply Hend in Hi.
  - eapply calc_bind; [exact Hf|]. intros [tr o] Hi. rewrite Hrem by done. calc_step; [done|]. calc_step. by apply Hend in Hi.
Qed.

Lemma sp_div_d_branches rem : (r = None -> rem = true) ->
  calc e 0 (if d =? 3 then _sp_div_3 a r rem else if d =? 10 then _sp_div_10 a r rem
            else if d <=? 0xffff then _sp_div_small a d r rem else _sp_div_d a d r) (div_digit_result n va d r).
Proof.
  intros Hrem. destruct (Z.eqb_spec d 3) as [E3|].
  { assert (r = None \/ exists r0, r = Some r0) as [E|[r0 E]] by (destruct r; eauto); [|by apply (div_3_loop_is r0)].
    rewrite Hrem by done. by apply div_3_sum_is. }
  destruct (Z.eqb_spec d 10) as [E10|]; [by apply div_digit_loop, div_10_loop_is|].
  destruct (Z.leb_spec d 0xffff) as [E16|]; [by apply div_digit_loop, div_small_loop_is|apply _sp_div_d_is].
Qed.
End Loops.

Lemma sp_div_d_is na n va d a r rem : sp_is na va a -> match r with Some r => sp_box n r | None => rem = true end -> 0 <= d < 2 ^ 32 ->
  calc e 0 (sp_div_d a d r rem) (fun '(err, r', m) =>
    if (d =? 0) || match r with Some _ => n <? mp_used a | None => false end then err = MP_VAL /\ r' = r
    else err = 0 /\ div_digit_result n va d r (r', m)).
Proof.
  intros Ha Hr Hd. unfold sp_div_d. destruct (Z.eqb_spec d 0) as [->|Hd0]; cbn [orb]; [by sp_steps|].
  replace (match r with Some r => mp_size r <? mp_used a | None => false end)
    with (match r with Some _ => n <? mp_used a | None => false end) by (destruct r; [by rewrite (sb_size _ _ Hr)|done]).
  destruct (match r with Some _ => n <? mp_used a | None => false end) eqn:E; [by sp_steps|].
  eapply calc_bind; [apply (sp_div_d_branches na n va d a r Ha)|].
  - destruct r; [split; [done|]; lia|done].
  - lia.
  - by intros ->.
  - intros [r' m] Hres. by sp_steps.
Qed.

Lemma pow2_test d : 0 < d -> Z.land d (d - 1) = 0 -> d = 2 ^ Z.log2 d.
Proof.
  intros Hd H. pose proof (Z.log2_spec d Hd) as [H1 H2]. pose proof (Z.log2_nonneg d).
  destruct (Z.eq_dec d (2 ^ Z.log2 d)) as [|Hne]; [done|]. assert (Z.testbit (Z.land d (d - 1)) (Z.log2 d) = true) as Hb.
  { rewrite Z.land_spec, Z.bit_log2 by done. rewrite <-(Z.log2_unique (d - 1) (Z.log2 d)) at 1 by lia. apply Z.bit_log2. lia. }
  by rewrite H, Z.testbit_0_l in Hb.
Qed.

Lemma _sp_mod_d_is na va a d : sp_is na va a -> 0 < d < 2 ^ 32 -> calc e 0 (_sp_mod_d a d) (fun m => m = va mod d).
Proof.
  intros Ha Hd. unfold _sp_mod_d. pose proof Ha as [[_ _ Hal Had] Hua _ _].
  apply (calc_for_down e (fun i w => dividing None (mp_dp a) (mp_used a) d i (w, None))); rewrite ?Z2Nat.id by lia.
  - split; cbn; [lia|]. exists 0. lia.
  - intros i tr Hi Hinv. sp_steps. pose proof (digit_range (mp_dp a) i Had) as Hx. pose proof (proj1 Hinv) as Htr. cbn [fst] in Htr.
    unfold sp_div_word. rewrite (w32_id tr), (w64_id (Z.shiftl tr 32)) by (rewrite ?Z.shiftl_mul_pow2 by lia; lia).
    rewrite word_lor by lia. set (t := tr * 2 ^ 32 + (mp_dp a).[i]). assert (Ht : 0 <= t < d * 2 ^ 32) by (unfold t; nia).
    pose proof (Z.div_mod t d ltac:(lia)) as E. pose proof (Z.mod_pos_bound t d ltac:(lia)).
    assert (0 <= t / d < 2 ^ 32) by nia. rewrite (w32_id (t / d)) by lia. replace (t - t / d * d) with (t mod d) by lia. rewrite w64_id by lia.
    apply (dividing_step _ _ _ _ i tr None (t / d)); [lia|lia|done|exact E|done|done].
  - intros w Hinv. pose proof (proj1 Hinv) as Hw. cbn [fst] in Hw. sp_steps. rewrite w32_id by lia.
    apply (dividing_end na 0 va d a None Ha I _ None Hinv).
Qed.

Lemma sp_mod_d_is na va a d : sp_is na va a -> 0 <= d < 2 ^ 32 ->
  calc e 0 (sp_mod_d a d) (fun '(err, m) => if d =? 0 then err = MP_VAL else err = 0 /\ m = va mod d).
Proof.
  intros Ha Hd. unfold sp_mod_d. destruct (Z.eqb_spec d 0) as [|Hd0]; [by sp_steps|].
  destruct (Z.eqb_spec (Z.land d (d - 1)) 0) as [E|_].
  - pose proof (pow2_test d ltac:(lia) E) as Ep. set (k := Z.log2 d) in *. pose proof (Z.log2_nonneg d). fold k in H.
    assert (k < 32) by (apply Z.log2_lt_pow2; lia). pose proof Ha as [[_ _ Hal Had] Hua _ Hv].
    destruct (Z.eqb_spec (mp_used a) 0) as [E0|E0].
    { apply (sp_is_0 Ha) in E0 as ->. sp_steps. by rewrite Z.mod_0_l by lia. }
    sp_steps. split; [done|]. rewrite Ep. replace (2 ^ k - 1) with (Z.ones k) by (rewrite Z.ones_equiv; lia). rewrite Z.land_ones by done.
    pose proof (val_split (mp_dp a) 1 (mp_used a - 1) ltac:(lia) ltac:(lia) ltac:(lia)) as Hsp.
    replace (1 + (mp_used a - 1)) with (mp_used a) in Hsp by lia. rewrite Hv in Hsp.
    change 1 with (0 + 1) in Hsp at 1. rewrite val_succ, val_0, pw_0 in Hsp by lia. rewrite Hsp.
    replace (pw 1) with (2 ^ (32 - k) * 2 ^ k) by (rewrite <-Z.pow_add_r by lia; unfold pw; f_equal; lia).
    set (h := val _ _). replace (0 + 1 * (mp_dp a).[0] + 2 ^ (32 - k) * 2 ^ k * h) with ((mp_dp a).[0] + 2 ^ (32 - k) * h * 2 ^ k) by lia.
    by rewrite Z.mod_add by lia.
  - assert (forall m, calc e 0 m (div_digit_result 0 va d None) ->
      calc e 0 ('(_, rem) ← m; mret (0, rem)) (fun '(err, m) => err = 0 /\ m = va mod d)) as Hb.
    { intros m Hm. eapply calc_bind; [exact Hm|]. intros [r' rem] [Hr _]. by sp_steps. }
    pose proof (sp_div_d_branches na 0 va d a None Ha I ltac:(lia) true ltac:(done)) as Hbr.
    destruct (d =? 3); [by apply Hb|]. destruct (d =? 10); [by apply Hb|]. destruct (d <=? 0xffff); [by apply Hb|].
    eapply calc_bind; [apply (_sp_mod_d_is _ _ _ _ Ha); lia|]. intros m ->. by sp_steps.
Qed.
End DivDigit.

(** ** Numbers written down *)

Fixpoint digits_of (k : nat) (v : Z) : list Z :=
  match k with O => [] | S k => v mod 2 ^ 32 :: digits_of k (v / 2 ^ 32) end.

(** An object of [n] digits set to [v]. *)
Definition sp_lit (n v : Z) : mp_int := sp_clamp {| mp_used := n; mp_size := n; mp_dp := digits_of (Z.to_nat n) v |}.

Lemma digits_of_val k v : 0 <= v < 2 ^ (32 * Z.of_nat k) -> digits_val (digits_of k v) = v.
Proof.
  revert v. induction k as [|k IH]; intros v Hv; [cbn in *; lia|]. cbn [digits_of digits_val]. rewrite IH.
  - pose proof (Z.div_mod v (2 ^ 32) ltac:(lia)). lia.
  - replace (32 * Z.of_nat (S k)) with (32 + 32 * Z.of_nat k) in Hv by lia. rewrite Z.pow_add_r in Hv by lia.
    split; [apply Z.div_pos; lia|apply Z.div_lt_upper_bound; lia].
Qed.

Lemma sp_lit_is n v : 1 <= n <= SP_INT_DIGITS -> 0 <= v < pw n -> sp_is n v (sp_lit n v).
Proof.
  intros Hn Hv. assert (Hl : forall k x, length (digits_of k x) = k) by (induction k; intros; cbn; auto).
  assert (Hval : val (digits_of (Z.to_nat n) v) n = v).
  { unfold val. rewrite take_ge by (rewrite Hl; lia). apply digits_of_val. by rewrite Z2Nat.id by lia. }
  unfold sp_lit. rewrite <-Hval at 1. apply (sp_clamp_is n {| mp_used := n; mp_size := n; mp_dp := digits_of (Z.to_nat n) v |}); [|cbn; lia].
  split; cbn [mp_size mp_dp]; [done|done|unfold len; rewrite Hl; lia|].
  set (k := Z.to_nat n). clearbody k. clear. unfold digits_ok. revert v. induction k as [|k IH]; intros v; [constructor|].
  cbn. constructor; [apply Z.mod_pos_bound; lia|apply IH].
Qed.
