(* ===== verification/SpShift.v ===== *)
(** * SpShift: shifts and powers of two of sp_int.c

    Moving digits and bits, and division, remainder and multiplication by 2^e, each
    with the theorem that it computes the operation on integers. *)

From S2P Require Import Prelude Platform Types Misc SpInt SpArith.

(** ** Shifts *)

(** sp_int.c:8563-8587, [sp_lshd] *)
Definition sp_lshd (a : mp_int) (s : Z) : M (Z * mp_int) :=
  if s <? 0 then mret (MP_VAL, a)
  else if mp_size a <? w32 (mp_used a + s) then mret (MP_VAL, a)
  else
    src ← rd (mp_dp a) 0 (mp_used a);
    dp ← wr (mp_dp a) s src;
    dp ← wr dp 0 (zeros s);
    mret (0, sp_clamp (set_digits (w16 (mp_used a + s)) dp a)).

(** sp_int.c:8630-8633, [sp_lshb]: the digits from the top down. *)
Definition lshb_loop (used s n : Z) (dp : list Z) : M (list Z) :=
  for_down (Z.to_nat (used - 1)) (fun k dp =>
    let i := k + 1 in
    x ← peek dp i;
    y ← peek dp (i - 1);
    poke dp (i + s) (Z.lor (w32 (Z.shiftl x n)) (Z.shiftr y (32 - n)))) dp.

(** sp_int.c:8623-8641, [sp_lshb]: by [n] bits, and [s] digits for all but the lowest. *)
Definition lshb_bits (a : mp_int) (s n : Z) : M (Z * list Z) :=
  top ← peek (mp_dp a) (mp_used a - 1);
  let v := Z.shiftr top (32 - n) in
  dp ← lshb_loop (mp_used a) s n (mp_dp a);
  x ← peek dp 0;
  dp ← poke dp s (w32 (Z.shiftl x n));
  if negb (v =? 0) then dp ← poke dp (mp_used a + s) v; mret (mp_used a + 1, dp)
  else mret (mp_used a, dp).

(** sp_int.c:8604-8656, [sp_lshb] *)
Definition sp_lshb (a : mp_int) (n : Z) : M (Z * mp_int) :=
  if negb (mp_used a =? 0) then
    let s := Z.shiftr (w16 n) 5 in
    let n := Z.land n 31 in
    if negb (n =? 0) && (mp_size a <=? mp_used a + s) then mret (MP_VAL, a)
    else if (0 <? s) && (mp_size a <? mp_used a + s) then mret (MP_VAL, a)
    else
      '(used, dp) ←
        (if negb (n =? 0) then lshb_bits a s n
         else if 0 <? s then
           src ← rd (mp_dp a) 0 (mp_used a);
           dp ← wr (mp_dp a) s src;
           mret (mp_used a, dp)
         else mret (mp_used a, mp_dp a));
      dp ← wr dp 0 (zeros s);
      mret (0, set_digits (w16 (used + s)) dp a)
  else mret (0, a).

(** sp_int.c:8666-8686, [sp_rshd] *)
Definition sp_rshd (a : mp_int) (c : Z) : M mp_int :=
  if 0 <? c then
    if mp_used a <=? c then mret (_sp_zero a)
    else
      let used := mp_used a - c in
      dp ← for_range 0 used (fun i dp => x ← peek dp (c + i); poke dp i x) (mp_dp a);
      mret (set_digits used dp a)
  else mret a.

(** sp_int.c:8698-8757, [sp_rshb] *)
Definition sp_rshb (a : mp_int) (n : Z) (r : mp_int) : M (Z * mp_int) :=
  let ni := if n <? 0 then 0 else Z.shiftr n 5 in
  if n <? 0 then mret (MP_VAL, r)
  else if mp_used a <=? ni then mret (0, _sp_zero r)
  else if mp_size r <? mp_used a - ni then mret (MP_VAL, r)
  else
    let n := Z.land n 31 in
    if n =? 0 then
      src ← rd (mp_dp a) ni (mp_used a - ni);
      dp ← wr (mp_dp r) 0 src;
      mret (0, set_digits (mp_used a - ni) dp r)
    else
      dp ← for_range 0 (mp_used a - 1 - ni) (fun j dp =>
          x ← peek (mp_dp a) (j + ni);
          y ← peek (mp_dp a) (j + ni + 1);
          poke dp j (Z.lor (Z.shiftr x n) (w32 (Z.shiftl y (32 - n))))) (mp_dp r);
      let j := mp_used a - 1 - ni in
      x ← peek (mp_dp a) (j + ni);
      let v := Z.shiftr x n in
      dp ← poke dp j v;
      mret (0, set_digits (w16 (j + Z.b2z (0 <? v))) dp r).

(** sp_int.c:6202-6242, [sp_set_bit] *)
Definition sp_set_bit (a : mp_int) (i : Z) : M (Z * mp_int) :=
  let wi := if i <? 0 then 0 else Z.shiftr i 5 in
  if SP_INT_DIGITS * 32 <? i then mret (MP_VAL, a)
  else if (i <? 0) || (mp_size a <=? wi) then mret (MP_VAL, a)
  else
    let s := Z.land i 31 in
    dp ← for_range (mp_used a) (wi + 1) (fun j dp => poke dp j 0) (mp_dp a);
    x ← peek dp wi;
    dp ← poke dp wi (Z.lor x (Z.shiftl 1 s));
    mret (0, set_digits (if mp_used a <=? wi then w16 (wi + 1) else mp_used a) dp a).

(** sp_int.c:6257-6272, [sp_2expt] *)
Definition sp_2expt (a : mp_int) (e : Z) : M (Z * mp_int) :=
  if e <? 0 then mret (MP_VAL, a) else sp_set_bit (_sp_zero a) e.

(** Keep the low [e] bits of the digit at [i]. *)
Definition mask_digit (dp : list Z) (i e : Z) : M (list Z) :=
  if 0 <? e then x ← peek dp i; poke dp i (Z.land x (Z.shiftl 1 e - 1)) else mret dp.

(** [sp_copy] to an object if there is one. *)
Definition sp_copy_opt (a : mp_int) (r : option mp_int) : Z * option mp_int :=
  match r with
  | Some r => let '(err, r) := sp_copy a r in (err, Some r)
  | None => (0, None)
  end.

(** sp_int.c:14909-14956, [sp_div_2d]; [r_is_a] says that the quotient goes to the
    dividend itself, which is then cleared before it is copied. *)
Definition sp_div_2d (a : mp_int) (e : Z) (r : mp_int) (rem : option mp_int) (r_is_a : bool) : M (Z * mp_int * option mp_int) :=
  if e <? 0 then mret (MP_VAL, r, rem)
  else if sp_count_bits a - e <=? 0 then
    let r := _sp_zero r in
    let '(err, rem) := sp_copy_opt (if r_is_a then r else a) rem in
    mret (err, r, rem)
  else
    let '(err, rem) := sp_copy_opt a rem in
    '(err, r) ← (if err =? 0 then sp_rshb a e r else mret (err, r));
    match rem with
    | Some m =>
      if err =? 0 then
        let used := w16 (Z.shiftr (e + 31) 5) in
        dp ← mask_digit (mp_dp m) (used - 1) (Z.land e 31);
        mret (err, r, Some (sp_clamp (set_digits used dp m)))
      else mret (err, r, rem)
    | None => mret (err, r, rem)
    end.

(** sp_int.c:14971-15040, [sp_mod_2d] *)
Definition sp_mod_2d (a : mp_int) (e : Z) (r : mp_int) : M (Z * mp_int) :=
  if e <? 0 then mret (MP_VAL, r)
  else
    let digits := Z.shiftr e 5 + (if negb (Z.land e 31 =? 0) then 1 else 0) in
    if mp_size r <? digits then mret (MP_VAL, r)
    else
      src ← rd (mp_dp a) 0 (if mp_used a <? digits then mp_used a else digits);
      dp ← wr (mp_dp r) 0 src;
      if digits <=? mp_used a then
        dp ← mask_digit dp (digits - 1) (Z.land e 31);
        mret (0, sp_clamp (set_digits digits dp r))
      else mret (0, set_digits (mp_used a) dp r).

(** sp_int.c:15055-15090, [sp_mul_2d] *)
Definition sp_mul_2d (a : mp_int) (e : Z) (r : mp_int) : M (Z * mp_int) :=
  if e <? 0 then mret (MP_VAL, r)
  else if mp_size r * 32 <? w32 (sp_count_bits a + e) then mret (MP_VAL, r)
  else
    let '(err, r) := sp_copy a r in
    if err =? 0 then sp_lshb r e else mret (err, r).


(** ** Bits that pass from digit to digit *)

(** A digit of a number shifted down, and of one shifted up, by less than a digit. *)
Lemma shr_digit x y n : 0 < n < 32 -> 0 <= x < 2 ^ 32 -> 0 <= y < 2 ^ 32 ->
  Z.lor (Z.shiftr x n) (w32 (Z.shiftl y (32 - n))) = x / 2 ^ n + 2 ^ (32 - n) * (y mod 2 ^ n) /\
  0 <= x / 2 ^ n < 2 ^ (32 - n).
Proof.
  intros Hn Hx Hy. assert (2 ^ 32 = 2 ^ n * 2 ^ (32 - n)) as Hp by (rewrite <-Z.pow_add_r by lia; f_equal; lia).
  assert (0 <= x / 2 ^ n < 2 ^ (32 - n)) as Hr.
  { split; [apply Z.div_pos; lia|]. apply Z.div_lt_upper_bound; lia. }
  split; [|done]. rewrite w32_mod, Z.shiftl_mul_pow2, Z.shiftr_div_pow2 by lia.
  rewrite Hp, Z.mul_mod_distr_r by (apply Z.pow_nonzero; lia). rewrite <-(Z.shiftl_mul_pow2 (y mod 2 ^ n)) by lia.
  pose proof (Z.mod_pos_bound y (2 ^ n) ltac:(lia)). apply lor_shift_add; lia.
Qed.

Lemma shl_digit x y n : 0 < n < 32 -> 0 <= x < 2 ^ 32 -> 0 <= y < 2 ^ 32 ->
  Z.lor (w32 (Z.shiftl x n)) (Z.shiftr y (32 - n)) = 2 ^ n * (x mod 2 ^ (32 - n)) + y / 2 ^ (32 - n).
Proof.
  intros Hn Hx Hy. destruct (shr_digit y x (32 - n) ltac:(lia) Hy Hx) as [H _]. replace (32 - (32 - n)) with n in H by lia.
  rewrite Z.lor_comm, H. lia.
Qed.

(** Shifting down the digits [A]: after [j] of them. *)
Definition shifting (l : Z) (A : list Z) (n j : Z) (dp : list Z) : Prop :=
  len dp = l /\ digits_ok dp /\ 2 ^ n * val dp j = val A j - A.[0] mod 2 ^ n + pw j * (A.[j] mod 2 ^ n).

Lemma shifting_step l A n j dp : 0 < n < 32 -> digits_ok A -> 0 <= j -> j + 1 < len A -> j < l -> shifting l A n j dp ->
  shifting l A n (j + 1) dp.[j := Z.lor (Z.shiftr A.[j] n) (w32 (Z.shiftl A.[j + 1] (32 - n)))].
Proof.
  intros Hn HA Hj HlA Hl (Hlen & Hok & Hv). pose proof (digit_range A j HA). pose proof (digit_range A (j + 1) HA).
  destruct (shr_digit A.[j] A.[j + 1] n) as [-> Hr]; [done..|].
  assert (2 ^ 32 = 2 ^ n * 2 ^ (32 - n)) as Hp by (rewrite <-Z.pow_add_r by lia; f_equal; lia).
  pose proof (Z.mod_pos_bound A.[j + 1] (2 ^ n) ltac:(lia)). pose proof (Z.div_mod A.[j] (2 ^ n) ltac:(lia)) as Hdm.
  split; [by rewrite len_poke|]. split; [apply digits_ok_poke; [done|nia]|].
  rewrite val_poke, val_succ, pw_succ by lia.
  set (q := A.[j] / 2 ^ n) in *. set (m := A.[j] mod 2 ^ n) in *. set (m' := A.[j + 1] mod 2 ^ n) in *. rewrite Hdm, Hp. nia.
Qed.

(** ... and the last, from which nothing more comes down. *)
Lemma shifting_last l A n j dp : 0 < n < 32 -> digits_ok A -> 0 <= j < len A -> j < l -> shifting l A n j dp ->
  val dp.[j := Z.shiftr A.[j] n] (j + 1) = val A (j + 1) / 2 ^ n.
Proof.
  intros Hn HA Hj Hl (Hlen & Hok & Hv). rewrite val_poke, val_succ, Z.shiftr_div_pow2 by lia.
  pose proof (digit_range A 0 HA). pose proof (Z.mod_pos_bound A.[0] (2 ^ n) ltac:(lia)).
  pose proof (Z.div_mod A.[j] (2 ^ n) ltac:(lia)) as Hdm. apply (Z.div_unique _ _ _ (A.[0] mod 2 ^ n)); [lia|].
  set (q := A.[j] / 2 ^ n) in *. set (m := A.[j] mod 2 ^ n) in *. rewrite Hdm. nia.
Qed.

Section Down.
Context (e : env).

Lemma shift_end m l A n j dp r : 0 < n < 32 -> digits_ok A -> 0 <= j < len A -> j < m -> l = len (mp_dp r) -> sp_box m r ->
  shifting l A n j dp ->
  sp_raw m (val A (j + 1) / 2 ^ n) (set_digits (w16 (j + Z.b2z (0 <? Z.shiftr A.[j] n))) dp.[j := Z.shiftr A.[j] n] r).
Proof.
  intros Hn HA Hj Hm -> Hr Hs. pose proof Hr as [_ Hm35 Hl Hd]. change SP_INT_DIGITS with 35 in Hm35.
  pose proof (shifting_last (len (mp_dp r)) A n j dp Hn HA Hj ltac:(lia) Hs) as Hv. destruct Hs as (Hlen & Hok & _).
  pose proof (digit_range A j HA) as Hx. set (v := Z.shiftr A.[j] n) in *.
  assert (0 <= v < 2 ^ 32) as Hvr.
  { unfold v. rewrite Z.shiftr_div_pow2 by lia. split; [apply Z.div_pos; lia|]. apply Z.div_lt_upper_bound; [lia|]. nia. }
  rewrite w16_id by (destruct (0 <? v); cbn; lia). split; cbn [set_digits mp_used mp_dp].
  - apply sp_box_set; [done|by rewrite len_poke|by apply digits_ok_poke].
  - destruct (0 <? v); cbn; lia.
  - rewrite <-Hv. destruct (Z.ltb_spec 0 v) as [|Hz]; cbn [Z.b2z]; [done|]. rewrite Z.add_0_r, val_poke, val_poke_ge by lia.
    replace v with 0 by lia. lia.
Qed.

Lemma rshb_loop_is {B} d m A n j r (body : Z -> list Z -> M (list Z)) (k : list Z -> M B) Q :
  0 < n < 32 -> digits_ok A -> 0 <= j < len A -> j < m -> sp_box m r ->
  (forall i dp, 0 <= i < j -> len dp = len (mp_dp r) -> calc e 0 (body i dp)
     (fun dp' => dp' = dp.[i := Z.lor (Z.shiftr A.[i] n) (w32 (Z.shiftl A.[i + 1] (32 - n)))])) ->
  (forall dp, shifting (len (mp_dp r)) A n j dp -> calc e d (k dp) Q) ->
  calc e d (for_range 0 j body (mp_dp r) ≫= k) Q.
Proof.
  intros Hn HA Hj Hm Hr Hbody Hk. pose proof Hr as [_ _ Hl Hd].
  apply (calc_for_range e (shifting (len (mp_dp r)) A n)); [lia| | |done].
  - split; [done|]. split; [done|]. rewrite !val_0, pw_0. lia.
  - intros i dp Hi Hs. eapply calc_mono; [apply Hbody; [lia|apply Hs]|]. intros ? ->. apply shifting_step; try done; lia.
Qed.

(** Exactness: a top digit that is not zero stays, or the one below gets its bits. *)
Lemma shift_top A n j v (u := j + Z.b2z (0 <? Z.shiftr A.[j] n)) : 0 < n < 32 -> digits_ok A -> 0 <= j < len A ->
  pw j <= val A (j + 1) -> v = val A (j + 1) / 2 ^ n -> u = 0 \/ pw (u - 1) <= v.
Proof.
  intros Hn HA Hj Ht ->. subst u. destruct (Z.ltb_spec 0 (Z.shiftr A.[j] n)) as [Hp|Hz]; cbn [Z.b2z].
  - right. replace (j + 1 - 1) with j by lia. rewrite Z.shiftr_div_pow2 in Hp by lia.
    rewrite val_succ by lia. apply Z.div_le_lower_bound; [lia|]. pose proof (val_range A j HA ltac:(lia)).
    pose proof (Z.mul_div_le A.[j] (2 ^ n) ltac:(lia)). pose proof (pw_pos j ltac:(lia)). nia.
  - rewrite Z.add_0_r. destruct (Z.eq_dec j 0) as [->|]; [by left|right]. apply Z.div_le_lower_bound; [lia|].
    replace j with (j - 1 + 1) in Ht at 1 by lia. rewrite pw_succ in Ht by lia. pose proof (pw_pos (j - 1) ltac:(lia)).
    assert (2 ^ n <= 2 ^ 32) by (apply Z.pow_le_mono_r; lia). nia.
Qed.

Lemma sp_rshb_raw na n va a r s : sp_raw na va a -> sp_box n r -> 0 <= s -> mp_used a - s / 32 <= n ->
  calc e 0 (sp_rshb a s r) (fun '(err, r') => err = 0 /\ sp_raw n (va / 2 ^ s) r' /\ mp_used r' <= mp_used a /\ (sp_is na va a -> sp_is n (va / 2 ^ s) r')).
Proof.
  intros Ha Hr Hs Hn. pose proof (sp_raw_range _ _ _ Ha) as Hvr. pose proof Ha as [[_ _ Hal Had] Hua Hv]. pose proof Hr as [Hrs Hn35 Hl Hd].
  unfold sp_rshb. rewrite (proj2 (Z.ltb_ge s 0)) by lia. rewrite Z.shiftr_div_pow2 by lia. change (2 ^ 5) with 32.
  assert (Hs32 : s = 32 * (s / 32) + s mod 32) by (apply Z.div_mod; lia). pose proof (Z.mod_pos_bound s 32 ltac:(lia)) as Hsm.
  change 31 with (Z.ones 5). rewrite Z.land_ones by lia. change (2 ^ 5) with 32. set (ni := s / 32) in *. set (k := s mod 32) in *.
  assert (0 <= ni) by (apply Z.div_pos; lia).
  assert (H2s : 2 ^ s = pw ni * 2 ^ k) by (rewrite Hs32; unfold pw; by rewrite Z.pow_add_r by lia).
  destruct (Z.leb_spec (mp_used a) ni) as [Hle|Hgt].
  { sp_steps. assert (va / 2 ^ s = 0) as ->.
    { apply Z.div_small. pose proof (pw_le (mp_used a) ni ltac:(lia)). assert (1 <= 2 ^ k) by (apply (Z.pow_le_mono_r 2 0); lia). nia. }
    pose proof (sp_zero_is n r Hr). split; [done|]. split; [by apply sp_is_raw|]. split; [cbn; lia|done]. }
  rewrite Hrs, (proj2 (Z.ltb_ge n _)) by lia.
  set (A := drop (Z.to_nat ni) (mp_dp a)). assert (HlA : len A = len (mp_dp a) - ni) by (apply len_drop; lia).
  assert (HA : digits_ok A) by (by apply digits_ok_drop).
  assert (HvA : val A (mp_used a - ni) = va / pw ni).
  { pose proof (val_split (mp_dp a) ni (mp_used a - ni) ltac:(lia) ltac:(lia) ltac:(lia)) as E. fold A in E.
    replace (ni + (mp_used a - ni)) with (mp_used a) in E by lia. rewrite Hv in E. pose proof (val_range (mp_dp a) ni Had ltac:(lia)).
    apply (Z.div_unique _ _ _ (val (mp_dp a) ni)); lia. }
  assert (Htop : sp_is na va a -> pw (mp_used a - ni - 1) <= val A (mp_used a - ni)).
  { intros Hi. rewrite HvA. pose proof (sp_is_top Hi ltac:(lia)) as Ht. apply Z.div_le_lower_bound; [apply pw_pos; lia|].
    rewrite <-pw_add by lia. by replace (ni + (mp_used a - ni - 1)) with (mp_used a - 1) by lia. }
  rewrite H2s, <-Z.div_div by (try apply Z.pow_pos_nonneg; try apply Z.neq_sym, Z.lt_neq, pw_pos; lia). rewrite <-HvA.
  destruct (Z.eqb_spec k 0) as [E|E].
  - rewrite E. change (2 ^ 0) with 1. rewrite Z.div_1_r. apply calc_rd; [lia|lia|lia|].
    set (src := sub (mp_dp a) ni (mp_used a - ni)). assert (Hsl : len src = mp_used a - ni) by (apply len_sub; lia).
    apply calc_wr; [lia|lia|]. sp_steps.
    assert (sp_raw n (val A (mp_used a - ni)) (set_digits (mp_used a - ni) (splice (mp_dp r) 0 src) r)) as Hraw.
    { split; cbn [set_digits mp_used mp_dp]; [|lia|].
      - apply sp_box_set; [done|apply len_splice; lia|]. apply digits_ok_splice; [done|by apply digits_ok_take, digits_ok_drop].
      - rewrite val_splice by lia. apply val_take. lia. }
    split; [done|]. split; [done|]. split; [cbn; lia|]. intros Hi. apply sp_raw_is; [done|]. right. cbn. by apply Htop.
  - set (j := mp_used a - 1 - ni).
    assert (HAd : forall i, 0 <= i -> A.[i] = (mp_dp a).[i + ni]) by (intros i Hi; unfold A; rewrite digit_drop, Z.add_comm by lia; done).
    apply (rshb_loop_is 0 n A k); [lia|done|lia|lia|done| |].
    { intros i dp Hi Hlen. sp_steps. rewrite !HAd by lia. by replace (i + 1 + ni) with (i + ni + 1) by lia. }
    intros dp Hsh. pose proof Hsh as (Hlen & _). sp_steps. rewrite <-HAd by lia. split; [done|].
    pose proof (shift_end n _ A k j dp r ltac:(lia) HA ltac:(lia) ltac:(lia) eq_refl Hr Hsh) as Hraw.
    replace (j + 1) with (mp_used a - ni) in Hraw by lia. split; [done|]. cbn [set_digits mp_used].
    change SP_INT_DIGITS with 35 in Hn35. rewrite w16_id in * by (destruct (0 <? _); cbn; lia). split; [destruct (0 <? _); cbn; lia|].
    intros Hi. apply sp_raw_is; [done|]. cbn [set_digits mp_used]. apply (shift_top A k j); [lia|done|lia| |].
    + replace (j + 1) with (mp_used a - ni) by lia. replace j with (mp_used a - ni - 1) by lia. by apply Htop.
    + by replace (j + 1) with (mp_used a - ni) by lia.
Qed.

Lemma div_2_used v : 0 <= v < 2 ^ 31 -> 1 - Z.shiftr (w32 (v - 1)) 31 = Z.b2z (0 <? v).
Proof.
  intros Hv. destruct (Z.ltb_spec 0 v); [|by replace v with 0 by lia]. cbn [Z.b2z].
  rewrite w32_id, Z.shiftr_div_pow2, Z.div_small by lia. done.
Qed.

Lemma _sp_div_2_raw na n va a r : sp_raw na va a -> sp_box n r -> mp_used a <= n -> (mp_used a = 0 -> (mp_dp a).[0] <= 1) ->
  calc e 0 (_sp_div_2 a r) (fun r' => sp_raw n (va / 2) r' /\ (sp_is na va a -> sp_is n (va / 2) r')).
Proof.
  intros Ha Hr Hn H0. pose proof Ha as [[_ Hna Hal Had] Hua Hv]. pose proof Hr as [Hrs Hn35 Hl Hd]. change SP_INT_DIGITS with 35 in Hn35.
  unfold _sp_div_2. set (j := Z.max 0 (mp_used a - 1)).
  assert (Hhalf : forall i, 0 <= Z.shiftr (mp_dp a).[i] 1 < 2 ^ 31).
  { intros i. pose proof (digit_range (mp_dp a) i Had). rewrite Z.shiftr_div_pow2 by lia. change (2 ^ 1) with 2. Z.div_mod_to_equations. lia. }
  destruct (Z.eq_dec (mp_used a) 0) as [E|E].
  - assert (va = 0) as -> by (rewrite <-Hv, E; done). change (0 / 2) with 0. unfold j. rewrite E. unfold for_range. cbn [Z.to_nat Z.sub Z.opp Z.max for_up].
    change (Z.to_nat (0 - 1 - 0)) with 0%nat. cbn [for_up]. change (Z.max 0 (0 - 1)) with 0. sp_steps.
    assert (Z.shiftr (mp_dp a).[0] 1 = 0) as -> .
    { pose proof (digit_range (mp_dp a) 0 Had). rewrite Z.shiftr_div_pow2 by lia. apply Z.div_small. specialize (H0 E). lia. }
    change (w16 _) with 0. pose proof (sp_zero_is n r Hr). split; [by apply sp_is_raw|done].
  - replace (mp_used a - 1) with j by lia. apply (rshb_loop_is 0 n (mp_dp a) 1); [lia|done|lia|lia|done| |].
    { intros i dp Hi Hlen. by sp_steps. }
    intros dp Hsh. pose proof Hsh as (Hlen & _). sp_steps. rewrite <-Z.add_sub_assoc, div_2_used by apply Hhalf.
    pose proof (shift_end n _ (mp_dp a) 1 j dp r ltac:(lia) Had ltac:(lia) ltac:(lia) eq_refl Hr Hsh) as Hraw.
    replace (j + 1) with (mp_used a) in Hraw by lia. rewrite Hv in Hraw. split; [done|]. intros Hi. apply sp_raw_is; [done|]. cbn [set_digits mp_used].
    rewrite w16_id by (destruct (0 <? _); cbn; lia). apply (shift_top (mp_dp a) 1 j); [lia|done|lia| |].
    + replace (j + 1) with (mp_used a) by lia. rewrite Hv. replace j with (mp_used a - 1) by lia. by apply (sp_is_top Hi).
    + replace (j + 1) with (mp_used a) by lia. by rewrite Hv.
Qed.

Lemma sp_div_2_is na n va a r : sp_is na va a -> sp_box n r -> (mp_used a = 0 -> (mp_dp a).[0] <= 1) ->
  calc e 0 (sp_div_2 a r) (fun '(err, r') =>
    if n <? mp_used a then err = MP_VAL /\ r' = r else err = 0 /\ sp_is n (va / 2) r').
Proof.
  intros Ha Hr H0. unfold sp_div_2. rewrite (sb_size _ _ Hr). destruct (Z.ltb_spec n (mp_used a)); [by sp_steps|].
  eapply calc_bind; [by apply (_sp_div_2_raw na n va); [apply sp_is_raw| | |]|]. intros r' [_ Hi]. sp_steps. auto.
Qed.

Lemma sp_rshb_is na n va a r s : sp_is na va a -> sp_box n r -> 0 <= s -> mp_used a - s / 32 <= n ->
  calc e 0 (sp_rshb a s r) (fun '(err, r') => err = 0 /\ sp_is n (va / 2 ^ s) r').
Proof.
  intros Ha Hr Hs Hn. eapply calc_mono; [apply (sp_rshb_raw na n va); [by apply sp_is_raw|done..]|]. intros [err r'] (? & _ & _ & ?). auto.
Qed.
End Down.

(** ** Shifting up *)

Lemma val_zeros_below dp s k : 0 <= s -> 0 <= k -> s + k <= len dp ->
  val (splice dp 0 (zeros s)) (s + k) = pw s * val (drop (Z.to_nat s) dp) k.
Proof.
  intros Hs Hk Hl. assert (Hz : len (zeros s) = s) by (by apply len_zeros).
  assert (Hls : len (splice dp 0 (zeros s)) = len dp) by (apply len_splice; lia).
  rewrite val_split, val_splice by lia.
  assert (val (zeros s) s = 0) as ->.
  { unfold val. rewrite take_ge by (unfold len in Hz; lia). unfold zeros. generalize (Z.to_nat s). induction n as [|n IH]; [done|]. cbn. lia. }
  f_equal. unfold splice. change (take (Z.to_nat 0) dp) with (@nil Z). cbn [app]. rewrite drop_app_length' by (unfold len in Hz; lia).
  replace (Z.to_nat 0 + length (zeros s))%nat with (Z.to_nat s) by (unfold len in Hz; lia). lia.
Qed.

Lemma shl_low x n : 0 < n < 32 -> w32 (Z.shiftl x n) = 2 ^ n * (x mod 2 ^ (32 - n)).
Proof.
  intros Hn. rewrite w32_mod, Z.shiftl_mul_pow2 by lia.
  replace (2 ^ 32) with (2 ^ (32 - n) * 2 ^ n) by (rewrite <-Z.pow_add_r by lia; f_equal; lia).
  rewrite Z.mul_mod_distr_r by (apply Z.pow_nonzero; lia). lia.
Qed.

(** The digits [G] of a number shifted up by [n] bits, without the digit above. *)
Lemma val_shifted_up A G n u : 0 < n < 32 -> digits_ok A -> u <= len A -> u <= len G ->
  G.[0] = 2 ^ n * (A.[0] mod 2 ^ (32 - n)) ->
  (forall i, 1 <= i < u -> G.[i] = 2 ^ n * (A.[i] mod 2 ^ (32 - n)) + A.[i - 1] / 2 ^ (32 - n)) ->
  forall k, 1 <= k <= u -> val G k + pw k * (A.[k - 1] / 2 ^ (32 - n)) = 2 ^ n * val A k.
Proof.
  intros Hn HA HuA HuG H0 Hi k Hk. assert (2 ^ 32 = 2 ^ n * 2 ^ (32 - n)) as Hp by (rewrite <-Z.pow_add_r by lia; f_equal; lia).
  assert (Hdm : forall i, A.[i] = 2 ^ (32 - n) * (A.[i] / 2 ^ (32 - n)) + A.[i] mod 2 ^ (32 - n)) by (intros; apply Z.div_mod; lia).
  replace k with (1 + (k - 1)) by lia. assert (0 <= k - 1 < u) as Hk' by lia. revert Hk'. generalize (k - 1). clear k Hk.
  intros k [Hk Hku]. revert Hku. pattern k. apply natlike_ind; [| |done].
  - intros Hu0. change (1 + 0) with (0 + 1). rewrite !val_succ, pw_succ, !val_0, pw_0 by lia. rewrite H0. change (0 + 1 - 1) with 0.
    specialize (Hdm 0). set (q := A.[0] / _) in *. set (m := A.[0] mod _) in *. rewrite Hdm, Hp. nia.
  - clear k Hk. intros k Hk IH Hku. replace (1 + Z.succ k) with (1 + k + 1) by lia. rewrite !(val_succ _ (1 + k)), (pw_succ (1 + k)) by lia.
    specialize (IH ltac:(lia)). rewrite Hi by lia. replace (1 + k + 1 - 1) with (1 + k) by lia. specialize (Hdm (1 + k)).
    set (q := A.[1 + k] / _) in *. set (m := A.[1 + k] mod _) in *. set (q' := A.[1 + k - 1] / _) in *. rewrite Hdm, Hp. nia.
Qed.

Section Up.
Context (e : env).

(** The loop leaves the digits shifted, [s] places up, all but the lowest. *)
Lemma lshb_loop_is {B} d A u s n (k : list Z -> M B) Q : 0 < n < 32 -> 0 <= s -> 0 < u -> u + s <= len A -> digits_ok A ->
  (forall dp, len dp = len A -> digits_ok dp -> dp.[0] = A.[0] ->
     (forall i, 1 <= i < u -> dp.[s + i] = 2 ^ n * (A.[i] mod 2 ^ (32 - n)) + A.[i - 1] / 2 ^ (32 - n)) -> calc e d (k dp) Q) ->
  calc e d (lshb_loop u s n A ≫= k) Q.
Proof.
  intros Hn Hs Hu Hl HA Hk. unfold lshb_loop.
  apply (calc_for_down e (fun c dp => len dp = len A /\ digits_ok dp /\ (forall j, 0 <= j <= c -> dp.[j] = A.[j]) /\
    (forall i, c < i < u -> dp.[s + i] = 2 ^ n * (A.[i] mod 2 ^ (32 - n)) + A.[i - 1] / 2 ^ (32 - n)))); rewrite ?Z2Nat.id by lia.
  - split; [done|]. split; [done|]. split; [done|]. intros; lia.
  - intros c dp Hc (Hlen & Hok & Hlow & Hhigh). sp_steps. rewrite !Hlow by lia. replace (c + 1 - 1) with c by lia.
    pose proof (digit_range A (c + 1) HA). pose proof (digit_range A c HA). rewrite shl_digit by lia.
    split; [by rewrite len_poke|]. split.
    { apply digits_ok_poke; [done|]. assert (2 ^ 32 = 2 ^ n * 2 ^ (32 - n)) as Hp by (rewrite <-Z.pow_add_r by lia; f_equal; lia).
      assert (0 < 2 ^ (32 - n)) by (apply Z.pow_pos_nonneg; lia).
      pose proof (Z.mod_pos_bound A.[c + 1] (2 ^ (32 - n)) ltac:(lia)). assert (0 <= A.[c] / 2 ^ (32 - n)) by (apply Z.div_pos; lia).
      assert (A.[c] / 2 ^ (32 - n) < 2 ^ n) by (apply Z.div_lt_upper_bound; lia). nia. }
    split.
    + intros j Hj. rewrite digit_poke_ne by lia. apply Hlow. lia.
    + intros i Hi. destruct (Z.eq_dec i (c + 1)) as [->|].
      * rewrite (Z.add_comm s), digit_poke by lia. by replace (c + 1 - 1) with c by lia.
      * rewrite digit_poke_ne by lia. apply Hhigh. lia.
  - intros dp (Hlen & Hok & Hlow & Hhigh). apply Hk; [done|done|apply Hlow; lia|]. intros i Hi. apply Hhigh. lia.
Qed.

(** The number moved up by [s] digits from the digits of [dp]. *)
Lemma sp_up_is n a s u v dp : sp_box n a -> len dp = len (mp_dp a) -> digits_ok dp -> 0 <= s -> 0 <= u -> u + s <= n ->
  val (drop (Z.to_nat s) dp) u = v -> (u = 0 /\ s = 0) \/ pw (u - 1 + s) <= pw s * v ->
  calc e 0 (wr dp 0 (zeros s) ≫= fun dp => mret (0, set_digits (w16 (u + s)) dp a))
    (fun '(err, a') => err = 0 /\ sp_is n (pw s * v) a').
Proof.
  intros Hb Hl Hd Hs Hu Hn Hv Ht. pose proof Hb as [_ Hn35 Hla _]. change SP_INT_DIGITS with 35 in Hn35.
  assert (Hz : len (zeros s) = s) by (by apply len_zeros). apply calc_wr; [lia|lia|]. sp_steps. split; [done|]. rewrite w16_id by lia.
  apply sp_exact; [done|rewrite len_splice; lia|by apply digits_ok_splice; [|apply digits_ok_zeros]|lia| |].
  - rewrite (Z.add_comm u), val_zeros_below by lia. by rewrite Hv.
  - destruct Ht as [[-> ->]|Ht]; [by left|right]. by replace (u + s - 1) with (u - 1 + s) by lia.
Qed.

Lemma lshb_bits_is n va a s m : sp_is n va a -> mp_used a <> 0 -> 0 < m < 32 -> 0 <= s -> mp_used a + s < n ->
  calc e 0 (lshb_bits a s m) (fun '(u, dp) => len dp = len (mp_dp a) /\ digits_ok dp /\ 0 <= u /\ u + s <= n /\
    val (drop (Z.to_nat s) dp) u = 2 ^ m * va /\ pw (u - 1 + s) <= pw s * (2 ^ m * va)).
Proof.
  intros Ha E Hm Hs Hn. pose proof (sp_is_top Ha E) as Ht. pose proof Ha as [[_ _ Hl Hd] Hua _ Hv]. set (A := mp_dp a) in *. set (ua := mp_used a) in *.
  unfold lshb_bits. fold A ua. sp_step. cbv zeta. pose proof (digit_range A (ua - 1) Hd) as Htd.
  rewrite Z.shiftr_div_pow2 by lia. set (v := A.[ua - 1] / 2 ^ (32 - m)).
  assert (H32 : 2 ^ 32 = 2 ^ m * 2 ^ (32 - m)) by (rewrite <-Z.pow_add_r by lia; f_equal; lia).
  assert (Hp1 : 0 < 2 ^ (32 - m)) by (apply Z.pow_pos_nonneg; lia).
  assert (Hvr : 0 <= v < 2 ^ 32) by (unfold v; split; [apply Z.div_pos; lia|apply Z.div_lt_upper_bound; nia]).
  apply (lshb_loop_is _ A); [lia|lia|lia|lia|done|]. intros dp Hlen Hok Hd0 Hdi. sp_step. sp_step. rewrite Hd0, shl_low by lia.
  set (lo := 2 ^ m * (A.[0] mod 2 ^ (32 - m))). assert (Hlo : 0 <= lo < 2 ^ 32).
  { unfold lo. pose proof (Z.mod_pos_bound A.[0] (2 ^ (32 - m)) ltac:(lia)). nia. }
  set (dp1 := dp.[s := lo]). assert (Hl1 : len dp1 = len A) by (unfold dp1; by rewrite len_poke).
  assert (Hok1 : digits_ok dp1) by (by apply digits_ok_poke). pose proof (pw_pos s Hs) as Hps.
  assert (HG : val (drop (Z.to_nat s) dp1) ua + pw ua * v = 2 ^ m * va).
  { rewrite <-Hv. apply (val_shifted_up A _ m ua); [done|done|lia|rewrite len_drop; lia| | |lia].
    - rewrite digit_drop, Z.add_0_r by lia. unfold dp1. apply digit_poke. lia.
    - intros i Hi. rewrite digit_drop by lia. unfold dp1. rewrite digit_poke_ne by lia. apply Hdi. lia. }
  destruct (Z.eqb_spec v 0) as [Ev|Ev]; cbn [negb]; sp_steps.
  - split; [done|]. split; [done|]. split; [lia|]. split; [lia|]. split; [lia|].
    rewrite pw_add by lia. assert (1 <= 2 ^ m) by (apply (Z.pow_le_mono_r 2 0); lia). pose proof (pw_pos (ua - 1) ltac:(lia)).
    assert (pw (ua - 1) <= 2 ^ m * va) by nia. rewrite (Z.mul_comm (pw (ua - 1))). apply Z.mul_le_mono_nonneg_l; lia.
  - split; [by rewrite len_poke|]. split; [by apply digits_ok_poke|]. split; [lia|]. split; [lia|].
    assert (Hv1 : val (drop (Z.to_nat s) dp1.[ua + s := v]) (ua + 1) = 2 ^ m * va).
    { rewrite val_succ by (rewrite len_drop; rewrite ?len_poke; lia). rewrite <-HG. f_equal.
      - apply val_ext; [lia|rewrite len_drop; rewrite ?len_poke; lia|rewrite len_drop; lia|].
        intros i Hi. rewrite !digit_drop by lia. apply digit_poke_ne; lia.
      - rewrite digit_drop by lia. rewrite (Z.add_comm s ua), digit_poke by lia. done. }
    split; [done|]. replace (ua + 1 - 1 + s) with (s + ua) by lia. rewrite pw_add by lia.
    pose proof (val_range _ ua (digits_ok_drop (Z.to_nat s) _ Hok1) ltac:(lia)). pose proof (pw_pos ua ltac:(lia)). nia.
Qed.

Lemma sp_lshb_is n va a k : sp_is n va a -> 0 <= k < 2 ^ 16 ->
  calc e 0 (sp_lshb a k) (fun '(err, a') =>
    if negb (mp_used a =? 0) && (n <? mp_used a + k / 32 + Z.b2z (negb (k mod 32 =? 0))) then err = MP_VAL /\ a' = a
    else err = 0 /\ sp_is n (va * 2 ^ k) a').
Proof.
  intros Ha Hk. pose proof (sp_is_0 Ha) as H0. pose proof (sp_is_top Ha) as Ht. pose proof Ha as [Hb Hua _ Hv]. pose proof Hb as [Hs Hn35 Hl Hd].
  unfold sp_lshb. destruct (Z.eqb_spec (mp_used a) 0) as [E|E]; cbn [negb andb].
  { sp_steps. apply H0 in E as ->. by rewrite Z.mul_0_l. }
  specialize (Ht E). rewrite w16_id, Z.shiftr_div_pow2 by lia. change (2 ^ 5) with 32. change 31 with (Z.ones 5). rewrite Z.land_ones by lia. change (2 ^ 5) with 32.
  assert (Hk32 : k = 32 * (k / 32) + k mod 32) by (apply Z.div_mod; lia). pose proof (Z.mod_pos_bound k 32 ltac:(lia)) as Hkm.
  set (s := k / 32) in *. set (m := k mod 32) in *. assert (Hs0 : 0 <= s) by (apply Z.div_pos; lia).
  assert (H2k : va * 2 ^ k = pw s * (2 ^ m * va)) by (rewrite Hk32, Z.pow_add_r by lia; unfold pw; lia). rewrite H2k, Hs.
  destruct (Z.eqb_spec m 0) as [Em|Em]; cbn [negb andb Z.b2z].
  - rewrite Z.add_0_r, Em, Z.pow_0_r, Z.mul_1_l. destruct (Z.ltb_spec 0 s) as [Hsp|Hsp]; cbn [andb].
    + destruct (Z.ltb_spec n (mp_used a + s)); [by sp_steps|]. apply calc_assoc, calc_rd; [lia|lia|lia|]. apply calc_assoc.
      set (src := sub (mp_dp a) 0 (mp_used a)). assert (Hsl : len src = mp_used a) by (apply len_sub; lia).
      apply calc_wr; [lia|lia|]. calc_step. apply sp_up_is; [done|rewrite len_splice; lia| |lia|lia|lia| |right].
      * apply digits_ok_splice; [done|]. by apply digits_ok_take, digits_ok_drop.
      * unfold splice. rewrite drop_app_length' by (rewrite length_take; unfold len in *; lia). unfold val.
        rewrite take_app_le by (unfold len in *; lia). unfold src, sub. rewrite drop_0, take_take, Nat.min_id. done.
      * rewrite pw_add by lia. pose proof (pw_pos s Hs0). nia.
    + assert (s = 0) as -> by lia. rewrite Z.add_0_r, (proj2 (Z.ltb_ge n _)) by lia. calc_step.
      apply sp_up_is; [done|done|done|lia|lia|lia|done|right]. rewrite Z.add_0_r, pw_0. lia.
  - destruct (Z.leb_spec n (mp_used a + s)), (Z.ltb_spec n (mp_used a + s + 1)); try lia; [by sp_steps|].
    rewrite (proj2 (Z.ltb_ge n (mp_used a + s))), andb_false_r by lia.
    eapply calc_bind; [apply (lshb_bits_is n va); try done; lia|]. intros [u dp] (Hlen & Hok & Hu & Hun & Hvu & Htu).
    apply sp_up_is; try done. by right.
Qed.
End Up.

(** ** Single bits *)

Lemma digit_of_val dp n k : digits_ok dp -> 0 <= k < n -> n <= len dp -> val dp n / pw k mod 2 ^ 32 = dp.[k].
Proof.
  intros Hd Hk Hn. pose proof (val_split dp k (n - k) ltac:(lia) ltac:(lia) ltac:(lia)) as E. replace (k + (n - k)) with n in E by lia.
  pose proof (val_split (drop (Z.to_nat k) dp) 1 (n - k - 1) ltac:(lia) ltac:(lia)) as E'. rewrite len_drop in E' by lia. specialize (E' ltac:(lia)).
  replace (1 + (n - k - 1)) with (n - k) in E' by lia. change 1 with (0 + 1) in E' at 1.
  rewrite val_succ, val_0, pw_0, digit_drop, Z.add_0_r in E' by (rewrite ?len_drop; lia).
  rewrite E, Z.mul_comm, Z.div_add by (pose proof (pw_pos k); lia). rewrite Z.div_small by (apply val_range; [done|lia]).
  rewrite E'. change (pw 1) with (2 ^ 32). rewrite Z.add_0_l, (Z.mul_comm (2 ^ 32)), Z.mod_add, Z.mul_1_l by lia.
  apply Z.mod_small. by apply digit_range.
Qed.

Lemma testbit_val dp n k s : digits_ok dp -> 0 <= k < n -> n <= len dp -> 0 <= s < 32 ->
  Z.testbit (val dp n) (32 * k + s) = Z.testbit dp.[k] s.
Proof.
  intros Hd Hk Hn Hs. rewrite <-(digit_of_val dp n k) by done. rewrite Z.mod_pow2_bits_low by lia. unfold pw.
  rewrite Z.div_pow2_bits by lia. f_equal. lia.
Qed.

(** Bits beyond the digits in use are zero. *)
Lemma testbit_out n v a i : sp_raw n v a -> 32 * mp_used a <= i -> Z.testbit v i = false.
Proof.
  intros Ha Hi. pose proof (sp_raw_range _ _ _ Ha) as Hv. destruct Ha as [_ Hu _].
  rewrite <-(Z.mod_small v (pw (mp_used a))) by done. apply Z.mod_pow2_bits_high. lia.
Qed.

Lemma lor_pow2 a i : 0 <= i -> Z.lor a (2 ^ i) = a + (if Z.testbit a i then 0 else 2 ^ i).
Proof.
  intros Hi. destruct (Z.testbit a i) eqn:E.
  - rewrite Z.add_0_r. rewrite <-Z.setbit_spec'. apply Z.bits_inj'. intros j Hj.
    rewrite Z.setbit_eqb by done. destruct (Z.eqb_spec i j) as [<-|]; [by rewrite E|done].
  - symmetry. apply Z.add_nocarry_lor. apply Z.bits_inj'. intros j Hj. rewrite Z.land_spec, Z.bits_0, Z.pow2_bits_eqb by done.
    destruct (Z.eqb_spec i j) as [<-|]; [by rewrite E|apply andb_false_r].
Qed.

Section Bits.
Context (e : env).

(** Zeros from the top of a number on. *)
Lemma zero_fill_is {B} d dp lo hi (k : list Z -> M B) Q : 0 <= lo -> hi <= len dp -> digits_ok dp ->
  (forall dp', len dp' = len dp -> digits_ok dp' -> (forall i, lo <= i < hi -> dp'.[i] = 0) ->
    (forall i, 0 <= i < lo \/ Z.max lo hi <= i -> dp'.[i] = dp.[i]) -> calc e d (k dp') Q) ->
  calc e d (for_range lo hi (fun j dp => poke dp j 0) dp ≫= k) Q.
Proof.
  intros Hlo Hdp Hdok Hk.
  apply (calc_for_range_max e (fun i dp' => len dp' = len dp /\ digits_ok dp' /\ (forall j, lo <= j < i -> dp'.[j] = 0) /\
    (forall j, 0 <= j < lo \/ i <= j -> dp'.[j] = dp.[j]))).
  - split; [done|]. split; [done|]. split; [intros; lia|done].
  - intros i dp' Hi (Hl & Hd & H1 & H2). sp_steps. split; [by rewrite len_poke|]. split; [by apply digits_ok_poke|].
    split; intros j Hj.
    + destruct (Z.eq_dec j i) as [->|]; [by rewrite digit_poke by lia|]. rewrite digit_poke_ne by lia. apply H1. lia.
    + rewrite digit_poke_ne by lia. apply H2. lia.
  - intros dp' (Hl & Hd & H1 & H2). apply Hk; [done|done| |done]. intros i Hi. apply H1. lia.
Qed.

Lemma val_zeros_above dp u n : 0 <= u <= n -> n <= len dp -> (forall i, u <= i < n -> dp.[i] = 0) -> val dp n = val dp u.
Proof.
  intros Hu Hn Hz. assert (forall k, 0 <= k -> u + k <= n -> val dp (u + k) = val dp u) as H.
  { apply (natlike_ind (fun k => u + k <= n -> _)); [intros _; by rewrite Z.add_0_r|].
    intros k Hk IH Hkn. replace (u + Z.succ k) with (u + k + 1) by lia. rewrite val_succ, IH, Hz by lia. lia. }
  specialize (H (n - u) ltac:(lia) ltac:(lia)). by replace (u + (n - u)) with n in H by lia.
Qed.

(** One digit replaced. *)
Lemma val_replace dp n k v : 0 <= k < n -> n <= len dp -> val dp.[k := v] n = val dp n + pw k * (v - dp.[k]).
Proof.
  intros Hk Hn. pose proof (val_above_poke dp k n v Hk Hn) as H. rewrite (val_poke_ge dp k k) in H by lia.
  rewrite (val_succ dp k) in H by lia. lia.
Qed.

Lemma sp_set_bit_is n va a i : sp_is n va a -> 0 <= i -> i / 32 < n ->
  calc e 0 (sp_set_bit a i) (fun '(err, a') => err = 0 /\ sp_is n (Z.lor va (2 ^ i)) a').
Proof.
  intros Ha Hi Hin. pose proof (sp_is_top Ha) as Ht. pose proof Ha as [Hb Hua _ Hv]. pose proof Hb as [Hs Hn35 Hl Hd]. change SP_INT_DIGITS with 35 in Hn35.
  unfold sp_set_bit. rewrite (proj2 (Z.ltb_ge i 0)) by lia. cbn [orb]. rewrite Z.shiftr_div_pow2 by lia. change (2 ^ 5) with 32.
  change 31 with (Z.ones 5). rewrite Z.land_ones by lia. change (2 ^ 5) with 32.
  assert (Hi32 : i = 32 * (i / 32) + i mod 32) by (apply Z.div_mod; lia). pose proof (Z.mod_pos_bound i 32 ltac:(lia)) as Him.
  set (w := i / 32) in *. set (s := i mod 32) in *. assert (0 <= w) by (apply Z.div_pos; lia).
  rewrite Hs, (proj2 (Z.ltb_ge _ i)), (proj2 (Z.leb_gt n w)) by (change SP_INT_DIGITS with 35; lia).
  apply zero_fill_is; [lia|lia|done|]. intros dp Hlen Hok Hz Hsame. sp_steps. rewrite Z.shiftl_1_l.
  pose proof (digit_range dp w Hok) as Hx. split; [done|]. set (u := Z.max (mp_used a) (w + 1)).
  assert (Hvu : val dp u = va).
  { rewrite <-Hv, (val_zeros_above dp (mp_used a) u); [|lia|lia|intros; apply Hz; lia]. apply val_ext; [lia|lia|lia|]. intros. apply Hsame. lia. }
  replace (if mp_used a <=? w then w16 (w + 1) else mp_used a) with u
    by (destruct (Z.leb_spec (mp_used a) w); rewrite ?w16_id; lia).
  assert (H2i : 2 ^ i = pw w * 2 ^ s) by (rewrite Hi32; unfold pw; by rewrite Z.pow_add_r by lia).
  assert (2 ^ s <= 2 ^ 31) by (apply Z.pow_le_mono_r; lia). assert (0 < 2 ^ s) by (apply Z.pow_pos_nonneg; lia).
  assert (Hlor : 0 <= Z.lor dp.[w] (2 ^ s) < 2 ^ 32) by (apply lor_bound; lia).
  apply sp_exact; [done|by rewrite len_poke|by apply digits_ok_poke|lia| |right].
  - rewrite val_replace, Hvu, !lor_pow2 by lia. rewrite H2i.
    assert (Z.testbit va i = Z.testbit dp.[w] s) as -> by (rewrite <-Hvu, Hi32; apply testbit_val; [done|lia..]).
    destruct (Z.testbit dp.[w] s); lia.
  - assert (va <= Z.lor va (2 ^ i)) by (rewrite lor_pow2 by lia; destruct (Z.testbit va i); lia).
    destruct (Z.leb_spec (mp_used a) w).
    + replace (u - 1) with w by lia. rewrite lor_pow2 by lia. rewrite (testbit_out n va a) by (eauto with wf || lia).
      pose proof (sp_is_range Ha). nia.
    + replace (u - 1) with (mp_used a - 1) by lia. specialize (Ht ltac:(lia)). lia.
Qed.

(** ** Powers of two *)

Lemma sp_2expt_is n a i : sp_box n a -> 0 <= i -> i / 32 < n ->
  calc e 0 (sp_2expt a i) (fun '(err, a') => err = 0 /\ sp_is n (2 ^ i) a').
Proof.
  intros Ha Hi Hn. unfold sp_2expt. rewrite (proj2 (Z.ltb_ge _ _)) by lia.
  eapply calc_mono; [apply (sp_set_bit_is n 0); [by apply sp_zero_is|done|done]|]. intros [err a']. by rewrite Z.lor_0_l.
Qed.

Lemma sp_count_bits_used n v a : sp_is n v a -> 0 <= sp_count_bits a <= 32 * mp_used a.
Proof.
  intros Ha. rewrite sp_count_bits_num by (by eapply sp_is_num). pose proof (sp_is_range Ha) as Hr. pose proof (si_used _ _ _ Ha).
  destruct (Z.eqb_spec v 0) as [E|E]; rewrite (sp_is_sp_val _ _ _ Ha), ?(proj2 (Z.eqb_eq _ _) E), ?(proj2 (Z.eqb_neq _ _) E); [lia|].
  pose proof (Z.log2_nonneg v). assert (Z.log2 v < 32 * mp_used a); [|lia]. apply Z.log2_lt_pow2; [lia|]. apply Hr.
Qed.

Lemma sp_mul_2d_is na n va a k r : sp_is na va a -> sp_box n r -> 0 <= k < 2 ^ 16 -> mp_used a + k / 32 + 1 <= n ->
  calc e 0 (sp_mul_2d a k r) (fun '(err, r') => err = 0 /\ sp_is n (va * 2 ^ k) r').
Proof.
  intros Ha Hr Hk Hn. unfold sp_mul_2d. rewrite (proj2 (Z.ltb_ge k 0)) by lia. pose proof (sp_count_bits_used _ _ _ Ha) as Hc.
  pose proof (sb_n _ _ Hr) as Hn35. change SP_INT_DIGITS with 35 in Hn35.
  assert (0 <= k / 32) by (apply Z.div_pos; lia). rewrite (sb_size _ _ Hr), w32_id by lia. rewrite (proj2 (Z.ltb_ge (n * 32) _)) by (Z.div_mod_to_equations; lia).
  destruct (sp_copy_spec n na va a r Ha Hr ltac:(lia)) as (r' & -> & Hr'). eval_tests.
  eapply calc_mono; [by apply (sp_lshb_is _ n va)|]. intros [err b]. rewrite <-(sp_is_same_used _ _ _ _ _ Ha Hr').
  rewrite (proj2 (Z.ltb_ge n _)), andb_false_r by (destruct (negb _); cbn; lia). done.
Qed.

(** Keeping [e] bits of the top digit keeps [e] bits of the number above the others. *)
Lemma mask_digit_is {B} d dp i b (k : list Z -> M B) Q : 0 <= b < 32 -> (0 < b -> 0 <= i < len dp) -> digits_ok dp ->
  (forall dp', len dp' = len dp -> digits_ok dp' -> (0 < b -> dp' = dp.[i := dp.[i] mod 2 ^ b]) -> (b = 0 -> dp' = dp) -> calc e d (k dp') Q) ->
  calc e d (mask_digit dp i b ≫= k) Q.
Proof.
  intros Hb Hi Hd Hk. unfold mask_digit. destruct (Z.ltb_spec 0 b) as [Hp|Hz].
  - specialize (Hi Hp). calc_step. sp_step. sp_step. rewrite Z.shiftl_1_l. replace (2 ^ b - 1) with (Z.ones b) by (rewrite Z.ones_equiv; lia).
    assert (0 < 2 ^ b) by (apply Z.pow_pos_nonneg; lia).
    rewrite Z.land_ones by lia. pose proof (digit_range dp i Hd). pose proof (Z.mod_pos_bound dp.[i] (2 ^ b) ltac:(lia)).
    assert (dp.[i] mod 2 ^ b <= dp.[i]) by (apply Z.mod_le; lia). apply Hk; [by rewrite len_poke|apply digits_ok_poke; [done|lia]|done|lia].
  - calc_step. apply Hk; [done|done|lia|done].
Qed.

(** The low [k] bits of the digits of [dp]. *)
Lemma val_low_bits dp k u : digits_ok dp -> 0 <= k -> k / 32 + Z.b2z (negb (k mod 32 =? 0)) <= u -> u <= len dp ->
  val dp u mod 2 ^ k = (if k mod 32 =? 0 then val dp (k / 32) else val dp.[k / 32 := dp.[k / 32] mod 2 ^ (k mod 32)] (k / 32 + 1)).
Proof.
  intros Hd Hk Hu Hl. assert (Hk32 : k = 32 * (k / 32) + k mod 32) by (apply Z.div_mod; lia). pose proof (Z.mod_pos_bound k 32 ltac:(lia)) as Hkm.
  set (w := k / 32) in *. set (s := k mod 32) in *. assert (0 <= w) by (apply Z.div_pos; lia). pose proof (val_range dp w Hd ltac:(lia)).
  assert (H2k : 2 ^ k = pw w * 2 ^ s) by (rewrite Hk32; unfold pw; by rewrite Z.pow_add_r by lia).
  pose proof (val_split dp w (u - w) ltac:(lia)) as E. replace (w + (u - w)) with u in E by lia.
  destruct (Z.eqb_spec s 0) as [Es|Es]; cbn [negb Z.b2z] in Hu; specialize (E ltac:(lia) ltac:(lia)); rewrite E, H2k.
  - rewrite Es, Z.pow_0_r, Z.mul_1_r, (Z.mul_comm (pw w)), Z.mod_add by lia. by apply Z.mod_small.
  - rewrite val_poke by lia. pose proof (digit_of_val dp u w Hd ltac:(lia) Hl) as Hx. rewrite E in Hx.
    set (h := val (drop _ _) _) in *. rewrite (Z.mul_comm (pw w) h), Z.div_add, Z.div_small, Z.add_0_l in Hx by lia.
    assert (0 < 2 ^ s) by (apply Z.pow_pos_nonneg; lia). rewrite <-Hx.
    replace (2 ^ 32) with (2 ^ s * 2 ^ (32 - s)) by (rewrite <-Z.pow_add_r by lia; f_equal; lia).
    assert (h mod (2 ^ s * 2 ^ (32 - s)) mod 2 ^ s = h mod 2 ^ s) as ->.
    { rewrite Z.rem_mul_r by (try apply Z.pow_pos_nonneg; try apply Z.pow_nonzero; lia).
      rewrite Z.mul_comm, Z.mod_add, Z.mod_mod by lia. done. }
    pose proof (Z.div_mod h (2 ^ s) ltac:(lia)). pose proof (Z.mod_pos_bound h (2 ^ s) ltac:(lia)).
    pose proof (pw_pos w ltac:(lia)). symmetry. apply (Z.mod_unique _ _ (h / 2 ^ s)); [left|]; nia.
Qed.

(** Digits in use after the top of the low [k] bits. *)
Lemma digits_for_bits k : 0 <= k -> Z.shiftr k 5 + (if negb (Z.land k 31 =? 0) then 1 else 0) = k / 32 + Z.b2z (negb (k mod 32 =? 0)) /\
  Z.shiftr (k + 31) 5 = k / 32 + Z.b2z (negb (k mod 32 =? 0)).
Proof.
  intros Hk. change 31 with (Z.ones 5) at 1. rewrite Z.land_ones, !Z.shiftr_div_pow2 by lia. change (2 ^ 5) with 32.
  destruct (Z.eqb_spec (k mod 32) 0); cbn [negb Z.b2z]; split; try lia; Z.div_mod_to_equations; lia.
Qed.

(** The low [k] bits of a number of at least as many digits. *)
Lemma low_bits_is {B} d n u dp k r (f : mp_int -> M B) Q : sp_box n r -> len dp = len (mp_dp r) -> digits_ok dp -> 0 <= k ->
  k / 32 + Z.b2z (negb (k mod 32 =? 0)) <= u -> u <= n ->
  (forall r', sp_is n (val dp u mod 2 ^ k) r' -> calc e d (f r') Q) ->
  calc e d (mask_digit dp (k / 32 + Z.b2z (negb (k mod 32 =? 0)) - 1) (k mod 32) ≫=
    fun dp => f (sp_clamp (set_digits (k / 32 + Z.b2z (negb (k mod 32 =? 0))) dp r))) Q.
Proof.
  intros Hr Hl Hd Hk Hu Hn Hf. pose proof Hr as [_ _ Hrl _]. pose proof (Z.mod_pos_bound k 32 ltac:(lia)) as Hkm. assert (0 <= k / 32) by (apply Z.div_pos; lia).
  apply mask_digit_is; [done| |done|].
  { intros Hp. rewrite (proj2 (Z.eqb_neq _ 0)) in * by lia. cbn [negb Z.b2z] in *. lia. }
  intros dp' Hl' Hd' Hp Hz. apply Hf. rewrite val_low_bits by (done || lia).
  destruct (Z.eqb_spec (k mod 32) 0) as [E|E]; cbn [negb Z.b2z] in *.
  - rewrite Hz by done. rewrite Z.add_0_r. apply sp_finish; [done|done|done|lia|done].
  - specialize (Hp ltac:(lia)). replace (k / 32 + 1 - 1) with (k / 32) in Hp by lia. rewrite <-Hp. apply sp_finish; [done|lia|done|lia|done].
Qed.

Lemma sp_mod_2d_is na n va a k r : sp_is na va a -> sp_box n r -> 0 <= k ->
  calc e 0 (sp_mod_2d a k r) (fun '(err, r') =>
    if n <? k / 32 + Z.b2z (negb (k mod 32 =? 0)) then err = MP_VAL /\ r' = r else err = 0 /\ sp_is n (va mod 2 ^ k) r').
Proof.
  intros Ha Hr Hk. pose proof (sp_is_range Ha) as Hva. pose proof Ha as [[_ _ Hal Had] Hua Ht Hv]. pose proof Hr as [Hrs _ Hrl Hrd].
  unfold sp_mod_2d. rewrite (proj2 (Z.ltb_ge k 0)) by lia. destruct (digits_for_bits k Hk) as [-> _]. rewrite Hrs.
  set (D := k / 32 + _). destruct (Z.ltb_spec n D) as [|HDn]; [by sp_steps|]. assert (HD : 0 <= D /\ k <= 32 * D).
  { unfold D. pose proof (Z.mod_pos_bound k 32 ltac:(lia)). destruct (Z.eqb_spec (k mod 32) 0); cbn; Z.div_mod_to_equations; lia. }
  set (c := if mp_used a <? D then mp_used a else D). assert (Hc : 0 <= c <= mp_used a /\ c <= D) by (unfold c; destruct (Z.ltb_spec (mp_used a) D); lia).
  apply calc_rd; [lia|lia|lia|]. set (src := sub (mp_dp a) 0 c). assert (Hsl : len src = c) by (apply len_sub; lia).
  assert (Hsok : digits_ok src) by (by apply digits_ok_take, digits_ok_drop).
  assert (Hsv : forall i, 0 <= i <= c -> val src i = val (mp_dp a) i) by (intros; unfold src, sub; rewrite drop_0; by apply val_take).
  apply calc_wr; [lia|lia|]. set (dp := splice (mp_dp r) 0 src). assert (Hl : len dp = len (mp_dp r)) by (apply len_splice; lia).
  assert (Hok : digits_ok dp) by (by apply digits_ok_splice). change 31 with (Z.ones 5). rewrite Z.land_ones by lia. change (2 ^ 5) with 32.
  destruct (Z.leb_spec D (mp_used a)) as [HDu|HDu].
  - assert (c = D) as Ec by (unfold c; destruct (Z.ltb_spec (mp_used a) D); lia).
    unfold D. apply (low_bits_is 0 n D dp k r (fun r' => mret (0, r'))); [done|done|done|done|unfold D; lia|lia|]. intros r' Hr'. sp_steps. split; [done|].
    replace (va mod 2 ^ k) with (val dp D mod 2 ^ k); [done|]. unfold dp. rewrite val_splice, Hsv by lia.
    rewrite <-Hv. rewrite !val_low_bits by (done || (unfold D in *; lia)). done.
  - assert (c = mp_used a) as Ec by (unfold c; destruct (Z.ltb_spec (mp_used a) D); lia). sp_steps. split; [done|].
    assert (va < 2 ^ k).
    { eapply Z.lt_le_trans; [apply Hva|]. apply Z.pow_le_mono_r; [lia|]. unfold D in HDu. destruct (Z.eqb_spec (k mod 32) 0); cbn in *; Z.div_mod_to_equations; lia. }
    rewrite Z.mod_small by lia. apply sp_exact; [done|done|done|lia| |].
    + unfold dp. rewrite val_splice, Hsv by lia. done.
    + destruct (Z.eq_dec (mp_used a) 0); [by left|right]. by apply (sp_is_top Ha).
Qed.

(** The whole of a number in [k] bits, when it has no more. *)
Lemma sp_count_bits_le n v a k : sp_is n v a -> 0 <= k -> (sp_count_bits a - k <=? 0) = (v <? 2 ^ k).
Proof.
  intros Ha Hk. pose proof (sp_is_range Ha) as Hr. rewrite (sp_count_bits_num a), (sp_is_sp_val _ _ _ Ha) by (by eapply sp_is_num).
  assert (0 < 2 ^ k) by (apply Z.pow_pos_nonneg; lia). destruct (Z.eqb_spec v 0) as [->|E].
  { rewrite (proj2 (Z.leb_le _ _)), (proj2 (Z.ltb_lt _ _)); lia. }
  destruct (Z.ltb_spec v (2 ^ k)) as [Hlt|Hge].
  - apply Z.leb_le. assert (Z.log2 v < k) by (apply Z.log2_lt_pow2; lia). lia.
  - apply Z.leb_gt. assert (k <= Z.log2 v) by (apply Z.log2_le_pow2; lia). lia.
Qed.

Lemma sp_div_2d_is na n nm va a k r m : sp_is na va a -> sp_box n r -> sp_box nm m -> 0 <= k < 2 ^ 16 ->
  mp_used a <= n -> mp_used a <= nm ->
  calc e 0 (sp_div_2d a k r (Some m) false) (fun '(err, r', m') =>
    err = 0 /\ sp_is n (va / 2 ^ k) r' /\ exists m1, m' = Some m1 /\ sp_is nm (va mod 2 ^ k) m1).
Proof.
  intros Ha Hr Hm Hk Hn Hnm. pose proof (sp_is_range Ha) as Hva. unfold sp_div_2d. rewrite (proj2 (Z.ltb_ge k 0)) by lia.
  rewrite (sp_count_bits_le na va a k Ha) by lia. unfold sp_copy_opt. destruct (sp_copy_spec nm na va a m Ha Hm Hnm) as (m1 & -> & Hm1).
  destruct (Z.ltb_spec va (2 ^ k)) as [Hlt|Hge].
  { sp_steps. split; [done|]. rewrite Z.div_small, Z.mod_small by lia. split; [by apply sp_zero_is|eauto]. }
  eval_tests. assert (0 <= k / 32) by (apply Z.div_pos; lia).
  eapply calc_bind; [apply (sp_rshb_is e na n va); [done|done|lia|lia]|]. intros [err r'] [-> Hr']. eval_tests.
  destruct (digits_for_bits k ltac:(lia)) as [_ ->]. change 31 with (Z.ones 5). rewrite Z.land_ones by lia. change (2 ^ 5) with 32.
  assert (k / 32 + Z.b2z (negb (k mod 32 =? 0)) <= mp_used a).
  { pose proof (si_used _ _ _ Ha). assert (k < 32 * mp_used a). { apply (Z.pow_lt_mono_r_iff 2); [lia|lia|]. unfold pw in Hva. lia. }
    destruct (Z.eqb_spec (k mod 32) 0); cbn; Z.div_mod_to_equations; lia. }
  pose proof (si_box _ _ _ Hm1) as Hb1. pose proof (sb_n _ _ Hb1) as Hn35. change SP_INT_DIGITS with 35 in Hn35.
  pose proof (sp_is_same_used _ _ _ _ _ Ha Hm1) as Hu1. rewrite w16_id by (destruct (negb _); cbn in *; lia).
  apply (low_bits_is 0 nm (mp_used m1) (mp_dp m1) k m1 (fun m' => mret (0, r', Some m'))); [done|done|apply Hb1|lia|lia|lia|].
  intros m2 Hm2. sp_steps. split; [done|]. split; [done|]. rewrite (sp_is_val_used Hm1) in Hm2. eauto.
Qed.

(** In place, a dividend below 2^k leaves the remainder 0: it is cleared before it is copied. *)
Lemma sp_div_2d_in_place na nm va a k m : sp_is na va a -> sp_box nm m -> 0 <= k -> va < 2 ^ k ->
  calc e 0 (sp_div_2d a k a (Some m) true) (fun '(err, r', m') =>
    err = 0 /\ sp_is na 0 r' /\ exists m1, m' = Some m1 /\ sp_is nm 0 m1).
Proof.
  intros Ha Hm Hk Hva. unfold sp_div_2d. rewrite (proj2 (Z.ltb_ge k 0)) by lia. rewrite (sp_count_bits_le na va a k Ha) by lia.
  rewrite (proj2 (Z.ltb_lt _ _)) by lia. pose proof (sp_zero_is na a (si_box _ _ _ Ha)) as Hz. unfold sp_copy_opt.
  pose proof (sb_n _ _ Hm). destruct (sp_copy_spec nm na 0 _ m Hz Hm ltac:(cbn; lia)) as (m1 & -> & Hm1). sp_steps. eauto.
Qed.

Lemma sp_lshd_is n va a s : sp_is n va a -> 0 <= s < 2 ^ 31 ->
  calc e 0 (sp_lshd a s) (fun '(err, a') =>
    if n <? mp_used a + s then err = MP_VAL /\ a' = a else err = 0 /\ sp_is n (va * pw s) a').
Proof.
  intros Ha Hs. pose proof Ha as [Hb Hua _ Hv]. pose proof Hb as [Hsz Hn35 Hl Hd]. change SP_INT_DIGITS with 35 in Hn35.
  unfold sp_lshd. rewrite (proj2 (Z.ltb_ge s 0)), w32_id, Hsz by lia. destruct (Z.ltb_spec n (mp_used a + s)); [by sp_steps|].
  apply calc_rd; [lia|lia|lia|]. set (src := sub (mp_dp a) 0 (mp_used a)). assert (Hsl : len src = mp_used a) by (apply len_sub; lia).
  assert (Hz : len (zeros s) = s) by (apply len_zeros; lia).
  apply calc_wr; [lia|lia|]. set (dp := splice (mp_dp a) s src). assert (Hld : len dp = len (mp_dp a)) by (apply len_splice; lia).
  apply calc_wr; [lia|lia|]. sp_steps. split; [done|]. rewrite w16_id by lia.
  assert (Hok : digits_ok dp) by (apply digits_ok_splice; [done|by apply digits_ok_take, digits_ok_drop]).
  apply sp_finish; [done|rewrite len_splice; lia|by apply digits_ok_splice; [|apply digits_ok_zeros]|lia|].
  rewrite (Z.add_comm (mp_used a)), val_zeros_below by lia. rewrite Z.mul_comm. f_equal. rewrite <-Hv. unfold dp, splice.
  rewrite drop_app_length' by (rewrite length_take; unfold len in *; lia). unfold val.
  rewrite take_app_le by (unfold len in *; lia). unfold src, sub. by rewrite drop_0, take_take, Nat.min_id.
Qed.

Lemma sp_rshd_is n va a c : sp_is n va a -> 0 <= c -> calc e 0 (sp_rshd a c) (sp_is n (va / pw c)).
Proof.
  intros Ha Hc. pose proof (sp_is_range Ha) as Hva. pose proof Ha as [Hb Hua _ Hv]. pose proof Hb as [Hsz Hn35 Hl Hd]. unfold sp_rshd.
  destruct (Z.ltb_spec 0 c) as [Hp|Hz]; [|sp_steps; replace c with 0 by lia; by rewrite pw_0, Z.div_1_r].
  destruct (Z.leb_spec (mp_used a) c) as [Hle|Hgt].
  { sp_steps. pose proof (pw_le (mp_used a) c ltac:(lia)). rewrite Z.div_small by lia. by apply sp_zero_is. }
  apply (calc_for_range e (fun i dp => len dp = len (mp_dp a) /\ digits_ok dp /\ (forall j, 0 <= j < i -> dp.[j] = (mp_dp a).[c + j]) /\
    (forall j, i <= j -> dp.[j] = (mp_dp a).[j]))); [lia| | |].
  - split; [done|]. split; [done|]. split; [intros; lia|done].
  - intros i dp Hi (H1 & H2 & H3 & H4). sp_steps. rewrite H4 by lia. split; [by rewrite len_poke|].
    split; [apply digits_ok_poke; [done|by apply digit_range]|]. split; intros j Hj.
    + destruct (Z.eq_dec j i) as [->|]; [by rewrite digit_poke by lia|]. rewrite digit_poke_ne by lia. apply H3. lia.
    + rewrite digit_poke_ne by lia. apply H4. lia.
  - intros dp (H1 & H2 & H3 & _). sp_steps.
    pose proof (val_split (mp_dp a) c (mp_used a - c) ltac:(lia) ltac:(lia) ltac:(lia)) as E. replace (c + (mp_used a - c)) with (mp_used a) in E by lia.
    pose proof (val_range (mp_dp a) c Hd Hc). assert (Hq : val (drop (Z.to_nat c) (mp_dp a)) (mp_used a - c) = va / pw c).
    { apply (Z.div_unique _ _ _ (val (mp_dp a) c)); lia. }
    apply sp_exact; [done|done|done|lia| |right].
    + rewrite <-Hq. apply val_ext; [lia|lia|rewrite len_drop; lia|]. intros i Hi. rewrite digit_drop by lia. apply H3. lia.
    + apply Z.div_le_lower_bound; [apply pw_pos; lia|]. rewrite <-pw_add by lia. replace (c + (mp_used a - c - 1)) with (mp_used a - 1) by lia.
      apply (sp_is_top Ha). lia.
Qed.
End Bits.
