(* ===== verification/SpMul.v ===== *)
(** * SpMul: products and squares of sp_int.c

    The product is computed column by column, with the sum of a column in two words
    so that nothing overflows, and the square with each mixed term once and doubled. *)

From S2P Require Import Prelude Platform Types Misc SpInt SpArith.

(** ** Products *)

(** sp_int.c:9530-9540, [_sp_mul]: a column of the product, at most [n] terms. *)
Fixpoint mul_col (n : nat) (adp bdp : list Z) (ua i j l h : Z) : M (Z * Z) :=
  match n with
  | O => mret (l, h)
  | S n =>
    if (i <? ua) && (0 <=? j) then
      x ← peek adp i;
      y ← peek bdp j;
      let w := x * y in
      mul_col n adp bdp ua (i + 1) (j - 1) (w64 (l + w32 w)) (w64 (h + w32 (Z.shiftr w 32)))
    else mret (l, h)
  end.

(** sp_int.c:9511-9554, [_sp_mul]: with the digits of the product in [t]. *)
Definition mul_columns (a b : mp_int) (t : list Z) : M (list Z) :=
  let ua := mp_used a in
  let ub := mp_used b in
  x ← peek (mp_dp a) 0;
  y ← peek (mp_dp b) 0;
  let w := x * y in
  t ← poke t 0 (w32 w);
  '(l, h, t) ← for_range 1 (ua - 1 + (ub - 1) + 1) (fun k '(l, h, t) =>
      let i := w16 (k - (ub - 1)) in
      let i := w16 (Z.land i (w32 (Z.shiftr i 15 - 1))) in
      '(l, h) ← mul_col (Z.to_nat ua) (mp_dp a) (mp_dp b) ua i (k - i) l h;
      t ← poke t k (w32 l);
      mret (w64 (Z.shiftr l 32 + w32 h), Z.shiftr h 32, t)) (w32 (Z.shiftr w 32), 0, t);
  poke t (ua - 1 + (ub - 1) + 1) (w32 l).

(** sp_int.c:9490-9560, [_sp_mul] *)
Definition _sp_mul (a b r : mp_int) : M (Z * mp_int) :=
  blk ← wolfSSL_Malloc;
  if negb blk then mret (MP_MEM, r)
  else
    t ← mul_columns a b (zeros (mp_used a + mp_used b));
    let used := w16 (mp_used a - 1 + (mp_used b - 1) + 1 + 1) in
    src ← rd t 0 used;
    dp ← wr (mp_dp r) 0 src;
    _ ← wolfSSL_Free;
    mret (0, sp_clamp (set_digits used dp r)).

(** sp_int.c:12168-12307, [sp_mul] *)
Definition sp_mul (a b r : mp_int) : M (Z * mp_int) :=
  if mp_size r <? mp_used a + mp_used b then mret (MP_VAL, r)
  else if (mp_used a =? 0) || (mp_used b =? 0) then mret (0, _sp_zero r)
  else _sp_mul a b r.

(** sp_int.c:15284-15302, [_sp_sqr]: a column of the square past its middle, each
    product twice; at most [n] terms. *)
Fixpoint sqr_col (n : nat) (adp : list Z) (ua i j l h : Z) : M (Z * Z) :=
  match n with
  | O => mret (l, h)
  | S n =>
    if (i <? ua) && (0 <=? j) then
      x ← peek adp i;
      y ← peek adp j;
      let w := x * y in
      sqr_col n adp ua (i + 1) (j - 1) (w64 (w64 (l + w32 w) + w32 w))
        (w64 (w64 (h + w32 (Z.shiftr w 32)) + w32 (Z.shiftr w 32)))
    else mret (l, h)
  end.

(** sp_int.c:15249-15316, [_sp_sqr]: with the digits of the square in [t]. *)
Definition sqr_columns (a : mp_int) (t : list Z) : M (list Z) :=
  let ua := mp_used a in
  x ← peek (mp_dp a) 0;
  let w := x * x in
  t ← poke t 0 (w32 w);
  '(l, h, t) ← for_range 1 (w16 ((ua - 1) * 2) + 1) (fun k '(l, h, t) =>
      let i := k / 2 in
      let j := k - i in
      '(l, h) ←
        (if i =? j then
           x ← peek (mp_dp a) i;
           y ← peek (mp_dp a) j;
           let w := x * y in
           mret (w64 (l + w32 w), w64 (h + w32 (Z.shiftr w 32)))
         else mret (l, h));
      '(l, h) ← sqr_col (Z.to_nat ua) (mp_dp a) ua (i + 1) (j - 1) l h;
      t ← poke t k (w32 l);
      mret (w64 (Z.shiftr l 32 + w32 h), Z.shiftr h 32, t)) (w32 (Z.shiftr w 32), 0, t);
  poke t (w16 ((ua - 1) * 2) + 1) (w32 l).

(** sp_int.c:15228-15322, [_sp_sqr] *)
Definition _sp_sqr (a r : mp_int) : M (Z * mp_int) :=
  blk ← wolfSSL_Malloc;
  if negb blk then mret (MP_MEM, r)
  else
    t ← sqr_columns a (zeros (mp_used a * 2));
    let used := w16 (w16 ((mp_used a - 1) * 2) + 1 + 1) in
    src ← rd t 0 used;
    dp ← wr (mp_dp r) 0 src;
    _ ← wolfSSL_Free;
    mret (0, sp_clamp (set_digits used dp r)).

(** sp_int.c:17404-17526, [sp_sqr] *)
Definition sp_sqr (a r : mp_int) : M (Z * mp_int) :=
  if mp_size r <? mp_used a * 2 then mret (MP_VAL, r)
  else if mp_used a =? 0 then mret (0, _sp_zero r)
  else _sp_sqr a r.


(** ** Sums over a range *)

Fixpoint sum_up (n : nat) (i : Z) (f : Z -> Z) : Z :=
  match n with
  | O => 0
  | S n => f i + sum_up n (i + 1) f
  end.

Definition zsum (lo hi : Z) (f : Z -> Z) : Z := sum_up (Z.to_nat (hi - lo)) lo f.

Lemma sum_up_app n k i f : sum_up (n + k) i f = sum_up n i f + sum_up k (i + Z.of_nat n) f.
Proof.
  revert i. induction n as [|n IH]; intros i; cbn [sum_up Nat.add]; [by rewrite Z.add_0_r|].
  rewrite IH. replace (i + 1 + Z.of_nat n) with (i + Z.of_nat (S n)) by lia. lia.
Qed.

Lemma sum_up_ext n i f g : (forall k, i <= k < i + Z.of_nat n -> f k = g k) -> sum_up n i f = sum_up n i g.
Proof.
  revert i. induction n as [|n IH]; intros i H; [done|]. cbn [sum_up]. rewrite H by lia. f_equal. apply IH. intros. apply H. lia.
Qed.

Lemma zsum_split lo m hi f : lo <= m <= hi -> zsum lo hi f = zsum lo m f + zsum m hi f.
Proof.
  intros H. unfold zsum. replace (Z.to_nat (hi - lo)) with (Z.to_nat (m - lo) + Z.to_nat (hi - m))%nat by lia.
  rewrite sum_up_app. do 2 f_equal. lia.
Qed.

Lemma zsum_ext lo hi f g : (forall k, lo <= k < hi -> f k = g k) -> zsum lo hi f = zsum lo hi g.
Proof. intros H. apply sum_up_ext. intros k Hk. apply H. lia. Qed.

Lemma zsum_nil lo hi f : hi <= lo -> zsum lo hi f = 0.
Proof. intros H. unfold zsum. by replace (Z.to_nat (hi - lo)) with 0%nat by lia. Qed.

Lemma zsum_last lo hi f : lo <= hi -> zsum lo (hi + 1) f = zsum lo hi f + f hi.
Proof.
  intros H. rewrite (zsum_split lo hi) by lia. f_equal. unfold zsum. replace (Z.to_nat (hi + 1 - hi)) with 1%nat by lia. cbn. lia.
Qed.

Lemma zsum_first lo hi f : lo < hi -> zsum lo hi f = f lo + zsum (lo + 1) hi f.
Proof.
  intros H. rewrite (zsum_split lo (lo + 1)) by lia. f_equal. unfold zsum. replace (Z.to_nat (lo + 1 - lo)) with 1%nat by lia. cbn. lia.
Qed.

Lemma zsum_add lo hi f g : zsum lo hi (fun k => f k + g k) = zsum lo hi f + zsum lo hi g.
Proof. unfold zsum. generalize lo at 2 4 6. induction (Z.to_nat (hi - lo)) as [|n IH]; intros i; [done|]. cbn [sum_up]. rewrite IH. lia. Qed.

Lemma zsum_scale lo hi c f : zsum lo hi (fun k => c * f k) = c * zsum lo hi f.
Proof. unfold zsum. generalize lo at 2 4. induction (Z.to_nat (hi - lo)) as [|n IH]; intros i; cbn [sum_up]; [lia|]. rewrite IH. lia. Qed.

Lemma zsum_0 lo hi f : (forall k, lo <= k < hi -> f k = 0) -> zsum lo hi f = 0.
Proof. intros H. rewrite (zsum_ext _ _ _ (fun k => 0 * f k)) by (intros; rewrite H; lia). rewrite zsum_scale. lia. Qed.

(** The terms in the other order. *)
Lemma zsum_rev c lo hi f : lo <= hi -> zsum lo hi (fun k => f (c - k)) = zsum (c - hi + 1) (c - lo + 1) f.
Proof.
  intros H. replace hi with (lo + (hi - lo)) by lia. generalize (hi - lo) (Zle_minus_le_0 _ _ H). clear hi H.
  apply natlike_ind; [by rewrite !zsum_nil by lia|]. intros n Hn IH. replace (lo + Z.succ n) with (lo + n + 1) by lia.
  rewrite zsum_last, IH by lia. rewrite (zsum_first (c - (lo + n + 1) + 1)) by lia.
  replace (c - (lo + n + 1) + 1) with (c - (lo + n)) by lia. replace (c - (lo + n) + 1) with (c - (lo + n) + 1) by lia. lia.
Qed.

(** ** Columns of a product *)

(** The digit at [i], zero outside the [u] digits in use. *)
Definition ext (dp : list Z) (u i : Z) : Z := if (0 <=? i) && (i <? u) then dp.[i] else 0.

Lemma ext_in dp u i : 0 <= i < u -> ext dp u i = dp.[i].
Proof. intros. unfold ext. rewrite (proj2 (Z.leb_le _ _)), (proj2 (Z.ltb_lt _ _)) by lia. done. Qed.

Lemma ext_out dp u i : i < 0 \/ u <= i -> ext dp u i = 0.
Proof. intros. unfold ext. destruct (Z.leb_spec 0 i), (Z.ltb_spec i u); cbn; lia. Qed.

(** Column [c] of the product of [a] and [b]. *)
Definition column (adp : list Z) (ua : Z) (bdp : list Z) (ub c : Z) : Z :=
  zsum 0 ua (fun i => ext adp ua i * ext bdp ub (c - i)).

Lemma val_ext_sum dp u i k : 0 <= u <= len dp -> 0 <= i -> 0 <= k ->
  zsum 0 k (fun c => pw c * ext dp u (c - i)) = pw i * val dp (Z.max 0 (Z.min (k - i) u)).
Proof.
  intros Hu Hi. revert k. apply natlike_ind; [rewrite zsum_nil by lia; rewrite Z.max_l, val_0 by lia; lia|].
  intros k Hk IH. unfold Z.succ. rewrite zsum_last, IH by lia. destruct (Z_lt_ge_dec k i) as [Hki|Hki].
  - rewrite ext_out, !Z.max_l by lia. lia.
  - destruct (Z_lt_ge_dec (k - i) u) as [Hku|Hku].
    + rewrite ext_in, !Z.min_l, !Z.max_r by lia. replace (k + 1 - i) with (k - i + 1) by lia. rewrite val_succ by lia.
      replace (pw k) with (pw i * pw (k - i)) by (rewrite <-pw_add by lia; f_equal; lia). lia.
    + rewrite ext_out, !Z.min_r, !Z.max_r by lia. lia.
Qed.

(** The columns make up the product. *)
Lemma columns_product adp ua bdp ub k : 0 <= ua <= len adp -> 0 <= ub <= len bdp -> ua + ub - 1 <= k -> 0 <= k ->
  zsum 0 k (fun c => pw c * column adp ua bdp ub c) = val adp ua * val bdp ub.
Proof.
  intros [Hua Hla] Hub Hk Hk0. assert (forall u, 0 <= u -> u <= ua ->
    zsum 0 k (fun c => pw c * zsum 0 u (fun i => ext adp ua i * ext bdp ub (c - i))) = val adp u * val bdp ub) as H; [|by apply H].
  apply (natlike_ind (fun u => u <= ua -> _)).
  - intros _. rewrite zsum_0; [by rewrite val_0|]. intros. rewrite (zsum_nil 0 0) by lia. lia.
  - intros u Hu IH Hule. unfold Z.succ in *. rewrite (zsum_ext _ _ _ (fun c => pw c * zsum 0 u (fun i => ext adp ua i * ext bdp ub (c - i))
      + ext adp ua u * (pw c * ext bdp ub (c - u)))) by (intros; rewrite zsum_last by lia; lia).
    rewrite zsum_add, zsum_scale, IH, val_ext_sum by lia. rewrite ext_in, val_succ by lia. rewrite Z.max_r, Z.min_r by lia. lia.
Qed.

(** The part of a column the code sums. *)
Lemma column_window adp ua bdp ub c lo hi : 0 <= lo -> hi <= ua -> lo <= hi ->
  (forall i, 0 <= i < lo \/ hi <= i < ua -> ub <= c - i \/ c - i < 0) ->
  column adp ua bdp ub c = zsum lo hi (fun i => ext adp ua i * ext bdp ub (c - i)).
Proof.
  intros Hlo Hhi Hle Hz. unfold column. rewrite (zsum_split 0 lo), (zsum_split lo hi ua) by lia.
  rewrite (zsum_0 0 lo), (zsum_0 hi ua) by (intros i Hi; rewrite (ext_out bdp) by (destruct (Hz i); lia); apply Z.mul_0_r). lia.
Qed.

(** The two halves of a product of digits. *)
Lemma word_halves x y : 0 <= x < 2 ^ 32 -> 0 <= y < 2 ^ 32 ->
  x * y = w32 (x * y) + 2 ^ 32 * w32 (Z.shiftr (x * y) 32) /\ 0 <= w32 (x * y) < 2 ^ 32 /\ 0 <= w32 (Z.shiftr (x * y) 32) < 2 ^ 32.
Proof.
  intros Hx Hy. split; [|split; apply w32_range]. rewrite Z.shiftr_div_pow2 by lia.
  assert (0 <= x * y / 2 ^ 32 < 2 ^ 32) by (split; [apply Z.div_pos; nia|apply Z.div_lt_upper_bound; nia]).
  rewrite (w32_id (x * y / 2 ^ 32)), w32_mod by lia. pose proof (Z.div_mod (x * y) (2 ^ 32) ltac:(lia)). lia.
Qed.

Section Mul.
Context (e : env).

(** A column adds its terms to the two words, which do not overflow. *)
Lemma mul_col_is adp ua bdp ub : digits_ok adp -> digits_ok bdp -> ua <= len adp -> ub <= len bdp -> ua <= SP_INT_DIGITS ->
  forall n i j l h, 0 <= i -> ua - i <= Z.of_nat n -> j < ub -> 0 <= l -> 0 <= h -> l + (ua - i) * 2 ^ 32 < 2 ^ 40 -> h + (ua - i) * 2 ^ 32 < 2 ^ 40 ->
  calc e 0 (mul_col n adp bdp ua i j l h) (fun '(l', h') =>
    l' + 2 ^ 32 * h' = l + 2 ^ 32 * h + zsum i (Z.min ua (i + j + 1)) (fun c => ext adp ua c * ext bdp ub (i + j - c)) /\
    0 <= l' <= l + Z.max 0 (ua - i) * 2 ^ 32 /\ 0 <= h' <= h + Z.max 0 (ua - i) * 2 ^ 32).
Proof.
  intros Had Hbd Hla Hlb Hu35. induction n as [|n IH]; intros i j l h Hi Hn Hj Hl Hh Hlo Hho; cbn [mul_col].
  { sp_steps. rewrite zsum_nil by lia. rewrite Z.max_l by lia. lia. }
  destruct (Z.ltb_spec i ua) as [Hiu|Hiu]; cbn [andb]; [|sp_steps; rewrite zsum_nil by lia; lia].
  destruct (Z.leb_spec 0 j) as [Hj0|Hj0]; [|sp_steps; rewrite zsum_nil by lia; lia].
  sp_steps. destruct (word_halves adp.[i] bdp.[j]) as (Hw & H1 & H2); [by apply digit_range..|].
  set (wl := w32 (adp.[i] * bdp.[j])) in *. set (wh := w32 (Z.shiftr (adp.[i] * bdp.[j]) 32)) in *. change SP_INT_DIGITS with 35 in Hu35.
  rewrite !w64_id by lia. eapply calc_mono; [apply IH; lia|]. intros [l' h'] (Hv & Hb1 & Hb2).
  replace (i + 1 + (j - 1)) with (i + j) in Hv by lia. split; [|lia].
  rewrite (zsum_first i) by lia. rewrite !ext_in by lia. replace (i + j - i) with j by lia. lia.
Qed.

(** Where the first term of a column is. *)
Lemma column_start x : - 2 ^ 15 <= x < 2 ^ 15 ->
  w16 (Z.land (w16 x) (w32 (Z.shiftr (w16 x) 15 - 1))) = Z.max 0 x.
Proof.
  intros Hx. destruct (Z_lt_ge_dec x 0) as [Hn|Hp].
  - assert (w16 x = x + 2 ^ 16) as -> by (rewrite w16_mod; symmetry; apply (Z.mod_unique _ _ (-1)); lia).
    assert (Z.shiftr (x + 2 ^ 16) 15 = 1) as -> by (rewrite Z.shiftr_div_pow2 by lia; symmetry; apply (Z.div_unique _ _ _ (x + 2 ^ 15)); lia).
    change (w32 (1 - 1)) with 0. rewrite Z.land_0_r, Z.max_l by lia. done.
  - rewrite (w16_id x) by lia. rewrite Z.shiftr_div_pow2, Z.div_small by lia. change (w32 (0 - 1)) with (Z.ones 32).
    rewrite Z.land_ones, Z.mod_small, w16_id by lia. lia.
Qed.

(** After [k] columns [S]: the digits stored and the words carried. *)
Definition summing (L : Z) (S : Z -> Z) (k : Z) (s : Z * Z * list Z) : Prop :=
  let '(l, h, t) := s in
  len t = L /\ digits_ok t /\ 0 <= l <= 2 ^ 33 /\ 0 <= h <= 2 ^ 8 /\ val t k + pw k * (l + 2 ^ 32 * h) = zsum 0 k (fun c => pw c * S c).

Lemma summing_step L S k l h t l1 h1 : 0 <= k < L -> summing L S k (l, h, t) -> l1 + 2 ^ 32 * h1 = l + 2 ^ 32 * h + S k ->
  0 <= l1 < 2 ^ 40 -> 0 <= h1 < 2 ^ 40 ->
  summing L S (k + 1) (w64 (Z.shiftr l1 32 + w32 h1), Z.shiftr h1 32, t.[k := w32 l1]).
Proof.
  intros Hk (Hl & Hok & Hlr & Hhr & Hv) Hc Hl1 Hh1. pose proof (w32_range h1).
  assert (forall x, 0 <= x < 2 ^ 40 -> 0 <= Z.shiftr x 32 < 2 ^ 8) as Hs.
  { intros x Hx. rewrite Z.shiftr_div_pow2 by lia. split; [apply Z.div_pos; lia|apply Z.div_lt_upper_bound; lia]. }
  pose proof (Hs l1 Hl1). pose proof (Hs h1 Hh1). rewrite w64_id by lia.
  split; [by rewrite len_poke|]. split; [apply digits_ok_poke; [done|apply w32_range]|]. split; [lia|]. split; [lia|].
  rewrite zsum_last by lia. rewrite <-Hv. pose proof (val_carry t k l1 ltac:(lia)) as Hvc.
  assert (w32 h1 + 2 ^ 32 * Z.shiftr h1 32 = h1) as Hh.
  { rewrite w32_mod, Z.shiftr_div_pow2 by lia. pose proof (Z.div_mod h1 (2 ^ 32) ltac:(lia)). lia. }
  rewrite pw_succ in * by lia. nia.
Qed.

Lemma summing_end L S k l h t V : 0 <= k < L -> summing L S k (l, h, t) -> zsum 0 k (fun c => pw c * S c) = V -> V < pw (k + 1) ->
  val t.[k := w32 l] (k + 1) = V.
Proof.
  intros Hk (Hl & Hok & Hlr & Hhr & Hv) HV HVb. rewrite HV in Hv. pose proof (val_range t k Hok ltac:(lia)). pose proof (pw_pos k ltac:(lia)).
  rewrite pw_succ in HVb by lia. assert (l + 2 ^ 32 * h < 2 ^ 32) by nia. rewrite val_poke, w32_id by lia. replace h with 0 in Hv by lia. lia.
Qed.

Lemma mul_columns_is na nb va vb a b t : sp_is na va a -> sp_is nb vb b -> mp_used a <> 0 -> mp_used b <> 0 ->
  len t = mp_used a + mp_used b -> digits_ok t ->
  calc e 0 (mul_columns a b t) (fun t' => len t' = len t /\ digits_ok t' /\ val t' (mp_used a + mp_used b) = va * vb).
Proof.
  intros Ha Hb Hua0 Hub0 Hl Ht. pose proof (sp_is_range Ha) as Hva. pose proof (sp_is_range Hb) as Hvb.
  destruct Ha as [[_ Hna Hal Had] Hua _ Hav], Hb as [[_ Hnb Hbl Hbd] Hub _ Hbv]. change SP_INT_DIGITS with 35 in Hna, Hnb.
  unfold mul_columns. set (ua := mp_used a) in *. set (ub := mp_used b) in *. sp_steps.
  set (S := column (mp_dp a) ua (mp_dp b) ub). set (inv := summing (len t) S).
  destruct (word_halves (mp_dp a).[0] (mp_dp b).[0]) as (Hw & Hw1 & Hw2); [by apply digit_range..|].
  apply (calc_for_range e inv); [lia| | |].
  - split; [by rewrite len_poke|]. split; [by apply digits_ok_poke|]. split; [lia|]. split; [lia|].
    change 1 with (0 + 1). rewrite val_poke, pw_succ, zsum_last, zsum_nil, val_0, pw_0 by lia.
    unfold S. rewrite (column_window _ _ _ _ _ 0 1) by (lia || (intros; lia)). rewrite (zsum_first 0 1), (zsum_nil (0 + 1) 1) by lia.
    rewrite Z.sub_0_r, !ext_in by lia. lia.
  - intros k [[l h] t'] Hk Hinv. pose proof Hinv as (Hl' & _ & Hlr & Hhr & _). rewrite column_start by lia. set (i := Z.max 0 (k - (ub - 1))).
    eapply calc_bind; [apply (mul_col_is (mp_dp a) ua (mp_dp b) ub); [done|done|lia|lia|change SP_INT_DIGITS with 35; lia|lia..]|].
    intros [l1 h1] (Hc & Hb1 & Hb2). sp_steps. apply (summing_step _ _ _ l h); [lia|done| |lia|lia].
    rewrite Hc. f_equal. replace (i + (k - i)) with k by lia. unfold S. symmetry. apply column_window; [lia|lia|lia|]. intros; lia.
  - intros [[l h] t'] Hinv. pose proof Hinv as (Hl' & Hok & _). sp_steps.
    split; [by rewrite len_poke, Hl'|]. split; [apply digits_ok_poke; [done|apply w32_range]|].
    replace (ua + ub) with (ua - 1 + (ub - 1) + 1 + 1) by lia. eapply (summing_end _ S _ _ h); [|exact Hinv| |].
    + lia.
    + unfold S. rewrite columns_product by lia. by rewrite Hav, Hbv.
    + replace (ua - 1 + (ub - 1) + 1 + 1) with (ua + ub) by lia. rewrite pw_add by lia. nia.
Qed.

(** The product taken from the buffer to the result. *)
Lemma take_product {B} d n u v t r (k : mp_int -> M B) Q : sp_box n r -> 0 <= u <= n -> u <= len t -> digits_ok t -> val t u = v ->
  (forall r', sp_is n v r' -> calc e d (k r') Q) ->
  calc e (S d) (src ← rd t 0 u; dp ← wr (mp_dp r) 0 src; _ ← wolfSSL_Free; k (sp_clamp (set_digits u dp r))) Q.
Proof.
  intros Hr Hu Hl Hok Hv Hk. pose proof (sb_len _ _ Hr). apply calc_rd; [lia|lia|lia|]. set (src := sub t 0 u).
  assert (Hsl : len src = u) by (apply len_sub; lia). apply calc_wr; [lia|lia|]. calc_step. apply Hk.
  apply sp_finish; [done|apply len_splice; lia| |lia|].
  - apply digits_ok_splice; [by destruct Hr|]. by apply digits_ok_take, digits_ok_drop.
  - rewrite val_splice by lia. rewrite <-Hv. unfold src, sub. rewrite drop_0. apply val_take; lia.
Qed.

Lemma sp_mul_is na nb n va vb a b r : sp_is na va a -> sp_is nb vb b -> sp_box n r ->
  calc e 0 (sp_mul a b r) (fun '(err, r') =>
    if n <? mp_used a + mp_used b then err = MP_VAL /\ r' = r
    else (err = 0 /\ sp_is n (va * vb) r') \/ (err = MP_MEM /\ r' = r /\ oom e)).
Proof.
  intros Ha Hb Hr. pose proof (sp_is_0 Ha) as Ha0. pose proof (sp_is_0 Hb) as Hb0. pose proof (si_used _ _ _ Ha). pose proof (si_used _ _ _ Hb).
  pose proof (sb_n _ _ Hr) as Hn. change SP_INT_DIGITS with 35 in Hn. unfold sp_mul. rewrite (sb_size _ _ Hr).
  destruct (Z.ltb_spec n (mp_used a + mp_used b)); [by sp_steps|].
  destruct (Z.eqb_spec (mp_used a) 0) as [E|E]; cbn [orb].
  { sp_steps. left. split; [done|]. rewrite (proj1 Ha0 E), Z.mul_0_l. by apply sp_zero_is. }
  destruct (Z.eqb_spec (mp_used b) 0) as [E'|E'].
  { sp_steps. left. split; [done|]. rewrite (proj1 Hb0 E'), Z.mul_0_r. by apply sp_zero_is. }
  unfold _sp_mul. calc_step; cbn [negb]; [|calc_step; by right].
  eapply calc_bind; [by apply (mul_columns_is na nb va vb); [..|apply len_zeros; lia|apply digits_ok_zeros]|].
  intros t (Hl & Hok & Hv). rewrite len_zeros in Hl by lia.
  replace (mp_used a - 1 + (mp_used b - 1) + 1 + 1) with (mp_used a + mp_used b) by lia. rewrite w16_id by lia.
  apply (take_product 0 n _ (va * vb) t r (fun r' => mret (0, r'))); [done|lia|lia|done|done|]. intros r' Hr'. calc_step. by left.
Qed.

(** *** Squares *)

(** The column of a square is its middle and twice the part past the middle. *)
Lemma column_square dp u c : 0 <= c -> 0 <= u ->
  column dp u dp u c = (if c mod 2 =? 0 then ext dp u (c / 2) * ext dp u (c / 2) else 0) +
    2 * zsum (c / 2 + 1) (Z.min u (c + 1)) (fun i => ext dp u i * ext dp u (c - i)).
Proof.
  intros Hc Hu. set (f := fun i => ext dp u i * ext dp u (c - i)). set (h := c / 2).
  assert (Hh : 0 <= h /\ 2 * h <= c <= 2 * h + 1) by (unfold h; Z.div_mod_to_equations; lia).
  assert (Hall : column dp u dp u c = zsum 0 (c + 1) f).
  { destruct (Z_le_gt_dec u (c + 1)) as [Hle|Hgt].
    - unfold column. fold f. rewrite (zsum_split 0 u (c + 1)) by lia. rewrite (zsum_0 u (c + 1)); [lia|].
      intros i Hi. unfold f. rewrite ext_out by lia. lia.
    - apply column_window; [lia|lia|lia|]. intros; lia. }
  assert (Hup : zsum (h + 1) (Z.min u (c + 1)) f = zsum (h + 1) (c + 1) f).
  { destruct (Z_le_gt_dec (c + 1) u) as [Hle|Hgt]; [by rewrite Z.min_r by lia|]. rewrite Z.min_l by lia.
    destruct (Z_le_gt_dec u (h + 1)) as [Hs|Hs].
    - rewrite zsum_nil by lia. symmetry. apply zsum_0. intros i Hi. unfold f. rewrite ext_out by lia. lia.
    - rewrite (zsum_split (h + 1) u (c + 1)) by lia. rewrite (zsum_0 u (c + 1)); [lia|]. intros i Hi. unfold f. rewrite ext_out by lia. lia. }
  assert (Hlow : zsum 0 (c - h) f = zsum (h + 1) (c + 1) f).
  { rewrite <-(zsum_ext 0 (c - h) (fun k => f (c - k))) by (intros k _; unfold f; replace (c - (c - k)) with k by lia; lia).
    rewrite zsum_rev by lia. by replace (c - (c - h) + 1) with (h + 1) by lia; replace (c - 0 + 1) with (c + 1) by lia. }
  rewrite Hall, Hup. destruct (Z.eqb_spec (c mod 2) 0) as [E|E].
  - assert (c = 2 * h) as Ec by (unfold h; Z.div_mod_to_equations; lia). replace (c - h) with h in Hlow by lia.
    rewrite (zsum_split 0 h), (zsum_first h) by lia. rewrite Hlow. unfold f at 2. replace (c - h) with h by lia. lia.
  - assert (c = 2 * h + 1) as Ec by (unfold h; Z.div_mod_to_equations; lia). replace (c - h) with (h + 1) in Hlow by lia.
    rewrite (zsum_split 0 (h + 1)) by lia. rewrite Hlow. lia.
Qed.

Lemma sqr_col_is adp ua : digits_ok adp -> ua <= len adp -> ua <= SP_INT_DIGITS ->
  forall n i j l h, 0 <= i -> ua - i <= Z.of_nat n -> j < ua -> 0 <= l -> 0 <= h -> l + (ua - i) * 2 ^ 33 < 2 ^ 40 -> h + (ua - i) * 2 ^ 33 < 2 ^ 40 ->
  calc e 0 (sqr_col n adp ua i j l h) (fun '(l', h') =>
    l' + 2 ^ 32 * h' = l + 2 ^ 32 * h + 2 * zsum i (Z.min ua (i + j + 1)) (fun c => ext adp ua c * ext adp ua (i + j - c)) /\
    0 <= l' <= l + Z.max 0 (ua - i) * 2 ^ 33 /\ 0 <= h' <= h + Z.max 0 (ua - i) * 2 ^ 33).
Proof.
  intros Had Hla Hu35. induction n as [|n IH]; intros i j l h Hi Hn Hj Hl Hh Hlo Hho; cbn [sqr_col].
  { sp_steps. rewrite zsum_nil by lia. rewrite Z.max_l by lia. lia. }
  destruct (Z.ltb_spec i ua) as [Hiu|Hiu]; cbn [andb]; [|sp_steps; rewrite zsum_nil by lia; lia].
  destruct (Z.leb_spec 0 j) as [Hj0|Hj0]; [|sp_steps; rewrite zsum_nil by lia; lia].
  sp_steps. destruct (word_halves adp.[i] adp.[j]) as (Hw & H1 & H2); [by apply digit_range..|].
  set (wl := w32 (adp.[i] * adp.[j])) in *. set (wh := w32 (Z.shiftr (adp.[i] * adp.[j]) 32)) in *. change SP_INT_DIGITS with 35 in Hu35.
  rewrite !w64_id by (rewrite ?w64_id; lia). eapply calc_mono; [apply IH; lia|]. intros [l' h'] (Hv & Hb1 & Hb2).
  replace (i + 1 + (j - 1)) with (i + j) in Hv by lia. split; [|lia].
  rewrite (zsum_first i) by lia. rewrite !ext_in by lia. replace (i + j - i) with j by lia. lia.
Qed.

Lemma sqr_columns_is na va a t : sp_is na va a -> mp_used a <> 0 -> len t = mp_used a * 2 -> digits_ok t ->
  calc e 0 (sqr_columns a t) (fun t' => len t' = len t /\ digits_ok t' /\ val t' (mp_used a * 2) = va * va).
Proof.
  intros Ha Hua0 Hl Ht. pose proof (sp_is_range Ha) as Hva.
  destruct Ha as [[_ Hna Hal Had] Hua _ Hav]. change SP_INT_DIGITS with 35 in Hna.
  unfold sqr_columns. set (ua := mp_used a) in *. sp_steps. rewrite (w16_id ((ua - 1) * 2)) by lia.
  set (S := column (mp_dp a) ua (mp_dp a) ua). set (inv := summing (len t) S).
  destruct (word_halves (mp_dp a).[0] (mp_dp a).[0]) as (Hw & Hw1 & Hw2); [by apply digit_range..|].
  apply (calc_for_range e inv); [lia| | |].
  - split; [by rewrite len_poke|]. split; [by apply digits_ok_poke|]. split; [lia|]. split; [lia|].
    change 1 with (0 + 1). rewrite val_poke, pw_succ, zsum_last, zsum_nil, val_0, pw_0 by lia.
    unfold S. rewrite (column_window _ _ _ _ _ 0 1) by (lia || (intros; lia)). rewrite (zsum_first 0 1), (zsum_nil (0 + 1) 1) by lia.
    rewrite Z.sub_0_r, !ext_in by lia. lia.
  - intros k [[l h] t'] Hk Hinv. pose proof Hinv as (Hl' & _ & Hlr & Hhr & _). cbv zeta. set (i := k / 2).
    assert (Hi : 0 <= i /\ 2 * i <= k <= 2 * i + 1) by (unfold i; Z.div_mod_to_equations; lia).
    assert (Hmid : calc e 0 (if i =? k - i then
        x ← peek (mp_dp a) i; y ← peek (mp_dp a) (k - i);
        mret (w64 (l + w32 (x * y)), w64 (h + w32 (Z.shiftr (x * y) 32))) else mret (l, h))
      (fun '(l1, h1) => l1 + 2 ^ 32 * h1 = l + 2 ^ 32 * h + (if k mod 2 =? 0 then ext (mp_dp a) ua i * ext (mp_dp a) ua i else 0) /\
         0 <= l1 <= l + 2 ^ 32 /\ 0 <= h1 <= h + 2 ^ 32)).
    { assert (Hpar : (i =? k - i) = (k mod 2 =? 0)).
      { destruct (Z.eqb_spec i (k - i)), (Z.eqb_spec (k mod 2) 0); try done; unfold i in *; Z.div_mod_to_equations; lia. }
      rewrite <-Hpar. destruct (Z.eqb_spec i (k - i)) as [E|E]; [|sp_steps; lia]. rewrite <-E. sp_steps.
      destruct (word_halves (mp_dp a).[i] (mp_dp a).[i]) as (Hm & Hm1 & Hm2); [by apply digit_range..|]. rewrite !w64_id by lia.
      rewrite ext_in by lia. lia. }
    eapply calc_bind; [exact Hmid|]. intros [l0 h0] (Hc0 & Hb01 & Hb02).
    eapply calc_bind; [apply (sqr_col_is (mp_dp a) ua); [done|lia|change SP_INT_DIGITS with 35; lia|lia..]|].
    intros [l1 h1] (Hc & Hb1 & Hb2). sp_steps. apply (summing_step _ _ _ l h); [lia|done| |lia|lia].
    rewrite Hc, Hc0. unfold S. rewrite column_square by lia. fold i. replace (i + 1 + (k - i - 1)) with k by lia. lia.
  - intros [[l h] t'] Hinv. pose proof Hinv as (Hl' & Hok & _). sp_steps.
    split; [by rewrite len_poke, Hl'|]. split; [apply digits_ok_poke; [done|apply w32_range]|].
    replace (ua * 2) with ((ua - 1) * 2 + 1 + 1) by lia. eapply (summing_end _ S _ _ h); [|exact Hinv| |].
    + lia.
    + unfold S. rewrite columns_product by lia. by rewrite Hav.
    + replace ((ua - 1) * 2 + 1 + 1) with (ua + ua) by lia. rewrite pw_add by lia. nia.
Qed.

Lemma sp_sqr_is na n va a r : sp_is na va a -> sp_box n r ->
  calc e 0 (sp_sqr a r) (fun '(err, r') =>
    if n <? mp_used a * 2 then err = MP_VAL /\ r' = r
    else (err = 0 /\ sp_is n (va * va) r') \/ (err = MP_MEM /\ r' = r /\ oom e)).
Proof.
  intros Ha Hr. pose proof (sp_is_0 Ha) as Ha0. pose proof (si_used _ _ _ Ha).
  pose proof (sb_n _ _ Hr) as Hn. change SP_INT_DIGITS with 35 in Hn. unfold sp_sqr. rewrite (sb_size _ _ Hr).
  destruct (Z.ltb_spec n (mp_used a * 2)); [by sp_steps|].
  destruct (Z.eqb_spec (mp_used a) 0) as [E|E].
  { sp_steps. left. split; [done|]. rewrite (proj1 Ha0 E). by apply sp_zero_is. }
  unfold _sp_sqr. calc_step; cbn [negb]; [|calc_step; by right].
  eapply calc_bind; [by apply (sqr_columns_is na va); [..|apply len_zeros; lia|apply digits_ok_zeros]|].
  intros t (Hl & Hok & Hv). rewrite len_zeros in Hl by lia.
  rewrite (w16_id ((mp_used a - 1) * 2)) by lia. replace ((mp_used a - 1) * 2 + 1 + 1) with (mp_used a * 2) by lia. rewrite w16_id by lia.
  apply (take_product 0 n _ (va * va) t r (fun r' => mret (0, r'))); [done|lia|lia|done|done|]. intros r' Hr'. calc_step. by left.
Qed.
End Mul.
