(* ===== verification/SpDiv.v ===== *)
(** * SpDiv: division of multi-precision integers of sp_int.c

    Long division, Knuth's algorithm D: the divisor is shifted until its top bit is
    set, each digit of the quotient is estimated from the top digits and corrected.
    The theorems show that the estimate is corrected at most twice and that quotient
    and remainder are those of the integers. *)

From S2P Require Import Prelude Platform Types Misc SpInt SpArith SpShift SpMul.

(** sp_int.c:8769-8774, [_sp_div_same_size], and sp_int.c:8922-8926, [_sp_div_impl]:
    the highest index up to [n] where [x] differs from [y] at [o], or 0. *)
Fixpoint diff_index (n : nat) (x y : list Z) (o : Z) : M Z :=
  match n with
  | O => mret 0
  | S m =>
    b ← peek y (o + Z.of_nat n);
    c ← peek x (Z.of_nat n);
    if negb (b =? c) then mret (Z.of_nat n) else diff_index m x y o
  end.

(** sp_int.c:8764-8786, [_sp_div_same_size] *)
Definition _sp_div_same_size (a d r : mp_int) : M (mp_int * mp_int) :=
  let o := mp_used a - mp_used d in
  i ← diff_index (Z.to_nat (mp_used d - 1)) (mp_dp d) (mp_dp a) o;
  x ← peek (mp_dp a) (o + i);
  y ← peek (mp_dp d) i;
  if y <=? x then
    q ← peek (mp_dp r) o;
    rdp ← poke (mp_dp r) o (w32 (q + 1));
    a' ← _sp_sub_off a d a o;
    mret (set_digits (mp_used a) (mp_dp a') a', set_digits (mp_used r) rdp r)
  else mret (a, r).

(** sp_int.c:8896-8916, [_sp_div_impl]: the divisor times the digit tried. *)
Definition trial_product (d : mp_int) (t : Z) (trial : list Z) : M (list Z) :=
  '(tw, trial) ← for_range 0 (mp_used d) (fun j '(tw, trial) =>
      x ← peek (mp_dp d) j; put_carry trial j (w64 (tw + x * t))) (0, trial);
  poke trial (mp_used d) (w32 tw).

(** sp_int.c:8894-8932, [_sp_div_impl]: try a digit, and the next lower while the
    product is too large; at most [n] times. *)
Fixpoint trial_loop (n : nat) (d : mp_int) (adp : list Z) (o t : Z) (trial : list Z) : M (Z * list Z) :=
  match n with
  | O => out_of_fuel
  | S n =>
    trial ← trial_product d t trial;
    j ← diff_index (Z.to_nat (mp_used d)) trial adp o;
    y ← peek adp (o + j);
    x ← peek trial j;
    if y <? x then trial_loop n d adp o (w32 (t - 1)) trial else mret (t, trial)
  end.

(** sp_int.c:8839-8960, [_sp_div_impl]: one digit of the quotient, at [o]. *)
Definition div_digit (d : mp_int) (dt o : Z) (s : list Z * list Z * list Z) : M (list Z * list Z * list Z) :=
  let '(adp, rdp, trial) := s in
  let i := o + mp_used d in
  hi ← peek adp i;
  lo ← peek adp (i - 1);
  let t := if hi =? dt then 0xffffffff else sp_div_word hi lo dt in
  '(t, trial) ← trial_loop 3 d adp o t trial;
  '(_, adp) ← for_range 0 (mp_used d + 1) (fun j '(sw, adp) =>
      x ← peek adp (j + o); y ← peek trial j; put_carry adp (j + o) (sw + x - y)) (0, adp);
  rdp ← poke rdp o t;
  mret (adp, rdp, trial).

(** sp_int.c:8801-8969, [_sp_div_impl] *)
Definition _sp_div_impl (a d r trial : mp_int) : M (Z * mp_int * mp_int) :=
  let used := w16 (mp_used a - mp_used d + 1) in
  rdp ← for_range 0 used (fun i dp => poke dp i 0) (mp_dp r);
  let r := set_digits used rdp r in
  dt ← peek (mp_dp d) (mp_used d - 1);
  '(a, r) ← _sp_div_same_size a d r;
  '(adp, rdp, _) ← for_down (Z.to_nat (mp_used a - mp_used d)) (fun o s => div_digit d dt o s) (mp_dp a, mp_dp r, mp_dp trial);
  let a := set_digits (mp_used d) adp a in
  let r := set_digits used rdp r in
  '(a, r) ← _sp_div_same_size a d r;
  mret (0, a, r).

(** sp_int.c:9097-9111, [_sp_div]: dividend and divisor shifted by [s] bits. *)
Definition div_normalize (sa d sd : mp_int) (s : Z) : M (Z * mp_int * mp_int) :=
  if negb (s =? 32) then
    '(err, sa) ← sp_lshb sa s;
    if err =? 0 then '(err, sd) ← sp_lshb (_sp_copy d sd) s; mret (err, sa, sd) else mret (err, sa, d)
  else mret (0, sa, d).

(** sp_int.c:8983-9145, [_sp_div]; [rem_is_d] and [r_is_d] say that a result goes to
    the divisor itself.  The buffer of the remainder serves for the dividend when it is
    large enough, that of the quotient for the quotient. *)
Definition _sp_div (a d : mp_int) (r rem : option mp_int) (used : Z) (rem_is_d r_is_d : bool)
    : M (Z * option mp_int * option mp_int) :=
  let ret := _sp_cmp_abs a d in
  if ret =? -1 then mret (0, (fun r => _sp_set r 0) <$> r, (fun m => _sp_copy a m) <$> rem)
  else if ret =? 0 then mret (0, (fun r => _sp_set r 1) <$> r, (fun m => _sp_set m 0) <$> rem)
  else if sp_count_bits a =? sp_count_bits d then
    rem ← match rem with Some m => m ← _sp_sub_off a d m 0; mret (Some m) | None => mret None end;
    mret (0, (fun r => _sp_set r 1) <$> r, rem)
  else
    let sa_rem := match rem with Some m => negb rem_is_d && (mp_used a <? mp_size m) | None => false end in
    let tr_r := match r with Some _ => negb r_is_d | None => false end in
    '(err, tdd) ← ALLOC_SP_INT used 0;
    if negb (err =? 0) then _ ← XFREE tdd; mret (err, r, rem)
    else
      let fresh := new_sp_int used in
      let sa := if sa_rem then default fresh rem else _sp_init_size fresh used in
      let tr := if tr_r then default fresh r else _sp_init_size fresh (mp_used a - mp_used d + 2) in
      let sd := _sp_init_size fresh (mp_used d + 1) in
      let trial := _sp_init_size fresh used in
      let s := 32 - Z.land (sp_count_bits d) 31 in
      let sa := _sp_copy a sa in
      '(err, sa, d) ← div_normalize sa d sd s;
      if (err =? 0) && (0 <? mp_used d) then
        '(err, sa, tr) ← _sp_div_impl sa d tr trial;
        '(rem, sa) ← match rem with
                     | Some m =>
                       '(_, sa) ← (if negb (s =? 32) then sp_rshb sa s sa else mret (0, sa));
                       mret (Some (sp_clamp (if sa_rem then sa else _sp_copy sa m)), sa)
                     | None => mret (None, sa)
                     end;
        let r := (fun r => sp_clamp (if tr_r then tr else _sp_copy tr r)) <$> r in
        _ ← XFREE tdd;
        mret (err, r, rem)
      else
        _ ← XFREE tdd;
        mret (err, (fun r => if tr_r then tr else r) <$> r, (fun m => if sa_rem then sa else m) <$> rem).

(** sp_int.c:9186-9199, [sp_div]: the digits of the buffers, or MP_VAL. *)
Definition div_used (a d : mp_int) : Z * Z :=
  if mp_used a =? SP_INT_DIGITS then
    let bits := 32 - sp_count_bits d mod 32 in
    if negb (bits =? 32) && (SP_INT_DIGITS * 32 <? sp_count_bits a + bits) then (MP_VAL, 1) else (0, SP_INT_DIGITS)
  else (0, w16 (mp_used a + 1)).

(** sp_int.c:9159-9222, [sp_div] *)
Definition sp_div (a d : mp_int) (r rem : option mp_int) (rem_is_d r_is_d : bool) : M (Z * option mp_int * option mp_int) :=
  if is_null r && is_null rem then mret (MP_VAL, r, rem)
  else if mp_used d =? 0 then mret (MP_VAL, r, rem)
  else if match r with Some r => mp_size r + mp_used d <? mp_used a + 2 | None => false end then mret (MP_VAL, r, rem)
  else if match rem with
          | Some m => if mp_used a <=? mp_used d then mp_size m <? mp_used a + 1 else mp_size m <? mp_used d + 1
          | None => false
          end then mret (MP_VAL, r, rem)
  else
    let '(err, used) := div_used a d in
    if err =? 0 then _sp_div a d r rem used rem_is_d r_is_d else mret (err, r, rem).

(** sp_int.c:9280-9311, [sp_mod] *)
Definition sp_mod (a m r : mp_int) (r_is_m : bool) : M (Z * mp_int) :=
  if SP_INT_DIGITS <=? mp_used a then mret (MP_VAL, r)
  else '(err, _, rem) ← sp_div a m None (Some r) r_is_m false; mret (err, default r rem).

(** ** Comparing digits from the top *)

(** The highest digit that differs decides. *)
Lemma top_decides x y n i : digits_ok x -> digits_ok y -> n < len x -> n < len y -> 0 <= i <= n ->
  (forall k, i < k <= n -> y.[k] = x.[k]) -> (i = 0 \/ y.[i] <> x.[i]) ->
  (x.[i] <= y.[i] <-> val x (n + 1) <= val y (n + 1)) /\ (y.[i] < x.[i] <-> val y (n + 1) < val x (n + 1)).
Proof.
  intros Hx Hy Hnx Hny Hi Hsame Hdiff.
  pose proof (val_same_above y x (i + 1) (n + 1) ltac:(lia) ltac:(lia) ltac:(lia) ltac:(intros; apply Hsame; lia)) as H.
  rewrite !(val_succ _ i) in H by lia. pose proof (val_range x i Hx ltac:(lia)). pose proof (val_range y i Hy ltac:(lia)).
  pose proof (pw_pos i ltac:(lia)). destruct Hdiff as [->|Hne].
  - rewrite !val_0, pw_0 in *. lia.
  - assert (y.[i] < x.[i] \/ x.[i] < y.[i]) as [Hlt|Hlt] by lia; [assert (pw i * (x.[i] - y.[i]) >= pw i) by nia|
      assert (pw i * (y.[i] - x.[i]) >= pw i) by nia]; lia.
Qed.

(** ** The estimate of a digit

    [X] is the window divided, [hi] and [lo] its top digits, [D] the divisor with top
    digit [dt] at least half the base, [P] the weight of that digit. *)
Lemma knuth_estimate X D dt hi lo P t : 0 < P -> 2 ^ 31 <= dt < 2 ^ 32 -> dt * P <= D < (dt + 1) * P ->
  (hi * 2 ^ 32 + lo) * P <= X < (hi * 2 ^ 32 + lo + 1) * P -> X < 2 ^ 32 * D -> 0 <= t < 2 ^ 32 ->
  t * dt <= hi * 2 ^ 32 + lo -> (t = 2 ^ 32 - 1 \/ hi * 2 ^ 32 + lo < (t + 1) * dt) -> X / D <= t <= X / D + 2.
Proof.
  intros HP Hdt HD HX HXD Ht Htlo Hthi. assert (0 < D) by nia. set (q := X / D).
  assert (Hq : D * q <= X < D * (q + 1)).
  { pose proof (Z.div_mod X D ltac:(lia)). pose proof (Z.mod_pos_bound X D ltac:(lia)). fold q in H0. lia. }
  split.
  - destruct Hthi as [->|Hthi]; [nia|]. assert (q * dt < hi * 2 ^ 32 + lo + 1) by nia. nia.
  - assert (t * D - 2 * D < X); [|nia]. assert (t * (D - P) <= X) by nia. assert (t * P < 2 * D) by nia. lia.
Qed.

Section Div.
Context (e : env).

Lemma diff_index_is {B} d n x y o (k : Z -> M B) Q : 0 <= o -> Z.of_nat n < len x -> o + Z.of_nat n < len y ->
  (forall i, 0 <= i <= Z.of_nat n -> (forall j, i < j <= Z.of_nat n -> y.[o + j] = x.[j]) -> (i = 0 \/ y.[o + i] <> x.[i]) ->
     calc e d (k i) Q) ->
  calc e d (diff_index n x y o ≫= k) Q.
Proof.
  intros Ho Hx Hy Hk. eapply calc_bind; [|intros i Hi; exact (Hk i (proj1 Hi) (proj1 (proj2 Hi)) (proj2 (proj2 Hi)))].
  clear Hk. induction n as [|n IH]; cbn [diff_index].
  - sp_steps. split; [lia|]. split; [intros; lia|by left].
  - sp_steps. destruct (Z.eqb_spec y.[o + Z.of_nat (S n)] x.[Z.of_nat (S n)]) as [E|E]; cbn [negb].
    + eapply calc_mono; [apply IH; lia|]. intros i (H1 & H2 & H3). split; [lia|]. split; [|done].
      intros j Hj. destruct (Z.eq_dec j (Z.of_nat (S n))) as [->|]; [done|]. apply H2. lia.
    + sp_steps. split; [lia|]. split; [intros; lia|by right].
Qed.

(** A window of the dividend, [n] digits from [o] on. *)
Definition win (dp : list Z) (o n : Z) : Z := val (drop (Z.to_nat o) dp) n.

Lemma win_val dp o n : 0 <= o -> 0 <= n -> o + n <= len dp -> val dp (o + n) = val dp o + pw o * win dp o n.
Proof. apply val_split. Qed.

Lemma win_range dp o n : digits_ok dp -> 0 <= n -> 0 <= win dp o n < pw n.
Proof. intros. by apply val_range; [apply digits_ok_drop|]. Qed.

Lemma win_low dp o n : 0 <= o -> 0 <= n -> o + n + 1 <= len dp -> win dp o (n + 1) = dp.[o] + 2 ^ 32 * win dp (o + 1) n.
Proof.
  intros Ho Hn Hl. pose proof (win_val dp o (n + 1) Ho ltac:(lia) ltac:(lia)) as H1.
  pose proof (win_val dp (o + 1) n ltac:(lia) Hn ltac:(lia)) as H2. rewrite val_succ, pw_succ in H2 by lia.
  replace (o + 1 + n) with (o + (n + 1)) in H2 by lia. pose proof (pw_pos o Ho). nia.
Qed.

Lemma win_high dp o n : 0 <= o -> 0 <= n -> o + n + 1 <= len dp -> win dp o (n + 1) = win dp o n + pw n * dp.[o + n].
Proof. intros. unfold win. rewrite val_succ by (rewrite len_drop; lia). by rewrite digit_drop by lia. Qed.

(** Comparing a number with a window of another. *)
Lemma compare_window {B} d n x y o (k : Z -> Z -> M B) Q : 0 <= o -> Z.of_nat n < len x -> o + Z.of_nat n < len y ->
  digits_ok x -> digits_ok y ->
  (forall u v, (u <= v <-> val x (Z.of_nat n + 1) <= win y o (Z.of_nat n + 1)) ->
     (v < u <-> win y o (Z.of_nat n + 1) < val x (Z.of_nat n + 1)) -> calc e d (k u v) Q) ->
  calc e d (i ← diff_index n x y o; v ← peek y (o + i); u ← peek x i; k u v) Q.
Proof.
  intros Ho Hx Hy Hxok Hyok Hk. apply diff_index_is; [done|done|done|]. intros i Hi Hs Hd. sp_steps.
  assert (forall j, 0 <= j -> (drop (Z.to_nat o) y).[j] = y.[o + j]) as Hdr by (intros; by apply digit_drop).
  destruct (top_decides x (drop (Z.to_nat o) y) (Z.of_nat n) i) as [H1 H2]; try done.
  - by apply digits_ok_drop.
  - rewrite len_drop; lia.
  - intros j Hj. rewrite Hdr by lia. apply Hs. lia.
  - destruct Hd as [|Hd]; [by left|right]. by rewrite Hdr by lia.
  - rewrite Hdr in H1, H2 by lia. by apply Hk.
Qed.

(** A divisor whose top bit is set. *)
Record divisor (nd D : Z) (d : mp_int) : Prop := {
  dv_is : sp_is nd D d;
  dv_used : 0 < mp_used d;
  dv_top : 2 ^ 31 <= (mp_dp d).[mp_used d - 1] }.

Section Digit.
Context (nd D : Z) (d : mp_int).
Hypothesis Hd : divisor nd D d.

Let ud : Z := mp_used d.
Let dt : Z := (mp_dp d).[ud - 1].

Lemma divisor_facts : 0 < ud <= 35 /\ ud <= len (mp_dp d) /\ digits_ok (mp_dp d) /\ val (mp_dp d) ud = D /\
  2 ^ 31 <= dt < 2 ^ 32 /\ dt * pw (ud - 1) <= D < (dt + 1) * pw (ud - 1) /\ 0 < D < pw ud.
Proof.
  pose proof Hd as [Hi Hu Ht]. pose proof (sp_is_range Hi) as Hr. destruct Hi as [[_ Hn Hl Hok] Hun _ Hv]. change SP_INT_DIGITS with 35 in Hn.
  fold ud in Hr, Hu, Ht, Hun, Hv. pose proof (digit_range (mp_dp d) (ud - 1) Hok) as Hdr. fold dt in Ht, Hdr.
  pose proof (val_succ (mp_dp d) (ud - 1) ltac:(lia)) as Hs. replace (ud - 1 + 1) with ud in Hs by lia. rewrite Hv in Hs. fold dt in Hs.
  pose proof (val_range (mp_dp d) (ud - 1) Hok ltac:(lia)). pose proof (pw_pos (ud - 1) ltac:(lia)).
  split; [lia|]. split; [lia|]. split; [done|]. split; [done|]. split; [lia|]. split; [lia|]. nia.
Qed.

Lemma trial_product_is t trial : 0 <= t < 2 ^ 32 -> digits_ok trial -> ud < len trial ->
  calc e 0 (trial_product d t trial) (fun tr => len tr = len trial /\ digits_ok tr /\ val tr (ud + 1) = D * t).
Proof.
  intros Ht Hok Hl. destruct divisor_facts as (Hud & Hld & Hdok & Hv & _ & _ & HD). unfold trial_product. fold ud.
  set (R := fun i => val (mp_dp d) i * t). set (inv := carrying (len trial) 0 (2 ^ 32 - 1) R).
  apply (calc_for_range e inv); [lia|by apply carrying_init| |].
  - intros i [tw dp] Hi Hinv. pose proof Hinv as (Hlen & _ & Htw & _). cbn [fst snd] in Hlen, Htw. sp_steps.
    pose proof (digit_range (mp_dp d) i Hdok). rewrite w64_id by nia.
    apply (carrying_step _ _ _ _ _ tw); [lia|done|apply shiftr_32_range; nia|]. unfold R. rewrite val_succ by lia. lia.
  - intros [tw dp] (Hlen & Hdp & Htw & Hvt). cbn [fst snd] in *. unfold R in Hvt. rewrite Hv in Hvt. sp_steps.
    split; [by rewrite len_poke|]. split; [apply digits_ok_poke; [done|apply w32_range]|]. rewrite val_poke, w32_id by lia. lia.
Qed.

(** The loop stops at the digit of the quotient. *)
Lemma trial_loop_is adp o X : 0 <= o -> digits_ok adp -> o + ud < len adp -> win adp o (ud + 1) = X ->
  forall n t trial, X / D <= t < X / D + Z.of_nat n -> t < 2 ^ 32 -> digits_ok trial -> ud < len trial ->
  calc e 0 (trial_loop n d adp o t trial) (fun '(t', tr) => t' = X / D /\ len tr = len trial /\ digits_ok tr /\ val tr (ud + 1) = D * t').
Proof.
  intros Ho Haok Hal HX. destruct divisor_facts as (Hud & _ & _ & _ & _ & _ & HD). pose proof (win_range adp o (ud + 1) Haok ltac:(lia)) as HXr.
  assert (0 <= X / D) by (apply Z.div_pos; lia).
  assert (Hq : D * (X / D) <= X < D * (X / D + 1)).
  { pose proof (Z.div_mod X D ltac:(lia)). pose proof (Z.mod_pos_bound X D ltac:(lia)). lia. }
  induction n as [|n IH]; intros t trial Ht Ht32 Htok Htl; [lia|]. cbn [trial_loop].
  eapply calc_bind; [apply trial_product_is; [lia|done|done]|]. intros tr (Hl & Hok & Hv). fold ud.
  apply compare_window; [done|lia|lia|done|done|]. intros u v _ Hlt. rewrite Z2Nat.id in Hlt by lia. rewrite Hv, HX in Hlt.
  destruct (Z.ltb_spec v u) as [Hvu|Hvu].
  - assert (X < D * t) by tauto. assert (X / D < t) by nia. rewrite w32_id by lia.
    eapply calc_mono; [apply IH; lia || done|]. intros [t' tr'] (Q1 & Q2 & Q3 & Q4). split; [done|]. split; [lia|done].
  - sp_steps. assert (D * t <= X) by (destruct (Z_le_gt_dec (D * t) X); [done|]; assert (v < u) by (apply Hlt; lia); lia).
    split; [nia|done].
Qed.

(** Taking a product from a window. *)
Lemma window_sub {B} c adp o tr V (k : Z * list Z -> M B) Q : 0 <= o -> digits_ok adp -> o + ud < len adp ->
  digits_ok tr -> ud < len tr -> val tr (ud + 1) = V -> V <= win adp o (ud + 1) ->
  (forall sw dp, len dp = len adp -> digits_ok dp -> val dp o = val adp o -> win dp o (ud + 1) = win adp o (ud + 1) - V -> calc e c (k (sw, dp)) Q) ->
  calc e c (for_range 0 (mp_used d + 1) (fun j '(sw, adp) =>
      x ← peek adp (j + o); y ← peek tr j; put_carry adp (j + o) (sw + x - y)) (0, adp) ≫= k) Q.
Proof.
  intros Ho Haok Hal Htok Htl HV Hle Hk. destruct divisor_facts as (Hud & _). fold ud.
  set (R := fun i => val adp i - pw o * val tr (i - o)).
  apply (calc_for_range e (fun j s => carrying (len adp) (-1) 0 R (o + j) s /\ (forall i, 0 <= i < o \/ o + j <= i -> s.2.[i] = adp.[i]))); [lia| | |].
  - split; [|done]. split; [done|]. split; [done|]. split; [done|]. cbn [fst snd]. unfold R. rewrite Z.add_0_r, Z.sub_diag, val_0. lia.
  - intros j [sw dp] Hj [Hc Hsame]. pose proof Hc as (Hl & Hok & Hsw & _). cbn [fst snd] in *. rewrite (Z.add_comm j o). sp_steps.
    rewrite Hsame by lia. pose proof (digit_range adp (o + j) Haok). pose proof (digit_range tr j Htok). split.
    + rewrite Z.add_assoc. apply (carrying_step _ _ _ _ _ sw); [lia|done|apply shiftr_32_range; lia|]. unfold R. rewrite val_succ by lia.
      replace (o + j + 1 - o) with (j + 1) by lia. replace (o + j - o) with j by lia. rewrite val_succ, pw_add by lia. lia.
    + cbn [snd]. intros i Hi. rewrite digit_poke_ne by lia. apply Hsame. lia.
  - intros [sw dp] [(Hl & Hok & Hsw & Hv) Hsame]. cbn [fst snd] in *. unfold R in Hv. replace (o + (ud + 1) - o) with (ud + 1) in Hv by lia.
    assert (Hlow : val dp o = val adp o) by (apply val_ext; [lia|lia|lia|]; intros; apply Hsame; lia).
    rewrite (win_val dp), (win_val adp), Hlow, HV, (pw_add o) in Hv by lia. pose proof (win_range dp o (ud + 1) Hok ltac:(lia)). pose proof (win_range adp o (ud + 1) Haok ltac:(lia)).
    pose proof (val_range tr (ud + 1) Htok ltac:(lia)). pose proof (pw_pos o Ho).
    apply Hk; [done|done|done|]. assert (win dp o (ud + 1) + pw (ud + 1) * sw = win adp o (ud + 1) - V) by nia.
    assert (sw = 0) as -> by nia. lia.
Qed.

(** Down to digit [o] of the quotient: what is left of the dividend is below the divisor. *)
Definition quotient_to (va n la lr lt o : Z) (s : list Z * list Z * list Z) : Prop :=
  let '(adp, rdp, trial) := s in
  len adp = la /\ digits_ok adp /\ len rdp = lr /\ digits_ok rdp /\ len trial = lt /\ digits_ok trial /\
  val adp (o + ud) + D * (val rdp (n + 1) - val rdp o) = va /\ win adp o ud < D.

(** The digit the code starts from is the digit of the quotient or at most two more. *)
Lemma estimate_is adp o (X := win adp o (ud + 1)) (hi := adp.[o + ud]) (lo := adp.[o + ud - 1])
    (t := if hi =? dt then 0xffffffff else sp_div_word hi lo dt) :
  digits_ok adp -> 0 <= o -> o + ud < len adp -> win adp (o + 1) ud < D ->
  X / D <= t <= X / D + 2 /\ 0 <= t < 2 ^ 32 /\ D * (X / D) <= X < D * (X / D + 1) /\ 0 <= X / D < 2 ^ 32.
Proof.
  intros Hok Ho Hl Hw. destruct divisor_facts as (Hud & _ & _ & _ & Hdt & HDt & HD). set (P := pw (ud - 1)) in *.
  pose proof (digit_range adp o Hok) as Hd0. pose proof (digit_range adp (o + ud) Hok) as Hhi. pose proof (digit_range adp (o + ud - 1) Hok) as Hlo.
  fold hi in Hhi. fold lo in Hlo. pose proof (win_range adp o (ud - 1) Hok ltac:(lia)) as Hlw. fold P in Hlw.
  assert (HXl : X = adp.[o] + 2 ^ 32 * win adp (o + 1) ud) by (apply win_low; lia).
  assert (HXh : X = win adp o (ud - 1) + P * (hi * 2 ^ 32 + lo)).
  { unfold X. rewrite win_high by lia. replace ud with (ud - 1 + 1) at 1 by lia. rewrite win_high by lia.
    replace (pw ud) with (2 ^ 32 * P) by (unfold P; rewrite <-pw_succ by lia; f_equal; lia). replace (o + (ud - 1)) with (o + ud - 1) by lia.
    fold hi lo P. lia. }
  assert (HXD : 0 <= X < 2 ^ 32 * D) by (pose proof (win_range adp (o + 1) ud Hok ltac:(lia)); lia).
  clearbody X. assert (Hhd : hi <= dt) by nia. assert (HP : 0 < P) by (apply pw_pos; lia).
  assert (0 <= t < 2 ^ 32 /\ t * dt <= hi * 2 ^ 32 + lo /\ (t = 2 ^ 32 - 1 \/ hi * 2 ^ 32 + lo < (t + 1) * dt)) as (H1 & H2 & H3).
  { unfold t. destruct (Z.eqb_spec hi dt) as [->|Hne]; [lia|]. unfold sp_div_word. rewrite word_lor by lia.
    pose proof (Z.div_mod (hi * 2 ^ 32 + lo) dt ltac:(lia)) as Hdm. pose proof (Z.mod_pos_bound (hi * 2 ^ 32 + lo) dt ltac:(lia)).
    assert (0 <= (hi * 2 ^ 32 + lo) / dt < 2 ^ 32) by (split; [apply Z.div_pos; lia|apply Z.div_lt_upper_bound; nia]).
    rewrite w32_id by lia. lia. }
  split; [apply (knuth_estimate X D dt hi lo P); try done; lia|]. split; [done|].
  pose proof (Z.div_mod X D ltac:(lia)). pose proof (Z.mod_pos_bound X D ltac:(lia)). split; [lia|nia].
Qed.

Lemma div_digit_is va n la lr lt o s : n + ud <= la -> n < lr -> ud < lt -> 0 <= o < n ->
  quotient_to va n la lr lt (o + 1) s -> calc e 0 (div_digit d dt o s) (quotient_to va n la lr lt o).
Proof.
  intros Hla Hlr Hlt Ho. destruct s as [[adp rdp] trial]. intros (Hl & Hok & Hrl & Hrok & Htl & Htok & Hv & Hw).
  destruct divisor_facts as (Hud & _ & _ & _ & _ & _ & HD). unfold div_digit. fold ud. sp_step. sp_step.
  destruct (estimate_is adp o Hok ltac:(lia) ltac:(lia) Hw) as (Ht & Htr & Hq & Hqr). set (X := win adp o (ud + 1)) in *. set (t := if _ =? _ then _ else _) in *.
  clearbody t. eapply calc_bind; [apply (trial_loop_is adp o X); [lia|done|lia|done|lia|lia|done|lia]|].
  intros [q tr] (-> & Htl' & Htok' & Hvt). set (q := X / D) in *.
  apply (window_sub 0 adp o tr (D * q)); [lia|done|lia|done|lia|done|lia|]. intros sw dp Hl2 Hok2 Hlow Hwin. fold X in Hwin. sp_steps.
  (* the window is below the divisor, so its top digit is zero *)
  pose proof (win_range dp o ud Hok2 ltac:(lia)). pose proof (digit_range dp (o + ud) Hok2). rewrite win_high in Hwin by lia.
  assert (dp.[o + ud] = 0) as Ez by nia. rewrite Ez in Hwin.
  split; [lia|]. split; [done|]. split; [by rewrite len_poke|]. split; [by apply digits_ok_poke|]. split; [lia|]. split; [done|]. split; [|lia].
  rewrite (win_val dp), Hlow by lia. rewrite val_above_poke by lia. rewrite <-Hv.
  replace (o + 1 + ud) with (o + (ud + 1)) by lia. rewrite (win_val adp) by lia. fold X. replace (win dp o ud) with (X - D * q) by lia. lia.
Qed.

(** Taking the divisor from the top of the dividend once, if it fits. *)
Lemma same_size_is na nr va a r (o := mp_used a - ud) (b := Z.b2z (D <=? win (mp_dp a) o ud)) : sp_raw na va a -> ud <= mp_used a ->
  sp_box nr r -> o < nr -> (mp_dp r).[o] + b < 2 ^ 32 ->
  calc e 0 (_sp_div_same_size a d r) (fun '(a', r') =>
    sp_raw na (va - D * pw o * b) a' /\ mp_used a' = mp_used a /\ len (mp_dp a') = len (mp_dp a) /\ win (mp_dp a') o ud = win (mp_dp a) o ud - D * b /\
    sp_box nr r' /\ mp_used r' = mp_used r /\ mp_dp r' = (mp_dp r).[o := (mp_dp r).[o] + b]).
Proof.
  intros Ha Hle Hr Hon Hro. unfold b in Hro. destruct divisor_facts as (Hud & Hld & Hdok & HvD & _ & _ & HD). pose proof Ha as [[Has Hna Hal Haok] Hua Hva].
  pose proof (sb_len _ _ Hr) as Hrl. pose proof (digit_range (mp_dp r) o (sb_digits _ _ Hr)) as Hrd.
  unfold _sp_div_same_size. fold ud o. apply compare_window; [lia|lia|lia|done|done|]. rewrite Z2Nat.id by lia. replace (ud - 1 + 1) with ud by lia.
  intros u v Hcmp _. rewrite HvD in Hcmp. set (W := win (mp_dp a) o ud) in *.
  pose proof (win_val (mp_dp a) o ud ltac:(lia) ltac:(lia) ltac:(lia)) as HW. replace (o + ud) with (mp_used a) in HW by lia. fold W in HW. rewrite Hva in HW.
  subst b. fold W in Hro. destruct (Z.leb_spec D W) as [HDW|HDW]; cbn [Z.b2z] in Hro.
  - rewrite (proj2 (Z.leb_le _ _)) by tauto. cbn [Z.b2z]. sp_step. sp_step. rewrite w32_id by lia.
    pose proof (val_range (mp_dp a) o Haok ltac:(lia)). pose proof (pw_pos o ltac:(lia)).
    eapply calc_bind; [apply (_sp_sub_off_raw e na nd na va D a d a o Ha (dv_is _ _ _ Hd)); [by destruct Ha|lia|lia|nia]|].
    intros a' (Hi & Hl' & Hv'). sp_steps. pose proof Hi as [[Hs' _ Hal' Haok'] _ _ _].
    split; [|split; [done|]; split; [done|]; split].
    + split; cbn [set_digits mp_used mp_dp]; [by split|done|]. rewrite Hv'. lia.
    + cbn [set_digits mp_dp]. pose proof (win_val (mp_dp a') o ud ltac:(lia) ltac:(lia) ltac:(lia)) as HW'.
      replace (o + ud) with (mp_used a) in HW' by lia. rewrite Hv', HW in HW'. pose proof (val_range (mp_dp a') o Haok' ltac:(lia)).
      assert (win (mp_dp a') o ud = W - D) by nia. lia.
    + split; [apply sp_box_set; [done|by rewrite len_poke|apply digits_ok_poke; [by destruct Hr|lia]]|]. by rewrite Z.add_comm.
  - destruct (Z.leb_spec u v); [assert (D <= W) by tauto; lia|]. cbn [Z.b2z]. sp_steps. rewrite !Z.mul_0_r, !Z.sub_0_r, Z.add_0_r.
    split; [done|]. split; [done|]. split; [done|]. split; [done|]. split; [done|]. split; [done|].
    symmetry. apply list_insert_id. apply list_lookup_lookup_total_lt. unfold len in *. lia.
Qed.

Lemma _sp_div_impl_is na nr nt va a r trial : sp_raw na va a -> ud <= mp_used a -> sp_box nr r -> mp_used a - ud < nr ->
  sp_box nt trial -> ud < nt ->
  calc e 0 (_sp_div_impl a d r trial) (fun '(err, a', r') =>
    err = 0 /\ sp_raw na (va mod D) a' /\ mp_used a' = ud /\ sp_raw nr (va / D) r' /\ mp_used r' = mp_used a - ud + 1).
Proof.
  intros Ha Hle Hr Hnr Ht Hnt. destruct divisor_facts as (Hud & Hld & Hdok & HvD & Hdt & HDt & HD). pose proof Ha as [[Has Hna Hal Haok] Hua Hva].
  pose proof Hr as [Hrs Hnr35 Hrl Hrok]. pose proof Ht as [_ _ Htl Htok]. change SP_INT_DIGITS with 35 in Hna, Hnr35.
  unfold _sp_div_impl. fold ud. set (n := mp_used a - ud) in *. rewrite w16_id by lia.
  apply zero_fill_is; [lia|lia|done|]. intros rdp Hl0 Hok0 Hz _. sp_step. fold dt.
  assert (Hr0 : sp_box nr (set_digits (n + 1) rdp r)) by (by apply sp_box_set).
  eapply calc_bind; [apply (same_size_is na nr va a _ Ha Hle Hr0); cbn [set_digits mp_dp]; [done|]; fold ud n; rewrite Hz by lia; by destruct (_ <=? _)|].
  cbn [set_digits mp_dp mp_used]. fold ud n. rewrite Hz by lia. rewrite Z.add_0_l. set (b := Z.b2z _).
  intros [a1 r1] (Ha1 & Hu1 & Hl1 & Hw1 & Hr1 & _ & Hd1). rewrite Hu1. fold n.
  assert (Hb : 0 <= b <= 1) by (unfold b; destruct (_ <=? _); cbn; lia).
  assert (HwD : win (mp_dp a1) n ud < D).
  { rewrite Hw1. unfold b. pose proof (win_range (mp_dp a) n ud Haok ltac:(lia)). replace (pw ud) with (2 ^ 32 * pw (ud - 1)) in H by (rewrite <-pw_succ by lia; f_equal; lia).
    destruct (Z.leb_spec D (win (mp_dp a) n ud)); cbn [Z.b2z]; [|lia]. pose proof (pw_pos (ud - 1) ltac:(lia)). nia. }
  apply (calc_for_down e (quotient_to va n (len (mp_dp a)) (len (mp_dp r)) (len (mp_dp trial)))); rewrite ?Z2Nat.id by lia.
  - destruct Ha1 as [[_ _ _ Hok1] _ Hv1]. rewrite Hd1. split; [done|]. split; [done|]. split; [by rewrite len_poke|].
    split; [apply digits_ok_poke; [done|lia]|]. split; [done|]. split; [done|]. split; [|done].
    replace (n + ud) with (mp_used a1) by lia. rewrite Hv1, val_poke, val_poke_ge by lia. lia.
  - intros o s Ho Hs. apply div_digit_is; [lia|lia|lia|lia|done].
  - intros [[adp rdp'] tr] (Hl & Hok & Hrl' & Hrok' & _ & _ & Hv & Hw). rewrite val_0, Z.sub_0_r, Z.add_0_l in Hv.
    assert (Hw0 : win adp 0 ud = val adp ud) by (unfold win; by rewrite drop_0). rewrite Hw0 in Hw.
    assert (Ha2 : sp_raw na (val adp ud) (set_digits ud adp a1)).
    { destruct Ha1 as [[Hs1 _ _ _] _ _]. split; cbn; [split; cbn; [done|change SP_INT_DIGITS with 35; lia|lia|done]|lia|done]. }
    assert (Hr2 : sp_box nr (set_digits (n + 1) rdp' r1)).
    { destruct Hr1 as [Hs1 _ _ _]. split; cbn; [done|change SP_INT_DIGITS with 35; lia|lia|done]. }
    eapply calc_bind; [apply (same_size_is na nr _ _ _ Ha2); cbn [set_digits mp_dp mp_used]; [lia|done|lia|]|].
    { rewrite Z.sub_diag, Hw0. destruct (Z.leb_spec D (val adp ud)); [lia|]. cbn. pose proof (digit_range rdp' 0 Hrok'). lia. }
    cbn [set_digits mp_dp mp_used]. rewrite Z.sub_diag, Hw0. destruct (Z.leb_spec D (val adp ud)); [lia|]. cbn [Z.b2z]. rewrite Z.mul_0_r, Z.sub_0_r, Z.add_0_r.
    intros [a3 r3] (Ha3 & Hu3 & _ & _ & Hr3 & Hu3' & Hd3). sp_steps. pose proof (val_range adp ud Hok ltac:(lia)).
    destruct (Z.div_mod_unique D (va / D) (val rdp' (n + 1)) (va mod D) (val adp ud)) as [-> ->]; [left; apply Z.mod_pos_bound; lia|left; lia|pose proof (Z.div_mod va D ltac:(lia)); lia|].
    split; [done|]. split; [done|]. split; [done|]. split; [|done]. split; [done|lia|]. rewrite Hu3', Hd3, list_insert_id; [done|].
    apply list_lookup_lookup_total_lt. unfold len in *. lia.
Qed.
End Digit.

(** ** Normalising *)

Lemma normal_shift nd vd d (k := (32 - Z.land (sp_count_bits d) 31) mod 32) : sp_is nd vd d -> 0 < vd ->
  0 <= k < 32 /\ 32 - Z.land (sp_count_bits d) 31 = (if k =? 0 then 32 else k) /\
  2 ^ 31 * pw (mp_used d - 1) <= vd * 2 ^ k < pw (mp_used d).
Proof.
  intros Hd Hv. pose proof (sp_is_range Hd) as Hr. pose proof (sp_is_0 Hd) as H0. assert (mp_used d <> 0) as Hu by (intros E; apply H0 in E; lia).
  pose proof (sp_is_top Hd Hu) as Ht. pose proof (si_used _ _ _ Hd). set (ud := mp_used d) in *. unfold pw in *.
  pose proof (sp_count_bits_num d (sp_is_num _ _ _ Hd)) as Hc. rewrite (sp_is_sp_val _ _ _ Hd), (proj2 (Z.eqb_neq _ _)) in Hc by lia.
  assert (Hl : Z.land (sp_count_bits d) 31 = (Z.log2 vd + 1) mod 32) by (rewrite Hc; by apply (Z.land_ones _ 5)).
  unfold k. clear k. rewrite Hl. set (k := (32 - (Z.log2 vd + 1) mod 32) mod 32).
  assert (32 * (ud - 1) <= Z.log2 vd) by (apply Z.log2_le_pow2; lia). assert (Z.log2 vd < 32 * ud) by (apply Z.log2_lt_pow2; lia).
  assert (Z.log2 vd + k = 32 * ud - 1 /\ 0 <= k < 32 /\ 32 - (Z.log2 vd + 1) mod 32 = (if k =? 0 then 32 else k)) as (Hk & Hk32 & Hs).
  { subst k. set (L := Z.log2 vd) in *. clearbody L. clear Hc Hr Ht H0 Hl.
    destruct (Z.eqb_spec ((32 - (L + 1) mod 32) mod 32) 0); (split; [|split]); Z.div_mod_to_equations; lia. }
  split; [done|]. split; [done|]. rewrite <-Z.pow_add_r by lia. destruct (Z.log2_spec vd Hv) as [Hlo Hhi].
  assert (0 < 2 ^ k) by (apply Z.pow_pos_nonneg; lia). split.
  - replace (31 + 32 * (ud - 1)) with (Z.log2 vd + k) by lia. rewrite Z.pow_add_r by lia. nia.
  - replace (32 * ud) with (Z.succ (Z.log2 vd) + k) by lia. rewrite Z.pow_add_r by lia. nia.
Qed.

Lemma divisor_of nd D d : sp_is nd D d -> 0 < mp_used d -> 2 ^ 31 * pw (mp_used d - 1) <= D -> divisor nd D d.
Proof.
  intros Hd Hu HD. pose proof Hd as [[_ _ Hl Hok] Hud _ Hv]. split; [done|done|].
  rewrite <-Hv in HD. replace (mp_used d) with (mp_used d - 1 + 1) in HD at 2 by lia. rewrite val_succ in HD by lia.
  pose proof (val_range (mp_dp d) (mp_used d - 1) Hok ltac:(lia)). nia.
Qed.

Lemma div_normalize_is ns nd nsd va vd sa d sd (s := 32 - Z.land (sp_count_bits d) 31) : sp_is ns va sa -> sp_is nd vd d -> 0 < vd ->
  sp_box nsd sd -> mp_used sa < ns -> mp_used d < nsd ->
  calc e 0 (div_normalize sa d sd s) (fun '(err, sa', d') =>
    err = 0 /\ sp_is ns (va * 2 ^ (s mod 32)) sa' /\ exists nd', divisor nd' (vd * 2 ^ (s mod 32)) d' /\ mp_used d' = mp_used d).
Proof.
  intros Ha Hd Hv Hsd Hna Hnd. destruct (normal_shift _ _ _ Hd Hv) as (Hk & Hs & HD). fold s in Hk, Hs, HD. pose proof (sp_is_0 Hd) as H0.
  pose proof (si_used _ _ _ Hd). pose proof (si_used _ _ _ Ha). assert (mp_used d <> 0) by (intros E; apply H0 in E; lia).
  set (k := s mod 32) in *. clearbody k. unfold div_normalize. rewrite Hs. clear s Hs. destruct (Z.eqb_spec k 0) as [->|Hk0].
  { rewrite Z.eqb_refl. cbn [negb]. sp_steps. rewrite Z.pow_0_r, !Z.mul_1_r in *. split; [done|]. split; [done|].
    exists nd. split; [|done]. apply divisor_of; [done|lia|lia]. }
  rewrite (proj2 (Z.eqb_neq k 32)) by lia. cbn [negb].
  assert (Hlsh : forall n v x, sp_is n v x -> mp_used x < n -> calc e 0 (sp_lshb x k) (fun '(err, x') => err = 0 /\ sp_is n (v * 2 ^ k) x')).
  { intros n v x Hx Hn. eapply calc_mono; [apply (sp_lshb_is e n v); [done|lia]|]. intros [err x'].
    rewrite Z.div_small, Z.mod_small, (proj2 (Z.eqb_neq k 0)) by lia. cbn [negb Z.b2z]. rewrite (proj2 (Z.ltb_ge n _)) by lia. by rewrite andb_false_r. }
  eapply calc_bind; [by apply (Hlsh ns va)|]. intros [err sa'] [-> Ha']. eval_tests.
  eapply calc_bind; [apply (Hlsh nsd vd); [apply (sp_copy_is _ nd); [done|done|lia]|]|].
  { rewrite (proj1 (proj2 (sp_copy_raw nsd nd vd d sd (sp_is_raw _ _ _ Hd) Hsd ltac:(lia)))). lia. }
  intros [err d'] [-> Hd']. sp_steps. split; [done|]. split; [done|]. exists nsd.
  assert (mp_used d' = mp_used d) as Eu.
  { apply Z.le_antisymm; [by apply (sp_is_used Hd'); [lia|apply HD]|]. pose proof (sp_is_range Hd') as Hr'. pose proof (si_used _ _ _ Hd').
    destruct (Z_le_gt_dec (mp_used d) (mp_used d')) as [|Hgt]; [done|]. pose proof (pw_le (mp_used d') (mp_used d - 1) ltac:(lia)).
    pose proof (pw_pos (mp_used d - 1) ltac:(lia)). lia. }
  split; [|done]. apply divisor_of; [done|lia|]. rewrite Eu. apply HD.
Qed.

(** ** The division *)

(** A result asked for, or not. *)
Definition asked (P : mp_int -> Prop) (r r' : option mp_int) : Prop :=
  match r, r' with Some _, Some x => P x | None, None => True | _, _ => False end.

Definition room (n k : Z) (r : option mp_int) : Prop :=
  match r with Some x => sp_box n x /\ k <= n | None => True end.

Lemma asked_map (P : mp_int -> Prop) (f : mp_int -> mp_int) r : (forall x, r = Some x -> P (f x)) -> asked P r (f <$> r).
Proof. destruct r; cbn; auto. Qed.

Lemma fresh_box used n : 1 <= n <= used -> used <= SP_INT_DIGITS -> sp_box n (_sp_init_size (new_sp_int used) n).
Proof.
  change SP_INT_DIGITS with 35. intros Hn Hu. pose proof (len_zeros used ltac:(lia)) as Hl. split; [cbn; by rewrite w16_id by lia|change SP_INT_DIGITS with 35; lia| |].
  - change (n <= len ((zeros used).[0 := 0])). rewrite len_poke. lia.
  - change (digits_ok ((zeros used).[0 := 0])). apply digits_ok_poke; [apply digits_ok_zeros|lia].
Qed.

Lemma div_remainder_is ns nm v sa rem s k (in_rem : bool) : 0 <= k < 32 -> s = (if k =? 0 then 32 else k) ->
  sp_raw ns (v * 2 ^ k) sa -> room nm (mp_used sa) rem -> (in_rem = true -> ns = nm) ->
  calc e 0 (match rem with
            | Some m =>
              '(_, sa) ← (if negb (s =? 32) then sp_rshb sa s sa else mret (0, sa));
              mret (Some (sp_clamp (if in_rem then sa else _sp_copy sa m)), sa)
            | None => mret (None, sa)
            end) (fun '(rem', _) => asked (sp_is nm v) rem rem').
Proof.
  intros Hk -> Hsa Hm Hin. destruct rem as [m|]; [|by sp_steps]. destruct Hm as [Hm Hle]. pose proof (sw_used _ _ _ Hsa) as Hu.
  assert (0 < 2 ^ k) by (apply Z.pow_pos_nonneg; lia).
  apply (calc_bind e 0 _ _ (fun '(_, sa') => sp_raw ns v sa' /\ mp_used sa' <= mp_used sa)).
  - destruct (Z.eqb_spec k 0) as [->|Hk0].
    + rewrite Z.eqb_refl. cbn [negb]. sp_steps. by rewrite Z.mul_1_r in Hsa.
    + rewrite (proj2 (Z.eqb_neq k 32)) by lia. cbn [negb]. eapply calc_mono; [apply (sp_rshb_raw e ns ns _ sa sa k Hsa); [by destruct Hsa|lia|]|].
      { rewrite Z.div_small by lia. lia. }
      intros [err sa'] (_ & Hsa' & Hu' & _). by rewrite Z.div_mul in Hsa' by lia.
  - intros [err sa'] [Hsa' Hu']. sp_steps. cbn. destruct in_rem.
    + destruct (Hin eq_refl). destruct Hsa' as [? ? <-]. by apply sp_clamp_is.
    + destruct (sp_copy_raw nm ns v sa' m Hsa' Hm ltac:(lia)) as ([? ? Hv'] & _). rewrite <-Hv'. by apply sp_clamp_is.
Qed.

(** The long case, from the dividend copied and the buffers set up. *)
Lemma div_long_is na ns nd nsd ntr nt nm nq va vd a sa d sd tr trial r rem (in_rem in_r : bool) (s := 32 - Z.land (sp_count_bits d) 31) :
  sp_is ns va sa -> sp_is nd vd d -> 0 < vd -> vd <= va -> sp_is na va a -> mp_used a < ns ->
  sp_box nsd sd -> mp_used d < nsd -> sp_box ntr tr -> mp_used a - mp_used d + 2 <= ntr -> sp_box nt trial -> mp_used d < nt ->
  room nq 1 r -> (in_r = true -> ntr = nq) -> (in_r = false -> r <> None -> mp_used a - mp_used d + 2 <= nq) ->
  room nm (mp_used d) rem -> (in_rem = true -> ns = nm) ->
  calc e 1
    ('(err, sa, d) ← div_normalize sa d sd s;
     if (err =? 0) && (0 <? mp_used d) then
       '(err, sa, tr) ← _sp_div_impl sa d tr trial;
       '(rem, sa) ← match rem with
                    | Some m =>
                      '(_, sa) ← (if negb (s =? 32) then sp_rshb sa s sa else mret (0, sa));
                      mret (Some (sp_clamp (if in_rem then sa else _sp_copy sa m)), sa)
                    | None => mret (None, sa)
                    end;
       let r := (fun r => sp_clamp (if in_r then tr else _sp_copy tr r)) <$> r in
       _ ← XFREE true;
       mret (err, r, rem)
     else
       _ ← XFREE true;
       mret (err, (fun r => if in_r then tr else r) <$> r, (fun m => if in_rem then sa else m) <$> rem))
    (fun '(err, r', rem') => err = 0 /\ asked (sp_is nq (va / vd)) r r' /\ asked (sp_is nm (va mod vd)) rem rem').
Proof.
  intros Hsa Hd Hv Hle Ha Hna Hsd Hnsd Htr Hntr Ht Hnt Hr Hin Hnq Hm Hinm.
  destruct (normal_shift _ _ _ Hd Hv) as (Hk & Hs & _). fold s in Hk, Hs. pose proof (sp_is_same_used _ _ _ _ _ Ha Hsa) as Eu.
  eapply calc_bind; [apply (div_normalize_is ns nd nsd va vd); [done|done|done|done|lia|lia]|].
  fold s. set (k := s mod 32) in *. clearbody k s. subst s. intros [[err sa'] d'] (-> & Hsa' & nd' & Hd' & Eud).
  assert (0 < 2 ^ k) by (apply Z.pow_pos_nonneg; lia). pose proof (dv_used _ _ _ Hd') as Hud. rewrite (proj2 (Z.ltb_lt 0 _)) by lia.
  cbn [andb Z.eqb]. pose proof (si_used _ _ _ Hsa). pose proof (sb_n _ _ Htr) as Hn35.
  assert (mp_used d <= mp_used sa' <= mp_used a + 1).
  { split.
    - rewrite <-Eud. pose proof (sp_is_range Hsa'). pose proof (si_used _ _ _ Hsa'). pose proof (sp_is_top (dv_is _ _ _ Hd') ltac:(lia)).
      destruct (Z_le_gt_dec (mp_used d') (mp_used sa')) as [|Hgt]; [done|]. pose proof (pw_le (mp_used sa') (mp_used d' - 1) ltac:(lia)). nia.
    - apply (sp_is_used Hsa'); [lia|]. rewrite pw_succ by lia. pose proof (sp_is_range Ha). pose proof (Z.pow_lt_mono_r 2 k 32 ltac:(lia) ltac:(lia) ltac:(lia)). nia. }
  eapply calc_bind; [apply (_sp_div_impl_is nd' _ d' Hd' ns ntr nt _ sa' tr trial (sp_is_raw _ _ _ Hsa')); [lia|done|lia|done|lia]|].
  intros [[err sa''] tr'] (-> & Hsa'' & Eus & Htr' & Eur). rewrite Z.mul_mod_distr_r, Z.div_mul_cancel_r in * by lia.
  eapply calc_bind; [eapply (div_remainder_is ns nm (va mod vd) sa'' rem _ k in_rem Hk eq_refl Hsa''); [by rewrite Eus, Eud|done]|].
  intros [rem' sa3] Hrem. calc_step. calc_step. split; [done|]. split; [|done]. apply asked_map. intros x ->. destruct in_r.
  - destruct (Hin eq_refl). destruct Htr' as [? ? <-]. by apply sp_clamp_is.
  - destruct Hr as [Hr _]. specialize (Hnq eq_refl ltac:(done)).
    destruct (sp_copy_raw nq ntr _ tr' x Htr' Hr ltac:(lia)) as ([? ? Hv'] & _). rewrite <-Hv'. by apply sp_clamp_is.
Qed.

Section Exact.
Context (na nd nq nm va vd : Z) (a d : mp_int) (r rem : option mp_int).
Hypothesis Ha : sp_is na va a.
Hypothesis Hd : sp_is nd vd d.
Hypothesis Hv : 0 < vd.
Hypothesis Hna : mp_used a < SP_INT_DIGITS.
Hypothesis Hr : room nq (mp_used a - mp_used d + 2) r.
Hypothesis Hm : room nm (Z.min (mp_used a) (mp_used d) + 1) rem.

Definition divided (err : Z) (r' rem' : option mp_int) : Prop :=
  (err = 0 /\ asked (sp_is nq (va / vd)) r r' /\ asked (sp_is nm (va mod vd)) rem rem') \/ (err = MP_MEM /\ oom e).

(** The long case, with the buffers chosen. *)
Lemma div_buffers_is (rem_is_d r_is_d : bool) (used := mp_used a + 1)
    (in_rem := match rem with Some m => negb rem_is_d && (mp_used a <? mp_size m) | None => false end)
    (in_r := match r with Some _ => negb r_is_d | None => false end) (fresh := new_sp_int used) : vd < va -> mp_used d <= mp_used a ->
  calc e 0
    ('(err, tdd) ← ALLOC_SP_INT used 0;
     if negb (err =? 0) then _ ← XFREE tdd; mret (err, r, rem)
     else
      let sa := if in_rem then default fresh rem else _sp_init_size fresh used in
      let tr := if in_r then default fresh r else _sp_init_size fresh (mp_used a - mp_used d + 2) in
      let sd := _sp_init_size fresh (mp_used d + 1) in
      let trial := _sp_init_size fresh used in
      let s := 32 - Z.land (sp_count_bits d) 31 in
      let sa := _sp_copy a sa in
      '(err, sa, d) ← div_normalize sa d sd s;
      if (err =? 0) && (0 <? mp_used d) then
        '(err, sa, tr) ← _sp_div_impl sa d tr trial;
        '(rem, sa) ← match rem with
                     | Some m =>
                       '(_, sa) ← (if negb (s =? 32) then sp_rshb sa s sa else mret (0, sa));
                       mret (Some (sp_clamp (if in_rem then sa else _sp_copy sa m)), sa)
                     | None => mret (None, sa)
                     end;
        let r := (fun r => sp_clamp (if in_r then tr else _sp_copy tr r)) <$> r in
        _ ← XFREE tdd;
        mret (err, r, rem)
      else
        _ ← XFREE tdd;
        mret (err, (fun r => if in_r then tr else r) <$> r, (fun m => if in_rem then sa else m) <$> rem))
    (fun '(err, r', rem') => divided err r' rem').
Proof.
  intros Hgt Hle. pose proof (si_used _ _ _ Ha) as Hua. pose proof (si_used _ _ _ Hd) as Hud.
  assert (mp_used d <> 0) as Hd0 by (intros E; apply (sp_is_0 Hd) in E; lia). rewrite Z.min_r in Hm by lia.
  assert (Hu35 : used <= SP_INT_DIGITS) by (unfold used; lia). unfold ALLOC_SP_INT. rewrite (proj2 (Z.ltb_ge SP_INT_DIGITS used)) by done.
  cbn [Z.eqb andb]. calc_step. calc_step; cbn [negb]; cycle 1.
  { calc_step. cbv beta iota. change (negb (MP_MEM =? 0)) with true. cbv iota. calc_step. calc_step. by right. }
  calc_step. cbn [Z.eqb negb]. cbv beta iota zeta. set (sa := if in_rem then _ else _). set (tr := if in_r then _ else _).
  assert (exists ns, sp_box ns sa /\ mp_used a < ns /\ (in_rem = true -> ns = nm)) as (ns & Hsa & Hns & Hin).
  { unfold sa. destruct in_rem eqn:E.
    - exists nm. unfold in_rem in E. destruct rem as [m|]; [|done]. destruct Hm as [Hb Hn]. rewrite (sb_size _ _ Hb) in E.
      apply andb_prop in E as [_ E]. apply Z.ltb_lt in E. done.
    - exists used. split; [apply fresh_box; [lia|done]|]. split; [lia|done]. }
  assert (exists ntr, sp_box ntr tr /\ mp_used a - mp_used d + 2 <= ntr /\ (in_r = true -> ntr = nq)) as (ntr & Htr & Hntr & Hir).
  { unfold tr. destruct in_r eqn:E.
    - exists nq. unfold in_r in E. destruct r as [q|]; [|done]. destruct Hr as [Hb Hn]. done.
    - exists (mp_used a - mp_used d + 2). split; [apply fresh_box; lia|]. split; [lia|done]. }
  eapply calc_mono; [eapply (div_long_is na ns nd (mp_used d + 1) ntr used nm nq va vd a)|].
  all: try done; try lia.
  - by apply (sp_copy_is _ na); [done|done|lia].
  - apply fresh_box; lia.
  - apply fresh_box; lia.
  - destruct r as [q|]; [|done]. destruct Hr. split; [done|lia].
  - intros _ Hnn. destruct r as [q|]; [|done]. by destruct Hr.
  - destruct rem as [m|]; [|done]. destruct Hm. split; [done|lia].
  - intros [[err r'] rem'] HQ. by left.
Qed.

Lemma _sp_div_is rem_is_d r_is_d :
  calc e 0 (_sp_div a d r rem (mp_used a + 1) rem_is_d r_is_d) (fun '(err, r', rem') => divided err r' rem').
Proof.
  pose proof (sp_is_num _ _ _ Ha) as Hia. pose proof (sp_is_num _ _ _ Hd) as Hid.
  unfold _sp_div, divided. rewrite sp_cmp_abs_num, (sp_is_sp_val _ _ _ Ha), (sp_is_sp_val _ _ _ Hd) by done.
  pose proof (sp_is_range Ha) as Hra. pose proof (sp_is_range Hd) as Hrd. pose proof (si_used _ _ _ Ha) as Hua. pose proof (si_used _ _ _ Hd) as Hud.
  assert (mp_used d <> 0) as Hd0 by (intros E; apply (sp_is_0 Hd) in E; lia).
  assert (Hset : forall q, 0 <= q <= 1 -> va / vd = q -> asked (sp_is nq (va / vd)) r ((fun x => _sp_set x q) <$> r)).
  { intros q Hq ->. apply asked_map. intros x E. rewrite E in Hr. apply sp_set_is; [apply Hr|lia]. }
  assert (Z.sgn (va - vd) = -1 /\ va < vd \/ Z.sgn (va - vd) = 0 /\ va = vd \/ Z.sgn (va - vd) = 1 /\ vd < va) as [[-> Hlt]|[[-> E]|[-> Hgt]]] by lia;
    [change (-1 =? -1) with true|change (0 =? -1) with false; change (0 =? 0) with true|change (1 =? -1) with false; change (1 =? 0) with false]; cbv iota.
  - sp_steps. left. split; [done|]. split; [apply Hset; [lia|apply Z.div_small; lia]|]. rewrite Z.mod_small by lia.
    apply asked_map. intros x E. rewrite E in Hm. destruct Hm as [Hb Hn]. apply (sp_copy_is _ na); [done|done|].
    pose proof (sp_is_used Ha (mp_used d) ltac:(lia) ltac:(lia)). lia.
  - sp_steps. left. split; [done|]. split; [apply Hset; [lia|rewrite E; apply Z.div_same; lia]|]. rewrite E, Z.mod_same by lia.
    apply asked_map. intros x Ex. rewrite Ex in Hm. apply sp_set_is; [apply Hm|lia].
  - assert (mp_used d <= mp_used a) as Hle.
    { apply (sp_is_used Hd); lia. }
    destruct (Z.eqb_spec (sp_count_bits a) (sp_count_bits d)) as [Ec|_].
    + assert (va < 2 * vd) as H2.
      { rewrite !sp_count_bits_num, (sp_is_sp_val _ _ _ Ha), (sp_is_sp_val _ _ _ Hd), !(proj2 (Z.eqb_neq _ _)) in Ec by (lia || done).
        pose proof (Z.log2_spec va ltac:(lia)). pose proof (Z.log2_spec vd ltac:(lia)). replace (Z.log2 va) with (Z.log2 vd) in * by lia.
        rewrite Z.pow_succ_r in * by apply Z.log2_nonneg. lia. }
      assert (mp_used a <= mp_used d) as Hge.
      { pose proof (sp_count_bits_used _ _ _ Hd) as Hcd. rewrite <-Ec, sp_count_bits_num, (sp_is_sp_val _ _ _ Ha), (proj2 (Z.eqb_neq _ _)) in Hcd by (lia || done).
        assert (32 * (mp_used a - 1) <= Z.log2 va); [|lia]. apply Z.log2_le_pow2; [lia|]. apply (sp_is_top Ha). lia. }
      assert (Hq : va / vd = 1) by (symmetry; apply (Z.div_unique _ _ _ (va - vd)); lia).
      assert (Hmod : va mod vd = va - vd) by (symmetry; apply (Z.mod_unique _ _ 1); lia).
      apply (calc_bind e 0 _ _ (asked (sp_is nm (va mod vd)) rem)).
      * destruct rem as [m|]; [|by sp_steps]. destruct Hm as [Hb Hn]. rewrite Z.min_r in Hn by lia. eapply calc_bind; [apply (_sp_sub_off_is e na nd nm va vd); [done|done|done|lia|lia|]|].
        { rewrite pw_0. lia. }
        rewrite pw_0, Z.mul_1_l. intros m' Hm'. sp_steps. cbn. by rewrite Hmod.
      * intros rem' Hrem. sp_steps. left. split; [done|]. split; [apply Hset; lia|done].
    + by apply div_buffers_is.
Qed.

Lemma sp_div_is rem_is_d r_is_d : is_null r && is_null rem = false ->
  calc e 0 (sp_div a d r rem rem_is_d r_is_d) (fun '(err, r', rem') => divided err r' rem').
Proof.
  intros Hn. pose proof (si_used _ _ _ Ha) as Hua. pose proof (si_used _ _ _ Hd) as Hud. pose proof Hna as Hna35. change SP_INT_DIGITS with 35 in Hna35.
  assert (mp_used d <> 0) as Hd0 by (intros E; apply (sp_is_0 Hd) in E; lia). unfold sp_div. rewrite Hn, (proj2 (Z.eqb_neq _ _)) by done.
  replace (match r with Some r => mp_size r + mp_used d <? mp_used a + 2 | None => false end) with false; cycle 1.
  { destruct r as [q|]; [|done]. destruct Hr as [Hb Hq]. rewrite (sb_size _ _ Hb). symmetry. apply Z.ltb_ge. lia. }
  replace (match rem with Some m => if mp_used a <=? mp_used d then mp_size m <? mp_used a + 1 else mp_size m <? mp_used d + 1 | None => false end) with false; cycle 1.
  { destruct rem as [m|]; [|done]. destruct Hm as [Hb Hq]. rewrite (sb_size _ _ Hb). destruct (Z.leb_spec (mp_used a) (mp_used d)); symmetry; apply Z.ltb_ge; lia. }
  unfold div_used. rewrite (proj2 (Z.eqb_neq _ _)), w16_id by lia. cbn [Z.eqb]. apply _sp_div_is.
Qed.
End Exact.

Lemma sp_mod_is na nm n va vm a m r r_is_m : sp_is na va a -> sp_is nm vm m -> 0 < vm -> sp_box n r ->
  mp_used a < SP_INT_DIGITS -> Z.min (mp_used a) (mp_used m) < n ->
  calc e 0 (sp_mod a m r r_is_m) (fun '(err, r') => (err = 0 /\ sp_is n (va mod vm) r') \/ (err = MP_MEM /\ oom e)).
Proof.
  intros Ha Hm Hv Hr Hna Hn. unfold sp_mod. rewrite (proj2 (Z.leb_gt _ _)) by done.
  eapply calc_bind; [apply (sp_div_is na nm n n va vm a m None (Some r) Ha Hm Hv Hna); [done|split; [done|lia]|done]|].
  intros [[err q] rem'] [(-> & _ & Hrem)|(-> & Ho)]; sp_steps; [left|by right]. split; [done|]. by destruct rem'.
Qed.
End Div.

(** C26. Division.  For a dividend of fewer than 35 digits, a divisor and results with
    room for the quotient and the remainder, [sp_div] stays inside its objects, ends,
    frees what it took from the heap, and answers MP_VAL for the divisor zero and
    otherwise the quotient and the remainder of the integers in whichever results were
    asked for, or MP_MEM where memory may run out. *)
Theorem sp_division_exact e na nd nq nm va vd a d r rem rem_is_d r_is_d :
  sp_is na va a -> sp_is nd vd d -> mp_used a < SP_INT_DIGITS ->
  room nq (mp_used a - mp_used d + 2) r -> room nm (Z.min (mp_used a) (mp_used d) + 1) rem -> is_null r && is_null rem = false ->
  calc e 0 (sp_div a d r rem rem_is_d r_is_d) (fun '(err, r', rem') =>
    if vd =? 0 then err = MP_VAL /\ r' = r /\ rem' = rem
    else (err = 0 /\ asked (sp_is nq (va / vd)) r r' /\ asked (sp_is nm (va mod vd)) rem rem') \/ (err = MP_MEM /\ oom e)).
Proof.
  intros Ha Hd Hu Hr Hm Hn. pose proof (sp_is_range Hd). destruct (Z.eqb_spec vd 0) as [->|Hv].
  - unfold sp_div. rewrite Hn, (proj2 (sp_is_0 Hd)) by done. by sp_skip.
  - eapply calc_mono; [apply (sp_div_is e na nd nq nm va vd); [done|done|lia|done|done|done|done]|]. by intros [[err r'] rem'].
Qed.

Lemma sp_division_exact_witness :
  calc env_plenty 0 (sp_div (sp_lit 10 0x123456789abcdef0123456789abcdef0123456789) (sp_lit 5 0xfedcba987654321) (Some (sp_lit 10 0)) (Some (sp_lit 4 0)) false false)
    (fun '(err, r, rem) => err = 0 /\ asked (fun q => sp_val q = 0x1249249249249237feb1a1f58d) r r /\ asked (fun m => sp_val m = 0xf9a8369e7fd95c) rem rem).
Proof.
  eapply calc_mono.
  - apply (sp_division_exact env_plenty 10 5 10 4 0x123456789abcdef0123456789abcdef0123456789 0xfedcba987654321).
    1, 2: apply sp_lit_is; [done|split; [done|reflexivity]].
    + reflexivity.
    + split; [apply (sp_lit_is 10 0); done|vm_compute; discriminate].
    + split; [apply (sp_lit_is 4 0); done|vm_compute; discriminate].
    + reflexivity.
  - intros [[err r] rem] [(-> & Hq & Hm)|[_ [n Hn]]]; [|discriminate]. split; [done|].
    destruct r as [q|], rem as [m|]; try done. split; cbn in *.
    + rewrite (sp_is_sp_val _ _ _ Hq). reflexivity.
    + rewrite (sp_is_sp_val _ _ _ Hm). reflexivity.
Defined.

