(* ===== verification/SpMod.v ===== *)
(** * SpMod: arithmetic modulo a number of sp_int.c

    Addition, subtraction, multiplication, squaring and inversion, composed from the
    operations of the files before.  [modular e n v err r] is the outcome of such an
    operation: the value [v] in a result of [n] digits, or MP_MEM where memory may run
    out.  The inverse is found by the binary extended Euclidean algorithm; the fuel of
    its loop comes from the lengths of the two numbers and is shown to be enough. *)

From Stdlib Require Import Znumtheory.
From S2P Require Import Prelude Platform Types Misc SpInt SpArith SpShift SpMul SpDiv.

(** ** Sums and products *)

(** sp_int.c:7996-8019, [_sp_addmod]; [r_is_m] says that the result goes to the modulus. *)
Definition _sp_addmod (a b m r : mp_int) (r_is_m : bool) : M (Z * mp_int) :=
  let used := w16 (if mp_used b <=? mp_used a then mp_used a + 1 else mp_used b + 1) in
  '(err, blk) ← ALLOC_SP_INT used 0;
  '(err, t) ← (if err =? 0 then sp_add a b (new_sp_int used) else mret (err, r));
  '(err, r) ← (if err =? 0 then sp_mod t m r r_is_m else mret (err, r));
  _ ← XFREE blk;
  mret (err, r).

(** sp_int.c:8032-8067, [sp_addmod] *)
Definition sp_addmod (a b m r : mp_int) (r_is_m : bool) : M (Z * mp_int) :=
  if SP_INT_DIGITS <=? mp_used a then mret (MP_VAL, r)
  else if SP_INT_DIGITS <=? mp_used b then mret (MP_VAL, r)
  else _sp_addmod a b m r r_is_m.

(** sp_int.c:8084-8143, [_sp_submod] *)
Definition _sp_submod (a b m r : mp_int) : M (Z * mp_int) :=
  let used := if mp_used m <=? mp_used a then (if mp_used b <=? mp_used a then mp_used a + 1 else mp_used b + 1)
              else if mp_used m <=? mp_used b then mp_used b + 1 else mp_used m + 1 in
  '(err, blk0) ← ALLOC_SP_INT used 0;
  '(err, blk1) ← ALLOC_SP_INT used err;
  '(err, t0, a) ← (if (err =? 0) && negb (_sp_cmp a m =? -1)
                   then '(err, t0) ← sp_mod a m (new_sp_int used) false; mret (err, t0, t0) else mret (err, new_sp_int used, a));
  '(err, b) ← (if (err =? 0) && negb (_sp_cmp b m =? -1) then sp_mod b m (new_sp_int used) false else mret (err, b));
  '(err, a) ← (if (err =? 0) && (_sp_cmp a b =? -1) then sp_add a m t0 else mret (err, a));
  '(err, r) ← (if err =? 0 then sp_sub a b r else mret (err, r));
  _ ← XFREE blk0;
  _ ← XFREE blk1;
  mret (err, r).

(** sp_int.c:8157-8193, [sp_submod] *)
Definition sp_submod (a b m r : mp_int) : M (Z * mp_int) :=
  if SP_INT_DIGITS <=? mp_used a then mret (MP_VAL, r)
  else if SP_INT_DIGITS <=? mp_used b then mret (MP_VAL, r)
  else if SP_INT_DIGITS <=? mp_used m then mret (MP_VAL, r)
  else _sp_submod a b m r.

(** sp_int.c:12326-12364, [_sp_mulmod_tmp]: the product in an object of its own. *)
Definition _sp_mulmod_tmp (a b m r : mp_int) (r_is_m : bool) : M (Z * mp_int) :=
  if (mp_used a =? 0) || (mp_used b =? 0) then
    if mp_used m =? 0 then mret (MP_VAL, r) else mret (0, _sp_zero r)
  else
    let used := mp_used a + mp_used b in
    '(err, blk) ← ALLOC_SP_INT used 0;
    let '(err, t) := if err =? 0 then sp_init_size (new_sp_int used) (w16 used) else (err, r) in
    '(err, t) ← (if err =? 0 then sp_mul a b t else mret (err, t));
    '(err, r) ← (if err =? 0 then sp_mod t m r r_is_m else mret (err, r));
    _ ← XFREE blk;
    mret (err, r).

(** sp_int.c:12377-12398, [_sp_mulmod] *)
Definition _sp_mulmod (a b m r : mp_int) (r_is_m : bool) : M (Z * mp_int) :=
  if negb r_is_m then '(err, r) ← sp_mul a b r; if err =? 0 then sp_mod r m r false else mret (err, r)
  else _sp_mulmod_tmp a b m r r_is_m.

(** sp_int.c:12412-12444, [sp_mulmod] *)
Definition sp_mulmod (a b m r : mp_int) (r_is_m : bool) : M (Z * mp_int) :=
  if negb r_is_m && (mp_size r <? mp_used a + mp_used b) then mret (MP_VAL, r) else _sp_mulmod a b m r r_is_m.

(** sp_int.c:17545-17582, [_sp_sqrmod] *)
Definition _sp_sqrmod (a m r : mp_int) (r_is_m : bool) : M (Z * mp_int) :=
  if mp_used a =? 0 then
    if mp_used m =? 0 then mret (MP_VAL, r) else mret (0, _sp_zero r)
  else
    let used := mp_used a * 2 in
    '(err, blk) ← ALLOC_SP_INT used 0;
    let '(err, t) := if err =? 0 then sp_init_size (new_sp_int used) used else (err, r) in
    '(err, t) ← (if err =? 0 then sp_sqr a t else mret (err, t));
    '(err, r) ← (if err =? 0 then sp_mod t m r r_is_m else mret (err, r));
    _ ← XFREE blk;
    mret (err, r).

(** sp_int.c:17595-17628, [sp_sqrmod] *)
Definition sp_sqrmod (a m r : mp_int) (r_is_m : bool) : M (Z * mp_int) :=
  if negb r_is_m && (mp_size r <? mp_used a * 2) then mret (MP_VAL, r)
  else if r_is_m && (SP_INT_DIGITS <? mp_used a * 2) then mret (MP_VAL, r)
  else if negb r_is_m then '(err, r) ← sp_sqr a r; if err =? 0 then sp_mod r m r false else mret (err, r)
  else _sp_sqrmod a m r r_is_m.

(** ** The inverse *)

(** sp_int.h:648-648, [sp_isodd] *)
Definition sp_isodd (a : mp_int) : M bool :=
  if mp_used a =? 0 then mret false else x ← peek (mp_dp a) 0; mret (negb (Z.land x 1 =? 0)).

(** sp_int.h:657-657, [sp_iseven] *)
Definition sp_iseven (a : mp_int) : M bool :=
  if mp_used a =? 0 then mret false else x ← peek (mp_dp a) 0; mret (Z.land x 1 =? 0).

(** sp_int.h:677-677, [sp_isone] *)
Definition sp_isone (a : mp_int) : M bool :=
  if mp_used a =? 1 then x ← peek (mp_dp a) 0; mret (x =? 1) else mret false.

(** sp_int.c:12498-12501, [_sp_invmod_bin]: half of [x] modulo an odd [m]. *)
Definition half_mod (x m : mp_int) : M mp_int :=
  odd ← sp_isodd x;
  x ← (if odd : bool then _sp_add_off x m x else mret x);
  _sp_div_2 x x.

(** sp_int.c:12518-12521, [_sp_invmod_bin]: [x - y] modulo [m]. *)
Definition diff_mod (x y m : mp_int) : M mp_int :=
  x ← (if _sp_cmp_abs x y =? -1 then _sp_add_off x m x else mret x);
  _sp_sub_off x y x 0.

(** sp_int.c:12494-12532, [_sp_invmod_bin]: the body of the loop. *)
Definition invmod_step (m : mp_int) (s : mp_int * mp_int * mp_int * mp_int) : M (mp_int * mp_int * mp_int * mp_int) :=
  let '(u, v, b, c) := s in
  u0 ← peek (mp_dp u) 0;
  if Z.land u0 1 =? 0 then
    u ← _sp_div_2 u u; b ← half_mod b m; mret (u, v, b, c)
  else
    v0 ← peek (mp_dp v) 0;
    if Z.land v0 1 =? 0 then
      v ← _sp_div_2 v v; c ← half_mod c m; mret (u, v, b, c)
    else if negb (_sp_cmp_abs u v =? -1) then
      u ← _sp_sub_off u v u 0; b ← diff_mod b c m; mret (u, v, b, c)
    else
      v ← _sp_sub_off v u v 0; c ← diff_mod c b m; mret (u, v, b, c).

(** sp_int.c:12492-12533, [_sp_invmod_bin]: the loop. *)
Fixpoint invmod_loop (n : nat) (m : mp_int) (s : mp_int * mp_int * mp_int * mp_int) : M (mp_int * mp_int * mp_int * mp_int) :=
  let '(u, v, b, c) := s in
  one ← sp_isone v;
  if negb one && negb (mp_used u =? 0) then
    match n with
    | O => out_of_fuel
    | S n => s ← invmod_step m s; invmod_loop n m s
    end
  else mret s.

(** sp_int.c:12478-12540, [_sp_invmod_bin]; [a_is_v] says that [a] is in [v] already. *)
Definition _sp_invmod_bin (a m u v b c : mp_int) (a_is_v : bool) : M (Z * mp_int) :=
  let u := _sp_copy m u in
  let v := if negb a_is_v then _sp_copy a v else v in
  let b := _sp_zero b in
  let c := _sp_set c 1 in
  let fuel := Z.to_nat (2 * (sp_count_bits u + sp_count_bits v) + 1) in
  '(u, v, b, c) ← invmod_loop fuel m (u, v, b, c);
  mret (if mp_used u =? 0 then MP_VAL else 0, c).

(** sp_int.c:12740-12751, [_sp_invmod] *)
Definition init_if (err : Z) (a : mp_int) (size : Z) : Z * mp_int :=
  if err =? 0 then sp_init_size a size else (err, a).

(** sp_int.c:12717-12808, [_sp_invmod]; modulo an even [m] the inverse of [m] modulo [a]
    gives it. *)
Definition _sp_invmod (a m r : mp_int) : M (Z * mp_int) :=
  let n := mp_used m + 1 in
  let n2 := 2 * mp_used m + 1 in
  '(err, td) ← ALLOC_SP_INT n 0;
  '(err, blk) ← ALLOC_SP_INT n2 err;
  let '(err, u) := init_if err (new_sp_int n) (w16 n) in
  let '(err, v) := init_if err (new_sp_int n) (w16 n) in
  let '(err, b) := init_if err (new_sp_int n) (w16 n) in
  let '(err, c) := init_if err (new_sp_int n2) (w16 n2) in
  '(err, r) ← (if err =? 0 then
      even ← sp_iseven m;
      if even : bool then
        let u := _sp_copy a u in
        '(err, v) ← sp_mod m a v false;
        let err := if (err =? 0) && (mp_used v =? 0) then MP_VAL else err in
        '(err, c) ← (if err =? 0 then _sp_invmod_bin v a u v b c true else mret (err, c));
        '(err, c) ← (if err =? 0 then sp_mul c m c else mret (err, c));
        '(err, c) ← (if err =? 0 then
            c ← _sp_sub_d c 1 c;
            '(err, q, _) ← sp_div c a (Some c) None false false;
            mret (err, default c q) else mret (err, c));
        if err =? 0 then sp_sub m c r else mret (err, r)
      else
        '(err, c) ← _sp_invmod_bin a m u v b c false;
        mret (err, if err =? 0 then _sp_copy c r else r)
    else mret (err, r));
  _ ← XFREE blk;
  _ ← XFREE td;
  mret (err, r).

(** sp_int.c:12824-12876, [sp_invmod]; [r_is_m] says that the result is to go to the
    modulus. *)
Definition sp_invmod (a m r : mp_int) (r_is_m : bool) : M (Z * mp_int) :=
  if r_is_m then mret (MP_VAL, r)
  else if mp_size r <? mp_used m * 2 then mret (MP_VAL, r)
  else
    '(err, a, r) ← (if negb (_sp_cmp_abs a m =? -1) then '(err, r) ← sp_mod a m r false; mret (err, r, r) else mret (0, a, r));
    if negb (err =? 0) then mret (err, r)
    else if (mp_used a =? 0) || (mp_used m =? 0) then mret (MP_VAL, r)
    else
      ea ← sp_iseven a;
      em ← sp_iseven m;
      if ea && em : bool then mret (MP_VAL, r)
      else
        one ← sp_isone a;
        if one : bool then mret (0, _sp_set r 1) else _sp_invmod a m r.

(** ** What they compute *)

Section Mod.
Context (e : env).

Definition modular (n v err : Z) (r : mp_int) : Prop := (err = 0 /\ sp_is n v r) \/ (err = MP_MEM /\ oom e).

Lemma new_box n s : 1 <= n <= SP_INT_DIGITS -> s = n -> sp_box n (new_sp_int s).
Proof.
  intros Hn ->. change SP_INT_DIGITS with 35 in Hn. split; cbn; [by rewrite w16_id by lia|done|rewrite len_zeros; lia|apply digits_ok_zeros].
Qed.

Lemma sp_cmp_lt na nb va vb a b : sp_is na va a -> sp_is nb vb b -> (_sp_cmp_abs a b =? -1) = (va <? vb).
Proof.
  intros Ha Hb. rewrite sp_cmp_abs_num, (sp_is_sp_val _ _ _ Ha), (sp_is_sp_val _ _ _ Hb) by eauto using sp_is_num.
  destruct (Z.ltb_spec va vb); [apply Z.eqb_eq|apply Z.eqb_neq]; lia.
Qed.

Lemma sp_addmod_is na nb nm n va vb vm a b m r r_is_m : sp_is na va a -> sp_is nb vb b -> sp_is nm vm m -> sp_box n r ->
  mp_used a < SP_INT_DIGITS - 1 -> mp_used b < SP_INT_DIGITS - 1 -> 0 < vm -> mp_used m < n ->
  calc e 0 (sp_addmod a b m r r_is_m) (fun '(err, r') => modular n ((va + vb) mod vm) err r').
Proof.
  intros Ha Hb Hm Hr Hua Hub Hv Hn. pose proof (si_used _ _ _ Ha). pose proof (si_used _ _ _ Hb). unfold sp_addmod.
  rewrite !(proj2 (Z.leb_gt SP_INT_DIGITS _)) by lia. change SP_INT_DIGITS with 35 in *.
  unfold _sp_addmod. set (used := w16 _). assert (Eu : used = Z.max (mp_used a) (mp_used b) + 1).
  { unfold used. rewrite w16_id by (destruct (_ <=? _); lia). destruct (Z.leb_spec (mp_used b) (mp_used a)); lia. }
  clearbody used. apply calc_alloc; [change SP_INT_DIGITS with 35; lia| |intros Ho; sp_skip; by right]. cbn [Z.eqb].
  eapply calc_bind; [apply (sp_add_is e na nb used va vb); [done|done|apply new_box; [change SP_INT_DIGITS with 35; lia|done]]|].
  intros [err t] Ht. rewrite (proj2 (Z.leb_gt _ _)) in Ht by lia. destruct Ht as [-> Ht]. cbn [Z.eqb].
  eapply calc_bind; [apply (sp_mod_is e used nm n (va + vb) vm); [done|done|done|done| |lia]|].
  { pose proof (si_used _ _ _ Ht). change SP_INT_DIGITS with 35. lia. }
  intros [err r'] Hr'. by sp_skip.
Qed.

(** The modulus is reduced by where it is not reached already. *)
Lemma reduce_is na nm n va vm a m t : sp_is na va a -> sp_is nm vm m -> 0 < vm -> sp_box n t ->
  mp_used a < SP_INT_DIGITS -> mp_used a < n ->
  calc e 0 (if negb (_sp_cmp a m =? -1) then sp_mod a m t false else mret (0, a)) (fun '(err, a') =>
    (err = 0 /\ exists n', sp_is n' (va mod vm) a') \/ (err = MP_MEM /\ oom e)).
Proof.
  intros Ha Hm Hv Ht Hu Hn. unfold _sp_cmp. rewrite (sp_cmp_lt na nm va vm) by done. pose proof (sp_is_range Ha).
  destruct (Z.ltb_spec va vm); cbn [negb].
  - sp_steps. left. split; [done|]. exists na. by rewrite Z.mod_small by lia.
  - eapply calc_mono; [apply (sp_mod_is e na nm n va vm); [done|done|done|done|done|lia]|]. intros [err a'] [[-> ?]|?]; [left|by right]. eauto.
Qed.

Lemma reduce_keep na nm n va vm a m t : sp_is na va a -> sp_is nm vm m -> 0 < vm -> sp_box n t ->
  mp_used a < SP_INT_DIGITS -> mp_used a < n ->
  calc e 0 (if negb (_sp_cmp a m =? -1) then '(err, t) ← sp_mod a m t false; mret (err, t, t) else mret (0, t, a)) (fun '(err, t', a') =>
    (err = 0 /\ sp_box n t' /\ exists n', sp_is n' (va mod vm) a') \/ (err = MP_MEM /\ oom e)).
Proof.
  intros Ha Hm Hv Ht Hu Hn. unfold _sp_cmp. rewrite (sp_cmp_lt na nm va vm) by done. pose proof (sp_is_range Ha).
  destruct (Z.ltb_spec va vm); cbn [negb].
  - sp_steps. left. split; [done|]. split; [done|]. exists na. by rewrite Z.mod_small by lia.
  - eapply calc_bind; [apply (sp_mod_is e na nm n va vm); [done|done|done|done|done|lia]|].
    intros [err a'] [[-> Ha']|?]; sp_steps; [left|by right]. pose proof (si_box _ _ _ Ha'). eauto.
Qed.

Lemma sp_submod_is na nb nm n va vb vm a b m r : sp_is na va a -> sp_is nb vb b -> sp_is nm vm m -> sp_box n r ->
  mp_used a < SP_INT_DIGITS -> mp_used b < SP_INT_DIGITS -> mp_used m < SP_INT_DIGITS -> 0 < vm -> mp_used m < n ->
  calc e 0 (sp_submod a b m r) (fun '(err, r') => modular n ((va - vb) mod vm) err r').
Proof.
  intros Ha Hb Hm Hr Hua Hub Hum Hv Hn. pose proof (si_used _ _ _ Ha). pose proof (si_used _ _ _ Hb). pose proof (si_used _ _ _ Hm). unfold sp_submod.
  rewrite !(proj2 (Z.leb_gt SP_INT_DIGITS _)) by lia.
  unfold _sp_submod. set (used := if mp_used m <=? _ then _ else _). assert (Eu : used = Z.max (mp_used m) (Z.max (mp_used a) (mp_used b)) + 1).
  { unfold used. destruct (Z.leb_spec (mp_used m) (mp_used a)), (Z.leb_spec (mp_used b) (mp_used a)), (Z.leb_spec (mp_used m) (mp_used b)); lia. }
  clearbody used. assert (Hnew : sp_box used (new_sp_int used)) by (apply new_box; [lia|done]).
  apply calc_alloc; [lia| |intros Ho; apply calc_alloc_failed; [done|]; sp_skip; by right].
  apply calc_alloc; [lia| |intros Ho; sp_skip; by right]. cbn [Z.eqb andb].
  eapply calc_bind; [apply (reduce_keep na nm used va vm); [done|done|done|done|done|lia]|].
  intros [[err t0] a'] [(-> & Ht0 & na' & Ha')|[-> Ho]]; [|sp_skip; by right]. cbn [Z.eqb andb].
  eapply calc_bind; [apply (reduce_is nb nm used vb vm); [done|done|done|done|done|lia]|].
  intros [err b'] [(-> & nb' & Hb')|[-> Ho]]; [|sp_skip; by right]. cbn [Z.eqb andb].
  pose proof (Z.mod_pos_bound va vm Hv). pose proof (Z.mod_pos_bound vb vm Hv). pose proof (sp_is_range Hm).
  assert (mp_used a' <= mp_used m) by (apply (sp_is_used Ha'); lia).
  eapply (calc_bind e _ _ _ (fun '(err, x) => err = 0 /\ exists k vx, sp_is k vx x /\ mp_used x <= mp_used m + 1 /\ vb mod vm <= vx /\ vx - vb mod vm = (va - vb) mod vm)).
  { unfold _sp_cmp. rewrite (sp_cmp_lt na' nb' (va mod vm) (vb mod vm)) by done. destruct (Z.ltb_spec (va mod vm) (vb mod vm)).
    - eapply calc_mono; [apply (sp_add_is e na' nm used (va mod vm) vm); done|]. intros [err x] Hx. rewrite (proj2 (Z.leb_gt _ _)) in Hx by lia.
      destruct Hx as [-> Hx]. split; [done|]. exists used, (va mod vm + vm). split; [done|]. split; [|split; [lia|]].
      + apply (sp_is_used Hx); [lia|]. rewrite pw_succ by lia. lia.
      + rewrite Zminus_mod. apply (Z.mod_unique _ _ (-1)); lia.
    - sp_steps. split; [done|]. exists na', (va mod vm). split; [done|]. split; [lia|]. split; [lia|]. rewrite Zminus_mod. symmetry. apply Z.mod_small. lia. }
  intros [err x] (-> & k & vx & Hx & Hux & Hle & <-). cbn [Z.eqb].
  eapply calc_bind; [apply (sp_sub_is e k nb' n vx (vb mod vm)); done|]. intros [err r'] Hr'. rewrite (proj2 (Z.ltb_ge n _)) in Hr' by lia.
  destruct Hr' as [-> Hr']. sp_skip. by left.
Qed.

(** A product reduced, from an object [t] of the product's own. *)
Lemma reduce_product_is k nm n v vm t m r r_is_m err : modular k v err t -> sp_is nm vm m -> 0 < vm -> sp_box n r -> k < SP_INT_DIGITS -> mp_used m < n ->
  calc e 0 (if err =? 0 then sp_mod t m r r_is_m else mret (err, r)) (fun '(err, r') => modular n (v mod vm) err r').
Proof.
  intros [[-> Ht]|[-> Ho]] Hm Hv Hr Hk Hn; [|sp_skip; by right]. cbn [Z.eqb]. pose proof (si_used _ _ _ Ht).
  eapply calc_mono; [apply (sp_mod_is e k nm n v vm); [done|done|done|done|lia|lia]|]. by intros [err r'].
Qed.

Lemma fresh_size k : 1 <= k <= SP_INT_DIGITS -> sp_init_size (new_sp_int k) k = (0, _sp_init_size (new_sp_int k) k).
Proof. intros Hk. unfold sp_init_size. rewrite (proj2 (Z.eqb_neq k 0)), (proj2 (Z.ltb_ge _ k)) by lia. done. Qed.

Lemma _sp_mulmod_is na nb nm n va vb vm a b m r (r_is_m : bool) : sp_is na va a -> sp_is nb vb b -> sp_is nm vm m -> sp_box n r ->
  mp_used a + mp_used b < SP_INT_DIGITS -> (r_is_m = false -> mp_used a + mp_used b <= n) -> 0 < vm -> mp_used m < n ->
  calc e 0 (_sp_mulmod a b m r r_is_m) (fun '(err, r') => modular n ((va * vb) mod vm) err r').
Proof.
  intros Ha Hb Hm Hr Hu Hun Hv Hn. pose proof (si_used _ _ _ Ha) as Hua. pose proof (si_used _ _ _ Hb) as Hub.
  assert (Hm0 : mp_used m <> 0) by (intros E; apply (sp_is_0 Hm) in E; lia). unfold _sp_mulmod. destruct r_is_m; cbn [negb].
  - unfold _sp_mulmod_tmp. rewrite (proj2 (Z.eqb_neq (mp_used m) 0)) by done.
    destruct (Z.eqb_spec (mp_used a) 0) as [E|E]; cbn [orb].
    { sp_steps. apply (sp_is_0 Ha) in E as ->. rewrite Z.mul_0_l, Z.mod_0_l by lia. left. split; [done|]. by apply sp_zero_is. }
    destruct (Z.eqb_spec (mp_used b) 0) as [E'|E'].
    { sp_steps. apply (sp_is_0 Hb) in E' as ->. rewrite Z.mul_0_r, Z.mod_0_l by lia. left. split; [done|]. by apply sp_zero_is. }
    set (k := mp_used a + mp_used b). pose proof Hu as Hu35. change SP_INT_DIGITS with 35 in Hu35.
    apply calc_alloc; [lia| |intros Ho; sp_skip; by right]. cbn [Z.eqb]. rewrite w16_id, fresh_size by lia. cbn [Z.eqb].
    eapply calc_bind; [apply (sp_mul_is e na nb k va vb); [done|done|apply fresh_box; lia]|].
    intros [err t] Ht. rewrite (proj2 (Z.ltb_ge k _)) in Ht by lia.
    eapply calc_bind; [apply (reduce_product_is k nm n (va * vb) vm); [destruct Ht as [?|(-> & _ & ?)]; [by left|by right]|done|done|done|done|done]|].
    intros [err' r'] Hr'. by sp_skip.
  - specialize (Hun eq_refl). eapply calc_bind; [apply (sp_mul_is e na nb n va vb); done|]. intros [err r'] Hr'. rewrite (proj2 (Z.ltb_ge n _)) in Hr' by lia.
    destruct Hr' as [[-> Hr']|(-> & -> & Ho)]; [|sp_skip; by right]. cbn [Z.eqb].
    assert (Hur : mp_used r' <= mp_used a + mp_used b).
    { apply (sp_is_used Hr'); [lia|]. rewrite pw_add by lia. pose proof (sp_is_range Ha). pose proof (sp_is_range Hb). nia. }
    eapply calc_mono; [apply (sp_mod_is e n nm n (va * vb) vm); [done|done|done|by destruct Hr'|lia|lia]|]. by intros [err r''].
Qed.

Lemma sp_mulmod_is na nb nm n va vb vm a b m r (r_is_m : bool) : sp_is na va a -> sp_is nb vb b -> sp_is nm vm m -> sp_box n r ->
  mp_used a + mp_used b < SP_INT_DIGITS -> (r_is_m = false -> mp_used a + mp_used b <= n) -> 0 < vm -> mp_used m < n ->
  calc e 0 (sp_mulmod a b m r r_is_m) (fun '(err, r') => modular n ((va * vb) mod vm) err r').
Proof.
  intros Ha Hb Hm Hr Hu Hun Hv Hn. unfold sp_mulmod. replace (negb r_is_m && _) with false; [by apply (_sp_mulmod_is na nb nm)|].
  rewrite (sb_size _ _ Hr). destruct r_is_m; [done|]. specialize (Hun eq_refl). cbn. symmetry. apply Z.ltb_ge. lia.
Qed.

Lemma sp_sqrmod_is na nm n va vm a m r (r_is_m : bool) : sp_is na va a -> sp_is nm vm m -> sp_box n r ->
  mp_used a * 2 < SP_INT_DIGITS -> (r_is_m = false -> mp_used a * 2 <= n) -> 0 < vm -> mp_used m < n ->
  calc e 0 (sp_sqrmod a m r r_is_m) (fun '(err, r') => modular n ((va * va) mod vm) err r').
Proof.
  intros Ha Hm Hr Hu Hun Hv Hn. pose proof (si_used _ _ _ Ha) as Hua. unfold sp_sqrmod. rewrite (sb_size _ _ Hr).
  assert (Hm0 : mp_used m <> 0) by (intros E; apply (sp_is_0 Hm) in E; lia). destruct r_is_m; cbn [negb andb].
  - rewrite (proj2 (Z.ltb_ge _ _)) by lia. unfold _sp_sqrmod. rewrite (proj2 (Z.eqb_neq (mp_used m) 0)) by done.
    destruct (Z.eqb_spec (mp_used a) 0) as [E|E].
    { sp_steps. apply (sp_is_0 Ha) in E as ->. rewrite Z.mul_0_l, Z.mod_0_l by lia. left. split; [done|]. by apply sp_zero_is. }
    set (k := mp_used a * 2). apply calc_alloc; [lia| |intros Ho; sp_skip; by right]. cbn [Z.eqb]. rewrite fresh_size by lia. cbn [Z.eqb].
    eapply calc_bind; [apply (sp_sqr_is e na k va); [done|apply fresh_box; lia]|].
    intros [err t] Ht. rewrite (proj2 (Z.ltb_ge k _)) in Ht by lia.
    eapply calc_bind; [apply (reduce_product_is k nm n (va * va) vm); [destruct Ht as [?|(-> & _ & ?)]; [by left|by right]|done|done|done|done|done]|].
    intros [err' r'] Hr'. by sp_skip.
  - specialize (Hun eq_refl). rewrite (proj2 (Z.ltb_ge _ _)) by lia. eapply calc_bind; [apply (sp_sqr_is e na n va); done|]. intros [err r'] Hr'.
    rewrite (proj2 (Z.ltb_ge n _)) in Hr' by lia. destruct Hr' as [[-> Hr']|(-> & -> & Ho)]; [|sp_skip; by right]. cbn [Z.eqb].
    assert (Hur : mp_used r' <= mp_used a * 2).
    { apply (sp_is_used Hr'); [lia|]. replace (mp_used a * 2) with (mp_used a + mp_used a) by lia. rewrite pw_add by lia. pose proof (sp_is_range Ha). nia. }
    eapply calc_mono; [apply (sp_mod_is e n nm n (va * va) vm); [done|done|done|by destruct Hr'|lia|lia]|]. by intros [err r''].
Qed.

(** *** Parity and one *)

Lemma low_digit n v a : sp_is n v a -> mp_used a <> 0 -> exists h, v = (mp_dp a).[0] + 2 ^ 32 * h /\ 0 <= h /\ (mp_used a = 1 -> h = 0).
Proof.
  intros [[_ _ Hl Hd] Hu _ Hv] H0. pose proof (val_split (mp_dp a) 1 (mp_used a - 1) ltac:(lia) ltac:(lia) ltac:(lia)) as E.
  replace (1 + (mp_used a - 1)) with (mp_used a) in E by lia. rewrite Hv in E. pose proof (val_succ (mp_dp a) 0 ltac:(lia)) as E1.
  change (0 + 1) with 1 in E1. rewrite val_0, pw_0 in E1. change (pw 1) with (2 ^ 32) in E.
  exists (val (drop (Z.to_nat 1) (mp_dp a)) (mp_used a - 1)). split; [lia|].
  split; [apply val_range; [by apply digits_ok_drop|lia]|]. intros ->. done.
Qed.

Lemma land_1 x : (Z.land x 1 =? 0) = Z.even x.
Proof. change 1 with (Z.ones 1). rewrite Z.land_ones by lia. change (2 ^ 1) with 2. rewrite Zmod_even. by destruct (Z.even x). Qed.

Lemma low_even n v a : sp_is n v a -> mp_used a <> 0 -> (Z.land (mp_dp a).[0] 1 =? 0) = Z.even v.
Proof.
  intros Ha H0. destruct (low_digit _ _ _ Ha H0) as (h & -> & _). rewrite land_1, Z.even_add, Z.even_mul. by destruct (Z.even _).
Qed.

Lemma calc_isodd {A} d n v a (k : bool -> M A) Q : sp_is n v a -> calc e d (k (Z.odd v)) Q -> calc e d (sp_isodd a ≫= k) Q.
Proof.
  intros Ha H. unfold sp_isodd. pose proof (sb_len _ _ (si_box _ _ _ Ha)). pose proof (si_used _ _ _ Ha). destruct (Z.eqb_spec (mp_used a) 0) as [E|E].
  - apply (sp_is_0 Ha) in E as ->. by sp_steps.
  - sp_steps. rewrite (low_even _ _ _ Ha E), Z.negb_even. done.
Qed.

Lemma calc_iseven {A} d n v a (k : bool -> M A) Q : sp_is n v a -> calc e d (k (negb (v =? 0) && Z.even v)) Q -> calc e d (sp_iseven a ≫= k) Q.
Proof.
  intros Ha H. unfold sp_iseven. pose proof (sb_len _ _ (si_box _ _ _ Ha)). pose proof (si_used _ _ _ Ha). pose proof (sp_is_0 Ha) as Hz.
  destruct (Z.eqb_spec (mp_used a) 0) as [E|E].
  - apply Hz in E as ->. by sp_steps.
  - sp_steps. rewrite (low_even _ _ _ Ha E). destruct (Z.eqb_spec v 0) as [Ev|]; [|done]. apply Hz in Ev. lia.
Qed.

Lemma calc_isone {A} d n v a (k : bool -> M A) Q : sp_is n v a -> calc e d (k (v =? 1)) Q -> calc e d (sp_isone a ≫= k) Q.
Proof.
  intros Ha H. unfold sp_isone. pose proof (sb_len _ _ (si_box _ _ _ Ha)). pose proof (si_used _ _ _ Ha). destruct (Z.eqb_spec (mp_used a) 1) as [E|E].
  - sp_steps. destruct (low_digit _ _ _ Ha ltac:(lia)) as (h & -> & _ & Hh). rewrite Hh, Z.mul_0_r, Z.add_0_r in H by done. done.
  - sp_steps. destruct (Z.eqb_spec v 1) as [->|]; [|done]. pose proof (sp_is_used Ha 1 ltac:(lia) ltac:(done)). pose proof (sp_is_0 Ha). lia.
Qed.

(** *** Half and difference *)

Definition half (M x : Z) : Z := (if Z.odd x then x + M else x) / 2.

Lemma half_spec M x : Z.odd M = true -> 0 <= x < M -> 0 <= half M x < M /\ (M | 2 * half M x - x).
Proof.
  intros HM Hx. unfold half. apply Z.odd_spec in HM as [m Hm]. destruct (Z.odd x) eqn:E.
  - apply Z.odd_spec in E as [y Hy]. replace ((x + M) / 2) with (y + m + 1) by (apply (Z.div_unique _ _ _ 0); lia). split; [lia|]. exists 1. lia.
  - rewrite <-Z.negb_even in E. apply negb_false_iff, Z.even_spec in E as [y Hy].
    replace (x / 2) with y by (apply (Z.div_unique _ _ _ 0); lia). split; [lia|]. exists 0. lia.
Qed.

Lemma div_2_self n X x : sp_is n X x -> X <> 0 -> calc e 0 (_sp_div_2 x x) (sp_is n (X / 2)).
Proof.
  intros Hx HX. pose proof (si_used _ _ _ Hx). eapply calc_mono; [apply (_sp_div_2_raw e n n X x x); [by apply sp_is_raw|by destruct Hx|lia|]|].
  - intros E. by apply (sp_is_0 Hx) in E.
  - intros r' [_ Hr']. by apply Hr'.
Qed.

Lemma half_mod_is n nm x X m M : sp_is n X x -> sp_is nm M m -> Z.odd M = true -> 0 < X < M -> mp_used m < n ->
  calc e 0 (half_mod x m) (sp_is n (half M X)).
Proof.
  intros Hx Hm HM HX Hn. assert (mp_used x <= mp_used m) by (apply (sp_is_used Hx); [by destruct (si_used _ _ _ Hm)|pose proof (sp_is_range Hm); lia]).
  unfold half_mod. eapply calc_isodd; [done|].
  unfold half. destruct (Z.odd X).
  - eapply calc_bind; [apply (_sp_add_off_is e n nm n X M); [done|done|by destruct Hx|lia]|]. intros y Hy. apply div_2_self; [done|lia].
  - sp_steps. apply div_2_self; [done|lia].
Qed.

Lemma diff_mod_is n ny nm x X y Y m M : sp_is n X x -> sp_is ny Y y -> sp_is nm M m -> 0 <= X < M -> 0 <= Y < M -> mp_used m < n ->
  calc e 0 (diff_mod x y m) (sp_is n ((X - Y) mod M)).
Proof.
  intros Hx Hy Hm HX HY Hn. assert (mp_used x <= mp_used m) by (apply (sp_is_used Hx); [by destruct (si_used _ _ _ Hm)|pose proof (sp_is_range Hm); lia]).
  pose proof (si_used _ _ _ Hx). unfold diff_mod. rewrite (sp_cmp_lt n ny X Y) by done.
  eapply (calc_bind e _ _ _ (fun x' => sp_is n ((X - Y) mod M + Y) x')).
  - destruct (Z.ltb_spec X Y).
    + eapply calc_mono; [apply (_sp_add_off_is e n nm n X M); [done|done|by destruct Hx|lia]|]. intros x' Hx'.
      replace ((X - Y) mod M) with (X - Y + M) by (apply (Z.mod_unique _ _ (-1)); lia). by replace (X - Y + M + Y) with (X + M) by lia.
    + sp_steps. rewrite Z.mod_small by lia. by replace (X - Y + Y) with X by lia.
  - intros x' Hx'. pose proof (si_used _ _ _ Hx'). pose proof (Z.mod_pos_bound (X - Y) M ltac:(lia)).
    eapply calc_mono; [apply (_sp_sub_off_is e n ny n _ Y x' y x' 0 Hx' Hy); [by destruct Hx'|lia|lia|rewrite pw_0; lia]|].
    rewrite pw_0. intros r Hr. by replace ((X - Y) mod M + Y - 1 * Y) with ((X - Y) mod M) in Hr by lia.
Qed.

(** *** The numbers behind the loop *)

Definition bits (x : Z) : Z := if x =? 0 then 0 else Z.log2 x + 1.

Definition variant (U V : Z) : Z := 2 * (bits U + bits V) + Z.b2z (Z.odd U && Z.odd V).

Lemma bits_pos x : 0 < x -> 1 <= bits x.
Proof. intros Hx. unfold bits. rewrite (proj2 (Z.eqb_neq x 0)) by lia. pose proof (Z.log2_nonneg x). lia. Qed.

Lemma bits_mono x y : 0 <= x <= y -> bits x <= bits y.
Proof.
  intros H. unfold bits. pose proof (Z.log2_nonneg y). destruct (Z.eqb_spec x 0), (Z.eqb_spec y 0); try lia.
  pose proof (Z.log2_le_mono x y). lia.
Qed.

Lemma bits_half x : 0 < x -> Z.even x = true -> 0 < x / 2 /\ x = 2 * (x / 2) /\ bits (x / 2) = bits x - 1.
Proof.
  intros Hx He. apply Z.even_spec in He as [y Hy]. replace (x / 2) with y by (apply (Z.div_unique _ _ _ 0); lia).
  split; [lia|]. split; [lia|]. unfold bits. rewrite !(proj2 (Z.eqb_neq _ 0)) by lia. rewrite Hy, Z.log2_double by lia. lia.
Qed.

Lemma gcd_half x y : Z.odd y = true -> Z.gcd (2 * x) y = Z.gcd x y.
Proof.
  intros Hy. apply Z.gcd_unique.
  - apply Z.gcd_nonneg.
  - apply Z.divide_mul_r, Z.gcd_divide_l.
  - apply Z.gcd_divide_r.
  - intros q H2 Hq. apply Z.gcd_greatest; [|done]. apply (Z.gauss _ 2); [done|].
    assert (Hr : rel_prime q 2); [|by apply Zgcd_1_rel_prime]. apply rel_prime_sym, prime_rel_prime; [apply prime_2|].
    intros H. pose proof (Z.divide_trans _ _ _ H Hq) as [k Hk]. rewrite Hk, Z.odd_mul, andb_false_r in Hy. done.
Qed.

Lemma gcd_sub x y : Z.gcd (x - y) y = Z.gcd x y.
Proof. rewrite (Z.gcd_comm (x - y)), (Z.gcd_comm x). replace (x - y) with (x + (-1) * y) by lia. apply Z.gcd_add_mult_diag_r. Qed.

(** [U] and [V] are multiples of the inverted number [A], by [B] and [C]. *)
Record bezout (A M U V B C : Z) : Prop := {
  bz_U : 0 <= U <= M; bz_V : 0 < V < M; bz_B : 0 <= B < M; bz_C : 0 <= C < M;
  bz_BU : (M | B * A - U); bz_CV : (M | C * A - V);
  bz_gcd : Z.gcd U V = Z.gcd A M; bz_one : U = 0 -> V <> 1 }.

Lemma not_multiple M X Y : (M | 0 * X - Y) -> 0 < Y < M -> False.
Proof. intros [k Hk] HY. assert (k < 0 /\ - 1 < k) by nia. lia. Qed.

Lemma half_multiple M A X Y : Z.odd M = true -> 0 <= X < M -> (M | X * A - 2 * Y) -> (M | half M X * A - Y).
Proof.
  intros HM HX [k Hk]. destruct (half_spec M X HM HX) as [_ [j Hj]]. apply (Z.gauss _ 2).
  - exists (j * A + k). replace (2 * (half M X * A - Y)) with ((2 * half M X - X) * A + (X * A - 2 * Y)) by lia. rewrite Hj, Hk. lia.
  - rewrite Z.gcd_comm. replace 2 with (2 * 1) by lia. by rewrite gcd_half, Z.gcd_1_l by done.
Qed.

Lemma diff_multiple M A X Y U V : 0 < M -> (M | X * A - U) -> (M | Y * A - V) -> (M | ((X - Y) mod M) * A - (U - V)).
Proof.
  intros HM [j Hj] [k Hk]. rewrite Z.mod_eq by lia. exists (j - k - (X - Y) / M * A). lia.
Qed.

Section Steps.
Context (A M : Z).
Hypothesis HM : Z.odd M = true.

Lemma gcd_odd U V B C : bezout A M U V B C -> Z.even U = true -> Z.even V = true -> False.
Proof.
  intros Hb HU HV. apply Z.even_spec in HU as [u Hu], HV as [v Hv].
  assert (2 | M) as [k Hk]; [|rewrite Hk, Z.odd_mul, andb_false_r in HM; done].
  apply (Z.divide_trans _ (Z.gcd A M)); [|apply Z.gcd_divide_r]. rewrite <-(bz_gcd _ _ _ _ _ _ Hb).
  apply Z.gcd_greatest; [exists u; lia|exists v; lia].
Qed.

Lemma step_u_even U V B C : bezout A M U V B C -> U <> 0 -> Z.even U = true ->
  0 < B /\ bezout A M (U / 2) V (half M B) C /\ variant (U / 2) V < variant U V.
Proof.
  intros Hb HU He. pose proof (gcd_odd _ _ _ _ Hb He) as HV. destruct Hb as [H1 H2 H3 H4 H5 H6 H7 H8].
  destruct (bits_half U ltac:(lia) He) as (P1 & P2 & P3).
  assert (U <> M) by (intros ->; rewrite <-Z.negb_odd, HM in He; done).
  assert (B <> 0) by (intros ->; apply (not_multiple M A U H5); lia).
  assert (HVo : Z.odd V = true) by (rewrite <-Z.negb_even; destruct (Z.even V); [tauto|done]).
  destruct (half_spec M B HM H3) as [HB _]. split; [lia|]. split; [split; try done|].
  - lia.
  - apply half_multiple; [done|done|]. by rewrite <-P2.
  - rewrite <-H7. rewrite P2 at 2. symmetry. by apply gcd_half.
  - lia.
  - unfold variant. rewrite P3. destruct (Z.odd (U / 2) && Z.odd V), (Z.odd U && Z.odd V); cbn; lia.
Qed.

Lemma step_v_even U V B C : bezout A M U V B C -> Z.odd U = true -> Z.even V = true ->
  0 < C /\ bezout A M U (V / 2) B (half M C) /\ variant U (V / 2) < variant U V.
Proof.
  intros [H1 H2 H3 H4 H5 H6 H7 H8] HU He. destruct (bits_half V ltac:(lia) He) as (P1 & P2 & P3).
  assert (C <> 0) by (intros ->; apply (not_multiple M A V H6); lia).
  destruct (half_spec M C HM H4) as [HC _]. split; [lia|]. split; [split; try done|].
  - lia.
  - apply half_multiple; [done|done|]. by rewrite <-P2.
  - rewrite <-H7. rewrite P2 at 2. rewrite !(Z.gcd_comm U). symmetry. by apply gcd_half.
  - intros ->. done.
  - unfold variant. rewrite P3. destruct (Z.odd U && Z.odd (V / 2)), (Z.odd U && Z.odd V); cbn; lia.
Qed.

Lemma step_u_greater U V B C : bezout A M U V B C -> Z.odd U = true -> Z.odd V = true -> V <= U -> V <> 1 ->
  bezout A M (U - V) V ((B - C) mod M) C /\ variant (U - V) V < variant U V.
Proof.
  intros [H1 H2 H3 H4 H5 H6 H7 H8] HU HV Hle Hne. split; [split; try done|].
  - lia.
  - apply Z.mod_pos_bound. lia.
  - apply diff_multiple; [lia|done|done].
  - by rewrite gcd_sub.
  - unfold variant. rewrite Z.odd_sub, HU, HV. cbn. pose proof (bits_mono (U - V) U ltac:(lia)). lia.
Qed.

Lemma step_v_greater U V B C : bezout A M U V B C -> U <> 0 -> Z.odd U = true -> Z.odd V = true -> U < V ->
  bezout A M U (V - U) B ((C - B) mod M) /\ variant U (V - U) < variant U V.
Proof.
  intros [H1 H2 H3 H4 H5 H6 H7 H8] H0 HU HV Hlt. split; [split; try done|].
  - lia.
  - apply Z.mod_pos_bound. lia.
  - apply diff_multiple; [lia|done|done].
  - rewrite <-H7, !(Z.gcd_comm U). apply gcd_sub.
  - unfold variant. rewrite Z.odd_sub, HU, HV. cbn. pose proof (bits_mono (V - U) V ltac:(lia)). lia.
Qed.
End Steps.

(** *** The loop *)

Section Euclid.
Context (nm nu nv nb nc A M : Z) (m : mp_int).
Hypothesis HM : Z.odd M = true.
Hypothesis Hm : sp_is nm M m.
Hypothesis Hnb : mp_used m < nb.
Hypothesis Hnc : mp_used m < nc.

Definition euclid (U V B C : Z) (s : mp_int * mp_int * mp_int * mp_int) : Prop :=
  let '(u, v, b, c) := s in sp_is nu U u /\ sp_is nv V v /\ sp_is nb B b /\ sp_is nc C c /\ bezout A M U V B C.

Lemma sub_self n k X Y x y : sp_is n X x -> sp_is k Y y -> Y <= X -> calc e 0 (_sp_sub_off x y x 0) (sp_is n (X - Y)).
Proof.
  intros Hx Hy Hle. pose proof (si_used _ _ _ Hx). eapply calc_mono; [apply (_sp_sub_off_is e n k n X Y x y x 0 Hx Hy); [by destruct Hx|lia|lia|rewrite pw_0; lia]|].
  rewrite pw_0. intros r Hr. by rewrite Z.mul_1_l in Hr.
Qed.

Lemma invmod_step_is U V B C s : euclid U V B C s -> U <> 0 -> V <> 1 ->
  calc e 0 (invmod_step m s) (fun s' => exists U' V' B' C', euclid U' V' B' C' s' /\ variant U' V' < variant U V).
Proof.
  destruct s as [[[u v] b] c]. intros (Hu & Hv & Hb & Hc & Hz) HU HV. pose proof (bz_B _ _ _ _ _ _ Hz). pose proof (bz_C _ _ _ _ _ _ Hz). pose proof (bz_V _ _ _ _ _ _ Hz).
  pose proof (sb_len _ _ (si_box _ _ _ Hu)). pose proof (si_used _ _ _ Hu). pose proof (sb_len _ _ (si_box _ _ _ Hv)). pose proof (si_used _ _ _ Hv).
  assert (mp_used u <> 0) by (intros E; apply (sp_is_0 Hu) in E; lia). assert (mp_used v <> 0) by (intros E; apply (sp_is_0 Hv) in E; lia).
  unfold invmod_step. sp_step. rewrite (low_even _ _ _ Hu) by done. destruct (Z.even U) eqn:EU.
  { destruct (step_u_even A M HM U V B C Hz HU EU) as (HB & Hz' & Hvar). eapply calc_bind; [by apply (div_2_self nu U)|]. intros u' Hu'.
    eapply calc_bind; [apply (half_mod_is nb nm b B m M); [done|done|done|lia|done]|]. intros b' Hb'. sp_steps. by exists (U / 2), V, (half M B), C. }
  sp_step. rewrite (low_even _ _ _ Hv) by done. assert (HUo : Z.odd U = true) by (by rewrite <-Z.negb_even, EU). destruct (Z.even V) eqn:EV.
  { destruct (step_v_even A M HM U V B C Hz HUo EV) as (HC & Hz' & Hvar). eapply calc_bind; [apply (div_2_self nv V); [done|lia]|]. intros v' Hv'.
    eapply calc_bind; [apply (half_mod_is nc nm c C m M); [done|done|done|lia|done]|]. intros c' Hc'. sp_steps. by exists U, (V / 2), B, (half M C). }
  assert (HVo : Z.odd V = true) by (by rewrite <-Z.negb_even, EV). rewrite (sp_cmp_lt nu nv U V) by done.
  destruct (Z.ltb_spec U V) as [Hlt|Hge]; cbn [negb].
  - destruct (step_v_greater A M U V B C Hz HU HUo HVo Hlt) as [Hz' Hvar]. eapply calc_bind; [apply (sub_self nv nu V U); [done|done|lia]|]. intros v' Hv'.
    eapply calc_bind; [apply (diff_mod_is nc nb nm c C b B m M); [done|done|done|lia|lia|done]|]. intros c' Hc'. sp_steps. by exists U, (V - U), B, ((C - B) mod M).
  - destruct (step_u_greater A M U V B C Hz HUo HVo ltac:(lia) HV) as [Hz' Hvar]. eapply calc_bind; [apply (sub_self nu nv U V); [done|done|lia]|]. intros u' Hu'.
    eapply calc_bind; [apply (diff_mod_is nb nc nm b B c C m M); [done|done|done|lia|lia|done]|]. intros b' Hb'. sp_steps. by exists (U - V), V, ((B - C) mod M), C.
Qed.

(** The loop ends: [variant] decreases at every turn. *)
Lemma invmod_loop_is n U V B C s : euclid U V B C s -> variant U V <= Z.of_nat n ->
  calc e 0 (invmod_loop n m s) (fun s' => exists U' V' B' C', euclid U' V' B' C' s' /\ (U' = 0 \/ V' = 1)).
Proof.
  revert U V B C s. induction n as [|n IH]; intros U V B C s Hs Hn; destruct s as [[[u v] b] c]; pose proof Hs as (Hu & Hv & Hb & Hc & Hz);
    cbn [invmod_loop]; (eapply calc_isone; [done|]); pose proof (sp_is_0 Hu) as H0; (destruct (Z.eqb_spec V 1) as [->|HV]; cbn [negb andb];
    [sp_steps; exists U, 1, B, C; by split; [|right]|]); (destruct (Z.eqb_spec (mp_used u) 0) as [E|E]; cbn [negb];
    [sp_steps; apply H0 in E as ->; exists 0, V, B, C; by split; [|left]|]).
  - exfalso. pose proof (bz_V _ _ _ _ _ _ Hz). pose proof (bits_pos V ltac:(lia)). pose proof (bz_U _ _ _ _ _ _ Hz).
    assert (0 <= bits U) by (apply (bits_mono 0 U); lia). unfold variant in Hn. destruct (Z.odd U && Z.odd V); cbn in Hn; lia.
  - eapply calc_bind; [apply (invmod_step_is U V B C); [done|by intros ->; apply E, H0|done]|]. intros s' (U' & V' & B' & C' & Hs' & Hvar). eapply IH; [done|lia].
Qed.
End Euclid.

Lemma sp_count_bits_bits n v a : sp_is n v a -> sp_count_bits a = bits v.
Proof. intros Ha. rewrite (sp_count_bits_num a (sp_is_num _ _ _ Ha)). by rewrite (sp_is_sp_val _ _ _ Ha). Qed.

(** [x] is the inverse of [A] modulo [M]. *)
Definition inverse (M A x : Z) : Prop := 0 <= x < M /\ (x * A) mod M = 1.

Lemma inverse_of M A x : 1 < M -> 0 <= x < M -> (M | x * A - 1) -> inverse M A x.
Proof. intros HM Hx [k Hk]. split; [done|]. symmetry. apply (Z.mod_unique _ _ k); lia. Qed.

Lemma _sp_invmod_bin_is na nm nu nv nb nc A M a m u v b c (a_is_v : bool) : sp_is na A a -> sp_is nm M m -> Z.odd M = true -> 0 < A < M ->
  sp_box nu u -> mp_used m <= nu -> (a_is_v = true -> v = a /\ nv = na) -> (a_is_v = false -> sp_box nv v /\ mp_used a <= nv) ->
  sp_box nb b -> mp_used m < nb -> sp_box nc c -> mp_used m < nc ->
  calc e 0 (_sp_invmod_bin a m u v b c a_is_v) (fun '(err, c') =>
    if Z.gcd A M =? 1 then err = 0 /\ exists x, sp_is nc x c' /\ inverse M A x else err = MP_VAL).
Proof.
  intros Ha Hm HM HA Hu Hum Hv1 Hv2 Hb Hnb Hc Hnc. unfold _sp_invmod_bin.
  assert (Hu' : sp_is nu M (_sp_copy m u)) by (by apply (sp_copy_is nu nm)).
  assert (Hv' : sp_is nv A (if negb a_is_v then _sp_copy a v else v)).
  { destruct a_is_v; cbn; [by destruct (Hv1 eq_refl) as [-> ->]|]. destruct (Hv2 eq_refl). by apply (sp_copy_is nv na). }
  rewrite (sp_count_bits_bits _ _ _ Hu'), (sp_count_bits_bits _ _ _ Hv').
  pose proof (bits_pos M ltac:(lia)). pose proof (bits_pos A ltac:(lia)).
  eapply calc_bind; [apply (invmod_loop_is nm nu nv nb nc A M m HM Hm Hnb Hnc _ M A 0 1)|].
  - split; [done|]. split; [done|]. split; [by apply sp_zero_is|]. split; [apply sp_set_is; [done|lia]|].
    split; [lia|done|lia|lia|exists (-1); lia|exists 0; lia|apply Z.gcd_comm|lia].
  - rewrite Z2Nat.id by lia. unfold variant. destruct (Z.odd M && Z.odd A); cbn; lia.
  - intros [[[u' v'] b'] c'] (U & V & B & C & (HU & HV & _ & HC & Hz) & Hend). sp_steps. pose proof (sp_is_0 HU) as HU0.
    destruct Hz as [HzU HzV HzB HzC HzBU HzCV Hgcd Hone]. rewrite <-Hgcd. destruct (Z.eqb_spec (mp_used u') 0) as [E|E].
    + apply HU0 in E as ->. rewrite Z.gcd_0_l, Z.abs_eq by lia. by rewrite (proj2 (Z.eqb_neq V 1)) by auto.
    + destruct Hend as [->| ->]; [tauto|]. rewrite Z.gcd_1_r, Z.eqb_refl. split; [done|]. exists C. split; [done|]. apply inverse_of; [lia|done|done].
Qed.

Lemma inverse_even M A C (K := (C * M - 1) / A) : 1 < A < M -> inverse A (M mod A) C ->
  1 <= C * M /\ 0 <= K <= M /\ inverse M A (M - K).
Proof.
  intros HA [HC Hmod]. assert (C <> 0) by (intros ->; rewrite Z.mul_0_l, Z.mod_0_l in Hmod; lia).
  assert (HK : C * M - 1 = A * K).
  { apply Z_div_exact_2; [lia|]. rewrite Zmult_mod_idemp_r in Hmod. rewrite Zminus_mod, Hmod, Z.mod_1_l, Z.sub_diag, Z.mod_0_l by lia. done. }
  assert (0 < K < M) by nia. split; [nia|]. split; [lia|]. apply inverse_of; [lia|lia|]. exists (A - C). lia.
Qed.

Definition inverted (n M A err : Z) (r : mp_int) : Prop :=
  (if Z.gcd A M =? 1 then err = 0 /\ exists x, sp_is n x r /\ inverse M A x else err = MP_VAL) \/ (err = MP_MEM /\ oom e).

Section Inverse.
Context (na nm n A M : Z) (a m r : mp_int).
Hypothesis Ha : sp_is na A a.
Hypothesis Hm : sp_is nm M m.
Hypothesis HA : 1 < A < M.
Hypothesis Hr : sp_box n r.
Hypothesis Hn : mp_used m <= n.
Hypothesis H17 : mp_used m <= 17.

Lemma used_le : mp_used a <= mp_used m.
Proof. apply (sp_is_used Ha); [by destruct (si_used _ _ _ Hm)|]. pose proof (sp_is_range Hm). lia. Qed.

(** From the inverse of the modulus modulo the number. *)
Lemma even_modulus_is nu nv nb nc u v b c : Z.even M = true -> Z.odd A = true -> sp_box nu u -> sp_box nv v -> sp_box nb b -> sp_box nc c ->
  mp_used m < nu -> mp_used m < nv -> mp_used m < nb -> nc = 2 * mp_used m + 1 ->
  calc e 0
    (let u := _sp_copy a u in
     '(err, v) ← sp_mod m a v false;
     let err := if (err =? 0) && (mp_used v =? 0) then MP_VAL else err in
     '(err, c) ← (if err =? 0 then _sp_invmod_bin v a u v b c true else mret (err, c));
     '(err, c) ← (if err =? 0 then sp_mul c m c else mret (err, c));
     '(err, c) ← (if err =? 0 then
         c ← _sp_sub_d c 1 c;
         '(err, q, _) ← sp_div c a (Some c) None false false;
         mret (err, default c q) else mret (err, c));
     if err =? 0 then sp_sub m c r else mret (err, r))
    (fun '(err, r') => inverted n M A err r').
Proof.
  intros HMe HAo Hu Hv Hb Hc Hnu Hnv Hnb Hnc. pose proof used_le as Hle. pose proof (si_used _ _ _ Ha) as Hua. pose proof (si_used _ _ _ Hm) as Hum. cbv zeta.
  eapply calc_bind; [apply (sp_mod_is e nm na nv M A); [done|done|lia|done|change SP_INT_DIGITS with 35; lia|lia]|].
  intros [err v'] [[-> Hv']|[-> Ho]]; [|sp_skip; by right]. pose proof (sp_is_0 Hv') as Hv0. pose proof (Z.mod_pos_bound M A ltac:(lia)) as HV.
  assert (Hg : Z.gcd (M mod A) A = Z.gcd A M) by (rewrite Z.gcd_mod by lia; done). unfold inverted. rewrite <-Hg.
  destruct (Z.eqb_spec (mp_used v') 0) as [E|E].
  { apply Hv0 in E. rewrite E, Z.gcd_0_l, Z.abs_eq, (proj2 (Z.eqb_neq A 1)) by lia. sp_skip. by left. }
  cbn [Z.eqb andb]. eapply calc_bind; [apply (_sp_invmod_bin_is nv na nu nv nb nc (M mod A) A v' a); try done; [lia| |lia|lia|lia]|].
  { destruct (sp_copy_is nu na A a u Ha Hu ltac:(lia)). done. }
  intros [err c'] Hc'. destruct (Z.eqb_spec (Z.gcd (M mod A) A) 1) as [_|_]; [|subst err; sp_skip; by left].
  destruct Hc' as (-> & C & Hc' & Hinv). destruct (inverse_even M A C HA Hinv) as (P1 & P2 & P3). set (K := (C * M - 1) / A) in *. cbn [Z.eqb].
  assert (Huc : mp_used c' <= mp_used m) by (apply (sp_is_used Hc'); [lia|destruct Hinv; pose proof (sp_is_range Hm); lia]).
  eapply calc_bind; [apply (sp_mul_is e nc nm nc C M); [done|done|by destruct Hc']|]. intros [err c2] Hc2. rewrite (proj2 (Z.ltb_ge nc _)) in Hc2 by lia.
  destruct Hc2 as [[-> Hc2]|(-> & -> & Ho)]; [|sp_skip; by right]. cbn [Z.eqb].
  assert (Huc2 : mp_used c2 <= mp_used a + mp_used m).
  { apply (sp_is_used Hc2); [lia|]. rewrite pw_add by lia. destruct Hinv as [HCA _]. pose proof (sp_is_range Ha). pose proof (sp_is_range Hm). nia. }
  pose proof (si_used _ _ _ Hc2) as Huc2'. apply calc_assoc. eapply calc_bind; [apply (_sp_sub_d_is e nc nc (C * M) c2 1 c2 Hc2); [by destruct Hc2|lia|lia|lia]|]. intros c3 Hc3.
  assert (Huc3 : mp_used c3 <= mp_used c2) by (apply (sp_is_used Hc3); [lia|pose proof (sp_is_range Hc2); lia]).
  assert (Hum0 : mp_used m <> 0) by (intros E0; apply (sp_is_0 Hm) in E0; lia).
  apply calc_assoc. eapply calc_bind; [apply (sp_div_is e nc na nc 1 (C * M - 1) A c3 a (Some c3) None Hc3 Ha ltac:(lia)); [change SP_INT_DIGITS with 35; lia| |done|done]|].
  { split; [by destruct Hc3|lia]. }
  intros [[err q] rem'] [(-> & Hq & _)|[-> Ho]]; [|sp_skip; by right]. destruct q as [q|]; [|done]. cbn in Hq. fold K in Hq. sp_steps. cbn [Z.eqb default].
  eapply calc_mono; [apply (sp_sub_is e nm nc n M K); [done|done|done|lia]|]. intros [err r'] Hr'. rewrite (proj2 (Z.ltb_ge n _)) in Hr' by lia.
  destruct Hr' as [-> Hr']. left. split; [done|]. by exists (M - K).
Qed.

Lemma init_if_is k s : 1 <= k <= SP_INT_DIGITS -> s = k -> init_if 0 (new_sp_int k) s = (0, _sp_init_size (new_sp_int k) k).
Proof. intros Hk ->. unfold init_if. cbn [Z.eqb]. by apply fresh_size. Qed.

Lemma _sp_invmod_is : Z.odd A || Z.odd M = true ->
  calc e 0 (_sp_invmod a m r) (fun '(err, r') => inverted n M A err r').
Proof.
  intros Hodd. pose proof used_le as Hle. pose proof (si_used _ _ _ Ha) as Hua. pose proof (si_used _ _ _ Hm) as Hum.
  assert (Hum0 : mp_used m <> 0) by (intros E0; apply (sp_is_0 Hm) in E0; lia). unfold _sp_invmod. set (k := mp_used m + 1). set (k2 := 2 * mp_used m + 1).
  assert (Hk : 1 <= k <= SP_INT_DIGITS) by (change SP_INT_DIGITS with 35; lia). assert (Hk2 : 1 <= k2 <= SP_INT_DIGITS) by (change SP_INT_DIGITS with 35; lia).
  apply calc_alloc; [lia| |intros Ho; apply calc_alloc_failed; [done|]; unfold init_if; sp_skip; unfold inverted; by right].
  apply calc_alloc; [lia| |intros Ho; unfold init_if; sp_skip; unfold inverted; by right]. rewrite !init_if_is by (done || apply w16_id; lia). cbn [Z.eqb].
  pose proof (fresh_box k k ltac:(lia) ltac:(lia)) as Hf. pose proof (fresh_box k2 k2 ltac:(lia) ltac:(lia)) as Hf2.
  set (f := _sp_init_size (new_sp_int k) k) in *. set (f2 := _sp_init_size (new_sp_int k2) k2) in *. clearbody f f2.
  eapply (calc_bind e _ _ _ (fun '(err, r') => inverted n M A err r')); [|intros [err r'] Hr'; by sp_skip].
  eapply calc_iseven; [done|]. rewrite (proj2 (Z.eqb_neq M 0)) by lia. cbn [negb andb]. destruct (Z.even M) eqn:EM.
  - apply (even_modulus_is k k k k2 f f f f2); try done; try lia. destruct (Z.odd A); [done|]. by rewrite <-Z.negb_even, EM in Hodd.
  - eapply calc_bind; [apply (_sp_invmod_bin_is na nm k k k k2 A M a m f f f f2 false); try done; try lia|].
    { by rewrite <-Z.negb_even, EM. }
    { intros _. split; [done|lia]. }
    unfold inverted. intros [err c]. destruct (Z.gcd A M =? 1).
    + intros (-> & x & Hc & Hinv). sp_steps. left. split; [done|]. exists x. split; [|done]. cbn [Z.eqb]. apply (sp_copy_is n k2); [done|done|].
      assert (mp_used c <= mp_used m); [|lia]. apply (sp_is_used Hc); [lia|]. destruct Hinv. pose proof (sp_is_range Hm). lia.
    + intros ->. sp_steps. by left.
Qed.
End Inverse.
End Mod.

(** C24. Inversion modulo a number.  For a modulus of up to 17 digits, odd or even, and any
    number of fewer than 35 digits, [sp_invmod] ends without leaving its objects and without
    keeping memory: when the two have no common divisor it answers the inverse below the
    modulus, otherwise (the modulus 1 and the number 0 included) MP_VAL, or MP_MEM where
    memory may run out. *)
Theorem sp_invmod_exact e na nm n A M a m r : sp_is na A a -> sp_is nm M m -> sp_box n r -> 0 < M -> mp_used m <= 17 -> mp_used m * 2 <= n ->
  mp_used a < SP_INT_DIGITS ->
  calc e 0 (sp_invmod a m r false) (fun '(err, r') =>
    (if (Z.gcd A M =? 1) && (1 <? M) then err = 0 /\ exists x, sp_is n x r' /\ 0 <= x < M /\ (x * A) mod M = 1 else err = MP_VAL) \/
    (err = MP_MEM /\ oom e)).
Proof.
  intros Ha Hm Hr HM H17 Hn Hu. pose proof (si_used _ _ _ Hm) as Hum. pose proof (sp_is_range Ha) as HA.
  assert (Hum0 : mp_used m <> 0) by (intros E0; apply (sp_is_0 Hm) in E0; lia). unfold sp_invmod. rewrite (sb_size _ _ Hr), (proj2 (Z.ltb_ge n _)) by lia.
  pose proof (Z.mod_pos_bound A M HM) as Hmod.
  eapply (calc_bind e _ _ _ (fun '(err, a', r') => (err = 0 /\ sp_box n r' /\ exists k, sp_is k (A mod M) a') \/ (err = MP_MEM /\ oom e))).
  { rewrite (sp_cmp_lt na nm A M) by done. destruct (Z.ltb_spec A M); cbn [negb].
    - sp_steps. left. split; [done|]. split; [done|]. exists na. by rewrite Z.mod_small by lia.
    - eapply calc_bind; [apply (sp_mod_is e na nm n A M); [done|done|done|done|done|lia]|]. intros [err r'] [[-> Hr']|[-> Ho]]; sp_steps; [left|by right].
      split; [done|]. split; [by destruct Hr'|]. by exists n. }
  intros [[err a'] r'] [(-> & Hr' & k & Ha')|[-> Ho]]; [|sp_skip; by right]. cbn [Z.eqb negb]. rewrite (proj2 (Z.eqb_neq (mp_used m) 0)) by done.
  assert (Hg : Z.gcd A M = Z.gcd (A mod M) M) by (rewrite Z.gcd_mod, (Z.gcd_comm M) by lia; done). rewrite Hg.
  assert (Hres : forall x, ((A mod M) * x) mod M = (x * A) mod M) by (intros x; rewrite Zmult_mod_idemp_l; f_equal; lia).
  set (A' := A mod M) in *. clearbody A'. pose proof (sp_is_0 Ha') as Ha0. destruct (Z.eqb_spec (mp_used a') 0) as [E|E]; cbn [orb].
  { apply Ha0 in E. rewrite E, Z.gcd_0_l, Z.abs_eq by lia. sp_steps. left. destruct (Z.eqb_spec M 1) as [->|]; done. }
  assert (A' <> 0) by (intros E'; by apply E, Ha0). assert (HM1 : (1 <? M) = true) by (apply Z.ltb_lt; lia). rewrite HM1, andb_true_r.
  do 2 (eapply calc_iseven; [done|]). rewrite !(proj2 (Z.eqb_neq _ 0)) by lia. cbn [negb andb].
  destruct (Z.even A' && Z.even M) eqn:Eev.
  { apply andb_prop in Eev as [E1 E2]. sp_steps. left. destruct (Z.eqb_spec (Z.gcd A' M) 1) as [Eg|]; [|done]. exfalso.
    apply Z.even_spec in E1 as [x Hx], E2 as [y Hy]. assert (2 | Z.gcd A' M) as [z Hz] by (apply Z.gcd_greatest; [exists x|exists y]; lia). lia. }
  eapply calc_isone; [done|]. destruct (Z.eqb_spec A' 1) as [E1|E1].
  { sp_steps. left. rewrite E1, Z.gcd_1_l. split; [done|]. exists 1. split; [apply sp_set_is; [done|lia]|]. split; [lia|]. rewrite <-Hres, E1. apply Z.mod_1_l. lia. }
  eapply calc_mono; [apply (_sp_invmod_is e k nm n A' M a' m r' Ha' Hm); [lia|done|lia|done|]|].
  { rewrite <-!Z.negb_even. by destruct (Z.even A'), (Z.even M). }
  intros [err r''] [HQ|HQ]; [left|by right]. destruct (Z.gcd A' M =? 1); [|done]. destruct HQ as (-> & x & Hx & Hinv & Hinv'). split; [done|]. exists x.
  split; [done|]. split; [done|]. by rewrite <-Hres, Z.mul_comm.
Qed.

Lemma sp_invmod_exact_witness :
  calc env_plenty 0 (sp_invmod (sp_lit 9 0xfedcba9876543210fedcba9876543210123456789) (sp_lit 9 0xffffffff00000001000000000000000000000000ffffffffffffffffffffffff) (sp_lit 16 0) false)
    (fun '(err, r) => err = 0 /\ (sp_val r * 0xfedcba9876543210fedcba9876543210123456789) mod 0xffffffff00000001000000000000000000000000ffffffffffffffffffffffff = 1).
Proof.
  eapply calc_mono.
  - apply (sp_invmod_exact env_plenty 9 9 16 0xfedcba9876543210fedcba9876543210123456789 0xffffffff00000001000000000000000000000000ffffffffffffffffffffffff).
    1, 2: apply sp_lit_is; [done|split; [done|reflexivity]].
    + apply (sp_lit_is 16 0); done.
    + done.
    + vm_compute. discriminate.
    + vm_compute. discriminate.
    + reflexivity.
  - intros [err r] [HQ|[_ [n Hn]]]; [|discriminate].
    change ((Z.gcd _ _ =? 1) && _) with true in HQ. destruct HQ as (-> & x & Hx & _ & Hinv). split; [done|]. by rewrite (sp_is_sp_val _ _ _ Hx).
Defined.
