(* ===== verification/SpMont.v ===== *)
(** * SpMont: Montgomery arithmetic of sp_int.c

    Multiplication modulo an odd number [m] without division: numbers are kept
    multiplied by R, a power of two above [m], and [_sp_mont_red] divides a product by R
    modulo [m].  R is 2^32 for a modulus of one digit and otherwise 2 to the number of
    bits of [m].  The theorems show that the reduction of anything below [m * R] is the
    one number below [m] that times R is congruent to it, in the plain and in the
    constant-time variant. *)

From Stdlib Require Import Znumtheory.
From S2P Require Import Prelude Platform Types Misc SpInt SpArith SpShift SpMul SpDiv SpMod.

(** ** The constants *)

(** sp_int.c:18166-18185, [_sp_mont_setup]: minus the inverse of the lowest digit. *)
Definition _sp_mont_setup (m : mp_int) : M Z :=
  d ← peek (mp_dp m) 0;
  let x := Z.lxor (w32 (3 * d)) 2 in
  let y := w32 (1 - d * x) in
  let x := w32 (x * (1 + y)) in
  let y := w32 (y * y) in
  let x := w32 (x * (1 + y)) in
  let y := w32 (y * y) in
  let x := w32 (x * (1 + y)) in
  mret (w32 (0 - x)).

(** sp_int.c:18198-18217, [sp_mont_setup] *)
Definition sp_mont_setup (m : mp_int) : M (Z * option Z) :=
  odd ← sp_isodd m;
  if negb odd then mret (MP_VAL, None) else rho ← _sp_mont_setup m; mret (0, Some rho).

(** sp_int.c:18228-18274, [sp_mont_norm]: R modulo [m]. *)
Definition sp_mont_norm (norm m : mp_int) : M (Z * mp_int) :=
  let bits := sp_count_bits m in
  if mp_size norm * 32 <=? bits then mret (MP_VAL, norm)
  else
    let bits := if bits <? 32 then 32 else bits in
    '(err, norm) ← sp_set_bit (_sp_zero norm) bits;
    '(err, norm) ← (if err =? 0 then sp_sub norm m norm else mret (err, norm));
    norm ← (if (err =? 0) && (bits =? 32) then
        x ← peek (mp_dp norm) 0;
        y ← peek (mp_dp m) 0;
        _ ← assert (negb (y =? 0));
        dp ← poke (mp_dp norm) 0 (x mod y);
        mret (set_digits (mp_used norm) dp norm)
      else mret norm);
    mret (err, if err =? 0 then sp_clamp norm else norm).

(** ** The reduction *)

(** misc.c:865-868, [ctMaskIntGTE], as a digit. *)
Definition ctMaskIntGTE (a b : Z) : Z := w32 (Z.shiftr (w32 (a - b)) 31 - 1).

(** sp_int.c:17681-17693, [_sp_mont_red]: the digits above the number count as zeros. *)
Definition mont_clear (a m : mp_int) (ct : bool) : M (list Z) :=
  if ct then
    for_range 0 (mp_used m * 2) (fun i dp => x ← peek dp i; poke dp i (Z.land x (ctMaskIntGTE (mp_used a - 1) i))) (mp_dp a)
  else for_range (mp_used a) (mp_used m * 2) (fun i dp => poke dp i 0) (mp_dp a).

(** sp_int.c:17698-17708, [_sp_mont_red]: a modulus of one digit. *)
Definition mont_one_digit (m : mp_int) (mp : Z) (dp : list Z) : M (list Z) :=
  a0 ← peek dp 0;
  m0 ← peek (mp_dp m) 0;
  let mu := w32 (mp * a0) in
  '(w, dp) ← put_carry dp 0 (w64 (a0 + mu * m0));
  a1 ← peek dp 1;
  '(w, dp) ← put_carry dp 1 (w64 (w + a1));
  poke dp 2 (w32 w).

(** sp_int.c:17733-17753, [_sp_mont_red]: [mu] times the modulus added at digit [i]; [o]
    is the carry into the last digit. *)
Definition mont_row (m : mp_int) (mu i : Z) (s : Z * list Z) : M (Z * list Z) :=
  let '(o, dp) := s in
  x ← peek dp i;
  y ← peek (mp_dp m) 0;
  '(w, dp) ← put_carry dp i (w64 (x + mu * y));
  '(w, dp) ← for_range 1 (mp_used m - 1) (fun j '(w, dp) =>
      x ← peek dp (i + j);
      y ← peek (mp_dp m) j;
      put_carry dp (i + j) (w64 (w + x + mu * y))) (w, dp);
  let j := Z.max 1 (mp_used m - 1) in
  x ← peek dp (i + j);
  let w := w64 (w + o + x) in
  let o := w32 (Z.shiftr w 32) in
  y ← peek (mp_dp m) j;
  '(w, dp) ← put_carry dp (i + j) (w64 (mu * y + w32 w));
  mret (w64 (o + w), dp).

(** sp_int.c:17716-17760, [_sp_mont_red]: a modulus of more digits. *)
Definition mont_digits (m : mp_int) (mp bits : Z) (dp : list Z) : M (list Z) :=
  let mask := w32 (Z.shiftl 1 (Z.land bits 31) - 1) in
  '(o, dp) ← for_range 0 (mp_used m) (fun i '(o, dp) =>
      x ← peek dp i;
      let mu := w32 (mp * x) in
      let mu := if (i =? mp_used m - 1) && negb (mask =? 0) then Z.land mu mask else mu in
      mont_row m mu i (o, dp)) (0, dp);
  x ← peek dp (mp_used m * 2 - 1);
  '(o, dp) ← put_carry dp (mp_used m * 2 - 1) (w64 (o + x));
  poke dp (mp_used m * 2) (w32 o).

(** sp_int.c:17663-17790, [_sp_mont_red] *)
Definition _sp_mont_red (a m : mp_int) (mp : Z) (ct : bool) : M (Z * mp_int) :=
  dp ← mont_clear a m ct;
  '(bits, used, dp) ← (if mp_used m <=? 1
    then dp ← mont_one_digit m mp dp; mret (32, 3, dp)
    else let bits := sp_count_bits m in dp ← mont_digits m mp bits dp; mret (bits, w16 (mp_used m * 2 + 1), dp));
  let a := set_digits used dp a in
  if negb ct then
    let a := sp_clamp a in
    '(_, a) ← sp_rshb a bits a;
    a ← (if negb (_sp_cmp_abs a m =? -1) then _sp_sub_off a m a 0 else mret a);
    mret (0, a)
  else
    '(_, a) ← sp_rshb a bits a;
    let a := sp_clamp_ct a in
    a ← _sp_submod_ct a m m (mp_used m + 1) a;
    mret (0, a).

(** sp_int.c:18129-18152, [sp_mont_red_ex] *)
Definition sp_mont_red_ex (a m : mp_int) (mp : Z) (ct : bool) : M (Z * mp_int) :=
  if mp_used m =? 0 then mret (MP_VAL, a)
  else if mp_size a <? mp_used m * 2 + 1 then mret (MP_VAL, a)
  else _sp_mont_red a m mp ct.

(** ** The inverse of the lowest digit *)

(** [x] is the inverse of [d] up to [y]. *)
Definition near_inverse (d x y : Z) : Prop := exists k, x * d + y = 1 + 2 ^ 32 * k.

Lemma w32_eq x : exists k, w32 x = x + 2 ^ 32 * k.
Proof. exists (- (x / 2 ^ 32)). rewrite w32_mod, Z.mod_eq by lia. lia. Qed.

Lemma near_inverse_step d x y : near_inverse d x y -> near_inverse d (w32 (x * (1 + y))) (w32 (y * y)).
Proof.
  intros [k Hk]. destruct (w32_eq (x * (1 + y))) as [i ->]. destruct (w32_eq (y * y)) as [j ->]. exists (k * (1 + y) + i * d + j).
  replace ((x * (1 + y) + 2 ^ 32 * i) * d + (y * y + 2 ^ 32 * j)) with ((x * d + y) * (1 + y) - y + 2 ^ 32 * (i * d + j)) by ring. rewrite Hk. ring.
Qed.

Lemma square_divides k y : 0 <= 2 * k <= 32 -> (2 ^ k | y) -> (2 ^ (2 * k) | w32 (y * y)).
Proof.
  intros Hk [z Hz]. destruct (w32_eq (y * y)) as [j ->]. apply Z.divide_add_r.
  - exists (z * z). rewrite Hz. replace (2 * k) with (k + k) by lia. rewrite Z.pow_add_r by lia. ring.
  - apply Z.divide_mul_l. exists (2 ^ (32 - 2 * k)). rewrite <-Z.pow_add_r by lia. f_equal. lia.
Qed.

Lemma five_bits d : Z.odd d = true -> (Z.lxor (w32 (3 * d)) 2 * d) mod 32 = 1.
Proof.
  intros Hd. assert (Hx : Z.lxor (w32 (3 * d)) 2 mod 32 = Z.lxor ((3 * (d mod 32)) mod 32) 2).
  { change 32 with (2 ^ 5). rewrite <-!(Z.land_ones _ 5) by lia. apply Z.bits_inj'. intros n Hn. rewrite !Z.land_spec, !Z.lxor_spec, !Z.land_spec.
    destruct (Z.testbit (Z.ones 5) n) eqn:E; rewrite ?andb_true_r, ?andb_false_r.
    - f_equal. assert (n < 5) by (destruct (Z_lt_ge_dec n 5); [done|]; rewrite Z.ones_spec_high in E by lia; done).
      unfold w32. change 0xffffffff with (Z.ones 32). rewrite Z.land_ones, Z.mod_pow2_bits_low by lia.
      rewrite <-(Z.mod_pow2_bits_low (3 * d) 5), <-(Z.mod_pow2_bits_low (3 * Z.land d (Z.ones 5)) 5) by lia. f_equal.
      rewrite Z.land_ones, Zmult_mod_idemp_r by lia. done.
    - destruct (Z_lt_ge_dec n 5); [rewrite Z.ones_spec_low in E by lia; done|]. symmetry. apply Z.bits_above_log2; [done|]. change (Z.log2 2) with 1. lia. }
  rewrite Zmult_mod, Hx. assert (Hodd : Z.odd (d mod 32) = true) by (rewrite (Z.div_mod d 32) in Hd by lia; rewrite Z.odd_add, Z.odd_mul in Hd; done).
  pose proof (Z.mod_pos_bound d 32 ltac:(lia)) as Hr. set (r := d mod 32) in *. clearbody r. clear Hx Hd.
  assert (forall q, (0 <= q < 32)%nat -> Z.odd (Z.of_nat q) = true -> (Z.lxor ((3 * Z.of_nat q) mod 32) 2 * Z.of_nat q) mod 32 = 1) as Hall.
  { intros q Hq. do 32 (destruct q as [|q]; [vm_compute; auto; discriminate|]). lia. }
  specialize (Hall (Z.to_nat r) ltac:(lia)). rewrite Z2Nat.id in Hall by lia. auto.
Qed.

Lemma odd_pow2_coprime M k : Z.odd M = true -> 0 <= k -> Z.gcd M (2 ^ k) = 1.
Proof.
  intros HM Hk. revert k Hk. apply natlike_ind; [apply Z.gcd_1_r|]. intros k Hk IH. by rewrite Z.pow_succ_r, Z.gcd_comm, gcd_half, Z.gcd_comm by done.
Qed.

Section Mont.
Context (e : env).

Lemma _sp_mont_setup_is nm M m : sp_is nm M m -> Z.odd M = true ->
  calc e 0 (_sp_mont_setup m) (fun rho => 0 <= rho < 2 ^ 32 /\ (2 ^ 32 | rho * M + 1)).
Proof.
  intros Hm HM. assert (Hu : mp_used m <> 0) by (intros E; apply (sp_is_0 Hm) in E; by rewrite E in HM).
  pose proof (sb_len _ _ (si_box _ _ _ Hm)). pose proof (si_used _ _ _ Hm). destruct (low_digit _ _ _ Hm Hu) as (h & Hh & _).
  unfold _sp_mont_setup. sp_steps. set (d := (mp_dp m).[0]) in *. set (x0 := Z.lxor _ 2). set (y0 := w32 (1 - d * x0)).
  assert (Hd : Z.odd d = true) by (rewrite Hh, Z.odd_add, Z.odd_mul in HM; by destruct (Z.odd d)).
  assert (N0 : near_inverse d x0 y0) by (unfold y0; destruct (w32_eq (1 - d * x0)) as [k ->]; exists k; ring).
  assert (D0 : (2 ^ 5 | y0)).
  { unfold y0. destruct (w32_eq (1 - d * x0)) as [k ->]. apply Z.divide_add_r; [|apply Z.divide_mul_l; by exists (2 ^ 27)].
    pose proof (five_bits d Hd) as H5. fold x0 in H5. exists (- (x0 * d / 32)). change (2 ^ 5) with 32. rewrite (Z.mul_comm d), (Z.div_mod (x0 * d) 32) at 1 by lia. lia. }
  pose proof (near_inverse_step _ _ _ N0) as N1. pose proof (square_divides 5 _ ltac:(lia) D0) as D1. set (x1 := w32 (x0 * (1 + y0))) in *. set (y1 := w32 (y0 * y0)) in *.
  pose proof (near_inverse_step _ _ _ N1) as N2. pose proof (square_divides 10 _ ltac:(lia) D1) as D2. set (x2 := w32 (x1 * (1 + y1))) in *. set (y2 := w32 (y1 * y1)) in *.
  clearbody x2 y2. clear N0 N1 D0 D1. destruct N2 as [k Hk], D2 as [z Hz]. split.
  { rewrite w32_mod. apply Z.mod_pos_bound. lia. }
  destruct (w32_eq (0 - w32 (x2 * (1 + y2)))) as [i ->]. destruct (w32_eq (x2 * (1 + y2))) as [j ->].
  exists (i * M - j * M - x2 * (1 + y2) * h - k * (1 + y2) + z * z * 2 ^ 8).
  assert (x2 * (1 + y2) * d = (1 + 2 ^ 32 * k - y2) * (1 + y2)) as E by (rewrite <-Hk; ring).
  assert (y2 * y2 = 2 ^ 32 * (z * z * 2 ^ 8)) as E2 by (rewrite Hz; change (2 ^ (2 * 10)) with (2 ^ 20); ring). rewrite Hh.
  replace ((0 - (x2 * (1 + y2) + 2 ^ 32 * j) + 2 ^ 32 * i) * (d + 2 ^ 32 * h) + 1) with (1 - x2 * (1 + y2) * d + 2 ^ 32 * ((i - j) * (d + 2 ^ 32 * h) - x2 * (1 + y2) * h)) by ring.
  rewrite E. replace (1 - (1 + 2 ^ 32 * k - y2) * (1 + y2)) with (y2 * y2 - 2 ^ 32 * (k * (1 + y2))) by ring. rewrite E2. ring.
Qed.

(** ** Adding the multiple of the modulus *)

Lemma ctMaskIntGTE_is a b : 0 <= a < 2 ^ 30 -> -1 <= b < 2 ^ 30 -> ctMaskIntGTE b a = if a <=? b then 0xffffffff else 0.
Proof.
  intros Ha Hb. unfold ctMaskIntGTE. rewrite Z.shiftr_div_pow2, !w32_mod by lia. destruct (Z.leb_spec a b).
  - rewrite (Z.mod_small (b - a)), Z.div_small by lia. done.
  - replace ((b - a) mod 2 ^ 32) with (b - a + 2 ^ 32) by (apply (Z.mod_unique _ _ (-1)); lia).
    replace ((b - a + 2 ^ 32) / 2 ^ 31) with 1 by (apply (Z.div_unique _ _ _ (b - a + 2 ^ 31)); lia). done.
Qed.

Lemma land_digit_mask x : 0 <= x < 2 ^ 32 -> Z.land x 0xffffffff = x.
Proof. intros H. change (w32 x = x). by apply w32_id. Qed.

Lemma mont_clear_is {B} d n va a m ct (k : list Z -> M B) Q : sp_is n va a -> mp_used a <= mp_used m * 2 -> mp_used m * 2 <= len (mp_dp a) -> mp_used m <= 35 ->
  (forall dp, len dp = len (mp_dp a) -> digits_ok dp -> val dp (mp_used m * 2) = va -> calc e d (k dp) Q) ->
  calc e d (mont_clear a m ct ≫= k) Q.
Proof.
  intros Ha Hle Hl Hm35 Hk. pose proof Ha as [[_ _ _ Hok] Hu _ Hv].
  assert (Hfin : forall dp, len dp = len (mp_dp a) -> (forall i, 0 <= i < mp_used m * 2 -> dp.[i] = if i <? mp_used a then (mp_dp a).[i] else 0) -> val dp (mp_used m * 2) = va).
  { intros dp Hld Hi. rewrite (val_zeros_above dp (mp_used a)), <-Hv; [|lia|lia|].
    - apply val_ext; [lia|lia|lia|]. intros i Hi'. rewrite Hi, (proj2 (Z.ltb_lt _ _)) by lia. done.
    - intros i Hi'. rewrite Hi, (proj2 (Z.ltb_ge _ _)) by lia. done. }
  unfold mont_clear. destruct ct.
  - apply (calc_for_range e (fun i dp => len dp = len (mp_dp a) /\ digits_ok dp /\
      (forall j, 0 <= j < i -> dp.[j] = if j <? mp_used a then (mp_dp a).[j] else 0) /\ (forall j, i <= j -> dp.[j] = (mp_dp a).[j]))); [lia| | |].
    + split; [done|]. split; [done|]. split; [lia|done].
    + intros i dp Hi (Hld & Hd & H1 & H2). sp_steps. rewrite ctMaskIntGTE_is by lia. split; [by rewrite len_poke|].
      assert (Hx : Z.land dp.[i] (if i <=? mp_used a - 1 then 0xffffffff else 0) = if i <? mp_used a then (mp_dp a).[i] else 0).
      { rewrite H2 by lia. pose proof (digit_range (mp_dp a) i Hok). destruct (Z.leb_spec i (mp_used a - 1)), (Z.ltb_spec i (mp_used a)); try lia; [by apply land_digit_mask|by rewrite Z.land_0_r]. }
      rewrite Hx. split; [apply digits_ok_poke; [done|]; pose proof (digit_range (mp_dp a) i Hok); destruct (i <? mp_used a); lia|].
      split; intros j Hj.
      * destruct (Z.eq_dec j i) as [->|]; [by rewrite digit_poke by lia|]. rewrite digit_poke_ne by lia. apply H1. lia.
      * rewrite digit_poke_ne by lia. apply H2. lia.
    + intros dp (Hld & Hd & H1 & _). apply Hk; [done|done|by apply Hfin].
  - apply zero_fill_is; [lia|lia|done|]. intros dp Hld Hd H1 H2. apply Hk; [done|done|]. apply Hfin; [done|]. intros i Hi.
    destruct (Z.ltb_spec i (mp_used a)); [apply H2; lia|apply H1; lia].
Qed.

(** One digit of a row: [t] is written at [k] and carried. *)
Lemma row_digit dp k L t : 0 <= k < L -> L <= len dp ->
  val dp.[k := w32 t] L + pw (k + 1) * Z.shiftr t 32 = val dp L + pw k * (t - dp.[k]).
Proof.
  intros Hk HL. rewrite val_replace, pw_succ, w32_mod, Z.shiftr_div_pow2 by lia. pose proof (Z.div_mod t (2 ^ 32) ltac:(lia)). nia.
Qed.

Section Modulus.
Context (nm M : Z) (m : mp_int).
Hypothesis Hm : sp_is nm M m.
Let u : Z := mp_used m.

Lemma mont_row_is mu i o dp L : 2 <= u -> 0 <= i < u -> L = 2 * u -> L <= len dp -> digits_ok dp -> 0 <= mu < 2 ^ 32 -> 0 <= o <= 2 ^ 32 ->
  calc e 0 (mont_row m mu i (o, dp)) (fun '(o', dp') => len dp' = len dp /\ digits_ok dp' /\ 0 <= o' <= 2 ^ 32 /\
    val dp' L + pw (i + u) * o' = val dp L + pw (i + u - 1) * o + pw i * mu * M).
Proof.
  intros Hu Hi EL HL Hok Hmu Ho. pose proof Hm as [[_ _ Hml Hmd] Hmu' _ Hmv]. fold u in Hmu', Hmv.
  assert (Hprod : forall j, 0 <= mu * (mp_dp m).[j] <= (2 ^ 32 - 1) * (2 ^ 32 - 1)).
  { intros j. pose proof (digit_range (mp_dp m) j Hmd). nia. }
  unfold mont_row. sp_step. sp_step. pose proof (digit_range dp i Hok). pose proof (Hprod 0). rewrite w64_id by lia. sp_step.
  set (t0 := dp.[i] + mu * (mp_dp m).[0]).
  apply (calc_for_range e (fun j '(w, dp') => len dp' = len dp /\ digits_ok dp' /\ 0 <= w < 2 ^ 32 /\ val dp' L + pw (i + j) * w = val dp L + pw i * mu * val (mp_dp m) j)); [fold u; lia| | |].
  - split; [by rewrite len_poke|]. split; [apply digits_ok_poke; [done|apply w32_range]|]. split.
    + pose proof (shiftr_32_range t0 0 (2 ^ 32 - 1) ltac:(lia)). lia.
    + rewrite (row_digit dp i L t0) by lia. pose proof (val_succ (mp_dp m) 0 ltac:(lia)) as E. change (0 + 1) with 1 in E. rewrite E, val_0, pw_0. unfold t0. lia.
  - fold u. intros j [w dp'] Hj (Hl & Hd & Hw & Hv). sp_steps. pose proof (digit_range dp' (i + j) Hd). pose proof (Hprod j). rewrite w64_id by lia.
    set (t := w + dp'.[i + j] + mu * (mp_dp m).[j]). split; [by rewrite len_poke|]. split; [apply digits_ok_poke; [done|apply w32_range]|]. split.
    + pose proof (shiftr_32_range t 0 (2 ^ 32 - 1) ltac:(lia)). lia.
    + rewrite Z.add_assoc, (row_digit dp' (i + j) L t), val_succ by lia. unfold t. rewrite Z.mul_add_distr_l, pw_add in * by lia. lia.
  - fold u. intros [w dp'] (Hl & Hd & Hw & Hv). rewrite Z.max_r by lia. sp_step. pose proof (digit_range dp' (i + (u - 1)) Hd). pose proof (Hprod (u - 1)).
    set (k := i + (u - 1)) in *. rewrite (w64_id (w + o + dp'.[k])) by lia. set (t1 := w + o + dp'.[k]). sp_step. pose proof (w32_range t1).
    rewrite (w64_id (_ + w32 t1)) by lia. set (t2 := mu * (mp_dp m).[u - 1] + w32 t1). sp_steps.
    pose proof (shiftr_32_range t1 0 2 ltac:(lia)). pose proof (shiftr_32_range t2 0 (2 ^ 32 - 1) ltac:(lia)). rewrite (w32_id (Z.shiftr t1 32)) by lia.
    rewrite w64_id by lia. split; [by rewrite len_poke|]. split; [apply digits_ok_poke; [done|apply w32_range]|].
    assert (Et : w32 t1 + 2 ^ 32 * Z.shiftr t1 32 = t1) by (rewrite w32_mod, Z.shiftr_div_pow2 by lia; pose proof (Z.div_mod t1 (2 ^ 32) ltac:(lia)); lia).
    assert (Et2 : w32 t2 + 2 ^ 32 * Z.shiftr t2 32 = t2) by (rewrite w32_mod, Z.shiftr_div_pow2 by lia; pose proof (Z.div_mod t2 (2 ^ 32) ltac:(lia)); lia).
    split; [pose proof (w32_range t2); lia|].
    pose proof (row_digit dp' k L t2 ltac:(lia) ltac:(lia)) as E. rewrite <-Hmv. replace u with (u - 1 + 1) at 3 by lia. rewrite val_succ by lia.
    replace (i + u - 1) with k by lia. replace (i + u) with (k + 1) by lia. rewrite pw_succ in * by lia.
    assert (Hs : pw k * (t2 - dp'.[k]) + 2 ^ 32 * pw k * Z.shiftr t1 32 = pw k * (mu * (mp_dp m).[u - 1]) + pw k * w + pw k * o).
    { replace (pw k * (t2 - dp'.[k]) + _) with (pw k * (t2 - dp'.[k] + 2 ^ 32 * Z.shiftr t1 32)) by ring.
      replace (t2 - dp'.[k] + 2 ^ 32 * Z.shiftr t1 32) with (mu * (mp_dp m).[u - 1] + w + o); [ring|]. unfold t2. unfold t1 in Et at 3. lia. }
    replace (pw i * mu * (val (mp_dp m) (u - 1) + pw (u - 1) * (mp_dp m).[u - 1])) with (pw i * mu * val (mp_dp m) (u - 1) + pw k * (mu * (mp_dp m).[u - 1])).
    + clearbody t2 t1. lia.
    + unfold k. rewrite pw_add by lia. ring.
Qed.

(** The digit that clears [wd] bits of [q]. *)
Lemma clears q x mp mu wd : 0 <= wd <= 32 -> (2 ^ 32 | q - x) -> (2 ^ 32 | mp * M + 1) -> (2 ^ wd | mu - mp * x) -> (2 ^ wd | q + mu * M).
Proof.
  intros Hwd Hq Hmp Hmu. assert (Hd : (2 ^ wd | 2 ^ 32)) by (exists (2 ^ (32 - wd)); rewrite <-Z.pow_add_r by lia; f_equal; lia).
  replace (q + mu * M) with ((q - x) + (mu - mp * x) * M + x * (mp * M + 1)) by ring.
  apply Z.divide_add_r; [apply Z.divide_add_r|]; [exact (Z.divide_trans _ _ _ Hd Hq)|by apply Z.divide_mul_l|apply Z.divide_mul_r; exact (Z.divide_trans _ _ _ Hd Hmp)].
Qed.

Lemma mod_divide x k : 0 <= k -> (2 ^ k | x mod 2 ^ k - x).
Proof. intros Hk. exists (- (x / 2 ^ k)). rewrite Z.mod_eq by (apply Z.pow_nonzero; lia). ring. Qed.

Section Digits.
Context (va mp bits : Z).
Hypothesis Hu2 : 2 <= u.
Hypothesis Hbits : 32 * (u - 1) < bits <= 32 * u.
Hypothesis Hmp : (2 ^ 32 | mp * M + 1).

Let mask : Z := w32 (Z.shiftl 1 (Z.land bits 31) - 1).
Let D (i : Z) : Z := Z.min (32 * i) bits.

Lemma mont_mu i x : 0 <= i < u ->
  (if (i =? u - 1) && negb (mask =? 0) then Z.land (w32 x) mask else w32 x) = w32 x mod 2 ^ (D (i + 1) - 32 * i).
Proof.
  intros Hi. pose proof (w32_range x). assert (Hmask : mask = Z.ones (bits mod 32)).
  { unfold mask. change 31 with (Z.ones 5). rewrite Z.land_ones by lia. change (2 ^ 5) with 32. pose proof (Z.mod_pos_bound bits 32 ltac:(lia)).
    rewrite Z.shiftl_1_l, Z.ones_equiv, <-Z.sub_1_r. apply w32_id. pose proof (Z.pow_lt_mono_r 2 (bits mod 32) 32 ltac:(lia) ltac:(lia) ltac:(lia)).
    assert (0 < 2 ^ (bits mod 32)) by (apply Z.pow_pos_nonneg; lia). lia. }
  assert (Hbm : bits mod 32 = if bits =? 32 * u then 0 else bits - 32 * (u - 1)).
  { destruct (Z.eqb_spec bits (32 * u)) as [->|]; [symmetry; apply (Z.mod_unique _ _ u); lia|symmetry; apply (Z.mod_unique _ _ (u - 1)); lia]. }
  unfold D. destruct (Z.eqb_spec i (u - 1)) as [->|Hne]; cbn [andb].
  - replace (u - 1 + 1) with u by lia. rewrite Z.min_r by lia. rewrite Hmask, Hbm. destruct (Z.eqb_spec bits (32 * u)) as [->|Hb].
    + replace (32 * u - 32 * (u - 1)) with 32 by lia. cbn. by rewrite Z.mod_small by lia.
    + rewrite (proj2 (Z.eqb_neq (Z.ones _) 0)); [cbn [negb]; by rewrite Z.land_ones by lia|].
      rewrite Z.ones_equiv. pose proof (Z.pow_le_mono_r 2 1 (bits - 32 * (u - 1)) ltac:(lia) ltac:(lia)). lia.
  - rewrite Z.min_l by lia. replace (32 * (i + 1) - 32 * i) with 32 by lia. by rewrite Z.mod_small by lia.
Qed.

(** Before digit [i]: some multiple of the modulus is added and the low bits are gone. *)
Definition added (l i : Z) (s : Z * list Z) : Prop :=
  len s.2 = l /\ digits_ok s.2 /\ 0 <= s.1 <= 2 ^ 32 /\
  exists N, 0 <= N < 2 ^ D i /\ val s.2 (2 * u) + pw (i + u - 1) * s.1 = va + M * N /\ (2 ^ D i | va + M * N).

Lemma added_digit l i o dp N : 0 <= i < u -> 2 * u <= l -> len dp = l -> digits_ok dp ->
  val dp (2 * u) + pw (i + u - 1) * o = va + M * N -> (2 ^ D i | va + M * N) ->
  exists q, va + M * N = pw i * q /\ (2 ^ 32 | q - dp.[i]).
Proof.
  intros Hi Hl Hld Hok Hv [q Hq]. unfold D in Hq. rewrite Z.min_l in Hq by lia. fold (pw i) in Hq. exists q. split; [lia|].
  pose proof (pw_pos i ltac:(lia)). pose proof (digit_of_val dp (2 * u) i Hok ltac:(lia) ltac:(lia)) as E.
  replace (val dp (2 * u)) with (pw i * (q - pw (u - 1) * o)) in E by (replace (i + u - 1) with (i + (u - 1)) in Hv by lia; rewrite pw_add in Hv by lia; lia).
  rewrite (Z.mul_comm (pw i)), Z.div_mul in E by lia. rewrite <-E. replace (u - 1) with (u - 2 + 1) by lia. rewrite pw_succ by lia.
  rewrite Z.mod_eq by lia. exists (pw (u - 2) * o + (q - 2 ^ 32 * pw (u - 2) * o) / 2 ^ 32). ring.
Qed.

Lemma mont_digits_is l dp : 2 * u < l -> len dp = l -> digits_ok dp -> val dp (2 * u) = va ->
  calc e 0 (mont_digits m mp bits dp) (fun dp' => len dp' = l /\ digits_ok dp' /\
    exists N, 0 <= N < 2 ^ bits /\ val dp' (2 * u + 1) = va + M * N /\ (2 ^ bits | va + M * N)).
Proof.
  intros Hl Hld Hok Hv. unfold mont_digits. fold u mask. apply (calc_for_range e (added l)); [lia| | |].
  - split; [done|]. split; [done|]. split; [cbn; lia|]. exists 0. cbn [fst snd]. unfold D. rewrite Z.min_l by lia. split; [lia|]. split; [lia|]. apply Z.divide_1_l.
  - intros i [o dp'] Hi (Hl' & Hok' & Ho & N & HN & HvN & Hdiv). cbn [fst snd] in *. sp_step. rewrite mont_mu by done.
    destruct (added_digit l i o dp' N Hi ltac:(lia) Hl' Hok' HvN Hdiv) as (q & Hq & Hqx).
    assert (Hwd : 0 < D (i + 1) - 32 * i <= 32) by (unfold D; lia). set (wd := D (i + 1) - 32 * i) in *. set (mu := w32 (mp * dp'.[i]) mod 2 ^ wd).
    assert (0 < 2 ^ wd <= 2 ^ 32) by (split; [apply Z.pow_pos_nonneg; lia|apply Z.pow_le_mono_r; lia]).
    assert (Hmu : 0 <= mu < 2 ^ wd) by (apply Z.mod_pos_bound; lia).
    eapply calc_mono; [apply (mont_row_is mu i o dp' (2 * u)); [done|done|done|lia|done|lia|done]|].
    intros [o' dp''] (Hl2 & Hok2 & Ho2 & Hv2). split; [cbn; lia|]. split; [done|]. split; [done|]. cbn [fst snd]. exists (N + pw i * mu).
    assert (Di : 2 ^ D i = pw i) by (unfold D, pw; f_equal; lia). assert (Di1 : 2 ^ D (i + 1) = pw i * 2 ^ wd) by (unfold pw; rewrite <-Z.pow_add_r by lia; f_equal; lia).
    pose proof (pw_pos i ltac:(lia)). replace (i + 1 + u - 1) with (i + u) by lia. rewrite Di1. split; [nia|]. split; [rewrite Hv2, HvN; ring|].
    replace (va + M * (N + pw i * mu)) with (pw i * (q + mu * M)) by (rewrite Z.mul_add_distr_l, <-Hq; ring).
    apply Z.mul_divide_mono_l. apply (clears q dp'.[i] mp mu wd); [lia|done|done|].
    replace (mu - mp * dp'.[i]) with ((mu - w32 (mp * dp'.[i])) + (w32 (mp * dp'.[i]) - mp * dp'.[i])) by ring. apply Z.divide_add_r; [apply mod_divide; lia|].
    apply (Z.divide_trans _ (2 ^ 32)); [exists (2 ^ (32 - wd)); rewrite <-Z.pow_add_r by lia; f_equal; lia|]. rewrite w32_mod. apply mod_divide. lia.
  - intros [o dp'] (Hl' & Hok' & Ho & N & HN & HvN & Hdiv). cbn [fst snd] in *. replace (u * 2 - 1) with (2 * u - 1) by lia. sp_step.
    pose proof (digit_range dp' (2 * u - 1) Hok'). rewrite w64_id by lia. set (t := o + dp'.[2 * u - 1]). sp_step. pose proof (shiftr_32_range t 0 2 ltac:(lia)).
    replace (u * 2) with (2 * u) by lia. sp_steps. rewrite (w32_id (Z.shiftr t 32)) by lia. split; [by rewrite !len_poke|].
    split; [apply digits_ok_poke; [apply digits_ok_poke; [done|apply w32_range]|lia]|]. exists N.
    assert (Db : D u = bits) by (unfold D; lia). rewrite Db in *. split; [done|]. split; [|done]. rewrite val_poke by (rewrite len_poke; lia).
    pose proof (row_digit dp' (2 * u - 1) (2 * u) t ltac:(lia) ltac:(lia)) as E. replace (2 * u - 1 + 1) with (2 * u) in E by lia. rewrite E, <-HvN.
    unfold t. replace (u + u - 1) with (2 * u - 1) by lia. ring.
Qed.
End Digits.

Lemma mont_one_digit_is va mp l dp : u = 1 -> (2 ^ 32 | mp * M + 1) -> 2 < l -> len dp = l -> digits_ok dp -> val dp 2 = va ->
  calc e 0 (mont_one_digit m mp dp) (fun dp' => len dp' = l /\ digits_ok dp' /\
    exists N, 0 <= N < 2 ^ 32 /\ val dp' 3 = va + M * N /\ (2 ^ 32 | va + M * N)).
Proof.
  intros Hu Hmp Hl Hld Hok Hv. pose proof Hm as [[_ _ Hml Hmd] Hmu' _ Hmv]. fold u in Hmu', Hmv. rewrite Hu in *.
  assert (H2 : forall dp, 2 <= len dp -> val dp 2 = dp.[0] + 2 ^ 32 * dp.[1]).
  { intros x Hx. pose proof (val_succ x 1 ltac:(lia)) as E1. pose proof (val_succ x 0 ltac:(lia)) as E0. rewrite val_0, pw_0 in E0.
    change (0 + 1) with 1 in E0. change (1 + 1) with 2 in E1. change (pw 1) with (2 ^ 32) in E1. lia. }
  assert (HM0 : M = (mp_dp m).[0]) by (pose proof (val_succ (mp_dp m) 0 ltac:(lia)) as E; rewrite val_0, pw_0 in E; change (0 + 1) with 1 in E; lia).
  pose proof (digit_range dp 0 Hok). pose proof (digit_range dp 1 Hok). pose proof (digit_range (mp_dp m) 0 Hmd).
  unfold mont_one_digit. sp_step. sp_step. set (mu := w32 (mp * dp.[0])). pose proof (w32_range (mp * dp.[0])) as Hmu. fold mu in Hmu. rewrite <-HM0 in *.
  rewrite w64_id by nia. set (t0 := dp.[0] + mu * M). assert (0 <= t0 <= 2 ^ 32 * (2 ^ 32 - 1)) by (unfold t0; nia).
  sp_steps. pose proof (shiftr_32_range t0 0 (2 ^ 32 - 1) ltac:(lia)). rewrite digit_poke_ne by lia.
  rewrite (w64_id (_ + dp.[1])) by lia. set (t1 := Z.shiftr t0 32 + dp.[1]). pose proof (shiftr_32_range t1 0 1 ltac:(lia)). rewrite (w32_id (Z.shiftr t1 32)) by lia.
  split; [by rewrite !len_poke|]. split; [repeat apply digits_ok_poke; [done|apply w32_range|apply w32_range|lia]|]. exists mu. split; [done|]. split.
  - pose proof (val_poke (dp.[0 := w32 t0].[1 := w32 t1]) 2 (Z.shiftr t1 32) ltac:(rewrite !len_poke; lia)) as E. change (2 + 1) with 3 in E. rewrite E.
    pose proof (row_digit (dp.[0 := w32 t0]) 1 2 t1 ltac:(lia) ltac:(rewrite !len_poke; lia)) as E1. change (1 + 1) with 2 in E1. rewrite E1.
    pose proof (row_digit dp 0 2 t0 ltac:(lia) ltac:(lia)) as E0. change (0 + 1) with 1 in E0. rewrite digit_poke_ne by lia. rewrite pw_0 in E0.
    unfold t1, t0 in *. rewrite <-Hv. lia.
  - rewrite <-Hv, (H2 dp) by lia. replace (dp.[0] + 2 ^ 32 * dp.[1] + M * mu) with (dp.[0] + 2 ^ 32 * dp.[1] + mu * M) by ring. apply (clears _ dp.[0] mp mu 32); [lia|exists dp.[1]; lia|done|].
    unfold mu. rewrite w32_mod. apply mod_divide. lia.
Qed.
End Modulus.

(** ** The difference in constant time *)

Lemma count_mask i k : 0 <= i -> w32 ((if i <=? k then 0xffffffff else 0) + Z.b2z (i =? k)) = if i + 1 <=? k then 0xffffffff else 0.
Proof. intros Hi. destruct (Z.leb_spec i k), (Z.eqb_spec i k), (Z.leb_spec (i + 1) k); try lia; done. Qed.

Lemma masked_digit dp i k : digits_ok dp -> 0 <= i -> 0 <= k <= len dp -> Z.land dp.[i] (if i + 1 <=? k then 0xffffffff else 0) * pw i = low dp k (i + 1) - low dp k i.
Proof.
  intros Hd Hi Hk. pose proof (digit_range dp i Hd). destruct (Z.leb_spec (i + 1) k).
  - rewrite land_digit_mask by done. rewrite low_in by lia. lia.
  - rewrite Z.land_0_r, !low_out by lia. lia.
Qed.

Lemma masked_range dp i k : digits_ok dp -> 0 <= Z.land dp.[i] (if i + 1 <=? k then 0xffffffff else 0) < 2 ^ 32.
Proof.
  intros Hd. pose proof (digit_range dp i Hd). destruct (_ <=? k); [by rewrite land_digit_mask|rewrite Z.land_0_r; lia].
Qed.

(** [m] added to the digits of [dp] below its length, or nothing. *)
Lemma add_masked_is {B} d nm vm m dp (neg : bool) (k : list Z -> M B) Q : sp_is nm vm m -> mp_used m <= len dp -> digits_ok dp ->
  (forall dp', len dp' = len dp -> digits_ok dp' ->
    (pw (mp_used m) | val dp' (mp_used m) - (val dp (mp_used m) + (if neg then vm else 0))) -> calc e d (k dp') Q) ->
  calc e d (for_range 0 (mp_used m) (fun i '(w, dp) => x ← peek dp i; z ← peek (mp_dp m) i; put_carry dp i (w + x + Z.land z (w32 (0 - Z.b2z neg)))) (0, dp) ≫= (fun '(_, dp) => k dp)) Q.
Proof.
  intros [[_ _ Hml Hmd] Hmu _ Hmv] Hl Hok Hk. set (u := mp_used m) in *.
  assert (Hneg : forall i, Z.land (mp_dp m).[i] (w32 (0 - Z.b2z neg)) = if neg then (mp_dp m).[i] else 0).
  { intros i. pose proof (digit_range (mp_dp m) i Hmd). destruct neg; cbn [Z.b2z]; [change (w32 (0 - 1)) with 0xffffffff; by apply land_digit_mask|by rewrite Z.land_0_r]. }
  set (R := fun i => val dp i + if neg then val (mp_dp m) i else 0).
  apply (calc_for_range e (fun i s => carrying (len dp) 0 1 R i s /\ forall j, i <= j -> (s.2).[j] = dp.[j])); [lia| | |].
  - split; [|done]. apply carrying_init; [done|lia|]. unfold R. rewrite !val_0. by destruct neg.
  - intros i [w dp'] Hi [Hc Hsame]. pose proof Hc as (Hlen & Hok' & Hw & _). cbn [fst snd] in *. sp_steps. rewrite Hneg, Hsame by lia.
    pose proof (digit_range dp i Hok). pose proof (digit_range (mp_dp m) i Hmd). split.
    + apply (carrying_step _ _ _ _ _ w); [lia|done|apply shiftr_32_range; destruct neg; lia|]. unfold R. rewrite (val_succ dp i) by lia.
      destruct neg; [rewrite (val_succ (mp_dp m) i) by lia|]; lia.
    + cbn [snd]. intros j Hj. rewrite digit_poke_ne by lia. apply Hsame. lia.
  - intros [w dp'] [(Hlen & Hok' & _ & Hv) _]. cbn [fst snd] in *. apply Hk; [done|done|]. exists (- w). unfold R in Hv.
    rewrite Hmv in Hv. lia.
Qed.

Lemma _sp_submod_ct_is na nb nm n va vb M a b m K r (v := if va <? vb then va - vb + M else va - vb) :
  sp_is na va a -> sp_is nb vb b -> sp_is nm M m -> sp_box n r -> mp_used a <= K -> mp_used b <= K -> mp_used m <= K ->
  K <= len (mp_dp a) -> K <= len (mp_dp b) -> K <= n -> 0 <= v < pw (mp_used m) ->
  calc e 0 (_sp_submod_ct a b m K r) (sp_is n v).
Proof.
  intros [[_ _ Hal Had] Hua _ Hva] [[_ _ Hbl Hbd] Hub _ Hvb] Hm Hr HaK HbK HmK HlaK HlbK HKn Hv. pose proof Hr as [Hrs Hn35 Hrl Hrd]. pose proof (si_used _ _ _ Hm) as Hum.
  change SP_INT_DIGITS with 35 in Hn35. unfold _sp_submod_ct. set (ua := mp_used a) in *. set (ub := mp_used b) in *. set (u := mp_used m) in *.
  set (R := fun i => low (mp_dp a) ua i - low (mp_dp b) ub i).
  apply (calc_for_range e (fun i '(w, ma, mb, dp) => carrying (len (mp_dp r)) (-1) 0 R i (w, dp) /\
    ma = (if i <=? ua then 0xffffffff else 0) /\ mb = (if i <=? ub then 0xffffffff else 0))); [lia| | |].
  - split; [apply carrying_init; [done|lia|unfold R; rewrite !low_0 by lia; lia]|]. rewrite !(proj2 (Z.leb_le 0 _)) by lia. done.
  - intros i [[[w ma] mb] dp] Hi (Hc & -> & ->). pose proof Hc as (Hlen & Hok & Hw & _). cbn [fst snd] in *. rewrite !count_mask by lia. sp_steps.
    split; [|done]. pose proof (masked_range (mp_dp a) i ua Had). pose proof (masked_range (mp_dp b) i ub Hbd).
    pose proof (masked_digit (mp_dp a) i ua Had ltac:(lia) ltac:(lia)). pose proof (masked_digit (mp_dp b) i ub Hbd ltac:(lia) ltac:(lia)).
    apply (carrying_step _ _ _ _ _ w); [lia|done|apply shiftr_32_range; lia|]. unfold R. lia.
  - intros [[[w ma] mb] dp] ((Hlen & Hok & Hw & HR) & _). cbn [fst snd] in *. unfold R in HR. rewrite !low_out, Hva, Hvb in HR by lia.
    assert (Hneg : (w <? 0) = (va <? vb)). { pose proof (val_range dp K Hok ltac:(lia)). destruct (Z.ltb_spec w 0), (Z.ltb_spec va vb); try done; nia. }
    rewrite Hneg. apply (add_masked_is 0 nm M m dp (va <? vb) (fun dp => mret (sp_clamp_ct (set_digits (w16 u) dp r)))); [done|lia|done|].
    intros dp' Hl' Hok' Hdiv. sp_steps. fold u in Hdiv. rewrite w16_id by lia.
    assert (E : val dp' u = v).
    { pose proof (val_range dp' u Hok' ltac:(lia)). assert (Hdp : (pw u | val dp u - (va - vb))).
      { pose proof (val_split dp u (K - u) ltac:(lia) ltac:(lia) ltac:(lia)) as Es. replace (u + (K - u)) with K in Es by lia.
        exists (- pw (K - u) * w - val (drop (Z.to_nat u) dp) (K - u)). rewrite Es in HR. replace K with (u + (K - u)) in HR at 2 by lia. rewrite (pw_add u) in HR by lia. lia. }
      assert (Hd2 : (pw u | val dp' u - v)).
      { replace (val dp' u - v) with (val dp' u - (val dp u + (if va <? vb then M else 0)) + (val dp u - (va - vb))) by (unfold v; destruct (va <? vb); lia).
        by apply Z.divide_add_r. }
      destruct Hd2 as [z Hz]. assert (z = 0) by nia. lia. }
    rewrite <-E. apply (sp_clamp_ct_is n (set_digits u dp' r)); [apply sp_box_set; [done|lia|done]|cbn; lia].
Qed.

(** ** The reduction *)

Definition mont_bits (M : Z) : Z := Z.max 32 (bits M).

(** [x] is [v] divided by [R] modulo [M]. *)
Definition redc (M R v x : Z) : Prop := 0 <= x < M /\ (M | x * R - v).

Lemma mont_bits_used nm M m : sp_is nm M m -> 0 < M ->
  mont_bits M = (if mp_used m <=? 1 then 32 else sp_count_bits m) /\ 0 <= mont_bits M <= 32 * mp_used m /\
  (2 <= mp_used m -> 32 * (mp_used m - 1) < mont_bits M) /\ M < 2 ^ mont_bits M.
Proof.
  intros Hm HM. pose proof (sp_is_range Hm) as Hr. assert (Hu0 : mp_used m <> 0) by (intros E; apply (sp_is_0 Hm) in E; lia). pose proof (sp_is_top Hm Hu0) as Ht.
  pose proof (si_used _ _ _ Hm). rewrite (sp_count_bits_bits _ _ _ Hm). unfold mont_bits, bits, pw in *. rewrite (proj2 (Z.eqb_neq M 0)) by lia.
  assert (Z.log2 M < 32 * mp_used m) by (apply Z.log2_lt_pow2; lia). assert (32 * (mp_used m - 1) <= Z.log2 M) by (apply Z.log2_le_pow2; lia).
  assert (M < 2 ^ Z.max 32 (Z.log2 M + 1)).
  { pose proof (Z.log2_spec M HM) as [_ Hl]. pose proof (Z.pow_le_mono_r 2 (Z.succ (Z.log2 M)) (Z.max 32 (Z.log2 M + 1)) ltac:(lia) ltac:(lia)). lia. }
  destruct (Z.leb_spec (mp_used m) 1); lia.
Qed.

Lemma redc_of M R va N : 0 < M -> 0 < R -> 0 <= va < M * R -> 0 <= N < R -> (R | va + M * N) ->
  let X := (va + M * N) / R in 0 <= X < 2 * M /\ redc M R va (if X <? M then X else X - M).
Proof.
  intros HM HR Hva HN [X HX]. cbv zeta. rewrite HX, Z.div_mul by lia. assert (0 <= X < 2 * M) by nia. split; [done|].
  destruct (Z.ltb_spec X M); (split; [lia|]); [exists N|exists (N - R)]; lia.
Qed.

Section Reduce.
Context (n nm va M mp : Z) (a m : mp_int) (ct : bool).
Hypothesis Ha : sp_is n va a.
Hypothesis Hm : sp_is nm M m.
Hypothesis HM : 0 < M.
Hypothesis Hva : va < M * 2 ^ mont_bits M.
Hypothesis Hmp : (2 ^ 32 | mp * M + 1).
Hypothesis Hn : 2 * mp_used m + 1 <= n.

Lemma mont_add_is dp (l := len (mp_dp a)) : len dp = l -> digits_ok dp -> val dp (mp_used m * 2) = va ->
  calc e 0 (if mp_used m <=? 1
    then dp ← mont_one_digit m mp dp; mret (32, 3, dp)
    else let bits := sp_count_bits m in dp ← mont_digits m mp bits dp; mret (bits, w16 (mp_used m * 2 + 1), dp))
  (fun '(b, used, dp') => b = mont_bits M /\ used = 2 * mp_used m + 1 /\ len dp' = l /\ digits_ok dp' /\
    exists N, 0 <= N < 2 ^ b /\ val dp' used = va + M * N /\ (2 ^ b | va + M * N)).
Proof.
  intros Hl Hok Hv. destruct (mont_bits_used _ _ _ Hm HM) as (Hb & Hb1 & Hb2 & _). pose proof (sb_len _ _ (si_box _ _ _ Ha)). pose proof (sb_n _ _ (si_box _ _ _ Ha)) as Hn35.
  change SP_INT_DIGITS with 35 in Hn35. assert (Hu0 : mp_used m <> 0) by (intros E; apply (sp_is_0 Hm) in E; lia). pose proof (si_used _ _ _ Hm).
  destruct (Z.leb_spec (mp_used m) 1).
  - assert (Hu : mp_used m = 1) by lia. rewrite Hu in *. change (1 * 2) with 2 in *.
    eapply calc_bind; [apply (mont_one_digit_is nm M m Hm va mp l); [done|done|lia|done|done|done]|]. intros dp' (? & ? & N & HN). sp_steps.
    split; [done|]. split; [done|]. split; [done|]. split; [done|]. by exists N.
  - rewrite (Z.mul_comm _ 2) in Hv.
    eapply calc_bind; [apply (mont_digits_is nm M m Hm va mp (sp_count_bits m) ltac:(lia) ltac:(rewrite <-Hb; lia) Hmp l dp); [lia|done|done|done]|].
    intros dp' (? & ? & N & HN). sp_steps. rewrite w16_id by lia. split; [done|]. split; [lia|]. split; [done|]. split; [done|]. exists N. by rewrite (Z.mul_comm _ 2).
Qed.

Lemma _sp_mont_red_is : (ct = true -> mp_used m < len (mp_dp m)) ->
  calc e 0 (_sp_mont_red a m mp ct) (fun '(err, a') => err = 0 /\ exists x, sp_is n x a' /\ redc M (2 ^ mont_bits M) va x).
Proof.
  intros Hct. destruct (mont_bits_used _ _ _ Hm HM) as (_ & Hb1 & _ & HMR). pose proof Ha as [[Has Hn35 Hal Haok] Hua _ Hav]. pose proof (sp_is_range Ha) as Hvr.
  pose proof (si_used _ _ _ Hm). pose proof (sp_is_range Hm) as Hmr. change SP_INT_DIGITS with 35 in Hn35. assert (HR : 0 < 2 ^ mont_bits M) by (apply Z.pow_pos_nonneg; lia).
  assert (Hua2 : mp_used a <= mp_used m * 2).
  { apply (sp_is_used Ha); [lia|]. replace (mp_used m * 2) with (mp_used m + mp_used m) by lia. rewrite pw_add by lia.
    assert (2 ^ mont_bits M <= pw (mp_used m)) by (apply Z.pow_le_mono_r; lia). nia. }
  unfold _sp_mont_red. apply (mont_clear_is 0 n va a m ct); [done|done|lia|lia|]. intros dp Hld Hdok Hdv.
  eapply calc_bind; [by apply mont_add_is|]. intros [[b used] dp'] (-> & -> & Hl & Hok & N & HN & Hv & Hdiv).
  destruct (redc_of M _ va N HM HR ltac:(lia) HN Hdiv) as [HX Hred]. rewrite <-Hv in HX, Hred. set (X := val dp' _ / 2 ^ mont_bits M) in *.
  set (a1 := set_digits (2 * mp_used m + 1) dp' a).
  assert (Hraw : sp_raw n (val dp' (2 * mp_used m + 1)) a1) by (split; [by apply sp_box_set; [destruct Ha|lia|]|cbn; lia|done]).
  assert (Hdiv32 : 0 <= mont_bits M / 32) by (apply Z.div_pos; lia). destruct ct; cbn [negb].
  - eapply calc_bind; [apply (sp_rshb_raw e n n _ a1 a1 (mont_bits M) Hraw); [by destruct Hraw|lia|cbn; lia]|]. intros [err a2] (-> & [Hb2 Hu2 Hv2] & _).
    pose proof (sp_clamp_ct_is n a2 Hb2 Hu2) as Ha3. rewrite Hv2 in Ha3. fold X in Ha3. set (a3 := sp_clamp_ct a2) in *. pose proof (sb_len _ _ (si_box _ _ _ Ha3)).
    eapply calc_bind; [apply (_sp_submod_ct_is n nm nm n X M M a3 m m (mp_used m + 1) a3 Ha3 Hm Hm)|].
    + by destruct Ha3.
    + apply (sp_is_used Ha3); [lia|]. rewrite pw_succ by lia. lia.
    + lia.
    + lia.
    + lia.
    + specialize (Hct eq_refl). lia.
    + lia.
    + destruct (Z.ltb_spec X M); lia.
    + intros a4 Ha4. sp_steps. split; [done|]. eexists. split; [exact Ha4|]. destruct (X <? M); [|done]. by replace (X - M + M) with X by lia.
  - pose proof (sp_clamp_is n a1 (sw_box _ _ _ Hraw) (sw_used _ _ _ Hraw)) as Hc. rewrite (sw_val _ _ _ Hraw) in Hc. set (a2 := sp_clamp a1) in *. pose proof (si_used _ _ _ Hc).
    eapply calc_bind; [apply (sp_rshb_is e n n _ a2 a2 (mont_bits M) Hc); [by destruct Hc|lia|lia]|]. intros [err a3] (-> & Ha3). fold X in Ha3.
    rewrite (sp_cmp_lt n nm X M) by done. destruct (X <? M) eqn:EX; cbn [negb].
    + sp_steps. split; [done|]. by exists X.
    + apply Z.ltb_ge in EX. eapply calc_bind; [by apply (sub_self e n nm X M)|]. intros a4 Ha4. sp_steps. split; [done|]. by exists (X - M).
Qed.
End Reduce.

Lemma sp_mont_norm_is n nm M norm m : sp_box n norm -> sp_is nm M m -> 0 < M -> Z.odd M = true -> mp_used m < n ->
  calc e 0 (sp_mont_norm norm m) (fun '(err, norm') => err = 0 /\ sp_is n (2 ^ mont_bits M mod M) norm').
Proof.
  intros Hb Hm HM HMo Hn. destruct (mont_bits_used _ _ _ Hm HM) as (_ & Hb1 & Hb2 & HMR). pose proof (sp_is_range Hm) as Hmr. pose proof (si_used _ _ _ Hm).
  assert (Hu0 : mp_used m <> 0) by (intros E; apply (sp_is_0 Hm) in E; lia). unfold sp_mont_norm. rewrite (sb_size _ _ Hb), (sp_count_bits_bits _ _ _ Hm).
  replace (if bits M <? 32 then 32 else bits M) with (mont_bits M) by (unfold mont_bits; destruct (Z.ltb_spec (bits M) 32); lia).
  rewrite (proj2 (Z.leb_gt (n * 32) _)) by (unfold mont_bits in *; lia). assert (32 <= mont_bits M) by (unfold mont_bits; lia).
  assert (Hin : mont_bits M / 32 <= mp_used m) by (apply Z.div_le_upper_bound; lia).
  eapply calc_bind; [apply (sp_set_bit_is e n 0); [by apply sp_zero_is|lia|lia]|]. intros [err x] [-> Hx]. rewrite Z.lor_0_l in Hx. cbn [Z.eqb].
  eapply calc_bind; [apply (sp_sub_is e n nm n _ M x m x Hx Hm); [by destruct Hx|lia]|]. intros [err y] Hy. pose proof (si_used _ _ _ Hx).
  rewrite (proj2 (Z.ltb_ge n _)) in Hy by lia. destruct Hy as [-> Hy]. cbn [Z.eqb andb]. set (b := mont_bits M) in *. pose proof Hy as [Hyb Hyu _ Hyv]. pose proof Hyb as [Hys Hyn Hyl Hyd].
  destruct (Z.eqb_spec b 32) as [E32|E32].
  - assert (Hum : mp_used m = 1) by lia. destruct (low_digit _ _ _ Hm Hu0) as (h & Hh & _ & Hh0). rewrite (Hh0 Hum), Z.mul_0_r, Z.add_0_r in Hh.
    assert (Hy1 : mp_used y = 1).
    { assert (mp_used y <> 0) by (intros E; apply (sp_is_0 Hy) in E; lia).
      assert (mp_used y <= 1); [|lia]. apply (sp_is_used Hy); [lia|]. change (pw 1) with (2 ^ 32). rewrite E32. lia. }
    destruct (low_digit _ _ _ Hy ltac:(lia)) as (h' & Hh' & _ & Hh0'). rewrite (Hh0' Hy1), Z.mul_0_r, Z.add_0_r in Hh'. pose proof (sb_len _ _ (si_box _ _ _ Hm)).
    repeat sp_step. apply calc_assert; [apply negb_true_iff, Z.eqb_neq; lia|]. sp_steps. rewrite <-Hh, <-Hh', Hy1. split; [done|].
    pose proof (Z.mod_pos_bound (2 ^ b - M) M HM). assert (M < 2 ^ 32) by (by rewrite <-E32).
    apply sp_finish; [done|by rewrite len_poke|apply digits_ok_poke; [done|]; pose proof (digit_range (mp_dp y) 0 Hyd); lia|lia|].
    change 1 with (0 + 1). rewrite val_poke, val_0, pw_0 by lia. rewrite Z.add_0_l, Z.mul_1_l. replace (2 ^ b - M) with (2 ^ b + (-1) * M) by lia. by rewrite Z_mod_plus_full.
  - sp_steps. split; [done|]. replace (2 ^ b mod M) with (val (mp_dp y) (mp_used y)); [by apply sp_clamp_is|]. rewrite Hyv.
    apply (Z.mod_unique _ _ 1); [|lia]. assert (Hbm : bits M = Z.log2 M + 1) by (unfold bits; by rewrite (proj2 (Z.eqb_neq M 0)) by lia).
    assert (Hlog : b = Z.succ (Z.log2 M)) by (unfold b, mont_bits in *; lia). pose proof (Z.log2_spec M HM) as [Hlo _]. pose proof (Z.log2_nonneg M).
    assert (2 ^ Z.log2 M <> M).
    { intros E. rewrite <-E in HMo. replace (Z.log2 M) with (Z.succ (Z.log2 M - 1)) in HMo by lia. rewrite Z.pow_succ_r, Z.odd_mul in HMo by lia. done. }
    rewrite Hlog in *. rewrite Z.pow_succ_r in * by done. lia.
Qed.
End Mont.

(** A modulus zero passes the tests of [sp_mont_norm], which then divides by it. *)
Lemma sp_mont_norm_zero w : sp_mont_norm (sp_lit 3 0) (sp_lit 3 0) w = Fault.
Proof. reflexivity. Qed.

(** C25. Montgomery reduction.  For an odd modulus of [u] digits, the constant of
    [sp_mont_setup] and a number below the modulus times R in an object of at least
    2 [u] + 1 digits, [sp_mont_red_ex] answers, without keeping memory or leaving its objects,
    the number below the modulus that times R is congruent to its argument; the
    constant-time variant, which reads one digit past the modulus, answers the same. *)
Theorem sp_mont_red_exact e n nm va M a m : sp_is n va a -> sp_is nm M m -> Z.odd M = true -> va < M * 2 ^ mont_bits M ->
  2 * mp_used m + 1 <= n -> mp_used m < len (mp_dp m) ->
  calc e 0
    ('(err, rho) ← sp_mont_setup m;
     '(err1, x) ← sp_mont_red_ex a m (default 0 rho) false;
     '(err2, y) ← sp_mont_red_ex a m (default 0 rho) true;
     mret (err, err1, err2, x, y))
    (fun '(err, err1, err2, x, y) => err = 0 /\ err1 = 0 /\ err2 = 0 /\
       exists v, sp_is n v x /\ sp_is n v y /\ 0 <= v < M /\ (v * 2 ^ mont_bits M) mod M = va mod M).
Proof.
  intros Ha Hm HM Hva Hn Hl. pose proof (sp_is_range Hm). assert (HM0 : 0 < M) by (destruct (Z.eq_dec M 0) as [->|]; [done|lia]).
  assert (Hu0 : mp_used m <> 0) by (intros E; apply (sp_is_0 Hm) in E; lia). unfold sp_mont_setup.
  apply calc_assoc. eapply calc_isodd; [done|]. rewrite HM. cbn [negb]. apply calc_assoc.
  eapply calc_bind; [by apply (_sp_mont_setup_is e nm M m)|]. intros rho [_ Hrho]. sp_steps. cbn [default].
  unfold sp_mont_red_ex. rewrite (proj2 (Z.eqb_neq _ 0)), (sb_size _ _ (si_box _ _ _ Ha)), (proj2 (Z.ltb_ge n _)) by lia.
  eapply calc_bind; [by apply (_sp_mont_red_is e n nm va M rho a m false)|]. intros [err1 x] (-> & v & Hx & Hv1 & Hv2).
  eapply calc_bind; [by apply (_sp_mont_red_is e n nm va M rho a m true)|]. intros [err2 y] (-> & v' & Hy & Hv1' & Hv2'). sp_steps.
  assert (v' = v) as ->; [|split; [done|]; split; [done|]; split; [done|]; exists v; split; [done|]; split; [done|]; split; [done|]].
  - assert (Hg : (M | v' - v)).
    { apply (Z.gauss _ (2 ^ mont_bits M)).
      - replace (2 ^ mont_bits M * (v' - v)) with ((v' * 2 ^ mont_bits M - va) - (v * 2 ^ mont_bits M - va)) by ring. by apply Z.divide_sub_r.
      - apply odd_pow2_coprime; [done|]. unfold mont_bits. lia. }
    destruct Hg as [k Hk]. assert (k = 0) by nia. lia.
  - destruct Hv2 as [k Hk]. replace (v * 2 ^ mont_bits M) with (va + k * M) by lia. apply Z_mod_plus_full.
Qed.

Lemma sp_mont_red_exact_witness :
  let M := 0xffffffff00000001000000000000000000000000ffffffffffffffffffffffff in
  let va := 0xfedcba9876543210fedcba9876543210fedcba9876543210fedcba98765432100123456789abcdef0123456789abcdef in
  calc env_plenty 0
    ('(err, rho) ← sp_mont_setup (sp_lit 9 M);
     '(err1, x) ← sp_mont_red_ex (sp_lit 17 va) (sp_lit 9 M) (default 0 rho) false;
     '(err2, y) ← sp_mont_red_ex (sp_lit 17 va) (sp_lit 9 M) (default 0 rho) true;
     mret (err, err1, err2, x, y))
    (fun '(err, err1, err2, x, y) => err1 = 0 /\ err2 = 0 /\ sp_val x = sp_val y /\ sp_val x < M /\ (sp_val x * 2 ^ 256) mod M = va mod M).
Proof.
  intros M va. eapply calc_mono.
  - apply (sp_mont_red_exact env_plenty 17 9 va M).
    1, 2: apply sp_lit_is; [done|split; [done|reflexivity]].
    + reflexivity.
    + reflexivity.
    + vm_compute. discriminate.
    + reflexivity.
  - intros [[[[err err1] err2] x] y] (-> & -> & -> & v & Hx & Hy & Hv & Hr). rewrite (sp_is_sp_val _ _ _ Hx), (sp_is_sp_val _ _ _ Hy).
    split; [done|]. split; [done|]. split; [done|]. split; [apply Hv|exact Hr].
Defined.
