(* ===== verification/SpExp.v ===== *)
(** * SpExp: modular exponentiation of sp_int.c

    Powers modulo a number: square and multiply with a dummy operand in place of the
    branches, the same in Montgomery form for an odd modulus of several digits, and
    windows of four bits for the base two.  The theorem shows that [sp_exptmod] computes
    the power of the integers whichever of the three it takes. *)

From Stdlib Require Import Znumtheory.
From S2P Require Import Prelude Platform Types Misc SpInt SpArith SpShift SpMul SpDiv SpMod SpMont.

(** ** Square and multiply *)

(** sp_int.c:13248-13250, [_sp_exptmod_ex]: the operand a flag picks, by its address. *)
Definition pick (s : Z) (t0 t1 : mp_int) : mp_int := if s =? 0 then t0 else t1.

(** sp_int.c:13257-13259, [_sp_exptmod_ex]: copying back to it. *)
Definition put (s : Z) (x t0 t1 : mp_int) : mp_int * mp_int := if s =? 0 then (_sp_copy x t0, t1) else (t0, _sp_copy x t1).

(** sp_int.c:13264-13265, [_sp_exptmod_ex]: a bit of the exponent. *)
Definition exp_bit (e : mp_int) (i : Z) : M Z :=
  d ← peek (mp_dp e) (Z.shiftr i 5); mret (Z.land (Z.shiftr d (Z.land i 31)) 1).

(** sp_int.c:13228-13290, [_sp_exptmod_ex]: the loop, from bit [n - 1] down, over the
    squaring and the multiplication by the base. *)
Fixpoint exp_loop (sqr mul : mp_int -> M (Z * mp_int)) (e : mp_int) (n : nat) (s : Z) (t0 t1 t2 : mp_int) : M (Z * mp_int) :=
  match n with
  | O => mret (0, t1)
  | S n =>
    let x := _sp_copy (pick s t0 t1) t2 in
    '(err, x) ← sqr x;
    let '(t0, t1) := put s x t0 t1 in
    if negb (err =? 0) then mret (err, t1)
    else
      y ← exp_bit e (Z.of_nat n);
      let j := Z.land y s in
      let s := Z.lor s y in
      let x := _sp_copy (pick j t0 t1) x in
      '(err, x) ← mul x;
      let '(t0, t1) := put j x t0 t1 in
      if negb (err =? 0) then mret (err, t1) else exp_loop sqr mul e n s t0 t1 x
  end.

(** sp_int.c:13225-13291, [_sp_exptmod_ex], with the base in [t0]. *)
Definition exptmod_body (b e : mp_int) (bits : Z) (m t0 t : mp_int) : M (Z * mp_int) :=
  exp_loop (fun x => sp_sqrmod x m x false) (fun x => _sp_mulmod x b m x false) e (Z.to_nat bits) 0 t0 (_sp_copy t0 t) t.

(** sp_int.c:13207-13219, [_sp_exptmod_ex], and sp_int.c:13461-13473,
    [_sp_exptmod_mont_ex]: the base reduced into [t]; [None] when it is zero. *)
Definition reduced_base (b m t : mp_int) : M (Z * option mp_int) :=
  if negb (_sp_cmp_abs b m =? -1) then
    '(err, t) ← sp_mod b m t false;
    mret (err, if (err =? 0) && (mp_used t =? 0) then None else Some t)
  else mret (0, Some (_sp_copy b t)).

(** sp_int.c:13175-13299, [_sp_exptmod_ex] *)
Definition _sp_exptmod_ex (b e : mp_int) (bits : Z) (m r : mp_int) : M (Z * mp_int) :=
  let n := 2 * mp_used m + 1 in
  '(err, td) ← ALLOC_SP_INT n 0;
  '(err, r) ← (if err =? 0 then
      let t := _sp_init_size (new_sp_int n) (w16 n) in
      '(err, t0) ← reduced_base b m t;
      if negb (err =? 0) then mret (err, r)
      else match t0 with
           | None => mret (0, _sp_set r 0)
           | Some t0 =>
             '(err, t1) ← exptmod_body b e bits m t0 t;
             mret (err, if err =? 0 then _sp_copy t1 r else r)
           end
    else mret (err, r));
  _ ← XFREE td;
  mret (err, r).

(** ** In Montgomery form *)

(** sp_int.c:13514-13517, [_sp_exptmod_mont_ex] *)
Definition mont_sqr (x m : mp_int) (mp : Z) : M (Z * mp_int) :=
  '(err, x) ← sp_sqr x x; if err =? 0 then _sp_mont_red x m mp false else mret (err, x).

(** sp_int.c:13545-13548, [_sp_exptmod_mont_ex] *)
Definition mont_mul (x y m : mp_int) (mp : Z) : M (Z * mp_int) :=
  '(err, x) ← sp_mul x y x; if err =? 0 then _sp_mont_red x m mp false else mret (err, x).

(** sp_int.c:13504-13558, [_sp_exptmod_mont_ex]: the same loop in Montgomery form, with
    the base in [t2]. *)
Definition exptmod_mont_loop (n : nat) (e m : mp_int) (mp : Z) (t0 t1 t2 t3 : mp_int) : M (Z * mp_int) :=
  exp_loop (fun x => mont_sqr x m mp) (fun x => mont_mul x t2 m mp) e n 0 t0 t1 t3.

(** sp_int.c:13482-13563, [_sp_exptmod_mont_ex], with the base in [t0]. *)
Definition exptmod_mont_body (e : mp_int) (bits : Z) (m t0 t : mp_int) : M (Z * mp_int) :=
  mp ← _sp_mont_setup m;
  '(err, t1) ← sp_mont_norm t m;
  '(err, t0) ← (if err =? 0 then sp_mul t0 t1 t0 else mret (err, t0));
  '(err, t0) ← (if err =? 0 then
      '(err, _, rem) ← _sp_div t0 m None (Some t0) (mp_used t0 + 1) false false; mret (err, default t0 rem)
    else mret (err, t0));
  if negb (err =? 0) then mret (err, t0)
  else
    '(err, t1) ← exptmod_mont_loop (Z.to_nat bits) e m mp t0 (_sp_copy t0 t1) (_sp_copy t0 t) t;
    if err =? 0 then _sp_mont_red t1 m mp false else mret (err, t1).

(** sp_int.c:13444-13572, [_sp_exptmod_mont_ex] *)
Definition _sp_exptmod_mont_ex (b e : mp_int) (bits : Z) (m r : mp_int) : M (Z * mp_int) :=
  let n := mp_used m * 2 + 1 in
  '(err, td) ← ALLOC_SP_INT n 0;
  '(err, r) ← (if err =? 0 then
      let t := _sp_init_size (new_sp_int n) (w16 n) in
      '(err, t0) ← reduced_base b m t;
      if negb (err =? 0) then mret (err, r)
      else match t0 with
           | None => mret (0, _sp_set r 0)
           | Some t0 =>
             '(err, t1) ← exptmod_mont_body e bits m t0 t;
             mret (err, if err =? 0 then _sp_copy t1 r else r)
           end
    else mret (err, r));
  _ ← XFREE td;
  mret (err, r).

(** ** Powers of two *)

(** sp_int.c:14095-14118, [_sp_exptmod_base_2]: four more bits of the exponent; [n] holds
    the bits of a digit that are left, [c] of them. *)
Definition exp2_window (e : mp_int) (i c n : Z) : M (Z * Z * Z * Z) :=
  if c =? 0 then n ← peek (mp_dp e) i; mret (Z.shiftr n 28, i - 1, 28, w32 (Z.shiftl n 4))
  else mret (Z.land (Z.shiftr n 28) 15, i, c - 4, w32 (Z.shiftl n 4)).

(** sp_int.c:14121-14131, [_sp_exptmod_base_2]: [k] squarings. *)
Fixpoint exp2_squares (k : nat) (m : mp_int) (mp : Z) (useMont : bool) (tr : mp_int) : M (Z * mp_int) :=
  match k with
  | O => mret (0, tr)
  | S k =>
    '(err, tr) ← (if useMont then mont_sqr tr m mp
                  else '(err, tr) ← sp_sqr tr tr; if err =? 0 then sp_mod tr m tr false else mret (err, tr));
    if err =? 0 then exp2_squares k m mp useMont tr else mret (err, tr)
  end.

(** sp_int.c:14134-14146, [_sp_exptmod_base_2]: times 2 to [y]; [a] is a multiple of the
    modulus that gives every number the same length. *)
Definition exp2_times (y : Z) (a m : mp_int) (useMont : bool) (tr : mp_int) : M (Z * mp_int) :=
  '(err, tr) ← sp_mul_2d tr y tr;
  '(err, tr) ← (if (err =? 0) && useMont then sp_add tr a tr else mret (err, tr));
  if err =? 0 then sp_mod tr m tr false else mret (err, tr).

(** sp_int.c:14091-14147, [_sp_exptmod_base_2]: the loop. *)
Fixpoint exp2_loop (fuel : nat) (e a m : mp_int) (mp : Z) (useMont : bool) (i c n : Z) (tr : mp_int) : M (Z * mp_int) :=
  if (0 <=? i) || (4 <=? c) then
    match fuel with
    | O => out_of_fuel
    | S fuel =>
      '(y, i, c, n) ← exp2_window e i c n;
      '(err, tr) ← exp2_squares 4 m mp useMont tr;
      '(err, tr) ← (if err =? 0 then exp2_times y a m useMont tr else mret (err, tr));
      if err =? 0 then exp2_loop fuel e a m mp useMont i c n tr else mret (err, tr)
    end
  else mret (0, tr).

(** sp_int.c:14029-14153, [_sp_exptmod_base_2], from the objects set up. *)
Definition exp2_body (e : mp_int) (digits : Z) (m a tr : mp_int) (useMont : bool) : M (Z * mp_int) :=
  mp ← (if useMont then _sp_mont_setup m else mret 0);
  '(err, tr) ← (if useMont then sp_mont_norm tr m else mret (sp_set tr 1));
  '(err, a) ← (if (err =? 0) && useMont then sp_mul_2d m 16 a else mret (err, a));
  if negb (err =? 0) then mret (err, tr)
  else
    n ← peek (mp_dp e) (digits - 1);
    let i := digits - 2 in
    let c := 32 - (digits * 32) mod 4 in
    let '(y, n, c) := if negb (c =? 32) then (Z.shiftr n c, w32 (Z.shiftl n (32 - c)), c)
                      else (Z.land (Z.shiftr n 28) 15, w32 (Z.shiftl n 4), c - 4) in
    '(err, tr) ← exp2_times y a m useMont tr;
    '(err, tr) ← (if err =? 0 then exp2_loop (Z.to_nat (digits * 8)) e a m mp useMont i c n tr else mret (err, tr));
    if (err =? 0) && useMont then _sp_mont_red tr m mp false else mret (err, tr).

(** sp_int.c:13984-14169, [_sp_exptmod_base_2] *)
Definition _sp_exptmod_base_2 (e : mp_int) (digits : Z) (m r : mp_int) : M (Z * mp_int) :=
  let n := mp_used m * 2 + 1 in
  '(err, dd) ← ALLOC_SP_INT n 0;
  '(err, r) ← (if err =? 0 then
      let t := _sp_init_size (new_sp_int n) (w16 n) in
      '(err, tr) ← exp2_body e digits m t t (1 <? mp_used m);
      mret (err, if err =? 0 then _sp_copy tr r else r)
    else mret (err, r));
  _ ← XFREE dd;
  mret (err, r).

(** ** The choice *)

(** sp_int.c:14191-14354, [sp_exptmod_ex]; [r_is_em] says that the result goes to the
    exponent or the modulus. *)
Definition sp_exptmod_ex (b e : mp_int) (digits : Z) (m r : mp_int) (r_is_em : bool) : M (Z * mp_int) :=
  if digits <? 0 then mret (MP_VAL, r)
  else if SP_INT_DIGITS <=? mp_used m * 2 then mret (MP_VAL, r)
  else if mp_used m =? 0 then mret (MP_VAL, r)
  else
    one ← sp_isone m;
    if one : bool then mret (0, _sp_set r 0)
    else if mp_used e =? 0 then mret (0, _sp_set r 1)
    else
      '(err, b, r) ← (if negb (_sp_cmp_abs b m =? -1) then
          if r_is_em : bool then mret (MP_VAL, b, r) else '(err, r) ← sp_mod b m r false; mret (err, r, r)
        else mret (0, b, r));
      if negb (err =? 0) then mret (err, r)
      else if mp_used b =? 0 then mret (0, _sp_set r 0)
      else if mp_size r <=? mp_used m * 2 then mret (MP_VAL, r)
      else
        b0 ← peek (mp_dp b) 0;
        odd ← sp_isodd m;
        if (mp_used b =? 1) && (b0 =? 2) && odd then _sp_exptmod_base_2 e digits m r
        else if (1 <? mp_used m) && odd then _sp_exptmod_mont_ex b e (digits * 32) m r
        else _sp_exptmod_ex b e (digits * 32) m r.

(** sp_int.c:14371-14383, [sp_exptmod] *)
Definition sp_exptmod (b e m r : mp_int) (r_is_em : bool) : M (Z * mp_int) := sp_exptmod_ex b e (mp_used e) m r r_is_em.

(** ** What they compute *)

Section Exp.
Context (e : env).

(** [x] below [M] stands for [v], times [F]. *)
Definition form (F M v x : Z) : Prop := 0 <= x < M /\ (M | x - v * F).

Definition yields (n : Z) (P : Z -> Prop) (err : Z) (r : mp_int) : Prop :=
  (err = 0 /\ exists x, sp_is n x r /\ P x) \/ (err = MP_MEM /\ oom e).

Lemma form_1 M v x : 0 < M -> form 1 M v x -> x = v mod M.
Proof. intros HM [Hx [k Hk]]. apply (Z.mod_unique _ _ (- k)); lia. Qed.

Lemma form_mod M v : 0 < M -> form 1 M v (v mod M).
Proof. intros HM. split; [by apply Z.mod_pos_bound|]. exists (- (v / M)). rewrite Z.mod_eq by lia. lia. Qed.

Lemma form_times M x y v w : 0 < M -> form 1 M v x -> form 1 M w y -> form 1 M (v * w) ((x * y) mod M).
Proof.
  intros HM [_ [i Hi]] [_ [j Hj]]. split; [by apply Z.mod_pos_bound|]. exists (i * y + v * j - x * y / M). rewrite Z.mod_eq by lia.
  replace x with (i * M + v) at 1 by lia. replace (v * w * 1) with (v * (y - j * M)) by (replace (y - j * M) with w by lia; lia). ring.
Qed.

Lemma form_redc F M x y v w z : Z.gcd M F = 1 -> form F M v x -> form F M w y -> redc M F (x * y) z -> form F M (v * w) z.
Proof.
  intros HF [_ [i Hi]] [_ [j Hj]] [Hz [k Hk]]. split; [done|]. apply (Z.gauss _ F); [|done].
  exists (k + i * y + v * F * j). replace (F * (z - v * w * F)) with (z * F - v * F * (w * F)) by ring.
  replace (z * F) with (x * y + k * M) by lia. replace (v * F) with (x - i * M) by lia. replace (w * F) with (y - j * M) by lia. ring.
Qed.

(** *** The bits of the exponent *)

Lemma exp_bit_is {B} d ne E ex i (k : Z -> M B) Q : sp_is ne E ex -> 0 <= i < 32 * mp_used ex ->
  calc e d (k ((E / 2 ^ i) mod 2)) Q -> calc e d (exp_bit ex i ≫= k) Q.
Proof.
  intros [[_ _ Hl Hd] Hu _ Hv] Hi Hk. unfold exp_bit. rewrite Z.shiftr_div_pow2 by lia. change (2 ^ 5) with 32. change 31 with (Z.ones 5).
  rewrite Z.land_ones by lia. change (2 ^ 5) with 32. pose proof (Z.div_mod i 32 ltac:(lia)). pose proof (Z.mod_pos_bound i 32 ltac:(lia)).
  assert (0 <= i / 32 < mp_used ex) by (split; [apply Z.div_pos; lia|apply Z.div_lt_upper_bound; lia]). sp_steps.
  replace (Z.land _ 1) with ((E / 2 ^ i) mod 2); [done|]. rewrite <-Z.testbit_spec' by lia. rewrite <-Hv.
  replace i with (32 * (i / 32) + i mod 32) at 1 by lia. rewrite testbit_val by (done || lia).
  change 1 with (Z.ones 1). rewrite Z.land_ones by lia. change (2 ^ 1) with 2. rewrite <-(Z.bit0_mod (Z.shiftr _ _)), Z.shiftr_spec, Z.add_0_l by lia. done.
Qed.

Section Loop.
Context (k M B E F ne : Z) (ex : mp_int) (sqr mul : mp_int -> Platform.M (Z * mp_int)).

Definition valued (v : Z) (t : mp_int) : Prop := exists X, sp_is k X t /\ form F M v X.

Hypothesis Hsqr : forall x v, valued v x -> calc e 0 (sqr x) (fun '(err, x') => (err = 0 /\ valued (v * v) x') \/ (err = MP_MEM /\ oom e)).
Hypothesis Hmul : forall x v, valued v x -> calc e 0 (mul x) (fun '(err, x') => (err = 0 /\ valued (v * B) x') \/ (err = MP_MEM /\ oom e)).
Hypothesis Hex : sp_is ne E ex.

Lemma valued_copy v x t : valued v x -> sp_box k t -> valued v (_sp_copy x t).
Proof. intros (X & Hx & Hf) Ht. exists X. split; [|done]. apply (sp_copy_is k k); [done|done|]. by destruct Hx as [_ [_ ?] _ _]. Qed.

Lemma valued_box v x : valued v x -> sp_box k x.
Proof. by intros (X & [] & _). Qed.

(** The second operand holds the power by the bits [p] read so far, but for leading zeros. *)
Definition power (p s : Z) (t0 t1 : mp_int) : Prop :=
  s = Z.b2z (negb (p =? 0)) /\ 0 <= p /\ (exists v, valued v t0) /\ valued (B ^ Z.max 1 p) t1.

Definition squared (p s : Z) (t0 t1 : mp_int) : Prop :=
  s = Z.b2z (negb (p =? 0)) /\ 0 <= p /\ (exists v, valued v t0) /\ valued (B ^ (if p =? 0 then 1 else 2 * p)) t1.

Lemma power_square p s t0 t1 : power p s t0 t1 ->
  exists v, valued v (pick s t0 t1) /\ forall x, valued (v * v) x -> let '(t0', t1') := put s x t0 t1 in squared p s t0' t1'.
Proof.
  intros (-> & Hp & [v Hv] & Ht1). unfold put, pick, squared. destruct (Z.eqb_spec p 0) as [->|Hp0]; cbn [negb Z.b2z Z.eqb].
  - exists v. split; [done|]. intros x Hx. split; [done|]. split; [done|]. split; [|done]. exists (v * v). apply valued_copy; [done|by eapply valued_box].
  - exists (B ^ p). rewrite Z.max_r in Ht1 by lia. split; [done|]. intros x Hx. split; [done|]. split; [done|]. split; [by exists v|].
    replace (2 * p) with (p + p) by lia. rewrite Z.pow_add_r by lia. apply valued_copy; [done|by eapply valued_box].
Qed.

Lemma power_times p s y t0 t1 : squared p s t0 t1 -> 0 <= y < 2 ->
  exists v, valued v (pick (Z.land y s) t0 t1) /\
    forall x, valued (v * B) x -> let '(t0', t1') := put (Z.land y s) x t0 t1 in power (2 * p + y) (Z.lor s y) t0' t1'.
Proof.
  intros (-> & Hp & [v Hv] & Ht1) Hy.  unfold put, pick, power.
  assert (y = 0 \/ y = 1) as [-> | ->] by lia; destruct (Z.eqb_spec p 0) as [->|Hp0]; cbn [negb Z.b2z].
  - exists v. split; [done|]. intros x Hx. split; [done|]. split; [done|]. split; [|done]. exists (v * B). apply valued_copy; [done|by eapply valued_box].
  - exists v. split; [done|]. intros x Hx. rewrite (proj2 (Z.eqb_neq (2 * p + 0) 0)) by lia. split; [done|]. split; [lia|].
    replace (Z.max 1 (2 * p + 0)) with (2 * p) by lia. split; [|done]. exists (v * B). apply valued_copy; [done|by eapply valued_box].
  - exists v. split; [done|]. intros x Hx. split; [done|]. split; [done|]. split; [|done]. exists (v * B). apply valued_copy; [done|by eapply valued_box].
  - exists (B ^ (2 * p)). split; [done|]. intros x Hx. rewrite (proj2 (Z.eqb_neq (2 * p + 1) 0)) by lia. split; [done|]. split; [lia|]. split; [by exists v|].
    replace (Z.max 1 (2 * p + 1)) with (2 * p + 1) by lia. rewrite Z.pow_add_r, Z.pow_1_r by lia. apply valued_copy; [done|by eapply valued_box].
Qed.

Lemma exp_loop_is n s t0 t1 t2 : Z.of_nat n <= 32 * mp_used ex -> power (E / 2 ^ Z.of_nat n) s t0 t1 -> sp_box k t2 ->
  calc e 0 (exp_loop sqr mul ex n s t0 t1 t2) (fun '(err, t) => (err = 0 /\ valued (B ^ Z.max 1 E) t) \/ (err = MP_MEM /\ oom e)).
Proof.
  revert s t0 t1 t2. induction n as [|n IH]; intros s t0 t1 t2 Hn Hp Ht2; cbn [exp_loop].
  { calc_step. left. split; [done|]. rewrite Z.pow_0_r, Z.div_1_r in Hp. apply Hp. }
  set (p := E / 2 ^ Z.of_nat (S n)) in *. destruct (power_square p s t0 t1 Hp) as (v & Hv & Hput).
  eapply calc_bind; [apply (Hsqr _ v); by apply valued_copy|]. intros [err x] [[-> Hx]|[-> Ho]]; [|destruct (put s x t0 t1); sp_skip; by right].
  specialize (Hput x Hx). destruct (put s x t0 t1) as [t0' t1']. cbn [Z.eqb negb]. eapply exp_bit_is; [done|lia|].
  set (y := (E / 2 ^ Z.of_nat n) mod 2). assert (Hy : 0 <= y < 2) by (apply Z.mod_pos_bound; lia).
  assert (Hpy : E / 2 ^ Z.of_nat n = 2 * p + y).
  { assert (0 < 2 ^ Z.of_nat n) by (apply Z.pow_pos_nonneg; lia). assert (p = E / 2 ^ Z.of_nat n / 2) as ->; [|apply Z.div_mod; lia].
    unfold p. rewrite Z.div_div by lia. f_equal. rewrite Nat2Z.inj_succ, Z.pow_succ_r by lia. lia. }
  destruct (power_times p s y t0' t1' Hput Hy) as (w & Hw & Hput').
  eapply calc_bind; [apply (Hmul _ w); apply valued_copy; [done|by eapply valued_box]|].
  intros [err x'] [[-> Hx']|[-> Ho]]; [|destruct (put _ x' t0' t1'); sp_skip; by right].
  specialize (Hput' x' Hx'). destruct (put _ x' t0' t1') as [t0'' t1'']. cbn [Z.eqb negb]. apply IH; [lia|by rewrite Hpy|by eapply valued_box].
Qed.
End Loop.

(** *** Both forms *)

Section Modulus.
Context (nm M : Z) (m : mp_int).
Hypothesis Hm : sp_is nm M m.
Hypothesis HM : 1 < M.
Hypothesis H17 : mp_used m <= 17.

Let k : Z := 2 * mp_used m + 1.

Definition outcome (P : mp_int -> Prop) (err : Z) (x : mp_int) : Prop := (err = 0 /\ P x) \/ (err = MP_MEM /\ oom e).

Lemma modulus_used : 1 <= mp_used m <= nm /\ M < pw (mp_used m).
Proof. pose proof (si_used _ _ _ Hm). pose proof (sp_is_range Hm). assert (mp_used m <> 0) by (intros E; apply (sp_is_0 Hm) in E; lia). lia. Qed.

Lemma below_used n X x : sp_is n X x -> X < M -> mp_used x <= mp_used m.
Proof. intros Hx HX. pose proof modulus_used. apply (sp_is_used Hx); lia. Qed.

Lemma sqrmod_form v x : valued k M 1 v x -> calc e 0 (sp_sqrmod x m x false) (fun '(err, x') => outcome (valued k M 1 (v * v)) err x').
Proof.
  intros (X & Hx & Hf). pose proof modulus_used. pose proof (below_used _ _ _ Hx ltac:(destruct Hf; lia)). pose proof (si_used _ _ _ Hx).
  eapply calc_mono; [apply (sp_sqrmod_is e k nm k X M x m x false Hx Hm); [by destruct Hx|change SP_INT_DIGITS with 35; lia|lia|lia|lia]|].
  intros [err x'] [[-> Hx']|?]; [left|by right]. split; [done|]. exists ((X * X) mod M). split; [done|]. apply form_times; [lia|done|done].
Qed.

Lemma mulmod_form nb B b v x : sp_is nb B b -> 0 <= B < M -> valued k M 1 v x ->
  calc e 0 (_sp_mulmod x b m x false) (fun '(err, x') => outcome (valued k M 1 (v * B)) err x').
Proof.
  intros Hb HB (X & Hx & Hf). pose proof modulus_used. pose proof (below_used _ _ _ Hx ltac:(destruct Hf; lia)). pose proof (si_used _ _ _ Hx). pose proof (below_used _ _ _ Hb ltac:(lia)).
  eapply calc_mono; [apply (_sp_mulmod_is e k nb nm k X B M x b m x false Hx Hb Hm); [by destruct Hx|change SP_INT_DIGITS with 35; lia|lia|lia|lia]|].
  intros [err x'] [[-> Hx']|?]; [left|by right]. split; [done|]. exists ((X * B) mod M). split; [done|]. apply form_times; [lia|done|]. split; [done|]. exists 0. lia.
Qed.

Section Odd.
Context (mp : Z).
Hypothesis HMo : Z.odd M = true.
Hypothesis Hmp : (2 ^ 32 | mp * M + 1).

Let R : Z := 2 ^ mont_bits M.

Lemma mont_mul_form y Y w v x : sp_is k Y y -> form R M w Y -> valued k M R v x ->
  calc e 0 (mont_mul x y m mp) (fun '(err, x') => outcome (valued k M R (v * w)) err x').
Proof.
  intros Hy Hfy (X & Hx & Hf). pose proof modulus_used. pose proof (below_used _ _ _ Hx ltac:(destruct Hf; lia)). pose proof (below_used _ _ _ Hy ltac:(destruct Hfy; lia)).
  destruct (mont_bits_used _ _ _ Hm ltac:(lia)) as (_ & _ & _ & HMR). unfold mont_mul.
  eapply calc_bind; [apply (sp_mul_is e k k k X Y x y x Hx Hy); by destruct Hx|]. intros [err x'] Hx'. rewrite (proj2 (Z.ltb_ge k _)) in Hx' by lia.
  destruct Hx' as [[-> Hx']|(-> & -> & Ho)]; [|sp_skip; by right]. cbn [Z.eqb].
  eapply calc_mono; [apply (_sp_mont_red_is e k nm (X * Y) M mp x' m false Hx' Hm); [lia|destruct Hf, Hfy; nia|done|lia|done]|].
  intros [err z] (-> & Z' & Hz & Hr). left. split; [done|]. exists Z'. split; [done|]. eapply form_redc; [|exact Hf|exact Hfy|exact Hr].
  apply odd_pow2_coprime; [done|]. unfold mont_bits. lia.
Qed.

Lemma mont_sqr_form v x : valued k M R v x -> calc e 0 (mont_sqr x m mp) (fun '(err, x') => outcome (valued k M R (v * v)) err x').
Proof.
  intros (X & Hx & Hf). pose proof modulus_used. pose proof (below_used _ _ _ Hx ltac:(destruct Hf; lia)).
  destruct (mont_bits_used _ _ _ Hm ltac:(lia)) as (_ & _ & _ & HMR). unfold mont_sqr.
  eapply calc_bind; [apply (sp_sqr_is e k k X x x Hx); by destruct Hx|]. intros [err x'] Hx'. rewrite (proj2 (Z.ltb_ge k _)) in Hx' by lia.
  destruct Hx' as [[-> Hx']|(-> & -> & Ho)]; [|sp_skip; by right]. cbn [Z.eqb].
  eapply calc_mono; [apply (_sp_mont_red_is e k nm (X * X) M mp x' m false Hx' Hm); [lia|destruct Hf; nia|done|lia|done]|].
  intros [err z] (-> & Z' & Hz & Hr). left. split; [done|]. exists Z'. split; [done|]. eapply form_redc; [|exact Hf|exact Hf|exact Hr].
  apply odd_pow2_coprime; [done|]. unfold mont_bits. lia.
Qed.

(** Leaving Montgomery form. *)
Lemma mont_leave v x : valued k M R v x -> calc e 0 (_sp_mont_red x m mp false) (fun '(err, x') => outcome (sp_is k (v mod M)) err x').
Proof.
  intros (X & Hx & Hf). pose proof modulus_used. destruct (mont_bits_used _ _ _ Hm ltac:(lia)) as (_ & _ & _ & HMR).
  eapply calc_mono; [apply (_sp_mont_red_is e k nm X M mp x m false Hx Hm); [lia|destruct Hf; nia|done|lia|done]|].
  intros [err z] (-> & Z' & Hz & Hr1 & [i Hi]). left. split; [done|]. destruct Hf as [_ [j Hj]]. rewrite <-(form_1 M v Z'); [done|lia|]. split; [done|].
  apply (Z.gauss _ R); [|apply odd_pow2_coprime; [done|unfold mont_bits; lia]]. exists (i + j). fold R in Hi. lia.
Qed.
End Odd.

(** *** The windows of the exponent *)

Lemma mod_mul_div x b c : 0 < b -> 0 < c -> x mod (b * c) / b = (x / b) mod c.
Proof.
  intros Hb Hc. rewrite !Z.mod_eq by nia. rewrite <-Z.div_div by lia. replace (x - b * c * (x / b / c)) with (x + (- (c * (x / b / c))) * b) by ring.
  rewrite Z.div_add by lia. ring.
Qed.

(** Four bits from the top of [c] bits. *)
Lemma top_bits A c : 4 <= c <= 28 -> Z.land (Z.shiftr (w32 (A * 2 ^ (32 - c))) 28) 15 = (A / 2 ^ (c - 4)) mod 16.
Proof.
  intros Hc. assert (0 < 2 ^ (c - 4)) by (apply Z.pow_pos_nonneg; lia). assert (0 < 2 ^ (32 - c)) by (apply Z.pow_pos_nonneg; lia).
  assert (E32 : 2 ^ 32 = 2 ^ c * 2 ^ (32 - c)) by (rewrite <-Z.pow_add_r by lia; f_equal; lia).
  assert (E28 : 2 ^ 28 = 2 ^ (c - 4) * 2 ^ (32 - c)) by (rewrite <-Z.pow_add_r by lia; f_equal; lia).
  assert (Ec : 2 ^ c = 2 ^ (c - 4) * 16) by (change 16 with (2 ^ 4); rewrite <-Z.pow_add_r by lia; f_equal; lia).
  change 15 with (Z.ones 4). rewrite Z.land_ones, Z.shiftr_div_pow2, w32_mod by lia. rewrite E32, E28, Z.mul_mod_distr_r, Z.div_mul_cancel_r by lia.
  rewrite Ec, mod_mul_div by lia. change (2 ^ 4) with 16. by apply Z.mod_mod.
Qed.

Section Window.
Context (ne E : Z) (ex : mp_int).
Hypothesis Hex : sp_is ne E ex.

(** The digits below [i + 1] and [c] bits of [n] are still to come. *)
Definition window (i c n : Z) : Prop :=
  -1 <= i < mp_used ex /\ 0 <= c <= 28 /\ (exists j, c = 4 * j) /\ (c <> 0 -> n = w32 (E / pw (i + 1) * 2 ^ (32 - c))).

Definition bits_left (i c : Z) : Z := 32 * (i + 1) + c.

Lemma digit_exp i : 0 <= i < mp_used ex -> E / pw i mod 2 ^ 32 = (mp_dp ex).[i].
Proof. intros Hi. destruct Hex as [[_ _ Hl Hd] Hu _ Hv]. rewrite <-Hv. apply digit_of_val; [done|done|lia]. Qed.

Lemma next_shift A c : 0 <= c -> c + 4 <= 32 -> w32 (Z.shiftl (w32 (A * 2 ^ c)) 4) = w32 (A * 2 ^ (c + 4)).
Proof. intros Hc Hc4. rewrite Z.shiftl_mul_pow2, !w32_mod, Zmult_mod_idemp_l, Z.pow_add_r by lia. f_equal. lia. Qed.

Lemma digit_shift i : 0 <= i < mp_used ex -> w32 (Z.shiftl (mp_dp ex).[i] 4) = w32 (E / pw i * 2 ^ 4).
Proof. intros Hi. rewrite <-digit_exp, Z.shiftl_mul_pow2, !w32_mod, Zmult_mod_idemp_l by lia. done. Qed.

Lemma digit_top i : 0 <= i < mp_used ex -> Z.shiftr (mp_dp ex).[i] 28 = (E / 2 ^ (32 * i + 28)) mod 16.
Proof.
  intros Hi. rewrite <-digit_exp, Z.shiftr_div_pow2 by lia. change (2 ^ 32) with (2 ^ 28 * 16). rewrite mod_mul_div by lia.
  rewrite Z.div_div by (try apply Z.lt_neq, pw_pos; pose proof (pw_pos i); lia). f_equal. f_equal. unfold pw. by rewrite <-Z.pow_add_r by lia.
Qed.

Lemma exp2_window_is {C} d i c n (kont : Z * Z * Z * Z -> Platform.M C) Q : window i c n -> 4 <= bits_left i c ->
  (forall i' c' n', window i' c' n' -> bits_left i' c' = bits_left i c - 4 -> calc e d (kont ((E / 2 ^ (bits_left i c - 4)) mod 16, i', c', n')) Q) ->
  calc e d (exp2_window ex i c n ≫= kont) Q.
Proof.
  intros (Hi & Hc & [j Hj] & Hn) Hleft Hk. unfold exp2_window. pose proof (sb_len _ _ (si_box _ _ _ Hex)). pose proof (si_used _ _ _ Hex). pose proof (sp_is_range Hex).
  unfold bits_left in *. destruct (Z.eqb_spec c 0) as [->|Hc0].
  - assert (0 <= i) by lia. sp_steps. rewrite digit_top, digit_shift by lia. replace (32 * i + 28) with (32 * (i + 1) + 0 - 4) by lia. apply Hk; [|lia].
    split; [lia|]. split; [lia|]. split; [by exists 7|]. intros _. by replace (i - 1 + 1) with i by lia.
  - assert (4 <= c) by lia. sp_steps. rewrite (Hn Hc0), top_bits, next_shift by lia. rewrite Z.div_div by (try apply Z.lt_neq, pw_pos; try (apply Z.pow_pos_nonneg); pose proof (pw_pos (i + 1)); lia).
    replace (pw (i + 1) * 2 ^ (c - 4)) with (2 ^ (32 * (i + 1) + c - 4)) by (unfold pw; rewrite <-Z.pow_add_r by lia; f_equal; lia). apply Hk; [|lia].
    split; [lia|]. split; [lia|]. split; [exists (j - 1); lia|]. intros _. by replace (32 - (c - 4)) with (32 - c + 4) by lia.
Qed.
End Window.

(** *** Powers of two *)

Section Two.
Context (mp : Z) (useMont : bool).
Hypothesis Hodd : useMont = true -> Z.odd M = true /\ (2 ^ 32 | mp * M + 1).

Let F : Z := if useMont then 2 ^ mont_bits M else 1.

Lemma exp2_square_is v tr : valued k M F v tr ->
  calc e 0 (if useMont then mont_sqr tr m mp else '(err, tr) ← sp_sqr tr tr; if err =? 0 then sp_mod tr m tr false else mret (err, tr))
    (fun '(err, tr') => outcome (valued k M F (v * v)) err tr').
Proof.
  intros Hv. unfold F in *. destruct useMont.
  - destruct (Hodd eq_refl). by apply mont_sqr_form.
  - destruct Hv as (X & Hx & Hf). pose proof modulus_used. pose proof (below_used _ _ _ Hx ltac:(destruct Hf; lia)).
    eapply calc_bind; [apply (sp_sqr_is e k k X tr tr Hx); by destruct Hx|]. intros [err x'] Hx'. rewrite (proj2 (Z.ltb_ge k _)) in Hx' by lia.
    destruct Hx' as [[-> Hx']|(-> & -> & Ho)]; [|sp_skip; by right]. cbn [Z.eqb]. pose proof (si_used _ _ _ Hx').
    assert (mp_used x' <= 2 * mp_used m).
    { apply (sp_is_used Hx'); [lia|]. replace (2 * mp_used m) with (mp_used m + mp_used m) by lia. rewrite pw_add by lia. destruct Hf. nia. }
    eapply calc_mono; [apply (sp_mod_is e k nm k (X * X) M x' m x' false Hx' Hm); [lia|by destruct Hx'|change SP_INT_DIGITS with 35; lia|lia]|].
    intros [err y] [[-> Hy]|?]; [left|by right]. split; [done|]. eexists. split; [done|]. apply form_times; [lia|done|done].
Qed.

Lemma exp2_squares_is j v tr : valued k M F v tr ->
  calc e 0 (exp2_squares j m mp useMont tr) (fun '(err, tr') => outcome (valued k M F (v ^ 2 ^ Z.of_nat j)) err tr').
Proof.
  revert v tr. induction j as [|j IH]; intros v tr Hv; cbn [exp2_squares].
  - calc_step. left. split; [done|]. by rewrite Z.pow_0_r, Z.pow_1_r.
  - eapply calc_bind; [by apply exp2_square_is|]. intros [err x] [[-> Hx]|[-> Ho]]; [|sp_skip; by right]. cbn [Z.eqb].
    eapply calc_mono; [by apply (IH (v * v))|]. intros [err y] [[-> Hy]|?]; [left|by right]. split; [done|].
    rewrite Nat2Z.inj_succ, Z.pow_succ_r, Z.pow_mul_r by lia. by rewrite Z.pow_2_r.
Qed.

Lemma exp2_times_is y v a tr : 0 <= y <= 15 -> (useMont = true -> sp_is k (M * 2 ^ 16) a) -> valued k M F v tr ->
  calc e 0 (exp2_times y a m useMont tr) (fun '(err, tr') => outcome (valued k M F (v * 2 ^ y)) err tr').
Proof.
  intros Hy Ha (X & Hx & Hf). pose proof modulus_used as [Hu HMu]. pose proof (below_used _ _ _ Hx ltac:(destruct Hf; lia)) as Hux. unfold exp2_times.
  assert (H2y : 1 <= 2 ^ y <= 2 ^ 15) by (split; [apply (Z.pow_le_mono_r 2 0)|apply Z.pow_le_mono_r]; lia).
  eapply calc_bind; [apply (sp_mul_2d_is e k k X tr y tr Hx); [by destruct Hx|lia|rewrite Z.div_small by lia; lia]|]. intros [err x] [-> Hx']. cbn [Z.eqb andb].
  assert (Hux' : mp_used x <= mp_used m + 1).
  { apply (sp_is_used Hx'); [lia|]. rewrite pw_succ by lia. destruct Hf. nia. }
  eapply (calc_bind e _ _ _ (fun '(err, x') => err = 0 /\ exists S, sp_is k S x' /\ mp_used x' <= mp_used m + 1 /\ (M | S - X * 2 ^ y))).
  - destruct useMont; cycle 1.
    { calc_step. split; [done|]. exists (X * 2 ^ y). split; [done|]. split; [done|]. exists 0. lia. }
    specialize (Ha eq_refl). assert (mp_used a <= mp_used m + 1) by (apply (sp_is_used Ha); [lia|]; rewrite pw_succ by lia; lia).
    eapply calc_mono; [apply (sp_add_is e k k k _ _ x a x Hx' Ha); by destruct Hx'|]. intros [err x'] Hs. rewrite (proj2 (Z.leb_gt k _)) in Hs by lia.
    destruct Hs as [-> Hs]. split; [done|]. eexists. split; [exact Hs|]. split; [|exists (2 ^ 16); lia]. apply (sp_is_used Hs); [lia|]. rewrite pw_succ by lia. destruct Hf. nia.
  - intros [err x'] (-> & S & HS & HuS & [i Hi]). cbn [Z.eqb].
    eapply calc_mono; [apply (sp_mod_is e k nm k S M x' m x' false HS Hm); [lia|by destruct HS|change SP_INT_DIGITS with 35; lia|lia]|].
    intros [err z] [[-> Hz]|?]; [left|by right]. split; [done|]. eexists. split; [done|]. split; [apply Z.mod_pos_bound; lia|].
    destruct Hf as [_ [j Hj]]. exists (i + j * 2 ^ y - S / M). rewrite Z.mod_eq by lia. replace (v * 2 ^ y * F) with ((X - j * M) * 2 ^ y) by (replace (X - j * M) with (v * F) by lia; ring). lia.
Qed.

Section ExpLoop.
Context (ne E : Z) (ex a : mp_int).
Hypothesis Hex : sp_is ne E ex.

Lemma exp2_loop_is fuel i c n tr : window E ex i c n -> bits_left i c <= 4 * Z.of_nat fuel -> (useMont = true -> sp_is k (M * 2 ^ 16) a) ->
  valued k M F (2 ^ (E / 2 ^ bits_left i c)) tr ->
  calc e 0 (exp2_loop fuel ex a m mp useMont i c n tr) (fun '(err, tr') => outcome (valued k M F (2 ^ E)) err tr').
Proof.
  revert i c n tr. induction fuel as [|fuel IH]; intros i c n tr Hw Hf Ha Hv; pose proof Hw as (Hi & Hc & [j Hj] & _); cbn [exp2_loop];
    destruct ((0 <=? i) || (4 <=? c)) eqn:Et.
  - exfalso. apply orb_prop in Et. unfold bits_left in Hf. destruct Et as [Et|Et]; apply Z.leb_le in Et; lia.
  - apply orb_false_elim in Et as [E1 E2]. apply Z.leb_gt in E1, E2. assert (bits_left i c = 0) as Eb by (unfold bits_left; lia). rewrite Eb, Z.pow_0_r, Z.div_1_r in Hv.
    calc_step. by left.
  - assert (4 <= bits_left i c) by (apply orb_prop in Et; unfold bits_left; destruct Et as [Et|Et]; apply Z.leb_le in Et; lia).
    apply (exp2_window_is ne E ex Hex); [done|done|]. intros i' c' n' Hw' Hleft. set (q := bits_left i c) in *. set (y := (E / 2 ^ (q - 4)) mod 16).
    assert (Hy : 0 <= y < 16) by (apply Z.mod_pos_bound; lia).
    eapply calc_bind; [by apply (exp2_squares_is 4)|]. intros [err x] [[-> Hx]|[-> Ho]]; [|sp_skip; by right]. cbn [Z.eqb].
    eapply calc_bind; [apply (exp2_times_is y); [lia|done|exact Hx]|]. intros [err z] [[-> Hz]|[-> Ho]]; [|sp_skip; by right]. cbn [Z.eqb].
    apply IH; [done|lia|done|]. rewrite Hleft. replace (2 ^ (E / 2 ^ (q - 4))) with ((2 ^ (E / 2 ^ q)) ^ 2 ^ Z.of_nat 4 * 2 ^ y); [done|].
    pose proof (sp_is_range Hex). assert (Hq : 2 ^ q = 2 ^ (q - 4) * 16) by (change 16 with (2 ^ 4); rewrite <-Z.pow_add_r by lia; f_equal; lia).
    assert (0 < 2 ^ (q - 4)) by (apply Z.pow_pos_nonneg; lia). assert (0 <= E / 2 ^ q) by (apply Z.div_pos; lia).
    change (2 ^ Z.of_nat 4) with 16. rewrite <-Z.pow_mul_r, <-Z.pow_add_r by lia. f_equal. rewrite Hq, <-Z.div_div by lia.
    pose proof (Z.div_mod (E / 2 ^ (q - 4)) 16 ltac:(lia)). unfold y. lia.
  - apply orb_false_elim in Et as [E1 E2]. apply Z.leb_gt in E1, E2. assert (bits_left i c = 0) as Eb by (unfold bits_left; lia). rewrite Eb, Z.pow_0_r, Z.div_1_r in Hv.
    calc_step. by left.
Qed.
End ExpLoop.
End Two.

Lemma exp2_body_is ne E ex a tr (useMont : bool) : sp_is ne E ex -> 0 < E -> Z.odd M = true -> sp_box k a -> sp_box k tr ->
  calc e 0 (exp2_body ex (mp_used ex) m a tr useMont) (fun '(err, tr') => outcome (sp_is k (2 ^ E mod M)) err tr').
Proof.
  intros Hex HE HMo Ha Htr. pose proof modulus_used as [Hu HMu]. assert (Hue : mp_used ex <> 0) by (intros E0; apply (sp_is_0 Hex) in E0; lia). pose proof (si_used _ _ _ Hex).
  pose proof (sb_len _ _ (si_box _ _ _ Hex)). pose proof (sp_is_range Hex) as HrE. unfold exp2_body. set (F := if useMont then 2 ^ mont_bits M else 1).
  eapply (calc_bind e _ _ _ (fun mp => useMont = true -> Z.odd M = true /\ (2 ^ 32 | mp * M + 1))).
  { destruct useMont; [|by calc_step]. eapply calc_mono; [by apply (_sp_mont_setup_is e nm M m)|]. by intros mp [_ ?]. }
  intros mp Hmp. eapply (calc_bind e _ _ _ (fun '(err, t) => err = 0 /\ valued k M F 1 t)).
  { unfold F. destruct useMont.
    - eapply calc_mono; [apply (sp_mont_norm_is e k nm M); [done|done|lia|done|lia]|]. intros [err t] [-> Ht]. split; [done|]. eexists. split; [done|].
      split; [apply Z.mod_pos_bound; lia|]. exists (- (2 ^ mont_bits M / M)). rewrite Z.mod_eq by lia. lia.
    - calc_step. split; [done|]. exists 1. split; [apply sp_set_is; [done|lia]|]. split; [lia|]. exists 0. lia. }
  intros [err t] [-> Ht]. cbn [Z.eqb andb]. eapply (calc_bind e _ _ _ (fun '(err, a') => err = 0 /\ (useMont = true -> sp_is k (M * 2 ^ 16) a'))).
  { destruct useMont; [|by calc_step]. eapply calc_mono; [apply (sp_mul_2d_is e nm k M m 16 a Hm Ha); [lia|change (16 / 32) with 0; lia]|]. by intros [err a'] [-> ?]. }
  intros [err a'] [-> Ha']. cbn [Z.eqb negb]. sp_step. replace (32 - (mp_used ex * 32) mod 4) with 32.
  2: { replace (mp_used ex * 32) with (mp_used ex * 8 * 4) by lia. by rewrite Z.mod_mul by lia. }
  cbn [Z.eqb Pos.eqb negb]. cbv zeta. change (32 - 4) with 28.
  rewrite (digit_top ne E ex Hex), (digit_shift ne E ex Hex) by lia. set (q := bits_left (mp_used ex - 2) 28).
  assert (Eq : 32 * (mp_used ex - 1) + 28 = q) by (unfold q, bits_left; lia). rewrite Eq. set (y := (E / 2 ^ q) mod 16). assert (Hy : 0 <= y < 16) by (apply Z.mod_pos_bound; lia).
  assert (Hyl : Z.land y 15 = y) by (change 15 with (Z.ones 4); rewrite Z.land_ones by lia; apply Z.mod_small; lia). rewrite Hyl.
  assert (HEq : E / 2 ^ q = y).
  { unfold y. symmetry. apply Z.mod_small. split; [apply Z.div_pos; [lia|apply Z.pow_pos_nonneg; lia]|]. apply Z.div_lt_upper_bound; [apply Z.pow_pos_nonneg; lia|].
    change 16 with (2 ^ 4). rewrite <-Z.pow_add_r by lia. unfold pw in HrE. replace (q + 4) with (32 * mp_used ex) by lia. lia. }
  eapply calc_bind; [apply (exp2_times_is mp useMont Hmp y 1 a'); [lia|done|exact Ht]|]. intros [err x] [[-> Hx]|[-> Ho]]; [|sp_skip; by right]. cbn [Z.eqb].
  eapply calc_bind; [apply (exp2_loop_is mp useMont Hmp ne E ex a' Hex)|].
  - split; [lia|]. split; [lia|]. split; [by exists 7|]. intros _. by replace (mp_used ex - 2 + 1) with (mp_used ex - 1) by lia.
  - fold q. lia.
  - done.
  - fold q. rewrite HEq. by rewrite Z.mul_1_l in Hx.
  - intros [err z] [[-> Hz]|[-> Ho]]; [|sp_skip; by right]. cbn [Z.eqb andb]. unfold F in Hz. destruct useMont.
    + destruct (Hmp eq_refl). by apply (mont_leave mp).
    + calc_step. left. split; [done|]. destruct Hz as (X & HX & Hf). rewrite <-(form_1 M _ X); [done|lia|done].
Qed.

(** *** Square and multiply *)

Section Power.
Context (nb ne n B E : Z) (b ex r : mp_int).
Hypothesis Hb : sp_is nb B b.
Hypothesis HB : 0 < B < M.
Hypothesis Hex : sp_is ne E ex.
Hypothesis HE : 0 < E.
Hypothesis Hr : sp_box n r.
Hypothesis Hn : mp_used m <= n.

Lemma reduced_base_is t : sp_box k t -> calc e 0 (reduced_base b m t) (fun '(err, t0) => err = 0 /\ exists x, t0 = Some x /\ sp_is k B x).
Proof.
  intros Ht. unfold reduced_base. rewrite (sp_cmp_lt nb nm B M), (proj2 (Z.ltb_lt B M)) by (done || lia). cbn [negb]. calc_step. split; [done|].
  eexists. split; [done|]. pose proof modulus_used. apply (sp_copy_is k nb); [done|done|]. pose proof (below_used _ _ _ Hb ltac:(lia)). lia.
Qed.

Lemma no_bits_yet : E / 2 ^ Z.of_nat (Z.to_nat (mp_used ex * 32)) = 0.
Proof. pose proof (sp_is_range Hex). pose proof (si_used _ _ _ Hex). rewrite Z2Nat.id by lia. apply Z.div_small. unfold pw in *. by rewrite Z.mul_comm. Qed.

Lemma start_power F t0 t1 : valued k M F B t0 -> valued k M F B t1 -> power k M B F (E / 2 ^ Z.of_nat (Z.to_nat (mp_used ex * 32))) 0 t0 t1.
Proof. intros H0 H1. rewrite no_bits_yet. split; [done|]. split; [done|]. split; [by exists B|]. by rewrite Z.pow_1_r. Qed.

Lemma finish_power X err t1 : outcome (sp_is k X) err t1 -> X < M ->
  outcome (sp_is n X) err (if err =? 0 then _sp_copy t1 r else r).
Proof.
  intros [[-> Ht]|?] HX; [left|by right]. split; [done|]. apply (sp_copy_is n k); [done|done|]. pose proof (below_used _ _ _ Ht HX). lia.
Qed.

Lemma _sp_exptmod_ex_is : calc e 0 (_sp_exptmod_ex b ex (mp_used ex * 32) m r) (fun '(err, r') => outcome (sp_is n (B ^ E mod M)) err r').
Proof.
  pose proof modulus_used. unfold _sp_exptmod_ex. fold k. apply calc_alloc; [change SP_INT_DIGITS with 35; lia| |intros Ho; sp_skip; by right]. cbn [Z.eqb].
  rewrite w16_id by lia. pose proof (fresh_box k k ltac:(lia) ltac:(change SP_INT_DIGITS with 35; lia)) as Ht. set (t := _sp_init_size _ k) in *. clearbody t.
  eapply (calc_bind e _ _ _ (fun '(err, r') => outcome (sp_is n (B ^ E mod M)) err r')); [|intros [err r'] Hr'; by sp_skip].
  eapply calc_bind; [by apply reduced_base_is|]. intros [err t0] (-> & x & -> & Hx). cbn [Z.eqb negb].
  assert (Hv : valued k M 1 B x) by (exists B; split; [done|]; split; [lia|]; exists 0; lia).
  eapply calc_bind; [apply (exp_loop_is k M B E 1 ne ex); [intros y v; apply sqrmod_form|intros y v Hy; apply (mulmod_form nb B b); [done|lia|done]|done| | |done]|].
  - pose proof (si_used _ _ _ Hex). rewrite Z2Nat.id by lia. lia.
  - apply start_power; [done|]. by apply valued_copy.
  - rewrite Z.max_r by lia. intros [err t1] Ht1. sp_steps. apply finish_power; [|apply Z.mod_pos_bound; lia].
    destruct Ht1 as [(-> & X & HX & Hf)|?]; [left|by right]. split; [done|]. rewrite <-(form_1 M _ X); [done|lia|done].
Qed.

Lemma _sp_exptmod_base_2_is : B = 2 -> Z.odd M = true ->
  calc e 0 (_sp_exptmod_base_2 ex (mp_used ex) m r) (fun '(err, r') => outcome (sp_is n (B ^ E mod M)) err r').
Proof.
  intros -> HMo. pose proof modulus_used. unfold _sp_exptmod_base_2. replace (mp_used m * 2 + 1) with k by (unfold k; lia).
  apply calc_alloc; [change SP_INT_DIGITS with 35; lia| |intros Ho; sp_skip; by right]. cbn [Z.eqb].
  rewrite w16_id by lia. pose proof (fresh_box k k ltac:(lia) ltac:(change SP_INT_DIGITS with 35; lia)) as Ht. set (t := _sp_init_size _ k) in *. clearbody t.
  eapply (calc_bind e _ _ _ (fun '(err, r') => outcome (sp_is n (2 ^ E mod M)) err r')); [|intros [err r'] Hr'; by sp_skip].
  eapply calc_bind; [by apply (exp2_body_is ne E)|]. intros [err t1] Ht1. sp_steps. apply finish_power; [done|apply Z.mod_pos_bound; lia].
Qed.

Section PowerOdd.
Hypothesis HMo : Z.odd M = true.
Let R : Z := 2 ^ mont_bits M.

Lemma exptmod_mont_body_is t0 t : sp_is k B t0 -> sp_box k t ->
  calc e 0 (exptmod_mont_body ex (mp_used ex * 32) m t0 t) (fun '(err, t1) => outcome (sp_is k (B ^ E mod M)) err t1).
Proof.
  intros Ht0 Ht. pose proof modulus_used. unfold exptmod_mont_body. eapply calc_bind; [by apply (_sp_mont_setup_is e nm M m)|]. intros mp [_ Hmp].
  eapply calc_bind; [apply (sp_mont_norm_is e k nm M); [done|done|lia|done|lia]|]. intros [err t1] [-> Ht1]. cbn [Z.eqb]. fold R in Ht1.
  pose proof (Z.mod_pos_bound R M ltac:(lia)). pose proof (below_used _ _ _ Ht0 ltac:(lia)). pose proof (below_used _ _ _ Ht1 ltac:(lia)).
  eapply calc_bind; [apply (sp_mul_is e k k k B (R mod M) t0 t1 t0 Ht0 Ht1); by destruct Ht0|]. intros [err t2] Ht2. rewrite (proj2 (Z.ltb_ge k _)) in Ht2 by lia.
  destruct Ht2 as [[-> Ht2]|(-> & -> & Ho)]; [|sp_skip; by right]. cbn [Z.eqb].
  assert (Hu2 : mp_used t2 <= 2 * mp_used m).
  { apply (sp_is_used Ht2); [lia|]. replace (2 * mp_used m) with (mp_used m + mp_used m) by lia. rewrite pw_add by lia. nia. }
  apply calc_assoc. eapply calc_bind; [apply (_sp_div_is e k nm 1 k (B * (R mod M)) M t2 m None (Some t2) Ht2 Hm ltac:(lia)); [change SP_INT_DIGITS with 35; lia|done|]|].
  { split; [by destruct Ht2|lia]. }
  intros [[err q] rem] [(-> & _ & Hrem)|[-> Ho]]; [|sp_skip; by right]. destruct rem as [t3|]; [|done]. cbn in Hrem. sp_steps. cbn [from_option id Z.eqb negb].
  assert (Hf : form R M B ((B * (R mod M)) mod M)).
  { split; [apply Z.mod_pos_bound; lia|]. rewrite Zmult_mod_idemp_r, Z.mod_eq by lia. exists (- (B * R / M)). lia. }
  assert (Hv : valued k M R B t3) by (by eexists).
  eapply calc_bind; [apply (exp_loop_is k M B E R ne ex); [intros y v; apply (mont_sqr_form mp HMo Hmp)|intros y v Hy|done| | |done]|].
  - eapply (mont_mul_form mp HMo Hmp); [|exact Hf|done]. apply (sp_copy_is k k); [done|done|]. pose proof (si_used _ _ _ Hrem). lia.
  - pose proof (si_used _ _ _ Hex). rewrite Z2Nat.id by lia. lia.
  - apply start_power; [done|]. apply valued_copy; [done|by destruct Ht1].
  - rewrite Z.max_r by lia. intros [err t4] [[-> Ht4]|[-> Ho]]; [|sp_skip; by right]. cbn [Z.eqb]. by apply (mont_leave mp HMo Hmp).
Qed.

Lemma _sp_exptmod_mont_ex_is : calc e 0 (_sp_exptmod_mont_ex b ex (mp_used ex * 32) m r) (fun '(err, r') => outcome (sp_is n (B ^ E mod M)) err r').
Proof.
  pose proof modulus_used. unfold _sp_exptmod_mont_ex. replace (mp_used m * 2 + 1) with k by (unfold k; lia).
  apply calc_alloc; [change SP_INT_DIGITS with 35; lia| |intros Ho; sp_skip; by right]. cbn [Z.eqb].
  rewrite w16_id by lia. pose proof (fresh_box k k ltac:(lia) ltac:(change SP_INT_DIGITS with 35; lia)) as Ht. set (t := _sp_init_size _ k) in *. clearbody t.
  eapply (calc_bind e _ _ _ (fun '(err, r') => outcome (sp_is n (B ^ E mod M)) err r')); [|intros [err r'] Hr'; by sp_skip].
  eapply calc_bind; [by apply reduced_base_is|]. intros [err t0] (-> & x & -> & Hx). cbn [Z.eqb negb].
  eapply calc_bind; [by apply exptmod_mont_body_is|]. intros [err t1] Ht1. sp_steps. apply finish_power; [done|apply Z.mod_pos_bound; lia].
Qed.
End PowerOdd.
End Power.
End Modulus.
End Exp.

(** C23. Modular exponentiation.  For a modulus of up to 17 digits, any exponent, and a base
    of fewer than 35 digits, [sp_exptmod] ends, keeps no memory, stays inside its objects
    and answers the power of the integers modulo the modulus, whether it works with plain,
    with Montgomery or with powers of two, or MP_MEM where memory may run out; a modulus
    zero is refused. *)
Theorem sp_exptmod_exact env nb ne nm n B E M b ex m r : sp_is nb B b -> sp_is ne E ex -> sp_is nm M m -> sp_box n r ->
  mp_used b < SP_INT_DIGITS -> mp_used m <= 17 -> mp_used m * 2 < n ->
  calc env 0 (sp_exptmod b ex m r false) (fun '(err, r') =>
    if M =? 0 then err = MP_VAL /\ r' = r else (err = 0 /\ sp_is n (B ^ E mod M) r') \/ (err = MP_MEM /\ oom env)).
Proof.
  intros Hb Hex Hm Hr Hub H17 Hn. pose proof (si_used _ _ _ Hm) as Hum. pose proof (si_used _ _ _ Hex) as Hue. pose proof (sp_is_range Hb) as HrB. pose proof (sp_is_range Hm) as HrM.
  pose proof (sp_is_range Hex) as HrE. unfold sp_exptmod, sp_exptmod_ex. rewrite (proj2 (Z.ltb_ge (mp_used ex) 0)), (proj2 (Z.leb_gt SP_INT_DIGITS _)) by (change SP_INT_DIGITS with 35; lia).
  destruct (Z.eqb_spec M 0) as [->|HM0]; [rewrite (proj2 (sp_is_0 Hm)) by done; by sp_skip|].
  rewrite (proj2 (Z.eqb_neq (mp_used m) 0)) by (intros E0; apply (sp_is_0 Hm) in E0; lia). eapply calc_isone; [done|]. destruct (Z.eqb_spec M 1) as [->|HM1].
  { calc_step. left. split; [done|]. rewrite Z.mod_1_r. apply sp_set_is; [done|lia]. }
  destruct (Z.eqb_spec (mp_used ex) 0) as [E0|E0].
  { calc_step. left. split; [done|]. apply (sp_is_0 Hex) in E0 as ->. rewrite Z.pow_0_r, Z.mod_1_l by lia. apply sp_set_is; [done|lia]. }
  assert (HE : 0 < E) by (assert (E <> 0) by (intros E1; by apply E0, (sp_is_0 Hex)); lia).
  eapply (calc_bind env _ _ _ (fun '(err, b', r') => (err = 0 /\ sp_box n r' /\ exists k, sp_is k (B mod M) b') \/ (err = MP_MEM /\ oom env))).
  { rewrite (sp_cmp_lt nb nm B M) by done. destruct (Z.ltb_spec B M); cbn [negb].
    - calc_step. left. split; [done|]. split; [done|]. exists nb. by rewrite Z.mod_small by lia.
    - eapply calc_bind; [apply (sp_mod_is env nb nm n B M); [done|done|lia|done|done|lia]|]. intros [err r'] [[-> Hr']|[-> Ho]]; calc_step; [left|by right].
      split; [done|]. split; [by destruct Hr'|]. by exists n. }
  intros [[err b'] r'] [(-> & Hr' & k & Hb')|[-> Ho]]; [|sp_skip; by right]. cbn [Z.eqb negb]. rewrite <-(Z.mod_pow_l B) by lia.
  pose proof (Z.mod_pos_bound B M ltac:(lia)) as HBm. set (B' := B mod M) in *. clearbody B'. destruct (Z.eqb_spec (mp_used b') 0) as [Eb|Eb].
  { calc_step. left. split; [done|]. apply (sp_is_0 Hb') in Eb as ->. rewrite Z.pow_0_l, Z.mod_0_l by lia. apply sp_set_is; [done|lia]. }
  assert (HB : 0 < B' < M) by (assert (B' <> 0) by (intros E1; by apply Eb, (sp_is_0 Hb')); lia).
  rewrite (sb_size _ _ Hr'), (proj2 (Z.leb_gt n _)) by lia. pose proof (sb_len _ _ (si_box _ _ _ Hb')). pose proof (si_used _ _ _ Hb'). sp_step.
  eapply calc_isodd; [done|]. destruct (low_digit _ _ _ Hb' Eb) as (h & Hh & _ & Hh0).
  destruct ((mp_used b' =? 1) && _ && _) eqn:E2.
  { apply andb_prop in E2 as [E2 Eodd]. apply andb_prop in E2 as [E1 E2]. apply Z.eqb_eq in E1, E2. rewrite (Hh0 E1), Z.mul_0_r, Z.add_0_r in Hh.
    eapply (_sp_exptmod_base_2_is env nm M m Hm); first [eassumption|lia]. }
  destruct ((1 <? mp_used m) && Z.odd M) eqn:E3.
  - apply andb_prop in E3 as [_ Eodd]. eapply (_sp_exptmod_mont_ex_is env nm M m Hm); first [eassumption|lia].
  - eapply (_sp_exptmod_ex_is env nm M m Hm); first [eassumption|lia].
Qed.

Lemma sp_exptmod_exact_witness :
  calc env_plenty 0 (sp_exptmod (sp_lit 2 3) (sp_lit 2 200) (sp_lit 2 0x1fffffffffffffff) (sp_lit 5 0) false)
    (fun '(err, r) => err = 0 /\ sp_val r = 0x5e3cf3fd8a82b5c).
Proof.
  eapply calc_mono.
  - apply (sp_exptmod_exact env_plenty 2 2 2 5 3 200 0x1fffffffffffffff).
    1, 2, 3: apply sp_lit_is; [done|split; [done|reflexivity]].
    + apply (sp_lit_is 5 0); done.
    + reflexivity.
    + vm_compute. discriminate.
    + reflexivity.
  - intros [err r] [[-> Hr]|[_ [n Hn]]]; [|discriminate]. split; [done|]. rewrite (sp_is_sp_val _ _ _ Hr). reflexivity.
Defined.
