(* ===== verification/Ecc.v ===== *)
(** * Ecc: elliptic-curve keys (ecc.c)

    The library is built so that the arithmetic on the curve is left to a
    crypto callback: what ecc.c itself does is look after key objects.
    Modelled are the curve table, the life cycle of a key, import and export of
    public points in X9.63 form and of private scalars, and the two operations
    that go to the callback, key generation and key agreement.  The import does not
    try a point in the curve's equation: it takes any pair of integers. *)

From Stdlib Require Import Ascii.
From stdpp Require Import strings.
From S2P Require Import Prelude Platform Types Misc CryptoCb SpInt.

(** ** Constants *)

(** ecc.h:178, [ECC_PUBLICKEY] *)
Notation ECC_PUBLICKEY := (1)%Z (only parsing).
(** ecc.h:179, [ECC_PRIVATEKEY] *)
Notation ECC_PRIVATEKEY := (2)%Z (only parsing).
(** ecc.h:180, [ECC_PRIVATEKEY_ONLY] *)
Notation ECC_PRIVATEKEY_ONLY := (3)%Z (only parsing).
(** ecc.h:183, [ECC_BUFSIZE] *)
Notation ECC_BUFSIZE := (257)%Z (only parsing).
(** ecc.h:189, [ECC_MAXSIZE] *)
Notation ECC_MAXSIZE := (66)%Z (only parsing).
(** ecc.h:227, [ECC_POINT_COMP_EVEN] *)
Notation ECC_POINT_COMP_EVEN := (2)%Z (only parsing).
(** ecc.h:228, [ECC_POINT_COMP_ODD] *)
Notation ECC_POINT_COMP_ODD := (3)%Z (only parsing).
(** ecc.h:229, [ECC_POINT_UNCOMP] *)
Notation ECC_POINT_UNCOMP := (4)%Z (only parsing).
(** ecc.h:248, [ECC_CURVE_INVALID] *)
Notation ECC_CURVE_INVALID := (-1)%Z (only parsing).
(** ecc.h:249, [ECC_CURVE_DEF] *)
Notation ECC_CURVE_DEF := (0)%Z (only parsing).
(** ecc.h:255, [ECC_PRIME239V1] *)
Notation ECC_PRIME239V1 := (4)%Z (only parsing).
(** ecc.h:258, [ECC_SECP256R1] *)
Notation ECC_SECP256R1 := (7)%Z (only parsing).
(** ecc.h:267, [ECC_SECP224R1] *)
Notation ECC_SECP224R1 := (14)%Z (only parsing).
(** ecc.h:268, [ECC_SECP384R1] *)
Notation ECC_SECP384R1 := (15)%Z (only parsing).
(** ecc.h:269, [ECC_SECP521R1] *)
Notation ECC_SECP521R1 := (16)%Z (only parsing).
(** ecc.c:459, [ECC_STATE_NONE] *)
Notation ECC_STATE_NONE := (0)%Z (only parsing).
(** ecc.h:506, [WC_ECC_FLAG_NONE] *)
Notation WC_ECC_FLAG_NONE := (0)%Z (only parsing).
Notation ECC_CUSTOM_IDX := (-1)%Z (only parsing).

(** ** The curves *)

Local Open Scope string_scope.

(** ecc.c:1205-1219, [ecc_sets] *)
Definition ecc_secp224r1 : ecc_set_type :=
  {| ecc_size := 28; ecc_id := ECC_SECP224R1; ecc_name := "SECP224R1";
     ecc_prime := "FFFFFFFFFFFFFFFFFFFFFFFFFFFFFFFF000000000000000000000001";
     ecc_Af := "FFFFFFFFFFFFFFFFFFFFFFFFFFFFFFFEFFFFFFFFFFFFFFFFFFFFFFFE";
     ecc_Bf := "B4050A850C04B3ABF54132565044B0B7D7BFD8BA270B39432355FFB4";
     ecc_order := "FFFFFFFFFFFFFFFFFFFFFFFFFFFF16A2E0B8F03E13DD29455C5C2A3D";
     ecc_Gx := "B70E0CBD6BB4BF7F321390B94A03C1D356C21122343280D6115C1D21";
     ecc_Gy := "BD376388B5F723FB4C22DFE6CD4375A05A07476444D5819985007E34";
     ecc_oid := [0x2B; 0x81; 0x04; 0x00; 0x21]; ecc_oidSz := 5; ecc_oidSum := 0x7f047e0a; ecc_cofactor := 1 |}.

(** ecc.c:1258-1272, [ecc_sets] *)
Definition ecc_prime239v1 : ecc_set_type :=
  {| ecc_size := 30; ecc_id := ECC_PRIME239V1; ecc_name := "PRIME239V1";
     ecc_prime := "7FFFFFFFFFFFFFFFFFFFFFFF7FFFFFFFFFFF8000000000007FFFFFFFFFFF";
     ecc_Af := "7FFFFFFFFFFFFFFFFFFFFFFF7FFFFFFFFFFF8000000000007FFFFFFFFFFC";
     ecc_Bf := "6B016C3BDCF18941D0D654921475CA71A9DB2FB27D1D37796185C2942C0A";
     ecc_order := "7FFFFFFFFFFFFFFFFFFFFFFF7FFFFF9E5E9A9F5D9071FBD1522688909D0B";
     ecc_Gx := "0FFA963CDCA8816CCC33B8642BEDF905C3D358573D3F27FBBD3B3CB9AAAF";
     ecc_Gy := "7DEBE8E4E90A5DAE6E4054CA530BA04654B36818CE226B39FCCB7B02F1AE";
     ecc_oid := [0x2A; 0x86; 0x48; 0xCE; 0x3D; 0x03; 0x01; 0x04]; ecc_oidSz := 8; ecc_oidSum := 0x4a498517; ecc_cofactor := 1 |}.

(** ecc.c:1311-1325, [ecc_sets] *)
Definition ecc_secp256r1 : ecc_set_type :=
  {| ecc_size := 32; ecc_id := ECC_SECP256R1; ecc_name := "SECP256R1";
     ecc_prime := "FFFFFFFF00000001000000000000000000000000FFFFFFFFFFFFFFFFFFFFFFFF";
     ecc_Af := "FFFFFFFF00000001000000000000000000000000FFFFFFFFFFFFFFFFFFFFFFFC";
     ecc_Bf := "5AC635D8AA3A93E7B3EBBD55769886BC651D06B0CC53B0F63BCE3C3E27D2604B";
     ecc_order := "FFFFFFFF00000000FFFFFFFFFFFFFFFFBCE6FAADA7179E84F3B9CAC2FC632551";
     ecc_Gx := "6B17D1F2E12C4247F8BCE6E563A440F277037D812DEB33A0F4A13945D898C296";
     ecc_Gy := "4FE342E2FE1A7F9B8EE7EB4A7C0F9E162BCE33576B315ECECBB6406837BF51F5";
     ecc_oid := [0x2A; 0x86; 0x48; 0xCE; 0x3D; 0x03; 0x01; 0x07]; ecc_oidSz := 8; ecc_oidSum := 0x49498517; ecc_cofactor := 1 |}.

(** ecc.c:1401-1414, [ecc_sets] *)
Definition ecc_secp384r1 : ecc_set_type :=
  {| ecc_size := 48; ecc_id := ECC_SECP384R1; ecc_name := "SECP384R1";
     ecc_prime := "FFFFFFFFFFFFFFFFFFFFFFFFFFFFFFFFFFFFFFFFFFFFFFFFFFFFFFFFFFFFFFFEFFFFFFFF0000000000000000FFFFFFFF";
     ecc_Af := "FFFFFFFFFFFFFFFFFFFFFFFFFFFFFFFFFFFFFFFFFFFFFFFFFFFFFFFFFFFFFFFEFFFFFFFF0000000000000000FFFFFFFC";
     ecc_Bf := "B3312FA7E23EE7E4988E056BE3F82D19181D9C6EFE8141120314088F5013875AC656398D8A2ED19D2A85C8EDD3EC2AEF";
     ecc_order := "FFFFFFFFFFFFFFFFFFFFFFFFFFFFFFFFFFFFFFFFFFFFFFFFC7634D81F4372DDF581A0DB248B0A77AECEC196ACCC52973";
     ecc_Gx := "AA87CA22BE8B05378EB1C71EF320AD746E1D3B628BA79B9859F741E082542A385502F25DBF55296C3A545E3872760AB7";
     ecc_Gy := "3617DE4A96262C6F5D9E98BF9292DC29F8F41DBD289A147CE9DA3113B5F0B8C00A60B1CE1D7E819D7A431D7C90EA0E5F";
     ecc_oid := [0x2B; 0x81; 0x04; 0x00; 0x22]; ecc_oidSz := 5; ecc_oidSum := 0x7f047e09; ecc_cofactor := 1 |}.

(** ecc.c:1453-1466, [ecc_sets] *)
Definition ecc_secp521r1 : ecc_set_type :=
  {| ecc_size := 66; ecc_id := ECC_SECP521R1; ecc_name := "SECP521R1";
     ecc_prime := "1FFFFFFFFFFFFFFFFFFFFFFFFFFFFFFFFFFFFFFFFFFFFFFFFFFFFFFFFFFFFFFFFFFFFFFFFFFFFFFFFFFFFFFFFFFFFFFFFFFFFFFFFFFFFFFFFFFFFFFFFFFFFFFFFFF";
     ecc_Af := "1FFFFFFFFFFFFFFFFFFFFFFFFFFFFFFFFFFFFFFFFFFFFFFFFFFFFFFFFFFFFFFFFFFFFFFFFFFFFFFFFFFFFFFFFFFFFFFFFFFFFFFFFFFFFFFFFFFFFFFFFFFFFFFFFFC";
     ecc_Bf := "51953EB9618E1C9A1F929A21A0B68540EEA2DA725B99B315F3B8B489918EF109E156193951EC7E937B1652C0BD3BB1BF073573DF883D2C34F1EF451FD46B503F00";
     ecc_order := "1FFFFFFFFFFFFFFFFFFFFFFFFFFFFFFFFFFFFFFFFFFFFFFFFFFFFFFFFFFFFFFFFFA51868783BF2F966B7FCC0148F709A5D03BB5C9B8899C47AEBB6FB71E91386409";
     ecc_Gx := "C6858E06B70404E9CD9E3ECB662395B4429C648139053FB521F828AF606B4D3DBAA14B5E77EFE75928FE1DC127A2FFA8DE3348B3C1856A429BF97E7E31C2E5BD66";
     ecc_Gy := "11839296A789A3BC0045C8A5FB42C7D1BD998F54449579B446817AFBD17273E662C97EE72995EF42640C550B9013FAD0761353C7086A272C24088BE94769FD16650";
     ecc_oid := [0x2B; 0x81; 0x04; 0x00; 0x23]; ecc_oidSz := 5; ecc_oidSum := 0x7f047e08; ecc_cofactor := 1 |}.

(** ecc.c:971-1512, [ecc_sets]: the entries before the terminating one. *)
Definition ecc_sets : list ecc_set_type :=
  [ecc_secp224r1; ecc_prime239v1; ecc_secp256r1; ecc_secp384r1; ecc_secp521r1].

Local Close Scope string_scope.

(** ecc.c:4352-4368, [wc_ecc_is_valid_idx] *)
Definition wc_ecc_is_valid_idx (n : Z) : bool :=
  if len ecc_sets + 1 <=? n then false else (ECC_CUSTOM_IDX <=? n) && (n <? len ecc_sets).

(** ecc.c:4370-4381, [wc_ecc_get_curve_idx] *)
Definition wc_ecc_get_curve_idx (curve_id : Z) : Z :=
  match list_find (fun s => ecc_id s = curve_id) ecc_sets with
  | Some (i, _) => Z.of_nat i
  | None => ECC_CURVE_INVALID
  end.

(** ecc.c:4383-4389, [wc_ecc_get_curve_id] *)
Definition wc_ecc_get_curve_id (curve_idx : Z) : Z :=
  if wc_ecc_is_valid_idx curve_idx && (0 <=? curve_idx)
  then from_option ecc_id ECC_CURVE_INVALID (ecc_sets !! Z.to_nat curve_idx) else ECC_CURVE_INVALID.

(** ecc.c:4396-4402, [wc_ecc_get_curve_size_from_id] *)
Definition wc_ecc_get_curve_size_from_id (curve_id : Z) : Z :=
  let curve_idx := wc_ecc_get_curve_idx curve_id in
  if curve_idx =? ECC_CURVE_INVALID then ECC_BAD_ARG_E
  else from_option ecc_size 0 (ecc_sets !! Z.to_nat curve_idx).

(** ecc.c:4650-4715, [wc_ecc_get_curve_id_from_oid] *)
Definition wc_ecc_get_curve_id_from_oid (oid : option bytes) (n : Z) : Z :=
  match oid with
  | None => BAD_FUNC_ARG
  | Some oid =>
    if n =? 0 then ECC_CURVE_INVALID
    else match list_find (fun s => ecc_oidSz s = n /\ ecc_oid s = take (Z.to_nat n) oid) ecc_sets with
    | Some (_, s) => ecc_id s
    | None => ECC_CURVE_INVALID
    end
  end.

(** ** Keys *)

Definition mp_raw_zero : mp_int := {| mp_used := 0; mp_size := 0; mp_dp := zeros SP_INT_DIGITS |}.

(** A key object of zero bytes. *)
Definition ecc_key_zero : ecc_key :=
  {| ek_type := 0; ek_idx := 0; ek_state := 0; ek_flags := 0; ek_dp := None;
     ek_pubkey := {| pt_x := mp_raw_zero; pt_y := mp_raw_zero; pt_z := mp_raw_zero; pt_isAllocated := false |};
     ek_k := mp_raw_zero; ek_devCtx := 0; ek_devId := 0; ek_rng := false |}.

Definition set_numbers (x y z k : mp_int) (key : ecc_key) : ecc_key :=
  {| ek_type := ek_type key; ek_idx := ek_idx key; ek_state := ek_state key; ek_flags := ek_flags key;
     ek_dp := ek_dp key;
     ek_pubkey := {| pt_x := x; pt_y := y; pt_z := z; pt_isAllocated := pt_isAllocated (ek_pubkey key) |};
     ek_k := k; ek_devCtx := ek_devCtx key; ek_devId := ek_devId key; ek_rng := ek_rng key |}.

Definition set_curve_of (idx : Z) (dp : option ecc_set_type) (key : ecc_key) : ecc_key :=
  {| ek_type := ek_type key; ek_idx := idx; ek_state := ek_state key; ek_flags := ek_flags key; ek_dp := dp;
     ek_pubkey := ek_pubkey key; ek_k := ek_k key; ek_devCtx := ek_devCtx key; ek_devId := ek_devId key;
     ek_rng := ek_rng key |}.

Definition set_kind (type state flags : Z) (key : ecc_key) : ecc_key :=
  {| ek_type := type; ek_idx := ek_idx key; ek_state := state; ek_flags := flags; ek_dp := ek_dp key;
     ek_pubkey := ek_pubkey key; ek_k := ek_k key; ek_devCtx := ek_devCtx key; ek_devId := ek_devId key;
     ek_rng := ek_rng key |}.

Definition set_type (t : Z) (key : ecc_key) : ecc_key := set_kind t (ek_state key) (ek_flags key) key.

Definition set_device (ctx devId : Z) (rng : bool) (key : ecc_key) : ecc_key :=
  {| ek_type := ek_type key; ek_idx := ek_idx key; ek_state := ek_state key; ek_flags := ek_flags key;
     ek_dp := ek_dp key; ek_pubkey := ek_pubkey key; ek_k := ek_k key; ek_devCtx := ctx; ek_devId := devId;
     ek_rng := rng |}.

(** ecc.c:5552-5556, [wc_ecc_reset] *)
Definition wc_ecc_reset (key : ecc_key) : ecc_key := set_kind (ek_type key) ECC_STATE_NONE (ek_flags key) key.

(** [sp_init_multi] on the numbers of a key. *)
Definition init_numbers (key : ecc_key) : Z * ecc_key :=
  let p := ek_pubkey key in
  let i n := _sp_init_size n SP_INT_DIGITS in
  (0, set_numbers (i (pt_x p)) (i (pt_y p)) (i (pt_z p)) (i (ek_k key)) key).

(** ecc.c:6450-6586, [wc_ecc_init_ex] *)
Definition wc_ecc_init_ex (key : ecc_key) (devId : Z) : Z * ecc_key :=
  let key := ecc_key_zero in
  let key := set_kind (ek_type key) ECC_STATE_NONE (ek_flags key) key in
  let key := set_device 0 devId false key in
  let '(ret, key) := init_numbers key in
  if negb (ret =? 0) then (MEMORY_E, key) else (ret, key).

(** ecc.c:6589-6596, [wc_ecc_init] *)
Definition wc_ecc_init (key : ecc_key) : Z * ecc_key := wc_ecc_init_ex key INVALID_DEVID.

(** [sp_clear] of the point and [sp_forcezero] of the scalar. *)
Definition wipe_numbers (key : ecc_key) : ecc_key :=
  let p := ek_pubkey key in
  set_numbers (sp_clear (pt_x p)) (sp_clear (pt_y p)) (sp_clear (pt_z p)) (sp_forcezero (ek_k key)) key.

(** ecc.c:8569-8684, [wc_ecc_free] *)
Definition wc_ecc_free (key : ecc_key) : Z * ecc_key := (0, wipe_numbers key).

(** ecc.c:6391-6404, [wc_ecc_key_new_ex] *)
Definition wc_ecc_key_new_ex (devId : Z) : M (option ecc_key) :=
  p ← wolfSSL_Malloc;
  if p : bool then
    let '(ret, key) := wc_ecc_init_ex ecc_key_zero devId in
    if negb (ret =? 0) then _ ← wolfSSL_Free; mret None else mret (Some key)
  else mret None.

(** ecc.c:6407-6417, [wc_ecc_key_new] *)
Definition wc_ecc_key_new : M (option ecc_key) := wc_ecc_key_new_ex INVALID_DEVID.

(** ecc.c:6421-6431, [wc_ecc_key_free] *)
Definition wc_ecc_key_free (key : option ecc_key) : M unit :=
  match key with
  | Some key => let _ := wc_ecc_free key in wolfSSL_Free
  | None => mret tt
  end.

(** ecc.c:6652-6659, [wc_ecc_set_flags] *)
Definition wc_ecc_set_flags (key : ecc_key) (flags : Z) : Z * ecc_key :=
  (0, set_kind (ek_type key) (ek_state key) (w32 (Z.lor (ek_flags key) flags)) key).

(** ecc.c:15108-15126, [wc_ecc_set_rng] *)
Definition wc_ecc_set_rng (key : ecc_key) (rng : bool) : Z * ecc_key :=
  (0, set_device (ek_devCtx key) (ek_devId key) rng key).

(** ecc.c:15131-15148, [wc_ecc_clear_rng] *)
Definition wc_ecc_clear_rng (key : ecc_key) : Z * ecc_key := wc_ecc_set_rng key false.

(** ecc.c:1991-2029, [wc_ecc_set_curve] *)
Definition wc_ecc_set_curve (key : ecc_key) (keysize curve_id : Z) : Z * ecc_key :=
  if (keysize <=? 0) && (curve_id <? 0) then (BAD_FUNC_ARG, key)
  else if ECC_MAXSIZE <? keysize then (ECC_BAD_ARG_E, key)
  else if negb (ek_idx key =? ECC_CUSTOM_IDX) then
    match (if ECC_CURVE_DEF <? curve_id then list_find (fun s => ecc_id s = curve_id) ecc_sets
           else list_find (fun s => keysize <= ecc_size s) ecc_sets) with
    | None => (ECC_CURVE_OID_E, set_curve_of 0 None key)
    | Some (x, s) => (0, set_curve_of (Z.of_nat x) (Some s) key)
    end
  else (0, key).

(** ** Operations answered by the callback *)

Section Keys.
Context `{!Callbacks}.

(** ecc.c:4783-4886, [wc_ecc_shared_secret]: the code, the buffer and the length. *)
Definition wc_ecc_shared_secret (private_key public_key : ecc_key) (out : bytes) (outlen : Z) : M (Z * (bytes * Z)) :=
  '(err, r) ←
    (if negb (ek_devId private_key =? INVALID_DEVID) then wc_CryptoCb_Ecdh private_key public_key out outlen
     else mret (CRYPTOCB_UNAVAILABLE, (out, outlen)));
  if negb (err =? CRYPTOCB_UNAVAILABLE) then mret (err, r) else mret (NO_VALID_DEVID, r).

(** ecc.c:5867-5932, [_ecc_make_key_ex] *)
Definition _ecc_make_key_ex (rng : WC_RNG) (keysize : Z) (key : ecc_key) (curve_id flags : Z)
    : M (Z * (WC_RNG * ecc_key)) :=
  let key := wc_ecc_reset key in
  let '(err, key) := wc_ecc_set_curve key keysize curve_id in
  if negb (err =? 0) then mret (err, (rng, key))
  else
    let key := set_kind (ek_type key) (ek_state key) (w8 flags) key in
    '(err, r) ←
      (if negb (ek_devId key =? INVALID_DEVID) then wc_CryptoCb_MakeEccKey rng keysize key curve_id
       else mret (CRYPTOCB_UNAVAILABLE, (rng, key)));
    if negb (err =? CRYPTOCB_UNAVAILABLE) then mret (err, r) else mret (NO_VALID_DEVID, r).

(** ecc.c:6295-6324, [wc_ecc_make_key_ex2] *)
Definition wc_ecc_make_key_ex2 (rng : WC_RNG) (keysize : Z) (key : ecc_key) (curve_id flags : Z)
    : M (Z * (WC_RNG * ecc_key)) := _ecc_make_key_ex rng keysize key curve_id flags.

(** ecc.c:6327-6330, [wc_ecc_make_key_ex] *)
Definition wc_ecc_make_key_ex (rng : WC_RNG) (keysize : Z) (key : ecc_key) (curve_id : Z)
    : M (Z * (WC_RNG * ecc_key)) := wc_ecc_make_key_ex2 rng keysize key curve_id WC_ECC_FLAG_NONE.

(** ecc.c:6443-6446, [wc_ecc_make_key] *)
Definition wc_ecc_make_key (rng : WC_RNG) (keysize : Z) (key : ecc_key) : M (Z * (WC_RNG * ecc_key)) :=
  wc_ecc_make_key_ex rng keysize key ECC_CURVE_DEF.

End Keys.

(** ** Export *)

(** ecc.c:10690-10776, [_ecc_export_x963] *)
Definition _ecc_export_x963 (key : ecc_key) (out : option bytes) (outLen : Z) : M (Z * option bytes * Z) :=
  match out with
  | None => mret (LENGTH_ONLY_E, None, 1 + 2 * from_option ecc_size (521 / 8 + 1) (ek_dp key))
  | Some o =>
    if ek_type key =? ECC_PRIVATEKEY_ONLY then mret (ECC_PRIVATEONLY_E, out, outLen)
    else match ek_dp key with
    | None => mret (ECC_BAD_ARG_E, out, outLen)
    | Some dp =>
      if (ek_type key =? 0) || negb (wc_ecc_is_valid_idx (ek_idx key)) then mret (ECC_BAD_ARG_E, out, outLen)
      else
        let numlen := ecc_size dp in
        if outLen <? 1 + 2 * numlen then mret (BUFFER_E, out, 1 + 2 * numlen)
        else
          let x := pt_x (ek_pubkey key) in
          let y := pt_y (ek_pubkey key) in
          let pubxlen := sp_unsigned_bin_size x in
          let pubylen := sp_unsigned_bin_size y in
          if (numlen <? pubxlen) || (numlen <? pubylen) then mret (BUFFER_E, out, outLen)
          else
            o ← wr o 0 [ECC_POINT_UNCOMP];
            buf ← wolfSSL_Malloc;
            if negb buf then mret (MEMORY_E, Some o, outLen)
            else
              '(ret, buf) ← sp_to_unsigned_bin x (zeros ECC_BUFSIZE) (numlen - pubxlen);
              if negb (ret =? 0) then _ ← wolfSSL_Free; mret (ret, Some o, outLen)
              else
                b ← rd buf 0 numlen;
                o ← wr o 1 b;
                '(ret, buf) ← sp_to_unsigned_bin y (zeros ECC_BUFSIZE) (numlen - pubylen);
                if negb (ret =? 0) then _ ← wolfSSL_Free; mret (ret, Some o, outLen)
                else
                  b ← rd buf 0 numlen;
                  o ← wr o (1 + numlen) b;
                  _ ← wolfSSL_Free;
                  mret (ret, Some o, 1 + 2 * numlen)
    end
  end.

(** ecc.c:10781-10838, [wc_ecc_export_x963] *)
Definition wc_ecc_export_x963 (key : ecc_key) (out : option bytes) (outLen : Z) : M (Z * option bytes * Z) :=
  match out with
  | None => mret (LENGTH_ONLY_E, None, 1 + 2 * from_option ecc_size (521 / 8 + 1) (ek_dp key))
  | Some _ =>
    if ek_type key =? ECC_PRIVATEKEY_ONLY then mret (ECC_PRIVATEONLY_E, out, outLen)
    else _ecc_export_x963 key out outLen
  end.

(** ecc.c:10843-10855, [wc_ecc_export_x963_ex] *)
Definition wc_ecc_export_x963_ex (key : ecc_key) (out : option bytes) (outLen : Z) (compressed : bool)
    : M (Z * option bytes * Z) :=
  if negb compressed then wc_ecc_export_x963 key out outLen else mret (NOT_COMPILED_IN, out, outLen).

(** wolfmath.c:227-272, [wc_export_int] with [encType] WC_TYPE_UNSIGNED_BIN, the
    only one in use. *)
Definition wc_export_int (mp : mp_int) (buf : bytes) (n keySz : Z) : M (Z * bytes * Z) :=
  if n <? keySz then mret (BUFFER_E, buf, keySz)
  else
    let mpSz := sp_unsigned_bin_size mp in
    if (mpSz <? 0) || (keySz <? mpSz) then mret (BUFFER_E, buf, keySz)
    else
      buf ← wr buf 0 (zeros keySz);
      '(err, buf) ← sp_to_unsigned_bin mp buf (keySz - mpSz);
      mret (err, buf, keySz).

(** ecc.c:12082-12173, [_ecc_export_ex], with [d] only. *)
Definition _ecc_export_ex_d (key : ecc_key) (d : bytes) (dLen : Z) : M (Z * bytes * Z) :=
  match ek_dp key with
  | None => mret (ECC_BAD_ARG_E, d, dLen)
  | Some dp =>
    if negb (wc_ecc_is_valid_idx (ek_idx key)) then mret (ECC_BAD_ARG_E, d, dLen)
    else if negb (ek_type key =? ECC_PRIVATEKEY) && negb (ek_type key =? ECC_PRIVATEKEY_ONLY)
    then mret (BAD_FUNC_ARG, d, dLen)
    else wc_export_int (ek_k key) d dLen (ecc_size dp)
  end.

(** ecc.c:12231-12248, [wc_ecc_export_private_only] *)
Definition wc_ecc_export_private_only (key : ecc_key) (out : option bytes) (outLen : Z) : M (Z * option bytes * Z) :=
  match out with
  | None => mret (BAD_FUNC_ARG, out, outLen)
  | Some o => '(ret, o, n) ← _ecc_export_ex_d key o outLen; mret (ret, Some o, n)
  end.

(** ** Import *)

(** ecc.c:11593-11991, [_ecc_import_x963_ex2]; no test of the point is compiled in. *)
Definition _ecc_import_x963_ex2 (inp : option bytes) (inLen : Z) (key : ecc_key) (curve_id : Z) (untrusted : bool)
    : M (Z * ecc_key) :=
  match inp with
  | None => mret (BAD_FUNC_ARG, key)
  | Some inp =>
    if Z.land inLen 1 =? 0 then mret (ECC_BAD_ARG_E, key)
    else
      let key := wc_ecc_reset key in
      let '(err, key) := init_numbers key in
      if negb (err =? 0) then mret (MEMORY_E, key)
      else
        b ← rd inp 0 1;
        let pointType := b !!! 0%nat in
        let err := if negb (pointType =? ECC_POINT_UNCOMP) && negb (pointType =? ECC_POINT_COMP_EVEN) &&
                      negb (pointType =? ECC_POINT_COMP_ODD) then ASN_PARSE_E else err in
        let err := if (pointType =? ECC_POINT_COMP_EVEN) || (pointType =? ECC_POINT_COMP_ODD)
                   then NOT_COMPILED_IN else err in
        let inLen := inLen - 1 in
        let keysize := if err =? 0 then Z.shiftr inLen 1 else 0 in
        let '(err, key) :=
          if err =? 0 then
            let '(err, key) := wc_ecc_set_curve key keysize curve_id in (err, set_type ECC_PUBLICKEY key)
          else (err, key) in
        let p := ek_pubkey key in
        '(err, x) ←
          (if err =? 0 then q ← rd inp 1 keysize; sp_read_unsigned_bin (pt_x p) (Some q) keysize
           else mret (err, pt_x p));
        '(err, y) ←
          (if err =? 0 then q ← rd inp (1 + keysize) keysize; sp_read_unsigned_bin (pt_y p) (Some q) keysize
           else mret (err, pt_y p));
        let '(err, z) := if err =? 0 then sp_set (pt_z p) 1 else (err, pt_z p) in
        let key := set_numbers x y z (ek_k key) key in
        mret (err, if negb (err =? 0) then wipe_numbers key else key)
  end.

(** ecc.c:11994-12061, [wc_ecc_import_x963_ex2] *)
Definition wc_ecc_import_x963_ex2 (inp : option bytes) (inLen : Z) (key : ecc_key) (curve_id : Z) (untrusted : bool)
    : M (Z * ecc_key) :=
  match inp with
  | None => mret (BAD_FUNC_ARG, key)
  | Some _ =>
    if Z.land inLen 1 =? 0 then mret (ECC_BAD_ARG_E, key)
    else _ecc_import_x963_ex2 inp inLen key curve_id untrusted
  end.

(** ecc.c:12064-12069, [wc_ecc_import_x963_ex] *)
Definition wc_ecc_import_x963_ex (inp : option bytes) (inLen : Z) (key : ecc_key) (curve_id : Z) : M (Z * ecc_key) :=
  wc_ecc_import_x963_ex2 inp inLen key curve_id true.

(** ecc.c:12072-12075, [wc_ecc_import_x963] *)
Definition wc_ecc_import_x963 (inp : option bytes) (inLen : Z) (key : ecc_key) : M (Z * ecc_key) :=
  wc_ecc_import_x963_ex inp inLen key ECC_CURVE_DEF.

(** ecc.c:12287-12339, [ecc_check_privkey_range] *)
Definition ecc_check_privkey_range (key : ecc_key) : M Z :=
  match ek_dp key with
  | None => mret BAD_FUNC_ARG
  | Some dp =>
    let k := ek_k key in
    if mp_used k =? 0 then mret ECC_PRIV_KEY_E
    else
      order ← wolfSSL_Malloc;
      ret ←
        (if negb order then mret MEMORY_E
         else
           let '(ret, o) := sp_init mp_raw_zero in
           '(ret, o) ← (if ret =? 0 then sp_read_radix o (ecc_order dp) 16 else mret (ret, o));
           let ret := if (ret =? 0) && negb (sp_cmp k o =? -1) then ECC_PRIV_KEY_E else ret in
           let _ := sp_clear o in
           mret ret);
      _ ← XFREE order;
      mret ret
  end.

(** ecc.c:12519-12585, [wc_ecc_import_private_key_ex] without a public key: in
    [_ecc_import_private_key_ex], ecc.c:12369-12515. *)
Definition wc_ecc_import_private_key_ex (priv : option bytes) (privSz : Z) (key : ecc_key) (curve_id : Z)
    : M (Z * ecc_key) :=
  match priv with
  | None => mret (BAD_FUNC_ARG, key)
  | Some priv =>
    let key := wc_ecc_reset key in
    let '(ret, key) := wc_ecc_set_curve key privSz curve_id in
    let key := set_type ECC_PRIVATEKEY_ONLY key in
    if negb (ret =? 0) then mret (ret, key)
    else
      q ← rd priv 0 privSz;
      '(ret, k) ← sp_read_unsigned_bin (ek_k key) (Some q) privSz;
      let p := ek_pubkey key in
      let key := set_numbers (pt_x p) (pt_y p) (pt_z p) k key in
      ret ← (if ret =? 0 then ecc_check_privkey_range key else mret ret);
      mret (ret, key)
  end.

(** ** Points and keys *)

(** The encoding of a pair of coordinates on a curve with [n]-byte field elements. *)
Record is_point (n : Z) (pt : bytes) : Prop := {
  ip_ok : bytes_ok pt;
  ip_len : len pt = 1 + 2 * n;
  ip_form : pt !!! 0%nat = ECC_POINT_UNCOMP }.

Definition point_x (n : Z) (pt : bytes) : bytes := sub pt 1 n.
Definition point_y (n : Z) (pt : bytes) : bytes := sub pt (1 + n) n.

(** A number that occupies its full array, initialised or not. *)
Record mp_storage (a : mp_int) : Prop := {
  ms_len : len (mp_dp a) = SP_INT_DIGITS;
  ms_digits : digits_ok (mp_dp a) }.

(** A key object that can take a key of a named curve. *)
Record key_ready (key : ecc_key) : Prop := {
  kr_x : mp_storage (pt_x (ek_pubkey key));
  kr_y : mp_storage (pt_y (ek_pubkey key));
  kr_z : mp_storage (pt_z (ek_pubkey key));
  kr_k : mp_storage (ek_k key);
  kr_idx : ek_idx key <> ECC_CUSTOM_IDX }.

(** A public key of the curve [s], the [i]-th of the table, at the point [pt]. *)
Record holds_point (s : ecc_set_type) (i : nat) (pt : bytes) (key : ecc_key) : Prop := {
  hp_type : ek_type key = ECC_PUBLICKEY;
  hp_idx : ek_idx key = Z.of_nat i;
  hp_dp : ek_dp key = Some s;
  hp_x : sp_ok (pt_x (ek_pubkey key)) /\ sp_val (pt_x (ek_pubkey key)) = be_combine (point_x (ecc_size s) pt);
  hp_y : sp_ok (pt_y (ek_pubkey key)) /\ sp_val (pt_y (ek_pubkey key)) = be_combine (point_y (ecc_size s) pt);
  hp_z : sp_ok (pt_z (ek_pubkey key));
  hp_k : sp_ok (ek_k key) /\ sp_val (ek_k key) = 0 }.

(** The device binding of a key. *)
Definition binding (key : ecc_key) : Z * Z * bool := (ek_devCtx key, ek_devId key, ek_rng key).

Lemma sets_bound i s : ecc_sets !! i = Some s -> 28 <= ecc_size s <= 66 /\ 0 < ecc_id s /\ (i < 5)%nat.
Proof. do 5 (destruct i as [|i]; [intros [= <-]; repeat split; done || lia|]). done. Qed.

Lemma set_curve_named key i s n : ecc_sets !! i = Some s -> ek_idx key <> ECC_CUSTOM_IDX -> n <= ECC_MAXSIZE ->
  wc_ecc_set_curve key n (ecc_id s) = (0, set_curve_of (Z.of_nat i) (Some s) key).
Proof.
  intros Hs Hi Hn. destruct (sets_bound i s Hs) as (_ & Hid & _). unfold wc_ecc_set_curve.
  rewrite (proj2 (Z.ltb_ge (ecc_id s) 0)), andb_false_r by lia. rewrite (proj2 (Z.ltb_ge ECC_MAXSIZE n)) by done.
  rewrite (proj2 (Z.eqb_neq _ _) Hi). cbn [negb]. rewrite (proj2 (Z.ltb_lt ECC_CURVE_DEF (ecc_id s))) by done.
  by do 5 (destruct i as [|i]; [injection Hs as <-; reflexivity|]).
Qed.

Lemma mp_storage_raw_zero : mp_storage mp_raw_zero.
Proof. split; [done|apply digits_ok_zeros]. Qed.

Lemma storage_init a : mp_storage a -> sp_ok (_sp_init_size a SP_INT_DIGITS) /\ sp_val (_sp_init_size a SP_INT_DIGITS) = 0.
Proof. intros []. by apply _sp_init_size_ok. Qed.

Lemma sp_ok_storage a : sp_ok a -> mp_storage a.
Proof. by intros []. Qed.

Lemma wc_ecc_init_ex_spec key devId : exists key',
  wc_ecc_init_ex key devId = (0, key') /\ key_ready key' /\ binding key' = (0, devId, false) /\ ek_dp key' = None.
Proof.
  eexists. split; [reflexivity|]. destruct (storage_init mp_raw_zero mp_storage_raw_zero) as [H _].
  apply sp_ok_storage in H. split; [by split|done].
Qed.

Section Specs.
Context (e : env).

Lemma read_number a n pt off : sp_ok a -> bytes_ok pt -> 0 <= n <= ECC_MAXSIZE -> 0 <= off -> off + n <= len pt ->
  calc e 0 (q ← rd pt off n; sp_read_unsigned_bin a (Some q) n)
    (fun r => r.1 = 0 /\ sp_ok r.2 /\ sp_val r.2 = be_combine (sub pt off n)).
Proof.
  intros [] Hb Hn Ho Hl. change ECC_MAXSIZE with 66 in Hn. calc_step; [lia|lia|lia|]. rewrite <-(len_sub pt off n) at 2 by lia.
  apply sp_read_unsigned_bin_spec; [done|done|done|by apply bytes_ok_sub|]. rewrite len_sub; lia.
Qed.

Lemma point_type (pt : bytes) : 0 < len pt -> sub pt 0 1 = [pt !!! 0%nat].
Proof. intros H. by apply (sub_1 pt 0). Qed.

Lemma land_odd n : Z.land (1 + 2 * n) 1 = 1.
Proof.
  pose proof (Z.land_ones (1 + 2 * n) 1 ltac:(lia)) as E. change (Z.ones 1) with 1 in E. rewrite E. symmetry. apply (Z.mod_unique _ _ n); change (2 ^ 1) with 2; lia.
Qed.

Lemma shiftr_half n : 0 <= n -> Z.shiftr (1 + 2 * n - 1) 1 = n.
Proof. intros Hn. rewrite Z.shiftr_div_pow2 by lia. replace (1 + 2 * n - 1) with (n * 2) by lia. apply Z.div_mul. lia. Qed.

(** A well-formed point is taken in. *)
Lemma import_x963_spec key i s pt : ecc_sets !! i = Some s -> key_ready key -> is_point (ecc_size s) pt ->
  calc e 0 (wc_ecc_import_x963_ex (Some pt) (len pt) key (ecc_id s))
    (fun r => r.1 = 0 /\ holds_point s i pt r.2 /\ binding r.2 = binding key).
Proof.
  intros Hs [Hx Hy Hz Hk Hi] [Hb Hl Hf]. destruct (sets_bound i s Hs) as (Hn & _ & _).
  unfold wc_ecc_import_x963_ex, wc_ecc_import_x963_ex2, _ecc_import_x963_ex2. rewrite Hl, land_odd. eval_tests.
  set (key1 := (init_numbers (wc_ecc_reset key)).2). change (init_numbers (wc_ecc_reset key)) with (0, key1).
  cbv beta iota. change (negb (0 =? 0)) with false. cbv iota.
  destruct (storage_init _ Hx) as [Ox _], (storage_init _ Hy) as [Oy _], (storage_init _ Hz) as [Oz _], (storage_init _ Hk) as [Ok Vk].
  calc_step; [lia|lia|lia|]. rewrite point_type by lia. cbn [lookup_total list_lookup_total]. rewrite Hf. eval_tests.
  rewrite shiftr_half by lia. rewrite (set_curve_named key1 i s) by (done || change ECC_MAXSIZE with 66; lia).
  cbn [set_type set_kind set_curve_of ek_pubkey].
  set (p := ek_pubkey key1). eapply calc_bind; [apply (read_number (pt_x p)); try done; change ECC_MAXSIZE with 66; lia|].
  intros [err x] (Ex & Ox' & Vx). cbn [fst snd] in *. subst err. eval_tests.
  eapply calc_bind; [apply (read_number (pt_y p)); try done; change ECC_MAXSIZE with 66; lia|].
  intros [err y] (Ey & Oy' & Vy). cbn [fst snd] in *. subst err. eval_tests. cbn [sp_set]. eval_tests.
  calc_step. split; [done|]. split; [|done]. cbn [snd]. split; try done. cbn.
  destruct (_sp_set_ok (pt_z p) 1 (sp_ok_room _ Oz) ltac:(lia)) as [H _]. exact H.
Qed.

(** Anything but an uncompressed point is refused, and the numbers are wiped. *)
Lemma import_x963_refused key curve_id (pt : bytes) n : key_ready key -> len pt = 1 + 2 * n -> 0 <= n ->
  pt !!! 0%nat <> ECC_POINT_UNCOMP ->
  calc e 0 (wc_ecc_import_x963_ex (Some pt) (len pt) key curve_id)
    (fun r => r.1 = (if (pt !!! 0%nat =? ECC_POINT_COMP_EVEN) || (pt !!! 0%nat =? ECC_POINT_COMP_ODD)
                     then NOT_COMPILED_IN else ASN_PARSE_E) /\
              sp_val (pt_x (ek_pubkey r.2)) = 0 /\ sp_val (pt_y (ek_pubkey r.2)) = 0 /\ binding r.2 = binding key).
Proof.
  intros [Hx Hy Hz Hk Hi] Hl Hn Hf.
  unfold wc_ecc_import_x963_ex, wc_ecc_import_x963_ex2, _ecc_import_x963_ex2. rewrite Hl, land_odd. eval_tests.
  set (key1 := (init_numbers (wc_ecc_reset key)).2). change (init_numbers (wc_ecc_reset key)) with (0, key1).
  cbv beta iota. change (negb (0 =? 0)) with false. cbv iota.
  calc_step; [lia|lia|lia|]. rewrite point_type by lia. cbn [lookup_total list_lookup_total].
  rewrite (proj2 (Z.eqb_neq _ _) Hf). cbn [negb andb].
  set (even := _ =? ECC_POINT_COMP_EVEN). set (odd := _ =? ECC_POINT_COMP_ODD).
  set (err := if even || odd then NOT_COMPILED_IN else ASN_PARSE_E).
  assert ((if even || odd then NOT_COMPILED_IN else if negb even && negb odd then ASN_PARSE_E else 0) = err) as ->
    by (unfold err; by destruct even, odd).
  assert ((err =? 0) = false) as He by (unfold err; by destruct (even || odd)).
  do 2 (rewrite He; cbv beta iota). calc_step. rewrite He. calc_step. rewrite He. cbv beta iota. calc_step.
  split; [done|]. rewrite He. cbn [negb]. unfold wipe_numbers. cbn [snd set_numbers ek_pubkey pt_x pt_y pt_z].
  destruct (storage_init _ Hx) as [Ox _], (storage_init _ Hy) as [Oy _].
  split; [by apply sp_clear_ok|]. split; [by apply sp_clear_ok|done].
Qed.

Lemma point_app n pt : 0 <= n -> is_point n pt -> pt = [ECC_POINT_UNCOMP] ++ point_x n pt ++ point_y n pt.
Proof.
  intros Hn [Hb Hl Hf]. unfold point_x, point_y. rewrite sub_split by lia. rewrite <-Hf, <-point_type by lia.
  pose proof (sub_split pt 0 1 (n + n)) as E. rewrite Z.add_0_l in E. rewrite E by lia. symmetry. apply sub_all. lia.
Qed.

(** The coordinate on the right of a zeroed field of [n] bytes. *)
Lemma export_number a n v buf : sp_ok a -> 0 <= n <= 66 -> sp_val a = be_combine v -> bytes_ok v -> len v = n ->
  sp_unsigned_bin_size a <= n /\
  (buf = zeros ECC_BUFSIZE -> calc e 0 (sp_to_unsigned_bin a buf (n - sp_unsigned_bin_size a))
    (fun r => r.1 = 0 /\ len r.2 = 257 /\ sub r.2 0 n = v)).
Proof.
  intros Ha Hn Hv Hb Hl. pose proof (be_combine_range v Hb) as Hr. rewrite Hl in Hr.
  destruct (sp_unsigned_bin_size_spec a Ha) as (H1 & H2 & H3). specialize (H3 n ltac:(lia) ltac:(lia)).
  split; [done|]. intros ->. change ECC_BUFSIZE with 257.
  eapply calc_mono; [apply sp_to_unsigned_bin_spec; [done|lia|rewrite len_zeros; lia]|].
  intros r ->. cbn [fst snd]. set (m := sp_unsigned_bin_size a) in *. split; [done|].
  split; [rewrite len_splice, len_zeros; rewrite ?len_be_split, ?len_zeros; lia|].
  transitivity (be_split (Z.to_nat n) (sp_val a)).
  2:{ rewrite Hv, <-Hl. by apply be_split_bytes. }
  unfold sub. rewrite drop_0. rewrite (take_splice_end _ _ (n - m)); rewrite ?len_be_split, ?len_zeros; try lia.
  replace (Z.to_nat n) with (Z.to_nat m + Z.to_nat (n - m))%nat by lia. rewrite be_split_app. f_equal.
  rewrite Z.shiftr_div_pow2, Z.div_small by lia || (rewrite Z2Nat.id by lia; done). rewrite be_split_0.
  unfold zeros. rewrite take_replicate. f_equal. lia.
Qed.

Lemma valid_idx i s : ecc_sets !! i = Some s -> wc_ecc_is_valid_idx (Z.of_nat i) = true.
Proof. by do 5 (destruct i as [|i]; [done|]). Qed.

(** A key gives back the point it holds. *)
Lemma export_x963_spec key i s pt out outLen : ecc_sets !! i = Some s -> is_point (ecc_size s) pt -> holds_point s i pt key ->
  1 + 2 * ecc_size s <= outLen -> 1 + 2 * ecc_size s <= len out ->
  calc e 0 (wc_ecc_export_x963_ex key (Some out) outLen false)
    (fun r => r = (0, Some (splice out 0 pt), 1 + 2 * ecc_size s) \/
              (r = (MEMORY_E, Some (splice out 0 [ECC_POINT_UNCOMP]), outLen) /\ oom e)).
Proof.
  intros Hs Hpt [Ht Hi Hd [Hx Vx] [Hy Vy] _ _] Ho Hlo. destruct (sets_bound i s Hs) as (Hn & _ & _).
  set (n := ecc_size s) in *. pose proof (ip_ok _ _ Hpt) as Hb. pose proof (ip_len _ _ Hpt) as Hl.
  unfold wc_ecc_export_x963_ex, wc_ecc_export_x963, _ecc_export_x963. rewrite Ht, Hd, Hi, (valid_idx i s Hs).
  change (ECC_PUBLICKEY =? ECC_PRIVATEKEY_ONLY) with false. change (ECC_PUBLICKEY =? 0) with false. cbn [negb orb]. fold n.
  rewrite (proj2 (Z.ltb_ge outLen (1 + 2 * n))) by lia.
  destruct (export_number (pt_x (ek_pubkey key)) n (point_x n pt) (zeros ECC_BUFSIZE)) as [Sx Cx];
    [done|lia|done|by apply bytes_ok_sub|apply len_sub; lia|].
  destruct (export_number (pt_y (ek_pubkey key)) n (point_y n pt) (zeros ECC_BUFSIZE)) as [Sy Cy];
    [done|lia|done|by apply bytes_ok_sub|apply len_sub; lia|].
  rewrite (proj2 (Z.ltb_ge n _) Sx), (proj2 (Z.ltb_ge n _) Sy). cbn [orb].
  calc_step; [lia|change (len [_]) with 1; lia|]. calc_step; cbn [negb]; [|calc_step; by right].
  eapply calc_bind; [by apply Cx|]. intros [ret bx] (E1 & E2 & E3). cbn [fst snd] in *. subst ret. eval_tests.
  calc_step; [lia|lia|lia|]. rewrite E3.
  assert (len (point_x n pt) = n) as Lx by (apply len_sub; lia). assert (len (point_y n pt) = n) as Ly by (apply len_sub; lia).
  calc_step; [lia|rewrite len_splice; change (len [_]) with 1; lia|].
  rewrite (splice_splice_app out [ECC_POINT_UNCOMP]) by (change (len [_]) with 1; lia).
  eapply calc_bind; [by apply Cy|]. intros [ret bY] (F1 & F2 & F3). cbn [fst snd] in *. subst ret. eval_tests.
  calc_step; [lia|lia|lia|]. rewrite F3.
  assert (len ([ECC_POINT_UNCOMP] ++ point_x n pt) = 1 + n) as L1 by (rewrite len_app; change (len [_]) with 1; lia).
  calc_step; [lia|rewrite len_splice; lia|]. rewrite <-L1, splice_splice_app by lia.
  calc_step. calc_step. left. rewrite <-app_assoc, <-point_app by (done || lia). done.
Qed.
End Specs.

(** C37. Public points survive the key object: for every curve of the table, an
    uncompressed point of the curve's width imported by [wc_ecc_import_x963_ex]
    and exported again by [wc_ecc_export_x963_ex] comes out byte for byte, with
    the device binding of the key unchanged; the only failure is an allocation,
    reported as [MEMORY_E]. *)
Theorem x963_roundtrip e key i s pt out outLen :
  ecc_sets !! i = Some s -> key_ready key -> is_point (ecc_size s) pt -> len pt <= outLen -> len pt <= len out ->
  calc e 0
    ('(err, key') ← wc_ecc_import_x963_ex (Some pt) (len pt) key (ecc_id s);
     '(err', out, n) ← wc_ecc_export_x963_ex key' (Some out) outLen false;
     mret (err, err', out, n, binding key'))
    (fun r => r = (0, 0, Some (splice out 0 pt), len pt, binding key) \/
              (r = (0, MEMORY_E, Some (splice out 0 [ECC_POINT_UNCOMP]), outLen, binding key) /\ oom e)).
Proof.
  intros Hs Hk Hp Ho Hl. pose proof (ip_len _ _ Hp) as Lp.
  eapply calc_bind; [by apply (import_x963_spec e key i s)|]. intros [err k'] (E1 & E2 & E3). cbn [fst snd] in *. subst err.
  eapply calc_bind; [apply (export_x963_spec e k' i s pt); done || lia|].
  intros [[err o] n] [[= -> -> ->]|([= -> -> ->] & Hoom)]; calc_step; rewrite E3; [left|by right]. by rewrite Lp.
Qed.

(** The base point of P-256. *)
Definition p256_base : bytes :=
  4 :: be_split 32 0x6B17D1F2E12C4247F8BCE6E563A440F277037D812DEB33A0F4A13945D898C296 ++
       be_split 32 0x4FE342E2FE1A7F9B8EE7EB4A7C0F9E162BCE33576B315ECECBB6406837BF51F5.

Lemma p256_base_point : is_point 32 p256_base.
Proof. split; [|done|done]. unfold p256_base. apply Forall_cons_2; [lia|]. apply bytes_ok_app. split; apply be_split_ok. Qed.

Lemma x963_roundtrip_witness :
  calc env_plenty 0
    ('(err, key') ← wc_ecc_import_x963_ex (Some p256_base) 65 (wc_ecc_init_ex ecc_key_zero 5).2 ECC_SECP256R1;
     '(err', out, n) ← wc_ecc_export_x963_ex key' (Some (zeros 65)) 65 false;
     mret (err, err', out, n, binding key'))
    (fun r => r = (0, 0, Some p256_base, 65, (0, 5, false))).
Proof.
  destruct (wc_ecc_init_ex_spec ecc_key_zero 5) as (key & Ek & Hr & Hb & _). rewrite Ek. cbn [snd].
  eapply calc_mono; [apply (x963_roundtrip env_plenty key 2 ecc_secp256r1 p256_base (zeros 65) 65)|].
  - reflexivity.
  - exact Hr.
  - exact p256_base_point.
  - done.
  - done.
  - intros r [->|(_ & n & Ho)]; [|discriminate Ho]. by rewrite splice_full, Hb.
Defined.

(** ** Key agreement *)

(** C8. There is no software key agreement to fall back to: a key whose device is
    not registered (or that has none) gets [NO_VALID_DEVID] and an untouched
    buffer, and no answer of any callback makes the library return
    [CRYPTOCB_UNAVAILABLE] to its caller. *)
Theorem ecdh_fail_closed `{!Callbacks} priv pub out outlen w : table_ok (gCryptoDev w) ->
  (devices (gCryptoDev w) !! ek_devId priv = None ->
   wc_ecc_shared_secret priv pub out outlen w = Ok (NO_VALID_DEVID, (out, outlen)) w) /\
  (forall r w', wc_ecc_shared_secret priv pub out outlen w = Ok r w' -> r.1 <> CRYPTOCB_UNAVAILABLE).
Proof.
  intros Hok. unfold wc_ecc_shared_secret, wc_CryptoCb_Ecdh. split.
  - intros Hn. destruct (Z.eqb_spec (ek_devId priv) INVALID_DEVID); cbn [negb]; [done|].
    unfold mbind, M_bind. by rewrite (dispatch_absent _ _ w Hok Hn).
  - intros r w'. set (m := if negb _ then _ else _). unfold mbind, M_bind. destruct (m w) as [[err r0] w1|]; [|done].
    destruct (Z.eqb_spec err CRYPTOCB_UNAVAILABLE); cbn [negb]; by intros [= <- <-].
Qed.

Lemma ecdh_fail_closed_witness :
  let w := set_devs (wc_CryptoCb_Init (gCryptoDev (world_start env_plenty))) (world_start env_plenty) in
  wc_ecc_shared_secret (H := no_callbacks) ecc_key_zero ecc_key_zero (zeros 32) 32 w = Ok (NO_VALID_DEVID, (zeros 32, 32)) w.
Proof.
  intros w. apply (ecdh_fail_closed (H := no_callbacks) ecc_key_zero ecc_key_zero (zeros 32) 32 w).
  - apply (Init_spec (gCryptoDev (world_start env_plenty)) eq_refl).
  - reflexivity.
Defined.
