(* ===== verification/EccKeys.v ===== *)
(** * EccKeys: key objects stay well-formed

    A key object goes through any sequence of the operations of Ecc.v that do not ask
    the callback, with any bytes as input.  Whatever they are, no access leaves its
    buffer, nothing taken from the heap is kept, and the object stays well-formed. *)

From Stdlib Require Import Ascii.
From stdpp Require Import strings.
From S2P Require Import Prelude Platform Types Misc CryptoCb SpInt Ecc.

(** The numbers of the table are strings of hexadecimal digits. *)
Definition number (s : string) : Z := hex_val (String.list_ascii_of_string s).

Definition hex_string (s : string) : bool :=
  forallb (fun c => 0 <=? HexCharToByte c) (String.list_ascii_of_string s) && (len (String.list_ascii_of_string s) <=? 280).

Lemma hex_string_spec s : hex_string s = true -> Forall is_hex (String.list_ascii_of_string s) /\ len (String.list_ascii_of_string s) <= 280.
Proof.
  intros [Hf Hl]%andb_prop. split; [|lia]. rewrite forallb_forall in Hf. apply List.Forall_forall. intros c Hc%Hf. by apply Z.leb_le.
Qed.

(** Four numbers in working order, and a curve that is the table's entry at the key's
    index, or none. *)
Record key_wf (key : ecc_key) : Prop := {
  kw_x : sp_ok (pt_x (ek_pubkey key));
  kw_y : sp_ok (pt_y (ek_pubkey key));
  kw_z : sp_ok (pt_z (ek_pubkey key));
  kw_k : sp_ok (ek_k key);
  kw_idx : ek_idx key <> ECC_CUSTOM_IDX;
  kw_curve : forall s, ek_dp key = Some s -> exists i, ecc_sets !! i = Some s /\ ek_idx key = Z.of_nat i;
  kw_type : 0 <= ek_type key <= ECC_PRIVATEKEY_ONLY }.

(** The operations; the lengths are those of the buffers. *)
Inductive key_op :=
  | KInit (devId : Z)
  | KReset
  | KFlags (flags : Z)
  | KRng (rng : bool)
  | KCurve (keysize curve_id : Z)
  | KImport (inp : bytes) (curve_id : Z)
  | KImportPrivate (priv : bytes) (curve_id : Z)
  | KExport (outLen : Z)
  | KExportPrivate (outLen : Z)
  | KFree.

Definition run_key_op (o : key_op) (key : ecc_key) : M (Z * ecc_key) :=
  match o with
  | KInit devId => mret (wc_ecc_init_ex key devId)
  | KReset => mret (0, wc_ecc_reset key)
  | KFlags flags => mret (wc_ecc_set_flags key flags)
  | KRng rng => mret (wc_ecc_set_rng key rng)
  | KCurve keysize curve_id => mret (wc_ecc_set_curve key keysize curve_id)
  | KImport inp curve_id => wc_ecc_import_x963_ex (Some inp) (len inp) key curve_id
  | KImportPrivate priv curve_id => wc_ecc_import_private_key_ex (Some priv) (len priv) key curve_id
  | KExport n => '(ret, _, _) ← wc_ecc_export_x963_ex key (Some (zeros n)) n false; mret (ret, key)
  | KExportPrivate n => '(ret, _, _) ← wc_ecc_export_private_only key (Some (zeros n)) n; mret (ret, key)
  | KFree => mret (wc_ecc_free key)
  end.

(** The answers, each with the key after the operation. *)
Fixpoint run_key_ops (os : list key_op) (key : ecc_key) : M (list (Z * ecc_key)) :=
  match os with
  | [] => mret []
  | o :: os => r ← run_key_op o key; rs ← run_key_ops os r.2; mret (r :: rs)
  end.

(** What an operation promises: a curve and z = 1 after a point was read, a scalar
    between 0 and the order of the curve after a private key was read, zeros at the end. *)
Definition op_post (o : key_op) (r : Z * ecc_key) : Prop :=
  let key := r.2 in
  match o with
  | KImport _ _ => r.1 = 0 -> is_Some (ek_dp key) /\ ek_type key = ECC_PUBLICKEY /\ sp_val (pt_z (ek_pubkey key)) = 1
  | KImportPrivate priv _ => r.1 = 0 -> exists s, ek_dp key = Some s /\ ek_type key = ECC_PRIVATEKEY_ONLY /\
      sp_val (ek_k key) = be_combine priv /\ 0 < sp_val (ek_k key) < number (ecc_order s)
  | KFree => sp_val (pt_x (ek_pubkey key)) = 0 /\ sp_val (pt_y (ek_pubkey key)) = 0 /\ sp_val (pt_z (ek_pubkey key)) = 0 /\
      ek_k key = {| mp_used := 0; mp_size := SP_INT_DIGITS; mp_dp := zeros SP_INT_DIGITS |}
  | _ => True
  end.

Definition op_bytes (o : key_op) : Prop :=
  match o with
  | KImport b _ | KImportPrivate b _ => bytes_ok b
  | KExport n | KExportPrivate n => 0 <= n
  | _ => True
  end.

(** ** The numbers *)

Lemma sp_forcezero_ok a : sp_ok a -> sp_ok (sp_forcezero a).
Proof. intros Ha. rewrite sp_forcezero_spec by (by apply sp_ok_room). split; [done|done|done|apply digits_ok_zeros|by left]. Qed.

Lemma set_curve_wf key n id : key_wf key -> key_wf (wc_ecc_set_curve key n id).2.
Proof.
  intros [Hx Hy Hz Hk Hi Hc Ht]. unfold wc_ecc_set_curve. destruct (_ && _); [done|]. destruct (_ <? _); [done|].
  destruct (negb _); [|done]. assert (forall (P : ecc_set_type -> Prop) (dec : forall s, Decision (P s)) r,
    list_find P ecc_sets = r -> key_wf (match r with None => (ECC_CURVE_OID_E, set_curve_of 0 None key)
      | Some (x, s) => (0, set_curve_of (Z.of_nat x) (Some s) key) end).2) as H.
  { intros P dec [[x s]|] Hr; split; try done; cbn [snd set_curve_of ek_idx ek_dp]; [lia|]. intros s' [= <-]. exists x. apply list_find_Some in Hr as [Hr _]. done. }
  destruct (_ <? _); by eapply H.
Qed.

Section KeysWf.
Context (e : env).

Lemma init_wf key : key_wf key -> key_wf (init_numbers key).2.
Proof.
  intros [Hx Hy Hz Hk Hi Hc Ht]. split; cbn; try done;
    match goal with |- sp_ok (_sp_init_size ?a _) => apply (storage_init a), sp_ok_storage; assumption end.
Qed.

Lemma wipe_wf key : key_wf key -> key_wf (wipe_numbers key).
Proof. intros [Hx Hy Hz Hk Hi Hc Ht]. split; cbn; try done; by first [apply sp_clear_ok|apply sp_forcezero_ok]. Qed.

Lemma kind_wf type state flags key : 0 <= type <= ECC_PRIVATEKEY_ONLY -> key_wf key -> key_wf (set_kind type state flags key).
Proof. intros H [Hx Hy Hz Hk Hi Hc Ht]. by split. Qed.

Lemma numbers_wf x y z k key : sp_ok x -> sp_ok y -> sp_ok z -> sp_ok k -> key_wf key -> key_wf (set_numbers x y z k key).
Proof. intros Ox Oy Oz Ok [Hx Hy Hz Hk Hi Hc Ht]. by split. Qed.

Lemma set_curve_size key n id : key_wf key -> (wc_ecc_set_curve key n id).1 = 0 ->
  n <= ECC_MAXSIZE /\ is_Some (ek_dp (wc_ecc_set_curve key n id).2).
Proof.
  intros Hw. unfold wc_ecc_set_curve. destruct (_ && _); [done|]. destruct (Z.ltb_spec ECC_MAXSIZE n); [done|].
  rewrite (proj2 (Z.eqb_neq _ _) (kw_idx _ Hw)). cbn [negb]. intros H0. split; [lia|].
  revert H0. by destruct (if ECC_CURVE_DEF <? id then _ else _) as [[x s]|].
Qed.

(** A coordinate is read, or passed over after an error. *)
Lemma read_or_skip err a n pt off : sp_ok a -> bytes_ok pt -> (err = 0 -> 0 <= n <= ECC_MAXSIZE /\ 0 <= off /\ off + n <= len pt) ->
  calc e 0 (if err =? 0 then q ← rd pt off n; sp_read_unsigned_bin a (Some q) n else mret (err, a)) (fun r => r.1 = err /\ sp_ok r.2).
Proof.
  intros Ha Hb H. destruct (Z.eqb_spec err 0) as [->|]; [|by apply calc_ret]. destruct H as (Hn & Ho & Hl); [done|].
  eapply calc_mono; [by apply (read_number e a n pt off)|]. by intros r (-> & Hr & _).
Qed.

Lemma import_wf key inp id : key_wf key -> bytes_ok inp ->
  calc e 0 (wc_ecc_import_x963_ex (Some inp) (len inp) key id) (fun r => key_wf r.2 /\ op_post (KImport inp id) r).
Proof.
  intros Hw Hb. unfold wc_ecc_import_x963_ex, wc_ecc_import_x963_ex2, _ecc_import_x963_ex2.
  destruct (Z.eqb_spec (Z.land (len inp) 1) 0) as [|Hodd]; [apply calc_ret; split; [done|intros H; done]|].
  assert (Hl : 0 < len inp) by (pose proof (len_nonneg inp); destruct (Z.eq_dec (len inp) 0) as [E|]; [by rewrite E in Hodd|lia]).
  set (key1 := (init_numbers (wc_ecc_reset key)).2). change (init_numbers (wc_ecc_reset key)) with (0, key1).
  assert (Hw1 : key_wf key1) by (apply init_wf, kind_wf; [apply Hw|done]). clearbody key1. cbv beta iota. change (negb (0 =? 0)) with false. cbv iota.
  calc_step; [lia|lia|lia|]. set (pt := sub inp 0 1 !!! 0%nat). clearbody pt. set (err1 := if _ || _ : bool then NOT_COMPILED_IN else _).
  set (keysize := if err1 =? 0 then _ else 0).
  assert (Hks : 0 <= keysize /\ 1 + 2 * keysize <= len inp).
  { unfold keysize. destruct (err1 =? 0); [|lia]. rewrite Z.shiftr_div_pow2 by lia. pose proof (Z.div_mod (len inp - 1) (2 ^ 1) ltac:(lia)).
    pose proof (Z.mod_pos_bound (len inp - 1) (2 ^ 1) ltac:(lia)). split; [apply Z.div_pos; lia|lia]. }
  destruct (if err1 =? 0 then let '(err, key) := wc_ecc_set_curve key1 keysize id in (err, set_type ECC_PUBLICKEY key) else (err1, key1))
    as [err2 key2] eqn:E2.
  assert (Hw2 : key_wf key2 /\ (err2 = 0 -> keysize <= ECC_MAXSIZE /\ is_Some (ek_dp key2) /\ ek_type key2 = ECC_PUBLICKEY)).
  { destruct (Z.eqb_spec err1 0) as [Ez|Ez]; [|injection E2 as <- <-; split; [done|by intros ->]].
    pose proof (set_curve_wf key1 keysize id Hw1) as Hc. pose proof (set_curve_size key1 keysize id Hw1) as Hs.
    destruct (wc_ecc_set_curve key1 keysize id) as [err k]. injection E2 as <- <-. split; [by apply kind_wf|]. intros Ez'. by destruct (Hs Ez'). }
  clear E2. clearbody keysize err1. destruct Hw2 as [Hw2 Hmax].
  eapply calc_bind; [apply (read_or_skip err2 (pt_x (ek_pubkey key2)) keysize inp 1); [apply Hw2|done|intros E; specialize (Hmax E); lia]|].
  intros [err x] [E Ox]. cbn [fst snd] in E, Ox. subst err.
  eapply calc_bind; [apply (read_or_skip err2 (pt_y (ek_pubkey key2)) keysize inp (1 + keysize)); [apply Hw2|done|intros E; specialize (Hmax E); lia]|].
  intros [err y] [E Oy]. cbn [fst snd] in E, Oy. subst err. destruct (if err2 =? 0 then sp_set _ _ else _) as [err3 z] eqn:E3.
  assert (Oz : sp_ok z /\ (err3 = 0 -> err2 = 0 /\ sp_val z = 1)).
  { destruct (Z.eqb_spec err2 0) as [->|]; injection E3 as <- <-; [|split; [apply Hw2|done]].
    destruct (_sp_set_ok (pt_z (ek_pubkey key2)) 1 (sp_ok_room _ (kw_z _ Hw2)) ltac:(lia)). by split. }
  destruct Oz as [Oz Vz]. apply calc_ret. cbn [snd]. assert (Hw3 : key_wf (set_numbers x y z (ek_k key2) key2)) by (by apply numbers_wf; [..|apply Hw2|]).
  destruct (Z.eqb_spec err3 0) as [E|E]; cbn [negb]; [|split; [by apply wipe_wf|done]]. split; [done|]. intros _.
  destruct (Vz E) as [E2 Ez]. destruct (Hmax E2) as (_ & Hd & Hty). done.
Qed.

Lemma orders_hex : forallb (fun s => hex_string (ecc_order s)) ecc_sets = true.
Proof. vm_compute. reflexivity. Qed.

Lemma check_range_is key s i : key_wf key -> ek_dp key = Some s -> ecc_sets !! i = Some s ->
  calc e 0 (ecc_check_privkey_range key) (fun ret => ret = 0 -> 0 < sp_val (ek_k key) < number (ecc_order s)).
Proof.
  intros Hw Hd Hi. unfold ecc_check_privkey_range. rewrite Hd. pose proof (sp_val_range _ (kw_k _ Hw)) as Hr.
  destruct (Z.eqb_spec (mp_used (ek_k key)) 0) as [|Hu]; [by apply calc_ret|].
  assert (Hpos : 0 < sp_val (ek_k key)).
  { pose proof (sp_val_top _ (kw_k _ Hw) Hu). pose proof (so_used _ (kw_k _ Hw)). enough (0 < 2 ^ (32 * (mp_used (ek_k key) - 1))) by lia. apply Z.pow_pos_nonneg; lia. }
  calc_step; cbn [negb]; [|calc_step; calc_step; calc_step; done].
  change (sp_init mp_raw_zero) with (0, _sp_init_size mp_raw_zero SP_INT_DIGITS). cbv beta iota. change (0 =? 0) with true. cbv iota.
  destruct (storage_init _ mp_storage_raw_zero) as [Ht _]. set (t := _sp_init_size _ _) in *. clearbody t.
  destruct (hex_string_spec (ecc_order s)) as [Hh Hn].
  { pose proof orders_hex as H. rewrite forallb_forall in H. apply H, list_elem_of_In. by eapply list_elem_of_lookup_2. }
  calc_step. eapply calc_bind; [apply sp_read_radix_spec; [apply Ht|apply Ht|apply Ht|done|done]|]. intros [err o] (Hz & Ho & Vo). cbn [fst snd] in *.
  subst err. calc_step. calc_step. calc_step. change (0 =? 0) with true. cbn [andb]. rewrite sp_cmp_spec by (done || apply Hw). rewrite Vo. fold (number (ecc_order s)).
  destruct (Z.eqb_spec (Z.sgn (sp_val (ek_k key) - number (ecc_order s))) (-1)) as [E|E]; cbn [negb]; [intros _; lia|done].
Qed.

Lemma import_private_wf key priv id : key_wf key -> bytes_ok priv ->
  calc e 0 (wc_ecc_import_private_key_ex (Some priv) (len priv) key id) (fun r => key_wf r.2 /\ op_post (KImportPrivate priv id) r).
Proof.
  intros Hw Hb. unfold wc_ecc_import_private_key_ex. set (key0 := wc_ecc_reset key). assert (Hw0 : key_wf key0) by (apply kind_wf; [apply Hw|done]).
  clearbody key0. pose proof (set_curve_wf key0 (len priv) id Hw0) as Hw1. pose proof (set_curve_size key0 (len priv) id Hw0) as Hs.
  destruct (wc_ecc_set_curve key0 (len priv) id) as [ret key1]. cbn [fst snd] in *. cbv beta iota.
  set (key2 := set_type ECC_PRIVATEKEY_ONLY key1). assert (Hw2 : key_wf key2) by (by apply kind_wf).
  assert (Hd2 : ek_dp key2 = ek_dp key1 /\ ek_type key2 = ECC_PRIVATEKEY_ONLY) by done. clearbody key2. destruct Hd2 as [Hd2 Ht2].
  destruct (Z.eqb_spec ret 0) as [E|E]; cbn [negb]; [|apply calc_ret; split; [done|by intros ?]]. destruct (Hs E) as (Hmax & s & Hd). rewrite <-Hd2 in Hd.
  destruct (kw_curve _ Hw2 s Hd) as (i & Hi & _). pose proof (len_nonneg priv). change ECC_MAXSIZE with 66 in Hmax.
  calc_step; [lia|lia|lia|]. rewrite sub_all by done.
  eapply calc_bind; [apply (sp_read_unsigned_bin_spec e (ek_k key2) priv); [apply Hw2|apply Hw2|apply Hw2|done|lia]|].
  intros [err k] (Ek & Ok & Vk). cbn [fst snd] in Ek, Ok, Vk. subst err. change (0 =? 0) with true. cbv iota.
  set (key3 := set_numbers _ _ _ k key2). assert (Hw3 : key_wf key3) by (apply numbers_wf; [apply Hw2|apply Hw2|apply Hw2|done|done]).
  eapply calc_bind; [by apply (check_range_is key3 s i)|]. intros r Hr. apply calc_ret. split; [done|]. intros Hz. exists s. by specialize (Hr Hz).
Qed.

(** Writing a number at the end of a field that holds it. *)
Lemma to_bin_fits a out off : sp_ok a -> 0 <= off -> off + sp_unsigned_bin_size a <= len out ->
  calc e 0 (sp_to_unsigned_bin a out off) (fun r => r.1 = 0 /\ len r.2 = len out).
Proof.
  intros Ha Ho Hl. destruct (sp_unsigned_bin_size_spec a Ha) as (H1 & _ & _). eapply calc_mono; [by apply sp_to_unsigned_bin_spec|].
  intros r ->. split; [done|]. apply len_splice; [done|]. rewrite len_be_split. lia.
Qed.

Lemma export_x963_safe key n : key_wf key -> 0 <= n -> calc e 0 (wc_ecc_export_x963_ex key (Some (zeros n)) n false) (fun _ => True).
Proof.
  intros Hw Hn. unfold wc_ecc_export_x963_ex, wc_ecc_export_x963, _ecc_export_x963. cbn [negb].
  destruct (ek_type key =? ECC_PRIVATEKEY_ONLY); [by apply calc_ret|]. destruct (ek_dp key) as [dp|] eqn:Hd; [|by apply calc_ret].
  destruct (_ || _); [by apply calc_ret|]. destruct (kw_curve _ Hw dp Hd) as (i & Hi & _). destruct (sets_bound i dp Hi) as (Hsz & _).
  set (numlen := ecc_size dp) in *. destruct (Z.ltb_spec n (1 + 2 * numlen)); [by apply calc_ret|].
  destruct (Z.ltb_spec numlen (sp_unsigned_bin_size (pt_x (ek_pubkey key)))); cbn [orb]; [by apply calc_ret|].
  destruct (Z.ltb_spec numlen (sp_unsigned_bin_size (pt_y (ek_pubkey key)))); [by apply calc_ret|].
  assert (Ln : len (zeros n) = n) by (apply len_zeros; lia). assert (Lb : len (zeros ECC_BUFSIZE) = 257) by done.
  calc_step; [lia|change (len [_]) with 1; lia|]. calc_step; cbn [negb]; [|by calc_step].
  eapply calc_bind; [apply to_bin_fits; [apply Hw|lia|lia]|]. intros [ret b] [E L]. cbn [fst snd] in *. subst ret. change (negb (0 =? 0)) with false. cbv iota.
  calc_step; [lia|lia|lia|]. calc_step; [lia|rewrite len_splice, len_sub; change (len [_]) with 1; lia|].
  eapply calc_bind; [apply to_bin_fits; [apply Hw|lia|lia]|]. intros [ret b'] [E L']. cbn [fst snd] in *. subst ret. change (negb (0 =? 0)) with false. cbv iota.
  calc_step; [lia|lia|lia|]. calc_step; [lia|rewrite !len_splice; rewrite ?len_splice, ?len_sub; change (len [_]) with 1; lia|]. by do 2 calc_step.
Qed.

Lemma export_private_safe key n : key_wf key -> 0 <= n -> calc e 0 (wc_ecc_export_private_only key (Some (zeros n)) n) (fun _ => True).
Proof.
  intros Hw Hn. unfold wc_ecc_export_private_only, _ecc_export_ex_d, wc_export_int. destruct (ek_dp key) as [dp|] eqn:Hd; [|by do 2 calc_step].
  destruct (kw_curve _ Hw dp Hd) as (i & Hi & _). destruct (sets_bound i dp Hi) as (Hsz & _).
  destruct (negb _); [by do 2 calc_step|]. destruct (_ && _); [by do 2 calc_step|]. destruct (Z.ltb_spec n (ecc_size dp)); [by do 2 calc_step|].
  destruct (Z.ltb_spec (sp_unsigned_bin_size (ek_k key)) 0); cbn [orb]; [by do 2 calc_step|].
  destruct (Z.ltb_spec (ecc_size dp) (sp_unsigned_bin_size (ek_k key))); [by do 2 calc_step|].
  assert (Ln : len (zeros n) = n) by (apply len_zeros; lia). assert (Lz : len (zeros (ecc_size dp)) = ecc_size dp) by (apply len_zeros; lia).
  calc_step. calc_step; [lia|lia|].
  calc_step. eapply calc_bind; [apply to_bin_fits; [apply Hw|lia|rewrite len_splice; lia]|]. intros [ret b] [E L]. by do 2 calc_step.
Qed.

Lemma run_key_op_wf o key : key_wf key -> op_bytes o -> calc e 0 (run_key_op o key) (fun r => key_wf r.2 /\ op_post o r).
Proof.
  intros Hw Hb. destruct o; cbn [run_key_op].
  - apply calc_ret. split; [|done]. destruct (storage_init _ mp_storage_raw_zero) as [H _]. by split.
  - apply calc_ret. split; [apply kind_wf; [apply Hw|done]|done].
  - apply calc_ret. split; [apply kind_wf; [apply Hw|done]|done].
  - apply calc_ret. split; [by destruct Hw|done].
  - apply calc_ret. split; [by apply set_curve_wf|done].
  - by apply import_wf.
  - by apply import_private_wf.
  - eapply calc_bind; [by apply export_x963_safe|]. intros [[ret o] m] _. by apply calc_ret.
  - eapply calc_bind; [by apply export_private_safe|]. intros [[ret o] m] _. by apply calc_ret.
  - apply calc_ret. split; [by apply wipe_wf|]. destruct Hw. cbn. split; [by apply sp_clear_ok|]. split; [by apply sp_clear_ok|]. split; [by apply sp_clear_ok|].
    apply sp_forcezero_spec. by apply sp_ok_room.
Qed.
End KeysWf.

(** C22. Key objects stay well-formed.  For a key as [wc_ecc_init_ex] leaves it and any
    sequence of initialisation, resetting, choice of a curve, import and export of
    points and of private keys, and freeing, with any bytes as input and any buffer
    sizes: no access leaves a buffer, everything taken from the heap is given back,
    the key is well-formed after each operation, and each keeps its promise: an
    accepted point has z = 1 and a curve of the table, an accepted private scalar lies
    between 0 and the order, and freeing leaves zeros. *)
Theorem ecc_keys_well_formed e (os : list key_op) key : key_wf key -> Forall op_bytes os ->
  calc e 0 (run_key_ops os key) (Forall2 (fun o r => key_wf r.2 /\ op_post o r) os).
Proof.
  intros Hw Hos. revert key Hw. induction Hos as [|o os Ho _ IH]; intros key Hw; cbn [run_key_ops]; [by apply calc_ret|].
  eapply calc_bind; [by apply run_key_op_wf|]. intros r [Hr Hp]. eapply calc_bind; [by apply IH|]. intros rs Hrs. apply calc_ret. by constructor.
Qed.

Lemma ecc_keys_well_formed_witness :
  calc env_plenty 0 (run_key_ops [KImport p256_base ECC_SECP256R1; KImportPrivate [0; 1] ECC_SECP256R1; KFree] (wc_ecc_init_ex ecc_key_zero 5).2)
    (fun rs => exists a b c, rs = [a; b; c] /\ key_wf a.2 /\ key_wf b.2 /\ key_wf c.2 /\ sp_val (pt_x (ek_pubkey c.2)) = 0).
Proof.
  eapply calc_mono; [apply (ecc_keys_well_formed env_plenty)|].
  - destruct (storage_init _ mp_storage_raw_zero) as [H _]. split; [exact H|exact H|exact H|exact H|done|done|done].
  - constructor; [apply p256_base_point|]. constructor; [|by repeat constructor]. repeat constructor; lia.
  - intros rs H. inversion_clear H as [|? a ? rs1 [Ha _] H1]. inversion_clear H1 as [|? b ? rs2 [Hb _] H2].
    inversion_clear H2 as [|? c ? rs3 [Hc Hp] H3]. inversion_clear H3. exists a, b, c. split; [done|]. split; [done|]. split; [done|]. split; [done|apply Hp].
Defined.
