(* ===== verification/EccPoint.v ===== *)
(** * EccPoint: points on the curves (ecc.c)

    The numbers of a curve are read from the table of Ecc.v ([wc_ecc_curve_load]) and
    a point is tried in the curve's equation ([wc_ecc_is_point],
    [wc_ecc_point_is_on_curve]).  The test leaves out the coefficient A, which the
    code takes for -3; the theorem at the end is about the A of the table. *)

From Stdlib Require Import Ascii.
From stdpp Require Import strings.
From S2P Require Import Prelude Platform Types Misc CryptoCb SpInt SpArith SpMul SpDiv SpMod Ecc EccKeys.

(** error-crypt.h:80 *)
Notation MP_READ_E := (-111)%Z (only parsing).
(** error-crypt.h:201 *)
Notation IS_POINT_E := (-214)%Z (only parsing).
(** error-crypt.h:204 *)
Notation ECC_OUT_OF_RANGE_E := (-217)%Z (only parsing).
(** ecc.c:1602 *)
Notation ECC_CURVE_FIELD_PRIME := (0x01)%Z (only parsing).
(** ecc.c:1603 *)
Notation ECC_CURVE_FIELD_AF := (0x02)%Z (only parsing).
(** ecc.c:1604 *)
Notation ECC_CURVE_FIELD_BF := (0x04)%Z (only parsing).
(** ecc.c:1605 *)
Notation ECC_CURVE_FIELD_ORDER := (0x08)%Z (only parsing).
(** ecc.c:1606 *)
Notation ECC_CURVE_FIELD_GX := (0x10)%Z (only parsing).
(** ecc.c:1607 *)
Notation ECC_CURVE_FIELD_GY := (0x20)%Z (only parsing).

(** ** The numbers of a curve *)

(** ecc.c:1571-1599, [struct ecc_curve_spec].  A number not read yet is a null
    pointer; [cs_dp] is the entry of the table, where no two entries are alike. *)
Record ecc_curve_spec := {
  cs_dp : option ecc_set_type;
  cs_prime : option mp_int; cs_Af : option mp_int; cs_Bf : option mp_int;
  cs_order : option mp_int; cs_Gx : option mp_int; cs_Gy : option mp_int;
  cs_spec_count : Z; cs_spec_use : Z; cs_load_mask : Z }.

#[global] Instance ecc_set_type_eq_dec : EqDecision ecc_set_type.
Proof. solve_decision. Defined.

(** The fields by their bit. *)
Definition cs_field (mask : Z) (c : ecc_curve_spec) : option mp_int :=
  match mask with
  | ECC_CURVE_FIELD_PRIME => cs_prime c | ECC_CURVE_FIELD_AF => cs_Af c | ECC_CURVE_FIELD_BF => cs_Bf c
  | ECC_CURVE_FIELD_ORDER => cs_order c | ECC_CURVE_FIELD_GX => cs_Gx c | ECC_CURVE_FIELD_GY => cs_Gy c
  | _ => None
  end.

Definition set_cs_field (mask : Z) (v : option mp_int) (c : ecc_curve_spec) : ecc_curve_spec :=
  let f m := if mask =? m then v else cs_field m c in
  {| cs_dp := cs_dp c; cs_prime := f ECC_CURVE_FIELD_PRIME; cs_Af := f ECC_CURVE_FIELD_AF; cs_Bf := f ECC_CURVE_FIELD_BF;
     cs_order := f ECC_CURVE_FIELD_ORDER; cs_Gx := f ECC_CURVE_FIELD_GX; cs_Gy := f ECC_CURVE_FIELD_GY;
     cs_spec_count := cs_spec_count c; cs_spec_use := cs_spec_use c; cs_load_mask := cs_load_mask c |}.

Definition set_cs_use (n : Z) (c : ecc_curve_spec) : ecc_curve_spec :=
  {| cs_dp := cs_dp c; cs_prime := cs_prime c; cs_Af := cs_Af c; cs_Bf := cs_Bf c; cs_order := cs_order c; cs_Gx := cs_Gx c;
     cs_Gy := cs_Gy c; cs_spec_count := cs_spec_count c; cs_spec_use := n; cs_load_mask := cs_load_mask c |}.

Definition set_cs_mask (dp : option ecc_set_type) (m : Z) (c : ecc_curve_spec) : ecc_curve_spec :=
  {| cs_dp := dp; cs_prime := cs_prime c; cs_Af := cs_Af c; cs_Bf := cs_Bf c; cs_order := cs_order c; cs_Gx := cs_Gx c;
     cs_Gy := cs_Gy c; cs_spec_count := cs_spec_count c; cs_spec_use := cs_spec_use c; cs_load_mask := m |}.

(** As declared: [DECLARE_CURVE_SPECS], all zero but the number of integers. *)
Definition curve_lcl (count : Z) : ecc_curve_spec :=
  {| cs_dp := None; cs_prime := None; cs_Af := None; cs_Bf := None; cs_order := None; cs_Gx := None; cs_Gy := None;
     cs_spec_count := count; cs_spec_use := 0; cs_load_mask := 0 |}.

(** ecc.c:1741-1751, [wc_ecc_curve_cache_free_spec_item] *)
Definition wc_ecc_curve_cache_free_spec_item (curve : ecc_curve_spec) (mask : Z) : ecc_curve_spec :=
  let curve := set_cs_field mask (sp_clear <$> cs_field mask curve) curve in
  set_cs_mask (cs_dp curve) (Z.land (cs_load_mask curve) (255 - mask)) curve.

(** ecc.c:1752-1789, [wc_ecc_curve_cache_free_spec], all that is left of [wc_ecc_curve_free]. *)
Definition wc_ecc_curve_free (curve : ecc_curve_spec) : ecc_curve_spec :=
  let item mask curve := if Z.land (cs_load_mask curve) mask =? 0 then curve
                         else wc_ecc_curve_cache_free_spec_item curve mask in
  let curve := item ECC_CURVE_FIELD_PRIME curve in
  let curve := item ECC_CURVE_FIELD_AF curve in
  let curve := item ECC_CURVE_FIELD_BF curve in
  let curve := item ECC_CURVE_FIELD_ORDER curve in
  let curve := item ECC_CURVE_FIELD_GX curve in
  let curve := item ECC_CURVE_FIELD_GY curve in
  set_cs_mask (cs_dp curve) 0 curve.

(** ecc.c:1791-1826, [wc_ecc_curve_cache_load_item] *)
Definition wc_ecc_curve_cache_load_item (curve : ecc_curve_spec) (src : string) (mask : Z) : M (Z * ecc_curve_spec) :=
  if cs_spec_count curve <=? cs_spec_use curve then mret (ECC_BAD_ARG_E, curve)
  else
    let curve := set_cs_use (cs_spec_use curve + 1) curve in
    let '(err, dst) := sp_init_size mp_raw_zero SP_INT_DIGITS in
    if err =? 0 then
      let curve := set_cs_mask (cs_dp curve) (Z.lor (cs_load_mask curve) mask) curve in
      '(err, dst) ← sp_read_radix dst src 16;
      mret (err, set_cs_field mask (Some dst) curve)
    else mret (err, set_cs_field mask (Some dst) curve).

(** ecc.c:1828-1940, [wc_ecc_curve_load] *)
Definition wc_ecc_curve_load (dp : option ecc_set_type) (curve : ecc_curve_spec) (load_mask : Z) : M (Z * ecc_curve_spec) :=
  match dp with
  | None => mret (BAD_FUNC_ARG, curve)
  | Some d =>
    let curve := set_cs_mask dp (if bool_decide (cs_dp curve = dp) then cs_load_mask curve else 0) curve in
    let load_items := Z.land (Z.land (Z.lnot (cs_load_mask curve)) 255) load_mask in
    let curve := set_cs_mask dp (Z.lor (cs_load_mask curve) load_items) curve in
    let load mask src '(ret, curve) :=
      if Z.land load_items mask =? 0 then mret (ret, curve)
      else '(err, curve) ← wc_ecc_curve_cache_load_item curve src mask; mret (ret + err, curve) in
    s ← load ECC_CURVE_FIELD_PRIME (ecc_prime d) (0, curve);
    s ← load ECC_CURVE_FIELD_AF (ecc_Af d) s;
    s ← load ECC_CURVE_FIELD_BF (ecc_Bf d) s;
    s ← load ECC_CURVE_FIELD_ORDER (ecc_order d) s;
    s ← load ECC_CURVE_FIELD_GX (ecc_Gx d) s;
    '(ret, curve) ← load ECC_CURVE_FIELD_GY (ecc_Gy d) s;
    mret (if ret =? 0 then (ret, curve) else (MP_READ_E, wc_ecc_curve_free curve))
  end.

(** ecc.c:4718-4726, [wc_ecc_get_curve_params]: the entries before the terminating one. *)
Definition wc_ecc_get_curve_params (curve_idx : Z) : option ecc_set_type :=
  if (0 <=? curve_idx) && (curve_idx <? len ecc_sets) then ecc_sets !! Z.to_nat curve_idx else None.

(** ** The equation *)

(** ecc.c:10940-10942, [_ecc_is_point]: at most [n] times. *)
Fixpoint sub_while (n : nat) (err : Z) (t1 prime : mp_int) : M (Z * mp_int) :=
  if (err =? 0) && negb (sp_cmp t1 prime =? -1) then
    match n with
    | O => out_of_fuel
    | S n => '(err, t1) ← sp_sub t1 prime t1; sub_while n err t1 prime
    end
  else mret (err, t1).

(** ecc.c:10889-10902, [_ecc_is_point]: y^2 - x^3. *)
Definition square_less_cube (ecp : ecc_point) (prime t1 t2 : mp_int) : M (Z * mp_int) :=
  '(err, t1) ← sp_sqr (pt_y ecp) t1;
  '(err, t2) ← (if err =? 0 then sp_sqr (pt_x ecp) t2 else mret (err, t2));
  '(err, t2) ← (if err =? 0 then sp_mod t2 prime t2 false else mret (err, t2));
  '(err, t2) ← (if err =? 0 then sp_mul (pt_x ecp) t2 t2 else mret (err, t2));
  if err =? 0 then sp_submod t1 t2 prime t1 else mret (err, t1).

(** ecc.c:10889-10951, [_ecc_is_point]: the two numbers are there. *)
Definition is_point_body (ecp : ecc_point) (b prime t1 t2 : mp_int) : M Z :=
  '(err, t1) ← square_less_cube ecp prime t1 t2;
  '(err, t1) ← (if err =? 0 then sp_add t1 (pt_x ecp) t1 else mret (err, t1));
  '(err, t1) ← (if err =? 0 then sp_add t1 (pt_x ecp) t1 else mret (err, t1));
  '(err, t1) ← (if err =? 0 then sp_add t1 (pt_x ecp) t1 else mret (err, t1));
  '(err, t1) ← (if err =? 0 then sp_mod t1 prime t1 false else mret (err, t1));
  '(err, t1) ← sub_while 1 err t1 prime;
  mret (if (err =? 0) && negb (sp_cmp t1 b =? 0) then IS_POINT_E else err).

(** ecc.c:10860-10991, [_ecc_is_point] *)
Definition _ecc_is_point (ecp : ecc_point) (a b prime : mp_int) : M Z :=
  blk1 ← wolfSSL_Malloc;
  if negb blk1 then mret MEMORY_E
  else
    blk2 ← wolfSSL_Malloc;
    if negb blk2 then _ ← XFREE blk1; mret MEMORY_E
    else
      let '(err, ts) := sp_init_multi [mp_raw_zero; mp_raw_zero] in
      let t i := default mp_raw_zero (ts !! i) in
      err ← (if negb (err =? 0) then mret err else is_point_body ecp b prime (t 0%nat) (t 1%nat));
      _ ← XFREE blk2;
      _ ← XFREE blk1;
      mret err.

(** ecc.c:10993-11029, [wc_ecc_is_point] *)
Definition wc_ecc_is_point (ecp : option ecc_point) (a b prime : option mp_int) : M Z :=
  match ecp, a, b, prime with
  | Some ecp, Some a, Some b, Some prime =>
    if negb (sp_cmp (pt_x ecp) prime =? -1) then mret ECC_OUT_OF_RANGE_E
    else if negb (sp_cmp (pt_y ecp) prime =? -1) then mret ECC_OUT_OF_RANGE_E
    else
      one ← sp_isone (pt_z ecp);
      if negb one then mret ECC_BAD_ARG_E else _ecc_is_point ecp a b prime
  | _, _, _, _ => mret BAD_FUNC_ARG
  end.

(** ecc.c:5403-5431, [wc_ecc_point_is_on_curve] *)
Definition wc_ecc_point_is_on_curve (p : option ecc_point) (curve_idx : Z) : M Z :=
  let curve := curve_lcl 3 in
  if is_null p then mret BAD_FUNC_ARG
  else if negb (wc_ecc_is_valid_idx curve_idx) then mret ECC_BAD_ARG_E
  else
    spec_ints ← wolfSSL_Malloc;
    let err := if negb spec_ints then MEMORY_E else 0 in
    '(err, curve) ← (if err =? 0 then
        wc_ecc_curve_load (wc_ecc_get_curve_params curve_idx) curve
          (Z.lor (Z.lor ECC_CURVE_FIELD_PRIME ECC_CURVE_FIELD_AF) ECC_CURVE_FIELD_BF)
      else mret (err, curve));
    err ← (if err =? 0 then wc_ecc_is_point p (cs_Af curve) (cs_Bf curve) (cs_prime curve) else mret err);
    let _ := wc_ecc_curve_free curve in
    _ ← XFREE spec_ints;
    mret err.

(** ** Proofs *)

Section Point.
Context (e : env).

Definition no_memory (err : Z) : Prop := (err = MEMORY_E \/ err = MP_MEM) /\ oom e.

(** The left side of y^2 - x^3 + 3x = b, as the code reduces it. *)
Definition residue (P x y : Z) : Z := (y * y - x * x * x + 3 * x) mod P.

Lemma residue_steps P x y : 0 < P -> ((y * y - x * ((x * x) mod P)) mod P + x + x + x) mod P = residue P x y.
Proof.
  intros HP. unfold residue. replace ((y * y - x * ((x * x) mod P)) mod P + x + x + x) with ((y * y - x * ((x * x) mod P)) mod P + 3 * x) by lia.
  rewrite Zplus_mod_idemp_l. replace (y * y - x * ((x * x) mod P) + 3 * x) with (y * y + 3 * x - x * ((x * x) mod P)) by lia.
  rewrite Zminus_mod, Zmult_mod_idemp_r, <-Zminus_mod. f_equal. lia.
Qed.

Lemma sp_cmp_val na nb va vb a b : sp_is na va a -> sp_is nb vb b -> sp_cmp a b = Z.sgn (va - vb).
Proof. intros Ha Hb. change (sp_cmp a b) with (_sp_cmp_abs a b). by rewrite sp_cmp_abs_num, (sp_is_sp_val _ _ _ Ha), (sp_is_sp_val _ _ _ Hb) by eauto using sp_is_num. Qed.

(** A modulus of at most 17 digits. *)
Section Modulus.
Context (np P : Z) (prime : mp_int) (HP : sp_is np P prime) (Hup : mp_used prime <= 17).

Lemma below_modulus n v t : sp_is n v t -> v < P -> mp_used t <= 17.
Proof. intros Ht Hv. pose proof (sp_is_range HP). etransitivity; [apply (sp_is_used Ht (mp_used prime))|]; pose proof (si_used _ _ _ HP); lia. Qed.

Lemma product_used n u v t : sp_is n (u * v) t -> 0 <= u < P -> 0 <= v < P -> mp_used t <= 34.
Proof.
  intros Ht Hu Hv. pose proof (sp_is_range HP). pose proof (si_used _ _ _ HP). pose proof (pw_le (mp_used prime) 17 ltac:(lia)).
  apply (sp_is_used Ht 34); [lia|]. change (pw 34) with (pw 17 * pw 17). nia.
Qed.

Lemma sub_while_done n v t err : modular e n v err t -> v < P ->
  calc e 0 (sub_while 1 err t prime) (fun '(err, t') => modular e n v err t').
Proof.
  intros Ht Hv. cbn [sub_while]. destruct Ht as [[-> Ht]|[-> Ho]]; [|apply calc_ret; by right].
  rewrite (sp_cmp_val _ _ _ _ _ _ Ht HP), Z.sgn_neg by lia. apply calc_ret. by left.
Qed.

Lemma add_small n k x v err a t : modular e SP_INT_DIGITS v err t -> sp_is n x a -> mp_used a <= 17 -> 0 <= v < k * P -> 0 <= x < P -> 1 <= k <= 3 ->
  calc e 0 (if err =? 0 then sp_add t a t else mret (err, t)) (fun '(err, t') => modular e SP_INT_DIGITS (v + x) err t').
Proof.
  intros [[-> Ht]|[-> Ho]] Ha Hu Hv Hx Hk; [|apply calc_ret; by right]. cbn [Z.eqb].
  eapply calc_mono; [apply (sp_add_is e _ _ SP_INT_DIGITS _ _ _ _ _ Ht Ha), Ht|]. intros [err t'] Ht'.
  assert (mp_used t <= 18) as Hut.
  { apply (sp_is_used Ht 18); [lia|]. pose proof (sp_is_range HP). pose proof (si_used _ _ _ HP). pose proof (pw_le (mp_used prime) 17 ltac:(lia)).
    change (pw 18) with (2 ^ 32 * pw 17). nia. }
  rewrite (proj2 (Z.leb_gt _ _)) in Ht' by (change SP_INT_DIGITS with 35; lia). by left.
Qed.

Lemma mod_small_is v err t : modular e SP_INT_DIGITS v err t -> 0 < P -> 0 <= v < 4 * P ->
  calc e 0 (if err =? 0 then sp_mod t prime t false else mret (err, t)) (fun '(err, t') => modular e SP_INT_DIGITS (v mod P) err t').
Proof.
  intros [[-> Ht]|[-> Ho]] Hpos Hv; [|apply calc_ret; by right]. cbn [Z.eqb]. pose proof (sp_is_range HP). pose proof (si_used _ _ _ HP).
  pose proof (pw_le (mp_used prime) 17 ltac:(lia)). assert (mp_used t <= 18) by (apply (sp_is_used Ht 18); [lia|]; change (pw 18) with (2 ^ 32 * pw 17); lia).
  apply (sp_mod_is e _ np SP_INT_DIGITS _ _ _ _ _ false Ht HP Hpos); [apply Ht|change SP_INT_DIGITS with 35; lia..].
Qed.
End Modulus.

(** The test on a point whose coordinates are less than the modulus. *)
Section Body.
Context (np nx ny nb P x y vb : Z) (ecp : ecc_point) (b prime : mp_int).
Context (HP : sp_is np P prime) (Hpos : 0 < P) (Hup : mp_used prime <= 17).
Context (Hx : sp_is nx x (pt_x ecp)) (Hxr : 0 <= x < P) (Hy : sp_is ny y (pt_y ecp)) (Hyr : 0 <= y < P) (Hb : sp_is nb vb b).

Lemma square_less_cube_is t1 t2 : sp_box SP_INT_DIGITS t1 -> sp_box SP_INT_DIGITS t2 ->
  calc e 0 (square_less_cube ecp prime t1 t2) (fun '(err, t1) => modular e SP_INT_DIGITS ((y * y - x * ((x * x) mod P)) mod P) err t1).
Proof.
  intros B1 B2. unfold square_less_cube. pose proof (below_modulus _ _ _ HP Hup _ _ _ Hx ltac:(lia)) as Ux. pose proof (below_modulus _ _ _ HP Hup _ _ _ Hy ltac:(lia)) as Uy.
  change SP_INT_DIGITS with 35 in *.
  eapply calc_bind; [by apply (sp_sqr_is e ny 35 y)|]. intros [err t1'] H1. rewrite (proj2 (Z.ltb_ge _ _)) in H1 by lia.
  destruct H1 as [[-> H1]|(-> & _ & Ho)]; [|sp_skip; by right]. cbn [Z.eqb].
  eapply calc_bind; [by apply (sp_sqr_is e nx 35 x)|]. intros [err t2'] H2. rewrite (proj2 (Z.ltb_ge _ _)) in H2 by lia.
  destruct H2 as [[-> H2]|(-> & _ & Ho)]; [|sp_skip; by right]. cbn [Z.eqb].
  pose proof (product_used _ _ _ HP Hup _ _ _ _ H1 Hyr Hyr) as U1. pose proof (product_used _ _ _ HP Hup _ _ _ _ H2 Hxr Hxr) as U2.
  eapply calc_bind; [apply (sp_mod_is e 35 np 35 _ _ _ _ _ false H2 HP Hpos); [apply H2|change SP_INT_DIGITS with 35; lia|lia]|].
  intros [err t2''] [[-> H3]|[-> Ho]]; [|sp_skip; by right]. cbn [Z.eqb]. pose proof (Z.mod_pos_bound (x * x) P Hpos) as Hr.
  pose proof (below_modulus _ _ _ HP Hup _ _ _ H3 ltac:(lia)) as U3.
  eapply calc_bind; [apply (sp_mul_is e nx 35 35 _ _ _ _ _ Hx H3), H3|]. intros [err t2'''] H4. rewrite (proj2 (Z.ltb_ge _ _)) in H4 by lia.
  destruct H4 as [[-> H4]|(-> & _ & Ho)]; [|sp_skip; by right]. cbn [Z.eqb].
  pose proof (product_used _ _ _ HP Hup _ _ _ _ H4 Hxr Hr) as U4.
  eapply calc_mono; [apply (sp_submod_is e 35 35 np 35 _ _ _ _ _ _ _ H1 H4 HP); [apply H1|change SP_INT_DIGITS with 35; lia..|lia|lia]|done].
Qed.

Lemma is_point_body_is t1 t2 : sp_box SP_INT_DIGITS t1 -> sp_box SP_INT_DIGITS t2 ->
  calc e 0 (is_point_body ecp b prime t1 t2) (fun err =>
    err = (if residue P x y =? vb then 0 else IS_POINT_E) \/ (err = MP_MEM /\ oom e)).
Proof.
  intros B1 B2. unfold is_point_body. pose proof (below_modulus _ _ _ HP Hup _ _ _ Hx ltac:(lia)) as Ux.
  eapply calc_bind; [by apply square_less_cube_is|]. intros [err0 t] H0. rewrite <-residue_steps by done.
  pose proof (Z.mod_pos_bound (y * y - x * ((x * x) mod P)) P Hpos) as Hv. set (v := (_ - _) mod P) in *. clearbody v.
  eapply calc_bind; [apply (add_small _ _ _ HP Hup _ 1 x v _ _ _ H0 Hx); lia|]. intros [err1 t3] H1.
  eapply calc_bind; [apply (add_small _ _ _ HP Hup _ 2 x _ _ _ _ H1 Hx); lia|]. intros [err2 t4] H2.
  eapply calc_bind; [apply (add_small _ _ _ HP Hup _ 3 x _ _ _ _ H2 Hx); lia|]. intros [err3 t5] H3.
  eapply calc_bind; [apply (mod_small_is _ _ _ HP Hup _ _ _ H3 Hpos); lia|]. intros [err4 t6] H4.
  eapply calc_bind; [apply (sub_while_done _ _ _ HP _ _ _ _ H4), Z.mod_pos_bound; lia|].
  intros [err5 t7] [[-> H5]|[-> Ho]]; apply calc_ret; [left|by right]. cbn [Z.eqb andb]. rewrite (sp_cmp_val _ _ _ _ _ _ H5 Hb).
  set (r := _ mod P). destruct (Z.eqb_spec r vb) as [->|Hne]; [by rewrite Z.sub_diag|].
  by rewrite (proj2 (Z.eqb_neq (Z.sgn (r - vb)) 0)) by lia.
Qed.

Lemma _ecc_is_point_is a : calc e 0 (_ecc_is_point ecp a b prime) (fun err =>
    err = (if residue P x y =? vb then 0 else IS_POINT_E) \/ no_memory err).
Proof.
  unfold _ecc_is_point. calc_step; cbn [negb]; [|calc_step; right; by split; [left|]]. calc_step; cbn [negb]; [|do 2 calc_step; right; by split; [left|]].
  destruct (storage_init _ mp_storage_raw_zero) as [Ht _]. apply sp_ok_is in Ht. change (sp_init_multi _) with (0, [_sp_init_size mp_raw_zero SP_INT_DIGITS; _sp_init_size mp_raw_zero SP_INT_DIGITS]).
  cbn [Z.eqb negb default from_option id lookup list_lookup]. eapply calc_bind; [apply is_point_body_is; apply Ht|].
  intros err Herr. do 3 calc_step. destruct Herr as [->|[-> Ho]]; [by left|right; by split; [right|]].
Qed.
End Body.

(** What [wc_ecc_is_point] answers for the coordinates [x], [y], [z]. *)
Definition point_verdict (P B x y z : Z) : Z :=
  if (P <=? x) || (P <=? y) then ECC_OUT_OF_RANGE_E
  else if negb (z =? 1) then ECC_BAD_ARG_E
  else if residue P x y =? B then 0 else IS_POINT_E.

Lemma wc_ecc_is_point_is np na nb nx ny nz P va vb x y z ecp a b prime :
  sp_is np P prime -> 0 < P -> mp_used prime <= 17 -> sp_is na va a -> sp_is nb vb b ->
  sp_is nx x (pt_x ecp) -> sp_is ny y (pt_y ecp) -> sp_is nz z (pt_z ecp) ->
  calc e 0 (wc_ecc_is_point (Some ecp) (Some a) (Some b) (Some prime)) (fun err =>
    err = point_verdict P vb x y z \/ no_memory err).
Proof.
  intros HP Hpos Hup Ha Hb Hx Hy Hz. unfold wc_ecc_is_point, point_verdict.
  pose proof (sp_is_range Hx). pose proof (sp_is_range Hy).
  change (sp_cmp ?u ?v) with (_sp_cmp_abs u v). rewrite (sp_cmp_lt _ _ _ _ _ _ Hx HP), (sp_cmp_lt _ _ _ _ _ _ Hy HP), !Z.leb_antisym.
  destruct (Z.ltb_spec x P); cbn [negb orb]; [|apply calc_ret; by left]. destruct (Z.ltb_spec y P); cbn [negb orb]; [|apply calc_ret; by left].
  eapply calc_isone; [exact Hz|]. destruct (z =? 1); cbn [negb]; [|apply calc_ret; by left].
  apply (_ecc_is_point_is np nx ny nb); [done..|lia|done|lia|done].
Qed.

(** *** The table *)

(** What the table promises of an entry: hexadecimal digits, A = -3, and a prime of
    at most 17 digits above B. *)
Definition entry_ok (d : ecc_set_type) : bool :=
  hex_string (ecc_prime d) && hex_string (ecc_Af d) && hex_string (ecc_Bf d) &&
  (number (ecc_Af d) =? number (ecc_prime d) - 3) && (0 <=? number (ecc_Bf d)) && (number (ecc_Bf d) <? number (ecc_prime d)) &&
  (number (ecc_prime d) <? pw 17).

Lemma entries_ok : forallb entry_ok ecc_sets = true.
Proof. vm_compute. reflexivity. Qed.

Lemma load_item_is c src mask : cs_spec_use c < cs_spec_count c -> hex_string src = true ->
  calc e 0 (wc_ecc_curve_cache_load_item c src mask) (fun '(err, c') => err = 0 /\ exists a, sp_ok a /\ sp_val a = number src /\
    c' = set_cs_field mask (Some a) (set_cs_mask (cs_dp c) (Z.lor (cs_load_mask c) mask) (set_cs_use (cs_spec_use c + 1) c))).
Proof.
  intros Hc [Hh Hn]%hex_string_spec. unfold wc_ecc_curve_cache_load_item. rewrite (proj2 (Z.leb_gt _ _)) by done.
  change (sp_init_size mp_raw_zero SP_INT_DIGITS) with (0, _sp_init_size mp_raw_zero SP_INT_DIGITS). cbn [Z.eqb].
  destruct (storage_init _ mp_storage_raw_zero) as [Ht _]. set (t := _sp_init_size _ _) in *. clearbody t.
  eapply calc_bind; [apply sp_read_radix_spec; [apply Ht|apply Ht|apply Ht|done|done]|]. intros [err a] (Hz & Ha & Hv). cbn [fst snd] in *.
  apply calc_ret. split; [done|]. by exists a.
Qed.

Lemma curve_load_is d : entry_ok d = true ->
  calc e 0 (wc_ecc_curve_load (Some d) (curve_lcl 3) (Z.lor (Z.lor ECC_CURVE_FIELD_PRIME ECC_CURVE_FIELD_AF) ECC_CURVE_FIELD_BF))
    (fun '(ret, c) => ret = 0 /\ exists p a b, cs_prime c = Some p /\ cs_Af c = Some a /\ cs_Bf c = Some b /\
       sp_is SP_INT_DIGITS (number (ecc_prime d)) p /\ sp_is SP_INT_DIGITS (number (ecc_Af d)) a /\ sp_is SP_INT_DIGITS (number (ecc_Bf d)) b).
Proof.
  unfold entry_ok. rewrite !andb_true_iff. intros ((((((Hp & Ha) & Hb) & _) & _) & _) & _). unfold wc_ecc_curve_load.
  rewrite (bool_decide_eq_false_2 (cs_dp _ = _)) by done. cbn [cs_load_mask set_cs_mask].
  change (Z.land (Z.land (Z.lnot 0) 255) _) with 7. cbv zeta.
  change (Z.land 7 1 =? 0) with false. change (Z.land 7 2 =? 0) with false. change (Z.land 7 4 =? 0) with false.
  change (Z.land 7 8 =? 0) with true. change (Z.land 7 16 =? 0) with true. change (Z.land 7 32 =? 0) with true. cbv iota.
  calc_step. eapply calc_bind; [by apply load_item_is|]. intros [err c1] (-> & p & Op & Vp & ->). do 2 calc_step.
  eapply calc_bind; [by apply load_item_is|]. intros [err c2] (-> & a & Oa & Va & ->). do 2 calc_step.
  eapply calc_bind; [by apply load_item_is|]. intros [err c3] (-> & b & Ob & Vb & ->). do 5 calc_step. cbn [Z.eqb Z.add].
  split; [done|]. exists p, a, b. split_and!; [done|done|done|rewrite <-Vp|rewrite <-Va|rewrite <-Vb]; by apply sp_ok_is.
Qed.

(** The equation with the coefficient A of the table. *)
Definition on_curve (d : ecc_set_type) (x y : Z) : bool :=
  (y * y) mod number (ecc_prime d) =? (x * x * x + number (ecc_Af d) * x + number (ecc_Bf d)) mod number (ecc_prime d).

Lemma residue_equation d x y : entry_ok d = true -> (residue (number (ecc_prime d)) x y =? number (ecc_Bf d)) = on_curve d x y.
Proof.
  unfold entry_ok. rewrite !andb_true_iff. intros ((((_ & HA) & HB0) & HB) & _). unfold on_curve, residue.
  set (P := number (ecc_prime d)) in *. set (A := number (ecc_Af d)) in *. set (B := number (ecc_Bf d)) in *.
  apply Z.eqb_eq in HA. apply Z.leb_le in HB0. apply Z.ltb_lt in HB. apply eq_bool_prop_intro. rewrite !Is_true_true, !Z.eqb_eq.
  rewrite <-(Z.mod_small B P) at 1 by lia. rewrite !Z.cong_iff_0, HA.
  replace (y * y - (x * x * x + (P - 3) * x + B)) with (y * y - x * x * x + 3 * x - B + (- x) * P) by lia. by rewrite Z_mod_plus_full.
Qed.

(** The answer to a point of an entry of the table, or to a bad index. *)
Definition curve_verdict (idx x y z : Z) : Z :=
  match wc_ecc_get_curve_params idx with
  | None => if idx =? ECC_CUSTOM_IDX then BAD_FUNC_ARG else ECC_BAD_ARG_E
  | Some d =>
    if (number (ecc_prime d) <=? x) || (number (ecc_prime d) <=? y) then ECC_OUT_OF_RANGE_E
    else if negb (z =? 1) then ECC_BAD_ARG_E
    else if on_curve d x y then 0 else IS_POINT_E
  end.

Lemma curve_params_ok idx d : wc_ecc_get_curve_params idx = Some d -> entry_ok d = true.
Proof.
  unfold wc_ecc_get_curve_params. destruct (_ && _); [|done]. intros Hd%list_elem_of_lookup_2. pose proof entries_ok as H.
  rewrite forallb_forall in H. apply H. by apply list_elem_of_In.
Qed.

Lemma valid_idx_params idx : wc_ecc_is_valid_idx idx = (if wc_ecc_get_curve_params idx then true else idx =? ECC_CUSTOM_IDX).
Proof.
  unfold wc_ecc_is_valid_idx, wc_ecc_get_curve_params. change (len ecc_sets) with 5.
  destruct (Z.leb_spec (5 + 1) idx), (Z.leb_spec (-1) idx), (Z.ltb_spec idx 5), (Z.leb_spec 0 idx), (Z.eqb_spec idx (-1)); cbn [andb]; try lia; try done.
  all: destruct (lookup_lt_is_Some_2 ecc_sets (Z.to_nat idx)) as [d ->]; [change (length ecc_sets) with 5%nat; lia|done].
Qed.
End Point.

(** C21. The curve test.  For every point and index, [wc_ecc_point_is_on_curve] stays
    inside its objects, frees what it took and answers 0 exactly for a point with z = 1
    and coordinates below the prime that satisfy y^2 = x^3 + Ax + B with the numbers of
    the table, ECC_OUT_OF_RANGE_E, ECC_BAD_ARG_E and IS_POINT_E for the others, and an
    argument error for an index without a curve; or it reports that memory ran out. *)
Theorem ecc_on_curve_exact e (p : ecc_point) idx : sp_ok (pt_x p) -> sp_ok (pt_y p) -> sp_ok (pt_z p) ->
  calc e 0 (wc_ecc_point_is_on_curve (Some p) idx) (fun err =>
    err = curve_verdict idx (sp_val (pt_x p)) (sp_val (pt_y p)) (sp_val (pt_z p)) \/
    ((err = MEMORY_E \/ err = MP_MEM) /\ oom e)).
Proof.
  intros Hx%sp_ok_is Hy%sp_ok_is Hz%sp_ok_is. unfold wc_ecc_point_is_on_curve. cbn [is_null]. rewrite valid_idx_params. unfold curve_verdict.
  destruct (wc_ecc_get_curve_params idx) as [d|] eqn:Ed; cbn [negb].
  - pose proof (curve_params_ok _ _ Ed) as Hd. calc_step; cbn [negb]; [change (0 =? 0) with true|change (MEMORY_E =? 0) with false]; cbv iota zeta.
    + eapply calc_bind; [by apply curve_load_is|]. intros [ret c] (-> & P & A & B & -> & -> & -> & HP & HA & HB). cbn [Z.eqb].
      pose proof Hd as Hk. unfold entry_ok in Hk. rewrite !andb_true_iff in Hk. destruct Hk as (((_ & HB0) & HB1) & Hk).
      apply Z.leb_le in HB0. apply Z.ltb_lt in HB1, Hk.
      eapply calc_bind; [apply (wc_ecc_is_point_is e _ _ _ _ _ _ _ _ _ _ _ _ _ _ _ _ HP ltac:(lia) ltac:(by apply (sp_is_used HP)) HA HB Hx Hy Hz)|].
      intros err Herr. unfold point_verdict in Herr. rewrite (residue_equation d) in Herr by done. do 2 calc_step. exact Herr.
    + calc_step. change (MEMORY_E =? 0) with false. sp_skip. right. by split; [left|].
  - destruct (idx =? ECC_CUSTOM_IDX); cbn [negb]; [|apply calc_ret; by left]. calc_step; cbn [negb]; [change (0 =? 0) with true|change (MEMORY_E =? 0) with false]; cbv iota zeta.
    + cbn [wc_ecc_curve_load]. calc_step. change (BAD_FUNC_ARG =? 0) with false. sp_skip. by left.
    + calc_step. change (MEMORY_E =? 0) with false. sp_skip. right. by split; [left|].
Qed.

(** The base point of P-256 is on its curve; with another y it is not. *)
Definition p256_point (y : Z) : ecc_point :=
  {| pt_x := sp_lit SP_INT_DIGITS (number (ecc_Gx ecc_secp256r1)); pt_y := sp_lit SP_INT_DIGITS y; pt_z := sp_lit SP_INT_DIGITS 1; pt_isAllocated := false |}.

Lemma sp_lit_ok v : 0 <= v < pw SP_INT_DIGITS -> sp_ok (sp_lit SP_INT_DIGITS v) /\ sp_val (sp_lit SP_INT_DIGITS v) = v.
Proof.
  intros Hv. assert (H : sp_is SP_INT_DIGITS v (sp_lit SP_INT_DIGITS v)) by by apply sp_lit_is.
  split; [|by eapply sp_is_sp_val]. destruct H as [[] ? ? _]. by split.
Qed.

Lemma ecc_on_curve_exact_witness :
  calc env_plenty 0 (wc_ecc_point_is_on_curve (Some (p256_point (number (ecc_Gy ecc_secp256r1)))) 2) (fun err => err = 0) /\
  calc env_plenty 0 (wc_ecc_point_is_on_curve (Some (p256_point 2)) 2) (fun err => err = IS_POINT_E).
Proof.
  split.
  - eapply calc_mono; [apply (ecc_on_curve_exact env_plenty (p256_point (number (ecc_Gy ecc_secp256r1))) 2);
      apply sp_lit_ok; (split; [by vm_compute|by vm_compute])|].
    intros err [->|[_ [n Hn]]]; [|discriminate]. vm_compute. reflexivity.
  - eapply calc_mono; [apply (ecc_on_curve_exact env_plenty (p256_point 2) 2);
      apply sp_lit_ok; (split; [by vm_compute|by vm_compute])|].
    intros err [->|[_ [n Hn]]]; [|discriminate]. vm_compute. reflexivity.
Defined.
