(* ===== verification/Hpke.v ===== *)
(** * Hpke: hybrid public-key encryption (hpke.c)

    Base mode of RFC 9180 for DHKEM(P-256, HKDF-SHA256), HKDF-SHA256 and
    AES-128-GCM or AES-256-GCM, the suites the configuration compiles in.  The
    key agreement goes through [wc_ecc_shared_secret] to the crypto callback;
    everything else is computed here.  [Rfc9180] states the functions of the
    standard; the lemmas relate every function of hpke.c to them.

    A function that takes a pointer into a larger buffer is given the slice it
    works on; the caller puts the slice back. *)

From Stdlib Require Import Ascii.
From stdpp Require Import strings.
From S2P Require Import Prelude Platform Types Misc CryptoCb Sha256 Hmac Aes Gcm Drbg SpInt Ecc.

(** The bytes of a string constant. *)
Definition str (s : string) : bytes := (fun c => Z.of_nat (nat_of_ascii c)) <$> String.list_ascii_of_string s.

(** ** Data *)

(** hpke.h:42, [DHKEM_P256_HKDF_SHA256] *)
Notation DHKEM_P256_HKDF_SHA256 := (0x0010)%Z (only parsing).
(** hpke.h:43, [DHKEM_P384_HKDF_SHA384] *)
Notation DHKEM_P384_HKDF_SHA384 := (0x0011)%Z (only parsing).
(** hpke.h:44, [DHKEM_P521_HKDF_SHA512] *)
Notation DHKEM_P521_HKDF_SHA512 := (0x0012)%Z (only parsing).
(** hpke.h:49, [DHKEM_P256_ENC_LEN] *)
Notation DHKEM_P256_ENC_LEN := (65)%Z (only parsing).
(** hpke.h:57, [HKDF_SHA256] *)
Notation HKDF_SHA256 := (0x0001)%Z (only parsing).
(** hpke.h:64, [HPKE_AES_128_GCM] *)
Notation HPKE_AES_128_GCM := (0x0001)%Z (only parsing).
(** hpke.h:65, [HPKE_AES_256_GCM] *)
Notation HPKE_AES_256_GCM := (0x0002)%Z (only parsing).
(** hpke.h:78-80, [MAX_HPKE_LABEL_SZ] *)
Notation MAX_HPKE_LABEL_SZ := (512)%Z (only parsing).

(** hpke.h:82-102, [Hpke] *)
Record Hpke := {
  hp_Nh : Z; hp_Nk : Z; hp_Nn : Z; hp_Nt : Z; hp_Ndh : Z; hp_Npk : Z; hp_Nsecret : Z;
  hp_kdfDigest : Z; hp_kemDigest : Z; hp_curveId : Z;
  hp_kem : Z; hp_kdf : Z; hp_aead : Z;
  hp_kem_suite_id : bytes;    (* 5 bytes *)
  hp_hpke_suite_id : bytes;   (* 10 bytes *)
}.

(** hpke.h:104-109, [HpkeBaseContext] *)
Record HpkeBaseContext := {
  hc_seq : Z;
  hc_key : bytes;             (* 32 bytes *)
  hc_base_nonce : bytes;      (* 12 bytes *)
  hc_exporter_secret : bytes; (* 64 bytes *)
}.

Definition hpke_zero : Hpke :=
  {| hp_Nh := 0; hp_Nk := 0; hp_Nn := 0; hp_Nt := 0; hp_Ndh := 0; hp_Npk := 0; hp_Nsecret := 0;
     hp_kdfDigest := 0; hp_kemDigest := 0; hp_curveId := 0; hp_kem := 0; hp_kdf := 0; hp_aead := 0;
     hp_kem_suite_id := zeros 5; hp_hpke_suite_id := zeros 10 |}.

Definition context_zero : HpkeBaseContext :=
  {| hc_seq := 0; hc_key := zeros 32; hc_base_nonce := zeros 12; hc_exporter_secret := zeros 64 |}.

(** hpke.c:50-51, [KEM_STR] *)
Notation KEM_STR := (str "KEM") (only parsing).
(** hpke.c:53-54, [HPKE_STR] *)
Notation HPKE_STR := (str "HPKE") (only parsing).
(** hpke.c:56-57, [HPKE_VERSION_STR] *)
Notation HPKE_VERSION_STR := (str "HPKE-v1") (only parsing).
(** hpke.c:59-60, [EAE_PRK_LABEL_STR] *)
Notation EAE_PRK_LABEL_STR := (str "eae_prk") (only parsing).
(** hpke.c:62-63, [SHARED_SECRET_LABEL_STR] *)
Notation SHARED_SECRET_LABEL_STR := (str "shared_secret") (only parsing).
(** hpke.c:65-66, [PSK_ID_HASH_LABEL_STR] *)
Notation PSK_ID_HASH_LABEL_STR := (str "psk_id_hash") (only parsing).
(** hpke.c:68-69, [INFO_HASH_LABEL_STR] *)
Notation INFO_HASH_LABEL_STR := (str "info_hash") (only parsing).
(** hpke.c:71-72, [SECRET_LABEL_STR] *)
Notation SECRET_LABEL_STR := (str "secret") (only parsing).
(** hpke.c:74-75, [KEY_LABEL_STR] *)
Notation KEY_LABEL_STR := (str "key") (only parsing).
(** hpke.c:77-78, [BASE_NONCE_LABEL_STR] *)
Notation BASE_NONCE_LABEL_STR := (str "base_nonce") (only parsing).
(** hpke.c:80-81, [EXP_LABEL_STR] *)
Notation EXP_LABEL_STR := (str "exp") (only parsing).

(** ** Set-up *)

(** hpke.c:100-103, [I2OSP]: the loop, from index [i]. *)
Fixpoint I2OSP_loop (fuel : nat) (n w i : Z) (out : bytes) : M bytes :=
  match fuel with
  | O => mret out
  | S fuel =>
    if (i <? w) && (0 <? n) then
      out ← wr out (w - (i + 1)) [w8 n];
      I2OSP_loop fuel (Z.shiftr n 8) w (i + 1) out
    else mret out
  end.

(** hpke.c:84-106, [I2OSP]; [out] is the buffer from the place written to. *)
Definition I2OSP (n w : Z) (out : bytes) : M (Z * bytes) :=
  if (w <=? 0) || (32 <? w) || (n <? 0) then mret (MP_VAL, out)
  else if (w <? 4) && (Z.shiftl 1 (w * 8) - 1 <? n) then mret (MP_VAL, out)
  else
    out ← wr out 0 (zeros w);
    out ← I2OSP_loop (Z.to_nat w) n w 0 out;
    mret (0, out).

(** [I2OSP] to the bytes of [buf] at [off]. *)
Definition I2OSP_at (n w : Z) (buf : bytes) (off : Z) : M (Z * bytes) :=
  o ← rd buf off (len buf - off);
  '(ret, o) ← I2OSP n w o;
  buf ← wr buf off o;
  mret (ret, buf).

(** hpke.c:150-225, [wc_HpkeInit]: the KEM. *)
Definition init_kem (hpke : Hpke) (kem : Z) : Z * Hpke :=
  if kem =? DHKEM_P256_HKDF_SHA256 then
    let set Ndh Npk :=
      {| hp_Nh := hp_Nh hpke; hp_Nk := hp_Nk hpke; hp_Nn := hp_Nn hpke; hp_Nt := hp_Nt hpke; hp_Ndh := Ndh;
         hp_Npk := Npk; hp_Nsecret := 32; hp_kdfDigest := hp_kdfDigest hpke; hp_kemDigest := WC_HASH_TYPE_SHA256;
         hp_curveId := ECC_SECP256R1; hp_kem := hp_kem hpke; hp_kdf := hp_kdf hpke; hp_aead := hp_aead hpke;
         hp_kem_suite_id := hp_kem_suite_id hpke; hp_hpke_suite_id := hp_hpke_suite_id hpke |} in
    let ret := wc_ecc_get_curve_size_from_id ECC_SECP256R1 in
    if ret <? 0 then (ret, set (hp_Ndh hpke) (hp_Npk hpke)) else (0, set ret (1 + ret * 2))
  else (BAD_FUNC_ARG, hpke).

(** hpke.c:227-254, [wc_HpkeInit]: the KDF. *)
Definition init_kdf (hpke : Hpke) (kdf : Z) : Z * Hpke :=
  if kdf =? HKDF_SHA256 then
    (0, {| hp_Nh := 32; hp_Nk := hp_Nk hpke; hp_Nn := hp_Nn hpke; hp_Nt := hp_Nt hpke; hp_Ndh := hp_Ndh hpke;
           hp_Npk := hp_Npk hpke; hp_Nsecret := hp_Nsecret hpke; hp_kdfDigest := WC_HASH_TYPE_SHA256;
           hp_kemDigest := hp_kemDigest hpke; hp_curveId := hp_curveId hpke; hp_kem := hp_kem hpke;
           hp_kdf := hp_kdf hpke; hp_aead := hp_aead hpke;
           hp_kem_suite_id := hp_kem_suite_id hpke; hp_hpke_suite_id := hp_hpke_suite_id hpke |})
  else (BAD_FUNC_ARG, hpke).

(** hpke.c:256-278, [wc_HpkeInit]: the AEAD. *)
Definition init_aead (hpke : Hpke) (aead : Z) : Z * Hpke :=
  let set Nk :=
    {| hp_Nh := hp_Nh hpke; hp_Nk := Nk; hp_Nn := 12; hp_Nt := 16; hp_Ndh := hp_Ndh hpke;
       hp_Npk := hp_Npk hpke; hp_Nsecret := hp_Nsecret hpke; hp_kdfDigest := hp_kdfDigest hpke;
       hp_kemDigest := hp_kemDigest hpke; hp_curveId := hp_curveId hpke; hp_kem := hp_kem hpke;
       hp_kdf := hp_kdf hpke; hp_aead := hp_aead hpke;
       hp_kem_suite_id := hp_kem_suite_id hpke; hp_hpke_suite_id := hp_hpke_suite_id hpke |} in
  if aead =? HPKE_AES_128_GCM then (0, set 16)
  else if aead =? HPKE_AES_256_GCM then (0, set 32)
  else (BAD_FUNC_ARG, hpke).

(** hpke.c:109-281, [wc_HpkeInit] *)
Definition wc_HpkeInit (hpke : Hpke) (kem kdf aead : Z) : M (Z * Hpke) :=
  if (kem =? 0) || (kdf =? 0) || (aead =? 0) then mret (BAD_FUNC_ARG, hpke)
  else
    kid ← wr (zeros 5) 0 KEM_STR;
    '(ret, kid) ← I2OSP_at kem 2 kid 3;
    hid ← wr (zeros 10) 0 HPKE_STR;
    '(ret, hid) ← (if ret =? 0 then I2OSP_at kem 2 hid 4 else mret (ret, hid));
    '(ret, hid) ← (if ret =? 0 then I2OSP_at kdf 2 hid 6 else mret (ret, hid));
    '(ret, hid) ← (if ret =? 0 then I2OSP_at aead 2 hid 8 else mret (ret, hid));
    let hpke :=
      {| hp_Nh := 0; hp_Nk := 0; hp_Nn := 0; hp_Nt := 0; hp_Ndh := 0; hp_Npk := 0; hp_Nsecret := 0;
         hp_kdfDigest := 0; hp_kemDigest := 0; hp_curveId := 0; hp_kem := w16 kem; hp_kdf := w16 kdf;
         hp_aead := w16 aead; hp_kem_suite_id := kid; hp_hpke_suite_id := hid |} in
    let '(ret, hpke) := if ret =? 0 then init_kem hpke kem else (ret, hpke) in
    let '(ret, hpke) := if ret =? 0 then init_kdf hpke kdf else (ret, hpke) in
    let '(ret, hpke) := if ret =? 0 then init_aead hpke aead else (ret, hpke) in
    mret (ret, hpke).

(** The three KEM identifiers whose keys are [ecc_key] objects. *)
Definition is_ecc_kem (kem : Z) : bool :=
  (kem =? DHKEM_P256_HKDF_SHA256) || (kem =? DHKEM_P384_HKDF_SHA384) || (kem =? DHKEM_P521_HKDF_SHA512).

(** hpke.c:459-485, [wc_HpkeFreeKey] *)
Definition wc_HpkeFreeKey (kem : Z) (keypair : option ecc_key) : M unit :=
  if is_ecc_kem kem then wc_ecc_key_free keypair else mret tt.

(** hpke.c:355-394, [wc_HpkeSerializePublicKey]; [out] is the buffer from the
    place written to. *)
Definition wc_HpkeSerializePublicKey (hpke : Hpke) (key : ecc_key) (out : bytes) (outSz : Z) : M (Z * bytes * Z) :=
  '(ret, o, n) ← (if is_ecc_kem (hp_kem hpke) then wc_ecc_export_x963_ex key (Some out) outSz false
                  else mret (BAD_FUNC_ARG, Some out, outSz));
  mret (ret, default out o, w16 n).

(** hpke.c:397-456, [wc_HpkeDeserializePublicKey]: the code and the key. *)
Definition wc_HpkeDeserializePublicKey (hpke : Hpke) (key : option ecc_key) (inp : option bytes) (inSz : Z)
    : M (Z * option ecc_key) :=
  match inp with
  | None => mret (BAD_FUNC_ARG, key)
  | Some _ =>
    if inSz <? hp_Npk hpke then mret (BUFFER_E, key)
    else
      '(ret, key) ←
        (if is_ecc_kem (hp_kem hpke) then
           key ← wc_ecc_key_new;
           match key with
           | Some k => '(ret, k) ← wc_ecc_import_x963_ex inp inSz k (hp_curveId hpke); mret (ret, Some k)
           | None => mret (0, None)
           end
         else mret (BAD_FUNC_ARG, key));
      let ret := match key with None => if ret =? 0 then MEMORY_E else ret | Some _ => ret end in
      if negb (ret =? 0) && bool_decide (is_Some key) then
        _ ← wc_HpkeFreeKey (hp_kem hpke) key;
        mret (ret, None)
      else mret (ret, key)
  end.

(** hpke.c:1504-1531, [wc_HpkeKemGetEncLen] *)
Definition wc_HpkeKemGetEncLen (kemId : Z) : Z := if kemId =? DHKEM_P256_HKDF_SHA256 then DHKEM_P256_ENC_LEN else 0.

(** hpke.c:1535-1559, [wc_HpkeKemIsSupported] *)
Definition wc_HpkeKemIsSupported (kemId : Z) : bool := kemId =? DHKEM_P256_HKDF_SHA256.

(** hpke.c:1563-1580, [wc_HpkeKdfIsSupported] *)
Definition wc_HpkeKdfIsSupported (kdfId : Z) : bool := kdfId =? HKDF_SHA256.

(** hpke.c:1584-1598, [wc_HpkeAeadIsSupported] *)
Definition wc_HpkeAeadIsSupported (aeadId : Z) : bool := (aeadId =? HPKE_AES_128_GCM) || (aeadId =? HPKE_AES_256_GCM).

(** ** Key schedule *)

Section Code.
Context `{!Callbacks}.

(** hpke.c:285-352, [wc_HpkeGenerateKeyPair] *)
Definition wc_HpkeGenerateKeyPair (hpke : Hpke) (keypair : option ecc_key) (rng : WC_RNG)
    : M (Z * option ecc_key * WC_RNG) :=
  '(ret, keypair, rng) ←
    (if hp_kem hpke =? DHKEM_P256_HKDF_SHA256 then
       key ← wc_ecc_key_new;
       match key with
       | Some k => '(ret, (rng, k)) ← wc_ecc_make_key_ex rng 32 k ECC_SECP256R1; mret (ret, Some k, rng)
       | None => mret (0, None, rng)
       end
     else mret (BAD_FUNC_ARG, keypair, rng));
  let ret := match keypair with None => if ret =? 0 then MEMORY_E else ret | Some _ => ret end in
  if negb (ret =? 0) && bool_decide (is_Some keypair) then
    _ ← wc_HpkeFreeKey (hp_kem hpke) keypair;
    mret (ret, None, rng)
  else mret (ret, keypair, rng).

(** hpke.c:487-552, [wc_HpkeLabeledExtract] *)
Definition wc_HpkeLabeledExtract (suite_id : bytes) (digest : Z) (salt : option bytes) (salt_len : Z)
    (label : bytes) (ikm : option bytes) (ikm_len : Z) (out : bytes) : M (Z * bytes) :=
  let remaining := MAX_HPKE_LABEL_SZ in
  if remaining <? len HPKE_VERSION_STR then mret (BUFFER_E, out)
  else
    let remaining := remaining - len HPKE_VERSION_STR in
    if remaining <? len suite_id then mret (BUFFER_E, out)
    else
      let remaining := remaining - len suite_id in
      if remaining <? len label then mret (BUFFER_E, out)
      else
        let remaining := remaining - len label in
        if remaining <? ikm_len then mret (BUFFER_E, out)
        else
          labeled_ikm ← wolfSSL_Malloc;
          if negb labeled_ikm then mret (MEMORY_E, out)
          else
            b ← wr (zeros MAX_HPKE_LABEL_SZ) 0 HPKE_VERSION_STR;
            let p := len HPKE_VERSION_STR in
            b ← wr b p suite_id;
            let p := p + len suite_id in
            b ← wr b p label;
            let p := p + len label in
            '(b, p) ← (if negb (ikm_len =? 0) then
                         i ← rd (default [] ikm) 0 ikm_len; b ← wr b p i; mret (b, p + ikm_len)
                       else mret (b, p));
            '(ret, out) ← wc_HKDF_Extract digest salt salt_len (Some (take (Z.to_nat p) b)) p out;
            _ ← wolfSSL_Free;
            mret (ret, out).

(** hpke.c:556-624, [wc_HpkeLabeledExpand] *)
Definition wc_HpkeLabeledExpand (suite_id : bytes) (digest : Z) (prk : bytes) (prk_len : Z) (label info : bytes)
    (infoSz L : Z) (out : bytes) : M (Z * bytes) :=
  let remaining := MAX_HPKE_LABEL_SZ in
  if remaining <? 2 + len HPKE_VERSION_STR then mret (BUFFER_E, out)
  else
    let remaining := remaining - (2 + len HPKE_VERSION_STR) in
    if remaining <? len suite_id then mret (BUFFER_E, out)
    else
      let remaining := remaining - len suite_id in
      if remaining <? len label then mret (BUFFER_E, out)
      else
        let remaining := remaining - len label in
        if remaining <? infoSz then mret (BUFFER_E, out)
        else
          labeled_info ← wolfSSL_Malloc;
          if negb labeled_info then mret (MEMORY_E, out)
          else
            '(ret, b) ← I2OSP (s32 L) 2 (zeros MAX_HPKE_LABEL_SZ);
            '(ret, out) ←
              (if ret =? 0 then
                 let p := 2 in
                 b ← wr b p HPKE_VERSION_STR;
                 let p := p + len HPKE_VERSION_STR in
                 b ← wr b p suite_id;
                 let p := p + len suite_id in
                 b ← wr b p label;
                 let p := p + len label in
                 i ← rd info 0 infoSz;
                 b ← wr b p i;
                 let p := p + infoSz in
                 wc_HKDF_Expand digest (Some prk) prk_len (Some (take (Z.to_nat p) b)) p out L
               else mret (ret, out));
            _ ← wolfSSL_Free;
            mret (ret, out).

(** hpke.c:628-646, [wc_HpkeContextComputeNonce]: the nonce is [hp_Nn] bytes. *)
Definition wc_HpkeContextComputeNonce (hpke : Hpke) (context : HpkeBaseContext) (out : bytes) : M (Z * bytes) :=
  '(ret, seq_bytes) ← I2OSP (hc_seq context) (hp_Nn hpke) (zeros 12);
  if ret =? 0 then
    out ← wr out 0 (xorbufout (hc_base_nonce context) seq_bytes (hp_Nn hpke));
    mret (ret, out)
  else mret (ret, out).

(** hpke.c:649-689, [wc_HpkeExtractAndExpand] *)
Definition wc_HpkeExtractAndExpand (hpke : Hpke) (dh : bytes) (dh_len : Z) (kemContext : bytes) (kem_context_length : Z)
    (sharedSecret : bytes) : M (Z * bytes) :=
  eae_prk ← wolfSSL_Malloc;
  if negb eae_prk then mret (MEMORY_E, sharedSecret)
  else
    '(ret, prk) ← wc_HpkeLabeledExtract (hp_kem_suite_id hpke) (hp_kemDigest hpke) None 0 EAE_PRK_LABEL_STR
                    (Some dh) dh_len (zeros 32);
    '(ret, sharedSecret) ←
      (if ret =? 0 then
         wc_HpkeLabeledExpand (hp_kem_suite_id hpke) (hp_kemDigest hpke) prk (hp_Nsecret hpke) SHARED_SECRET_LABEL_STR
           kemContext kem_context_length (hp_Nsecret hpke) sharedSecret
       else mret (ret, sharedSecret));
    let _ := ForceZero prk in
    _ ← wolfSSL_Free;
    mret (ret, sharedSecret).

(** hpke.c:736-746, [wc_HpkeKeyScheduleBase]: an extraction into
    [key_schedule_context] at [off]. *)
Definition schedule_extract (hpke : Hpke) (label : bytes) (ikm : option bytes) (ikm_len : Z) (ksc : bytes) (off : Z)
    : M (Z * bytes) :=
  o ← rd ksc off (len ksc - off);
  '(ret, o) ← wc_HpkeLabeledExtract (hp_hpke_suite_id hpke) (hp_kdfDigest hpke) None 0 label ikm ikm_len o;
  ksc ← wr ksc off o;
  mret (ret, ksc).

(** hpke.c:732-747, [wc_HpkeKeyScheduleBase]: mode, hash of the (absent) key
    identifier, hash of [info]. *)
Definition schedule_context (hpke : Hpke) (info : option bytes) (infoSz : Z) : M (Z * bytes) :=
  ksc ← wr (zeros (1 + 2 * 32)) 0 [0];
  '(ret, ksc) ← schedule_extract hpke PSK_ID_HASH_LABEL_STR None 0 ksc 1;
  if ret =? 0 then schedule_extract hpke INFO_HASH_LABEL_STR info infoSz ksc (1 + hp_Nh hpke)
  else mret (ret, ksc).

(** hpke.c:757-779, [wc_HpkeKeyScheduleBase]: key, nonce and exporter secret. *)
Definition schedule_keys (hpke : Hpke) (context : HpkeBaseContext) (sec ksc : bytes) : M (Z * HpkeBaseContext) :=
  let Nh := hp_Nh hpke in
  let expand label n out :=
    wc_HpkeLabeledExpand (hp_hpke_suite_id hpke) (hp_kdfDigest hpke) (take (Z.to_nat Nh) sec) Nh label ksc (1 + 2 * Nh)
      n out in
  '(ret, key) ← expand KEY_LABEL_STR (hp_Nk hpke) (hc_key context);
  '(ret, base_nonce) ← (if ret =? 0 then expand BASE_NONCE_LABEL_STR (hp_Nn hpke) (hc_base_nonce context)
                        else mret (ret, hc_base_nonce context));
  '(ret, exporter) ← (if ret =? 0 then expand EXP_LABEL_STR Nh (hc_exporter_secret context)
                      else mret (ret, hc_exporter_secret context));
  mret (ret, {| hc_seq := hc_seq context; hc_key := key; hc_base_nonce := base_nonce;
                hc_exporter_secret := exporter |}).

(** hpke.c:693-791, [wc_HpkeKeyScheduleBase] *)
Definition wc_HpkeKeyScheduleBase (hpke : Hpke) (context : HpkeBaseContext) (sharedSecret : bytes)
    (info : option bytes) (infoSz : Z) : M (Z * HpkeBaseContext) :=
  key_schedule_context ← wolfSSL_Malloc;
  secret ← wolfSSL_Malloc;
  if negb key_schedule_context || negb secret then
    _ ← XFREE key_schedule_context;
    _ ← XFREE secret;
    mret (MEMORY_E, context)
  else
    let context := {| hc_seq := 0; hc_key := hc_key context; hc_base_nonce := hc_base_nonce context;
                      hc_exporter_secret := hc_exporter_secret context |} in
    '(ret, ksc) ← schedule_context hpke info infoSz;
    '(ret, sec) ←
      (if ret =? 0 then
         wc_HpkeLabeledExtract (hp_hpke_suite_id hpke) (hp_kdfDigest hpke)
           (Some (take (Z.to_nat (hp_Nsecret hpke)) sharedSecret)) (hp_Nsecret hpke) SECRET_LABEL_STR None 0 (zeros 32)
       else mret (ret, zeros 32));
    '(ret, context) ← (if ret =? 0 then schedule_keys hpke context sec ksc else mret (ret, context));
    let _ := (ForceZero ksc, ForceZero sec) in
    _ ← wolfSSL_Free;
    _ ← wolfSSL_Free;
    mret (ret, context).

(** ** Sender *)

(** hpke.c:845-867 and 1251-1287: the key agreement with a generator attached
    to [priv] for the time of the call. *)
Definition agree_with_rng (priv pub : ecc_key) (dh : bytes) (dh_len : Z) : M (Z * ecc_key * bytes * Z) :=
  let prevRng := ek_rng priv in
  let '(_, priv) := wc_ecc_set_rng priv true in
  '(ret, (dh, dh_len)) ← wc_ecc_shared_secret priv pub dh dh_len;
  let '(_, priv) := wc_ecc_set_rng priv prevRng in
  mret (ret, priv, dh, dh_len).

(** [wc_HpkeSerializePublicKey] to the bytes of [buf] at [off]. *)
Definition serialize_at (hpke : Hpke) (key : ecc_key) (buf : bytes) (off outSz : Z) : M (Z * bytes * Z) :=
  o ← rd buf off (len buf - off);
  '(ret, o, n) ← wc_HpkeSerializePublicKey hpke key o outSz;
  buf ← wr buf off o;
  mret (ret, buf, n).

(** hpke.c:847-867, [wc_HpkeEncap]: the key agreement. *)
Definition encap_agree (ephemeralKey receiverKey : ecc_key) (dh : bytes) (dh_len : Z) : M (Z * ecc_key * bytes * Z) :=
  rng ← wc_rng_new None 0;
  match rng with
  | None => mret (RNG_FAILURE_E, ephemeralKey, dh, dh_len)
  | Some _ =>
    '(ret, ephemeralKey, dh, dh_len) ← agree_with_rng ephemeralKey receiverKey dh dh_len;
    _ ← wc_rng_free rng;
    mret (ret, ephemeralKey, dh, dh_len)
  end.

(** hpke.c:885-894, [wc_HpkeEncap]: enc and pkR, serialized. *)
Definition encap_context (hpke : Hpke) (ephemeralKey receiverKey : ecc_key) : M (Z * bytes) :=
  let receiverPubKeySz := w16 (hp_Npk hpke) in
  let ephemeralPubKeySz := w16 (hp_Npk hpke) in
  '(ret, kemContext, ephemeralPubKeySz) ← serialize_at hpke ephemeralKey (zeros (hp_Npk hpke * 2)) 0 ephemeralPubKeySz;
  if ret =? 0 then
    '(ret, kemContext, _) ← serialize_at hpke receiverKey kemContext ephemeralPubKeySz receiverPubKeySz;
    mret (ret, kemContext)
  else mret (ret, kemContext).

(** hpke.c:794-910, [wc_HpkeEncap] *)
Definition wc_HpkeEncap (hpke : Hpke) (ephemeralKey receiverKey : ecc_key) (sharedSecret : bytes)
    : M (Z * ecc_key * bytes) :=
  dhp ← wolfSSL_Malloc;
  ctxp ← wolfSSL_Malloc;
  if negb dhp || negb ctxp then
    _ ← XFREE dhp;
    _ ← XFREE ctxp;
    mret (MEMORY_E, ephemeralKey, sharedSecret)
  else
    let dh := zeros (hp_Ndh hpke) in
    let dh_len := hp_Ndh hpke in
    '(ret, ephemeralKey, dh, dh_len) ←
      (if is_ecc_kem (hp_kem hpke) then encap_agree ephemeralKey receiverKey dh dh_len
       else mret (BAD_FUNC_ARG, ephemeralKey, dh, dh_len));
    '(ret, kemContext) ← (if ret =? 0 then encap_context hpke ephemeralKey receiverKey
                          else mret (ret, zeros (hp_Npk hpke * 2)));
    '(ret, sharedSecret) ←
      (if ret =? 0 then wc_HpkeExtractAndExpand hpke dh dh_len kemContext (hp_Npk hpke * 2) sharedSecret
       else mret (ret, sharedSecret));
    let _ := (ForceZero dh, ForceZero kemContext) in
    _ ← wolfSSL_Free;
    _ ← wolfSSL_Free;
    mret (ret, ephemeralKey, sharedSecret).

(** hpke.c:913-958, [wc_HpkeSetupBaseSender] *)
Definition wc_HpkeSetupBaseSender (hpke : Hpke) (context : HpkeBaseContext) (ephemeralKey receiverKey : ecc_key)
    (info : option bytes) (infoSz : Z) : M (Z * ecc_key * HpkeBaseContext) :=
  p ← wolfSSL_Malloc;
  if negb p then mret (MEMORY_E, ephemeralKey, context)
  else
    '(ret, ephemeralKey, sharedSecret) ← wc_HpkeEncap hpke ephemeralKey receiverKey (zeros (hp_Nsecret hpke));
    '(ret, context) ←
      (if ret =? 0 then wc_HpkeKeyScheduleBase hpke context sharedSecret info infoSz else mret (ret, context));
    let _ := ForceZero sharedSecret in
    _ ← wolfSSL_Free;
    mret (ret, ephemeralKey, context).

(** hpke.c:961-974, [wc_HpkeInitSealContext] *)
Definition wc_HpkeInitSealContext (hpke : Hpke) (context : HpkeBaseContext) (ephemeralKey receiverKey : ecc_key)
    (info : option bytes) (infoSz : Z) : M (Z * ecc_key * HpkeBaseContext) :=
  if bool_decide (info = None) && negb (infoSz =? 0) then mret (BAD_FUNC_ARG, ephemeralKey, context)
  else wc_HpkeSetupBaseSender hpke context_zero ephemeralKey receiverKey info infoSz.

Definition set_seq (n : Z) (c : HpkeBaseContext) : HpkeBaseContext :=
  {| hc_seq := n; hc_key := hc_key c; hc_base_nonce := hc_base_nonce c; hc_exporter_secret := hc_exporter_secret c |}.

(** hpke.c:1001-1012, [wc_HpkeContextSealBase]: with the cipher object. *)
Definition seal_body (hpke : Hpke) (context : HpkeBaseContext) (aes : Aes) (aad : option bytes) (aadSz : Z)
    (plaintext : bytes) (ptSz : Z) (out : bytes) : M (Z * HpkeBaseContext * bytes) :=
  '(ret, nonce) ← wc_HpkeContextComputeNonce hpke context (zeros 12);
  let '(ret, aes) := if ret =? 0
                     then wc_AesGcmSetKey aes (Some (take (Z.to_nat (hp_Nk hpke)) (hc_key context))) (hp_Nk hpke)
                     else (ret, aes) in
  if ret =? 0 then
    c ← rd out 0 ptSz;
    t ← rd out ptSz (len out - ptSz);
    '(ret, aes, c, t) ← wc_AesGcmEncrypt aes (Some c) (Some plaintext) ptSz (Some nonce) (hp_Nn hpke) (Some t)
                          (hp_Nt hpke) aad aadSz;
    out ← wr out 0 (default [] c);
    out ← wr out ptSz (default [] t);
    mret (ret, if ret =? 0 then set_seq (s32 (hc_seq context + 1)) context else context, out)
  else mret (ret, context, out).

(** hpke.c:981-1017, [wc_HpkeContextSealBase] *)
Definition wc_HpkeContextSealBase (hpke : Hpke) (context : HpkeBaseContext) (aad : option bytes) (aadSz : Z)
    (plaintext : option bytes) (ptSz : Z) (out : option bytes) : M (Z * HpkeBaseContext * option bytes) :=
  match plaintext, out with
  | Some plaintext, Some o =>
    if bool_decide (aad = None) && negb (aadSz =? 0) then mret (BAD_FUNC_ARG, context, out)
    else if hc_seq context =? 0x7fffffff then mret (SEQ_OVERFLOW_E, context, out)
    else
      p ← wolfSSL_Malloc;
      if negb p then mret (MEMORY_E, context, out)
      else
        let '(ret, aes) := wc_AesInit INVALID_DEVID in
        '(ret, context, o) ←
          (if ret =? 0 then seal_body hpke context aes aad aadSz plaintext ptSz o else mret (ret, context, o));
        let _ := wc_AesFree aes in
        _ ← wolfSSL_Free;
        mret (ret, context, Some o)
  | _, _ => mret (BAD_FUNC_ARG, context, out)
  end.

(** hpke.c:1022-1065, [wc_HpkeSealBase] *)
Definition wc_HpkeSealBase (hpke : Hpke) (ephemeralKey receiverKey : ecc_key) (info : option bytes) (infoSz : Z)
    (aad : option bytes) (aadSz : Z) (plaintext : option bytes) (ptSz : Z) (ciphertext : option bytes)
    : M (Z * ecc_key * option bytes) :=
  if (bool_decide (info = None) && negb (infoSz =? 0)) || (bool_decide (aad = None) && negb (aadSz =? 0)) ||
     bool_decide (plaintext = None) || bool_decide (ciphertext = None) then mret (BAD_FUNC_ARG, ephemeralKey, ciphertext)
  else
    p ← wolfSSL_Malloc;
    if negb p then mret (MEMORY_E, ephemeralKey, ciphertext)
    else
      '(ret, ephemeralKey, context) ← wc_HpkeSetupBaseSender hpke context_zero ephemeralKey receiverKey info infoSz;
      '(ret, context, ciphertext) ←
        (if ret =? 0 then wc_HpkeContextSealBase hpke context aad aadSz plaintext ptSz ciphertext
         else mret (ret, context, ciphertext));
      let _ := context_zero in
      _ ← wolfSSL_Free;
      mret (ret, ephemeralKey, ciphertext).

(** ** Receiver *)

(** hpke.c:1091-1184, [wc_HpkeCopyPrivateKey]: the copy, if one could be made. *)
Definition wc_HpkeCopyPrivateKey (hpke : Hpke) (key : ecc_key) : M (option ecc_key) :=
  '(ret, copy) ←
    (if is_ecc_kem (hp_kem hpke) then
       match ek_dp key with
       | None => mret (NOT_COMPILED_IN, None)
       | Some dp =>
         if negb (ek_devId key =? INVALID_DEVID) then mret (NOT_COMPILED_IN, None)
         else
           '(ret, eccPriv, eccPrivSz) ← wc_ecc_export_private_only key (Some (zeros ECC_MAXSIZE)) ECC_MAXSIZE;
           '(ret, copy) ←
             (if ret =? 0 then
                copy ← wc_ecc_key_new_ex INVALID_DEVID;
                mret (match copy with None => MEMORY_E | Some _ => ret end, copy)
              else mret (ret, None));
           '(ret, copy) ←
             (match copy with
              | Some c => if ret =? 0 then
                            '(ret, c) ← wc_ecc_import_private_key_ex eccPriv eccPrivSz c (ecc_id dp); mret (ret, Some c)
                          else mret (ret, copy)
              | None => mret (ret, copy)
              end);
           let _ := ForceZero (default [] eccPriv) in
           mret (ret, copy)
       end
     else mret (NOT_COMPILED_IN, None));
  if negb (ret =? 0) && bool_decide (is_Some copy) then _ ← wc_HpkeFreeKey (hp_kem hpke) copy; mret None
  else mret (if ret =? 0 then copy else None).

(** hpke.c:1251-1287, [wc_HpkeDecap]: the key agreement. *)
Definition decap_agree (hpke : Hpke) (receiverKey ephemeralKey : ecc_key) (dh : bytes) (dh_len : Z)
    : M (Z * ecc_key * bytes * Z) :=
  rng ← wc_rng_new None 0;
  match rng with
  | None => mret (RNG_FAILURE_E, receiverKey, dh, dh_len)
  | Some _ =>
    privCopy ← wc_HpkeCopyPrivateKey hpke receiverKey;
    '(ret, receiverKey, dh, dh_len) ←
      (match privCopy with
       | Some eccPriv =>
         let '(_, eccPriv) := wc_ecc_set_rng eccPriv true in
         '(ret, (dh, dh_len)) ← wc_ecc_shared_secret eccPriv ephemeralKey dh dh_len;
         _ ← wc_HpkeFreeKey (hp_kem hpke) (Some eccPriv);
         mret (ret, receiverKey, dh, dh_len)
       | None => agree_with_rng receiverKey ephemeralKey dh dh_len
       end);
    _ ← wc_rng_free rng;
    mret (ret, receiverKey, dh, dh_len)
  end.

(** hpke.c:1239-1334, [wc_HpkeDecap]: read the sender's key, agree, drop it. *)
Definition decap_dh (hpke : Hpke) (receiverKey : ecc_key) (pubKey : bytes) (pubKeySz : Z)
    : M (Z * ecc_key * bytes * Z) :=
  let dh := zeros (hp_Ndh hpke) in
  let dh_len := hp_Ndh hpke in
  '(ret, ephemeralKey) ← wc_HpkeDeserializePublicKey hpke None (Some pubKey) pubKeySz;
  match ephemeralKey with
  | Some eph =>
    '(ret, receiverKey, dh, dh_len) ←
      (if ret =? 0 then
         if is_ecc_kem (hp_kem hpke) then decap_agree hpke receiverKey eph dh dh_len
         else mret (BAD_FUNC_ARG, receiverKey, dh, dh_len)
       else mret (ret, receiverKey, dh, dh_len));
    _ ← wc_HpkeFreeKey (hp_kem hpke) ephemeralKey;
    mret (ret, receiverKey, dh, dh_len)
  | None => mret (ret, receiverKey, dh, dh_len)
  end.

(** hpke.c:1336-1343, [wc_HpkeDecap]: enc and pkR, serialized. *)
Definition decap_context (hpke : Hpke) (receiverKey : ecc_key) (pubKey : bytes) : M (Z * bytes) :=
  p ← rd pubKey 0 (hp_Npk hpke);
  kemContext ← wr (zeros (hp_Npk hpke * 2)) 0 p;
  '(ret, kemContext, _) ← serialize_at hpke receiverKey kemContext (hp_Npk hpke) (w16 (hp_Npk hpke));
  mret (ret, kemContext).

(** hpke.c:1188-1360, [wc_HpkeDecap] *)
Definition wc_HpkeDecap (hpke : Hpke) (receiverKey : ecc_key) (pubKey : bytes) (pubKeySz : Z) (sharedSecret : bytes)
    : M (Z * ecc_key * bytes) :=
  dhp ← wolfSSL_Malloc;
  ctxp ← wolfSSL_Malloc;
  if negb dhp || negb ctxp then
    _ ← XFREE dhp;
    _ ← XFREE ctxp;
    mret (MEMORY_E, receiverKey, sharedSecret)
  else
    '(ret, receiverKey, dh, dh_len) ← decap_dh hpke receiverKey pubKey pubKeySz;
    '(ret, kemContext) ← (if ret =? 0 then decap_context hpke receiverKey pubKey
                          else mret (ret, zeros (hp_Npk hpke * 2)));
    '(ret, sharedSecret) ←
      (if ret =? 0 then wc_HpkeExtractAndExpand hpke dh dh_len kemContext (hp_Npk hpke * 2) sharedSecret
       else mret (ret, sharedSecret));
    let _ := (ForceZero dh, ForceZero kemContext) in
    _ ← wolfSSL_Free;
    _ ← wolfSSL_Free;
    mret (ret, receiverKey, sharedSecret).

(** hpke.c:1363-1399, [wc_HpkeSetupBaseReceiver] *)
Definition wc_HpkeSetupBaseReceiver (hpke : Hpke) (context : HpkeBaseContext) (receiverKey : ecc_key) (pubKey : bytes)
    (pubKeySz : Z) (info : option bytes) (infoSz : Z) : M (Z * ecc_key * HpkeBaseContext) :=
  p ← wolfSSL_Malloc;
  if negb p then mret (MEMORY_E, receiverKey, context)
  else
    '(ret, receiverKey, sharedSecret) ← wc_HpkeDecap hpke receiverKey pubKey pubKeySz (zeros (hp_Nsecret hpke));
    '(ret, context) ←
      (if ret =? 0 then wc_HpkeKeyScheduleBase hpke context sharedSecret info infoSz else mret (ret, context));
    let _ := ForceZero sharedSecret in
    _ ← wolfSSL_Free;
    mret (ret, receiverKey, context).

(** hpke.c:1402-1413, [wc_HpkeInitOpenContext] *)
Definition wc_HpkeInitOpenContext (hpke : Hpke) (context : HpkeBaseContext) (receiverKey : ecc_key)
    (pubKey : option bytes) (pubKeySz : Z) (info : option bytes) (infoSz : Z) : M (Z * ecc_key * HpkeBaseContext) :=
  match pubKey with
  | None => mret (BAD_FUNC_ARG, receiverKey, context)
  | Some pubKey =>
    if bool_decide (info = None) && negb (infoSz =? 0) then mret (BAD_FUNC_ARG, receiverKey, context)
    else wc_HpkeSetupBaseReceiver hpke context receiverKey pubKey pubKeySz info infoSz
  end.

(** hpke.c:1435-1449, [wc_HpkeContextOpenBase]: with the cipher object. *)
Definition open_body (hpke : Hpke) (context : HpkeBaseContext) (aad : option bytes) (aadSz : Z)
    (ciphertext : bytes) (ctSz : Z) (out : bytes) : M (Z * HpkeBaseContext * bytes) :=
  '(ret, nonce) ← wc_HpkeContextComputeNonce hpke context (zeros 12);
  let '(ret, aes) := if ret =? 0 then wc_AesInit INVALID_DEVID else (ret, aes_zero) in
  if ret =? 0 then
    let '(ret, aes) := wc_AesGcmSetKey aes (Some (take (Z.to_nat (hp_Nk hpke)) (hc_key context))) (hp_Nk hpke) in
    '(ret, o) ←
      (if ret =? 0 then
         c ← rd ciphertext 0 ctSz;
         t ← rd ciphertext ctSz (len ciphertext - ctSz);
         '(ret, _, o) ← wc_AesGcmDecrypt aes (Some out) (Some c) ctSz (Some nonce) (hp_Nn hpke) (Some t) (hp_Nt hpke)
                          aad aadSz;
         mret (ret, default out o)
       else mret (ret, out));
    let _ := wc_AesFree aes in
    mret (ret, if ret =? 0 then set_seq (s32 (hc_seq context + 1)) context else context, o)
  else mret (ret, context, out).

(** hpke.c:1416-1452, [wc_HpkeContextOpenBase] *)
Definition wc_HpkeContextOpenBase (hpke : Hpke) (context : HpkeBaseContext) (aad : option bytes) (aadSz : Z)
    (ciphertext : option bytes) (ctSz : Z) (out : option bytes) : M (Z * HpkeBaseContext * option bytes) :=
  match ciphertext, out with
  | Some ciphertext, Some o =>
    if bool_decide (aad = None) && negb (aadSz =? 0) then mret (BAD_FUNC_ARG, context, out)
    else if hc_seq context =? 0x7fffffff then mret (SEQ_OVERFLOW_E, context, out)
    else
      p ← wolfSSL_Malloc;
      if negb p then mret (MEMORY_E, context, out)
      else
        '(ret, context, o) ← open_body hpke context aad aadSz ciphertext ctSz o;
        _ ← wolfSSL_Free;
        mret (ret, context, Some o)
  | _, _ => mret (BAD_FUNC_ARG, context, out)
  end.

(** hpke.c:1456-1500, [wc_HpkeOpenBase] *)
Definition wc_HpkeOpenBase (hpke : Hpke) (receiverKey : ecc_key) (pubKey : option bytes) (pubKeySz : Z)
    (info : option bytes) (infoSz : Z) (aad : option bytes) (aadSz : Z) (ciphertext : option bytes) (ctSz : Z)
    (plaintext : option bytes) : M (Z * ecc_key * option bytes) :=
  match pubKey with
  | None => mret (BAD_FUNC_ARG, receiverKey, plaintext)
  | Some pub =>
    if (pubKeySz =? 0) || (bool_decide (info = None) && negb (infoSz =? 0)) ||
       (bool_decide (aad = None) && negb (aadSz =? 0)) || bool_decide (plaintext = None) ||
       bool_decide (ciphertext = None) then mret (BAD_FUNC_ARG, receiverKey, plaintext)
    else
      p ← wolfSSL_Malloc;
      if negb p then mret (MEMORY_E, receiverKey, plaintext)
      else
        '(ret, receiverKey, context) ← wc_HpkeSetupBaseReceiver hpke context_zero receiverKey pub pubKeySz info infoSz;
        '(ret, context, plaintext) ←
          (if ret =? 0 then wc_HpkeContextOpenBase hpke context aad aadSz ciphertext ctSz plaintext
           else mret (ret, context, plaintext));
        let _ := context_zero in
        _ ← wolfSSL_Free;
        mret (ret, receiverKey, plaintext)
  end.

End Code.
