(* ===== verification/Rfc9180.v ===== *)
(** * Rfc9180: hpke.c is the base mode of RFC 9180

    The functions of the standard for the suite DHKEM(P-256, HKDF-SHA256),
    HKDF-SHA256 and AES-GCM, followed by one lemma per function of hpke.c, up to
    the single-shot sealing and opening.  The Diffie-Hellman value is left open:
    the lemmas take what the key agreement answers as a hypothesis, which
    HpkeCore discharges for the bridge of the application. *)

From stdpp Require Import strings.
From S2P Require Import Prelude Platform Types Misc CryptoCb Sha256 Hmac Aes Gcm Drbg Rng SpInt Ecc Hpke.

(** ** The standard *)

Module Rfc9180.

(** Section 3: I2OSP(n, w). *)
Definition I2OSP (n : Z) (w : nat) : bytes := be_split w n.

(** Section 4.1: the suite identifier of DHKEM(P-256, HKDF-SHA256). *)
Definition kem_suite_id : bytes := str "KEM" ++ I2OSP 0x0010 2.

(** Section 5.1: the suite identifier, for an AEAD. *)
Definition hpke_suite_id (aead : Z) : bytes := str "HPKE" ++ I2OSP 0x0010 2 ++ I2OSP 0x0001 2 ++ I2OSP aead 2.

(** Section 4. *)
Definition LabeledExtract (suite_id salt label ikm : bytes) : bytes :=
  Rfc.HKDF_Extract (Some salt) (str "HPKE-v1" ++ suite_id ++ label ++ ikm).

Definition LabeledExpand (suite_id prk label info : bytes) (L : Z) : bytes :=
  Rfc.HKDF_Expand prk (I2OSP L 2 ++ str "HPKE-v1" ++ suite_id ++ label ++ info) L.

(** Section 4.1: DHKEM. *)
Definition ExtractAndExpand (dh kem_context : bytes) : bytes :=
  LabeledExpand kem_suite_id (LabeledExtract kem_suite_id [] (str "eae_prk") dh) (str "shared_secret") kem_context 32.

(** The shared secret from DH(skE, pkR), enc and pkR. *)
Definition shared_secret (dh enc pkRm : bytes) : bytes := ExtractAndExpand dh (enc ++ pkRm).

(** Section 5.1: the key schedule in base mode, without a pre-shared key. *)
Record context := { key : bytes; base_nonce : bytes; exporter_secret : bytes }.

Definition KeySchedule (aead Nk : Z) (shared info : bytes) : context :=
  let suite := hpke_suite_id aead in
  let psk_id_hash := LabeledExtract suite [] (str "psk_id_hash") [] in
  let info_hash := LabeledExtract suite [] (str "info_hash") info in
  let ksc := [0] ++ psk_id_hash ++ info_hash in
  let secret := LabeledExtract suite shared (str "secret") [] in
  {| key := LabeledExpand suite secret (str "key") ksc Nk;
     base_nonce := LabeledExpand suite secret (str "base_nonce") ksc 12;
     exporter_secret := LabeledExpand suite secret (str "exp") ksc 32 |}.

(** Section 5.2. *)
Definition ComputeNonce (c : context) (seq : Z) : bytes := xorb_list (base_nonce c) (I2OSP seq 12).

Definition Seal (c : context) (seq : Z) (aad pt : bytes) : bytes :=
  let (ct, tag) := Sp800_38D.GCM_AE (Fips197.AES (key c)) (ComputeNonce c seq) pt aad 16 in ct ++ tag.

Definition Open (c : context) (seq : Z) (aad ct tag : bytes) : option bytes :=
  Sp800_38D.GCM_AD (Fips197.AES (key c)) (ComputeNonce c seq) ct aad tag.

#[global] Arguments LabeledExtract : simpl never.
#[global] Arguments LabeledExpand : simpl never.
#[global] Arguments ExtractAndExpand : simpl never.
#[global] Arguments KeySchedule : simpl never.
End Rfc9180.

#[local] Opaque Fips180.sha256.

(** ** Encodings *)

Lemma HMAC_empty m : Rfc.HMAC [] m = Rfc.HMAC (zeros 32) m.
Proof. unfold Rfc.HMAC. reflexivity. Qed.

Lemma str_ok s : bytes_ok (str s).
Proof.
  apply Forall_fmap, Forall_forall. intros c _. pose proof (Ascii.nat_ascii_bounded c). unfold compose. lia.
Qed.

Section Specs.
Context `{!Callbacks} (e : env) {x : mode} `{!MayCall x}.

Lemma I2OSP_loop_spec k n i rest : 0 <= n -> 0 <= i ->
  calc e 0 (I2OSP_loop k n (Z.of_nat k + i) i (zeros (Z.of_nat k) ++ rest)) (fun o => o = be_split k n ++ rest).
Proof.
  revert n i rest. induction k as [|k IH]; intros n i rest Hn Hi; cbn [I2OSP_loop]; [by calc_step|].
  rewrite (proj2 (Z.ltb_lt i _)) by lia. destruct (Z.ltb_spec 0 n) as [Hp|Hp]; cbn [andb].
  - calc_step; [lia|rewrite len_app, len_zeros by lia; change (len [w8 n]) with 1; pose proof (len_nonneg rest); lia|].
    replace (splice _ _ _) with (zeros (Z.of_nat k) ++ [w8 n] ++ rest).
    2:{ replace (zeros (Z.of_nat (S k))) with (zeros (Z.of_nat k) ++ zeros 1) by (rewrite zeros_app by lia; f_equal; lia).
        rewrite <-app_assoc. symmetry. apply splice_app; [rewrite len_zeros; lia|done]. }
    replace (Z.of_nat (S k) + i) with (Z.of_nat k + (i + 1)) by lia.
    eapply calc_mono; [apply IH; [by apply Z.shiftr_nonneg|lia]|]. intros o ->. by rewrite be_split_S, <-app_assoc.
  - calc_step. by replace n with 0 by lia; rewrite be_split_0.
Qed.

Lemma I2OSP_spec n w out : 0 < w <= 32 -> 0 <= n < 2 ^ 31 -> (w < 4 -> n < 2 ^ (8 * w)) -> w <= len out ->
  calc e 0 (I2OSP n w out) (fun r => r = (0, splice out 0 (be_split (Z.to_nat w) n))).
Proof.
  intros Hw Hn Hs Hl. unfold I2OSP.
  rewrite (proj2 (Z.leb_gt w 0)), (proj2 (Z.ltb_ge 32 w)), (proj2 (Z.ltb_ge n 0)) by lia. cbn [orb].
  assert ((w <? 4) && (Z.shiftl 1 (w * 8) - 1 <? n) = false) as ->.
  { destruct (Z.ltb_spec w 4); [|done]. rewrite Z.shiftl_1_l. replace (w * 8) with (8 * w) by lia.
    specialize (Hs ltac:(lia)). cbn [andb]. apply Z.ltb_ge. lia. }
  calc_step; [lia|rewrite len_zeros; lia|]. unfold splice at 1. change (take (Z.to_nat 0) out) with (@nil Z). cbn [app].
  eapply calc_bind.
  { pose proof (I2OSP_loop_spec (Z.to_nat w) n 0 (drop (Z.to_nat 0 + length (zeros w)) out) ltac:(lia) ltac:(lia)) as H1.
    rewrite Z2Nat.id, Z.add_0_r in H1 by lia. exact H1. }
  intros o ->. calc_step. f_equal. unfold splice. change (take (Z.to_nat 0) out) with (@nil Z). cbn [app]. f_equal. f_equal. unfold zeros. by rewrite length_replicate, length_be_split.
Qed.

(** What [wc_HpkeInit] sets up. *)
Definition suite (aead Nk : Z) : Hpke :=
  {| hp_Nh := 32; hp_Nk := Nk; hp_Nn := 12; hp_Nt := 16; hp_Ndh := 32; hp_Npk := 65; hp_Nsecret := 32;
     hp_kdfDigest := WC_HASH_TYPE_SHA256; hp_kemDigest := WC_HASH_TYPE_SHA256; hp_curveId := ECC_SECP256R1;
     hp_kem := DHKEM_P256_HKDF_SHA256; hp_kdf := HKDF_SHA256; hp_aead := aead;
     hp_kem_suite_id := Rfc9180.kem_suite_id; hp_hpke_suite_id := Rfc9180.hpke_suite_id aead |}.

(** The two AEADs, with their key lengths. *)
Definition aead_ok (aead Nk : Z) : Prop :=
  (aead = HPKE_AES_128_GCM /\ Nk = 16) \/ (aead = HPKE_AES_256_GCM /\ Nk = 32).

Lemma HpkeInit_spec h aead Nk : aead_ok aead Nk ->
  wc_HpkeInit h DHKEM_P256_HKDF_SHA256 HKDF_SHA256 aead = mret (0, suite aead Nk).
Proof. by intros [[-> ->]|[-> ->]]. Qed.

(** ** Labels *)

Lemma splice_sub_splice (l src : bytes) off : 0 <= off -> off + len src <= len l ->
  splice l off (splice (sub l off (len l - off)) 0 src) = splice l off src.
Proof.
  intros Ho Hl. unfold splice, sub, len in *. change (take (Z.to_nat 0) _) with (@nil Z). cbn [app].
  f_equal. rewrite <-app_assoc. f_equal.
  rewrite (take_ge (drop _ _)) by (rewrite length_drop; lia). rewrite drop_drop. change (Z.to_nat 0) with 0%nat. rewrite Nat.add_0_l.
  rewrite (drop_ge l (_ + length (_ ++ _))), app_nil_r; [done|].
  rewrite length_app, length_drop. lia.
Qed.


Lemma wr_next {B} {y} b (a c : bytes) d (k : bytes -> M B) Q :
  len a + len c <= len b -> calc_in y e d (k (splice b 0 (a ++ c))) Q ->
  calc_in y e d (wr (splice b 0 a) (len a) c ≫= k) Q.
Proof.
  intros Hl Hk. pose proof (len_nonneg a). pose proof (len_nonneg c).
  calc_step; [lia|rewrite len_splice; lia|]. by rewrite splice_splice_app.
Qed.

(** The longest input a labelled extraction takes. *)
Definition extract_room (suite_id label : bytes) : Z := 512 - 7 - len suite_id - len label.

Lemma LabeledExtract_spec suite_id salt label ikm ikm_len out :
  bytes_ok suite_id -> bytes_ok label -> bytes_ok (default [] ikm) -> ikm_len = len (default [] ikm) ->
  bytes_ok (default [] salt) -> len (default [] salt) < 2 ^ 32 -> ikm_len <= extract_room suite_id label -> 32 <= len out ->
  calc e 0 (wc_HpkeLabeledExtract suite_id WC_HASH_TYPE_SHA256 salt (len (default [] salt)) label ikm ikm_len out)
    (fun r => (r.1 = 0 /\ r.2 = splice out 0 (Rfc9180.LabeledExtract suite_id (default [] salt) label (default [] ikm))) \/
              (r.1 = MEMORY_E /\ r.2 = out /\ oom e)).
Proof.
  intros Hs Hl Hi -> Hsa Hsl Hroom Hout. unfold extract_room in Hroom. set (I := default [] ikm) in *.
  pose proof (len_nonneg suite_id). pose proof (len_nonneg label). pose proof (len_nonneg I).
  unfold wc_HpkeLabeledExtract. change MAX_HPKE_LABEL_SZ with 512. change (len HPKE_VERSION_STR) with 7. cbv zeta.
  change (512 <? 7) with false. change (512 - 7) with 505. rewrite (proj2 (Z.ltb_ge 505 (len suite_id))) by lia.
  rewrite (proj2 (Z.ltb_ge (505 - len suite_id) (len label))) by lia.
  rewrite (proj2 (Z.ltb_ge (505 - len suite_id - len label) (len I))) by lia. cbv iota.
  calc_step; cbn [negb]; [|calc_step; right; done].
  set (V := HPKE_VERSION_STR). assert (len V = 7) as LV by done.
  calc_step; [lia|by rewrite LV, len_zeros|]. rewrite <-LV.
  apply wr_next; [rewrite LV, len_zeros; lia|].
  rewrite <-len_app. apply wr_next; [rewrite len_app, LV, len_zeros; lia|].
  rewrite <-len_app, <-!app_assoc.
  eapply (calc_bind _ _ _ _ (fun bp => bp.2 = len (V ++ suite_id ++ label ++ I) /\
            take (Z.to_nat bp.2) bp.1 = V ++ suite_id ++ label ++ I)).
  { destruct (Z.eqb_spec (len I) 0) as [E0|E0]; cbn [negb].
    - calc_step. apply len_0_nil in E0. rewrite E0, app_nil_r. split; [done|].
      apply take_spliced. rewrite !len_app, LV, len_zeros; lia.
    - calc_step; [lia|lia|fold I; lia|]. fold I. rewrite sub_all by done. apply wr_next; [rewrite !len_app, LV, len_zeros; lia|].
      calc_step. cbn [fst snd]. rewrite <-len_app, <-!app_assoc. split; [done|].
      apply take_spliced. rewrite !len_app, LV, len_zeros; lia. }
  intros [b p] [Hp Hb]. cbn [fst snd] in Hp, Hb. rewrite Hb, Hp.
  eapply calc_bind; [apply (wc_HKDF_Extract_spec e salt (Some (V ++ suite_id ++ label ++ I)) out); try done|].
  - cbn [default from_option id]. rewrite !bytes_ok_app. repeat split; try done. apply str_ok.
  - cbn [default from_option id]. rewrite !len_app, LV. lia.
  - intros [ret o] Hr. cbn [fst snd default from_option id] in Hr. do 2 calc_step. cbn [fst snd].
    assert (Rfc.HKDF_Extract salt (V ++ suite_id ++ label ++ I) = Rfc9180.LabeledExtract suite_id (default [] salt) label I) as <-.
    { unfold Rfc9180.LabeledExtract, Rfc.HKDF_Extract. destruct salt; [done|]. cbn. by rewrite HMAC_empty. }
    tauto.
Qed.

(** A longer input does not fit the buffer: it is refused, whatever else. *)
Lemma LabeledExtract_long suite_id digest salt salt_len label ikm ikm_len out :
  extract_room suite_id label < ikm_len ->
  wc_HpkeLabeledExtract suite_id digest salt salt_len label ikm ikm_len out = mret (BUFFER_E, out).
Proof.
  intros Hroom. unfold extract_room in Hroom. unfold wc_HpkeLabeledExtract.
  change MAX_HPKE_LABEL_SZ with 512. change (len HPKE_VERSION_STR) with 7. cbv zeta. change (512 <? 7) with false. change (512 - 7) with 505.
  cbv iota. destruct (Z.ltb_spec 505 (len suite_id)); [done|]. destruct (Z.ltb_spec (505 - len suite_id) (len label)); [done|].
  by rewrite (proj2 (Z.ltb_lt (505 - len suite_id - len label) ikm_len)) by lia.
Qed.

Lemma LabeledExpand_spec suite_id prk label info infoSz L out :
  bytes_ok suite_id -> bytes_ok label -> bytes_ok prk -> len prk < 2 ^ 32 -> bytes_ok info -> infoSz = len info ->
  2 + 7 + len suite_id + len label + len info <= 512 -> 0 <= L <= 255 * 32 -> L <= len out ->
  calc e 0 (wc_HpkeLabeledExpand suite_id WC_HASH_TYPE_SHA256 prk (len prk) label info infoSz L out)
    (fun r => (r.1 = 0 /\ r.2 = splice out 0 (Rfc9180.LabeledExpand suite_id prk label info L)) \/
              (r.1 = MEMORY_E /\ len r.2 = len out /\ oom e)).
Proof.
  intros Hs Hl Hp Hpl Hi -> Hroom HL Hout.
  pose proof (len_nonneg suite_id). pose proof (len_nonneg label). pose proof (len_nonneg info).
  unfold wc_HpkeLabeledExpand. change MAX_HPKE_LABEL_SZ with 512. change (len HPKE_VERSION_STR) with 7. cbv zeta.
  change (512 <? 2 + 7) with false. change (512 - (2 + 7)) with 503. rewrite (proj2 (Z.ltb_ge 503 (len suite_id))) by lia.
  rewrite (proj2 (Z.ltb_ge (503 - len suite_id) (len label))) by lia.
  rewrite (proj2 (Z.ltb_ge (503 - len suite_id - len label) (len info))) by lia. cbv iota.
  calc_step; cbn [negb]; [|calc_step; right; done].
  assert (s32 L = L) as -> by (apply s32_id; lia).
  eapply calc_bind; [apply (I2OSP_spec L 2 (zeros 512)); [lia|lia|intros; lia|done]|]. intros r ->.
  change (0 =? 0) with true. cbv iota. change (Z.to_nat 2) with 2%nat.
  set (P := be_split 2 L). set (V := HPKE_VERSION_STR). assert (len P = 2) as LP by apply len_be_split. assert (len V = 7) as LV by done.
  eapply (calc_bind _ _ _ _ (fun r => (r.1 = 0 /\ r.2 = splice out 0 (Rfc9180.LabeledExpand suite_id prk label info L)) \/
              (r.1 = MEMORY_E /\ len r.2 = len out /\ oom e))); [|intros [r o] Hr; by do 2 calc_step].
  rewrite <-LV. rewrite <-LP at 1. apply wr_next; [rewrite LV, LP, len_zeros; lia|].
  rewrite <-LP at 1. rewrite <-len_app. apply wr_next; [rewrite len_app, LV, LP, len_zeros; lia|].
  rewrite <-LP at 1. rewrite <-!len_app. apply wr_next; [rewrite !len_app, LV, LP, len_zeros; lia|].
  calc_step; [lia|lia|lia|]. rewrite sub_all by done.
  replace (2 + len V + len suite_id + len label) with (len (((P ++ V) ++ suite_id) ++ label)) by (rewrite !len_app; lia).
  apply wr_next; [rewrite !len_app, LV, LP, len_zeros; lia|]. rewrite <-len_app, <-!app_assoc.
  set (I := P ++ V ++ suite_id ++ label ++ info). assert (len I <= 512) by (unfold I; rewrite !len_app; lia).
  rewrite take_spliced by done. apply (wc_HKDF_Expand_spec e prk (Some I) out L); try done; cbn [default from_option id].
  - unfold I. rewrite !bytes_ok_app. repeat split; try done; [apply be_split_ok|apply str_ok].
  - lia.
Qed.

Lemma Ts_ok prk info n : bytes_ok (Rfc.Ts prk info n).
Proof. induction n as [|n IH]; [constructor|]. cbn [Rfc.Ts]. apply bytes_ok_app. split; [done|]. apply HMAC_bytes_ok. Qed.

Lemma len_LabeledExpand s prk label info L : 0 <= L -> len (Rfc9180.LabeledExpand s prk label info L) = L.
Proof. apply len_HKDF_Expand. Qed.

Lemma LabeledExpand_ok s prk label info L : bytes_ok (Rfc9180.LabeledExpand s prk label info L).
Proof. apply bytes_ok_take, Ts_ok. Qed.

Lemma len_LabeledExtract s salt label ikm : len (Rfc9180.LabeledExtract s salt label ikm) = 32.
Proof. apply len_HMAC. Qed.

Lemma LabeledExtract_ok s salt label ikm : bytes_ok (Rfc9180.LabeledExtract s salt label ikm).
Proof. apply HMAC_bytes_ok. Qed.

Lemma suite_ids_ok aead : bytes_ok Rfc9180.kem_suite_id /\ bytes_ok (Rfc9180.hpke_suite_id aead).
Proof. split; unfold Rfc9180.kem_suite_id, Rfc9180.hpke_suite_id; rewrite !bytes_ok_app; repeat split; try apply str_ok; apply be_split_ok. Qed.

Lemma len_hpke_suite_id aead : len (Rfc9180.hpke_suite_id aead) = 10.
Proof. reflexivity. Qed.

(** ** The KEM's derivation and the key schedule *)

Context (aead Nk : Z) (Haead : aead_ok aead Nk).

Lemma len_ExtractAndExpand dh kem_context : len (Rfc9180.ExtractAndExpand dh kem_context) = 32.
Proof. apply len_LabeledExpand. lia. Qed.

Lemma ExtractAndExpand_spec dh kem_context ss :
  bytes_ok dh -> len dh = 32 -> bytes_ok kem_context -> len kem_context = 130 -> len ss = 32 ->
  calc e 0 (wc_HpkeExtractAndExpand (suite aead Nk) dh 32 kem_context 130 ss)
    (fun r => (r.1 = 0 /\ r.2 = Rfc9180.ExtractAndExpand dh kem_context) \/ (r.1 = MEMORY_E /\ len r.2 = 32 /\ oom e)).
Proof.
  intros Hdh Ld Hk Lk Ls. unfold wc_HpkeExtractAndExpand. calc_step; cbn [negb]; [|calc_step; right; done].
  cbn [suite hp_kem_suite_id hp_kemDigest hp_Nsecret].
  eapply calc_bind; [apply (LabeledExtract_spec Rfc9180.kem_suite_id None EAE_PRK_LABEL_STR (Some dh) 32 (zeros 32)); try done|].
  { apply (suite_ids_ok 0). } { apply str_ok. } { constructor. }
  cbn [default from_option id]. intros [ret prk] [(Hr & Hp)|(Hr & Hp & Ho)]; cbn [fst snd] in *; subst ret; eval_tests.
  2:{ calc_step. calc_step. calc_step. by right. }
  pose proof (len_LabeledExtract Rfc9180.kem_suite_id [] EAE_PRK_LABEL_STR dh) as Lp.
  rewrite splice_full in Hp by (unfold len in Lp; change (length (zeros 32)) with 32%nat; lia).
  rewrite <-Hp in Lp. rewrite <-Lp at 1.
  assert (bytes_ok prk) as Op by (rewrite Hp; apply LabeledExtract_ok).
  eapply calc_bind; [apply (LabeledExpand_spec Rfc9180.kem_suite_id prk SHARED_SECRET_LABEL_STR kem_context 130 32 ss); try done|].
  { apply (suite_ids_ok 0). } { apply str_ok. } { lia. }
  { change (len Rfc9180.kem_suite_id) with 5. change (len SHARED_SECRET_LABEL_STR) with 13. lia. } { lia. }
  intros [ret o] [(Hr & Hs)|(Hr & Lo & Ho)]; cbn [fst snd] in *; subst ret; do 2 calc_step.
  - left. split; [done|]. cbn [fst snd]. rewrite Hs, Hp. pose proof (len_ExtractAndExpand dh kem_context) as Lx.
    apply (splice_full ss (Rfc9180.ExtractAndExpand dh kem_context)). unfold len in *. lia.
  - right. split; [done|]. split; [|done]. cbn [fst snd]. lia.
Qed.

(** An extraction into the schedule's context. *)
Lemma schedule_extract_spec label ikm ksc off :
  bytes_ok label -> bytes_ok (default [] ikm) -> len (default [] ikm) <= extract_room (Rfc9180.hpke_suite_id aead) label ->
  0 <= off -> off + 32 <= len ksc ->
  calc e 0 (schedule_extract (suite aead Nk) label ikm (len (default [] ikm)) ksc off)
    (fun r => (r.1 = 0 /\ r.2 = splice ksc off (Rfc9180.LabeledExtract (Rfc9180.hpke_suite_id aead) [] label (default [] ikm))) \/
              (r.1 = MEMORY_E /\ oom e)).
Proof.
  intros Hl Hi Hroom Ho Hk. unfold schedule_extract. calc_step; [lia|lia|lia|]. cbn [suite hp_hpke_suite_id hp_kdfDigest].
  assert (len (sub ksc off (len ksc - off)) = len ksc - off) as Lsub by (apply len_sub; lia).
  eapply calc_bind; [apply (LabeledExtract_spec (Rfc9180.hpke_suite_id aead) None label ikm); try done|].
  { apply suite_ids_ok. } { constructor. } { lia. }
  cbn [default from_option id]. set (X := Rfc9180.LabeledExtract _ _ _ _).
  assert (len X = 32) as LX by apply len_LabeledExtract.
  intros [ret o] [(Hr & Hs)|(Hr & Hs & Hoom)]; cbn [fst snd] in *; subst ret o.
  - calc_step; [lia|rewrite len_splice; lia|]. calc_step. left. split; [done|]. cbn [fst snd].
    apply splice_sub_splice; lia.
  - calc_step; [lia|lia|]. calc_step. by right.
Qed.

(** A context of hpke.c that holds the context [c] of the standard. *)
Record ctx_rel (c : Rfc9180.context) (seq : Z) (hc : HpkeBaseContext) : Prop := {
  cr_seq : hc_seq hc = seq;
  cr_key : take (Z.to_nat Nk) (hc_key hc) = Rfc9180.key c;
  cr_nonce : hc_base_nonce hc = Rfc9180.base_nonce c;
  cr_exporter : take 32 (hc_exporter_secret hc) = Rfc9180.exporter_secret c;
  cr_len_key : len (Rfc9180.key c) = Nk;
  cr_ok_key : bytes_ok (Rfc9180.key c);
  cr_len_nonce : len (Rfc9180.base_nonce c) = 12;
  cr_ok_nonce : bytes_ok (Rfc9180.base_nonce c) }.

(** The longest [info] the schedule takes. *)
Definition max_info : Z := 486.

Definition schedule_string (info : bytes) : bytes :=
  [0] ++ Rfc9180.LabeledExtract (Rfc9180.hpke_suite_id aead) [] PSK_ID_HASH_LABEL_STR [] ++
  Rfc9180.LabeledExtract (Rfc9180.hpke_suite_id aead) [] INFO_HASH_LABEL_STR info.

Lemma Nk_range : 16 <= Nk <= 32.
Proof. destruct Haead as [[_ ->]|[_ ->]]; lia. Qed.

(** One of the three expansions, with the rest of the schedule. *)
Lemma schedule_expand_spec label secret ksc n out :
  bytes_ok label -> len label <= 10 -> len secret = 32 -> bytes_ok secret -> len ksc = 65 -> bytes_ok ksc ->
  0 <= n <= 32 -> n <= len out ->
  calc e 0 (wc_HpkeLabeledExpand (Rfc9180.hpke_suite_id aead) WC_HASH_TYPE_SHA256 (take (Z.to_nat 32) secret) 32 label ksc
              (1 + 2 * 32) n out)
    (fun r => (r.1 = 0 /\ r.2 = splice out 0 (Rfc9180.LabeledExpand (Rfc9180.hpke_suite_id aead) secret label ksc n)) \/
              (r.1 = MEMORY_E /\ oom e)).
Proof.
  intros Hl Ll Ls Os Lk Ok Hn Ho. rewrite take_ge by (unfold len in Ls; lia). rewrite <-Ls.
  eapply calc_mono; [apply LabeledExpand_spec; try done|].
  - apply suite_ids_ok.
  - lia.
  - rewrite Lk, Ls. done.
  - rewrite len_hpke_suite_id. lia.
  - lia.
  - intros r [?|(? & _ & ?)]; auto.
Qed.

(** An [info] that is too long. *)
Lemma schedule_extract_long label ikm ikm_len ksc off : extract_room (Rfc9180.hpke_suite_id aead) label < ikm_len ->
  0 <= off <= len ksc ->
  calc e 0 (schedule_extract (suite aead Nk) label ikm ikm_len ksc off) (fun r => r.1 = BUFFER_E).
Proof.
  intros Hl Ho. unfold schedule_extract. calc_step; [lia|lia|lia|]. cbn [suite hp_hpke_suite_id hp_kdfDigest].
  rewrite LabeledExtract_long by done. calc_step. calc_step; [lia|rewrite len_sub; lia|]. by calc_step.
Qed.

Lemma spliced_key n (k out : bytes) : len k = n -> n <= len out -> take (Z.to_nat n) (splice out 0 k) = k.
Proof. intros <-. apply take_spliced. Qed.

Lemma schedule_context_spec info : bytes_ok (default [] info) ->
  calc e 0 (schedule_context (suite aead Nk) info (len (default [] info)))
    (fun r => (r.1 = 0 /\ len (default [] info) <= max_info /\ r.2 = schedule_string (default [] info)) \/
              (r.1 = MEMORY_E /\ oom e) \/ (r.1 = BUFFER_E /\ max_info < len (default [] info))).
Proof.
  intros Oi. unfold schedule_context, schedule_string. calc_step; [lia|done|].
  eapply calc_bind; [apply (schedule_extract_spec PSK_ID_HASH_LABEL_STR None); try done; [apply str_ok|constructor]|].
  cbn [default from_option suite hp_Nh].
  intros [ret ksc] [[Hr Hk]|[Hr Ho]]; cbn [fst snd] in *; subst ret; [|calc_steps; right; left; done].
  eval_tests. set (X1 := Rfc9180.LabeledExtract _ [] PSK_ID_HASH_LABEL_STR []) in *.
  assert (len X1 = 32) as L1 by apply len_LabeledExtract.
  assert (ksc = splice (zeros 65) 0 ([0] ++ X1)) as ->.
  { rewrite Hk. apply (splice_splice_app (zeros 65) [0] X1). by rewrite L1. }
  clear Hk. assert (len ([0] ++ X1) = 33) as L01 by (by rewrite len_app, L1).
  set (X01 := [0] ++ X1) in *. assert (len (splice (zeros 65) 0 X01) = 65) as Lk by (rewrite len_splice; rewrite ?len_zeros; lia).
  destruct (Z.lt_ge_cases max_info (len (default [] info))) as [Hlong|Hshort]; unfold max_info in *.
  { eapply calc_mono; [apply schedule_extract_long; [done|lia]|]. intros r Hr. auto. }
  eapply calc_mono; [apply (schedule_extract_spec INFO_HASH_LABEL_STR info); [apply str_ok|exact Oi|exact Hshort|lia|rewrite Lk; lia]|].
  set (X2 := Rfc9180.LabeledExtract _ [] INFO_HASH_LABEL_STR (default [] info)).
  assert (len X2 = 32) as L2 by apply len_LabeledExtract. clearbody X1 X2. change (1 + 32) with 33. rewrite <-L01.
  intros [ret k2] [[Hr Hk2]|[Hr Ho]]; cbn [fst snd] in *; subst ret; [left|auto].
  split; [done|]. split; [lia|]. rewrite Hk2, splice_splice_app by (rewrite L01, L2; done).
  unfold X01. rewrite <-app_assoc. apply splice_full.
  apply Nat2Z.inj. change (len (zeros 65) = len ([0] ++ X1 ++ X2)). by rewrite !len_app, L1, L2.
Qed.

Lemma len_schedule_string info : len (schedule_string info) = 65 /\ bytes_ok (schedule_string info).
Proof.
  unfold schedule_string. rewrite !len_app, !len_LabeledExtract, !bytes_ok_app. split; [done|].
  repeat split; try apply LabeledExtract_ok. repeat constructor; lia.
Qed.

Lemma schedule_keys_spec hc sec info :
  len sec = 32 -> bytes_ok sec -> len (hc_key hc) = 32 -> len (hc_base_nonce hc) = 12 -> len (hc_exporter_secret hc) = 64 ->
  let ex label n := Rfc9180.LabeledExpand (Rfc9180.hpke_suite_id aead) sec label (schedule_string info) n in
  calc e 0 (schedule_keys (suite aead Nk) hc sec (schedule_string info))
    (fun r => (r.1 = 0 /\ ctx_rel {| Rfc9180.key := ex KEY_LABEL_STR Nk; Rfc9180.base_nonce := ex BASE_NONCE_LABEL_STR 12;
                                    Rfc9180.exporter_secret := ex EXP_LABEL_STR 32 |} (hc_seq hc) r.2) \/
              (r.1 = MEMORY_E /\ oom e)).
Proof.
  intros Ls Os Lk Ln Le ex. destruct (len_schedule_string info) as [L O]. set (ksc := schedule_string info) in *. clearbody ksc.
  unfold schedule_keys. cbn [suite hp_hpke_suite_id hp_kdfDigest hp_Nh hp_Nk hp_Nn]. cbv zeta. pose proof Nk_range as HNk.
  eapply calc_bind; [apply (schedule_expand_spec KEY_LABEL_STR sec ksc Nk); try done; [apply str_ok|lia|lia]|].
  intros [ret key] [[Hr Hkey]|[Hr Ho]]; cbn [fst snd] in *; subst ret; [|calc_steps; right; done].
  change (0 =? 0) with true. cbv iota.
  eapply calc_bind; [apply (schedule_expand_spec BASE_NONCE_LABEL_STR sec ksc 12); try done; [apply str_ok|lia]|].
  intros [ret nonce] [[Hr Hnonce]|[Hr Ho]]; cbn [fst snd] in *; subst ret; [|calc_steps; right; done].
  change (0 =? 0) with true. cbv iota.
  eapply calc_bind; [apply (schedule_expand_spec EXP_LABEL_STR sec ksc 32); try done; [apply str_ok|lia]|].
  intros [ret exporter] [[Hr Hexp]|[Hr Ho]]; cbn [fst snd] in *; subst ret; calc_step; [left|by right].
  split; [done|]. subst key nonce exporter. fold (ex KEY_LABEL_STR Nk) (ex BASE_NONCE_LABEL_STR 12) (ex EXP_LABEL_STR 32).
  assert (forall l n, 0 <= n -> len (ex l n) = n) as Lex by (intros; by apply len_LabeledExpand).
  assert (forall l n, bytes_ok (ex l n)) as Oex by (intros; apply LabeledExpand_ok).
  split; cbn [snd hc_seq hc_key hc_base_nonce hc_exporter_secret Rfc9180.key Rfc9180.base_nonce Rfc9180.exporter_secret]; auto; try (apply Lex; lia).
  - apply spliced_key; [apply Lex|]; lia.
  - apply splice_full. apply Nat2Z.inj. fold (len (hc_base_nonce hc)). fold (len (ex BASE_NONCE_LABEL_STR 12)). rewrite Lex; lia.
  - apply (spliced_key 32); [apply Lex; lia|lia].
Qed.

Lemma KeySchedule_spec ss info : len ss = 32 -> bytes_ok ss -> bytes_ok (default [] info) ->
  calc e 0 (wc_HpkeKeyScheduleBase (suite aead Nk) context_zero ss info (len (default [] info)))
    (fun r => (r.1 = 0 /\ len (default [] info) <= max_info /\
               ctx_rel (Rfc9180.KeySchedule aead Nk ss (default [] info)) 0 r.2) \/
              (r.1 = MEMORY_E /\ oom e) \/ (r.1 = BUFFER_E /\ max_info < len (default [] info))).
Proof.
  intros Ls Os Oi. unfold wc_HpkeKeyScheduleBase. calc_step; (calc_step; [|]); cbn [negb orb].
  2-4: calc_steps; right; left; done.
  cbn [suite hp_hpke_suite_id hp_kdfDigest hp_Nsecret]. cbv zeta. fold (suite aead Nk).
  eapply calc_bind; [by apply schedule_context_spec|].
  intros [ret ksc] [(Hr & Hmax & Hk)|[[Hr Ho]|[Hr Ho]]]; cbn [fst snd] in *; subst ret;
    [|calc_steps; right; left; done|calc_steps; right; right; done].
  subst ksc. change (0 =? 0) with true. cbv iota. rewrite take_ge by (unfold len in Ls; lia).
  eapply calc_bind.
  { replace 32 with (len (default [] (Some ss))) at 1 by done.
    apply (LabeledExtract_spec _ (Some ss) SECRET_LABEL_STR None 0 (zeros 32)); try done; [apply suite_ids_ok|apply str_ok|constructor|].
    cbn [default from_option id]. lia. }
  cbn [default from_option id]. set (X3 := Rfc9180.LabeledExtract _ ss SECRET_LABEL_STR []).
  assert (len X3 = 32) as L3 by apply len_LabeledExtract.
  intros [ret sec] [[Hr Hsec]|(Hr & _ & Ho)]; cbn [fst snd] in *; subst ret; [|calc_steps; right; left; done].
  rewrite splice_full in Hsec by (unfold len in L3; change (length (zeros 32)) with 32%nat; lia). subst sec.
  change (0 =? 0) with true. cbv iota.
  eapply calc_bind; [by apply (schedule_keys_spec _ X3 (default [] info)); try done; apply LabeledExtract_ok|].
  intros [ret hc] [[Hr Hc]|[Hr Ho]]; cbn [fst snd] in *; subst ret; do 3 calc_step; [left|right; left; done].
  split; [done|]. split; [done|exact Hc].
Qed.

(** ** Sealing and opening with a context *)

Lemma ComputeNonce_spec c seq hc : ctx_rel c seq hc -> 0 <= seq < 2 ^ 31 ->
  calc e 0 (wc_HpkeContextComputeNonce (suite aead Nk) hc (zeros 12)) (fun r => r = (0, Rfc9180.ComputeNonce c seq)).
Proof.
  intros Hc Hs. unfold wc_HpkeContextComputeNonce. cbn [suite hp_Nn]. rewrite (cr_seq _ _ _ Hc).
  eapply calc_bind; [apply (I2OSP_spec seq 12 (zeros 12)); [lia|lia|lia|done]|]. intros r ->. change (0 =? 0) with true. cbv iota.
  rewrite splice_full by (by rewrite length_be_split). pose proof (cr_len_nonce _ _ _ Hc) as Ln. rewrite (cr_nonce _ _ _ Hc).
  assert (xorbufout (Rfc9180.base_nonce c) (be_split (Z.to_nat 12) seq) 12 = Rfc9180.ComputeNonce c seq) as ->.
  { unfold xorbufout, Rfc9180.ComputeNonce, Rfc9180.I2OSP. rewrite !take_ge; [done|rewrite length_be_split; lia|unfold len in Ln; lia]. }
  assert (length (Rfc9180.ComputeNonce c seq) = 12%nat) as Lx.
  { apply Nat2Z.inj. change (len (Rfc9180.ComputeNonce c seq) = 12). unfold Rfc9180.ComputeNonce. rewrite len_xorb; [done|].
    rewrite Ln. unfold Rfc9180.I2OSP. by rewrite len_be_split. }
  calc_step; [lia|unfold len; rewrite Lx; done|]. calc_step. by rewrite splice_full.
Qed.

Lemma len_ComputeNonce c seq hc : ctx_rel c seq hc ->
  len (Rfc9180.ComputeNonce c seq) = 12 /\ bytes_ok (Rfc9180.ComputeNonce c seq).
Proof.
  intros Hc. pose proof (cr_len_nonce _ _ _ Hc). split.
  - unfold Rfc9180.ComputeNonce. rewrite len_xorb; [done|]. unfold Rfc9180.I2OSP. rewrite len_be_split. lia.
  - apply bytes_ok_xorb; [apply (cr_ok_nonce _ _ _ Hc)|apply be_split_ok].
Qed.

(** The cipher object for the context's key. *)
Lemma context_key c seq hc : ctx_rel c seq hc -> exists aes,
  wc_AesGcmSetKey (wc_AesInit INVALID_DEVID).2 (Some (take (Z.to_nat Nk) (hc_key hc))) Nk = (0, aes) /\
  gcm_keyed (Rfc9180.key c) aes /\ aes_devId aes = INVALID_DEVID.
Proof.
  intros Hc. rewrite (cr_key _ _ _ Hc).
  pose proof (wc_AesGcmSetKey_spec (wc_AesInit INVALID_DEVID).2 (Rfc9180.key c)) as Hk. rewrite (cr_len_key _ _ _ Hc) in Hk.
  apply Hk; [|apply (cr_ok_key _ _ _ Hc)|done]. unfold key_size. destruct Haead as [[_ ->]|[_ ->]]; auto.
Qed.

Lemma splice_two (out c t : bytes) : len c + len t <= len out ->
  splice (splice out 0 c) (len c) (splice (sub out (len c) (len out - len c)) 0 t) = splice out 0 (c ++ t).
Proof.
  intros Hl. pose proof (len_nonneg c). pose proof (len_nonneg t).
  assert (sub out (len c) (len out - len c) = sub (splice out 0 c) (len c) (len (splice out 0 c) - len c)) as ->.
  { rewrite len_splice by lia. unfold sub. f_equal. unfold splice, len. rewrite Nat2Z.id. change (take (Z.to_nat 0) out) with (@nil Z).
    cbn [app Nat.add]. change (Z.to_nat 0) with 0%nat. by rewrite drop_app_length. }
  rewrite splice_sub_splice by (rewrite ?len_splice; lia). apply splice_splice_app. lia.
Qed.

(** What a caller passes as additional data. *)
Definition aad_ok (aad : option bytes) : Prop := bytes_ok (default [] aad) /\ len (default [] aad) < 2 ^ 32.

Lemma aad_input aad : aad_ok aad -> input_ok aad (len (default [] aad)) /\ input aad (len (default [] aad)) = default [] aad.
Proof.
  intros [Ho Hl]. pose proof (len_nonneg (default [] aad)). unfold input_ok, input. split; [|by rewrite take_len].
  destruct aad; [|done]. cbn in *. repeat split; try done; lia.
Qed.

Lemma aad_guard (aad : option bytes) : bool_decide (aad = None) && negb (len (default [] aad) =? 0) = false.
Proof. destruct aad; [by rewrite bool_decide_false|]. by rewrite bool_decide_true. Qed.

Lemma seal_body_spec c seq hc aad pt out : ctx_rel c seq hc -> 0 <= seq < 2 ^ 31 - 1 -> aad_ok aad ->
  bytes_ok pt -> len pt < 2 ^ 32 -> bytes_ok out -> len pt + 16 <= len out ->
  calc e 0 (seal_body (suite aead Nk) hc (wc_AesInit INVALID_DEVID).2 aad (len (default [] aad)) pt (len pt) out)
    (fun r => r = (0, set_seq (seq + 1) hc, splice out 0 (Rfc9180.Seal c seq (default [] aad) pt))).
Proof.
  intros Hc Hs Ha Hp Lp Ho Lo. pose proof (len_nonneg pt). unfold seal_body. cbn [suite hp_Nk hp_Nn hp_Nt].
  eapply calc_bind; [apply (ComputeNonce_spec _ _ _ Hc); lia|]. intros r ->. change (0 =? 0) with true. cbv iota.
  destruct (context_key _ _ _ Hc) as (aes & -> & Hkey & Hdev). change (0 =? 0) with true. cbv iota.
  calc_step; [lia|lia|lia|]. calc_step; [lia|lia|lia|].
  destruct (len_ComputeNonce _ _ _ Hc) as [Ln On]. destruct (aad_input _ Ha) as [Hin Ein].
  assert (len (sub out 0 (len pt)) = len pt) as L1 by (apply len_sub; lia).
  assert (len (sub out (len pt) (len out - len pt)) = len out - len pt) as L2 by (apply len_sub; lia).
  pose proof (wc_AesGcmEncrypt_spec e (Rfc9180.key c) aes pt (sub out 0 (len pt)) (Rfc9180.ComputeNonce c seq)
    (sub out (len pt) (len out - len pt)) aad (len pt) 12 16 (len (default [] aad)) Hkey Hdev Hp) as Henc.
  rewrite Ein, !take_len in Henc by lia.
  pose proof (GCM_AD_AE aes (Rfc9180.key c) (Rfc9180.ComputeNonce c seq) pt (default [] aad) 16 (proj1 Hkey) On ltac:(lia)) as Hg.
  unfold Rfc9180.Seal. destruct (Sp800_38D.GCM_AE _ _ _ _ _) as [ct tg]. destruct Hg as (Lc & Lt & _).
  eapply calc_bind; [apply Henc; try done; try lia; by apply bytes_ok_sub|]. intros r ->. cbn [default from_option id].
  rewrite (splice_full (sub out 0 (len pt))) by (unfold len in *; lia).
  calc_step; [lia|lia|]. rewrite <-Lc. rewrite <-Lc in L2.
  calc_step; [lia|rewrite !len_splice; rewrite ?L2; lia|]. calc_step. rewrite splice_two by lia.
  change (0 =? 0) with true. cbv iota. by rewrite (cr_seq _ _ _ Hc), s32_id by lia.
Qed.

Lemma ContextSeal_spec c seq hc aad pt out : ctx_rel c seq hc -> 0 <= seq < 2 ^ 31 - 1 -> aad_ok aad ->
  bytes_ok pt -> len pt < 2 ^ 32 -> bytes_ok out -> len pt + 16 <= len out ->
  calc e 0 (wc_HpkeContextSealBase (suite aead Nk) hc aad (len (default [] aad)) (Some pt) (len pt) (Some out))
    (fun r => r = (0, set_seq (seq + 1) hc, Some (splice out 0 (Rfc9180.Seal c seq (default [] aad) pt))) \/
              (r = (MEMORY_E, hc, Some out) /\ oom e)).
Proof.
  intros Hc Hs Ha Hp Lp Ho Lo. unfold wc_HpkeContextSealBase. rewrite aad_guard, (cr_seq _ _ _ Hc).
  rewrite (proj2 (Z.eqb_neq seq 0x7fffffff)) by lia. calc_step; cbn [negb]; [|by calc_step; right].
  change (wc_AesInit INVALID_DEVID) with (0, (wc_AesInit INVALID_DEVID).2). cbv beta iota. change (0 =? 0) with true. cbv iota.
  eapply calc_bind; [by apply (seal_body_spec c seq)|]. intros r ->. do 2 calc_step. by left.
Qed.

(** What opening answers: the plaintext, or an authentication error and zeros. *)
Definition open_answer (c : Rfc9180.context) (seq : Z) (hc : HpkeBaseContext) (aad ct tag out : bytes)
    : Z * HpkeBaseContext * bytes :=
  match Rfc9180.Open c seq aad ct tag with
  | Some pt => (0, set_seq (seq + 1) hc, splice out 0 pt)
  | None => (AES_GCM_AUTH_E, hc, splice out 0 (zeros (len ct)))
  end.

Lemma open_body_spec c seq hc aad ct tag out : ctx_rel c seq hc -> 0 <= seq < 2 ^ 31 - 1 -> aad_ok aad ->
  bytes_ok ct -> bytes_ok tag -> len tag = 16 -> len ct < 2 ^ 32 -> bytes_ok out -> len ct <= len out ->
  calc e 0 (open_body (suite aead Nk) hc aad (len (default [] aad)) (ct ++ tag) (len ct) out)
    (fun r => r = open_answer c seq hc (default [] aad) ct tag out).
Proof.
  intros Hc Hs Ha Hp Ht Lt Lp Ho Lo. pose proof (len_nonneg ct). unfold open_body. cbn [suite hp_Nk hp_Nn hp_Nt].
  eapply calc_bind; [apply (ComputeNonce_spec _ _ _ Hc); lia|]. intros r ->. change (0 =? 0) with true. cbv iota.
  change (wc_AesInit INVALID_DEVID) with (0, (wc_AesInit INVALID_DEVID).2). cbv beta iota. change (0 =? 0) with true. cbv iota.
  destruct (context_key _ _ _ Hc) as (aes & -> & Hkey & Hdev). change (0 =? 0) with true. cbv iota.
  pose proof (len_app ct tag) as Lct.
  calc_step. calc_step; [lia|lia|lia|]. calc_step. calc_step; [lia|lia|lia|].
  rewrite sub_app_l by done. rewrite (sub_app_r ct tag (len ct)) by lia.
  destruct (len_ComputeNonce _ _ _ Hc) as [Ln On]. destruct (aad_input _ Ha) as [Hin Ein]. calc_step.
  eapply calc_bind; [apply (wc_AesGcmDecrypt_spec e (Rfc9180.key c) aes ct out _ tag aad (len ct) 12 16); try done; lia|].
  rewrite Ein, !take_len by lia. unfold open_answer, Rfc9180.Open. intros r ->.
  destruct (Sp800_38D.GCM_AD _ _ _ _ _); do 2 calc_step; eval_tests; [|done]. by rewrite (cr_seq _ _ _ Hc), s32_id by lia.
Qed.

Lemma ContextOpen_spec c seq hc aad ct tag out : ctx_rel c seq hc -> 0 <= seq < 2 ^ 31 - 1 -> aad_ok aad ->
  bytes_ok ct -> bytes_ok tag -> len tag = 16 -> len ct < 2 ^ 32 -> bytes_ok out -> len ct <= len out ->
  calc e 0 (wc_HpkeContextOpenBase (suite aead Nk) hc aad (len (default [] aad)) (Some (ct ++ tag)) (len ct) (Some out))
    (fun r => (let '(ret, hc', o) := open_answer c seq hc (default [] aad) ct tag out in r = (ret, hc', Some o)) \/
              (r = (MEMORY_E, hc, Some out) /\ oom e)).
Proof.
  intros Hc Hs Ha Hp Ht Lt Lp Ho Lo. unfold wc_HpkeContextOpenBase. rewrite aad_guard, (cr_seq _ _ _ Hc).
  rewrite (proj2 (Z.eqb_neq seq 0x7fffffff)) by lia. calc_step; cbn [negb]; [|by calc_step; right].
  eapply calc_bind; [by apply (open_body_spec c seq)|]. intros r ->. destruct (open_answer _ _ _ _ _ _ _) as [[ret hc'] o].
  do 2 calc_step. by left.
Qed.

(** ** Encapsulation and decapsulation *)

(** The curve of the suite and a public key on it. *)
Definition pub_key (pt : bytes) (key : ecc_key) : Prop :=
  is_point 32 pt /\ holds_point ecc_secp256r1 2 pt key.

Lemma pub_key_len pt key : pub_key pt key -> len pt = 65 /\ bytes_ok pt.
Proof. intros [[Hb Hl _] _]. done. Qed.

Lemma serialize_at_spec key pt buf off : pub_key pt key -> 0 <= off -> off + 65 <= len buf ->
  calc e 0 (serialize_at (suite aead Nk) key buf off 65)
    (fun r => r = (0, splice buf off pt, 65) \/ (r.1.1 = MEMORY_E /\ oom e)).
Proof.
  intros [Hp Hk] Ho Hl. unfold serialize_at, wc_HpkeSerializePublicKey. cbn [suite hp_kem].
  change (is_ecc_kem DHKEM_P256_HKDF_SHA256) with true. cbv iota. calc_step; [lia|lia|lia|].
  assert (len (sub buf off (len buf - off)) = len buf - off) as Ls by (apply len_sub; lia). calc_step.
  eapply calc_bind; [apply (export_x963_spec e key 2 ecc_secp256r1 pt); try done; change (1 + 2 * ecc_size ecc_secp256r1) with 65; lia|].
  pose proof (proj1 (pub_key_len pt key (conj Hp Hk))) as Lp.
  intros r [->|[-> Hoom]]; calc_step; cbn [default from_option id].
  - calc_step; [lia|rewrite len_splice; lia|]. calc_step. left. rewrite splice_sub_splice by lia. done.
  - calc_step; [lia|rewrite len_splice; change (len [ECC_POINT_UNCOMP]) with 1; lia|]. calc_step. by right.
Qed.

Lemma encap_context_spec eph recv enc pkR : pub_key enc eph -> pub_key pkR recv ->
  calc e 0 (encap_context (suite aead Nk) eph recv) (fun r => r = (0, enc ++ pkR) \/ (r.1 = MEMORY_E /\ oom e)).
Proof.
  intros He Hr. destruct (pub_key_len _ _ He) as [Le _], (pub_key_len _ _ Hr) as [Lr _]. unfold encap_context. cbn [suite hp_Npk].
  fold (suite aead Nk). change (w16 65) with 65. change (65 * 2) with 130. cbv zeta.
  eapply calc_bind; [by apply (serialize_at_spec eph enc)|].
  intros [[ret k1] n1] [Hx|[Hx Ho]]; [injection Hx as -> -> ->|cbn in Hx; subst ret; calc_steps; right; done].
  change (0 =? 0) with true. cbv iota. pose proof (len_zeros 130 ltac:(lia)) as Lz.
  eapply calc_bind; [apply (serialize_at_spec recv pkR); [done|lia|rewrite len_splice; lia]|].
  intros [[ret k2] n2] [Hx|[Hx Ho]]; [injection Hx as -> -> ->|cbn in Hx; subst ret; calc_steps; right; done].
  calc_step. left. rewrite <-Le at 1. rewrite splice_splice_app by lia. f_equal. apply splice_full.
  apply Nat2Z.inj. change (len (zeros 130) = len (enc ++ pkR)). rewrite len_app. lia.
Qed.

Lemma decap_context_spec recv enc pkR : pub_key pkR recv -> bytes_ok enc -> len enc = 65 ->
  calc e 0 (decap_context (suite aead Nk) recv enc) (fun r => r = (0, enc ++ pkR) \/ (r.1 = MEMORY_E /\ oom e)).
Proof.
  intros Hr He Le. destruct (pub_key_len _ _ Hr) as [Lr _]. unfold decap_context. cbn [suite hp_Npk].
  fold (suite aead Nk). change (w16 65) with 65. change (65 * 2) with 130. pose proof (len_zeros 130 ltac:(lia)) as Lz.
  calc_step; [lia|lia|lia|]. rewrite sub_all by done. calc_step; [lia|lia|].
  eapply calc_bind; [apply (serialize_at_spec recv pkR); [done|lia|rewrite len_splice; lia]|].
  intros [[ret k2] n2] [Hx|[Hx Ho]]; [injection Hx as -> -> ->|cbn in Hx; subst ret; calc_steps; right; done].
  calc_step. left. rewrite <-Le at 1. rewrite splice_splice_app by lia. f_equal. apply splice_full.
  apply Nat2Z.inj. change (len (zeros 130) = len (enc ++ pkR)). rewrite len_app. lia.
Qed.

(** What is known of the key agreement between [priv] and [pub]: a value that
    satisfies [P], or an error that satisfies [F]. *)
Definition agreement (P : bytes -> Prop) (F : Z -> Prop) (priv pub : ecc_key) : Prop :=
  calc_in x e 0 (wc_ecc_shared_secret (wc_ecc_set_rng priv true).2 pub (zeros 32) 32)
    (fun r => (r.1 = 0 /\ r.2.2 = 32 /\ len r.2.1 = 32 /\ bytes_ok r.2.1 /\ P r.2.1) \/ (r.1 <> 0 /\ F r.1)).

(** Why a set-up fails: an error of the agreement, or, with a working random
    device, lack of memory. *)
Definition kem_failed (F : Z -> Prop) (ret : Z) : Prop := ret <> 0 /\ (entropy_ok e -> oom e \/ F ret).

Definition agreed (P : bytes -> Prop) (F : Z -> Prop) (key : ecc_key) (r : Z * ecc_key * bytes * Z) : Prop :=
  let '(ret, key', dh, n) := r in
  key' = key /\ ((ret = 0 /\ n = 32 /\ len dh = 32 /\ bytes_ok dh /\ P dh) \/ kem_failed F ret).

Lemma failed_oom F ret : ret <> 0 -> oom e -> kem_failed F ret.
Proof. by split; auto. Qed.

Lemma set_rng_back key : (wc_ecc_set_rng (wc_ecc_set_rng key true).2 (ek_rng key)).2 = key.
Proof. by destruct key. Qed.

Context (Hos : os_sane e).
Section Kem.
Context (P : bytes -> Prop) (F : Z -> Prop).

Lemma agree_with_rng_spec priv pub : agreement P F priv pub ->
  calc_in x e 0 (agree_with_rng priv pub (zeros 32) 32) (agreed P F priv).
Proof.
  intros Ha. unfold agree_with_rng. pose proof (set_rng_back priv) as Hb.
  destruct (wc_ecc_set_rng priv true) as [x0 priv'] eqn:E1. cbv zeta. unfold agreement in Ha. rewrite E1 in Ha. cbn [snd] in Ha, Hb.
  eapply calc_bind; [exact Ha|]. intros [ret [dh n]] Hr. cbn [fst snd] in Hr.
  destruct (wc_ecc_set_rng priv' (ek_rng priv)) as [y priv'']. cbn [snd] in Hb. subst priv''. calc_step. split; [done|].
  destruct Hr as [Hr|[Hr Hf]]; [by left|]. right. split; auto.
Qed.

Lemma encap_agree_spec priv pub : agreement P F priv pub ->
  calc_in x e 0 (encap_agree priv pub (zeros 32) 32) (agreed P F priv).
Proof.
  intros Ha. unfold encap_agree. apply (rng_new_spec e (x := x)); [done| |].
  - intros rng (seed & _ & _ & Hrdy). eapply calc_bind; [by apply agree_with_rng_spec|].
    intros [[[ret key] dh] n] Hr. apply (rng_free_spec e (x := x)); [by eapply ready_kept|]. by calc_step.
  - intros He. calc_step. split; [done|]. right. split; [done|]. auto.
Qed.

Lemma Encap_spec eph recv enc pkR : pub_key enc eph -> pub_key pkR recv -> agreement P F eph recv ->
  calc_in x e 0 (wc_HpkeEncap (suite aead Nk) eph recv (zeros 32))
    (fun r => let '(ret, eph', ss) := r in eph' = eph /\ len ss = 32 /\
      ((ret = 0 /\ exists dh, P dh /\ ss = Rfc9180.shared_secret dh enc pkR) \/ kem_failed F ret)).
Proof.
  intros He Hr Ha. unfold wc_HpkeEncap. calc_step; (calc_step; [|]); cbn [negb orb].
  2-4: calc_steps; (split; [done|]); (split; [done|]); right; by apply failed_oom.
  cbn [suite hp_kem hp_Ndh hp_Npk]. fold (suite aead Nk). change (is_ecc_kem DHKEM_P256_HKDF_SHA256) with true. cbv iota zeta.
  change (65 * 2) with 130. eapply calc_bind; [by apply encap_agree_spec|].
  intros [[[ret key] dh] n] [-> [(-> & -> & Ld & Od & HP)|[Hret Hf]]].
  2:{ rewrite (proj2 (Z.eqb_neq ret 0)) by done. calc_step. rewrite (proj2 (Z.eqb_neq ret 0)) by done. do 4 calc_step.
      split; [done|]. split; [done|]. by right. }
  change (0 =? 0) with true. cbv iota. eapply calc_bind; [by apply calc_lift, (encap_context_spec eph recv enc pkR)|].
  intros [ret kc] [Hx|[Hx Ho]]; [injection Hx as -> ->|cbn in Hx; subst ret; calc_steps; split; [done|]; split; [done|]; right; by apply failed_oom].
  change (0 =? 0) with true. cbv iota. destruct (pub_key_len _ _ He) as [Le Oe], (pub_key_len _ _ Hr) as [Lr Or].
  eapply calc_bind; [apply calc_lift, (ExtractAndExpand_spec dh (enc ++ pkR)); try done; [by apply bytes_ok_app|rewrite len_app; lia]|].
  intros [ret ss] [(Hx & Hs)|(Hx & Ls & Ho)]; cbn [fst snd] in *; subst ret; do 3 calc_step; (split; [done|]).
  - rewrite Hs. split; [apply len_ExtractAndExpand|]. left. split; [done|]. by exists dh.
  - split; [done|]. right. by apply failed_oom.
Qed.
End Kem.

(** Keys the library cannot read: their code. *)
Definition refused_code (enc : bytes) : Z :=
  if (enc !!! 0%nat =? ECC_POINT_COMP_EVEN) || (enc !!! 0%nat =? ECC_POINT_COMP_ODD) then NOT_COMPILED_IN else ASN_PARSE_E.

Lemma key_new_spec {B} d (k : option ecc_key -> M B) Q :
  (forall key, key_ready key -> binding key = (0, INVALID_DEVID, false) -> calc_in x e (S d) (k (Some key)) Q) ->
  (oom e -> calc_in x e d (k None) Q) -> calc_in x e d (wc_ecc_key_new ≫= k) Q.
Proof.
  intros Hk Hf. unfold wc_ecc_key_new, wc_ecc_key_new_ex.
  destruct (wc_ecc_init_ex_spec ecc_key_zero INVALID_DEVID) as (key & -> & Hr & Hb & _).
  calc_step. calc_step; cbv iota; [|calc_step; auto]. change (negb (0 =? 0)) with false. cbv iota. calc_step. by apply Hk.
Qed.

Lemma Deserialize_spec {B} d enc (k : Z * option ecc_key -> M B) Q : bytes_ok enc -> len enc = 65 ->
  (forall key, pub_key enc key -> calc_in x e (S d) (k (0, Some key)) Q) ->
  (enc !!! 0%nat <> ECC_POINT_UNCOMP -> calc_in x e d (k (refused_code enc, None)) Q) ->
  (oom e -> calc_in x e d (k (MEMORY_E, None)) Q) ->
  calc_in x e d (wc_HpkeDeserializePublicKey (suite aead Nk) None (Some enc) 65 ≫= k) Q.
Proof.
  intros Oe Le Hok Href Hoom. unfold wc_HpkeDeserializePublicKey. cbn [suite hp_Npk hp_kem hp_curveId].
  change (is_ecc_kem DHKEM_P256_HKDF_SHA256) with true. change (65 <? 65) with false. cbv iota.
  calc_step. calc_step. apply key_new_spec.
  2:{ intros Ho. calc_steps. rewrite bool_decide_false by (by intros []). cbn [andb]. calc_step. auto. }
  intros key0 Hrdy Hb. calc_step. destruct (decide (enc !!! 0%nat = ECC_POINT_UNCOMP)) as [E0|E0].
  - assert (is_point 32 enc) as Hp by (split; [done|rewrite Le; done|done]).
    eapply calc_bind.
    { apply calc_lift. rewrite <-Le. apply (import_x963_spec e key0 2 ecc_secp256r1 enc); done. }
    intros [ret key] (Hx & Hh & _). cbn [fst snd] in *. subst ret. calc_step.
    change (negb (0 =? 0)) with false. cbn [andb]. calc_step. apply Hok. by split.
  - eapply calc_bind.
    { apply calc_lift. rewrite <-Le. apply (import_x963_refused e key0 ECC_SECP256R1 enc 32); done. }
    intros [ret key] (Hx & _). cbn [fst snd] in *. fold (refused_code enc) in Hx. subst ret.
    assert ((refused_code enc =? 0) = false) as Ec by (unfold refused_code; by destruct (_ || _)). calc_step. rewrite Ec.
    rewrite bool_decide_true by (by eexists). cbn [andb negb]. unfold wc_HpkeFreeKey, wc_ecc_key_free.
    change (is_ecc_kem DHKEM_P256_HKDF_SHA256) with true. cbv iota zeta. do 3 calc_step. auto.
Qed.

Section Decap.
Context (P : bytes -> Prop) (F : Z -> Prop).

Lemma CopyPrivateKey_device recv pkR : pub_key pkR recv -> ek_devId recv <> INVALID_DEVID ->
  wc_HpkeCopyPrivateKey (suite aead Nk) recv = mret None.
Proof.
  intros [_ Hh] Hd. unfold wc_HpkeCopyPrivateKey. cbn [suite hp_kem]. change (is_ecc_kem DHKEM_P256_HKDF_SHA256) with true.
  rewrite (hp_dp _ _ _ _ Hh). rewrite (proj2 (Z.eqb_neq _ _) Hd). reflexivity.
Qed.

Lemma decap_agree_spec recv eph pkR : pub_key pkR recv -> ek_devId recv <> INVALID_DEVID -> agreement P F recv eph ->
  calc_in x e 0 (decap_agree (suite aead Nk) recv eph (zeros 32) 32) (agreed P F recv).
Proof.
  intros Hr Hd Ha. unfold decap_agree. apply (rng_new_spec e (x := x)); [done| |].
  - intros rng (seed & _ & _ & Hrdy). rewrite (CopyPrivateKey_device _ _ Hr Hd). calc_step. eapply calc_bind; [by apply agree_with_rng_spec|].
    intros [[[ret key] dh] n] Hx. apply (rng_free_spec e (x := x)); [by eapply ready_kept|]. by calc_step.
  - intros He. calc_step. split; [done|]. right. split; [done|]. auto.
Qed.

(** Opening also fails on an encapsulated key that cannot be read. *)
Definition decap_err (enc : bytes) (ret : Z) : Prop :=
  F ret \/ (enc !!! 0%nat <> ECC_POINT_UNCOMP /\ ret = refused_code enc).

Lemma decap_dh_spec recv enc pkR : pub_key pkR recv -> ek_devId recv <> INVALID_DEVID -> bytes_ok enc -> len enc = 65 ->
  (forall eph, pub_key enc eph -> agreement P F recv eph) ->
  calc_in x e 0 (decap_dh (suite aead Nk) recv enc 65)
    (fun r => agreed P (decap_err enc) recv r /\ (r.1.1.1 = 0 -> is_point 32 enc)).
Proof.
  intros Hr Hd Oe Le Ha. unfold decap_dh. cbn [suite hp_Ndh hp_kem]. fold (suite aead Nk).
  change (is_ecc_kem DHKEM_P256_HKDF_SHA256) with true. cbv zeta.
  apply Deserialize_spec; [done|done| | |].
  - intros key Hk. change (0 =? 0) with true. cbv iota. eapply calc_bind; [by apply (decap_agree_spec recv key pkR); auto|].
    intros [[[ret key'] dh] n] [-> Hx]. unfold wc_HpkeFreeKey, wc_ecc_key_free.
    change (is_ecc_kem DHKEM_P256_HKDF_SHA256) with true. cbv iota zeta. do 2 calc_step. split; [|intros; apply Hk]. split; [done|].
    destruct Hx as [Hx|[Hn Hx]]; [by left|]. right. split; [done|]. intros He. destruct (Hx He); [by left|right; by left].
  - intros E0. calc_step. assert (refused_code enc <> 0) as Hn by (unfold refused_code; by destruct (_ || _)).
    split; [|done]. split; [done|]. right. split; [done|]. intros _. right. by right.
  - intros Ho. calc_step. split; [|done]. split; [done|]. right. by apply failed_oom.
Qed.

Lemma Decap_spec recv enc pkR : pub_key pkR recv -> ek_devId recv <> INVALID_DEVID -> bytes_ok enc -> len enc = 65 ->
  (forall eph, pub_key enc eph -> agreement P F recv eph) ->
  calc_in x e 0 (wc_HpkeDecap (suite aead Nk) recv enc 65 (zeros 32))
    (fun r => let '(ret, recv', ss) := r in recv' = recv /\ len ss = 32 /\
      ((ret = 0 /\ is_point 32 enc /\ exists dh, P dh /\ ss = Rfc9180.shared_secret dh enc pkR) \/
       kem_failed (decap_err enc) ret)).
Proof.
  intros Hr Hd Oe Le Ha. unfold wc_HpkeDecap. calc_step; (calc_step; [|]); cbn [negb orb].
  2-4: calc_steps; (split; [done|]); (split; [done|]); right; by apply failed_oom.
  cbn [suite hp_Npk]. fold (suite aead Nk). change (65 * 2) with 130. eapply calc_bind; [by apply (decap_dh_spec recv enc pkR)|].
  intros [[[ret key] dh] n] [[-> [(-> & -> & Ld & Od & HP)|[Hret Hf]]] Hpt].
  2:{ rewrite (proj2 (Z.eqb_neq ret 0)) by done. calc_step. rewrite (proj2 (Z.eqb_neq ret 0)) by done. do 4 calc_step.
      split; [done|]. split; [done|]. by right. }
  specialize (Hpt eq_refl).
  change (0 =? 0) with true. cbv iota. eapply calc_bind; [by apply calc_lift, (decap_context_spec recv enc pkR)|].
  intros [ret kc] [Hx|[Hx Ho]]; [injection Hx as -> ->|cbn in Hx; subst ret; calc_steps; split; [done|]; split; [done|]; right; by apply failed_oom].
  change (0 =? 0) with true. cbv iota. destruct (pub_key_len _ _ Hr) as [Lr Or].
  eapply calc_bind; [apply calc_lift, (ExtractAndExpand_spec dh (enc ++ pkR)); try done; [by apply bytes_ok_app|rewrite len_app; lia]|].
  intros [ret ss] [(Hx & Hs)|(Hx & Ls & Ho)]; cbn [fst snd] in *; subst ret; do 3 calc_step; (split; [done|]).
  - rewrite Hs. split; [apply len_ExtractAndExpand|]. left. split; [done|]. split; [done|]. by exists dh.
  - split; [done|]. right. by apply failed_oom.
Qed.
End Decap.

(** ** Single shot *)

(** The set-up fails also on an [info] that is too long. *)
Definition setup_err (F : Z -> Prop) (info : bytes) (ret : Z) : Prop := F ret \/ (ret = BUFFER_E /\ max_info < len info).

Section Shot.
Context (P : bytes -> Prop) (F : Z -> Prop) (info : option bytes).
Hypothesis Hinfo : bytes_ok (default [] info).

(** The context that the two parties get from [dh]. *)
Definition shared_context (dh enc pkR : bytes) : Rfc9180.context :=
  Rfc9180.KeySchedule aead Nk (Rfc9180.shared_secret dh enc pkR) (default [] info).

Lemma shared_secret_ok dh enc pkR : bytes_ok (Rfc9180.shared_secret dh enc pkR).
Proof. apply LabeledExpand_ok. Qed.

Lemma SetupSender_spec eph recv enc pkR : pub_key enc eph -> pub_key pkR recv -> agreement P F eph recv ->
  calc_in x e 0 (wc_HpkeSetupBaseSender (suite aead Nk) context_zero eph recv info (len (default [] info)))
    (fun r => let '(ret, eph', hc) := r in eph' = eph /\
      ((ret = 0 /\ len (default [] info) <= max_info /\ exists dh, P dh /\ ctx_rel (shared_context dh enc pkR) 0 hc) \/
       kem_failed (setup_err F (default [] info)) ret)).
Proof.
  intros He Hr Ha. unfold wc_HpkeSetupBaseSender. calc_step; cbn [negb].
  2:{ calc_step. split; [done|]. right. by apply failed_oom. }
  cbn [suite hp_Nsecret]. fold (suite aead Nk). eapply calc_bind; [by apply (Encap_spec P F eph recv enc pkR)|].
  intros [[ret key] ss] (-> & Ls & [(-> & dh & HP & ->)|[Hret Hf]]).
  2:{ rewrite (proj2 (Z.eqb_neq ret 0)) by done. do 3 calc_step. split; [done|]. right. split; [done|].
      intros Hen. destruct (Hf Hen); [by left|right; by left]. }
  change (0 =? 0) with true. cbv iota. eapply calc_bind; [apply calc_lift, KeySchedule_spec; [done|apply shared_secret_ok|done]|].
  intros [ret hc] Hx. do 2 calc_step. split; [done|].
  destruct Hx as [(Hx & Hi & Hc)|[[Hx Ho]|[Hx Ho]]]; cbn [fst snd] in *; subst ret.
  - left. eauto.
  - right. by apply failed_oom.
  - right. split; [done|]. intros _. right. by right.
Qed.

Lemma SetupReceiver_spec recv enc pkR : pub_key pkR recv -> ek_devId recv <> INVALID_DEVID -> bytes_ok enc -> len enc = 65 ->
  (forall eph, pub_key enc eph -> agreement P F recv eph) ->
  calc_in x e 0 (wc_HpkeSetupBaseReceiver (suite aead Nk) context_zero recv enc 65 info (len (default [] info)))
    (fun r => let '(ret, recv', hc) := r in recv' = recv /\
      ((ret = 0 /\ is_point 32 enc /\ len (default [] info) <= max_info /\
        exists dh, P dh /\ ctx_rel (shared_context dh enc pkR) 0 hc) \/
       kem_failed (setup_err (decap_err F enc) (default [] info)) ret)).
Proof.
  intros Hr Hd Oe Le Ha. unfold wc_HpkeSetupBaseReceiver. calc_step; cbn [negb].
  2:{ calc_step. split; [done|]. right. by apply failed_oom. }
  cbn [suite hp_Nsecret]. fold (suite aead Nk). eapply calc_bind; [by apply (Decap_spec P F recv enc pkR)|].
  intros [[ret key] ss] (-> & Ls & [(-> & Hpt & dh & HP & ->)|[Hret Hf]]).
  2:{ rewrite (proj2 (Z.eqb_neq ret 0)) by done. do 3 calc_step. split; [done|]. right. split; [done|].
      intros Hen. destruct (Hf Hen); [by left|right; by left]. }
  change (0 =? 0) with true. cbv iota. eapply calc_bind; [apply calc_lift, KeySchedule_spec; [done|apply shared_secret_ok|done]|].
  intros [ret hc] Hx. do 2 calc_step. split; [done|].
  destruct Hx as [(Hx & Hi & Hc)|[[Hx Ho]|[Hx Ho]]]; cbn [fst snd] in *; subst ret.
  - left. split; [done|]. split; [done|]. eauto.
  - right. by apply failed_oom.
  - right. split; [done|]. intros _. right. by right.
Qed.

Lemma SealBase_spec eph recv enc pkR aad pt out : pub_key enc eph -> pub_key pkR recv -> agreement P F eph recv ->
  aad_ok aad -> bytes_ok pt -> len pt < 2 ^ 32 -> bytes_ok out -> len pt + 16 <= len out ->
  calc_in x e 0 (wc_HpkeSealBase (suite aead Nk) eph recv info (len (default [] info)) aad (len (default [] aad))
                      (Some pt) (len pt) (Some out))
    (fun r => let '(ret, eph', o) := r in eph' = eph /\
      ((ret = 0 /\ len (default [] info) <= max_info /\ exists dh, P dh /\
        o = Some (splice out 0 (Rfc9180.Seal (shared_context dh enc pkR) 0 (default [] aad) pt))) \/
       (kem_failed (setup_err F (default [] info)) ret /\ o = Some out))).
Proof.
  intros He Hr Ha Haad Op Lp Oo Lo. unfold wc_HpkeSealBase. rewrite !aad_guard, !bool_decide_false by done. cbn [orb].
  calc_step; cbn [negb]; [|calc_step; split; [done|]; right; split; [by apply failed_oom|done]].
  eapply calc_bind; [by apply (SetupSender_spec eph recv enc pkR)|].
  intros [[ret key] hc] [-> [(-> & Hi & dh & HP & Hc)|Hf]].
  2:{ pose proof (proj1 Hf) as Hret. rewrite (proj2 (Z.eqb_neq ret 0)) by done. do 3 calc_step. split; [done|]. by right. }
  change (0 =? 0) with true. cbv iota. eapply calc_bind; [by apply calc_lift, (ContextSeal_spec _ 0 hc aad pt out Hc)|].
  intros r [->|[-> Ho]]; do 2 calc_step; (split; [done|]); [left; eauto|right; split; [by apply failed_oom|done]].
Qed.

Lemma OpenBase_spec recv enc pkR aad ct tag out : pub_key pkR recv -> ek_devId recv <> INVALID_DEVID ->
  bytes_ok enc -> len enc = 65 -> (forall eph, pub_key enc eph -> agreement P F recv eph) ->
  aad_ok aad -> bytes_ok ct -> bytes_ok tag -> len tag = 16 -> len ct < 2 ^ 32 -> bytes_ok out -> len ct <= len out ->
  calc_in x e 0 (wc_HpkeOpenBase (suite aead Nk) recv (Some enc) 65 info (len (default [] info)) aad
                      (len (default [] aad)) (Some (ct ++ tag)) (len ct) (Some out))
    (fun r => let '(ret, recv', o) := r in recv' = recv /\
      ((is_point 32 enc /\ len (default [] info) <= max_info /\ exists dh, P dh /\
        match Rfc9180.Open (shared_context dh enc pkR) 0 (default [] aad) ct tag with
        | Some pt => ret = 0 /\ o = Some (splice out 0 pt)
        | None => ret = AES_GCM_AUTH_E /\ o = Some (splice out 0 (zeros (len ct)))
        end) \/
       (kem_failed (setup_err (decap_err F enc) (default [] info)) ret /\ o = Some out))).
Proof.
  intros Hr Hd Oe Le Ha Haad Oc Ot Lt Lc Oo Lo. unfold wc_HpkeOpenBase. change (65 =? 0) with false.
  rewrite !aad_guard, !bool_decide_false by done. cbn [orb].
  calc_step; cbn [negb]; [|calc_step; split; [done|]; right; split; [by apply failed_oom|done]].
  eapply calc_bind; [by apply (SetupReceiver_spec recv enc pkR)|].
  intros [[ret key] hc] [-> [(-> & Hpt & Hi & dh & HP & Hc)|Hf]].
  2:{ pose proof (proj1 Hf) as Hret. rewrite (proj2 (Z.eqb_neq ret 0)) by done. do 3 calc_step. split; [done|]. by right. }
  change (0 =? 0) with true. cbv iota. eapply calc_bind; [by apply calc_lift, (ContextOpen_spec _ 0 hc aad ct tag out Hc)|].
  unfold open_answer. intros r Hx. destruct Hx as [Hx|[-> Ho]].
  2:{ do 2 calc_step. split; [done|]. right. split; [by apply failed_oom|done]. }
  destruct (Rfc9180.Open _ _ _ _ _) eqn:Eo; subst r; do 2 calc_step; (split; [done|]); left;
    (split; [done|]); (split; [done|]); exists dh; (split; [done|]); by rewrite Eo.
Qed.
End Shot.
End Specs.

(** ** Properties *)

Section Stream.
Context `{!Callbacks} (e : env) (aead Nk : Z) (Haead : aead_ok aead Nk).

(** Seal messages, each additional data and plaintext, one after the other. *)
Fixpoint seal_all (hc : HpkeBaseContext) (msgs : list (bytes * bytes)) : M (Z * list bytes) :=
  match msgs with
  | [] => mret (0, [])
  | (aad, pt) :: msgs =>
    '(ret, hc, o) ← wc_HpkeContextSealBase (suite aead Nk) hc (Some aad) (len aad) (Some pt) (len pt)
                      (Some (zeros (len pt + 16)));
    if negb (ret =? 0) then mret (ret, [])
    else '(ret, cts) ← seal_all hc msgs; mret (ret, default [] o :: cts)
  end.

(** Open ciphertexts with the same additional data, in the order received. *)
Fixpoint open_all (hc : HpkeBaseContext) (msgs : list (bytes * bytes)) : M (Z * list bytes) :=
  match msgs with
  | [] => mret (0, [])
  | (aad, ct) :: msgs =>
    '(ret, hc, o) ← wc_HpkeContextOpenBase (suite aead Nk) hc (Some aad) (len aad) (Some ct) (len ct - 16)
                      (Some (zeros (len ct - 16)));
    if negb (ret =? 0) then mret (ret, [])
    else '(ret, pts) ← open_all hc msgs; mret (ret, default [] o :: pts)
  end.

(** What the standard puts on the wire. *)
Fixpoint wire (c : Rfc9180.context) (seq : Z) (msgs : list (bytes * bytes)) : list bytes :=
  match msgs with
  | [] => []
  | (aad, pt) :: msgs => Rfc9180.Seal c seq aad pt :: wire c (seq + 1) msgs
  end.

Definition message_ok (m : bytes * bytes) : Prop :=
  bytes_ok m.1 /\ len m.1 < 2 ^ 32 /\ bytes_ok m.2 /\ len m.2 < 2 ^ 32.

Lemma ctx_rel_next c seq hc : ctx_rel Nk c seq hc -> ctx_rel Nk c (seq + 1) (set_seq (seq + 1) hc).
Proof. by intros []; split. Qed.

(** Every key schedule fits a context of hpke.c. *)
Lemma schedule_holder ss info : exists hc, ctx_rel Nk (Rfc9180.KeySchedule aead Nk ss info) 0 hc.
Proof.
  assert (0 <= Nk) as HN by (destruct Haead as [[_ ->]|[_ ->]]; lia).
  assert (forall s p l i n, 0 <= n -> len (Rfc9180.LabeledExpand s p l i n) = n) as Lx by (intros; by apply len_LabeledExpand).
  assert (forall s p l i n, bytes_ok (Rfc9180.LabeledExpand s p l i n)) as Ox by (intros; apply LabeledExpand_ok).
  unfold Rfc9180.KeySchedule. set (k := Rfc9180.LabeledExpand _ _ (str "key") _ _). set (n := Rfc9180.LabeledExpand _ _ (str "base_nonce") _ _).
  set (x := Rfc9180.LabeledExpand _ _ (str "exp") _ _).
  assert (len k = Nk /\ bytes_ok k /\ len n = 12 /\ bytes_ok n /\ len x = 32) as (L1 & O1 & L2 & O2 & L3) by (repeat split; try apply Ox; apply Lx; lia).
  clearbody k n x. exists {| hc_seq := 0; hc_key := k; hc_base_nonce := n; hc_exporter_secret := x |}. split; try done.
  - apply take_len. done.
  - apply (take_len x 32). done.
Qed.

(** Ciphertext and tag of one message, and that they open. *)
Lemma Seal_split c seq hc aad pt : ctx_rel Nk c seq hc -> bytes_ok pt -> exists ct tag,
  Rfc9180.Seal c seq aad pt = ct ++ tag /\ len ct = len pt /\ len tag = 16 /\ bytes_ok ct /\ bytes_ok tag /\
  Rfc9180.Open c seq aad ct tag = Some pt.
Proof.
  intros Hc Hp. destruct (context_key aead Nk Haead c seq hc Hc) as (aes & _ & [Hk _] & _).
  destruct (len_ComputeNonce Nk c seq hc Hc) as [_ On].
  pose proof (GCM_AD_AE aes (Rfc9180.key c) (Rfc9180.ComputeNonce c seq) pt aad 16 Hk On ltac:(lia)) as H1.
  pose proof (GCM_AE_ok aes (Rfc9180.key c) (Rfc9180.ComputeNonce c seq) pt aad 16 Hk On Hp) as H2.
  unfold Rfc9180.Seal, Rfc9180.Open. destruct (Sp800_38D.GCM_AE _ _ _ _ _) as [ct tag]. exists ct, tag. tauto.
Qed.

Lemma Open_len c seq hc aad ct tag pt : ctx_rel Nk c seq hc -> Rfc9180.Open c seq aad ct tag = Some pt -> len pt = len ct.
Proof.
  intros Hc. destruct (context_key aead Nk Haead c seq hc Hc) as (aes & _ & [Hk _] & _).
  destruct (len_ComputeNonce Nk c seq hc Hc) as [_ On]. by apply (GCM_AD_len aes (Rfc9180.key c)).
Qed.

Lemma seal_all_spec c msgs : forall seq hc, ctx_rel Nk c seq hc -> 0 <= seq -> seq + Z.of_nat (length msgs) < 2 ^ 31 ->
  Forall message_ok msgs ->
  calc e 0 (seal_all hc msgs) (fun r => r = (0, wire c seq msgs) \/ (r.1 = MEMORY_E /\ oom e)).
Proof.
  induction msgs as [|[aad pt] msgs IH]; intros seq hc Hc Hs Hn Hm; cbn [seal_all wire]; [calc_step; by left|].
  apply Forall_cons_1 in Hm as [(Oa & La & Op & Lp) Hm]. cbn [fst snd length] in *. pose proof (len_nonneg pt).
  eapply calc_bind; [apply (ContextSeal_spec e aead Nk Haead c seq hc (Some aad) pt (zeros (len pt + 16)) Hc);
    try done; [lia|auto with wf|rewrite len_zeros; lia]|].
  intros r [->|[-> Ho]]; [|calc_steps; right; done]. change (negb (0 =? 0)) with false. cbn [default from_option id].
  eapply calc_bind; [apply (IH (seq + 1)); [by apply ctx_rel_next|lia|lia|done]|].
  intros [ret cts] [Hx|[Hx Ho]]; calc_step; [left|by right]. injection Hx as -> ->. do 2 f_equal.
  destruct (Seal_split c seq hc aad pt Hc Op) as (ct & tag & -> & Lc & Lt & _).
  apply splice_full. apply Nat2Z.inj. fold (len (zeros (len pt + 16))). fold (len (ct ++ tag)). rewrite len_app, len_zeros; lia.
Qed.

Lemma open_all_spec c msgs : forall seq hc, ctx_rel Nk c seq hc -> 0 <= seq -> seq + Z.of_nat (length msgs) < 2 ^ 31 ->
  Forall message_ok msgs ->
  calc e 0 (open_all hc (zip (fst <$> msgs) (wire c seq msgs))) (fun r => r = (0, snd <$> msgs) \/ (r.1 = MEMORY_E /\ oom e)).
Proof.
  induction msgs as [|[aad pt] msgs IH]; intros seq hc Hc Hs Hn Hm; cbn [open_all wire zip_with fmap list_fmap fst snd]; [calc_step; by left|].
  apply Forall_cons_1 in Hm as [(Oa & La & Op & Lp) Hm]. cbn [fst snd length] in *. pose proof (len_nonneg pt).
  destruct (Seal_split c seq hc aad pt Hc Op) as (ct & tag & -> & Lc & Lt & Oc & Ot & Eo).
  replace (len (ct ++ tag) - 16) with (len ct) by (rewrite len_app; lia).
  eapply calc_bind; [apply (ContextOpen_spec e aead Nk Haead c seq hc (Some aad) ct tag (zeros (len ct)) Hc);
    try done; [lia|lia|auto with wf|rewrite len_zeros; lia]|].
  unfold open_answer. cbn [default from_option id]. rewrite Eo. intros r [->|[-> Ho]]; [|calc_steps; right; done].
  change (negb (0 =? 0)) with false. cbn [default from_option id].
  eapply calc_bind; [apply (IH (seq + 1)); [by apply ctx_rel_next|lia|lia|done]|].
  intros [ret pts] [Hx|[Hx Ho]]; calc_step; [left|by right]. injection Hx as -> ->. do 2 f_equal.
  apply splice_full. apply Nat2Z.inj. fold (len (zeros (len ct))). fold (len pt). rewrite len_zeros; lia.
Qed.

(** C6. A stream of messages: contexts of the two parties that hold the same
    key schedule at the same sequence number.  Sealing any messages puts on the
    wire, one after the other, exactly what RFC 9180 prescribes for consecutive
    sequence numbers, and opening them in that order gives back every plaintext
    (unless memory runs out). *)
Theorem hpke_stream c seq hs hr msgs :
  ctx_rel Nk c seq hs -> ctx_rel Nk c seq hr -> 0 <= seq -> seq + Z.of_nat (length msgs) < 2 ^ 31 ->
  Forall message_ok msgs ->
  calc e 0 ('(ret, cts) ← seal_all hs msgs;
            if negb (ret =? 0) then mret (ret, cts, [])
            else '(ret, pts) ← open_all hr (zip (fst <$> msgs) cts); mret (ret, cts, pts))
    (fun r => r = (0, wire c seq msgs, snd <$> msgs) \/ (r.1.1 = MEMORY_E /\ oom e)).
Proof.
  intros Hs Hr Hq Hn Hm. eapply calc_bind; [by apply (seal_all_spec c msgs seq)|].
  intros r [->|[Hx Ho]]; [|destruct r; cbn in Hx; subst; calc_steps; right; done]. change (negb (0 =? 0)) with false. cbv iota.
  eapply calc_bind; [by apply (open_all_spec c msgs seq)|].
  intros [ret pts] [Hx|[Hx Ho]]; calc_step; [left|by right]. by injection Hx as -> ->.
Qed.

(** C36. The sequence number never wraps: at its last value both directions
    refuse with [SEQ_OVERFLOW_E], leave the context as it is and write nothing, so
    no nonce is used twice. *)
Theorem hpke_seq_overflow hpke hc aad aadSz inp sz out :
  hc_seq hc = 2 ^ 31 - 1 -> (aad = None -> aadSz = 0) ->
  wc_HpkeContextSealBase hpke hc aad aadSz (Some inp) sz (Some out) = mret (SEQ_OVERFLOW_E, hc, Some out) /\
  wc_HpkeContextOpenBase hpke hc aad aadSz (Some inp) sz (Some out) = mret (SEQ_OVERFLOW_E, hc, Some out).
Proof.
  intros Hs Ha. assert (bool_decide (aad = None) && negb (aadSz =? 0) = false) as Hg.
  { destruct aad; [by rewrite bool_decide_false|]. by rewrite Ha. }
  unfold wc_HpkeContextSealBase, wc_HpkeContextOpenBase. rewrite Hg, Hs. done.
Qed.
End Stream.

(** ** Test vectors: RFC 9180, appendix A.3.1 *)

Module Vectors.

(** Bytes written in hexadecimal. *)
Definition digit (c : Ascii.ascii) : Z :=
  let n := Z.of_nat (Ascii.nat_of_ascii c) in if n <? 58 then n - 48 else n - 87.

Fixpoint hex_pairs (l : list Ascii.ascii) : bytes :=
  match l with
  | a :: b :: l => (16 * digit a + digit b) :: hex_pairs l
  | _ => []
  end.

Definition hex (s : string) : bytes := hex_pairs (String.list_ascii_of_string s).

Definition info : bytes := hex "4f6465206f6e2061204772656369616e2055726e".
Definition enc : bytes := hex
  "04a92719c6195d5085104f469a8b9814d5838ff72b60501e2c4466e5e67b325ac98536d7b61a1af4b78e5b7f951c0900be863c403ce65c9bfcb9382657222d18c4".
Definition pkRm : bytes := hex
  "04fe8c19ce0905191ebc298a9245792531f26f0cece2460639e8bc39cb7f706a826a779b4cf969b8a0e539c7f62fb3d30ad6aa8f80e30f1d128aafd68a2ce72ea0".

(** The x coordinate of the product of the ephemeral scalar and [pkRm]. *)
Definition dh : bytes := hex "13f918529458d2542531406888c8a6d4ea7ff473a6f4db452ac3c4ae1d01cea1".
Definition shared : bytes := hex "c0d26aeab536609a572b07695d933b589dcf363ff9d93c93adea537aeabb8cb8".
Definition context : Rfc9180.context :=
  {| Rfc9180.key := hex "868c066ef58aae6dc589b6cfdd18f97e"; Rfc9180.base_nonce := hex "4e0bc5018beba4bf004cca59";
     Rfc9180.exporter_secret := hex "14ad94af484a7ad3ef40e9f3be99ecc6fa9036df9d4920548424df127ee0d99f" |}.
Definition pt : bytes := hex "4265617574792069732074727574682c20747275746820626561757479".
Definition aad0 : bytes := hex "436f756e742d30".
Definition aad1 : bytes := hex "436f756e742d31".
Definition ct0 : bytes := hex "5ad590bb8baa577f8619db35a36311226a896e7342a6d836d8b7bcd2f20b6c7f9076ac232e3ab2523f39513434".
Definition ct1 : bytes := hex "fa6f037b47fc21826b610172ca9637e82d6e5801eb31cbd3748271affd4ecb06646e0329cbdf3c3cd655b28e82".

Lemma shared_kat : Rfc9180.shared_secret dh enc pkRm = shared.
Proof. vm_compute. reflexivity. Qed.

Lemma schedule_kat : Rfc9180.KeySchedule HPKE_AES_128_GCM 16 shared info = context.
Proof. vm_compute. reflexivity. Qed.

Lemma wire_kat : wire context 0 [(aad0, pt); (aad1, pt)] = [ct0; ct1].
Proof. vm_compute. reflexivity. Qed.

(** A context of hpke.c with these contents. *)
Definition hc : HpkeBaseContext :=
  {| hc_seq := 0; hc_key := Rfc9180.key context ++ zeros 16; hc_base_nonce := Rfc9180.base_nonce context;
     hc_exporter_secret := Rfc9180.exporter_secret context ++ zeros 32 |}.

Lemma bytes_ok_check l : forallb (fun b => (0 <=? b) && (b <? 256)) l = true -> bytes_ok l.
Proof.
  intros Hl. apply List.Forall_forall. intros b Hb. apply (proj1 (forallb_forall _ _)) with (x := b) in Hl; [|done]. lia.
Qed.

Lemma hc_rel : ctx_rel 16 context 0 hc.
Proof. split; try reflexivity; by apply bytes_ok_check. Qed.

Lemma hpke_stream_witness :
  calc env_plenty 0 ('(ret, cts) ← seal_all (H := no_callbacks) HPKE_AES_128_GCM 16 hc [(aad0, pt); (aad1, pt)];
            if negb (ret =? 0) then mret (ret, cts, [])
            else '(ret, pts) ← open_all (H := no_callbacks) HPKE_AES_128_GCM 16 hc (zip [aad0; aad1] cts); mret (ret, cts, pts))
    (fun r => r = (0, [ct0; ct1], [pt; pt])).
Proof.
  rewrite <-wire_kat.
  eapply calc_mono; [apply (@hpke_stream no_callbacks env_plenty HPKE_AES_128_GCM 16 ltac:(by left) context 0 hc hc
    [(aad0, pt); (aad1, pt)] hc_rel hc_rel); [lia|done|]|].
  - repeat constructor; cbn [fst snd]; (by apply bytes_ok_check) || done.
  - intros r [->|[_ [n Hn]]]; [reflexivity|discriminate Hn].
Defined.

Lemma hpke_seq_overflow_witness :
  wc_HpkeContextOpenBase (H := no_callbacks) (suite HPKE_AES_128_GCM 16) (set_seq (2 ^ 31 - 1) hc) (Some aad0) 7 (Some ct0) 29
    (Some pt) = mret (SEQ_OVERFLOW_E, set_seq (2 ^ 31 - 1) hc, Some pt).
Proof.
  apply (hpke_seq_overflow (H := no_callbacks) (suite HPKE_AES_128_GCM 16) (set_seq (2 ^ 31 - 1) hc) (Some aad0) 7 ct0 29 pt);
    [reflexivity|discriminate].
Defined.
End Vectors.
