(* ===== verification/HpkeCore.v ===== *)
(** * HpkeCore: the application's HPKE core (zrotext_hpke_core.c)

    One device is registered with the library, whose callback answers a key
    agreement by calling the host through the bridge attached to the key, and
    refuses every other request.  [zt_hpke_open] and [zt_hpke_seal_cek] check
    the framing of their arguments, wrap them in key objects and call hpke.c.

    A bridge is found in memory at the address kept in the key; 0 is NULL. *)

From stdpp Require Import gmap strings.
From S2P Require Import Prelude Platform Types Misc CryptoCb WcPort Sha256 Hmac Aes Gcm Drbg Rng SpInt Ecc Hpke Rfc9180.

(** zrotext_hpke_core.c:30, [ZT_HPKE_DEVID] *)
Notation ZT_HPKE_DEVID := (0x5A544B31)%Z (only parsing).

Definition INT_MAX := 0x7fffffff.

(** zrotext_hpke_core.h:48-56, [zt_hpke_bridge]: [br_agree ctx peer_point out] is
    the call through the pointer: its code and the contents of [out] after it. *)
Record zt_hpke_bridge := {
  br_agree : option (Z -> bytes -> bytes -> M (Z * bytes));
  br_ctx : Z;
}.

Section Core.
Context (bridge_at : Z -> zt_hpke_bridge).   (* the bridge at an address *)
Context (others : nat -> Z -> forall i, Z -> M (Z * reply i)).   (* callbacks of other users *)

(** zrotext_hpke_core.c:78-99, [zt_ecdh_callback]: ask the host. *)
Definition ask_bridge (bridge : zt_hpke_bridge) (agree : Z -> bytes -> bytes -> M (Z * bytes)) (peer : ecc_key)
    (out : bytes) (outLen : Z) : M (Z * (bytes * Z)) :=
  '(ret, peerPoint, peerPointSz) ← wc_ecc_export_x963_ex peer (Some (zeros DHKEM_P256_ENC_LEN)) DHKEM_P256_ENC_LEN false;
  if negb (ret =? 0) || negb (peerPointSz =? DHKEM_P256_ENC_LEN) then mret (ECC_BAD_ARG_E, (out, outLen))
  else
    '(rc, out) ← agree (br_ctx bridge) (default [] peerPoint) out;
    if negb (rc =? 0) || (rc =? CRYPTOCB_UNAVAILABLE) then
      mret (if rc =? 0 then BAD_STATE_E else rc, (out, outLen))
    else mret (0, (out, 32)).

(** zrotext_hpke_core.c:59-99, [zt_ecdh_callback]: a key agreement. *)
Definition answer_ecdh (priv peer : ecc_key) (out : bytes) (outLen : Z) : M (Z * (bytes * Z)) :=
  match ek_dp priv, ek_dp peer with
  | Some pd, Some qd =>
    if negb (ecc_id pd =? ECC_SECP256R1) || negb (ecc_id qd =? ECC_SECP256R1) then mret (ECC_BAD_ARG_E, (out, outLen))
    else if outLen <? 32 then mret (ECC_BAD_ARG_E, (out, outLen))
    else if ek_devCtx priv =? 0 then mret (BAD_STATE_E, (out, outLen))
    else
      match br_agree (bridge_at (ek_devCtx priv)) with
      | None => mret (BAD_STATE_E, (out, outLen))
      | Some agree => ask_bridge (bridge_at (ek_devCtx priv)) agree peer out outLen
      end
  | _, _ => mret (ECC_BAD_ARG_E, (out, outLen))
  end.

(** zrotext_hpke_core.c:37-100, [zt_ecdh_callback] *)
Definition zt_ecdh_callback (devId : Z) (info : wc_CryptoInfo) (ctx : Z) : M (Z * reply info) :=
  match info return M (Z * reply info) with
  | Pk_ecdh priv peer out outLen => answer_ecdh priv peer out outLen
  | i => mret (M := M) (A := Z * reply i) (BAD_STATE_E, untouched i)
  end.

(** The functions the device table can point to. *)
#[local] Instance core_callbacks : Callbacks := fun cb devId i ctx =>
  match cb with
  | ZtEcdhCallback => zt_ecdh_callback devId i ctx
  | OtherCallback n => others n devId i ctx
  end.

(** zrotext_hpke_core.c:104-112, [zt_hpke_init] *)
Definition zt_hpke_init : M Z :=
  w ← get;
  if zt_device_registered w =? 0 then
    let '(ret, tbl) := wc_CryptoCb_RegisterDevice (gCryptoDev w) ZT_HPKE_DEVID (Some ZtEcdhCallback) 0 in
    _ ← modify (set_devs tbl);
    if negb (ret =? 0) then mret BAD_STATE_E
    else _ ← modify (set_registered 1); mret 0
  else mret 0.

(** zrotext_hpke_core.c:114-118, [zt_hpke_deinit] *)
Definition zt_hpke_deinit : M unit :=
  _ ← modify (fun w => set_devs (wc_CryptoCb_UnRegisterDevice (gCryptoDev w) ZT_HPKE_DEVID) w);
  modify (set_registered 0).

(** [XMEMCMP(a, b, n) == 0] *)
Definition memeq (a b : bytes) (n : Z) : M bool :=
  a ← rd a 0 n;
  b ← rd b 0 n;
  mret (bool_decide (a = b)).

(** zrotext_hpke_core.c:176-188, [zt_hpke_open]: with the suite set up. *)
Definition open_with (hpke : Hpke) (bridge : Z) (recipient : bytes) (recipientSz : Z) (enc : bytes) (encSz : Z)
    (info : bytes) (infoSz : Z) (aad : bytes) (aadSz : Z) (ct : bytes) (ctSz : Z) (pt : bytes) : M (Z * bytes) :=
  let '(ret, key) := wc_ecc_init_ex ecc_key_zero ZT_HPKE_DEVID in
  if negb (ret =? 0) then mret (ret, pt)
  else
    let key := set_device bridge (ek_devId key) (ek_rng key) key in
    '(ret, key) ← wc_ecc_import_x963_ex (Some recipient) (w32 recipientSz) key ECC_SECP256R1;
    if ret =? 0 then
      '(ret, key, o) ← wc_HpkeOpenBase hpke key (Some enc) (w16 encSz) (Some info) (w32 infoSz) (Some aad) (w32 aadSz)
                         (Some ct) (w32 (ctSz - 16)) (Some pt);
      let _ := wc_ecc_free key in
      mret (ret, default pt o)
    else
      let _ := wc_ecc_free key in
      mret (ret, pt).

(** zrotext_hpke_core.c:120-192, [zt_hpke_open] *)
Definition zt_hpke_open (bridge : Z) (recipient : option bytes) (recipientSz : Z) (enc : option bytes) (encSz : Z)
    (ct : option bytes) (ctSz : Z) (info : option bytes) (infoSz : Z) (aad : option bytes) (aadSz : Z)
    (pt : option bytes) (ptCap : Z) : M (Z * option bytes) :=
  match recipient, enc, ct, info, aad, pt with
  | Some rcp, Some en, Some c, Some inf, Some ad, Some p =>
    if bridge =? 0 then mret (BAD_FUNC_ARG, pt)
    else if (INT_MAX <? recipientSz) || (INT_MAX <? encSz) || (INT_MAX <? ctSz) || (INT_MAX <? infoSz) ||
            (INT_MAX <? aadSz) then mret (BAD_FUNC_ARG, pt)
    else if negb (recipientSz =? DHKEM_P256_ENC_LEN) then mret (BAD_FUNC_ARG, pt)
    else if negb (encSz =? DHKEM_P256_ENC_LEN) then mret (BAD_FUNC_ARG, pt)
    else if ctSz <? 17 then mret (BAD_FUNC_ARG, pt)
    else if (infoSz =? 0) || (aadSz =? 0) then mret (BAD_FUNC_ARG, pt)
    else
      same ← (if infoSz =? aadSz then memeq inf ad (w32 infoSz) else mret false);
      if same : bool then mret (BAD_FUNC_ARG, pt)
      else if ptCap <? ctSz - 16 then mret (BUFFER_E, pt)
      else
        ret ← zt_hpke_init;
        if negb (ret =? 0) then mret (ret, pt)
        else
          '(ret, hpke) ← wc_HpkeInit hpke_zero DHKEM_P256_HKDF_SHA256 HKDF_SHA256 HPKE_AES_128_GCM;
          if negb (ret =? 0) then mret (ret, pt)
          else
            '(ret, p) ← open_with hpke bridge rcp recipientSz en encSz inf infoSz ad aadSz c ctSz p;
            let _ := hpke_zero in
            mret (ret, Some p)
  | _, _, _, _, _, _ => mret (BAD_FUNC_ARG, pt)
  end.

(** zrotext_hpke_core.c:225-243, [zt_hpke_seal_cek]: with the suite set up. *)
Definition seal_with (hpke : Hpke) (bridge : Z) (ephemeral : bytes) (ephemeralSz : Z) (recipient : bytes)
    (recipientSz : Z) (cek : bytes) (info : bytes) (infoSz : Z) (aad : bytes) (aadSz : Z) (ct : bytes) : M (Z * bytes) :=
  let '(ret, ephemeralKey) := wc_ecc_init_ex ecc_key_zero ZT_HPKE_DEVID in
  if negb (ret =? 0) then mret (ret, ct)
  else
    let ephemeralKey := set_device bridge (ek_devId ephemeralKey) (ek_rng ephemeralKey) ephemeralKey in
    let '(ret, recipientKey) := wc_ecc_init_ex ecc_key_zero INVALID_DEVID in
    if negb (ret =? 0) then let _ := wc_ecc_free ephemeralKey in mret (ret, ct)
    else
      '(ret, ephemeralKey) ← wc_ecc_import_x963_ex (Some ephemeral) (w32 ephemeralSz) ephemeralKey ECC_SECP256R1;
      '(ret, recipientKey) ←
        (if ret =? 0 then wc_ecc_import_x963_ex (Some recipient) (w32 recipientSz) recipientKey ECC_SECP256R1
         else mret (ret, recipientKey));
      '(ret, ephemeralKey, o) ←
        (if ret =? 0 then wc_HpkeSealBase hpke ephemeralKey recipientKey (Some info) (w32 infoSz) (Some aad) (w32 aadSz)
                            (Some cek) 32 (Some ct)
         else mret (ret, ephemeralKey, Some ct));
      let _ := (wc_ecc_free recipientKey, wc_ecc_free ephemeralKey) in
      mret (ret, default ct o).

(** zrotext_hpke_core.c:194-249, [zt_hpke_seal_cek] *)
Definition zt_hpke_seal_cek (bridge : Z) (ephemeral : option bytes) (ephemeralSz : Z) (recipient : option bytes)
    (recipientSz : Z) (cek : option bytes) (cekSz : Z) (info : option bytes) (infoSz : Z) (aad : option bytes) (aadSz : Z)
    (ct : option bytes) (ctCap : Z) : M (Z * option bytes) :=
  match ephemeral, recipient, cek, info, aad, ct with
  | Some eph, Some rcp, Some ck, Some inf, Some ad, Some c =>
    if (bridge =? 0) || bool_decide (br_agree (bridge_at bridge) = None) || negb (ephemeralSz =? 65) ||
       negb (recipientSz =? 65) || negb (cekSz =? 32) || (infoSz =? 0) || (aadSz =? 0) || (1024 <? infoSz) ||
       (1024 <? aadSz) then mret (BAD_FUNC_ARG, ct)
    else
      same ← (if infoSz =? aadSz then memeq inf ad (w32 infoSz) else mret false);
      if same : bool then mret (BAD_FUNC_ARG, ct)
      else if ctCap <? 48 then mret (BUFFER_E, ct)
      else
        c ← wr c 0 (zeros 48);
        ret ← zt_hpke_init;
        if negb (ret =? 0) then mret (ret, Some c)
        else
          '(ret, hpke) ← wc_HpkeInit hpke_zero DHKEM_P256_HKDF_SHA256 HKDF_SHA256 HPKE_AES_128_GCM;
          if negb (ret =? 0) then mret (ret, Some c)
          else
            '(ret, c) ← seal_with hpke bridge eph ephemeralSz rcp recipientSz ck inf infoSz ad aadSz c;
            let _ := hpke_zero in
            c ← (if negb (ret =? 0) then wr c 0 (zeros 48) else mret c);
            mret (ret, Some c)
  | _, _, _, _, _, _ => mret (BAD_FUNC_ARG, ct)
  end.
End Core.

(** ** The bridge's contract *)

(** What the header asks of a bridge: for the peer's point [peer] it stores a
    secret related to it by [D] and returns 0, or returns an error in [E]; it
    leaves the buffer's size alone and keeps no memory. *)
Class BridgeContract (e : env) (x : mode) (br : zt_hpke_bridge) (D : bytes -> bytes -> Prop) (E : Z -> Prop) : Prop :=
  bridge_agrees : exists agree, br_agree br = Some agree /\
    forall peer out, is_point 32 peer -> bytes_ok out -> len out = 32 ->
    calc_in x e 0 (agree (br_ctx br) peer out)
      (fun r => len r.2 = 32 /\ bytes_ok r.2 /\ ((r.1 = 0 /\ D peer r.2) \/ (r.1 <> 0 /\ E r.1))).

(** The code the library makes of an error of the bridge: the two that mean that
    there is no device are reported as such. *)
Definition bridge_code (rc : Z) : Z :=
  if (rc =? NOT_COMPILED_IN) || (rc =? CRYPTOCB_UNAVAILABLE) then NO_VALID_DEVID else rc.

Lemma bridge_code_nonzero rc : rc <> 0 -> bridge_code rc <> 0.
Proof. unfold bridge_code. by destruct (_ || _). Qed.

(** The errors a key agreement through the bridge ends in. *)
Definition bridge_err (e : env) (E : Z -> Prop) (ret : Z) : Prop := oom e \/ exists rc, E rc /\ ret = bridge_code rc.

Section Specs.
Context (bridge_at : Z -> zt_hpke_bridge) (others : nat -> Z -> forall i, Z -> M (Z * reply i)) (e : env)
  (tbl : list CryptoCb).
#[local] Existing Instance core_callbacks.
#[local] Notation cbs := (core_callbacks bridge_at others).

(** The device is registered. *)
Definition zt_device (tbl : list CryptoCb) : Prop :=
  table_ok tbl /\ devices tbl !! ZT_HPKE_DEVID = Some (Some ZtEcdhCallback, 0).

Definition here : mode := Mode true (Some tbl).

#[local] Instance may_call_here : MayCall here := eq_refl.

Hypothesis Hdev : zt_device tbl.

Lemma dispatch_here i Q :
  calc_in here e 0 (zt_ecdh_callback bridge_at ZT_HPKE_DEVID i 0) (fun r => Q (wc_CryptoCb_TranslateErrorCode r.1, r.2)) ->
  calc_in here e 0 (cb_dispatch (H := cbs) ZT_HPKE_DEVID i) Q.
Proof.
  intros Hc w He Hm Hd. unfold wp. cbn in Hm. rewrite (dispatch_present (H := cbs) _ _ _ ZtEcdhCallback 0); [|by rewrite Hm; apply Hdev..].
  change (invoke ZtEcdhCallback ZT_HPKE_DEVID i 0) with (zt_ecdh_callback bridge_at ZT_HPKE_DEVID i 0).
  specialize (Hc w He Hm Hd). unfold wp, mbind, M_bind in *. by destruct (zt_ecdh_callback _ _ _ _ w) as [[ret r] w'|].
Qed.

Context (D : bytes -> bytes -> Prop) (E : Z -> Prop).

Lemma ask_bridge_spec br agree peer pt : br_agree br = Some agree -> BridgeContract e here br D E -> pub_key pt peer ->
  calc_in here e 0 (ask_bridge br agree peer (zeros 32) 32)
    (fun r => len r.2.1 = 32 /\ bytes_ok r.2.1 /\
      ((r.1 = 0 /\ r.2.2 = 32 /\ D pt r.2.1) \/ (r.1 <> 0 /\ (oom e \/ E r.1)))).
Proof.
  intros Ha (agree' & Ha' & Hbr) [Hp Hh]. rewrite Ha in Ha'. injection Ha' as <-. unfold ask_bridge. change DHKEM_P256_ENC_LEN with 65.
  eapply calc_bind; [apply calc_lift, (export_x963_spec e peer 2 ecc_secp256r1 pt (zeros 65) 65); done|].
  assert (len pt = 65) as Lp by apply Hp.
  intros r [->|[-> Ho]]; [|calc_steps; split; [done|]; split; [apply bytes_ok_zeros|]; right; by split; [|left]].
  change (1 + 2 * ecc_size ecc_secp256r1) with 65. cbn [default from_option id]. eval_tests.
  rewrite splice_full by (unfold len in Lp; change (length (zeros 65)) with 65%nat; lia).
  eapply calc_bind; [apply Hbr; [done|apply bytes_ok_zeros|done]|].
  intros [rc o] (Lo & Oo & [[Hr HD]|[Hr HE]]); cbn [fst snd] in *.
  - subst rc. eval_tests. calc_step. split; [done|]. split; [done|]. by left.
  - rewrite (proj2 (Z.eqb_neq rc 0)) by done. cbn [negb orb]. calc_step. split; [done|]. split; [done|]. right. by split; [|right].
Qed.

Lemma agreement_here b priv pub pkP ptP : b <> 0 -> BridgeContract e here (bridge_at b) D E ->
  pub_key pkP priv -> ek_devId priv = ZT_HPKE_DEVID -> ek_devCtx priv = b -> pub_key ptP pub ->
  agreement (H := cbs) e (x := here) (D ptP) (bridge_err e E) priv pub.
Proof.
  intros Hb Hbr [_ Hp] Hid Hctx Hq. unfold agreement, wc_ecc_shared_secret.
  change (ek_devId (wc_ecc_set_rng priv true).2) with (ek_devId priv). rewrite Hid.
  change (negb (ZT_HPKE_DEVID =? INVALID_DEVID)) with true. cbv iota. unfold wc_CryptoCb_Ecdh.
  change (ek_devId (wc_ecc_set_rng priv true).2) with (ek_devId priv). rewrite Hid.
  pose proof Hbr as (agree & Ha & _).
  apply (calc_bind _ _ _ _ (fun r : Z * (bytes * Z) => len r.2.1 = 32 /\ bytes_ok r.2.1 /\
    ((r.1 = 0 /\ r.2.2 = 32 /\ D ptP r.2.1) \/
     exists rc, r.1 = wc_CryptoCb_TranslateErrorCode rc /\ rc <> 0 /\ (oom e \/ E rc)))).
  { refine (dispatch_here (Pk_ecdh (wc_ecc_set_rng priv true).2 pub (zeros 32) 32) _ _). cbn [zt_ecdh_callback]. unfold answer_ecdh. change (ek_dp (wc_ecc_set_rng priv true).2) with (ek_dp priv).
    change (ek_devCtx (wc_ecc_set_rng priv true).2) with (ek_devCtx priv).
    rewrite (hp_dp _ _ _ _ Hp), (hp_dp _ _ _ _ (proj2 Hq)), Hctx, (proj2 (Z.eqb_neq b 0)), Ha by done.
    change (ecc_id ecc_secp256r1 =? ECC_SECP256R1) with true. change (32 <? 32) with false. cbn [negb orb].
    eapply calc_mono; [exact (ask_bridge_spec _ agree pub ptP Ha Hbr Hq)|]. cbn [fst snd].
    intros [rc [o n]] (Lo & Oo & [(Hr & Hn & HD)|[Hr HE]]); cbn [fst snd] in *; (split; [done|]); (split; [done|]).
    - left. by subst rc.
    - right. by exists rc. }
  intros [ret [o n]] (Lo & Oo & [(Hr & Hn & HD)|(rc & Hr & Hn & HE)]); cbn [fst snd] in *; subst ret.
  - eval_tests. calc_step. left. done.
  - assert (bridge_err e E (bridge_code rc)) as HF by (destruct HE; [by left|right; eauto]).
    apply bridge_code_nonzero in Hn. revert HF Hn. unfold wc_CryptoCb_TranslateErrorCode, bridge_code.
    destruct (rc =? NOT_COMPILED_IN); [|destruct (Z.eqb_spec rc CRYPTOCB_UNAVAILABLE) as [->|]];
      cbn [orb negb]; eval_tests; intros HF Hn; calc_step; by right.
Qed.

(** ** Opening *)

Lemma refused_nonzero pt : refused_code pt <> 0.
Proof. unfold refused_code. by destruct (_ || _). Qed.

(** A key the core makes for the bridge at [b] (0: none) under the device id. *)
Lemma import_spec b devId pt : bytes_ok pt -> len pt = 65 ->
  let key := (wc_ecc_init_ex ecc_key_zero devId).2 in
  calc e 0 (wc_ecc_import_x963_ex (Some pt) 65 (set_device b (ek_devId key) (ek_rng key) key) ECC_SECP256R1)
    (fun r => (r.1 = 0 /\ pub_key pt r.2 /\ ek_devId r.2 = devId /\ ek_devCtx r.2 = b) \/
              (pt !!! 0%nat <> ECC_POINT_UNCOMP /\ r.1 = refused_code pt)).
Proof.
  intros Op Lp key. destruct (wc_ecc_init_ex_spec ecc_key_zero devId) as (key' & E0 & Hr & Hb & _).
  assert (key = key') as -> by (unfold key; by rewrite E0). set (k := set_device _ _ _ _).
  assert (key_ready k) as Hk by (destruct Hr; by split). rewrite <-Lp.
  destruct (decide (pt !!! 0%nat = ECC_POINT_UNCOMP)) as [E4|E4].
  - assert (is_point 32 pt) as Hp by (split; [done|by rewrite Lp|done]).
    eapply calc_mono; [apply (import_x963_spec e k 2 ecc_secp256r1 pt); done|].
    intros [ret key1] (Hx & Hh & Hbd). left. split; [done|]. split; [by split|]. unfold binding in Hbd, Hb.
    injection Hb as Hb1 Hb2 Hb3. injection Hbd as H1 H2 H3. cbn in *. by rewrite H1, H2, Hb2.
  - eapply calc_mono; [apply (import_x963_refused e k ECC_SECP256R1 pt 32); done|].
    intros [ret key1] (Hx & _). right. done.
Qed.

Context (Hos : os_sane e).

Definition open_err (recipient enc info : bytes) (ret : Z) : Prop :=
  setup_err (decap_err (bridge_err e E) enc) info ret \/
  (recipient !!! 0%nat <> ECC_POINT_UNCOMP /\ ret = refused_code recipient).

(** The context both parties derive for a secret [dh]. *)
Definition core_context (dh enc recipient info : bytes) : Rfc9180.context :=
  Rfc9180.KeySchedule HPKE_AES_128_GCM 16 (Rfc9180.shared_secret dh enc recipient) info.

(** The answer of an opening: under the secret the bridge gave for [enc], the
    plaintext of the standard, or an authentication error and zeros; otherwise
    an error and the buffer as it was. *)
Definition open_result (recipient enc info aad ct tag pt : bytes) (r : Z * bytes) : Prop :=
  (is_point 32 recipient /\ is_point 32 enc /\ len info <= max_info /\ exists dh, D enc dh /\
   match Rfc9180.Open (core_context dh enc recipient info) 0 aad ct tag with
   | Some p => r = (0, splice pt 0 p)
   | None => r = (AES_GCM_AUTH_E, splice pt 0 (zeros (len ct)))
   end) \/
  (r.1 <> 0 /\ r.2 = pt /\ (entropy_ok e -> oom e \/ open_err recipient enc info r.1)).

Lemma aes128 : aead_ok HPKE_AES_128_GCM 16.
Proof. by left. Qed.

Lemma open_with_spec b recipient enc info aad ct tag pt : b <> 0 -> BridgeContract e here (bridge_at b) D E ->
  bytes_ok recipient -> len recipient = 65 -> bytes_ok enc -> len enc = 65 ->
  bytes_ok info -> len info < 2 ^ 32 -> bytes_ok aad -> len aad < 2 ^ 32 ->
  bytes_ok ct -> bytes_ok tag -> len tag = 16 -> len ct + 16 < 2 ^ 32 -> bytes_ok pt -> len ct <= len pt ->
  calc_in here e 0 (open_with bridge_at others (suite HPKE_AES_128_GCM 16) b recipient 65 enc 65 info (len info) aad (len aad) (ct ++ tag)
                      (len (ct ++ tag)) pt)
    (open_result recipient enc info aad ct tag pt).
Proof.
  intros Hb Hbr Or Lr Oe Le Oi Li Oa La Oc Ot Lt Lc Op Lp. unfold open_with.
  pose proof (import_spec b ZT_HPKE_DEVID recipient Or Lr) as Himp. set (init := wc_ecc_init_ex ecc_key_zero ZT_HPKE_DEVID) in *.
  assert (init = (0, init.2)) as -> by reflexivity. cbv zeta in Himp. set (key := init.2) in *. clearbody key. clear init.
  pose proof (len_nonneg info). pose proof (len_nonneg aad). pose proof (len_nonneg ct).
  change (negb (0 =? 0)) with false. change (w32 65) with 65. change (w16 65) with 65. cbv iota zeta.
  replace (len (ct ++ tag) - 16) with (len ct) by (rewrite len_app; lia). rewrite !w32_id by lia.
  eapply calc_bind; [apply calc_lift, Himp|].
  intros [ret k] [(Hx & Hk & Hid & Hctx)|[E4 Hx]]; cbn [fst snd] in *; subst ret.
  2:{ pose proof (refused_nonzero recipient) as Hn. rewrite (proj2 (Z.eqb_neq _ 0)) by done. calc_step. right. cbn [fst snd]. split; [done|]. split; [done|]. intros _. right. by right. }
  change (0 =? 0) with true. cbv iota.
  eapply calc_bind; [apply (OpenBase_spec (H := core_callbacks bridge_at others) e (x := here) HPKE_AES_128_GCM 16 aes128 Hos (D enc) (bridge_err e E)
    (Some info) Oi k enc recipient (Some aad) ct tag pt Hk); try done; try lia|].
  - by rewrite Hid.
  - intros eph Heph. by apply (agreement_here b k eph recipient enc).
  - intros [[ret k'] o] (-> & [(Hpe & Hmax & dh & HD & Hm)|[[Hret Hf] ->]]); calc_step.
    + left. split; [apply Hk|]. split; [done|]. split; [done|]. exists dh. split; [done|]. unfold core_context.
      cbn [default from_option id shared_context] in Hm. unfold shared_context in Hm. cbn [default from_option id] in Hm.
      destruct (Rfc9180.Open _ _ _ _ _); destruct Hm as [-> ->]; done.
    + right. cbn [fst snd default from_option id]. split; [done|]. split; [done|]. intros He. destruct (Hf He) as [?|Hg]; [by left|]. right. by left.
Qed.

(** ** Sealing *)

Definition seal_err (ephemeral recipient info : bytes) (ret : Z) : Prop :=
  setup_err (bridge_err e E) info ret \/
  (ephemeral !!! 0%nat <> ECC_POINT_UNCOMP /\ ret = refused_code ephemeral) \/
  (recipient !!! 0%nat <> ECC_POINT_UNCOMP /\ ret = refused_code recipient).

Definition seal_result (ephemeral recipient info aad cek ct : bytes) (r : Z * bytes) : Prop :=
  (r.1 = 0 /\ is_point 32 ephemeral /\ is_point 32 recipient /\ len info <= max_info /\ exists dh, D recipient dh /\
   r.2 = splice ct 0 (Rfc9180.Seal (core_context dh ephemeral recipient info) 0 aad cek)) \/
  (r.1 <> 0 /\ r.2 = ct /\ (entropy_ok e -> oom e \/ seal_err ephemeral recipient info r.1)).

Lemma seal_with_spec b ephemeral recipient cek info aad ct : b <> 0 -> BridgeContract e here (bridge_at b) D E ->
  bytes_ok ephemeral -> len ephemeral = 65 -> bytes_ok recipient -> len recipient = 65 ->
  bytes_ok info -> len info < 2 ^ 32 -> bytes_ok aad -> len aad < 2 ^ 32 ->
  bytes_ok cek -> len cek = 32 -> bytes_ok ct -> 48 <= len ct ->
  calc_in here e 0 (seal_with bridge_at others (suite HPKE_AES_128_GCM 16) b ephemeral 65 recipient 65 cek info (len info) aad (len aad) ct)
    (seal_result ephemeral recipient info aad cek ct).
Proof.
  intros Hb Hbr Oe Le Or Lr Oi Li Oa La Oc Lc Oo Lo. unfold seal_with.
  pose proof (import_spec b ZT_HPKE_DEVID ephemeral Oe Le) as Hi1.
  pose proof (import_spec 0 INVALID_DEVID recipient Or Lr) as Hi2.
  change (set_device 0 _ _ _) with (wc_ecc_init_ex ecc_key_zero INVALID_DEVID).2 in Hi2. cbv zeta in Hi1, Hi2.
  set (init1 := wc_ecc_init_ex ecc_key_zero ZT_HPKE_DEVID) in *. set (init2 := wc_ecc_init_ex ecc_key_zero INVALID_DEVID) in *.
  assert (init1 = (0, init1.2)) as -> by reflexivity. assert (init2 = (0, init2.2)) as -> by reflexivity.
  cbn [snd] in Hi1, Hi2. set (key1 := init1.2) in *. set (key2 := init2.2) in *. clearbody key1 key2. clear init1 init2.
  pose proof (len_nonneg info). pose proof (len_nonneg aad).
  change (negb (0 =? 0)) with false. change (w32 65) with 65. cbv iota zeta. rewrite !w32_id by lia.
  eapply calc_bind; [apply calc_lift, Hi1|].
  intros [ret k1] [(Hx & Hk1 & Hid1 & Hctx1)|[E4 Hx]]; cbn [fst snd] in *; subst ret; pose proof (refused_nonzero ephemeral) as Hn1.
  2:{ rewrite (proj2 (Z.eqb_neq _ 0)) by done. calc_step. rewrite (proj2 (Z.eqb_neq _ 0)) by done. do 2 calc_step. right. cbn [fst snd].
      split; [done|]. split; [done|]. intros _. right. right. by left. }
  change (0 =? 0) with true. cbv iota. eapply calc_bind; [apply calc_lift, Hi2|]. pose proof (refused_nonzero recipient) as Hn2.
  intros [ret k2] [(Hx & Hk2 & _)|[E4 Hx]]; cbn [fst snd] in *; subst ret.
  2:{ rewrite (proj2 (Z.eqb_neq _ 0)) by done. do 2 calc_step. right. cbn [fst snd]. split; [done|]. split; [done|]. intros _. right. right. by right. }
  change (0 =? 0) with true. cbv iota. rewrite <-Lc.
  eapply calc_bind; [apply (SealBase_spec (H := core_callbacks bridge_at others) e (x := here) HPKE_AES_128_GCM 16 aes128 Hos (D recipient)
    (bridge_err e E) (Some info) Oi k1 k2 ephemeral recipient (Some aad) cek ct Hk1 Hk2); try done; try lia|].
  - by apply (agreement_here b k1 k2 ephemeral recipient).
  - intros [[ret k'] o] (-> & [(-> & Hmax & dh & HD & ->)|[[Hret Hf] ->]]); calc_step.
    + left. split; [done|]. split; [apply Hk1|]. split; [apply Hk2|]. split; [done|]. by exists dh.
    + right. cbn [fst snd default from_option id]. split; [done|]. split; [done|]. intros He. destruct (Hf He) as [?|Hg]; [by left|]. right. by left.
Qed.
End Specs.

(** ** Registration *)

(** The core's static flag says whether its device is in the table. *)
Definition core_inv (w : world) : Prop :=
  table_ok (gCryptoDev w) /\
  (zt_device_registered w = 0 \/ (zt_device_registered w = 1 /\ zt_device (gCryptoDev w))).

(** Only the registration changes. *)
Definition only_registers (w w' : world) : Prop :=
  exists tbl r, w' = set_registered r (set_devs tbl w).

(** Registration is impossible: the id is taken, or the table is full. *)
Definition cannot_register (w : world) : Prop :=
  zt_device_registered w = 0 /\
  (is_Some (devices (gCryptoDev w) !! ZT_HPKE_DEVID) \/ Forall (fun d => cc_devId d <> INVALID_DEVID) (gCryptoDev w)).

Lemma set_same w : set_registered (zt_device_registered w) (set_devs (gCryptoDev w) w) = w.
Proof. by destruct w. Qed.

Lemma init_spec w : core_inv w ->
  wp zt_hpke_init (fun ret w' => core_inv w' /\ only_registers w w' /\
    ((ret = 0 /\ zt_device_registered w' = 1 /\ zt_device (gCryptoDev w')) \/
     (ret = BAD_STATE_E /\ w' = w /\ cannot_register w))) w.
Proof.
  intros [Hok Hreg]. unfold wp, zt_hpke_init, get, mbind, M_bind, modify, mret, M_ret. destruct Hreg as [Hr|[Hr Hd]]; rewrite Hr.
  - change (0 =? 0) with true. cbv iota. destruct (wc_CryptoCb_RegisterDevice _ _ _ _) as [ret tbl] eqn:Er.
    destruct (RegisterDevice_spec _ _ _ _ _ _ Hok Er) as [Hok' Hcase].
    destruct Hcase as [(-> & _ & _ & Hdv)|[(-> & Hbad & _)|[(-> & Ht & ->)|(-> & _ & -> & Hfull)]]].
    + change (negb (0 =? 0)) with false. cbv iota. set (w' := set_registered 1 (set_devs tbl w)).
      assert (zt_device (gCryptoDev w')) as Hz by (split; [done|]; change (gCryptoDev w') with tbl; rewrite Hdv; apply lookup_insert_eq).
      split; [split; [apply Hok'|by right]|]. split; [by exists tbl, 1|]. by left.
    + done.
    + assert (set_devs (gCryptoDev w) w = w) as -> by (by destruct w). change (negb (ALREADY_E =? 0)) with true. cbv iota.
      split; [split; [done|by left]|]. split; [exists (gCryptoDev w), (zt_device_registered w); by rewrite set_same|].
      right. split; [done|]. split; [done|]. split; [done|by left].
    + assert (set_devs (gCryptoDev w) w = w) as -> by (by destruct w). change (negb (BUFFER_E =? 0)) with true. cbv iota.
      split; [split; [done|by left]|]. split; [exists (gCryptoDev w), (zt_device_registered w); by rewrite set_same|].
      right. split; [done|]. split; [done|]. split; [done|by right].
  - change (1 =? 0) with false. cbv iota. split; [split; [done|by right]|].
    split; [exists (gCryptoDev w), (zt_device_registered w); by rewrite set_same|]. by left.
Qed.

Lemma deinit_spec w : core_inv w ->
  wp zt_hpke_deinit (fun _ w' => core_inv w' /\ only_registers w w' /\ devices (gCryptoDev w') !! ZT_HPKE_DEVID = None) w.
Proof.
  intros [Hok _]. unfold wp, zt_hpke_deinit, mbind, M_bind, modify. destruct (UnRegisterDevice_spec _ ZT_HPKE_DEVID Hok) as [Hok' Hd].
  split; [split; [done|by left]|]. split; [by eexists _, 0|].
  cbn [gCryptoDev set_registered set_devs]. rewrite Hd. apply lookup_delete_eq.
Qed.

(** ** Framing *)

(** The profile's conditions on the arguments of [zt_hpke_open]. *)
Definition open_profile (bridge : Z) (recipient : option bytes) (recipientSz : Z) (enc : option bytes) (encSz : Z)
    (ct : option bytes) (ctSz : Z) (info : option bytes) (infoSz : Z) (aad : option bytes) (aadSz : Z)
    (pt : option bytes) : Prop :=
  bridge <> 0 /\ recipient <> None /\ recipientSz = 65 /\ enc <> None /\ encSz = 65 /\
  ct <> None /\ 17 <= ctSz <= INT_MAX /\ info <> None /\ 0 < infoSz <= INT_MAX /\ aad <> None /\ 0 < aadSz <= INT_MAX /\
  pt <> None /\
  (infoSz = aadSz -> take (Z.to_nat infoSz) (default [] info) <> take (Z.to_nat aadSz) (default [] aad)).

Lemma memeq_spec a b n w : 0 <= n -> n <= len a -> n <= len b ->
  memeq a b n w = Ok (bool_decide (take (Z.to_nat n) a = take (Z.to_nat n) b)) w.
Proof.
  intros Hn Ha Hb. unfold memeq, rd, assert, mbind, M_bind, mret, M_ret. cbn [Z.leb]. rewrite (proj2 (Z.leb_le 0 n)) by lia.
  rewrite (proj2 (Z.leb_le (0 + n) (len a))), (proj2 (Z.leb_le (0 + n) (len b))) by lia. reflexivity.
Qed.

(** The comparison of info and additional data. *)
Lemma same_spec {A} inf ad infoSz aadSz (k : bool -> M A) w :
  0 <= infoSz <= INT_MAX -> infoSz <= len inf -> aadSz <= len ad ->
  ((if infoSz =? aadSz then memeq inf ad (w32 infoSz) else mret false) ≫= k) w =
  k (bool_decide (infoSz = aadSz /\ take (Z.to_nat infoSz) inf = take (Z.to_nat aadSz) ad)) w.
Proof.
  unfold INT_MAX. intros Hi Li La. unfold mbind, M_bind. destruct (Z.eqb_spec infoSz aadSz) as [<-|Hne].
  - rewrite w32_id, memeq_spec by lia.
    by rewrite (bool_decide_ext _ (infoSz = infoSz /\ take (Z.to_nat infoSz) inf = take (Z.to_nat infoSz) ad)) by tauto.
  - rewrite bool_decide_false by tauto. reflexivity.
Qed.

(** Wherever a pointer is given, its buffer has the size passed with it. *)
Definition holds (p : option bytes) (n : Z) : Prop := 0 <= n /\ forall d, p = Some d -> n <= len d.

Section Cases.
Context (bridge_at : Z -> zt_hpke_bridge) (others : nat -> Z -> forall i, Z -> M (Z * reply i)).

(** What the guards of [zt_hpke_open] leave to do. *)
Definition open_rest (bridge : Z) (rcp en c inf ad p : bytes) (ctSz infoSz aadSz : Z) : M (Z * option bytes) :=
  ret ← zt_hpke_init;
  if negb (ret =? 0) then mret (ret, Some p)
  else
    '(ret, hpke) ← wc_HpkeInit hpke_zero DHKEM_P256_HKDF_SHA256 HKDF_SHA256 HPKE_AES_128_GCM;
    if negb (ret =? 0) then mret (ret, Some p)
    else '(ret, p) ← open_with bridge_at others hpke bridge rcp 65 en 65 inf infoSz ad aadSz c ctSz p; mret (ret, Some p).

Lemma open_cases bridge recipient recipientSz enc encSz ct ctSz info infoSz aad aadSz pt ptCap w :
  0 <= ctSz -> holds info infoSz -> holds aad aadSz ->
  let P := open_profile bridge recipient recipientSz enc encSz ct ctSz info infoSz aad aadSz pt in
  let m := zt_hpke_open bridge_at others bridge recipient recipientSz enc encSz ct ctSz info infoSz aad aadSz pt ptCap w in
  (~ P /\ m = Ok (BAD_FUNC_ARG, pt) w) \/ (P /\ ptCap < ctSz - 16 /\ m = Ok (BUFFER_E, pt) w) \/
  (P /\ ctSz - 16 <= ptCap /\ exists rcp en c inf ad p, recipient = Some rcp /\ enc = Some en /\ ct = Some c /\
    info = Some inf /\ aad = Some ad /\ pt = Some p /\ m = open_rest bridge rcp en c inf ad p ctSz infoSz aadSz w).
Proof.
  intros Hc [Hi0 Hi] [Ha0 Ha] P m. subst m. unfold zt_hpke_open.
  destruct recipient as [rcp|], enc as [en|], ct as [c|], info as [inf|], aad as [ad|], pt as [p|];
    try (left; split; [unfold P, open_profile; tauto|reflexivity]).
  specialize (Hi inf eq_refl). specialize (Ha ad eq_refl). change DHKEM_P256_ENC_LEN with 65. unfold INT_MAX, P, open_profile, INT_MAX.
  destruct (Z.eqb_spec bridge 0) as [->|Hb]; [left; split; [tauto|reflexivity]|].
  destruct (Z.ltb_spec 0x7fffffff recipientSz); [left; split; [lia|reflexivity]|].
  destruct (Z.ltb_spec 0x7fffffff encSz); [left; split; [lia|reflexivity]|].
  destruct (Z.ltb_spec 0x7fffffff ctSz); [left; split; [lia|reflexivity]|].
  destruct (Z.ltb_spec 0x7fffffff infoSz); [left; split; [lia|reflexivity]|].
  destruct (Z.ltb_spec 0x7fffffff aadSz); [left; split; [lia|reflexivity]|]. cbn [orb].
  destruct (Z.eqb_spec recipientSz 65) as [->|]; [|left; split; [lia|reflexivity]].
  destruct (Z.eqb_spec encSz 65) as [->|]; [|left; split; [lia|reflexivity]]. cbn [negb].
  destruct (Z.ltb_spec ctSz 17); [left; split; [lia|reflexivity]|].
  destruct (Z.eqb_spec infoSz 0); [left; split; [lia|reflexivity]|].
  destruct (Z.eqb_spec aadSz 0); [left; split; [lia|reflexivity]|]. cbn [orb].
  set (same := if infoSz =? aadSz then _ else _).
  assert (forall k : bool -> M (Z * option bytes), (same ≫= k) w =
    k (bool_decide (infoSz = aadSz /\ take (Z.to_nat infoSz) inf = take (Z.to_nat aadSz) ad)) w) as Hsame.
  { intros k. apply same_spec; unfold INT_MAX; lia. }
  rewrite !Hsame. clear same Hsame.
  destruct (bool_decide_reflect (infoSz = aadSz /\ take (Z.to_nat infoSz) inf = take (Z.to_nat aadSz) ad)) as [Heq|Hneq].
  { left. split; [cbn [default from_option id]; tauto|reflexivity]. }
  assert (Hprof : open_profile bridge (Some rcp) 65 (Some en) 65 (Some c) ctSz (Some inf) infoSz (Some ad) aadSz (Some p)).
  { unfold open_profile, INT_MAX. repeat split; try done; try lia. cbn [default from_option id]. tauto. }
  unfold open_profile, INT_MAX in Hprof.
  destruct (Z.ltb_spec ptCap (ctSz - 16)); right; [left; split; [done|]; split; [lia|reflexivity]|].
  right. split; [done|]. split; [lia|]. exists rcp, en, c, inf, ad, p. do 6 (split; [done|]). reflexivity.
Qed.
End Cases.

(** ** Sealing: the guards *)

Section SealCases.
Context (bridge_at : Z -> zt_hpke_bridge) (others : nat -> Z -> forall i, Z -> M (Z * reply i)).

(** The profile's conditions on the arguments of [zt_hpke_seal_cek]. *)
Definition seal_profile (bridge : Z) (ephemeral : option bytes) (ephemeralSz : Z) (recipient : option bytes)
    (recipientSz : Z) (cek : option bytes) (cekSz : Z) (info : option bytes) (infoSz : Z) (aad : option bytes) (aadSz : Z)
    (ct : option bytes) : Prop :=
  bridge <> 0 /\ br_agree (bridge_at bridge) <> None /\ ephemeral <> None /\ ephemeralSz = 65 /\ recipient <> None /\
  recipientSz = 65 /\ cek <> None /\ cekSz = 32 /\ info <> None /\ 0 < infoSz <= 1024 /\ aad <> None /\
  0 < aadSz <= 1024 /\ ct <> None /\
  (infoSz = aadSz -> take (Z.to_nat infoSz) (default [] info) <> take (Z.to_nat aadSz) (default [] aad)).

(** What the guards of [zt_hpke_seal_cek] leave to do. *)
Definition seal_rest (bridge : Z) (eph rcp ck inf ad c : bytes) (infoSz aadSz : Z) : M (Z * option bytes) :=
  c ← wr c 0 (zeros 48);
  ret ← zt_hpke_init;
  if negb (ret =? 0) then mret (ret, Some c)
  else
    '(ret, hpke) ← wc_HpkeInit hpke_zero DHKEM_P256_HKDF_SHA256 HKDF_SHA256 HPKE_AES_128_GCM;
    if negb (ret =? 0) then mret (ret, Some c)
    else
      '(ret, c) ← seal_with bridge_at others hpke bridge eph 65 rcp 65 ck inf infoSz ad aadSz c;
      c ← (if negb (ret =? 0) then wr c 0 (zeros 48) else mret c);
      mret (ret, Some c).

Lemma seal_cases bridge ephemeral ephemeralSz recipient recipientSz cek cekSz info infoSz aad aadSz ct ctCap w :
  holds info infoSz -> holds aad aadSz ->
  let P := seal_profile bridge ephemeral ephemeralSz recipient recipientSz cek cekSz info infoSz aad aadSz ct in
  let m := zt_hpke_seal_cek bridge_at others bridge ephemeral ephemeralSz recipient recipientSz cek cekSz info infoSz aad aadSz ct ctCap w in
  (~ P /\ m = Ok (BAD_FUNC_ARG, ct) w) \/ (P /\ ctCap < 48 /\ m = Ok (BUFFER_E, ct) w) \/
  (P /\ 48 <= ctCap /\ exists eph rcp ck inf ad c, ephemeral = Some eph /\ recipient = Some rcp /\ cek = Some ck /\
    info = Some inf /\ aad = Some ad /\ ct = Some c /\ m = seal_rest bridge eph rcp ck inf ad c infoSz aadSz w).
Proof.
  intros [Hi0 Hi] [Ha0 Ha] P m. subst m. unfold zt_hpke_seal_cek.
  destruct ephemeral as [eph|], recipient as [rcp|], cek as [ck|], info as [inf|], aad as [ad|], ct as [c|];
    try (left; split; [unfold P, seal_profile; tauto|reflexivity]).
  specialize (Hi inf eq_refl). specialize (Ha ad eq_refl). unfold P, seal_profile.
  destruct (Z.eqb_spec bridge 0) as [->|Hb]; [left; split; [tauto|reflexivity]|].
  destruct (bool_decide_reflect (br_agree (bridge_at bridge) = None)) as [Hn|Hn]; [left; split; [tauto|reflexivity]|].
  destruct (Z.eqb_spec ephemeralSz 65) as [->|]; [|left; split; [lia|reflexivity]].
  destruct (Z.eqb_spec recipientSz 65) as [->|]; [|left; split; [lia|reflexivity]].
  destruct (Z.eqb_spec cekSz 32) as [->|]; [|left; split; [lia|reflexivity]].
  destruct (Z.eqb_spec infoSz 0); [left; split; [lia|reflexivity]|].
  destruct (Z.eqb_spec aadSz 0); [left; split; [lia|reflexivity]|].
  destruct (Z.ltb_spec 1024 infoSz); [left; split; [lia|reflexivity]|].
  destruct (Z.ltb_spec 1024 aadSz); [left; split; [lia|reflexivity]|]. cbn [orb negb].
  set (same := if infoSz =? aadSz then _ else _).
  assert (forall k : bool -> M (Z * option bytes), (same ≫= k) w =
    k (bool_decide (infoSz = aadSz /\ take (Z.to_nat infoSz) inf = take (Z.to_nat aadSz) ad)) w) as Hsame.
  { intros k. apply same_spec; unfold INT_MAX; lia. }
  rewrite !Hsame. clear same Hsame.
  destruct (bool_decide_reflect (infoSz = aadSz /\ take (Z.to_nat infoSz) inf = take (Z.to_nat aadSz) ad)) as [Heq|Hneq].
  { left. split; [cbn [default from_option id]; tauto|reflexivity]. }
  assert (infoSz = aadSz -> take (Z.to_nat infoSz) inf <> take (Z.to_nat aadSz) ad) as Hdiff by tauto.
  destruct (Z.ltb_spec ctCap 48); right; [left|right]; (split; [by repeat split; try done; lia|]); (split; [lia|]); [reflexivity|].
  exists eph, rcp, ck, inf, ad, c. do 6 (split; [done|]). reflexivity.
Qed.
End SealCases.

(** Arguments inside the profile. *)
Lemma open_call bridge_at others b recipient enc info aad ct pt ptCap w :
  b <> 0 -> len info <= INT_MAX -> 0 < len info -> len aad <= INT_MAX -> 0 < len aad -> info <> aad ->
  17 <= len ct -> len ct <= INT_MAX -> len ct - 16 <= ptCap ->
  zt_hpke_open bridge_at others b (Some recipient) 65 (Some enc) 65 (Some ct) (len ct) (Some info) (len info) (Some aad)
    (len aad) (Some pt) ptCap w =
  open_rest bridge_at others b recipient enc ct info aad pt (len ct) (len info) (len aad) w.
Proof.
  intros Hb Li1 Li2 La1 La2 Hne Lc1 Lc2 Lp.
  assert (open_profile b (Some recipient) 65 (Some enc) 65 (Some ct) (len ct) (Some info) (len info) (Some aad) (len aad) (Some pt)) as HP.
  { unfold open_profile. repeat split; try done; try lia. cbn [default from_option id]. intros _. by rewrite !take_len. }
  destruct (open_cases bridge_at others b (Some recipient) 65 (Some enc) 65 (Some ct) (len ct) (Some info)
    (len info) (Some aad) (len aad) (Some pt) ptCap w) as [[Hn _]|[(_ & Hn & _)|(_ & _ & ? & ? & ? & ? & ? & ? & ? & ? & ? & ? & ? & ? & Hm)]];
    [lia|split; [lia|]; by intros d [= <-]..|done|lia|]. simplify_eq. exact Hm.
Qed.

Lemma seal_call bridge_at others b ephemeral recipient cek info aad ct ctCap w :
  b <> 0 -> is_Some (br_agree (bridge_at b)) -> len info <= 1024 -> 0 < len info -> len aad <= 1024 -> 0 < len aad ->
  info <> aad -> 48 <= ctCap ->
  zt_hpke_seal_cek bridge_at others b (Some ephemeral) 65 (Some recipient) 65 (Some cek) 32 (Some info) (len info)
    (Some aad) (len aad) (Some ct) ctCap w =
  seal_rest bridge_at others b ephemeral recipient cek info aad ct (len info) (len aad) w.
Proof.
  intros Hb [f Hf] Li1 Li2 La1 La2 Hne Lc.
  assert (seal_profile bridge_at b (Some ephemeral) 65 (Some recipient) 65 (Some cek) 32 (Some info) (len info) (Some aad) (len aad) (Some ct)) as HP.
  { unfold seal_profile. rewrite Hf. repeat split; try done; try lia. cbn [default from_option id]. intros _. by rewrite !take_len. }
  destruct (seal_cases bridge_at others b (Some ephemeral) 65 (Some recipient) 65 (Some cek) 32 (Some info)
    (len info) (Some aad) (len aad) (Some ct) ctCap w) as [[Hn _]|[(_ & Hn & _)|(_ & _ & ? & ? & ? & ? & ? & ? & ? & ? & ? & ? & ? & ? & Hm)]];
    [split; [lia|]; by intros d [= <-]..|done|lia|]. simplify_eq. exact Hm.
Qed.

(** ** Properties *)

Section Properties.
Context (bridge_at : Z -> zt_hpke_bridge) (others : nat -> Z -> forall i, Z -> M (Z * reply i)) (e : env).
Context (D : bytes -> bytes -> Prop) (E : Z -> Prop).

(** The bridge at [b] keeps its contract whatever else is registered. *)
Definition good_bridge (b : Z) : Prop :=
  b <> 0 /\ is_Some (br_agree (bridge_at b)) /\
  forall tbl, zt_device tbl -> BridgeContract e (here tbl) (bridge_at b) D E.

(** What a call leaves behind: the invariant, the device in the table unless it
    could not be put there, and no memory; it told the virtual machine nothing but
    public points and left no array pinned. *)
Definition settled (w w' : world) : Prop :=
  core_inv w' /\ w_live w' = w_live w /\ w_env w' = w_env w /\
  (log_grows (w_env w) (w_jlog w) (w_jlog w') /\ agreeMethod w' = agreeMethod w /\
   wolfcrypt_init_state w' = wolfcrypt_init_state w) /\
  (zt_device_registered w' = 1 \/ (cannot_register w /\ w' = w)).

Lemma settled_trans w1 w2 w3 : settled w1 w2 -> settled w2 w3 -> settled w1 w3.
Proof.
  intros (_ & L1 & E1 & (J1 & M1 & S1) & R1) (I2 & L2 & E2 & (J2 & M2 & S2) & R2). split; [done|]. split; [congruence|]. split; [congruence|].
  split; [split; [|split; congruence]; rewrite E1 in J2; by eapply log_grows_trans|].
  destruct R2 as [|[[Hz Hc] ->]]; [by left|]. destruct R1 as [R1|[R1 ->]]; [lia|]. right. by split.
Qed.

(** Run a calculation once the device is registered. *)
Lemma run_core {A} (m : M A) Q w : w_env w = e -> core_inv w -> zt_device_registered w = 1 -> zt_device (gCryptoDev w) ->
  calc_in (here (gCryptoDev w)) e 0 m Q -> wp m (fun a w' => Q a /\ settled w w') w.
Proof.
  intros He Hi Hr Hz Hc. eapply wp_mono; [apply Hc; [done|done|lia]|]. intros a w' [Ha []]. split; [done|].
  split; [|split; [lia|split; [done|split; [done|left; congruence]]]]. split; [rewrite frame_devs; apply Hz|]. right. by rewrite frame_reg, frame_devs.
Qed.

(** Register, then calculate. *)
Lemma with_device {A} (k : M (Z * A)) (a : A) Q w : w_env w = e -> core_inv w ->
  (forall tbl, zt_device tbl -> calc_in (here tbl) e 0 k Q) ->
  (cannot_register w -> Q (BAD_STATE_E, a)) ->
  wp (ret ← zt_hpke_init; if negb (ret =? 0) then mret (ret, a) else k) (fun r w' => Q r /\ settled w w') w.
Proof.
  intros He Hi Hk Hb. apply wp_bind. eapply wp_mono; [by apply init_spec|].
  intros ret w1 (Hi1 & (tbl & rg & Hw) & [(-> & Hr & Hz)|(-> & -> & Hc)]).
  - change (negb (0 =? 0)) with false. cbv iota. assert (w_env w1 = e /\ w_live w1 = w_live w) as [He1 Hl1] by (by rewrite Hw).
    eapply wp_mono; [by apply run_core; auto|]. intros r w' [HQ (H1 & H2 & H3 & HJ & H4)]. split; [done|].
    split; [done|]. split; [congruence|]. split; [congruence|]. split; [by rewrite Hw in HJ|]. left. destruct H4 as [|[[H4 _] _]]; [done|lia].
  - change (negb (BAD_STATE_E =? 0)) with true. cbv iota. split; [auto|]. split; [done|]. split; [done|]. split; [done|].
    split; [by split; [apply log_grows_refl|]|]. by right.
Qed.

Hypothesis Hos : os_sane e.

(** What the core answers when registration is impossible. *)
Definition no_slot (w : world) (ret : Z) : Prop := ret = BAD_STATE_E /\ cannot_register w.

Lemma open_rest_spec b w recipient enc info aad ct tag pt : w_env w = e -> core_inv w -> good_bridge b ->
  bytes_ok recipient -> len recipient = 65 -> bytes_ok enc -> len enc = 65 ->
  bytes_ok info -> len info < 2 ^ 32 -> bytes_ok aad -> len aad < 2 ^ 32 ->
  bytes_ok ct -> bytes_ok tag -> len tag = 16 -> len ct + 16 < 2 ^ 32 -> bytes_ok pt -> len ct <= len pt ->
  wp (open_rest bridge_at others b recipient enc (ct ++ tag) info aad pt (len (ct ++ tag)) (len info) (len aad))
    (fun r w' => (exists ret p, r = (ret, Some p) /\ (open_result e D E recipient enc info aad ct tag pt (ret, p) \/
                                 (no_slot w ret /\ p = pt))) /\ settled w w') w.
Proof.
  intros He Hi (Hb & _ & Hbr) Or Lr Oe Le Oi Li Oa La Oc Ot Lt Lc Op Lp. unfold open_rest.
  apply with_device; [done|done| |].
  - intros tbl Hz. rewrite (HpkeInit_spec hpke_zero HPKE_AES_128_GCM 16 aes128). calc_step. change (negb (0 =? 0)) with false. cbv iota.
    eapply calc_bind; [apply (open_with_spec bridge_at others e tbl Hz D E Hos b recipient enc info aad ct tag pt); auto|].
    intros [ret p] Hr. calc_step. exists ret, p. auto.
  - intros Hc. exists BAD_STATE_E, pt. split; [done|]. right. split; [by split|done].
Qed.

Lemma seal_rest_spec b w ephemeral recipient cek info aad ct : w_env w = e -> core_inv w -> good_bridge b ->
  bytes_ok ephemeral -> len ephemeral = 65 -> bytes_ok recipient -> len recipient = 65 ->
  bytes_ok info -> len info < 2 ^ 32 -> bytes_ok aad -> len aad < 2 ^ 32 ->
  bytes_ok cek -> len cek = 32 -> bytes_ok ct -> 48 <= len ct ->
  wp (seal_rest bridge_at others b ephemeral recipient cek info aad ct (len info) (len aad))
    (fun r w' => (exists ret c, r = (ret, Some c) /\ (seal_result e D E ephemeral recipient info aad cek (splice ct 0 (zeros 48)) (ret, c) \/
                                 (no_slot w ret /\ c = splice ct 0 (zeros 48)))) /\ settled w w') w.
Proof.
  intros He Hi (Hb & _ & Hbr) Oe Le Or Lr Oi Li Oa La Ok Lk Oc Lc. unfold seal_rest.
  apply wp_wr; [lia|change (len (zeros 48)) with 48; lia|].
  set (c0 := splice ct 0 (zeros 48)). assert (len c0 = len ct) as L0 by (apply len_splice; change (len (zeros 48)) with 48; lia).
  assert (bytes_ok c0) as O0 by (by apply bytes_ok_splice; [|apply bytes_ok_zeros]).
  apply with_device; [done|done| |].
  - intros tbl Hz. rewrite (HpkeInit_spec hpke_zero HPKE_AES_128_GCM 16 aes128). calc_step. change (negb (0 =? 0)) with false. cbv iota.
    eapply calc_bind; [apply (seal_with_spec bridge_at others e tbl Hz D E Hos b ephemeral recipient cek info aad c0); auto; lia|].
    intros [ret c] Hr. pose proof Hr as [(Hx & _)|(Hx & Hc & Hf)]; cbn [fst snd] in *.
    + subst ret. change (negb (0 =? 0)) with false. cbv iota. do 2 calc_step. eauto.
    + rewrite (proj2 (Z.eqb_neq ret 0)) by done. cbn [negb]. subst c. calc_step; [lia|change (len (zeros 48)) with 48; lia|]. calc_step.
      assert (splice c0 0 (zeros 48) = c0) as ->.
      { apply splice_again; change (len (zeros 48)) with 48; lia. }
      eauto.
  - intros Hc. exists BAD_STATE_E, c0. split; [done|]. right. split; [by split|done].
Qed.

(** C2. Opening, from any state of the process in which the core's invariant
    holds, for arguments that satisfy the profile and a bridge that keeps its
    contract.  [zt_hpke_open] returns 0 and the plaintext exactly when the
    ciphertext opens under RFC 9180 (DHKEM(P-256, HKDF-SHA256), HKDF-SHA256,
    AES-128-GCM, base mode) with the secret the bridge gave for the
    encapsulated key; a ciphertext that does not is answered with
    [AES_GCM_AUTH_E] and zeros; otherwise the buffer is untouched and the code
    says what failed.  The process does not fault, leaks nothing and keeps the
    invariant. *)
Theorem core_open b w recipient enc info aad ct tag pt ptCap :
  w_env w = e -> core_inv w -> good_bridge b ->
  bytes_ok recipient -> len recipient = 65 -> bytes_ok enc -> len enc = 65 ->
  bytes_ok info -> 0 < len info <= INT_MAX -> bytes_ok aad -> 0 < len aad <= INT_MAX -> info <> aad ->
  bytes_ok ct -> bytes_ok tag -> len tag = 16 -> 0 < len ct <= INT_MAX - 16 -> bytes_ok pt -> len ct <= ptCap <= len pt ->
  wp (zt_hpke_open bridge_at others b (Some recipient) 65 (Some enc) 65 (Some (ct ++ tag)) (len (ct ++ tag))
        (Some info) (len info) (Some aad) (len aad) (Some pt) ptCap)
    (fun r w' => (exists ret p, r = (ret, Some p) /\ (open_result e D E recipient enc info aad ct tag pt (ret, p) \/
                                 (no_slot w ret /\ p = pt))) /\ settled w w') w.
Proof.
  intros He Hi Hb Or Lr Oe Le Oi Li Oa La Hne Oc Ot Lt Lc Op Lp. unfold INT_MAX in *. pose proof (len_app ct tag) as Lct.
  pose proof (proj1 Hb) as Hb0. unfold wp. rewrite open_call by (unfold INT_MAX; done || lia). by apply (open_rest_spec b w recipient enc info aad ct tag pt); try done; lia.
Qed.

(** C3. Sealing a content-encryption key, under the same assumptions: on success
    the 48 bytes are exactly the sealing of RFC 9180 for the secret the bridge
    gave for the recipient's key; on every failure they are zero. *)
Theorem core_seal b w ephemeral recipient cek info aad ct ctCap :
  w_env w = e -> core_inv w -> good_bridge b ->
  bytes_ok ephemeral -> len ephemeral = 65 -> bytes_ok recipient -> len recipient = 65 ->
  bytes_ok info -> 0 < len info <= 1024 -> bytes_ok aad -> 0 < len aad <= 1024 -> info <> aad ->
  bytes_ok cek -> len cek = 32 -> bytes_ok ct -> 48 <= ctCap <= len ct ->
  wp (zt_hpke_seal_cek bridge_at others b (Some ephemeral) 65 (Some recipient) 65 (Some cek) 32 (Some info) (len info)
        (Some aad) (len aad) (Some ct) ctCap)
    (fun r w' => (exists ret c, r = (ret, Some c) /\
       (seal_result e D E ephemeral recipient info aad cek (splice ct 0 (zeros 48)) (ret, c) \/
        (no_slot w ret /\ c = splice ct 0 (zeros 48)))) /\ settled w w') w.
Proof.
  intros He Hi Hb Oe Le Or Lr Oi Li Oa La Hne Ok Lk Oc Lc.
  pose proof Hb as (Hb0 & Hbs & _). unfold wp. rewrite seal_call by (done || lia). by apply (seal_rest_spec b w ephemeral recipient cek info aad ct); try done; lia.
Qed.
End Properties.

(** C7. Framing: arguments outside the profile never reach the library.  A NULL
    pointer, a point that is not 65 bytes, a ciphertext shorter than 17 bytes, an
    empty or oversized string, or additional data equal to info, is refused with
    [BAD_FUNC_ARG], a short output buffer with [BUFFER_E]; nothing is written
    and nothing of the process changes. *)
Theorem core_framing bridge_at others w :
  (forall bridge recipient recipientSz enc encSz ct ctSz info infoSz aad aadSz pt ptCap,
     0 <= ctSz -> holds info infoSz -> holds aad aadSz ->
     let P := open_profile bridge recipient recipientSz enc encSz ct ctSz info infoSz aad aadSz pt in
     let m := zt_hpke_open bridge_at others bridge recipient recipientSz enc encSz ct ctSz info infoSz aad aadSz pt ptCap w in
     (~ P -> m = Ok (BAD_FUNC_ARG, pt) w) /\ (P -> ptCap < ctSz - 16 -> m = Ok (BUFFER_E, pt) w)) /\
  (forall bridge ephemeral ephemeralSz recipient recipientSz cek cekSz info infoSz aad aadSz ct ctCap,
     holds info infoSz -> holds aad aadSz ->
     let P := seal_profile bridge_at bridge ephemeral ephemeralSz recipient recipientSz cek cekSz info infoSz aad aadSz ct in
     let m := zt_hpke_seal_cek bridge_at others bridge ephemeral ephemeralSz recipient recipientSz cek cekSz info infoSz aad
                aadSz ct ctCap w in
     (~ P -> m = Ok (BAD_FUNC_ARG, ct) w) /\ (P -> ctCap < 48 -> m = Ok (BUFFER_E, ct) w)).
Proof.
  split.
  - intros until ptCap. intros H1 H2 H3 P m.
    destruct (open_cases bridge_at others bridge recipient recipientSz enc encSz ct ctSz info infoSz aad aadSz pt ptCap w H1 H2 H3)
      as [[Hn Hm]|[(HP & Hn & Hm)|(HP & Hn & _)]]; split; intros; try done; lia.
  - intros until ctCap. intros H2 H3 P m.
    destruct (seal_cases bridge_at others bridge ephemeral ephemeralSz recipient recipientSz cek cekSz info infoSz aad aadSz ct ctCap w H2 H3)
      as [[Hn Hm]|[(HP & Hn & Hm)|(HP & Hn & _)]]; split; intros; try done; lia.
Qed.

(** ** End to end *)

Section Session.
Context (bridge_at : Z -> zt_hpke_bridge) (others : nat -> Z -> forall i, Z -> M (Z * reply i)) (e : env).

(** Wrap a key for a recipient, and unwrap it there. *)
Definition cek_session (sender receiver : Z) (ephemeral recipient cek info aad : bytes) : M (Z * Z * bytes) :=
  '(r1, ct) ← zt_hpke_seal_cek bridge_at others sender (Some ephemeral) 65 (Some recipient) 65 (Some cek) 32
                (Some info) (len info) (Some aad) (len aad) (Some (zeros 48)) 48;
  if negb (r1 =? 0) then mret (r1, 0, default [] ct)
  else
    '(r2, pt) ← zt_hpke_open bridge_at others receiver (Some recipient) 65 (Some ephemeral) 65 ct 48
                  (Some info) (len info) (Some aad) (len aad) (Some (zeros 32)) 32;
    mret (r1, r2, default [] pt).

Context (D1 D2 : bytes -> bytes -> Prop) (E1 E2 : Z -> Prop) (Hos : os_sane e).

(** The sealed key and its tag. *)
Lemma core_sealed dh ephemeral recipient info aad cek : bytes_ok cek -> len cek = 32 -> exists ct tag,
  Rfc9180.Seal (core_context dh ephemeral recipient info) 0 aad cek = ct ++ tag /\ len ct = 32 /\ len tag = 16 /\
  bytes_ok ct /\ bytes_ok tag /\ Rfc9180.Open (core_context dh ephemeral recipient info) 0 aad ct tag = Some cek.
Proof.
  intros Ok Lk. unfold core_context.
  destruct (schedule_holder HPKE_AES_128_GCM 16 aes128 (Rfc9180.shared_secret dh ephemeral recipient) info) as [hc Hc].
  set (c := Rfc9180.KeySchedule _ _ _ _) in *. clearbody c.
  destruct (Seal_split HPKE_AES_128_GCM 16 aes128 c 0 hc aad cek Hc Ok) as (ct & tag & H1 & H2 & H3 & H4 & H5 & H6).
  exists ct, tag. rewrite H2. done.
Qed.

Lemma core_opened dh enc recipient info aad ct tag p :
  Rfc9180.Open (core_context dh enc recipient info) 0 aad ct tag = Some p -> len p = len ct.
Proof.
  unfold core_context.
  destruct (schedule_holder HPKE_AES_128_GCM 16 aes128 (Rfc9180.shared_secret dh enc recipient) info) as [hc Hc].
  by apply (Open_len HPKE_AES_128_GCM 16 aes128 _ 0 hc).
Qed.

(** Without a cause there is no error. *)
Lemma setup_no_err (E : Z -> Prop) info ret : ~ oom e -> len info <= max_info -> (forall rc, ~ E rc) ->
  ~ setup_err (bridge_err e E) info ret.
Proof. intros Ho Hi HE [[Hx|(rc & Hx & _)]|[_ Hx]]; [done|by apply (HE rc)|lia]. Qed.

Lemma seal_no_err E ephemeral recipient info ret : entropy_ok e -> ~ oom e -> is_point 32 ephemeral ->
  is_point 32 recipient -> len info <= max_info -> (forall rc, ~ E rc) ->
  ~ (entropy_ok e -> oom e \/ seal_err e E ephemeral recipient info ret).
Proof.
  intros Hen Ho [_ _ H1] [_ _ H2] Hi HE Hx. destruct (Hx Hen) as [?|[Hs|[[Hs _]|[Hs _]]]]; try done.
  by apply (setup_no_err E info ret).
Qed.

Lemma open_no_err E ephemeral recipient info ret : entropy_ok e -> ~ oom e -> is_point 32 ephemeral ->
  is_point 32 recipient -> len info <= max_info -> (forall rc, ~ E rc) ->
  ~ (entropy_ok e -> oom e \/ open_err e E recipient ephemeral info ret).
Proof.
  intros Hen Ho [_ _ H1] [_ _ H2] Hi HE Hx. destruct (Hx Hen) as [?|[[[Hs|[Hs _]]|[_ Hs]]|[Hs _]]]; try done; [|lia].
  destruct Hs as [?|(rc & Hs & _)]; [done|]. by apply (HE rc).
Qed.

End Session.

(** ** States of the process *)

(** The process after [wolfCrypt_Init]: an empty device table. *)
Definition world_ready (e : env) : world :=
  set_init (INITED, 1) (set_devs (wc_CryptoCb_Init (gCryptoDev (world_start e))) (world_start e)).

Lemma world_ready_init e : wolfCrypt_Init (world_start e) = Ok 0 (world_ready e).
Proof. reflexivity. Qed.

(** Steps of the registration: the core's own, and those of other users of the
    library, who do not touch the core's id. *)
Inductive reg_step : world -> world -> Prop :=
  | step_init w ret w' : zt_hpke_init w = Ok ret w' -> reg_step w w'
  | step_deinit w w' : zt_hpke_deinit w = Ok tt w' -> reg_step w w'
  | step_register w id cb ctx : id <> ZT_HPKE_DEVID ->
      reg_step w (set_devs (wc_CryptoCb_RegisterDevice (gCryptoDev w) id cb ctx).2 w)
  | step_unregister w id : id <> ZT_HPKE_DEVID ->
      reg_step w (set_devs (wc_CryptoCb_UnRegisterDevice (gCryptoDev w) id) w).

(** The stronger invariant that holds while the id is the core's alone. *)
Definition reg_inv (w : world) : Prop :=
  table_ok (gCryptoDev w) /\
  ((zt_device_registered w = 0 /\ devices (gCryptoDev w) !! ZT_HPKE_DEVID = None) \/
   (zt_device_registered w = 1 /\ zt_device (gCryptoDev w))).

Lemma reg_inv_core w : reg_inv w -> core_inv w.
Proof. intros [H [[]|[]]]; split; auto. Qed.

Lemma world_ready_inv e : reg_inv (world_ready e).
Proof.
  destruct (Init_spec (gCryptoDev (world_start e)) eq_refl) as [Hok Hd]. split; [done|]. left. split; [done|].
  change (gCryptoDev (world_ready e)) with (wc_CryptoCb_Init (gCryptoDev (world_start e))). rewrite Hd. done.
Qed.

Lemma world_ready_free e : ~ cannot_register (world_ready e).
Proof.
  pose proof (world_ready_inv e) as Hi.
  intros [_ [[v Hv]|Hf]]; [destruct Hi as [_ [[_ Hn]|[Hn _]]]; [congruence|done]|]. by inversion Hf.
Qed.

Lemma init_reg_inv w ret w' : reg_inv w -> zt_hpke_init w = Ok ret w' ->
  reg_inv w' /\ ((ret = 0 /\ zt_device (gCryptoDev w') /\ zt_device_registered w' = 1) \/
                 (ret = BAD_STATE_E /\ w' = w /\ Forall (fun d => cc_devId d <> INVALID_DEVID) (gCryptoDev w))).
Proof.
  intros Hi Hw. pose proof (init_spec w (reg_inv_core w Hi)) as Hs. unfold wp in Hs. rewrite Hw in Hs.
  destruct Hs as ([Hok _] & _ & [(-> & Hr & Hz)|(-> & -> & Hr & Hc)]).
  - split; [split; [done|by right]|by left].
  - split; [done|]. right. split; [done|]. split; [done|]. destruct Hc as [[v Hv]|Hc]; [|done].
    destruct Hi as [_ [[_ Hn]|[Hn _]]]; [congruence|lia].
Qed.

Lemma reg_step_inv w w' : reg_inv w -> reg_step w w' -> reg_inv w'.
Proof.
  intros Hi Hs. destruct Hs as [w ret w' Hw|w w' Hw|w id cb ctx Hne|w id Hne].
  - by apply (init_reg_inv w ret).
  - pose proof (deinit_spec w (reg_inv_core w Hi)) as Hs. unfold wp in Hs. rewrite Hw in Hs.
    destruct Hs as ([Hok _] & _ & Hd). split; [done|]. left. split; [|done]. injection Hw as <-. done.
  - destruct Hi as [Hok Hr]. destruct (wc_CryptoCb_RegisterDevice (gCryptoDev w) id cb ctx) as [ret tbl] eqn:Er. cbn [snd].
    destruct (RegisterDevice_spec _ _ _ _ _ _ Hok Er) as [Hok' Hc].
    assert (devices tbl !! ZT_HPKE_DEVID = devices (gCryptoDev w) !! ZT_HPKE_DEVID) as Hsame.
    { destruct Hc as [(_ & _ & _ & ->)|[(_ & _ & ->)|[(_ & _ & ->)|(_ & _ & -> & _)]]]; [by rewrite lookup_insert_ne|done..]. }
    split; [done|]. cbn [gCryptoDev set_devs zt_device_registered]. unfold zt_device in *. rewrite Hsame.
    destruct Hr as [?|(? & _ & ?)]; [by left|by right].
  - destruct Hi as [Hok Hr]. destruct (UnRegisterDevice_spec (gCryptoDev w) id Hok) as [Hok' Hd].
    split; [done|]. cbn [gCryptoDev set_devs zt_device_registered]. unfold zt_device in *. rewrite Hd, lookup_delete_ne by done.
    destruct Hr as [?|(? & _ & ?)]; [by left|by right].
Qed.

(** C9. Registration, whatever the order of the core's own calls and of the
    registrations of other users after [wolfCrypt_Init]: the core's flag always
    tells whether its device is in the table.  [zt_hpke_init] ends with the device
    registered and is idempotent, unless all eight slots are taken, which it
    reports with [BAD_STATE_E] and no effect; [zt_hpke_deinit] removes the device
    and leaves all others. *)
Theorem core_registration e w : rtc reg_step (world_ready e) w ->
  reg_inv w /\
  (forall ret w', zt_hpke_init w = Ok ret w' ->
     (ret = 0 /\ zt_device (gCryptoDev w') /\ zt_hpke_init w' = Ok 0 w') \/
     (ret = BAD_STATE_E /\ w' = w /\ Forall (fun d => cc_devId d <> INVALID_DEVID) (gCryptoDev w))) /\
  (forall w', zt_hpke_deinit w = Ok tt w' ->
     devices (gCryptoDev w') = delete ZT_HPKE_DEVID (devices (gCryptoDev w))).
Proof.
  intros Hr. assert (reg_inv w) as Hi.
  { remember (world_ready e) as w0 eqn:E0. assert (reg_inv w0) as H0 by (subst; apply world_ready_inv). clear E0.
    induction Hr; [done|]. eauto using reg_step_inv. }
  split; [done|]. split.
  - intros ret w' Hw. destruct (init_reg_inv w ret w' Hi Hw) as [_ [(-> & Hz & Hg)|?]]; [left|by right].
    split; [done|]. split; [done|]. unfold zt_hpke_init, get, mbind, M_bind. by rewrite Hg.
  - intros w' [= <-]. apply UnRegisterDevice_spec, Hi.
Qed.

(** Before [wolfCrypt_Init] the table is all zero and has no free slot: the
    core fails closed with [BAD_STATE_E] and touches nothing. *)
Theorem init_needs_wolfcrypt e : zt_hpke_init (world_start e) = Ok BAD_STATE_E (world_start e).
Proof. reflexivity. Qed.

(** The callback hands on whatever non-zero code the bridge returns,
    [CRYPTOCB_UNAVAILABLE] included: the guard written against that code does not
    catch it. *)
Theorem callback_passes_code bridge_at devId priv peer pt out agree rc w :
  pub_key pt peer -> ek_dp priv = Some ecc_secp256r1 -> ek_devCtx priv <> 0 ->
  br_agree (bridge_at (ek_devCtx priv)) = Some agree -> (forall c p o w, agree c p o w = Ok (rc, o) w) -> rc <> 0 ->
  (forall n, e_alloc (w_env w) n = true) ->
  wp (zt_ecdh_callback bridge_at devId (Pk_ecdh priv peer out 32) 0) (fun r _ => r = (rc, (out, 32))) w.
Proof.
  intros [Hp Hh] Hd Hc Ha Hag Hrc Hmem. cbn [zt_ecdh_callback]. unfold answer_ecdh.
  rewrite Hd, (hp_dp _ _ _ _ Hh), (proj2 (Z.eqb_neq _ _) Hc), Ha. change (ecc_id ecc_secp256r1 =? ECC_SECP256R1) with true.
  change (32 <? 32) with false. cbn [negb orb]. unfold ask_bridge. change DHKEM_P256_ENC_LEN with 65. apply wp_bind.
  eapply wp_mono; [apply (export_x963_spec (w_env w) peer 2 ecc_secp256r1 pt (zeros 65) 65); [done|done|done|done|done|done|done|lia]|].
  intros r w' [[->|[_ [n Hn]]] _]; [|congruence]. change (1 + 2 * ecc_size ecc_secp256r1) with 65. cbn [default from_option id]. eval_tests.
  unfold wp, mbind, M_bind. rewrite Hag. by rewrite (proj2 (Z.eqb_neq rc 0)).
Qed.

(** ** A run with the test vectors of RFC 9180 *)

Module Example.

(** A host that answers every key agreement with the secret of the vectors. *)
Definition host : zt_hpke_bridge := {| br_agree := Some (fun _ _ _ => mret (0, Vectors.dh)); br_ctx := 0 |}.

Definition bridges (_ : Z) : zt_hpke_bridge := host.

Definition nobody : nat -> Z -> forall i, Z -> M (Z * reply i) := fun _ _ i _ => mret (CRYPTOCB_UNAVAILABLE, untouched i).

Definition secret (_ dh : bytes) : Prop := dh = Vectors.dh.
Definition no_error (_ : Z) : Prop := False.

Lemma host_good : good_bridge bridges env_device secret no_error 1.
Proof.
  split; [done|]. split; [by eexists|]. intros tbl _. eexists. split; [reflexivity|]. intros peer out _ _ _. cbv beta. calc_step.
  split; [done|]. split; [by apply Vectors.bytes_ok_check|]. left. by split.
Qed.

Lemma ready : core_inv (world_ready env_device) /\ ~ cannot_register (world_ready env_device).
Proof. split; [apply reg_inv_core, world_ready_inv|apply world_ready_free]. Qed.

Lemma points : is_point 32 Vectors.enc /\ is_point 32 Vectors.pkRm.
Proof. split; split; try reflexivity; by apply Vectors.bytes_ok_check. Qed.

Lemma context_kat : core_context Vectors.dh Vectors.enc Vectors.pkRm Vectors.info = Vectors.context.
Proof. unfold core_context. rewrite Vectors.shared_kat. apply Vectors.schedule_kat. Qed.

(** The vector's ciphertext, without its tag. *)
Definition body : bytes := take 29 Vectors.ct0.
Definition tag : bytes := drop 29 Vectors.ct0.

Lemma open_kat : Rfc9180.Open Vectors.context 0 Vectors.aad0 body tag = Some Vectors.pt.
Proof. vm_compute. reflexivity. Qed.

Lemma core_open_witness :
  wp (zt_hpke_open bridges nobody 1 (Some Vectors.pkRm) 65 (Some Vectors.enc) 65 (Some (body ++ tag)) 45
        (Some Vectors.info) 20 (Some Vectors.aad0) 7 (Some (zeros 29)) 29)
    (fun r w' => r = (0, Some Vectors.pt)) (world_ready env_device).
Proof.
  destruct ready as [Hi Hc], points as [[Oe Le He] [Or Lr Hr]].
  eapply wp_mono.
  { apply (core_open bridges nobody env_device secret no_error env_device_sane 1 (world_ready env_device) Vectors.pkRm Vectors.enc
      Vectors.info Vectors.aad0 body tag (zeros 29) 29 eq_refl Hi host_good); try done; try (by apply Vectors.bytes_ok_check). }
  intros r w' [(ret & p & -> & [[(_ & _ & _ & dh & Hdh & Hm)|(_ & _ & Hf)]|[[_ Hn] _]]) _]; [| |done].
  - red in Hdh. subst dh. rewrite context_kat, open_kat in Hm. injection Hm as -> ->. rewrite splice_full; reflexivity.
  - exfalso. destruct (Hf env_device_entropy) as [Ho|[[[[Ho|(rc & [] & _)]|[Ho _]]|[_ Ho]]|[Ho _]]];
      [by apply env_device_plenty|by apply env_device_plenty|done|by vm_compute in Ho|done].
Defined.

(** A 32-byte key for the sealing direction. *)
Definition cek : bytes := Vectors.shared.

Lemma cek_ok : bytes_ok cek /\ len cek = 32.
Proof. split; [by apply Vectors.bytes_ok_check|reflexivity]. Qed.

Lemma core_seal_witness :
  wp (zt_hpke_seal_cek bridges nobody 1 (Some Vectors.enc) 65 (Some Vectors.pkRm) 65 (Some cek) 32
        (Some Vectors.info) 20 (Some Vectors.aad0) 7 (Some (zeros 48)) 48)
    (fun r w' => r = (0, Some (Rfc9180.Seal Vectors.context 0 Vectors.aad0 cek))) (world_ready env_device).
Proof.
  destruct ready as [Hi Hc], points as [[Oe Le He] [Or Lr Hr]], cek_ok as [Ok Lk].
  eapply wp_mono.
  { apply (core_seal bridges nobody env_device secret no_error env_device_sane 1 (world_ready env_device) Vectors.enc Vectors.pkRm
      cek Vectors.info Vectors.aad0 (zeros 48) 48 eq_refl Hi host_good); try done; try (by apply Vectors.bytes_ok_check). }
  intros r w' [(ret & c & -> & [[(Hx & _ & _ & _ & dh & Hdh & Hm)|(_ & _ & Hf)]|[[_ Hn] _]]) _]; [| |done].
  - red in Hdh. subst dh. cbn [fst snd] in Hx, Hm. rewrite context_kat in Hm. subst ret c. rewrite splice_full; [reflexivity|].
    vm_compute. reflexivity.
  - exfalso. destruct points as [Hpe Hpr]. apply (seal_no_err env_device no_error Vectors.enc Vectors.pkRm Vectors.info ret
      env_device_entropy env_device_plenty Hpe Hpr); [vm_compute; discriminate|intros rc []|exact Hf].
Defined.


(** A call with additional data equal to [info]. *)
Lemma core_framing_witness :
  zt_hpke_open bridges nobody 1 (Some Vectors.pkRm) 65 (Some Vectors.enc) 65 (Some Vectors.ct0) 45
    (Some Vectors.info) 20 (Some Vectors.info) 20 (Some (zeros 29)) 29 (world_ready env_device) =
  Ok (BAD_FUNC_ARG, Some (zeros 29)) (world_ready env_device).
Proof.
  apply (proj1 (core_framing bridges nobody (world_ready env_device)) 1 (Some Vectors.pkRm) 65 (Some Vectors.enc) 65
    (Some Vectors.ct0) 45 (Some Vectors.info) 20 (Some Vectors.info) 20 (Some (zeros 29)) 29).
  - lia.
  - split; [lia|]. intros d [= <-]. vm_compute. discriminate.
  - split; [lia|]. intros d [= <-]. vm_compute. discriminate.
  - intros (_ & _ & _ & _ & _ & _ & _ & _ & _ & _ & _ & _ & Hne). by apply Hne.
Defined.

Lemma core_registration_witness : reg_inv (world_ready env_device).
Proof. apply (core_registration env_device (world_ready env_device)). apply rtc_refl. Defined.

(** A host that says it is unavailable. *)
Definition unavailable (_ : Z) : zt_hpke_bridge :=
  {| br_agree := Some (fun _ _ o => mret (CRYPTOCB_UNAVAILABLE, o)); br_ctx := 0 |}.

Lemma imported_key : exists key, pub_key Vectors.pkRm key /\ ek_devCtx key = 1.
Proof.
  destruct points as [_ [Or Lr Hr]].
  destruct (calc_run _ _ _ _ (world_ready env_device) (import_spec env_device 1 ZT_HPKE_DEVID Vectors.pkRm Or Lr) eq_refl I)
    as ([ret key] & w' & _ & [(_ & Hk & _ & Hc)|[Hx _]] & _); [by exists key|done].
Qed.

Lemma callback_passes_code_witness : exists priv peer,
  wp (zt_ecdh_callback unavailable ZT_HPKE_DEVID (Pk_ecdh priv peer (zeros 32) 32) 0)
    (fun r _ => r = (CRYPTOCB_UNAVAILABLE, (zeros 32, 32))) (world_ready env_device).
Proof.
  destruct imported_key as (key & Hk & Hc). exists key, key.
  apply (callback_passes_code unavailable ZT_HPKE_DEVID key key Vectors.pkRm (zeros 32)
    (fun _ _ o => mret (CRYPTOCB_UNAVAILABLE, o)) CRYPTOCB_UNAVAILABLE (world_ready env_device) Hk); try done.
  - exact (hp_dp _ _ _ _ (proj2 Hk)).
  - by rewrite Hc.
Defined.
End Example.
