(* ===== verification/Jni.v ===== *)
(** * Jni: the adapters between the core and the virtual machine
    (zrotext_hpke_jni.c, zrotext_hpke_sender_jni.c)

    [nativeOpen] and [nativeSeal] copy Java arrays into C buffers, call the core
    with a bridge that asks a Java object for the key agreement, and hand the
    result back as a Java array.  The virtual machine is the parameter [e_jvm] of
    the environment; [w_jlog] records every call made to it.

    A reference is a name of an object: the model gives every reference a name of
    its own, so a name never denotes two arrays.  The functions of zrotext_hpke_core.c
    see the bridge at the address [sp], a local variable's, which is not NULL. *)

From stdpp Require Import gmap strings.
From S2P Require Import Prelude Platform Types Misc CryptoCb WcPort Sha256 Hmac Aes Gcm Drbg Rng SpInt Ecc Hpke Rfc9180 HpkeCore.

#[local] Open Scope string_scope.
#[local] Open Scope list_scope.
#[local] Open Scope Z_scope.

Definition JNI_ABORT := 2.
Definition JNI_OK := 0.
Definition JNI_ERR := -1.
Definition JNI_VERSION_1_6 := 0x00010006.

(** Calls of which only the number or the reference matters. *)
Definition jval (c : jcall) : M Z := a ← jni c; mret (j_val a).
Definition jdo (c : jcall) : M unit := _ ← jni c; mret tt.

(** [ExceptionCheck] as a truth value. *)
Definition thrown : M bool := v ← jval ExceptionCheck; mret (negb (v =? 0)).

(** The elements of an array, or NULL. *)
Definition elements (arr : jref) : M (option bytes) :=
  a ← jni (GetByteArrayElements arr); mret (if j_val a =? 0 then None else Some (j_bytes a)).

(** Give elements back without writing them: [if (p != NULL) Release(..., JNI_ABORT)]. *)
Definition release_unchanged (arr : jref) (p : option bytes) : M unit :=
  match p with Some b => jdo (ReleaseByteArrayElements arr b JNI_ABORT) | None => mret tt end.

(** zrotext_hpke_jni.c:29-34, [JniBridge], and zrotext_hpke_sender_jni.c:12-17,
    [SenderBridge]: the object that answers, its method and the key. *)
Record JniBridge := { jb_object : jref; jb_method : Z; jb_privateKey : jref }.

(** zrotext_hpke_jni.c:41-46, [throwSecurity] *)
Definition throwSecurity (message : string) : M unit :=
  cls ← jval (FindClass "java/security/GeneralSecurityException");
  if negb (cls =? 0) then jdo (ThrowNew cls message) else mret tt.

(** zrotext_hpke_jni.c:78-98, [jni_agree]: what the method returned. *)
Definition jni_take (agreed : jref) (out : bytes) : M (Z * bytes) :=
  length ← jval (GetArrayLength agreed);
  if negb (length =? 32) then _ ← jdo (DeleteLocalRef agreed); mret (ECC_BAD_ARG_E, out)
  else
    el ← elements agreed;
    match el with
    | None => _ ← jdo (DeleteLocalRef agreed); mret (BAD_STATE_E, out)
    | Some el =>
      secret ← rd el 0 32;
      out ← wr out 0 secret;
      el ← wr el 0 (zeros 32);
      _ ← jdo (ReleaseByteArrayElements agreed el 0);
      _ ← jdo (DeleteLocalRef agreed);
      mret (0, out)
    end.

(** zrotext_hpke_jni.c:48-99, [jni_agree] *)
Definition jni_agree (bridge : JniBridge) (peerPoint out : bytes) : M (Z * bytes) :=
  peer ← jval (NewByteArray 65);
  failed ← (if peer =? 0 then mret true else thrown);
  if failed : bool then
    exc ← thrown;
    _ ← (if exc : bool then jdo ExceptionClear else mret tt);
    mret (BAD_STATE_E, out)
  else
    point ← rd peerPoint 0 65;
    _ ← jdo (SetByteArrayRegion peer 0 65 point);
    agreed ← jval (CallObjectMethod (jb_object bridge) (jb_method bridge) (jb_privateKey bridge) peer);
    _ ← jdo (DeleteLocalRef peer);
    exc ← thrown;
    if exc : bool then _ ← jdo ExceptionClear; mret (BAD_STATE_E, out)
    else if agreed =? 0 then mret (BAD_STATE_E, out)
    else jni_take agreed out.

(** zrotext_hpke_sender_jni.c:48-57, [sender_agree]: from [done] on. *)
Definition sender_done (rc : Z) (peer dhArray : jref) (el : option bytes) (secretSz : Z) (out : bytes) : M (Z * bytes) :=
  _ ← match el with
      | Some b => b ← wr b 0 (zeros (w32 secretSz)); jdo (ReleaseByteArrayElements dhArray b 0)
      | None => mret tt
      end;
  _ ← (if negb (peer =? 0) then jdo (DeleteLocalRef peer) else mret tt);
  _ ← (if negb (dhArray =? 0) then jdo (DeleteLocalRef dhArray) else mret tt);
  exc ← thrown;
  _ ← (if exc : bool then jdo ExceptionClear else mret tt);
  mret (rc, out).

(** zrotext_hpke_sender_jni.c:39-47, [sender_agree]: what the method returned. *)
Definition sender_take (peer dhArray : jref) (out : bytes) : M (Z * bytes) :=
  secretSz ← jval (GetArrayLength dhArray);
  b ← elements dhArray;
  match b with
  | None => sender_done BAD_STATE_E peer dhArray None secretSz out
  | Some b =>
    if negb (secretSz =? 32) then sender_done BAD_STATE_E peer dhArray (Some b) secretSz out
    else
      secret ← rd b 0 32;
      out ← wr out 0 secret;
      b ← wr b 0 (zeros 32);
      _ ← jdo (ReleaseByteArrayElements dhArray b 0);
      sender_done 0 peer dhArray None secretSz out
  end.

(** zrotext_hpke_sender_jni.c:19-57, [sender_agree] *)
Definition sender_agree (b : JniBridge) (peerPoint out : bytes) : M (Z * bytes) :=
  peer ← jval (NewByteArray 65);
  failed ← (if peer =? 0 then mret true else thrown);
  if failed : bool then sender_done BAD_STATE_E peer 0 None 0 out
  else
    point ← rd peerPoint 0 65;
    _ ← jdo (SetByteArrayRegion peer 0 65 point);
    failed ← thrown;
    if failed : bool then sender_done BAD_STATE_E peer 0 None 0 out
    else
      dhArray ← jval (CallObjectMethod (jb_object b) (jb_method b) (jb_privateKey b) peer);
      exc ← thrown;
      if (exc : bool) || (dhArray =? 0) then sender_done BAD_STATE_E peer dhArray None 0 out
      else sender_take peer dhArray out.

Section Adapters.
Context (others : nat -> Z -> forall i, Z -> M (Z * reply i)) (sp : Z).

(** zrotext_hpke_jni.c:154-159, [nativeOpen]: the bridge on its stack; the one of
    [nativeSeal] likewise. *)
Definition stack_bridge (agree : JniBridge -> bytes -> bytes -> M (Z * bytes)) (bridge : JniBridge) (addr : Z) : zt_hpke_bridge :=
  {| br_agree := Some (fun _ => agree bridge); br_ctx := sp |}.

Definition refused : string := "HPKE open rejected".

(** zrotext_hpke_jni.c:120-126, [nativeOpen]: the method, looked up once. *)
Definition find_method (receiver : jref) : M Z :=
  w ← get;
  if agreeMethod w =? 0 then
    cls ← jval (GetObjectClass receiver);
    m ← jval (GetMethodID cls "agreeFromNative" "(Ljava/security/PrivateKey;[B)[B");
    _ ← modify (set_method m);
    mret m
  else mret (agreeMethod w).

(** zrotext_hpke_jni.c:176-198, [nativeOpen]: after the core's answer, the inputs
    given back. *)
Definition open_finish (ret : Z) (pt : bytes) (ptSz : Z) : M jref :=
  if negb (ret =? 0) then
    _ ← throwSecurity refused;
    _ ← wr pt 0 (zeros ptSz);
    _ ← wolfSSL_Free;
    mret 0
  else
    result ← jval (NewByteArray ptSz);
    _ ← (if negb (result =? 0) then data ← rd pt 0 ptSz; jdo (SetByteArrayRegion result 0 ptSz data) else mret tt);
    _ ← wr pt 0 (zeros ptSz);
    _ ← wolfSSL_Free;
    mret result.

(** zrotext_hpke_jni.c:145-199, [nativeOpen]: with the buffer [pt]. *)
Definition open_pinned (bridge : JniBridge) (jRecipient jEnc jCt jInfo jAad : jref)
    (recipientSz encSz ctSz infoSz aadSz ptSz : Z) : M jref :=
  recipient ← elements jRecipient;
  enc ← elements jEnc;
  ct ← elements jCt;
  info ← elements jInfo;
  aad ← elements jAad;
  match recipient, enc, ct, info, aad with
  | Some _, Some _, Some _, Some _, Some _ =>
    '(ret, pt) ← zt_hpke_open (stack_bridge jni_agree bridge) others sp recipient recipientSz enc encSz ct ctSz
                   info infoSz aad aadSz (Some (zeros ptSz)) ptSz;
    _ ← release_unchanged jRecipient recipient;
    _ ← release_unchanged jEnc enc;
    _ ← release_unchanged jCt ct;
    _ ← release_unchanged jInfo info;
    _ ← release_unchanged jAad aad;
    open_finish ret (default [] pt) ptSz
  | _, _, _, _, _ =>
    _ ← release_unchanged jRecipient recipient;
    _ ← release_unchanged jEnc enc;
    _ ← release_unchanged jCt ct;
    _ ← release_unchanged jInfo info;
    _ ← release_unchanged jAad aad;
    _ ← wr (zeros ptSz) 0 (zeros ptSz);
    _ ← wolfSSL_Free;
    mret 0
  end.

(** zrotext_hpke_jni.c:101-199, [nativeOpen]; [malloc] is the allocator below
    [wolfSSL_Malloc]. *)
Definition nativeOpen (receiver privateKey jRecipient jEnc jCt jInfo jAad : jref) : M jref :=
  method ← find_method receiver;
  if method =? 0 then mret 0
  else
    recipientSz ← jval (GetArrayLength jRecipient);
    encSz ← jval (GetArrayLength jEnc);
    ctSz ← jval (GetArrayLength jCt);
    infoSz ← jval (GetArrayLength jInfo);
    aadSz ← jval (GetArrayLength jAad);
    if (ctSz <? 17) || (recipientSz <? 0) || (encSz <? 0) || (infoSz <? 0) || (aadSz <? 0) then
      _ ← throwSecurity refused; mret 0
    else
      ok ← wolfSSL_Malloc;
      if negb ok then _ ← throwSecurity refused; mret 0
      else
        open_pinned {| jb_object := receiver; jb_method := method; jb_privateKey := privateKey |}
          jRecipient jEnc jCt jInfo jAad recipientSz encSz ctSz infoSz aadSz (ctSz - 16).

(** zrotext_hpke_sender_jni.c:114-118, [nativeSeal]: a failure is always an
    exception. *)
Definition seal_answer (result : jref) : M jref :=
  quiet ← (if result =? 0 then exc ← thrown; mret (negb exc) else mret false);
  _ ← (if quiet : bool then
         failure ← jval (FindClass "java/security/GeneralSecurityException");
         if negb (failure =? 0) then _ ← jdo (ThrowNew failure "HPKE wrap refused"); jdo (DeleteLocalRef failure)
         else mret tt
       else mret tt);
  mret result.

(** zrotext_hpke_sender_jni.c:106-118, [nativeSeal]: from [done] on. *)
Definition seal_done (result : jref) (cls : jref) (jEnc jRecipient jCek jInfo jAad : jref)
    (enc recipient cek info aad : option bytes) : M jref :=
  _ ← release_unchanged jEnc enc;
  _ ← release_unchanged jRecipient recipient;
  _ ← match cek with
      | Some b => b ← wr b 0 (zeros 32); jdo (ReleaseByteArrayElements jCek b 0)
      | None => mret tt
      end;
  _ ← release_unchanged jInfo info;
  _ ← release_unchanged jAad aad;
  _ ← (if negb (cls =? 0) then jdo (DeleteLocalRef cls) else mret tt);
  seal_answer result.

(** zrotext_hpke_sender_jni.c:79-83, [nativeSeal]: the lengths, left to right. *)
Definition lengths_ok (jEnc jRecipient jCek : jref) (infoSz aadSz : Z) : M bool :=
  n ← jval (GetArrayLength jEnc);
  if negb (n =? 65) then mret false
  else
    n ← jval (GetArrayLength jRecipient);
    if negb (n =? 65) then mret false
    else
      n ← jval (GetArrayLength jCek);
      mret (negb (negb (n =? 32) || (infoSz <? 1) || (1024 <? infoSz) || (aadSz <? 1) || (1024 <? aadSz))).

(** zrotext_hpke_sender_jni.c:89-119, [nativeSeal]: with the method. *)
Definition seal_pinned (bridge : JniBridge) (cls jEnc jRecipient jCek jInfo jAad : jref) (infoSz aadSz : Z) : M jref :=
  enc ← elements jEnc;
  recipient ← elements jRecipient;
  cek ← elements jCek;
  info ← elements jInfo;
  aad ← elements jAad;
  result ←
    match enc, recipient, cek, info, aad with
    | Some _, Some _, Some _, Some _, Some _ =>
      '(rc, ct) ← zt_hpke_seal_cek (stack_bridge sender_agree bridge) others sp enc 65 recipient 65 cek 32
                    info infoSz aad aadSz (Some (zeros 48)) 48;
      if rc =? 0 then
        result ← jval (NewByteArray 48);
        _ ← (if negb (result =? 0) then data ← rd (default [] ct) 0 48; jdo (SetByteArrayRegion result 0 48 data)
             else mret tt);
        mret result
      else mret 0
    | _, _, _, _, _ => mret 0
    end;
  seal_done result cls jEnc jRecipient jCek jInfo jAad enc recipient cek info aad.

(** zrotext_hpke_sender_jni.c:59-119, [nativeSeal] *)
Definition nativeSeal (sender privateKey jEnc jRecipient jCek jInfo jAad : jref) : M jref :=
  let stop cls := seal_done 0 cls jEnc jRecipient jCek jInfo jAad None None None None None in
  if (privateKey =? 0) || (jEnc =? 0) || (jRecipient =? 0) || (jCek =? 0) || (jInfo =? 0) || (jAad =? 0) then stop 0
  else
    infoSz ← jval (GetArrayLength jInfo);
    aadSz ← jval (GetArrayLength jAad);
    ok ← lengths_ok jEnc jRecipient jCek infoSz aadSz;
    if negb ok then stop 0
    else
      cls ← jval (GetObjectClass sender);
      if cls =? 0 then stop 0
      else
        method ← jval (GetMethodID cls "agreeFromNative" "(Ljava/security/PrivateKey;[B)[B");
        if method =? 0 then stop cls
        else
          seal_pinned {| jb_object := sender; jb_method := method; jb_privateKey := privateKey |}
            cls jEnc jRecipient jCek jInfo jAad infoSz aadSz.
End Adapters.

(** zrotext_hpke_jni.c:201-212, [JNI_OnLoad] *)
Definition JNI_OnLoad : M Z :=
  r ← jval GetEnv;
  if negb (r =? JNI_OK) then mret JNI_ERR
  else
    r ← wolfCrypt_Init;
    if negb (r =? 0) then mret JNI_ERR
    else
      r ← zt_hpke_init;
      if negb (r =? 0) then mret JNI_ERR else mret JNI_VERSION_1_6.

(** zrotext_hpke_jni.c:214-221, [JNI_OnUnload] *)
Definition JNI_OnUnload : M unit :=
  _ ← zt_hpke_deinit;
  r ← jval GetEnv;
  if r =? JNI_OK then _ ← wolfCrypt_Cleanup; mret tt else mret tt.

(** ** The virtual machine *)

(** What the adapters rely on: an array has a length between 0 and the largest
    [jint], and its elements, when they can be had, are that many bytes. *)
Class Jvm (e : env) (alen : jref -> Z) : Prop := {
  jvm_length a l : j_val (e_jvm e (GetArrayLength a :: l)) = alen a;
  jvm_length_ok a : 0 <= alen a <= INT_MAX;
  jvm_elements a l : let r := e_jvm e (GetByteArrayElements a :: l) in
    j_val r <> 0 -> bytes_ok (j_bytes r) /\ len (j_bytes r) = alen a;
}.

(** A virtual machine that refuses nothing and whose object answers every key
    agreement with 32 bytes. *)
Record obliging (e : env) (alen : jref -> Z) : Prop := {
  ob_new n l : j_val (e_jvm e (NewByteArray n :: l)) <> 0;
  ob_check l : j_val (e_jvm e (ExceptionCheck :: l)) = 0;
  ob_elements a l : j_val (e_jvm e (GetByteArrayElements a :: l)) <> 0;
  ob_class o l : j_val (e_jvm e (GetObjectClass o :: l)) <> 0;
  ob_method c n s l : j_val (e_jvm e (GetMethodID c n s :: l)) <> 0;
  ob_call o m x y l : let r := j_val (e_jvm e (CallObjectMethod o m x y :: l)) in r <> 0 /\ alen r = 32;
}.

(** The calls that may stand between the agreement and reading its result. *)
Definition idle (arr agreed : jref) (c : jcall) : Prop :=
  c = ExceptionCheck \/ c = DeleteLocalRef arr \/ c = GetArrayLength agreed.

(** [dh] is what the object's method answered, asked with the key of the bridge for
    the point [peer]. *)
Definition java_secret (e : env) (b : JniBridge) (peer dh : bytes) : Prop :=
  exists l checks arr after, Forall (eq ExceptionCheck) checks /\
    let asked := CallObjectMethod (jb_object b) (jb_method b) (jb_privateKey b) arr ::
                 checks ++ SetByteArrayRegion arr 0 65 peer :: l in
    let agreed := j_val (e_jvm e asked) in
    let r := e_jvm e (GetByteArrayElements agreed :: after ++ asked) in
    Forall (idle arr agreed) after /\ agreed <> 0 /\ j_val r <> 0 /\ dh = j_bytes r.

(** The errors of the bridges, for which the virtual machine is to blame. *)
Definition hard_error (e : env) (alen : jref -> Z) (rc : Z) : Prop :=
  (rc = BAD_STATE_E \/ rc = ECC_BAD_ARG_E) /\ ~ obliging e alen.

(** ** Keeping the books *)

(** How often [a] is in [P]. *)
Fixpoint count (a : jref) (P : list jref) : Z :=
  match P with [] => 0 | b :: P => (if b =? a then 1 else 0) + count a P end.

(** Where the books begin: the pins that are not ours, and the log. *)
Record start := Start { s_pins : jref -> Z; s_log : list jcall }.

Definition mark (e : env) (l : list jcall) : start := Start (pins e l) l.

(** The calls made since the start are of the kind [ok], and the arrays [P] are
    pinned. *)
Record ledger (e : env) (ok : jcall -> Prop) (s : start) (l : list jcall) (P : list jref) : Prop := {
  ledger_calls : exists d, l = d ++ s_log s /\ Forall ok d;
  ledger_pins a : pins e l a = s_pins s a + count a P;
}.

(** Calls that pin or release nothing. *)
Definition plain (c : jcall) : Prop :=
  match c with GetByteArrayElements _ | ReleaseByteArrayElements _ _ _ => False | _ => True end.

Section Ledger.
Context (e : env) (alen : jref -> Z) `{!Jvm e alen} (ok : jcall -> Prop) (wr : world) (He : w_env wr = e).
Implicit Types P : list jref.

Lemma ledger_start l : ledger e ok (mark e l) l [].
Proof. split; [by exists []|]. intros a. symmetry. apply Z.add_0_r. Qed.

Lemma ledger_cons l0 l P c : ledger e ok l0 l P -> ok c -> plain c -> ledger e ok l0 (c :: l) P.
Proof.
  intros [(d & -> & Hd) Hp] Hc Hn. split; [exists (c :: d); by auto|]. intros a. cbn [pins]. rewrite Hp. destruct c; try lia; done.
Qed.

Lemma ledger_get l0 l P a : ledger e ok l0 l P -> ok (GetByteArrayElements a) ->
  ledger e ok l0 (GetByteArrayElements a :: l) (if j_val (e_jvm e (GetByteArrayElements a :: l)) =? 0 then P else a :: P).
Proof.
  intros [(d & -> & Hd) Hp] Hc. split; [exists (GetByteArrayElements a :: d); by auto|]. intros x. cbn [pins]. rewrite Hp.
  destruct (j_val _ =? 0); cbn [negb count]; [rewrite andb_false_r; lia|]. rewrite andb_true_r. destruct (a =? x); lia.
Qed.

Lemma ledger_release l0 l P P' a b m : ledger e ok l0 l P -> ok (ReleaseByteArrayElements a b m) ->
  (forall x, count x P = (if a =? x then 1 else 0) + count x P') ->
  ledger e ok l0 (ReleaseByteArrayElements a b m :: l) P'.
Proof.
  intros [(d & -> & Hd) Hp] Hc Hx. split; [exists (ReleaseByteArrayElements a b m :: d); by auto|]. intros x. cbn [pins].
  rewrite Hp, Hx. destruct (a =? x); lia.
Qed.

Lemma ledger_grows l0 l l' P : (forall c, discreet c -> ok c) -> ledger e ok l0 l P -> log_grows e l l' -> ledger e ok l0 l' P.
Proof.
  intros Hok [(d & -> & Hd) Hp] (d' & -> & Hd' & Hp'). split.
  - exists (d' ++ d). split; [apply app_assoc|]. apply Forall_app. split; [|done]. by eapply Forall_impl.
  - intros a. by rewrite Hp', Hp.
Qed.

(** One call. *)
Lemma wp_jval {B} l0 l P c (k : Z -> M B) Q : ledger e ok l0 l P -> ok c -> plain c ->
  (ledger e ok l0 (c :: l) P -> wp (k (j_val (e_jvm e (c :: l)))) Q (set_jlog (c :: l) wr)) ->
  wp (jval c ≫= k) Q (set_jlog l wr).
Proof. intros Hl Hc Hp Hk. specialize (Hk (ledger_cons _ _ _ _ Hl Hc Hp)). by rewrite <-He in Hk. Qed.

Lemma wp_jdo {B} l0 l P c (k : unit -> M B) Q : ledger e ok l0 l P -> ok c -> plain c ->
  (ledger e ok l0 (c :: l) P -> wp (k tt) Q (set_jlog (c :: l) wr)) -> wp (jdo c ≫= k) Q (set_jlog l wr).
Proof. intros Hl Hc Hp Hk. exact (Hk (ledger_cons _ _ _ _ Hl Hc Hp)). Qed.

Lemma wp_release {B} l0 l P P' a b m (k : unit -> M B) Q : ledger e ok l0 l P -> ok (ReleaseByteArrayElements a b m) ->
  (forall x, count x P = (if a =? x then 1 else 0) + count x P') ->
  (ledger e ok l0 (ReleaseByteArrayElements a b m :: l) P' -> wp (k tt) Q (set_jlog (ReleaseByteArrayElements a b m :: l) wr)) ->
  wp (jdo (ReleaseByteArrayElements a b m) ≫= k) Q (set_jlog l wr).
Proof. intros Hl Hc Hp Hk. exact (Hk (ledger_release _ _ _ _ _ _ _ Hl Hc Hp)). Qed.

Lemma wp_thrown {B} l0 l P (k : bool -> M B) Q : ledger e ok l0 l P -> ok ExceptionCheck ->
  (ledger e ok l0 (ExceptionCheck :: l) P -> wp (k false) Q (set_jlog (ExceptionCheck :: l) wr)) ->
  (~ obliging e alen -> ledger e ok l0 (ExceptionCheck :: l) P -> wp (k true) Q (set_jlog (ExceptionCheck :: l) wr)) ->
  wp (thrown ≫= k) Q (set_jlog l wr).
Proof.
  intros Hl Hc Hf Ht. pose proof (ledger_cons _ _ _ _ Hl Hc I) as Hl'. unfold wp, thrown, jval, jni, mbind, M_bind, mret, M_ret in *.
  cbn [w_env set_jlog w_jlog]. rewrite He. destruct (Z.eqb_spec (j_val (e_jvm e (ExceptionCheck :: l))) 0) as [Hz|Hz]; [by apply Hf|].
  apply Ht; [|done]. intros []. by apply Hz.
Qed.

Lemma wp_elements {B} l0 l P a (k : option bytes -> M B) Q : ledger e ok l0 l P -> ok (GetByteArrayElements a) ->
  (let r := e_jvm e (GetByteArrayElements a :: l) in j_val r <> 0 -> bytes_ok (j_bytes r) -> len (j_bytes r) = alen a ->
   ledger e ok l0 (GetByteArrayElements a :: l) (a :: P) -> wp (k (Some (j_bytes r))) Q (set_jlog (GetByteArrayElements a :: l) wr)) ->
  (~ obliging e alen -> ledger e ok l0 (GetByteArrayElements a :: l) P -> wp (k None) Q (set_jlog (GetByteArrayElements a :: l) wr)) ->
  wp (elements a ≫= k) Q (set_jlog l wr).
Proof.
  intros Hl Hc Hs Hn. pose proof (ledger_get _ _ _ _ Hl Hc) as Hl'. unfold wp, elements, jni, mbind, M_bind, mret, M_ret in *.
  cbn [w_env set_jlog w_jlog]. rewrite He. destruct (Z.eqb_spec (j_val (e_jvm e (GetByteArrayElements a :: l))) 0) as [Hz|Hz].
  - apply Hn; [|done]. intros []. by eapply ob_elements0.
  - destruct (jvm_elements a l Hz). by apply Hs.
Qed.
End Ledger.

Lemma wp_assoc {A B C} (m : M A) (k : A -> M B) (h : B -> M C) Q w :
  wp (m ≫= (fun a => k a ≫= h)) Q w -> wp ((m ≫= k) ≫= h) Q w.
Proof. unfold wp, mbind, M_bind. by destruct (m w). Qed.

Lemma wp_end {A} (m : M A) Q w : wp (m ≫= mret) Q w -> wp m Q w.
Proof. unfold wp, mbind, M_bind, mret, M_ret. by destruct (m w). Qed.

Lemma wp_rd {B} src off n (k : bytes -> M B) Q w : 0 <= off -> 0 <= n -> off + n <= len src ->
  wp (k (sub src off n)) Q w -> wp (rd src off n ≫= k) Q w.
Proof.
  intros H1 H2 H3 H. unfold rd, assert, wp, mbind, M_bind, mret, M_ret.
  by rewrite (proj2 (Z.leb_le 0 off)), (proj2 (Z.leb_le 0 n)), (proj2 (Z.leb_le (off + n) (len src))) by done.
Qed.

Lemma wp_mret {A B} (a : A) (k : A -> M B) Q w : wp (k a) Q w -> wp (mret a ≫= k) Q w.
Proof. done. Qed.

(** One step of an adapter; the books are the hypothesis of type [ledger]. *)
Ltac jstep :=
  lazymatch goal with
  | |- wp ((_ ≫= _) ≫= _) _ _ => apply wp_assoc
  | |- wp (mret _ ≫= _) _ _ => apply wp_mret
  | |- wp (rd _ _ _ ≫= _) _ _ => apply wp_rd
  | |- wp (wr _ _ _ ≫= _) _ _ => apply wp_wr
  | Hl : ledger ?e ?ok _ _ _ |- wp (jval _ ≫= _) _ (set_jlog _ ?wr) =>
    apply (wp_jval e ok wr ltac:(assumption) _ _ _ _ _ _ Hl); [try done|exact I|clear Hl; intros Hl]
  | Hl : ledger ?e ?ok _ _ _ |- wp (jdo (ReleaseByteArrayElements _ _ _) ≫= _) _ _ => fail
  | Hl : ledger ?e ?ok _ _ _ |- wp (jdo _ ≫= _) _ (set_jlog _ ?wr) =>
    apply (wp_jdo e ok wr _ _ _ _ _ _ Hl); [try done|exact I|clear Hl; intros Hl]
  | _ : Jvm ?e ?alen, Hl : ledger ?e ?ok _ _ _ |- wp (thrown ≫= _) _ (set_jlog _ ?wr) =>
    apply (wp_thrown e alen ok wr ltac:(assumption) _ _ _ _ _ Hl);
      [try done|clear Hl; intros Hl|let Hb := fresh "Hblame" in clear Hl; intros Hb Hl]
  | _ : Jvm ?e ?alen, Hl : ledger ?e ?ok _ _ _ |- wp (elements _ ≫= _) _ (set_jlog _ ?wr) =>
    apply (wp_elements e alen ok wr ltac:(assumption) _ _ _ _ _ _ Hl);
      [try done|clear Hl; intros ?r ?Hr ?Hok ?Hlen Hl|let Hb := fresh "Hblame" in clear Hl; intros Hb Hl]
  end; cbv beta iota.

Section Agree.
Context (e : env) (alen : jref -> Z) `{!Jvm e alen} (wr : world) (He : w_env wr = e) (l : list jcall) (b : JniBridge).
Context (peer : bytes) (Lp : len peer = 65).

Definition agree_result (r : Z * bytes) : Prop :=
  len r.2 = 32 /\ bytes_ok r.2 /\ ((r.1 = 0 /\ java_secret e b peer r.2) \/ (r.1 <> 0 /\ hard_error e alen r.1)).

Definition agree_post (r : Z * bytes) (w' : world) : Prop :=
  agree_result r /\ exists l', w' = set_jlog l' wr /\ ledger e discreet (mark e l) l' [].

Lemma agree_fails rc out l' : bytes_ok out -> len out = 32 -> rc = BAD_STATE_E \/ rc = ECC_BAD_ARG_E -> ~ obliging e alen ->
  ledger e discreet (mark e l) l' [] -> agree_post (rc, out) (set_jlog l' wr).
Proof.
  intros Ho Lo Hrc Hb Hl. split; [|by exists l']. split; [done|]. split; [done|]. right. split; [destruct Hrc; by subst|by split].
Qed.

Lemma jni_take_spec out arr checks l1 after : bytes_ok out -> len out = 32 -> Forall (eq ExceptionCheck) checks ->
  let asked := CallObjectMethod (jb_object b) (jb_method b) (jb_privateKey b) arr :: checks ++ SetByteArrayRegion arr 0 65 peer :: l1 in
  let agreed := j_val (e_jvm e asked) in
  agreed <> 0 -> Forall (idle arr agreed) after -> ledger e discreet (mark e l) (after ++ asked) [] ->
  wp (jni_take agreed out) agree_post (set_jlog (after ++ asked) wr).
Proof.
  intros Ho Lo Hch asked agreed Ha Haf Hl. unfold jni_take. jstep. rewrite jvm_length.
  destruct (Z.eqb_spec (alen agreed) 32) as [Hn|Hn]; cbn [negb].
  2:{ jstep. apply agree_fails; auto. intros Hob. destruct (ob_call _ _ Hob (jb_object b) (jb_method b) (jb_privateKey b) arr
        (checks ++ SetByteArrayRegion arr 0 65 peer :: l1)) as [_ H32]. done. }
  jstep.
  - assert (len (j_bytes r) = 32) as L32 by congruence. jstep; [lia..|]. rewrite sub_all by lia.
    jstep; [lia..|]. rewrite splice_full by (unfold len in *; lia). jstep; [lia|change (len (zeros 32)) with 32; lia|].
    rewrite splice_full by (unfold len in *; change (length (zeros 32)) with 32%nat; lia).
    apply (wp_release e discreet wr _ _ _ [] _ _ _ _ _ Hl); [by split|intros x; cbn [count]; lia|]. clear Hl. intros Hl. jstep.
    split; [|by eexists]. split; [done|]. split; [done|]. left. split; [done|].
    exists l1, checks, arr, (GetArrayLength agreed :: after). split; [done|]. cbv zeta. fold asked agreed.
    split; [constructor; [by right; right|done]|]. done.
  - jstep. by apply agree_fails; auto.
Qed.

Lemma jni_agree_spec out : bytes_ok out -> len out = 32 -> wp (jni_agree b peer out) agree_post (set_jlog l wr).
Proof.
  intros Ho Lo. pose proof (ledger_start e discreet l) as Hl. unfold jni_agree. jstep.
  set (p := j_val _). destruct (Z.eqb_spec p 0) as [Hp|Hp].
  - assert (~ obliging e alen) as Hb by (intros []; by apply (ob_new0 65 l)).
    jstep. jstep; jstep; by apply agree_fails; auto.
  - jstep; [|jstep; jstep; by apply agree_fails; auto].
    jstep; [lia..|]. rewrite sub_all by lia. do 3 jstep.
    jstep; [|jstep; by apply agree_fails; auto].
    set (agreed := j_val _). destruct (Z.eqb_spec agreed 0) as [Ha|Ha].
    { apply agree_fails; auto. intros []. eapply ob_call0; exact Ha. }
    apply (jni_take_spec out p [] _ [ExceptionCheck; DeleteLocalRef p]); try done.
    repeat apply List.Forall_cons; unfold idle; auto.
Qed.

Lemma sender_done_spec rc p dh n out l1 : ledger e discreet (mark e l) l1 [] ->
  (forall l', ledger e discreet (mark e l) l' [] -> agree_post (rc, out) (set_jlog l' wr)) ->
  wp (sender_done rc p dh None n out) agree_post (set_jlog l1 wr).
Proof.
  intros Hl Hpost. unfold sender_done. jstep.
  assert (forall r k l1, ledger e discreet (mark e l) l1 [] ->
    (forall l', ledger e discreet (mark e l) l' [] -> wp (k tt) agree_post (set_jlog l' wr)) ->
    wp ((if negb (r =? 0) then jdo (DeleteLocalRef r) else mret tt) ≫= k) agree_post (set_jlog l1 wr)) as Hdel.
  { intros r k l2 Hl2 Hk. destruct (negb (r =? 0)); [|by apply Hk]. clear Hl. jstep. by apply Hk. }
  apply Hdel; [done|]. clear Hl. intros l2 Hl. apply Hdel; [done|]. clear Hl. intros l3 Hl.
  jstep; jstep; by apply Hpost.
Qed.

Lemma sender_fails p dh n out l1 : bytes_ok out -> len out = 32 -> ~ obliging e alen -> ledger e discreet (mark e l) l1 [] ->
  wp (sender_done BAD_STATE_E p dh None n out) agree_post (set_jlog l1 wr).
Proof. intros Ho Lo Hb Hl. apply sender_done_spec; [done|]. intros l' Hl'. apply agree_fails; auto. Qed.

Lemma sender_take_spec out arr checks l1 after : bytes_ok out -> len out = 32 -> Forall (eq ExceptionCheck) checks ->
  let asked := CallObjectMethod (jb_object b) (jb_method b) (jb_privateKey b) arr :: checks ++ SetByteArrayRegion arr 0 65 peer :: l1 in
  let agreed := j_val (e_jvm e asked) in
  agreed <> 0 -> Forall (idle arr agreed) after -> ledger e discreet (mark e l) (after ++ asked) [] ->
  wp (sender_take arr agreed out) agree_post (set_jlog (after ++ asked) wr).
Proof.
  intros Ho Lo Hch asked agreed Ha Haf Hl. unfold sender_take. jstep. rewrite jvm_length.
  jstep; [|by apply sender_fails]. pose proof (jvm_length_ok agreed) as Hrange. unfold INT_MAX in Hrange.
  destruct (Z.eqb_spec (alen agreed) 32) as [Hn|Hn]; cbn [negb].
  - assert (len (j_bytes r) = 32) as L32 by congruence. jstep; [lia..|]. rewrite sub_all by lia.
    jstep; [lia..|]. rewrite splice_full by (unfold len in *; lia). jstep; [lia|change (len (zeros 32)) with 32; lia|].
    rewrite splice_full by (unfold len in *; change (length (zeros 32)) with 32%nat; lia).
    apply (wp_release e discreet wr _ _ _ [] _ _ _ _ _ Hl); [by split|intros x; cbn [count]; lia|]. clear Hl. intros Hl.
    apply sender_done_spec; [done|]. intros l' Hl'. split; [|by exists l']. split; [done|]. split; [done|]. left. split; [done|].
    exists l1, checks, arr, (GetArrayLength agreed :: after). split; [done|]. cbv zeta. fold asked agreed.
    split; [constructor; [by right; right|done]|]. done.
  - assert (~ obliging e alen) as Hb.
    { intros Hob. destruct (ob_call _ _ Hob (jb_object b) (jb_method b) (jb_privateKey b) arr
        (checks ++ SetByteArrayRegion arr 0 65 peer :: l1)) as [_ H32]. done. }
    unfold sender_done. jstep. rewrite w32_id by lia. jstep; [lia|rewrite len_zeros; lia|].
    rewrite splice_full by (apply Nat2Z.inj; fold (len (zeros (alen agreed))); fold (len (j_bytes r)); rewrite len_zeros; lia).
    apply (wp_release e discreet wr _ _ _ [] _ _ _ _ _ Hl); [split; [done|]; by rewrite len_zeros by lia|intros x; cbn [count]; lia|]. clear Hl. intros Hl.
    apply (sender_fails arr agreed 0 out); done.
Qed.

Lemma sender_agree_spec out : bytes_ok out -> len out = 32 -> wp (sender_agree b peer out) agree_post (set_jlog l wr).
Proof.
  intros Ho Lo. pose proof (ledger_start e discreet l) as Hl. unfold sender_agree. jstep.
  set (p := j_val _). destruct (Z.eqb_spec p 0) as [Hp|Hp].
  - assert (~ obliging e alen) as Hb by (intros []; by apply (ob_new0 65 l)). jstep. by apply sender_fails.
  - jstep; [|by apply sender_fails]. jstep; [lia..|]. rewrite sub_all by lia. jstep. jstep; [|by apply sender_fails].
    jstep. jstep; [|by apply sender_fails]. cbn [orb]. set (agreed := j_val _). destruct (Z.eqb_spec agreed 0) as [Ha|Ha].
    { apply sender_fails; auto. intros []. eapply ob_call0; exact Ha. }
    apply (sender_take_spec out p [ExceptionCheck] _ [ExceptionCheck]); try done; repeat apply List.Forall_cons; unfold idle; auto.
Qed.
End Agree.

(** A function that behaves so is a bridge as the core expects it. *)
Lemma agree_good e alen agree b sp : sp <> 0 ->
  (forall wr l peer out, w_env wr = e -> len peer = 65 -> bytes_ok out -> len out = 32 ->
     wp (agree b peer out) (agree_post e alen wr l b peer) (set_jlog l wr)) ->
  good_bridge (stack_bridge sp agree b) e (java_secret e b) (hard_error e alen) sp.
Proof.
  intros Hsp Ha. split; [done|]. split; [by eexists|]. intros tbl Hz. eexists. split; [reflexivity|].
  intros peer out [Hok Hlen Hunc] Oo Lo w He Hm Hd. destruct w as [w_env0 na li no jl dv st rg me]. cbn [w_env] in He.
  set (w0 := {| w_env := w_env0 |}). eapply wp_mono; [apply (Ha w0 jl peer out); done|].
  intros r w' [Hr (l' & -> & [(d & -> & Hd') Hp])]. split; [exact Hr|]. subst w_env0. split; try done; [cbn; lia|].
  exists d. split; [done|]. split; [done|]. intros a. rewrite Hp. cbn [count]. apply Z.add_0_r.
Qed.

(** ** Opening *)

(** What an adapter leaves of the core's state. *)
Definition at_rest (w w' : world) : Prop :=
  core_inv w' /\ w_live w' = w_live w /\ w_env w' = w_env w /\ log_grows (w_env w) (w_jlog w) (w_jlog w') /\
  agreeMethod w' = agreeMethod w /\ wolfcrypt_init_state w' = wolfcrypt_init_state w.

Lemma settled_at_rest w w' : settled w w' -> at_rest w w'.
Proof. intros (H1 & H2 & H3 & (H4 & H5 & H6) & _). done. Qed.

Lemma at_rest_refl w : core_inv w -> at_rest w w.
Proof. intros H. by repeat split; try apply H; apply log_grows_refl. Qed.

Section Core.
Context (others : nat -> Z -> forall i, Z -> M (Z * reply i)) (sp : Z) (Hsp : sp <> 0).
Context (e : env) (alen : jref -> Z) `{!Jvm e alen} (Hos : os_sane e) (b : JniBridge).

Lemma jni_good : good_bridge (stack_bridge sp jni_agree b) e (java_secret e b) (hard_error e alen) sp.
Proof. apply agree_good; [done|]. intros. by apply jni_agree_spec. Qed.

Lemma sender_good : good_bridge (stack_bridge sp sender_agree b) e (java_secret e b) (hard_error e alen) sp.
Proof. apply agree_good; [done|]. intros. by apply sender_agree_spec. Qed.

Lemma obliging_no_error : obliging e alen -> forall rc, ~ hard_error e alen rc.
Proof. by intros Ho rc [_ Hn]. Qed.

(** Ciphertext and tag of the wire format. *)
Definition body (ct : bytes) : bytes := take (Z.to_nat (len ct - 16)) ct.
Definition tag_of (ct : bytes) : bytes := drop (Z.to_nat (len ct - 16)) ct.

(** [p] is what RFC 9180 opens, under the secret of the Java object. *)
Definition opens_to (recipient enc ct info aad p : bytes) : Prop :=
  is_point 32 recipient /\ is_point 32 enc /\ 0 < len info <= max_info /\ 0 < len aad /\ info <> aad /\
  exists dh, java_secret e b enc dh /\
    Rfc9180.Open (core_context dh enc recipient info) 0 aad (body ct) (tag_of ct) = Some p.

(** Everything is there for the opening to succeed. *)
Definition all_well (w : world) : Prop := obliging e alen /\ entropy_ok e /\ ~ oom e /\ ~ cannot_register w.

Definition can_open (w : world) (recipient enc ct info aad : bytes) : Prop :=
  all_well w /\ is_point 32 recipient /\ is_point 32 enc /\ 0 < len info <= max_info /\ 0 < len aad <= INT_MAX /\ info <> aad /\
  17 <= len ct <= INT_MAX /\
  forall dh, java_secret e b enc dh -> Rfc9180.Open (core_context dh enc recipient info) 0 aad (body ct) (tag_of ct) <> None.

Lemma core_open_any w recipient enc ct info aad : w_env w = e -> core_inv w ->
  bytes_ok recipient -> bytes_ok enc -> bytes_ok ct -> bytes_ok info -> bytes_ok aad -> 17 <= len ct ->
  let n := len ct - 16 in
  wp (zt_hpke_open (stack_bridge sp jni_agree b) others sp (Some recipient) (len recipient) (Some enc) (len enc)
        (Some ct) (len ct) (Some info) (len info) (Some aad) (len aad) (Some (zeros n)) n)
    (fun r w' => (exists ret p, r = (ret, Some p) /\ len p = n /\ (ret = 0 -> opens_to recipient enc ct info aad p) /\
                    (ret <> 0 -> ~ can_open w recipient enc ct info aad)) /\ at_rest w w') w.
Proof.
  intros He Hi Or Oe Oc Oi Oa Lc n. pose proof (len_nonneg info). pose proof (len_nonneg aad).
  assert (len (zeros n) = n) as Lz by (apply len_zeros; lia).
  destruct (open_cases (stack_bridge sp jni_agree b) others sp (Some recipient) (len recipient) (Some enc) (len enc)
    (Some ct) (len ct) (Some info) (len info) (Some aad) (len aad) (Some (zeros n)) n w) as [[Hn Hm]|[(_ & Hn & _)|(HP & _ & Hrest)]];
    [lia|split; [lia|]; by intros d [= <-]..| |lia|].
  - unfold wp. rewrite Hm. split; [|by apply at_rest_refl]. exists BAD_FUNC_ARG, (zeros n). split; [done|]. split; [done|].
    split; [done|]. intros _ (_ & [_ L1 _] & [_ L2 _] & L3 & L4 & Hne & L5 & _). apply Hn. unfold open_profile, max_info, INT_MAX in *.
    repeat split; try done; try lia. intros _. cbn [default from_option id]. by rewrite !take_len.
  - destruct HP as (_ & _ & L1 & _ & L2 & _ & L3 & _ & L4 & _ & L5 & _ & Hne). cbn [default from_option id] in Hne.
    rewrite !take_len in Hne by done. unfold INT_MAX in *.
    destruct Hrest as (? & ? & ? & ? & ? & ? & [= <-] & [= <-] & [= <-] & [= <-] & [= <-] & [= <-] & Hm). unfold wp. rewrite Hm. clear Hm.
    assert (ct = body ct ++ tag_of ct) as Ect by (symmetry; apply take_drop).
    assert (len (body ct) = n) as Lb by (unfold body, len in *; rewrite length_take; lia).
    assert (len (tag_of ct) = 16) as Lt by (unfold tag_of, len in *; rewrite length_drop; lia).
    assert (info <> aad) as Hne' by (intros ->; by apply Hne).
    pose proof (open_rest_spec (stack_bridge sp jni_agree b) others e (java_secret e b) (hard_error e alen) Hos sp w
      recipient enc info aad (body ct) (tag_of ct) (zeros n)) as Hs. rewrite <-Ect in Hs.
    eapply (wp_mono (open_rest _ _ _ _ _ _ _ _ _ _ _ _)); [apply Hs; try done; try lia; [apply jni_good|by apply bytes_ok_take|by apply bytes_ok_drop|apply bytes_ok_zeros]|].
    clear Hs. intros r w' [(ret & p & -> & Hres) Hst]. split; [|by apply settled_at_rest]. exists ret, p. split; [done|].
    destruct Hres as [[(P1 & P2 & Hmax & dh & HD & Hop)|(Hret & Hp & Hf)]|[[Hret Hcr] Hp]]; cbn [fst snd] in *.
    + destruct (Rfc9180.Open _ _ _ _ _) as [q|] eqn:Eo; injection Hop as -> ->.
      * pose proof (core_opened _ _ _ _ _ _ _ _ Eo) as Lq.
        rewrite splice_full by (apply Nat2Z.inj; fold (len (zeros n)); fold (len q); lia).
        split; [lia|]. split; [|done]. intros _. repeat (split; [done || lia|]). by exists dh.
      * split; [rewrite Lb, len_splice; [done|lia|lia]|]. split; [done|]. intros _ (_ & _ & _ & _ & _ & _ & _ & Hall).
        by apply (Hall dh HD).
    + subst p. split; [done|]. split; [done|]. intros _ ((Hob & Hen & Hoom & _) & P1 & P2 & L6 & _).
      apply (open_no_err e (hard_error e alen) enc recipient info ret); try done; [lia|by apply obliging_no_error].
    + subst p. split; [done|]. split; [by subst|]. intros _ ((_ & _ & _ & Hnc) & _). done.
Qed.

(** [c] is what RFC 9180 seals, under the secret of the Java object. *)
Definition seals_to (enc recipient cek info aad c : bytes) : Prop :=
  is_point 32 enc /\ is_point 32 recipient /\ 0 < len info <= max_info /\ 0 < len aad /\ info <> aad /\
  exists dh, java_secret e b recipient dh /\ c = Rfc9180.Seal (core_context dh enc recipient info) 0 aad cek.

Definition can_seal (w : world) (enc recipient info aad : bytes) : Prop :=
  all_well w /\ is_point 32 enc /\ is_point 32 recipient /\ 0 < len info <= max_info /\ 0 < len aad <= 1024 /\ info <> aad.

Lemma core_seal_any w enc recipient cek info aad : w_env w = e -> core_inv w ->
  bytes_ok enc -> len enc = 65 -> bytes_ok recipient -> len recipient = 65 -> bytes_ok cek -> len cek = 32 ->
  bytes_ok info -> 1 <= len info <= 1024 -> bytes_ok aad -> 1 <= len aad <= 1024 ->
  wp (zt_hpke_seal_cek (stack_bridge sp sender_agree b) others sp (Some enc) 65 (Some recipient) 65 (Some cek) 32
        (Some info) (len info) (Some aad) (len aad) (Some (zeros 48)) 48)
    (fun r w' => (exists ret c, r = (ret, Some c) /\ len c = 48 /\ (ret = 0 -> seals_to enc recipient cek info aad c) /\
                    (ret <> 0 -> ~ can_seal w enc recipient info aad)) /\ at_rest w w') w.
Proof.
  intros He Hi Oe Le Or Lr Ok Lk Oi Li Oa La.
  destruct (seal_cases (stack_bridge sp sender_agree b) others sp (Some enc) 65 (Some recipient) 65 (Some cek) 32
    (Some info) (len info) (Some aad) (len aad) (Some (zeros 48)) 48 w) as [[Hn Hm]|[(_ & Hn & _)|(HP & _ & Hrest)]];
    [split; [lia|]; by intros d [= <-]..| |lia|].
  - unfold wp. rewrite Hm. split; [|by apply at_rest_refl]. exists BAD_FUNC_ARG, (zeros 48). split; [done|]. split; [done|].
    split; [done|]. intros _ (_ & _ & _ & L4 & _ & Hne). apply Hn. unfold seal_profile.
    repeat split; try done; try lia. intros _. cbn [default from_option id]. by rewrite !take_len.
  - destruct HP as (_ & _ & _ & _ & _ & _ & _ & _ & _ & L4 & _ & L5 & _ & Hne). cbn [default from_option id] in Hne.
    rewrite !take_len in Hne by done. assert (info <> aad) as Hne' by (intros ->; by apply Hne).
    destruct Hrest as (? & ? & ? & ? & ? & ? & [= <-] & [= <-] & [= <-] & [= <-] & [= <-] & [= <-] & Hm). unfold wp. rewrite Hm. clear Hm.
    eapply (wp_mono (seal_rest _ _ _ _ _ _ _ _ _ _ _)); [apply (seal_rest_spec (stack_bridge sp sender_agree b) others e (java_secret e b)
      (hard_error e alen) Hos sp w enc recipient cek info aad (zeros 48)); try done; try lia; [apply sender_good|apply bytes_ok_zeros]|].
    change (splice (zeros 48) 0 (zeros 48)) with (zeros 48).
    intros r w' [(ret & c & -> & Hres) Hst]. split; [|by apply settled_at_rest]. exists ret, c. split; [done|].
    destruct Hres as [[(Hret & P1 & P2 & Hmax & dh & HD & Hc)|(Hret & Hc & Hf)]|[[Hret Hcr] Hc]]; cbn [fst snd] in *; subst c.
    + destruct (core_sealed dh enc recipient info aad cek Ok Lk) as (ct & tag & Es & Lc & Lt & _).
      assert (len (Rfc9180.Seal (core_context dh enc recipient info) 0 aad cek) = 48) as L48 by (rewrite Es, len_app; lia).
      rewrite splice_full by (apply Nat2Z.inj; fold (len (zeros 48)); change (len (zeros 48)) with 48; symmetry; exact L48).
      split; [done|]. split; [|done]. intros _. repeat (split; [done || lia|]). by exists dh.
    + split; [done|]. split; [done|]. intros _ ((Hob & Hen & Hoom & _) & P1 & P2 & L6 & _).
      apply (seal_no_err e (hard_error e alen) enc recipient info ret); try done; [lia|by apply obliging_no_error].
    + split; [done|]. split; [by subst|]. intros _ ((_ & _ & _ & Hnc) & _). done.
Qed.
End Core.

(** ** Adapters step by step *)

(** The elements of array [a] are [b], whenever they can be had. *)
Definition contents (e : env) (alen : jref -> Z) (a : jref) (b : bytes) : Prop :=
  alen a = len b /\ forall l, let r := e_jvm e (GetByteArrayElements a :: l) in j_val r <> 0 -> j_bytes r = b.

(** A discreet call, or one that gives the elements of an array of [S] back without
    writing them. *)
Definition discreet_on (S : list jref) (c : jcall) : Prop :=
  discreet c \/ exists a b, a ∈ S /\ c = ReleaseByteArrayElements a b JNI_ABORT.

(** [P] and, if its elements were had, [a]. *)
Definition pin (o : option bytes) (a : jref) (P : list jref) : list jref :=
  match o with Some _ => a :: P | None => P end.

Definition one (o : option bytes) (a x : jref) : Z :=
  match o with Some _ => if a =? x then 1 else 0 | None => 0 end.

Lemma count_pin x o a P : count x (pin o a P) = one o a x + count x P.
Proof. by destruct o. Qed.

Lemma set_jlog_same w : set_jlog (w_jlog w) w = w.
Proof. by destruct w. Qed.

Lemma wp_malloc {B} l wr (k : bool -> M B) Q :
  (wp (k true) Q (set_jlog l (set_alloc (S (w_nalloc wr)) (S (w_live wr)) wr))) ->
  (oom (w_env wr) -> wp (k false) Q (set_jlog l (set_alloc (S (w_nalloc wr)) (w_live wr) wr))) ->
  wp (wolfSSL_Malloc ≫= k) Q (set_jlog l wr).
Proof.
  intros Ht Hf. apply wp_bind. unfold wp at 1, wolfSSL_Malloc. cbn [w_env w_nalloc w_live set_jlog].
  destruct (e_alloc (w_env wr) (w_nalloc wr)) eqn:E; [exact Ht|]. apply Hf. by eexists.
Qed.

Lemma wp_tell {B} c l wr (k : unit -> M B) Q : wp (k tt) Q (set_jlog (c :: l) wr) -> wp (jdo c ≫= k) Q (set_jlog l wr).
Proof. done. Qed.

Lemma wp_free {B} l wr n (k : unit -> M B) Q : w_live wr = S n ->
  wp (k tt) Q (set_jlog l (set_alloc (w_nalloc wr) n wr)) -> wp (wolfSSL_Free ≫= k) Q (set_jlog l wr).
Proof. intros Hn Hk. unfold wp, wolfSSL_Free, mbind, M_bind. cbn [w_live set_jlog]. by rewrite Hn. Qed.

Section Steps.
Context (e : env) (alen : jref -> Z) `{!Jvm e alen} (S : list jref) (wr : world) (He : w_env wr = e) (l0 : start).
Notation books := (ledger e (discreet_on S) l0).

Lemma discreet_on_plain c : discreet c -> discreet_on S c.
Proof. by left. Qed.

Lemma wp_pin {B} l P a b (k : option bytes -> M B) Q : books l P -> contents e alen a b ->
  (forall o l', books l' (pin o a P) -> (o = None -> ~ obliging e alen) -> (forall d, o = Some d -> d = b /\ bytes_ok b) ->
     wp (k o) Q (set_jlog l' wr)) ->
  wp (elements a ≫= k) Q (set_jlog l wr).
Proof.
  intros Hl [Hlen Hc] Hk. jstep; [by left| |].
  - apply Hk; [done|done|]. intros d [= <-]. unfold r in *. rewrite Hc by done. split; [done|]. rewrite <-(Hc l Hr). done.
  - by apply Hk.
Qed.

Lemma wp_unpin {B} l P P' a o (k : unit -> M B) Q : books l P -> a ∈ S ->
  (forall x, count x P = one o a x + count x P') ->
  (forall l', books l' P' -> wp (k tt) Q (set_jlog l' wr)) ->
  wp (release_unchanged a o ≫= k) Q (set_jlog l wr).
Proof.
  intros Hl Ha Hx Hk. destruct o as [d|]; cbn [release_unchanged one] in *.
  - apply (wp_release e _ wr _ _ _ P' _ _ _ _ _ Hl); [right; by exists a, d|done|]. apply Hk.
  - jstep. apply Hk. destruct Hl as [H1 H2]. split; [done|]. intros y. rewrite H2, Hx. lia.
Qed.

Lemma wp_throw {B} l P msg (k : unit -> M B) Q : books l P ->
  (forall l', books l' P -> wp (k tt) Q (set_jlog l' wr)) -> wp (throwSecurity msg ≫= k) Q (set_jlog l wr).
Proof.
  intros Hl Hk. unfold throwSecurity. jstep. jstep; [by left|]. destruct (negb _); jstep; [by left|..]; by apply Hk.
Qed.

Lemma wp_length {B} l P a (k : Z -> M B) Q : books l P ->
  (forall l', books l' P -> wp (k (alen a)) Q (set_jlog l' wr)) -> wp (jval (GetArrayLength a) ≫= k) Q (set_jlog l wr).
Proof. intros Hl Hk. jstep; [by left|]. rewrite jvm_length. by apply Hk. Qed.

(** The method, from the virtual machine or from the static variable. *)
Lemma wp_method {B} l P receiver (k : Z -> M B) Q : books l P ->
  (forall m l', books l' P -> (m = 0 -> ~ obliging e alen) -> wp (k m) Q (set_jlog l' (set_method m wr))) ->
  wp (find_method receiver ≫= k) Q (set_jlog l wr).
Proof.
  intros Hl Hk. unfold find_method. jstep. apply wp_bind. unfold wp at 1, get. change (agreeMethod (set_jlog l wr)) with (agreeMethod wr).
  destruct (Z.eqb_spec (agreeMethod wr) 0) as [Hm|Hm].
  - jstep. jstep; [by left|]. jstep. jstep; [by left|]. jstep. apply wp_bind. unfold wp at 1, modify. jstep.
    apply Hk; [done|]. intros Hz []. by eapply ob_method0.
  - jstep. assert (set_method (agreeMethod wr) wr = wr) as E by (by destruct wr). specialize (Hk (agreeMethod wr) l Hl). rewrite E in Hk.
    apply Hk. done.
Qed.
End Steps.

Section NativeOpen.
Context (others : nat -> Z -> forall i, Z -> M (Z * reply i)) (sp : Z) (Hsp : sp <> 0).
Context (e : env) (alen : jref -> Z) `{!Jvm e alen} (Hos : os_sane e).
Context (jRecipient jEnc jCt jInfo jAad : jref) (recipient enc ct info aad : bytes).
Context (Hr : contents e alen jRecipient recipient) (He : contents e alen jEnc enc) (Hc : contents e alen jCt ct).
Context (Hi : contents e alen jInfo info) (Ha : contents e alen jAad aad).

Notation inputs := [jRecipient; jEnc; jCt; jInfo; jAad].

(** The answer [r] of an opening: NULL, unless everything was there for a success,
    and nothing of the plaintext was shown; or a new array that was given the
    plaintext of RFC 9180 in the last call. *)
Definition opened (b : JniBridge) (w : world) (l0 l : list jcall) (r : jref) : Prop :=
  (r = 0 /\ ~ can_open e alen b w recipient enc ct info aad /\ exists d, l = d ++ l0 /\ Forall (discreet_on inputs) d) \/
  (r <> 0 /\ exists p d, l = SetByteArrayRegion r 0 (len p) p :: d ++ l0 /\ Forall (discreet_on inputs) d /\
   opens_to e b recipient enc ct info aad p).

Definition open_post (b : JniBridge) (w : world) (l0 : list jcall) (n : nat) (r : jref) (w' : world) : Prop :=
  w_env w' = e /\ core_inv w' /\ w_live w' = n /\ agreeMethod w' = jb_method b /\ wolfcrypt_init_state w' = wolfcrypt_init_state w /\
  (forall a, pins e (w_jlog w') a = pins e l0 a) /\ opened b w l0 (w_jlog w') r.

Lemma wp_scrub {B} p n m v l (k : unit -> M B) Q : len p = n -> 0 <= n -> w_live v = S m ->
  wp (k tt) Q (set_jlog l (set_alloc (w_nalloc v) m v)) ->
  wp (wr p 0 (zeros n) ≫= (fun _ => wolfSSL_Free ≫= k)) Q (set_jlog l v).
Proof. intros Lp Hn Hm Hk. apply wp_wr; [lia|rewrite len_zeros; lia|]. by eapply wp_free. Qed.

Lemma open_finish_spec b w l0 v l n ret p : w_env v = e -> core_inv v -> w_live v = S n -> agreeMethod v = jb_method b ->
  wolfcrypt_init_state v = wolfcrypt_init_state w ->
  len p = len ct - 16 -> 17 <= len ct -> ledger e (discreet_on inputs) (mark e l0) l [] ->
  (ret = 0 -> opens_to e b recipient enc ct info aad p) -> (ret <> 0 -> ~ can_open e alen b w recipient enc ct info aad) ->
  wp (open_finish ret p (len ct - 16)) (open_post b w l0 n) (set_jlog l v).
Proof.
  intros Henv Hinv Hlive Hm Hst Lp Lc Hl Hok Hno. unfold open_finish.
  assert (forall r l', (forall a, pins e l' a = pins e l0 a) -> opened b w l0 l' r ->
    open_post b w l0 n r (set_jlog l' (set_alloc (w_nalloc v) n v))) as Hpost by done.
  assert (forall l', ledger e (discreet_on inputs) (mark e l0) l' [] -> ~ can_open e alen b w recipient enc ct info aad ->
    open_post b w l0 n 0 (set_jlog l' (set_alloc (w_nalloc v) n v))) as Hnull.
  { intros l' [Hd Hp] Hn. apply Hpost; [intros a; rewrite Hp; apply Z.add_0_r|]. by left. }
  destruct (Z.eqb_spec ret 0) as [Hret|Hret]; cbn [negb].
  - jstep; [by left|]. set (res := j_val _). destruct (Z.eqb_spec res 0) as [Hz|Hz]; cbn [negb].
    + jstep. apply (wp_scrub _ _ n); [done|lia|done|]. rewrite Hz. apply Hnull; [done|]. intros ([Hob _] & _).
      by apply (ob_new _ _ Hob (len ct - 16) l).
    + jstep. jstep; [lia..|]. rewrite sub_all by lia. destruct Hl as [(d & Hd & Hf) Hp].
      apply wp_tell, (wp_scrub _ _ n); [done|lia|done|]. apply Hpost.
      { intros a. transitivity (pins e (NewByteArray (len ct - 16) :: l) a); [cbn [pins]; lia|]. rewrite Hp. apply Z.add_0_r. }
      right. split; [done|]. exists p, d. rewrite Lp, Hd. auto.
  - apply (wp_throw e inputs v Henv (mark e l0) l []); [done|]. intros l' Hl'. apply (wp_scrub _ _ n); [done|lia|done|]. by apply Hnull; auto.
Qed.

(** Give everything back. *)
Lemma wp_unpin_all {B} v l0 l o1 o2 o3 o4 o5 (k : unit -> M B) Q :
  ledger e (discreet_on inputs) (mark e l0) l (pin o5 jAad (pin o4 jInfo (pin o3 jCt (pin o2 jEnc (pin o1 jRecipient []))))) ->
  (forall l', ledger e (discreet_on inputs) (mark e l0) l' [] -> wp (k tt) Q (set_jlog l' v)) ->
  wp (release_unchanged jRecipient o1 ≫= (fun _ => release_unchanged jEnc o2 ≫= (fun _ => release_unchanged jCt o3 ≫= (fun _ =>
      release_unchanged jInfo o4 ≫= (fun _ => release_unchanged jAad o5 ≫= k))))) Q (set_jlog l v).
Proof.
  intros Hl Hk.
  apply (wp_unpin e inputs v (mark e l0) l _ (pin o5 jAad (pin o4 jInfo (pin o3 jCt (pin o2 jEnc [])))) _ _ _ _ Hl); [set_solver|intros x; rewrite !count_pin; lia|].
  clear Hl. intros l2 Hl. apply (wp_unpin e inputs v (mark e l0) l2 _ (pin o5 jAad (pin o4 jInfo (pin o3 jCt []))) _ _ _ _ Hl); [set_solver|intros x; rewrite !count_pin; lia|].
  clear Hl. intros l3 Hl. apply (wp_unpin e inputs v (mark e l0) l3 _ (pin o5 jAad (pin o4 jInfo [])) _ _ _ _ Hl); [set_solver|intros x; rewrite !count_pin; lia|].
  clear Hl. intros l4 Hl. apply (wp_unpin e inputs v (mark e l0) l4 _ (pin o5 jAad []) _ _ _ _ Hl); [set_solver|intros x; rewrite !count_pin; lia|].
  clear Hl. intros l5 Hl. apply (wp_unpin e inputs v (mark e l0) l5 _ [] _ _ _ _ Hl); [set_solver|intros x; rewrite !count_pin; lia|done].
Qed.
Lemma open_pinned_spec b w l0 v l n : w_env v = e -> core_inv v -> w_live v = S n -> agreeMethod v = jb_method b ->
  wolfcrypt_init_state v = wolfcrypt_init_state w ->
  (cannot_register v -> cannot_register w) -> 17 <= len ct -> ledger e (discreet_on inputs) (mark e l0) l [] ->
  wp (open_pinned others sp b jRecipient jEnc jCt jInfo jAad (len recipient) (len enc) (len ct) (len info) (len aad) (len ct - 16))
    (open_post b w l0 n) (set_jlog l v).
Proof.
  intros Henv Hinv Hlive Hm Hst Hreg Lc Hl. unfold open_pinned.
  apply (wp_pin e alen inputs v Henv (mark e l0) l _ _ recipient _ _ Hl Hr). clear Hl. intros o1 l1 Hl N1 S1.
  apply (wp_pin e alen inputs v Henv (mark e l0) l1 _ _ enc _ _ Hl He). clear Hl. intros o2 l2 Hl N2 S2.
  apply (wp_pin e alen inputs v Henv (mark e l0) l2 _ _ ct _ _ Hl Hc). clear Hl. intros o3 l3 Hl N3 S3.
  apply (wp_pin e alen inputs v Henv (mark e l0) l3 _ _ info _ _ Hl Hi). clear Hl. intros o4 l4 Hl N4 S4.
  apply (wp_pin e alen inputs v Henv (mark e l0) l4 _ _ aad _ _ Hl Ha). clear Hl. intros o5 l5 Hl N5 S5.
  assert (~ obliging e alen -> wp (release_unchanged jRecipient o1 ≫= (fun _ => release_unchanged jEnc o2 ≫= (fun _ =>
    release_unchanged jCt o3 ≫= (fun _ => release_unchanged jInfo o4 ≫= (fun _ => release_unchanged jAad o5 ≫= (fun _ =>
    wr (zeros (len ct - 16)) 0 (zeros (len ct - 16)) ≫= (fun _ => wolfSSL_Free ≫= (fun _ => mret 0))))))))
    (open_post b w l0 n) (set_jlog l5 v)) as Hfail.
  { intros Hb. apply (wp_unpin_all v l0 l5 o1 o2 o3 o4 o5 _ _ Hl). intros l' [Hd Hp].
    apply (wp_scrub _ _ n); [apply len_zeros; lia|lia|done|]. repeat (split; [done|]). split; [intros a; rewrite Hp; apply Z.add_0_r|].
    left. split; [done|]. split; [|done]. by intros ([Hob _] & _). }
  destruct o1 as [d1|]; [|by apply Hfail, N1]. destruct o2 as [d2|]; [|by apply Hfail, N2]. destruct o3 as [d3|]; [|by apply Hfail, N3].
  destruct o4 as [d4|]; [|by apply Hfail, N4]. destruct o5 as [d5|]; [|by apply Hfail, N5]. clear Hfail N1 N2 N3 N4 N5.
  destruct (S1 _ eq_refl) as [-> O1], (S2 _ eq_refl) as [-> O2], (S3 _ eq_refl) as [-> O3], (S4 _ eq_refl) as [-> O4], (S5 _ eq_refl) as [-> O5].
  clear S1 S2 S3 S4 S5. apply wp_bind.
  eapply wp_mono; [apply (core_open_any others sp Hsp e alen Hos b (set_jlog l5 v) recipient enc ct info aad); done|].
  intros r w1 [(ret & p & -> & Lp & Hok & Hno) (Hi1 & Hl1 & He1 & Hg1 & Hm1 & Hst1)].
  rewrite <-(set_jlog_same w1).
  apply (wp_unpin_all w1 l0 (w_jlog w1) (Some recipient) (Some enc) (Some ct) (Some info) (Some aad)).
  { eapply ledger_grows; [apply discreet_on_plain|exact Hl|]. cbn [w_env set_jlog w_jlog] in Hg1. by rewrite Henv in Hg1. }
  intros l' Hl'. cbn [default from_option id]. apply open_finish_spec; try done.
  - cbn in He1. congruence.
  - cbn in Hl1. congruence.
  - cbn in Hm1. congruence.
  - cbn in Hst1. congruence.
  - intros Hret Hcan. apply (Hno Hret). destruct Hcan as ((C1 & C2 & C3 & C4) & Hrest). split; [|done]. repeat (split; [done|]).
    intros Hcr. by apply C4, Hreg.
Qed.

Lemma nativeOpen_spec w receiver privateKey : w_env w = e -> core_inv w ->
  wp (nativeOpen others sp receiver privateKey jRecipient jEnc jCt jInfo jAad)
    (fun r w' => open_post {| jb_object := receiver; jb_method := agreeMethod w'; jb_privateKey := privateKey |} w (w_jlog w) (w_live w) r w') w.
Proof.
  intros Henv Hinv.
  rewrite <-(set_jlog_same w) at 1. unfold nativeOpen. set (l0 := w_jlog w).
  apply (wp_method e alen inputs w Henv (mark e l0) l0 []); [apply ledger_start|]. intros m l Hl Hm0.
  set (v := set_method m w). set (b := {| jb_object := receiver; jb_method := m; jb_privateKey := privateKey |}).
  assert (forall n l' v', w_env v' = e -> core_inv v' -> w_live v' = n -> n = w_live w -> agreeMethod v' = m ->
    wolfcrypt_init_state v' = wolfcrypt_init_state w -> ledger e (discreet_on inputs) (mark e l0) l' [] ->
    ~ can_open e alen b w recipient enc ct info aad ->
    open_post b w l0 (w_live w) 0 (set_jlog l' v')) as Hnull.
  { intros n l' v' I0 I1 I2 -> I3 I4 [Hd Hp] Hn. repeat (split; [done|]). split; [intros a; rewrite Hp; apply Z.add_0_r|]. left. done. }
  apply (wp_mono _ (open_post b w l0 (w_live w))).
  2: { intros r w' HP. pose proof HP as (_ & _ & _ & I3 & _). by rewrite I3. }
  destruct (Z.eqb_spec m 0) as [Hm|Hm]; [by eapply Hnull; try done; intros ([Hob _] & _); apply (Hm0 Hm)|].
  do 5 (apply (wp_length e alen inputs v Henv (mark e l0) _ [] _ _ _ Hl); clear l Hl; intros l Hl).
  rewrite (proj1 Hr), (proj1 He), (proj1 Hc), (proj1 Hi), (proj1 Ha).
  pose proof (len_nonneg recipient). pose proof (len_nonneg enc). pose proof (len_nonneg info). pose proof (len_nonneg aad).
  rewrite (proj2 (Z.ltb_ge (len recipient) 0)), (proj2 (Z.ltb_ge (len enc) 0)), (proj2 (Z.ltb_ge (len info) 0)), (proj2 (Z.ltb_ge (len aad) 0)), !orb_false_r by done.
  destruct (Z.ltb_spec (len ct) 17) as [Hs|Hs].
  { apply (wp_throw e inputs v Henv (mark e l0) l [] _ _ _ Hl). intros l' Hl'. eapply Hnull; try done.
    intros (_ & _ & _ & _ & _ & _ & Hlen & _). lia. }
  apply wp_malloc; cbn [negb].
  - eapply open_pinned_spec; done.
  - intros Hoom. apply (wp_throw e inputs (set_alloc (S (w_nalloc v)) (w_live v) v) Henv (mark e l0) l [] _ _ _ Hl). intros l' Hl'. eapply Hnull; try done.
    intros ((_ & _ & Ho & _) & _). apply Ho. by rewrite <-Henv.
Qed.
End NativeOpen.


(** ** Sealing *)

Section NativeSeal.
Context (others : nat -> Z -> forall i, Z -> M (Z * reply i)) (sp : Z) (Hsp : sp <> 0).
Context (e : env) (alen : jref -> Z) `{!Jvm e alen} (Hos : os_sane e).
Context (jEnc jRecipient jCek jInfo jAad : jref) (enc recipient cek info aad : bytes).
Context (He : contents e alen jEnc enc) (Hr : contents e alen jRecipient recipient) (Hk : contents e alen jCek cek).
Context (Hi : contents e alen jInfo info) (Ha : contents e alen jAad aad).

Notation inputs := [jEnc; jRecipient; jInfo; jAad].

(** Everything is there for the sealing to succeed. *)
Definition can_wrap (w : world) (privateKey : jref) : Prop :=
  can_seal e alen w enc recipient info aad /\ len cek = 32 /\
  privateKey <> 0 /\ jEnc <> 0 /\ jRecipient <> 0 /\ jCek <> 0 /\ jInfo <> 0 /\ jAad <> 0.

(** The answer [r] of a sealing: NULL, or a new array that was given what RFC 9180
    seals. *)
Definition wrapped (b : JniBridge) (w : world) (l0 l : list jcall) (r : jref) : Prop :=
  (r = 0 /\ ~ can_wrap w (jb_privateKey b) /\ exists d, l = d ++ l0 /\ Forall (discreet_on inputs) d) \/
  (r <> 0 /\ exists c d1 d2, l = d1 ++ SetByteArrayRegion r 0 48 c :: d2 ++ l0 /\
   Forall (discreet_on inputs) d1 /\ Forall (discreet_on inputs) d2 /\ seals_to e b enc recipient cek info aad c).

Definition seal_post (b : JniBridge) (w : world) (l0 : list jcall) (r : jref) (w' : world) : Prop :=
  w_env w' = e /\ core_inv w' /\ w_live w' = w_live w /\ wolfcrypt_init_state w' = wolfcrypt_init_state w /\
  (forall a, pins e (w_jlog w') a = pins e l0 a) /\ wrapped b w l0 (w_jlog w') r.

Lemma seal_answer_spec s l v r Q : w_env v = e -> ledger e (discreet_on inputs) s l [] ->
  (forall l', ledger e (discreet_on inputs) s l' [] -> Q r (set_jlog l' v)) -> wp (seal_answer r) Q (set_jlog l v).
Proof.
  intros Henv Hl HQ. unfold seal_answer. destruct (r =? 0); [|jstep; jstep; by apply HQ].
  jstep. jstep; [by left|jstep; cbn [negb]..].
  - jstep. jstep; [by left|]. destruct (negb _); [|jstep; by apply HQ]. jstep. jstep; [by left|]. jstep; [by left|]. by apply HQ.
  - jstep. by apply HQ.
Qed.

Lemma seal_done_spec s l v r cls o1 o2 o3 o4 o5 Q : w_env v = e -> (forall d, o3 = Some d -> len d = 32) ->
  ledger e (discreet_on inputs) s l (pin o5 jAad (pin o4 jInfo (pin o3 jCek (pin o2 jRecipient (pin o1 jEnc []))))) ->
  (forall l', ledger e (discreet_on inputs) s l' [] -> Q r (set_jlog l' v)) ->
  wp (seal_done r cls jEnc jRecipient jCek jInfo jAad o1 o2 o3 o4 o5) Q (set_jlog l v).
Proof.
  intros Henv H32 Hl HQ. unfold seal_done.
  apply (wp_unpin e inputs v s l _ (pin o5 jAad (pin o4 jInfo (pin o3 jCek (pin o2 jRecipient [])))) _ _ _ _ Hl); [set_solver|intros x; rewrite !count_pin; lia|].
  clear l Hl. intros l Hl. apply (wp_unpin e inputs v s l _ (pin o5 jAad (pin o4 jInfo (pin o3 jCek []))) _ _ _ _ Hl); [set_solver|intros x; rewrite !count_pin; lia|].
  clear l Hl. intros l Hl.
  set (rest := fun _ : unit => release_unchanged jInfo o4 ≫= _).
  assert (forall l', ledger e (discreet_on inputs) s l' (pin o5 jAad (pin o4 jInfo [])) -> wp (rest tt) Q (set_jlog l' v)) as Hrest.
  { clear l Hl. unfold rest. intros l Hl.
    apply (wp_unpin e inputs v s l _ (pin o5 jAad []) _ _ _ _ Hl); [set_solver|intros x; rewrite !count_pin; lia|].
    clear l Hl. intros l Hl. apply (wp_unpin e inputs v s l _ [] _ _ _ _ Hl); [set_solver|intros x; rewrite !count_pin; lia|].
    clear l Hl. intros l Hl. destruct (negb (cls =? 0)); jstep; [by left|..]; by eapply seal_answer_spec. }
  destruct o3 as [d|]; [|by apply wp_mret, Hrest]. specialize (H32 d eq_refl).
  jstep. jstep; [lia|change (len (zeros 32)) with 32; lia|].
  rewrite splice_full by (unfold len in *; change (length (zeros 32)) with 32%nat; lia).
  apply (wp_release e _ v s l _ (pin o5 jAad (pin o4 jInfo [])) _ _ _ _ _ Hl); [by left|intros x; rewrite !count_pin; cbn [one]; lia|].
  apply Hrest.
Qed.
(** The two ways to end, from the books. *)
Lemma seal_refused b w l0 l v : w_env v = e -> core_inv v -> w_live v = w_live w -> wolfcrypt_init_state v = wolfcrypt_init_state w ->
  ledger e (discreet_on inputs) (mark e l0) l [] -> ~ can_wrap w (jb_privateKey b) -> seal_post b w l0 0 (set_jlog l v).
Proof.
  intros H0 H1 H2 H3 [Hd Hp] Hn. repeat (split; [done|]). split; [intros a; rewrite Hp; apply Z.add_0_r|]. by left.
Qed.

Lemma seal_made b w l0 l1 l v r c : w_env v = e -> core_inv v -> w_live v = w_live w -> wolfcrypt_init_state v = wolfcrypt_init_state w -> r <> 0 ->
  (exists d, l1 = d ++ l0 /\ Forall (discreet_on inputs) d) -> seals_to e b enc recipient cek info aad c ->
  ledger e (discreet_on inputs) (Start (pins e l0) (SetByteArrayRegion r 0 48 c :: l1)) l [] -> seal_post b w l0 r (set_jlog l v).
Proof.
  intros H0 H1 H2 H3 Hr0 (d2 & -> & Hd2) Hc [(d1 & -> & Hd1) Hp]. repeat (split; [done|]).
  split; [intros a; rewrite Hp; apply Z.add_0_r|]. right. split; [done|]. exists c, d1, d2. done.
Qed.

Lemma seal_pinned_spec b w l0 l cls : w_env w = e -> core_inv w -> len enc = 65 -> len recipient = 65 -> len cek = 32 ->
  1 <= len info <= 1024 -> 1 <= len aad <= 1024 -> ledger e (discreet_on inputs) (mark e l0) l [] ->
  wp (seal_pinned others sp b cls jEnc jRecipient jCek jInfo jAad (len info) (len aad)) (seal_post b w l0) (set_jlog l w).
Proof.
  intros Henv Hinv Le Lr Lk Li La Hl. unfold seal_pinned.
  apply (wp_pin e alen inputs w Henv (mark e l0) l _ _ enc _ _ Hl He). clear Hl. intros o1 l1 Hl N1 S1.
  apply (wp_pin e alen inputs w Henv (mark e l0) l1 _ _ recipient _ _ Hl Hr). clear Hl. intros o2 l2 Hl N2 S2.
  apply (wp_pin e alen inputs w Henv (mark e l0) l2 _ _ cek _ _ Hl Hk). clear Hl. intros o3 l3 Hl N3 S3.
  apply (wp_pin e alen inputs w Henv (mark e l0) l3 _ _ info _ _ Hl Hi). clear Hl. intros o4 l4 Hl N4 S4.
  apply (wp_pin e alen inputs w Henv (mark e l0) l4 _ _ aad _ _ Hl Ha). clear Hl. intros o5 l5 Hl N5 S5.
  assert (forall d, o3 = Some d -> len d = 32) as H32 by (intros d Hd; by destruct (S3 d Hd) as [-> _]).
  assert (~ obliging e alen -> wp (mret 0 ≫= (fun r => seal_done r cls jEnc jRecipient jCek jInfo jAad o1 o2 o3 o4 o5))
    (seal_post b w l0) (set_jlog l5 w)) as Hfail.
  { intros Hb. jstep. apply (seal_done_spec _ _ _ _ _ _ _ _ _ _ _ Henv H32 Hl). intros l' Hl'. apply seal_refused; try done.
    by intros (([Hob _] & _) & _). }
  destruct o1 as [d1|]; [|by apply Hfail, N1]. destruct o2 as [d2|]; [|by apply Hfail, N2]. destruct o3 as [d3|]; [|by apply Hfail, N3].
  destruct o4 as [d4|]; [|by apply Hfail, N4]. destruct o5 as [d5|]; [|by apply Hfail, N5]. clear Hfail N1 N2 N3 N4 N5.
  destruct (S1 _ eq_refl) as [-> O1], (S2 _ eq_refl) as [-> O2], (S3 _ eq_refl) as [-> O3], (S4 _ eq_refl) as [-> O4], (S5 _ eq_refl) as [-> O5].
  clear S1 S2 S3 S4 S5. jstep. apply wp_bind.
  eapply wp_mono; [by apply (core_seal_any others sp Hsp e alen Hos b (set_jlog l5 w) enc recipient cek info aad)|].
  intros r w1 [(ret & c & -> & Lc & Hok & Hno) (Hi1 & Hl1 & He1 & Hg1 & Hm1 & Hst1)]. cbn [w_env set_jlog w_jlog w_live wolfcrypt_init_state] in *.
  rewrite Henv in He1, Hg1. rewrite <-(set_jlog_same w1). generalize dependent (w_jlog w1). intros lw Hg1.
  assert (Hl' : ledger e (discreet_on inputs) (mark e l0) lw [jAad; jInfo; jCek; jRecipient; jEnc])
    by (eapply ledger_grows; [apply discreet_on_plain|exact Hl|done]). clear Hl Hg1.
  destruct (Z.eqb_spec ret 0) as [Hret|Hret].
  - jstep. jstep; [by left|]. set (res := j_val _). destruct (Z.eqb_spec res 0) as [Hz|Hz]; cbn [negb].
    + jstep. jstep. jstep. rewrite Hz. apply (seal_done_spec _ _ _ _ _ (Some enc) (Some recipient) (Some cek) (Some info) (Some aad) _ He1 H32 Hl').
      intros l' Hl. apply seal_refused; try done. intros (([Hob _] & _) & _). by apply (ob_new _ _ Hob 48 lw).
    + jstep. jstep. cbn [default from_option id]. jstep; [lia..|]. rewrite sub_all by done. apply wp_tell. jstep.
      destruct Hl' as [Hd Hp]. eapply (seal_done_spec (Start (pins e l0) (SetByteArrayRegion res 0 48 c :: NewByteArray 48 :: lw)) _ _ _ _
        (Some enc) (Some recipient) (Some cek) (Some info) (Some aad) _ He1 H32).
      { split; [by exists []|]. intros a. transitivity (pins e (NewByteArray 48 :: lw) a); [cbn [pins]; lia|]. exact (Hp a). }
      intros l' Hl. by apply (seal_made b w l0 (NewByteArray 48 :: lw) l' w1 res c); auto.
  - jstep. apply (seal_done_spec _ _ _ _ _ (Some enc) (Some recipient) (Some cek) (Some info) (Some aad) _ He1 H32 Hl').
    intros l' Hl. apply seal_refused; try done. intros [Hcan _]. by apply Hno.
Qed.
(** The key's array is only ever given back as zeros. *)
Lemma wrapped_scrubs b w l0 l r : jCek ∉ inputs -> wrapped b w l0 l r -> exists d, l = d ++ l0 /\
  forall x mode, ReleaseByteArrayElements jCek x mode ∈ d -> mode = 0 /\ x = zeros (len x).
Proof.
  intros Hn. assert (forall d x mode, Forall (discreet_on inputs) d -> ReleaseByteArrayElements jCek x mode ∈ d ->
    mode = 0 /\ x = zeros (len x)) as Hd.
  { intros d x mode Hd Hx. rewrite list.Forall_forall in Hd. destruct (Hd _ Hx) as [Hdis|(a & y & Ha' & [= <- <- _])]; [exact Hdis|done]. }
  intros [(_ & _ & d & -> & Hf)|(_ & c & d1 & d2 & -> & H1 & H2 & _)]; [exists d; eauto|].
  exists (d1 ++ SetByteArrayRegion r 0 48 c :: d2). split; [by rewrite <-app_assoc|]. intros x mode.
  rewrite elem_of_app, elem_of_cons. intros [Hx|[?|Hx]]; [eauto|done|eauto].
Qed.

Lemma lengths_ok_spec {B} s l v (k : bool -> M B) Q : w_env v = e -> ledger e (discreet_on inputs) s l [] ->
  (forall ok l', ledger e (discreet_on inputs) s l' [] ->
     (ok = true <-> len enc = 65 /\ len recipient = 65 /\ len cek = 32 /\ 1 <= len info <= 1024 /\ 1 <= len aad <= 1024) ->
     wp (k ok) Q (set_jlog l' v)) ->
  wp (lengths_ok jEnc jRecipient jCek (len info) (len aad) ≫= k) Q (set_jlog l v).
Proof.
  intros Henv Hl HQ. unfold lengths_ok. jstep. apply (wp_length e alen inputs v Henv s l [] _ _ _ Hl). clear l Hl. intros l Hl. rewrite (proj1 He).
  destruct (Z.eqb_spec (len enc) 65) as [E1|E1]; cbn [negb]; [|jstep; apply HQ; [done|]; split; [done|intros (? & _); done]].
  jstep. apply (wp_length e alen inputs v Henv s l [] _ _ _ Hl). clear l Hl. intros l Hl. rewrite (proj1 Hr).
  destruct (Z.eqb_spec (len recipient) 65) as [E2|E2]; cbn [negb]; [|jstep; apply HQ; [done|]; split; [done|intros (_ & ? & _); done]].
  jstep. apply (wp_length e alen inputs v Henv s l [] _ _ _ Hl). clear l Hl. intros l Hl. rewrite (proj1 Hk). jstep. apply HQ; [done|].
  destruct (Z.eqb_spec (len cek) 32), (Z.ltb_spec (len info) 1), (Z.ltb_spec 1024 (len info)), (Z.ltb_spec (len aad) 1), (Z.ltb_spec 1024 (len aad));
    cbn [negb orb]; (split; [done|]); intros; try done; lia.
Qed.

Lemma nativeSeal_spec w sender privateKey : w_env w = e -> core_inv w ->
  wp (nativeSeal others sp sender privateKey jEnc jRecipient jCek jInfo jAad)
    (fun r w' => exists m, seal_post {| jb_object := sender; jb_method := m; jb_privateKey := privateKey |} w (w_jlog w) r w') w.
Proof.
  intros Henv Hinv. set (l0 := w_jlog w).
  assert (forall l cls, ledger e (discreet_on inputs) (mark e l0) l [] ->
    ~ can_wrap w privateKey ->
    wp (seal_done 0 cls jEnc jRecipient jCek jInfo jAad None None None None None)
      (fun r w' => exists m, seal_post
        {| jb_object := sender; jb_method := m; jb_privateKey := privateKey |} w l0 r w') (set_jlog l w)) as Hstop.
  { intros l cls Hl Hn. eapply seal_done_spec; try done.
    intros l' Hl'. exists 0. by apply seal_refused. }
  unfold nativeSeal. rewrite <-(set_jlog_same w) at 1. fold l0. pose proof (ledger_start e (discreet_on inputs) l0) as Hl.
  destruct (Z.eqb_spec privateKey 0), (Z.eqb_spec jEnc 0), (Z.eqb_spec jRecipient 0), (Z.eqb_spec jCek 0), (Z.eqb_spec jInfo 0), (Z.eqb_spec jAad 0);
    cbn [orb]; try (apply Hstop; [done|]; intros (_ & _ & ? & ? & ? & ? & ? & ?); done).
  apply (wp_length e alen inputs w Henv (mark e l0) _ [] _ _ _ Hl). intros l Hl1. clear Hl. rename Hl1 into Hl. rewrite (proj1 Hi).
  apply (wp_length e alen inputs w Henv (mark e l0) _ [] _ _ _ Hl). clear l Hl. intros l Hl. rewrite (proj1 Ha).
  eapply lengths_ok_spec; [done|exact Hl|]. clear l Hl. intros ok l Hl Hok. destruct ok; cbn [negb].
  2: { apply Hstop; [done|]. intros ((_ & [_ P1 _] & [_ P2 _] & L1 & L2 & _) & L3 & _). unfold max_info in L1. enough (false = true) by done. apply Hok. lia. }
  destruct (proj1 Hok eq_refl) as (L1 & L2 & L3 & L4 & L5). jstep; [by left|]. set (cls := j_val _).
  destruct (Z.eqb_spec cls 0) as [Hz|Hz].
  { apply Hstop; [done|]. intros (([Hob _] & _) & _). by apply (ob_class _ _ Hob sender l). }
  clearbody cls. jstep; [by left|]. set (m := j_val _). destruct (Z.eqb_spec m 0) as [Hm|Hm].
  { apply Hstop; [done|]. intros (([Hob _] & _) & _). by eapply (ob_method _ _ Hob). }
  eapply wp_mono; [by eapply seal_pinned_spec|]. intros r w' Hpost. by exists m.
Qed.
End NativeSeal.


(** ** Life of the library in a process *)

Lemma last_cleanup w : wolfcrypt_init_state w = (INITED, 1) ->
  wolfCrypt_Cleanup w = Ok 0 (set_init (UNINITED, 0) (set_devs (wc_CryptoCb_Cleanup (gCryptoDev w)) w)).
Proof. intros Hs. unfold wolfCrypt_Cleanup, mbind, M_bind, get. by rewrite Hs. Qed.

Section Life.
Context (others : nat -> Z -> forall i, Z -> M (Z * reply i)) (sp : Z) (Hsp : sp <> 0).
Context (e : env) (alen : jref -> Z) `{!Jvm e alen} (Hos : os_sane e).

(** A call of one of the two native methods with arrays. *)
Inductive native_call : world -> world -> Prop :=
  | call_open w r w' receiver key jRecipient jEnc jCt jInfo jAad recipient enc ct info aad :
      contents e alen jRecipient recipient -> contents e alen jEnc enc -> contents e alen jCt ct ->
      contents e alen jInfo info -> contents e alen jAad aad ->
      nativeOpen others sp receiver key jRecipient jEnc jCt jInfo jAad w = Ok r w' -> native_call w w'
  | call_seal w r w' sender key jEnc jRecipient jCek jInfo jAad enc recipient cek info aad :
      contents e alen jEnc enc -> contents e alen jRecipient recipient -> contents e alen jCek cek ->
      contents e alen jInfo info -> contents e alen jAad aad ->
      nativeSeal others sp sender key jEnc jRecipient jCek jInfo jAad w = Ok r w' -> native_call w w'.

(** The state between calls. *)
Definition in_service (w : world) : Prop :=
  w_env w = e /\ core_inv w /\ w_live w = 0%nat /\ wolfcrypt_init_state w = (INITED, 1) /\ forall a, pins e (w_jlog w) a = 0.

Lemma native_call_serves w w' : native_call w w' -> in_service w -> in_service w'.
Proof.
  intros Hc (I1 & I2 & I3 & I4 & I5). destruct Hc as [w r w' receiver key jR jE jC jI jA ? ? ? ? ? H1 H2 H3 H4 H5 Hrun|
    w r w' sender key jE jR jK jI jA ? ? ? ? ? H1 H2 H3 H4 H5 Hrun].
  - pose proof (nativeOpen_spec others sp Hsp e alen Hos _ _ _ _ _ _ _ _ _ _ H1 H2 H3 H4 H5 w receiver key I1 I2) as Hs.
    unfold wp in Hs. rewrite Hrun in Hs. destruct Hs as (J1 & J2 & J3 & _ & J4 & J5 & _).
    repeat (split; [congruence|]). intros a. by rewrite J5.
  - pose proof (nativeSeal_spec others sp Hsp e alen Hos _ _ _ _ _ _ _ _ _ _ H1 H2 H3 H4 H5 w sender key I1 I2) as Hs.
    unfold wp in Hs. rewrite Hrun in Hs. destruct Hs as (m & J1 & J2 & J3 & J4 & J5 & _).
    repeat (split; [congruence|]). intros a. by rewrite J5.
Qed.

Lemma OnUnload_spec w : in_service w ->
  wp JNI_OnUnload (fun _ w' => core_inv w' /\ w_live w' = 0%nat /\ zt_device_registered w' = 0 /\
    devices (gCryptoDev w') !! ZT_HPKE_DEVID = None /\
    (j_val (e_jvm e (GetEnv :: w_jlog w)) = JNI_OK ->
     devices (gCryptoDev w') = ∅ /\ wolfcrypt_init_state w' = (UNINITED, 0))) w.
Proof.
  intros (I1 & [I2 _] & I3 & I4 & I5). destruct (UnRegisterDevice_spec _ ZT_HPKE_DEVID I2) as [Hok Hd].
  destruct (Cleanup_spec _ Hok) as [Hok2 Hd2].
  unfold JNI_OnUnload, zt_hpke_deinit. apply wp_bind. unfold wp at 1, modify at 1 2, mbind at 1, M_bind at 1.
  set (tbl := wc_CryptoCb_UnRegisterDevice (gCryptoDev w) ZT_HPKE_DEVID) in *.
  set (w1 := set_registered 0 _). apply wp_assoc, wp_jni, wp_mret. change (w_env w1) with (w_env w). rewrite I1.
  change (w_jlog w1) with (w_jlog w). destruct (Z.eqb_spec (j_val (e_jvm e (GetEnv :: w_jlog w))) JNI_OK) as [Hz|Hz].
  - apply wp_bind. unfold wp at 1. rewrite last_cleanup by done. split; [split; [exact Hok2|by left]|]. split; [exact I3|]. split; [done|].
    split; [|by intros _]. change (devices (wc_CryptoCb_Cleanup tbl) !! ZT_HPKE_DEVID = None). by rewrite Hd2.
  - split; [split; [exact Hok|by left]|]. split; [exact I3|]. split; [done|]. split; [|done].
    change (devices tbl !! ZT_HPKE_DEVID = None). rewrite Hd. apply lookup_delete_eq.
Qed.

(** C10. The library in a process, from loading to unloading, with any calls of the
    native methods in between.  Loading fails only when the virtual machine gives
    no environment; otherwise the device is registered, and in every state between
    calls the core's invariant holds, no memory is held and no Java array is
    pinned.  Unloading removes the device and, if it gets an environment, every
    other device, and takes back the initialisation. *)
Theorem jni_life :
  wp JNI_OnLoad (fun r w1 =>
    (r = JNI_ERR /\ j_val (e_jvm e [GetEnv]) <> JNI_OK) \/
    (r = JNI_VERSION_1_6 /\ zt_device (gCryptoDev w1) /\ forall w2, rtc native_call w1 w2 ->
      in_service w2 /\
      wp JNI_OnUnload (fun _ w3 => core_inv w3 /\ w_live w3 = 0%nat /\ zt_device_registered w3 = 0 /\
        devices (gCryptoDev w3) !! ZT_HPKE_DEVID = None /\
        (j_val (e_jvm e (GetEnv :: w_jlog w2)) = JNI_OK ->
         devices (gCryptoDev w3) = ∅ /\ wolfcrypt_init_state w3 = (UNINITED, 0))) w2)) (world_start e).
Proof.
  unfold JNI_OnLoad. apply wp_assoc, wp_jni, wp_mret. change (e_jvm (w_env (world_start e)) (GetEnv :: w_jlog (world_start e))) with (e_jvm e [GetEnv]).
  destruct (Z.eqb_spec (j_val (e_jvm e [GetEnv])) JNI_OK) as [Hz|Hz]; cbn [negb]; [|by left].
  apply wp_bind. unfold wp at 1. change (wolfCrypt_Init _) with (Ok 0 (set_jlog [GetEnv] (world_ready e))). change (negb (0 =? 0)) with false. cbv iota.
  pose proof (world_ready_inv e) as Hi. apply wp_bind.
  eapply wp_mono; [apply (init_spec (set_jlog [GetEnv] (world_ready e))); apply (reg_inv_core _ Hi)|].
  intros ret w1 (Hi1 & (tbl & rg & Hw) & [(-> & Hr & Hdev)|(_ & _ & Hc)]).
  - change (negb (0 =? 0)) with false. cbv iota. right. split; [done|]. split; [done|]. intros w2 Hs.
    assert (in_service w2) as H2; [|split; [done|by apply OnUnload_spec]].
    assert (in_service w1) as H1 by (split; [by subst w1|]; split; [done|]; by subst w1). clear -Hs H1 Jvm0 Hos Hsp.
    induction Hs; [done|]. by eauto using native_call_serves.
  - exfalso. by apply (world_ready_free e).
Qed.
End Life.

(** ** A virtual machine *)

Module Java.

(** Arrays 1 to 6 hold the vectors' inputs and a key to wrap, array 7 the secret
    the object answers with. *)
Definition array (a : jref) : bytes :=
  match a with
  | 1 => Vectors.pkRm | 2 => Vectors.enc | 3 => Vectors.ct0 | 4 => Vectors.info | 5 => Vectors.aad0
  | 6 => Example.cek | 7 => Vectors.dh | _ => []
  end.

Definition answer (v : Z) : jans := {| j_val := v; j_bytes := [] |}.

Definition java (l : list jcall) : jans :=
  match l with
  | GetByteArrayElements a :: _ => {| j_val := 1; j_bytes := array a |}
  | GetArrayLength a :: _ => answer (len (array a))
  | CallObjectMethod _ _ _ _ :: _ => answer 7
  | NewByteArray _ :: _ => answer 8
  | GetObjectClass _ :: _ => answer 9
  | GetMethodID _ _ _ :: _ => answer 10
  | _ => answer 0
  end.

Definition env_java : env := {| e_alloc := e_alloc env_device; e_os := e_os env_device; e_jvm := java |}.

Definition alen (a : jref) : Z := len (array a).

Lemma array_ok a : bytes_ok (array a) /\ len (array a) <= 65.
Proof.
  assert (forall l, forallb (fun b => (0 <=? b) && (b <? 256)) l && (len l <=? 65) = true -> bytes_ok l /\ len l <= 65) as H.
  { intros l [H1 H2]%andb_true_iff. split; [by apply Vectors.bytes_ok_check|lia]. }
  unfold array. repeat case_match; by apply H.
Qed.

#[export] Instance java_jvm : Jvm env_java alen.
Proof.
  split; [done| |].
  - intros a. unfold alen, INT_MAX. pose proof (array_ok a). pose proof (len_nonneg (array a)). lia.
  - intros a l r _. split; [apply array_ok|done].
Qed.

Lemma java_obliging : obliging env_java alen.
Proof. by split. Qed.

Lemma java_contents a : contents env_java alen a (array a).
Proof. by split. Qed.

Lemma java_well : all_well env_java alen (world_ready env_java).
Proof.
  split; [apply java_obliging|]. split; [exact env_device_entropy|]. split; [exact env_device_plenty|]. apply world_ready_free.
Qed.

Lemma secret_is_dh b peer dh : java_secret env_java b peer dh -> dh = Vectors.dh.
Proof. by intros (l & checks & arr & after & _ & _ & _ & _ & ->). Qed.

Definition nobody := Example.nobody.



(** Load, open a message, unload. *)
Lemma jni_life_witness :
  wp JNI_OnLoad (fun r w1 => r = JNI_VERSION_1_6 /\ wp JNI_OnUnload (fun _ w3 => devices (gCryptoDev w3) = ∅) w1) (world_start env_java).
Proof.
  eapply wp_mono; [apply (jni_life nobody 1 ltac:(done) env_java alen env_device_sane)|].
  intros r w1 [[_ Hn]|(-> & _ & Hs)]; [done|]. split; [done|]. destruct (Hs w1 ltac:(apply rtc_refl)) as [_ Hu].
  eapply wp_mono; [exact Hu|]. intros _ w3 (_ & _ & _ & _ & Hg). by apply Hg.
Defined.
End Java.
