(* ===== verification/Coding.v ===== *)
(** * Coding: the Base64 and UTF-8 decoders of coding.c

    Module [Base64] holds the two Base64 decoders, the one with arithmetic
    character tests and the one with a table, and module [Utf8] the decoder of one
    code point.  The theorems say which texts each accepts and with what result:
    for Base64, the texts of the grammar [b64_text]; for UTF-8, the encodings of
    RFC 3629. *)

From S2P Require Import Prelude Platform.

Module Base64.

(** coding.c:39, [BAD] *)
Notation BAD := (0xFF)%Z (only parsing).
(** coding.c:40, [PAD] *)
Notation PAD := (61)%Z (only parsing).
(** coding.c:41, [BASE64_MIN] *)
Notation BASE64_MIN := (0x2B)%Z (only parsing).

(** coding.c:56-77, [Base64_Char2Val_CT] *)
Definition Base64_Char2Val_CT (c : Z) : Z :=
  let smallEnd := c - 0x7b in
  let smallStart := c - 0x61 in
  let bigEnd := c - 0x5b in
  let bigStart := c - 0x41 in
  let numEnd := c - 0x3a in
  let numStart := c - 0x30 in
  let slashEnd := c - 0x30 in
  let slashStart := c - 0x2f in
  let plusEnd := c - 0x2c in
  let plusStart := c - 0x2b in
  let v := Z.land (Z.shiftr smallStart 8 ⊕ Z.shiftr smallEnd 8) (smallStart + 26 + 1) in
  let v := Z.lor v (Z.land (Z.shiftr bigStart 8 ⊕ Z.shiftr bigEnd 8) (bigStart + 0 + 1)) in
  let v := Z.lor v (Z.land (Z.shiftr numStart 8 ⊕ Z.shiftr numEnd 8) (numStart + 52 + 1)) in
  let v := Z.lor v (Z.land (Z.shiftr slashStart 8 ⊕ Z.shiftr slashEnd 8) (slashStart + 63 + 1)) in
  let v := Z.lor v (Z.land (Z.shiftr plusStart 8 ⊕ Z.shiftr plusEnd 8) (plusStart + 62 + 1)) in
  w8 (v - 1).

(** coding.c:81-94, [base64Decode_table] *)
Definition base64Decode_table : bytes :=
  [                    62; BAD; BAD; BAD; 63;
   52; 53; 54; 55; 56; 57; 58; 59;
   60; 61; BAD; BAD; BAD; BAD; BAD; BAD;
   BAD; 0; 1; 2; 3; 4; 5; 6;
   7; 8; 9; 10; 11; 12; 13; 14;
   15; 16; 17; 18; 19; 20; 21; 22;
   23; 24; 25; BAD; BAD; BAD; BAD; BAD;
   BAD; 26; 27; 28; 29; 30; 31; 32;
   33; 34; 35; 36; 37; 38; 39; 40;
   41; 42; 43; 44; 45; 46; 47; 48;
   49; 50; 51].

(** coding.c:97-117, [Base64_Char2Val_by_table] *)
Definition Base64_Char2Val_by_table (c : Z) : M Z := peek base64Decode_table (c - BASE64_MIN).

(** ** White space *)

(** coding.c:133-137, [Base64_SkipNewline]: the spaces before a line end, kept
    from the last character. *)
Fixpoint skip_lead (fuel : nat) (inp : bytes) (n j curChar : Z) : M (Z * Z * Z) :=
  match fuel with
  | O => out_of_fuel
  | S fuel =>
    if (1 <? n) && (curChar =? 32) then
      curChar ← peek inp (j + 1);
      skip_lead fuel inp (n - 1) (j + 1) curChar
    else mret (n, j, curChar)
  end.

(** coding.c:156-160, [Base64_SkipNewline]: the spaces after it. *)
Fixpoint skip_tail (fuel : nat) (inp : bytes) (n j curChar : Z) : M (Z * Z) :=
  match fuel with
  | O => out_of_fuel
  | S fuel =>
    if (0 <? n) && (curChar =? 32) then
      let n := n - 1 in
      if 0 <? n then
        curChar ← peek inp (j + 1);
        skip_tail fuel inp n (j + 1) curChar
      else skip_tail fuel inp n j curChar
    else mret (n, j)
  end.

(** coding.c:121-167, [Base64_SkipNewline].  Gives the code, [*inLen] and [*outJ]. *)
Definition Base64_SkipNewline (inp : bytes) (inLen outJ : Z) : M (Z * Z * Z) :=
  let fuel := S (Z.to_nat inLen) in
  if inLen =? 0 then mret (BUFFER_E, inLen, outJ)
  else
    curChar ← peek inp outJ;
    '(n, j, curChar) ← skip_lead fuel inp inLen outJ curChar;
    '(err, n, j, curChar) ←
      (if (curChar =? 13) || (curChar =? 10) then
         let j := j + 1 in
         let n := n - 1 in
         '(n, j, curChar) ←
           (if (curChar =? 13) && (0 <? n) then
              curChar ← peek inp j;
              mret (n - 1, j + 1, curChar)
            else mret (n, j, curChar));
         if negb (curChar =? 10) then mret (ASN_INPUT_E, n, j, curChar)
         else
           curChar ← (if 0 <? n then peek inp j else mret curChar);
           mret (0, n, j, curChar)
       else mret (0, n, j, curChar));
    if negb (err =? 0) then mret (err, inLen, outJ)
    else
      '(n, j) ← skip_tail fuel inp n j curChar;
      if n =? 0 then mret (BUFFER_E, inLen, outJ) else mret (0, n, j).

(** ** Decoding *)

(** coding.c:200-204, [Base64_Decode_nonCT], and the same for the third and the
    fourth: the next character past white space.  Gives the code, the
    character, [inLen] and [j]. *)
Definition next_char (inp : bytes) (inLen j : Z) : M (Z * Z * Z * Z) :=
  '(ret, inLen, j) ← Base64_SkipNewline inp inLen j;
  if negb (ret =? 0) then mret (ret, 0, inLen, j)
  else e ← peek inp j; mret (0, e, inLen - 1, j + 1).

(** How reading a group ends: with its four characters, with a [break] out of the
    loop, or with a [return]. *)
Inductive group_read := Quad (e1 e2 e3 e4 : Z) | Break | Return (ret : Z).

(** coding.c:187-214, [Base64_Decode_nonCT]: four characters.  Gives how it ended,
    [inLen] and [j]. *)
Definition read_group (inp : bytes) (inLen j : Z) : M (group_read * Z * Z) :=
  '(ret, inLen, j) ← Base64_SkipNewline inp inLen j;
  if negb (ret =? 0) then mret (if ret =? BUFFER_E then Break else Return ret, inLen, j)
  else
    e1 ← peek inp j;
    let j := j + 1 in
    if e1 =? 0 then mret (Break, 0, j)
    else
      let inLen := inLen - 1 in
      '(ret, e2, inLen, j) ← next_char inp inLen j;
      if negb (ret =? 0) then mret (Return ret, inLen, j)
      else
        '(ret, e3, inLen, j) ← next_char inp inLen j;
        if negb (ret =? 0) then mret (Return ret, inLen, j)
        else
          '(ret, e4, inLen, j) ← next_char inp inLen j;
          if negb (ret =? 0) then mret (Return ret, inLen, j)
          else mret (Quad e1 e2 e3 e4, inLen, j).

(** coding.c:245-260, [Base64_Decode_nonCT]: the bytes of a group, from the values
    of its characters.  Gives the code, [i] and [out]. *)
Definition put_group (pad3 pad4 : bool) (e1 e2 e3 e4 i outLen : Z) (out : bytes) : M (Z * Z * bytes) :=
  if outLen <? i + 1 + Z.b2z (negb pad3) + Z.b2z (negb pad4) then mret (BUFFER_E, i, out)
  else
    let b1 := w8 (Z.lor (Z.shiftl e1 2) (Z.shiftr e2 4)) in
    let b2 := w8 (Z.lor (Z.shiftl (Z.land e2 0xF) 4) (Z.shiftr e3 2)) in
    let b3 := w8 (Z.lor (Z.shiftl (Z.land e3 0x3) 6) e4) in
    out ← wr out i [b1];
    let i := i + 1 in
    '(i, out) ← (if negb pad3 then out ← wr out i [b2]; mret (i + 1, out) else mret (i, out));
    '(i, out) ← (if negb pad4 then out ← wr out i [b3]; mret (i + 1, out) else mret (i, out));
    mret (0, i, out).

(** coding.c:266-279, [Base64_Decode_nonCT]: what follows the groups.  Gives the
    code. *)
Fixpoint trailing (fuel : nat) (inp : bytes) (inLen j : Z) : M Z :=
  match fuel with
  | O => out_of_fuel
  | S fuel =>
    if 0 <? inLen then
      let cur_j := j in
      c ← peek inp j;
      if c =? 0 then mret 0
      else
        '(ret, inLen, j) ← Base64_SkipNewline inp inLen j;
        if negb (ret =? 0) then mret (if ret =? BUFFER_E then 0 else ret)
        else if j =? cur_j then mret ASN_INPUT_E
        else trailing fuel inp inLen j
    else mret 0
  end.

(** coding.c:266-288, [Base64_Decode_nonCT]: past the loop over the groups.  Gives
    the code, [out] and [*outLen]. *)
Definition finish (inp : bytes) (inLen j i outLen : Z) (out : bytes) : M (Z * bytes * Z) :=
  ret ← trailing (S (Z.to_nat inLen)) inp inLen j;
  if negb (ret =? 0) then mret (ret, out, outLen)
  else
    out ← (if i <? outLen then wr out i [0] else mret out);
    mret (0, out, i).

(** coding.c:176, [maxIdx] of [Base64_Decode_nonCT] *)
Notation maxIdx := (w8 (w8 (len base64Decode_table) + BASE64_MIN - 1))%Z (only parsing).

(** coding.c:181-261, [Base64_Decode_nonCT]: the loop over the groups, and what
    follows it. *)
Fixpoint decode_nonCT_loop (fuel : nat) (inp : bytes) (inLen j i outLen : Z) (out : bytes) : M (Z * bytes * Z) :=
  match fuel with
  | O => out_of_fuel
  | S fuel =>
    if 3 <? inLen then
      '(g, inLen, j) ← read_group inp inLen j;
      match g with
      | Return ret => mret (ret, out, outLen)
      | Break => finish inp inLen j i outLen out
      | Quad e1 e2 e3 e4 =>
        let pad3 := e3 =? PAD in
        let pad4 := e4 =? PAD in
        if pad3 && negb pad4 then mret (ASN_INPUT_E, out, outLen)
        else if (e1 <? BASE64_MIN) || (e2 <? BASE64_MIN) || (e3 <? BASE64_MIN) || (e4 <? BASE64_MIN) then
          mret (ASN_INPUT_E, out, outLen)
        else if (maxIdx <? e1) || (maxIdx <? e2) || (maxIdx <? e3) || (maxIdx <? e4) then
          mret (ASN_INPUT_E, out, outLen)
        else
          e1 ← Base64_Char2Val_by_table e1;
          e2 ← Base64_Char2Val_by_table e2;
          e3 ← (if e3 =? PAD then mret 0 else Base64_Char2Val_by_table e3);
          e4 ← (if e4 =? PAD then mret 0 else Base64_Char2Val_by_table e4);
          if (e1 =? BAD) || (e2 =? BAD) || (e3 =? BAD) || (e4 =? BAD) then mret (ASN_INPUT_E, out, outLen)
          else
            '(err, i, out) ← put_group pad3 pad4 e1 e2 e3 e4 i outLen out;
            if negb (err =? 0) then mret (err, out, outLen)
            else if negb pad4 then decode_nonCT_loop fuel inp inLen j i outLen out
            else finish inp inLen j i outLen out
      end
    else finish inp inLen j i outLen out
  end.

(** coding.c:171-289, [Base64_Decode_nonCT], with room for [*outLen] bytes at
    [out].  Gives the code, [out] and [*outLen]. *)
Definition Base64_Decode_nonCT (inp : option bytes) (inLen : Z) (out : option bytes) (outLen : option Z) :
    M (Z * option bytes * option Z) :=
  match out, outLen with
  | Some o, Some n =>
    if bool_decide (inp = None) && (0 <? inLen) then mret (BAD_FUNC_ARG, out, outLen)
    else
      '(ret, o, n) ← decode_nonCT_loop (S (Z.to_nat inLen)) (default [] inp) inLen 0 0 n o;
      mret (ret, Some o, Some n)
  | _, _ => mret (BAD_FUNC_ARG, out, outLen)
  end.

(** coding.c:302-375, [Base64_Decode]: the loop over the groups, and what follows
    it. *)
Fixpoint decode_loop (fuel : nat) (inp : bytes) (inLen j i outLen : Z) (out : bytes) : M (Z * bytes * Z) :=
  match fuel with
  | O => out_of_fuel
  | S fuel =>
    if 3 <? inLen then
      '(g, inLen, j) ← read_group inp inLen j;
      match g with
      | Return ret => mret (ret, out, outLen)
      | Break => finish inp inLen j i outLen out
      | Quad e1 e2 e3 e4 =>
        let pad3 := e3 =? PAD in
        let pad4 := e4 =? PAD in
        if pad3 && negb pad4 then mret (ASN_INPUT_E, out, outLen)
        else
          let e1 := Base64_Char2Val_CT e1 in
          let e2 := Base64_Char2Val_CT e2 in
          let e3 := if e3 =? PAD then 0 else Base64_Char2Val_CT e3 in
          let e4 := if e4 =? PAD then 0 else Base64_Char2Val_CT e4 in
          if (e1 =? BAD) || (e2 =? BAD) || (e3 =? BAD) || (e4 =? BAD) then mret (ASN_INPUT_E, out, outLen)
          else
            '(err, i, out) ← put_group pad3 pad4 e1 e2 e3 e4 i outLen out;
            if negb (err =? 0) then mret (err, out, outLen)
            else if negb pad4 then decode_loop fuel inp inLen j i outLen out
            else finish inp inLen j i outLen out
      end
    else finish inp inLen j i outLen out
  end.

(** coding.c:293-403, [Base64_Decode] *)
Definition Base64_Decode (inp : option bytes) (inLen : Z) (out : option bytes) (outLen : option Z) :
    M (Z * option bytes * option Z) :=
  match out, outLen with
  | Some o, Some n =>
    if bool_decide (inp = None) && (0 <? inLen) then mret (BAD_FUNC_ARG, out, outLen)
    else
      '(ret, o, n) ← decode_loop (S (Z.to_nat inLen)) (default [] inp) inLen 0 0 n o;
      mret (ret, Some o, Some n)
  | _, _ => mret (BAD_FUNC_ARG, out, outLen)
  end.

(** ** The grammar *)

(** RFC 4648, section 4: the alphabet. *)
Definition b64_char (v : Z) : Z :=
  if v <? 26 then v + 65 else if v <? 52 then v + 71 else if v <? 62 then v - 4 else if v =? 62 then 43 else 47.

(** The value of a character, if it is in the alphabet. *)
Definition b64_val (c : Z) : option Z :=
  if (65 <=? c) && (c <=? 90) then Some (c - 65)
  else if (97 <=? c) && (c <=? 122) then Some (c - 71)
  else if (48 <=? c) && (c <=? 57) then Some (c + 4)
  else if c =? 43 then Some 62
  else if c =? 47 then Some 63
  else None.

(** The text without its leading spaces. *)
Fixpoint unspaced (l : bytes) : bytes :=
  match l with
  | 32 :: l => unspaced l
  | _ => l
  end.

Lemma unspaced_other c l : c <> 32 -> unspaced (c :: l) = c :: l.
Proof. intros H. simpl. repeat case_match; congruence. Qed.

(** The text past a gap: spaces, at most one line end, spaces.  [None] for a
    carriage return on its own. *)
Definition ungapped (l : bytes) : option bytes :=
  match unspaced l with
  | 10 :: t | 13 :: 10 :: t => Some (unspaced t)
  | 13 :: _ => None
  | t => Some t
  end.

(** Nothing but spaces and line ends, up to the end or a NUL. *)
Fixpoint blank (l : bytes) : bool :=
  match l with
  | [] | 0 :: _ => true
  | 32 :: l | 10 :: l | 13 :: 10 :: l => blank l
  | _ => false
  end.

(** A gap of spaces with at most one line end in it. *)
Definition gap (g : bytes) : Prop :=
  exists m nl n, g = replicate m 32 ++ nl ++ replicate n 32 /\ (nl = [] \/ nl = [10] \/ nl = [13; 10]).

(** RFC 4648, section 4: the three bytes of four characters of these values. *)
Definition quad_bytes (v1 v2 v3 v4 : Z) : bytes := be_split 3 (v1 * 2 ^ 18 + v2 * 2 ^ 12 + v3 * 2 ^ 6 + v4).

Definition sextet (v : Z) : Prop := 0 <= v < 64.

(** What may follow the last group of four characters without padding: a gap, or
    a gap and a NUL, or three characters at most of blank text. *)
Definition b64_rest (t : bytes) : Prop :=
  gap t \/ (exists g junk, gap g /\ t = g ++ 0 :: junk) \/ (len t <= 3 /\ blank t = true).

(** The texts the decoders accept, with the bytes they stand for: groups of four
    characters, each after a gap; the last group may be padded, and then blank
    text may follow.  Bits of a padded group past its bytes are not looked at. *)
Inductive b64_text : bytes -> bytes -> Prop :=
  | text_rest t : b64_rest t -> b64_text t []
  | text_group g1 g2 g3 g4 v1 v2 v3 v4 t d :
      gap g1 -> gap g2 -> gap g3 -> gap g4 -> sextet v1 -> sextet v2 -> sextet v3 -> sextet v4 ->
      b64_text t d ->
      b64_text (g1 ++ b64_char v1 :: g2 ++ b64_char v2 :: g3 ++ b64_char v3 :: g4 ++ b64_char v4 :: t)
        (quad_bytes v1 v2 v3 v4 ++ d)
  | text_pad1 g1 g2 g3 g4 v1 v2 v3 t :
      gap g1 -> gap g2 -> gap g3 -> gap g4 -> sextet v1 -> sextet v2 -> sextet v3 -> blank t = true ->
      b64_text (g1 ++ b64_char v1 :: g2 ++ b64_char v2 :: g3 ++ b64_char v3 :: g4 ++ PAD :: t)
        (take 2 (quad_bytes v1 v2 v3 0))
  | text_pad2 g1 g2 g3 g4 v1 v2 t :
      gap g1 -> gap g2 -> gap g3 -> gap g4 -> sextet v1 -> sextet v2 -> blank t = true ->
      b64_text (g1 ++ b64_char v1 :: g2 ++ b64_char v2 :: g3 ++ PAD :: g4 ++ PAD :: t)
        (take 1 (quad_bytes v1 v2 0 0)).

(** ** The decoder as a function of the text *)

(** The next character and the text past it, or the code. *)
Definition next_of (l : bytes) : Z + Z * bytes :=
  match ungapped l with
  | None => inl ASN_INPUT_E
  | Some [] => inl BUFFER_E
  | Some (c :: t) => inr (c, t)
  end.

(** The next group, and the text past it. *)
Definition group_of (l : bytes) : group_read * bytes :=
  match ungapped l with
  | None => (Return ASN_INPUT_E, l)
  | Some [] => (Break, l)
  | Some (c1 :: t) =>
    if c1 =? 0 then (Break, [])
    else match next_of t with
      | inl ret => (Return ret, t)
      | inr (c2, t) => match next_of t with
        | inl ret => (Return ret, t)
        | inr (c3, t) => match next_of t with
          | inl ret => (Return ret, t)
          | inr (c4, t) => (Quad c1 c2 c3 c4, t)
          end
        end
      end
  end.

(** The bytes of a group. *)
Definition bytes_of (c1 c2 c3 c4 : Z) : option bytes :=
  v1 ← b64_val c1;
  v2 ← b64_val c2;
  if c3 =? PAD then (if c4 =? PAD then Some (take 1 (quad_bytes v1 v2 0 0)) else None)
  else
    v3 ← b64_val c3;
    if c4 =? PAD then Some (take 2 (quad_bytes v1 v2 v3 0))
    else v4 ← b64_val c4; Some (quad_bytes v1 v2 v3 v4).

Definition end_of (t : bytes) (d : bytes) : Z + bytes := if blank t then inr d else inl ASN_INPUT_E.

Definition prepend (bs : bytes) (r : Z + bytes) : Z + bytes :=
  match r with inl ret => inl ret | inr d => inr (bs ++ d) end.

(** The bytes of a text, with room for [room] of them; or the code. *)
Fixpoint decode_of (fuel : nat) (l : bytes) (room : Z) : Z + bytes :=
  match fuel with
  | O => inl 0
  | S fuel =>
    if 3 <? len l then
      match group_of l with
      | (Return ret, _) => inl ret
      | (Break, t) => end_of t []
      | (Quad c1 c2 c3 c4, t) =>
        match bytes_of c1 c2 c3 c4 with
        | None => inl ASN_INPUT_E
        | Some bs =>
          if room <? len bs then inl BUFFER_E
          else if c4 =? PAD then end_of t bs
          else prepend bs (decode_of fuel t (room - len bs))
        end
      end
    else end_of l []
  end.

(** *** Facts of gaps and blank text *)

(** The cases of the text past leading spaces. *)
Inductive lead : bytes -> Prop :=
  | lead_nil : lead []
  | lead_lf t : lead (10 :: t)
  | lead_crlf t : lead (13 :: 10 :: t)
  | lead_cr t : (forall t', t <> 10 :: t') -> lead (13 :: t)
  | lead_char c t : c <> 32 -> c <> 10 -> c <> 13 -> lead (c :: t).

Lemma unspaced_lead l : lead (unspaced l).
Proof.
  induction l as [|c l IH]; [constructor|]. destruct (decide (c = 32)) as [->|H]; [done|].
  rewrite unspaced_other by done.
  destruct (decide (c = 10)) as [->|]; [constructor|]. destruct (decide (c = 13)) as [->|]; [|by constructor].
  destruct l as [|c' l]; [by constructor|]. destruct (decide (c' = 10)) as [->|]; constructor. congruence.
Qed.

Lemma ungapped_char l c t : unspaced l = c :: t -> c <> 10 -> c <> 13 -> ungapped l = Some (c :: t).
Proof. unfold ungapped. intros -> H1 H2. repeat case_match; congruence. Qed.

Lemma ungapped_cr l t : unspaced l = 13 :: t -> (forall t', t <> 10 :: t') -> ungapped l = None.
Proof. unfold ungapped. intros -> H. repeat case_match; try done. by destruct (H _ eq_refl). Qed.

Lemma unspaced_app l : exists m, l = replicate m 32 ++ unspaced l.
Proof.
  induction l as [|c l [m IH]]; [by exists 0%nat|]. destruct (decide (c = 32)) as [->|H].
  - exists (S m). simpl. by f_equal.
  - exists 0%nat. by rewrite unspaced_other.
Qed.

Lemma unspaced_spaces m l : unspaced (replicate m 32 ++ l) = unspaced l.
Proof. induction m; done. Qed.

Lemma ungapped_gap l t : ungapped l = Some t -> exists g, gap g /\ l = g ++ t.
Proof.
  intros H. destruct (unspaced_app l) as [m El]. unfold gap, ungapped in *.
  destruct (unspaced_lead l) as [|r|r|r Hr|c r H1 H2 H3] in *.
  - injection H as <-. exists l. split; [|by rewrite app_nil_r]. exists m, [], 0%nat. split; [done|auto].
  - destruct (unspaced_app r) as [n Er]. injection H as <-. subst l. eexists. split.
    + exists m, [10], n. split; [done|auto].
    + rewrite Er at 1. by rewrite <-!app_assoc.
  - destruct (unspaced_app r) as [n Er]. injection H as <-. subst l. eexists. split.
    + exists m, [13; 10], n. split; [done|auto].
    + rewrite Er at 1. by rewrite <-!app_assoc.
  - exfalso. destruct r as [|c' r]; [done|]. repeat case_match; simplify_eq. by destruct (Hr r).
  - assert (t = c :: r) as -> by (repeat case_match; congruence). exists (replicate m 32). split; [|done].
    exists m, [], 0%nat. rewrite app_nil_r. split; [done|auto].
Qed.

Lemma gap_ungapped g c t : gap g -> c <> 32 -> c <> 10 -> c <> 13 -> ungapped (g ++ c :: t) = Some (c :: t).
Proof.
  intros (m & nl & n & -> & Hnl) H1 H2 H3. unfold ungapped. rewrite <-!app_assoc, unspaced_spaces.
  assert (Hu : unspaced (replicate n 32 ++ c :: t) = c :: t) by (by rewrite unspaced_spaces, unspaced_other).
  destruct Hnl as [->|[->| ->]]; cbn [app]; [|cbn [unspaced]; by rewrite Hu..].
  rewrite Hu. by repeat case_match; congruence.
Qed.

Lemma gap_ungapped_nil g : gap g -> ungapped g = Some [].
Proof.
  intros (m & nl & n & -> & Hnl). unfold ungapped. rewrite unspaced_spaces.
  assert (Hu : unspaced (replicate n 32) = []) by (rewrite <-(app_nil_r (replicate n 32)); apply unspaced_spaces).
  destruct Hnl as [->|[->| ->]]; cbn [app]; [|cbn [unspaced]; by rewrite Hu..]. by rewrite Hu.
Qed.

Lemma ungapped_len l t : ungapped l = Some t -> len t <= len l.
Proof. intros (g & _ & ->)%ungapped_gap. rewrite len_app. pose proof (len_nonneg g). lia. Qed.

Lemma unspaced_len l : len (unspaced l) <= len l.
Proof. destruct (unspaced_app l) as [m H]. rewrite H at 2. rewrite len_app. pose proof (len_nonneg (replicate m 32)). lia. Qed.

Lemma blank_unspaced l : blank (unspaced l) = blank l.
Proof.
  induction l as [|c l IH]; [done|]. destruct (decide (c = 32)) as [->|H]; [done|]. by rewrite unspaced_other.
Qed.

Lemma ungapped_blank l : blank l = match ungapped l with Some t => blank t | None => false end.
Proof.
  rewrite <-blank_unspaced. unfold ungapped.
  destruct (unspaced_lead l) as [|r|r|r Hr|c r H1 H2 H3].
  - done.
  - by rewrite blank_unspaced.
  - by rewrite blank_unspaced.
  - destruct r as [|c' r]; [done|]. simpl. repeat case_match; simplify_eq; try done; by destruct (Hr r).
  - by repeat case_match; try congruence.
Qed.

Lemma ungapped_stuck c l t : ungapped (c :: l) = Some t -> len t = len (c :: l) -> c <> 0 -> blank (c :: l) = false.
Proof.
  intros H Hl Hc. destruct (ungapped_gap _ _ H) as (g & Hg & E).
  assert (g = []) as -> by (apply len_0_nil; rewrite E in Hl; autorewrite with lens in Hl; lia).
  simpl in E. subst t. unfold ungapped in H.
  destruct (decide (c = 32)) as [->|H32].
  { cbn [unspaced] in *. pose proof (ungapped_len l _ H). rewrite len_cons in *. lia. }
  rewrite unspaced_other in H by done.
  destruct (decide (c = 10)) as [->|]; [|destruct (decide (c = 13)) as [->|]].
  - injection H as H. pose proof (unspaced_len l) as Hu. rewrite H, len_cons in Hu. lia.
  - destruct l as [|c' l]; [done|]. destruct (decide (c' = 10)) as [->|].
    + injection H as H. pose proof (unspaced_len l) as Hu. rewrite H, !len_cons in Hu. lia.
    + simpl. repeat case_match; congruence.
  - simpl. repeat case_match; congruence.
Qed.

(** *** Facts of characters and groups *)

Lemma char2val_ct c : 0 <= c < 256 -> Base64_Char2Val_CT c = default BAD (b64_val c).
Proof.
  intros H. apply Z.eqb_eq. revert c H.
  apply (below_spec 256 (fun c => Base64_Char2Val_CT c =? default BAD (b64_val c))). by vm_compute.
Qed.

Lemma b64_val_char c v : b64_val c = Some v -> sextet v /\ c = b64_char v.
Proof. unfold b64_val, b64_char, sextet. intros. repeat (case_match; bool_to_prop; simplify_eq); lia. Qed.

Lemma b64_char_val v : sextet v -> b64_val (b64_char v) = Some v.
Proof.
  unfold b64_val, b64_char, sextet. intros. repeat (case_match; bool_to_prop; simplify_eq); f_equal; lia.
Qed.

Lemma b64_char_visible v : sextet v -> 43 <= b64_char v < 123 /\ b64_char v <> PAD.
Proof. unfold b64_char, sextet. intros. repeat (case_match; bool_to_prop); lia. Qed.

Lemma lor_sextets a b : sextet a -> sextet b ->
  w8 (Z.lor (Z.shiftl a 2) (Z.shiftr b 4)) = a * 4 + b / 16 /\
  w8 (Z.lor (Z.shiftl (Z.land a 0xF) 4) (Z.shiftr b 2)) = a mod 16 * 16 + b / 4 /\
  w8 (Z.lor (Z.shiftl (Z.land a 0x3) 6) b) = a mod 4 * 64 + b.
Proof.
  intros Ha Hb. assert (H : below 64 (fun a => below 64 (fun b =>
    (w8 (Z.lor (Z.shiftl a 2) (Z.shiftr b 4)) =? a * 4 + b / 16) &&
    (w8 (Z.lor (Z.shiftl (Z.land a 0xF) 4) (Z.shiftr b 2)) =? a mod 16 * 16 + b / 4) &&
    (w8 (Z.lor (Z.shiftl (Z.land a 0x3) 6) b) =? a mod 4 * 64 + b))) = true) by (by vm_compute).
  pose proof (below_spec _ _ (below_spec _ _ H a Ha) b Hb) as Hab. cbv beta in Hab. bool_to_prop. auto.
Qed.

Lemma quad_bytes_eq v1 v2 v3 v4 : sextet v1 -> sextet v2 -> sextet v3 -> sextet v4 ->
  quad_bytes v1 v2 v3 v4 =
    [w8 (Z.lor (Z.shiftl v1 2) (Z.shiftr v2 4)); w8 (Z.lor (Z.shiftl (Z.land v2 0xF) 4) (Z.shiftr v3 2));
     w8 (Z.lor (Z.shiftl (Z.land v3 0x3) 6) v4)].
Proof.
  intros H1 H2 H3 H4. destruct (lor_sextets v1 v2) as (-> & _ & _); [done..|].
  destruct (lor_sextets v2 v3) as (_ & -> & _); [done..|].
  destruct (lor_sextets v3 v4) as (_ & _ & ->); [done..|].
  unfold quad_bytes, be_split, sextet in *. cbn [le_split rev app]. rewrite !w8_mod, !Z.shiftr_div_pow2 by lia.
  change (2 ^ 18) with 262144. change (2 ^ 12) with 4096. change (2 ^ 6) with 64. change (2 ^ 8) with 256.
  repeat f_equal; Z.div_mod_to_equations; lia.
Qed.

Lemma next_of_gap l c t : next_of l = inr (c, t) -> exists g, gap g /\ l = g ++ c :: t.
Proof.
  unfold next_of. intros H. destruct (ungapped l) as [[|c' t']|] eqn:E; simplify_eq. by apply ungapped_gap.
Qed.

Lemma group_of_quad l c1 c2 c3 c4 t : group_of l = (Quad c1 c2 c3 c4, t) ->
  exists g1 g2 g3 g4, gap g1 /\ gap g2 /\ gap g3 /\ gap g4 /\
    l = g1 ++ c1 :: g2 ++ c2 :: g3 ++ c3 :: g4 ++ c4 :: t.
Proof.
  unfold group_of. intros H. destruct (ungapped l) as [[|c t1]|] eqn:E; simplify_eq.
  destruct (c =? 0); simplify_eq. destruct (ungapped_gap _ _ E) as (g1 & H1 & ->).
  destruct (next_of t1) as [|[? t2]] eqn:E2; simplify_eq. destruct (next_of_gap _ _ _ E2) as (g2 & H2 & ->).
  destruct (next_of t2) as [|[? t3]] eqn:E3; simplify_eq. destruct (next_of_gap _ _ _ E3) as (g3 & H3 & ->).
  destruct (next_of t3) as [|[? t4]] eqn:E4; simplify_eq. destruct (next_of_gap _ _ _ E4) as (g4 & H4 & ->).
  by exists g1, g2, g3, g4.
Qed.

Lemma gap_quad g1 g2 g3 g4 c1 c2 c3 c4 t : gap g1 -> gap g2 -> gap g3 -> gap g4 ->
  Forall (fun c => 33 <= c) [c1; c2; c3; c4] ->
  group_of (g1 ++ c1 :: g2 ++ c2 :: g3 ++ c3 :: g4 ++ c4 :: t) = (Quad c1 c2 c3 c4, t).
Proof.
  intros H1 H2 H3 H4 Hc. split_bytes. unfold group_of, next_of.
  rewrite (gap_ungapped g1) by (done || lia). rewrite (proj2 (Z.eqb_neq _ _)) by lia.
  rewrite (gap_ungapped g2) by (done || lia). rewrite (gap_ungapped g3) by (done || lia).
  by rewrite (gap_ungapped g4) by (done || lia).
Qed.

(** The values of a group, and the tests made on them. *)
Lemma bytes_of_ct c1 c2 c3 c4 : bytes_ok [c1; c2; c3; c4] ->
  let e1 := Base64_Char2Val_CT c1 in
  let e2 := Base64_Char2Val_CT c2 in
  let e3 := if c3 =? PAD then 0 else Base64_Char2Val_CT c3 in
  let e4 := if c4 =? PAD then 0 else Base64_Char2Val_CT c4 in
  match bytes_of c1 c2 c3 c4 with
  | None => (c3 =? PAD) && negb (c4 =? PAD) = true \/
            (e1 =? BAD) || (e2 =? BAD) || (e3 =? BAD) || (e4 =? BAD) = true
  | Some bs => (c3 =? PAD) && negb (c4 =? PAD) = false /\
               (e1 =? BAD) || (e2 =? BAD) || (e3 =? BAD) || (e4 =? BAD) = false /\
               sextet e1 /\ sextet e2 /\ sextet e3 /\ sextet e4 /\
               bs = take (if c3 =? PAD then 1 else if c4 =? PAD then 2 else 3) (quad_bytes e1 e2 e3 e4)
  end.
Proof.
  intros Hb. split_bytes. cbv zeta. rewrite !char2val_ct by done. unfold bytes_of.
  assert (Hv : forall c v, b64_val c = Some v -> sextet v /\ (v =? BAD) = false).
  { intros c v [Hv _]%b64_val_char. split; [done|]. apply Z.eqb_neq. unfold sextet in *. lia. }
  assert (Hz : sextet 0) by (unfold sextet; lia).
  destruct (b64_val c1) as [v1|] eqn:E1; [|by right]. destruct (Hv _ _ E1) as [S1 B1]. cbn.
  destruct (b64_val c2) as [v2|] eqn:E2; [|right; cbn; by rewrite orb_true_r]. destruct (Hv _ _ E2) as [S2 B2]. cbn.
  rewrite B1, B2. destruct (c3 =? PAD).
  { destruct (c4 =? PAD); [|by left]. done. }
  destruct (b64_val c3) as [v3|] eqn:E3; [|right; cbn; done]. destruct (Hv _ _ E3) as [S3 B3]. cbn. rewrite B3.
  destruct (c4 =? PAD); [done|]. destruct (b64_val c4) as [v4|] eqn:E4; [|by right].
  destruct (Hv _ _ E4) as [S4 B4]. cbn. rewrite B4. done.
Qed.

(** ** White space, as a function of the text left *)

Section Text.
Context (e : env) (inp : bytes).
Implicit Types (pre l t : bytes).

(** Up to the last character, spaces are passed over. *)
Lemma skip_lead_ok fuel pre c l : inp = pre ++ c :: l -> (length l < fuel)%nat ->
  calc e 0 (skip_lead fuel inp (len (c :: l)) (len pre) c)
    (fun '(n, j, cur) => exists pre' t, inp = pre' ++ cur :: t /\ n = len (cur :: t) /\ j = len pre' /\
       unspaced (c :: l) = unspaced (cur :: t) /\ (cur = 32 -> t = []) /\ (length t <= length l)%nat).
Proof.
  revert pre c l. induction fuel as [|fuel IH]; intros pre c l E Hf; [lia|]. cbn [skip_lead].
  destruct l as [|c' l].
  { apply calc_ret. by exists pre, []. }
  rewrite (proj2 (Z.ltb_lt _ _)) by (rewrite !len_cons; pose proof (len_nonneg l); lia). cbn [andb].
  destruct (Z.eqb_spec c 32) as [->|Hc].
  - rewrite (len_snoc _ 32). rewrite app_shift in E. eapply calc_peek; [done|].
    change (unspaced (32 :: c' :: l)) with (unspaced (c' :: l)).
    replace (len (32 :: c' :: l) - 1) with (len (c' :: l)) by (rewrite !len_cons; lia).
    eapply calc_mono; [apply IH; [done|simpl in Hf; lia]|]. intros [[n j] cur] (pre' & t & H).
    exists pre', t. simpl. intuition lia.
  - apply calc_ret. by exists pre, (c' :: l).
Qed.

Lemma skip_tail_ok fuel pre c l : inp = pre ++ c :: l -> (S (length l) < fuel)%nat ->
  calc e 0 (skip_tail fuel inp (len (c :: l)) (len pre) c)
    (fun '(n, j) => n = len (unspaced (c :: l)) /\
       (unspaced (c :: l) <> [] -> exists pre', inp = pre' ++ unspaced (c :: l) /\ j = len pre')).
Proof.
  revert pre c l. induction fuel as [|fuel IH]; intros pre c l E Hf; [lia|]. cbn [skip_tail].
  rewrite (proj2 (Z.ltb_lt _ _)) by (rewrite !len_cons; pose proof (len_nonneg l); lia). cbn [andb].
  destruct (Z.eqb_spec c 32) as [->|Hc].
  - destruct l as [|c' l].
    + destruct fuel as [|fuel]; [simpl in Hf; lia|]. by apply calc_ret.
    + replace (len (32 :: c' :: l) - 1) with (len (c' :: l)) by (rewrite !len_cons; lia).
      rewrite (proj2 (Z.ltb_lt _ _)) by (rewrite !len_cons; pose proof (len_nonneg l); lia).
      rewrite (len_snoc _ 32). rewrite app_shift in E. eapply calc_peek; [done|].
      change (unspaced (32 :: c' :: l)) with (unspaced (c' :: l)).
      apply IH; [done|simpl in Hf; lia].
  - apply calc_ret. rewrite unspaced_other by done. split; [done|]. eauto.
Qed.
(** The answer of [Base64_SkipNewline] for the text past the gap. *)
Definition skip_answer (inLen outJ : Z) (o : option bytes) (r : Z * Z * Z) : Prop :=
  match o with
  | None => r = (ASN_INPUT_E, inLen, outJ)
  | Some [] => r = (BUFFER_E, inLen, outJ)
  | Some t => exists pre, inp = pre ++ t /\ r = (0, len t, len pre)
  end.

Lemma skip_end inLen outJ fuel pre t cur : inp = pre ++ t -> (length t < fuel)%nat ->
  (forall c t', t = c :: t' -> cur = c) ->
  calc e 0 ('(n, j) ← skip_tail fuel inp (len t) (len pre) cur;
            if n =? 0 then mret (BUFFER_E, inLen, outJ) else mret (0, n, j))
    (skip_answer inLen outJ (Some (unspaced t))).
Proof.
  intros E Hf Hcur. destruct t as [|c t].
  { destruct fuel; [lia|]. by apply calc_ret. }
  rewrite (Hcur c t) by done. eapply calc_bind; [apply (skip_tail_ok fuel pre c t); [done|simpl in Hf; lia]|].
  intros [n j] [-> Hj]. destruct (unspaced (c :: t)) as [|c' t'] eqn:Eu.
  - by apply calc_ret.
  - destruct Hj as (pre' & Ei & ->); [done|].
    rewrite (proj2 (Z.eqb_neq _ _)) by (rewrite len_cons; pose proof (len_nonneg t'); lia).
    apply calc_ret. simpl. eauto.
Qed.

(** Past a line end. *)
Lemma skip_line inLen outJ fuel pre t : inp = pre ++ t -> (length t < fuel)%nat ->
  calc e 0
    ('(err, n, j, curChar) ←
       (curChar ← (if 0 <? len t then peek inp (len pre) else mret 10); mret (0, len t, len pre, curChar));
     if negb (err =? 0) then mret (err, inLen, outJ)
     else
       '(n, j) ← skip_tail fuel inp n j curChar;
       if n =? 0 then mret (BUFFER_E, inLen, outJ) else mret (0, n, j))
    (skip_answer inLen outJ (Some (unspaced t))).
Proof.
  intros E Hf. calc_step. destruct t as [|c t].
  - change (0 <? len []) with false. cbv iota. do 2 calc_step. by apply (skip_end _ _ fuel pre []).
  - rewrite (proj2 (Z.ltb_lt _ _)) by (rewrite len_cons; pose proof (len_nonneg t); lia).
    eapply calc_peek; [done|]. calc_step. apply (skip_end _ _ fuel pre (c :: t)); [done..|congruence].
Qed.

Lemma ungapped_eq l l' : unspaced l = unspaced l' -> ungapped l = ungapped l'.
Proof. unfold ungapped. by intros ->. Qed.

Lemma skip_ok pre l : inp = pre ++ l ->
  calc e 0 (Base64_SkipNewline inp (len l) (len pre)) (skip_answer (len l) (len pre) (ungapped l)).
Proof.
  intros E. unfold Base64_SkipNewline. destruct l as [|c l]; [by apply calc_ret|].
  rewrite (proj2 (Z.eqb_neq _ _)) by (rewrite len_cons; pose proof (len_nonneg l); lia).
  eapply calc_peek; [done|]. set (fuel := S (Z.to_nat _)).
  assert (Hf : (S (length l) < fuel)%nat) by (unfold fuel, len; simpl; lia). clearbody fuel.
  eapply calc_bind; [apply (skip_lead_ok fuel pre c l); [done|lia]|].
  intros [[n j] cur] (pre' & t & E' & -> & -> & Eu & Hsp & Ht). rewrite (ungapped_eq _ _ Eu).
  set (n0 := len (c :: l)). set (j0 := len pre). clearbody n0 j0. clear E Eu.
  rewrite (len_snoc _ cur). replace (len (cur :: t) - 1) with (len t) by (rewrite len_cons; lia).
  destruct (Z.eqb_spec cur 13) as [->|H13]; [|destruct (Z.eqb_spec cur 10) as [->|H10]]; cbn [orb andb].
  - rewrite app_shift in E'. destruct t as [|c' t]; [by calc_steps|].
    rewrite (proj2 (Z.ltb_lt _ _)) by (rewrite len_cons; pose proof (len_nonneg t); lia).
    do 2 calc_step. eapply calc_peek; [done|]. calc_step. rewrite (len_snoc _ c').
    replace (len (c' :: t) - 1) with (len t) by (rewrite len_cons; lia). rewrite app_shift in E'.
    destruct (Z.eqb_spec c' 10) as [->|Hn]; cbn [negb].
    + apply skip_line; [done|simpl in Ht; lia].
    + calc_steps. unfold ungapped. cbn [unspaced]. by repeat case_match; try congruence.
  - rewrite app_shift in E'. calc_step. eval_tests. apply skip_line; [done|lia].
  - calc_step. eval_tests. unfold ungapped. change (0 =? 0) with true. cbn [negb].
    replace (match unspaced (cur :: t) with _ => _ end) with (Some (unspaced (cur :: t))).
    + apply (skip_end _ _ fuel pre' (cur :: t)); [done|simpl; lia|congruence].
    + destruct (decide (cur = 32)) as [->|H32]; [by rewrite Hsp|].
      rewrite unspaced_other by done. by repeat case_match; congruence.
Qed.
(** ** The groups, as functions of the text left *)

Lemma next_char_ok pre l : inp = pre ++ l ->
  calc e 0 (next_char inp (len l) (len pre))
    (fun r => match next_of l with
              | inl ret => r.1.1.1 = ret /\ ret <> 0
              | inr (c, t) => exists pre', inp = pre' ++ t /\ r = (0, c, len t, len pre')
              end).
Proof.
  intros E. unfold next_char, next_of. eapply calc_bind; [by apply skip_ok|]. unfold skip_answer.
  destruct (ungapped l) as [[|c t]|].
  - intros ? ->. by calc_steps.
  - intros ? (pre' & E' & ->). change (0 =? 0) with true. cbn [negb]. eapply calc_peek; [done|]. calc_steps.
    rewrite (len_snoc _ c). exists (pre' ++ [c]). rewrite app_shift in E'. split; [done|].
    repeat f_equal. rewrite len_cons. lia.
  - intros ? ->. by calc_steps.
Qed.

(** Read one more character, or return. *)
Ltac next_step :=
  eapply calc_bind; [by apply next_char_ok|];
  let r := fresh in intros r; destruct (next_of _) as [?ret|[?c ?t]];
  [destruct r as [[[??]?]?]; intros [? ?]; simpl in *; subst;
   rewrite (proj2 (Z.eqb_neq _ 0)) by done; apply calc_ret; simpl; eauto 8
  |intros (?pre & ?E & ->); change (0 =? 0) with true; cbn [negb]; cbv iota].

(** [n] characters are left from [j] on, those of [l]. *)
Definition at_text (l : bytes) (n j : Z) : Prop :=
  n = len l /\ (l = [] \/ exists pre, inp = pre ++ l /\ j = len pre).

Lemma read_group_ok pre l : inp = pre ++ l ->
  calc e 0 (read_group inp (len l) (len pre))
    (fun '(g, n, j) => g = (group_of l).1 /\
       match g with Return ret => ret <> 0 | _ => at_text (group_of l).2 n j end).
Proof.
  intros E. unfold read_group, group_of, at_text. eapply calc_bind; [by apply skip_ok|]. unfold skip_answer.
  destruct (ungapped l) as [[|c1 t1]|].
  - intros ? ->. calc_steps. simpl. eauto 8.
  - intros ? (pre1 & E1 & ->). change (0 =? 0) with true. cbn [negb]. eapply calc_peek; [done|].
    destruct (c1 =? 0); [calc_steps; simpl; auto|].
    rewrite (len_snoc _ c1). rewrite app_shift in E1. replace (len (c1 :: t1) - 1) with (len t1) by (rewrite len_cons; lia).
    do 3 next_step. calc_steps. simpl. eauto 8.
  - intros ? ->. calc_steps. simpl. eauto 8.
Qed.
Lemma trailing_ok fuel pre l : inp = pre ++ l -> (length l < fuel)%nat ->
  calc e 0 (trailing fuel inp (len l) (len pre)) (fun r => r = if blank l then 0 else ASN_INPUT_E).
Proof.
  revert pre l. induction fuel as [|fuel IH]; intros pre l E Hf; [lia|]. cbn [trailing].
  destruct l as [|c l]; [by apply calc_ret|].
  rewrite (proj2 (Z.ltb_lt _ _)) by (rewrite len_cons; pose proof (len_nonneg l); lia).
  eapply calc_peek; [done|]. destruct (Z.eqb_spec c 0) as [->|Hc]; [by apply calc_ret|].
  eapply calc_bind; [by apply skip_ok|]. unfold skip_answer. pose proof (ungapped_blank (c :: l)) as Hb.
  destruct (ungapped (c :: l)) as [[|c' t]|] eqn:Eu; rewrite ?Hb.
  - intros ? ->. by calc_steps.
  - intros ? (pre' & E' & ->). change (0 =? 0) with true. cbn [negb].
    pose proof (ungapped_len _ _ Eu). assert (Hl : len pre + len (c :: l) = len pre' + len (c' :: t)).
    { rewrite <-!len_app. congruence. }
    case_match eqn:Ej; bool_to_prop.
    + apply calc_ret. rewrite <-Hb. by rewrite (ungapped_stuck c l (c' :: t)) by (done || lia).
    + apply IH; [done|]. unfold len in *. lia.
  - intros ? ->. by calc_steps.
Qed.

(** The answer of a decoder that has stored [i] bytes: the bytes of the rest, and a
    NUL when there is room; or a code. *)
Definition decode_answer (i outLen : Z) (out : bytes) (r : Z + bytes) (a : Z * bytes * Z) : Prop :=
  match r with
  | inr d => i + len d <= outLen /\ a = (0, splice out i (d ++ if i + len d <? outLen then [0] else []), i + len d)
  | inl ret => a.1.1 = ret /\ ret <> 0 /\ a.2 = outLen /\ len a.1.2 = len out
  end.

Lemma finish_ok l n j i outLen out : at_text l n j -> 0 <= i <= outLen -> outLen <= len out ->
  calc e 0 (finish inp n j i outLen out) (decode_answer i outLen out (end_of l [])).
Proof.
  intros [-> E] Hi Ho. unfold finish, end_of.
  eapply calc_bind.
  { instantiate (1 := fun r => r = if blank l then 0 else ASN_INPUT_E). destruct E as [->|(pre & E & ->)].
    - by apply calc_ret.
    - apply trailing_ok; [done|unfold len; lia]. }
  intros ? ->. destruct (blank l); [|by calc_steps].
  change (0 =? 0) with true. cbn [negb]. cbv iota. unfold decode_answer.
  replace (i + len []) with i by (change (len []) with 0; lia). cbn [app]. destruct (Z.ltb_spec i outLen).
  - calc_steps; change (len [0]) with 1; try lia. split; [lia|done].
  - calc_steps. rewrite splice_nil. split; [lia|done].
Qed.

Lemma decode_answer_prepend bs i outLen out r a : 0 <= i -> i + len bs <= outLen -> outLen <= len out ->
  decode_answer (i + len bs) outLen (splice out i bs) r a -> decode_answer i outLen out (prepend bs r) a.
Proof.
  intros H1 H2 H3. destruct r as [ret|d]; simpl.
  - rewrite len_splice by lia. done.
  - intros [Hd ->]. rewrite len_app, Z.add_assoc. split; [done|]. f_equal. f_equal.
    rewrite <-app_assoc. apply splice_splice; [done|].
    case_match; bool_to_prop; autorewrite with lens; lia.
Qed.

Lemma end_of_prepend t bs : end_of t bs = prepend bs (end_of t []).
Proof. unfold end_of. destruct (blank t); [|done]. simpl. by rewrite app_nil_r. Qed.
Lemma put_group_ok pad3 pad4 v1 v2 v3 v4 i outLen out bs :
  sextet v1 -> sextet v2 -> sextet v3 -> sextet v4 -> (pad3 = true -> pad4 = true) ->
  bs = take (if pad3 then 1 else if pad4 then 2 else 3) (quad_bytes v1 v2 v3 v4) ->
  0 <= i <= outLen -> outLen <= len out ->
  calc e 0 (put_group pad3 pad4 v1 v2 v3 v4 i outLen out)
    (fun r => r = if outLen <? i + len bs then (BUFFER_E, i, out) else (0, i + len bs, splice out i bs)).
Proof.
  intros H1 H2 H3 H4 Hp -> Hi Ho. rewrite quad_bytes_eq by done. unfold put_group.
  set (b1 := w8 (Z.lor (Z.shiftl v1 2) _)). set (b2 := w8 (Z.lor _ (Z.shiftr v3 2))). set (b3 := w8 (Z.lor _ v4)).
  clearbody b1 b2 b3.
  set (bs := take _ _). assert (Hl : i + len bs = i + 1 + Z.b2z (negb pad3) + Z.b2z (negb pad4)).
  { unfold bs. destruct pad3, pad4; try (by specialize (Hp eq_refl)); cbn [take negb Z.b2z]; autorewrite with lens; lia. }
  rewrite <-Hl. destruct (Z.ltb_spec outLen (i + len bs)) as [Hs|Hs]; [by apply calc_ret|].
  assert (H : forall x : Z, len [x] = 1) by done.
  pose proof (fun x y => splice_splice out [x] [y] i) as H12. pose proof (splice_splice out [b1; b2] [b3] i) as H23.
  assert (H' : forall x y : Z, len [x; y] = 2) by done. rewrite H' in H23.
  setoid_rewrite H in H12. rewrite H in H23.
  destruct pad3, pad4; try (by specialize (Hp eq_refl)); cbn [negb take Z.b2z] in *; unfold bs in *;
    autorewrite with lens in Hs; calc_steps;
    try (repeat (rewrite len_splice by (rewrite ?len_splice, ?H by (rewrite ?H; lia); lia)); rewrite ?H; lia).
  - done.
  - rewrite H12 by lia. f_equal. f_equal. autorewrite with lens. lia.
  - rewrite H12 by lia. cbn [app]. replace (i + 1 + 1) with (i + 2) by lia. rewrite H23 by lia. f_equal. f_equal. autorewrite with lens. lia.
Qed.
(** The loop over the groups computes [decode_of]. *)
Lemma decode_loop_ok fuel l n j i outLen out : at_text l n j -> bytes_ok l -> (length l < fuel)%nat ->
  0 <= i <= outLen -> outLen <= len out ->
  calc e 0 (decode_loop fuel inp n j i outLen out) (decode_answer i outLen out (decode_of fuel l (outLen - i))).
Proof.
  revert l n j i out. induction fuel as [|fuel IH]; intros l n j i out Ht Hb Hf Hi Ho; [lia|].
  cbn [decode_loop decode_of]. pose proof Ht as [-> E]. destruct (3 <? len l) eqn:E3; [|by apply finish_ok].
  destruct E as [->|(pre & E & ->)]; [done|].
  eapply calc_bind; [by apply read_group_ok|]. intros [[g n] j] [-> Hg].
  destruct (group_of l) as [[c1 c2 c3 c4| |ret] t] eqn:Eg; cbn [fst snd] in *.
  3: by apply calc_ret.
  2: by apply finish_ok.
  destruct (group_of_quad _ _ _ _ _ _ Eg) as (g1 & g2 & g3 & g4 & _ & _ & _ & _ & El).
  assert (Hbc : bytes_ok [c1; c2; c3; c4] /\ bytes_ok t /\ (length t < length l)%nat).
  { subst l. split; [|split].
    - repeat (apply Forall_app in Hb as [_ Hb]; apply Forall_cons_1 in Hb as [? Hb]). solve_bytes.
    - by repeat (apply Forall_app in Hb as [_ Hb]; apply Forall_cons_1 in Hb as [? Hb]).
    - repeat (rewrite length_app; simpl). lia. }
  destruct Hbc as (Hbc & Hbt & Hlt). pose proof (bytes_of_ct c1 c2 c3 c4 Hbc) as Hv. cbv zeta in Hv |- *.
  destruct (bytes_of c1 c2 c3 c4) as [bs|].
  2: { destruct Hv as [-> | ->]; [by apply calc_ret|]. case_match; by apply calc_ret. }
  destruct Hv as (Hp & -> & S1 & S2 & S3 & S4 & Hbs). rewrite Hp.
  eapply calc_bind.
  { apply put_group_ok with (bs := bs); try done. intros H. rewrite H in Hp. by apply negb_false_iff in Hp. }
  intros ? ->. replace (outLen - i <? len bs) with (outLen <? i + len bs) by (apply eq_true_iff_eq; rewrite !Z.ltb_lt; lia).
  destruct (Z.ltb_spec outLen (i + len bs)) as [Hr|Hr]; [by apply calc_ret|].
  pose proof (len_nonneg bs). change (0 =? 0) with true. cbn [negb]. cbv iota.
  assert (Ho' : outLen <= len (splice out i bs)) by (rewrite len_splice; lia).
  destruct (c4 =? PAD); cbn [negb].
  - rewrite end_of_prepend. eapply calc_mono; [apply (finish_ok t); [done|lia|done]|].
    intros a. apply decode_answer_prepend; lia.
  - eapply calc_mono; [apply IH with (l := t); [done|done|lia|lia|done]|].
    intros a. replace (outLen - (i + len bs)) with (outLen - i - len bs) by lia. apply decode_answer_prepend; lia.
Qed.
End Text.

(** *** The function and the grammar *)

Lemma group_of_break l t : group_of l = (Break, t) ->
  (gap l /\ t = l) \/ (t = [] /\ exists g junk, gap g /\ l = g ++ 0 :: junk).
Proof.
  unfold group_of. intros H. destruct (ungapped l) as [[|c t1]|] eqn:E; simplify_eq.
  - left. destruct (ungapped_gap _ _ E) as (g & Hg & El). rewrite app_nil_r in El. by subst.
  - destruct (ungapped_gap _ _ E) as (g & Hg & El). destruct (Z.eqb_spec c 0) as [->|]; simplify_eq; [eauto 6|].
    by repeat case_match.
Qed.

Lemma quad_bytes_len v1 v2 v3 v4 : len (quad_bytes v1 v2 v3 v4) = 3.
Proof. done. Qed.

Lemma bytes_of_chars c1 c2 c3 c4 bs : bytes_of c1 c2 c3 c4 = Some bs ->
  exists v1 v2, sextet v1 /\ sextet v2 /\ c1 = b64_char v1 /\ c2 = b64_char v2 /\
    ((c3 = PAD /\ c4 = PAD /\ bs = take 1 (quad_bytes v1 v2 0 0)) \/
     exists v3, sextet v3 /\ c3 = b64_char v3 /\
       ((c4 = PAD /\ bs = take 2 (quad_bytes v1 v2 v3 0)) \/
        (c4 <> PAD /\ exists v4, sextet v4 /\ c4 = b64_char v4 /\ bs = quad_bytes v1 v2 v3 v4))).
Proof.
  unfold bytes_of. intros (v1 & [S1 ->]%b64_val_char & H)%bind_Some.
  apply bind_Some in H as (v2 & [S2 ->]%b64_val_char & H). exists v1, v2. do 4 (split; [done|]).
  destruct (Z.eqb_spec c3 PAD) as [->|H3].
  { left. destruct (Z.eqb_spec c4 PAD); by simplify_eq. }
  right. apply bind_Some in H as (v3 & [S3 ->]%b64_val_char & H). exists v3. do 2 (split; [done|]).
  destruct (Z.eqb_spec c4 PAD) as [->|H4]; [left; by simplify_eq|right].
  apply bind_Some in H as (v4 & [S4 ->]%b64_val_char & H). simplify_eq. eauto 6.
Qed.

Lemma decode_of_text fuel l room d : 0 <= room -> decode_of fuel l room = inr d -> b64_text l d /\ len d <= room.
Proof.
  revert l room d. induction fuel as [|fuel IH]; intros l room d Hr; [done|]. cbn [decode_of].
  destruct (Z.ltb_spec 3 (len l)) as [H3|H3].
  2: { unfold end_of. destruct (blank l) eqn:Eb; intros; simplify_eq. split; [|done].
       apply text_rest. unfold b64_rest. auto. }
  destruct (group_of l) as [[c1 c2 c3 c4| |ret] t] eqn:Eg; [|unfold end_of|done].
  2: { destruct (blank t); intros; simplify_eq. split; [|done]. apply text_rest. unfold b64_rest.
       apply group_of_break in Eg as [[? _]|[_ ?]]; auto. }
  destruct (group_of_quad _ _ _ _ _ _ Eg) as (g1 & g2 & g3 & g4 & G1 & G2 & G3 & G4 & ->).
  destruct (bytes_of c1 c2 c3 c4) as [bs|] eqn:Eb; [|done]. case_match eqn:Er; [done|]. bool_to_prop.
  apply bytes_of_chars in Eb as (v1 & v2 & S1 & S2 & -> & -> & [(-> & -> & ->)|(v3 & S3 & -> & [[-> ->]|(H4 & v4 & S4 & -> & ->)])]).
  - change (PAD =? PAD) with true. unfold end_of. destruct (blank t) eqn:Et; intros; simplify_eq.
    split; [by apply text_pad2|done].
  - change (PAD =? PAD) with true. unfold end_of. destruct (blank t) eqn:Et; intros; simplify_eq.
    split; [by apply text_pad1|done].
  - rewrite (proj2 (Z.eqb_neq _ _)) by done. destruct (decode_of fuel t _) as [|d'] eqn:Ed; [done|].
    intros Hd. assert (d = quad_bytes v1 v2 v3 v4 ++ d') as -> by (simpl in *; congruence). apply IH in Ed as [Ht Hl]; [|lia]. rewrite len_app. split; [by apply text_group|lia].
Qed.

(** The length of a text that starts with a group. *)
Lemma group_long g1 g2 g3 g4 (c1 c2 c3 c4 : Z) (t : bytes) :
  (length t + 3 < length (g1 ++ c1 :: g2 ++ c2 :: g3 ++ c3 :: g4 ++ c4 :: t))%nat.
Proof. repeat (rewrite length_app; simpl). lia. Qed.

(** One step of the function at a group. *)
Lemma decode_of_group fuel room g1 g2 g3 g4 c1 c2 c3 c4 t :
  gap g1 -> gap g2 -> gap g3 -> gap g4 -> Forall (fun c => 33 <= c) [c1; c2; c3; c4] ->
  decode_of (S fuel) (g1 ++ c1 :: g2 ++ c2 :: g3 ++ c3 :: g4 ++ c4 :: t) room =
    match bytes_of c1 c2 c3 c4 with
    | None => inl ASN_INPUT_E
    | Some bs => if room <? len bs then inl BUFFER_E
                 else if c4 =? PAD then end_of t bs else prepend bs (decode_of fuel t (room - len bs))
    end.
Proof.
  intros G1 G2 G3 G4 Hc. cbn [decode_of]. rewrite gap_quad by done.
  pose proof (group_long g1 g2 g3 g4 c1 c2 c3 c4 t). rewrite (proj2 (Z.ltb_lt _ _)) by (unfold len; lia). done.
Qed.

Lemma text_rest_blank t : b64_rest t -> blank t = true.
Proof.
  intros [Hg|[(g & junk & Hg & ->)|[_ ?]]]; [| |done]; rewrite ungapped_blank;
    [by rewrite gap_ungapped_nil|by rewrite gap_ungapped].
Qed.

Lemma b64_char_pad v : sextet v -> (b64_char v =? PAD) = false.
Proof. intros H. apply Z.eqb_neq. by apply b64_char_visible. Qed.

Ltac visible := repeat (apply Forall_cons_2; [auto|]); apply Forall_nil_2.

(** A text is decoded to the bytes it stands for, when there is room. *)
Lemma text_decode_of l d : b64_text l d -> forall fuel room, (length l < fuel)%nat -> len d <= room ->
  decode_of fuel l room = inr d.
Proof.
  assert (HP : 33 <= PAD) by done.
  assert (HV : forall v, sextet v -> 33 <= b64_char v) by (intros v Hv%b64_char_visible; lia).
  induction 1 as [t Ht|g1 g2 g3 g4 v1 v2 v3 v4 t d G1 G2 G3 G4 S1 S2 S3 S4 Ht IH
    |g1 g2 g3 g4 v1 v2 v3 t G1 G2 G3 G4 S1 S2 S3 Ht|g1 g2 g3 g4 v1 v2 t G1 G2 G3 G4 S1 S2 Ht];
    intros [|fuel] room Hf Hr; try lia.
  - pose proof (text_rest_blank t Ht) as Hb. cbn [decode_of]. unfold end_of.
    destruct (Z.ltb_spec 3 (len t)); [|by rewrite Hb].
    destruct Ht as [Hg|[(g & junk & Hg & ->)|[? ?]]]; [| |lia]; unfold group_of.
    + rewrite gap_ungapped_nil by done. by rewrite Hb.
    + by rewrite gap_ungapped.
  - rewrite decode_of_group by (done || visible). unfold bytes_of. rewrite !b64_char_val by done.
    cbn [mbind option_bind]. rewrite !b64_char_pad by done. rewrite len_app in Hr. rewrite quad_bytes_len in *.
    pose proof (len_nonneg d). rewrite (proj2 (Z.ltb_ge _ _)) by lia.
    pose proof (group_long g1 g2 g3 g4 (b64_char v1) (b64_char v2) (b64_char v3) (b64_char v4) t).
    rewrite IH by lia. done.
  - rewrite decode_of_group by (done || visible). unfold bytes_of. rewrite !b64_char_val by done.
    cbn [mbind option_bind]. rewrite !b64_char_pad by done. change (PAD =? PAD) with true. cbv iota.
    rewrite (proj2 (Z.ltb_ge _ _)) by done. unfold end_of. by rewrite Ht.
  - rewrite decode_of_group by (done || visible). unfold bytes_of. rewrite !b64_char_val by done.
    cbn [mbind option_bind]. change (PAD =? PAD) with true. cbv iota.
    rewrite (proj2 (Z.ltb_ge _ _)) by done. unfold end_of. by rewrite Ht.
Qed.

Lemma decode_of_code fuel l room ret : (length l < fuel)%nat -> decode_of fuel l room = inl ret ->
  ret = ASN_INPUT_E \/ ret = BUFFER_E.
Proof.
  revert l room. induction fuel as [|fuel IH]; intros l room Hf; [lia|]. cbn [decode_of].
  assert (Hend : forall t d, end_of t d = inl ret -> ret = ASN_INPUT_E \/ ret = BUFFER_E).
  { unfold end_of. intros t d H. case_match; simplify_eq. auto. }
  destruct (3 <? len l); [|apply Hend]. destruct (group_of l) as [[c1 c2 c3 c4| |ret'] t] eqn:Eg; [|apply Hend|].
  - destruct (group_of_quad _ _ _ _ _ _ Eg) as (g1 & g2 & g3 & g4 & _ & _ & _ & _ & ->).
    pose proof (group_long g1 g2 g3 g4 c1 c2 c3 c4 t).
    destruct (bytes_of c1 c2 c3 c4) as [bs|]; [|intros; simplify_eq; auto].
    case_match; [intros; simplify_eq; auto|]. case_match; [apply Hend|].
    destruct (decode_of fuel t _) eqn:Ed; [|done]. simpl. intros. simplify_eq. eapply IH; [|exact Ed]. lia.
  - unfold group_of, next_of in Eg. intros [= <-]. repeat case_match; simplify_eq; auto.
Qed.

(** C30. Base64 decoding accepts exactly the texts of the grammar [b64_text] whose
    bytes fit in the room the caller gives, and then stores those bytes, a NUL
    after them if there is room, and their number.  In every other case it
    returns one of two codes.  No access is out of bounds and every loop ends. *)
Theorem base64_decode_exact (e : env) (text out : bytes) (n : Z) :
  bytes_ok text -> 0 <= n <= len out ->
  calc e 0 (Base64_Decode (Some text) (len text) (Some out) (Some n))
    (fun '(ret, out', n') =>
       (forall d, b64_text text d -> len d <= n ->
          ret = 0 /\ n' = Some (len d) /\ out' = Some (splice out 0 (d ++ if len d <? n then [0] else []))) /\
       (ret = 0 -> exists d, b64_text text d /\ len d <= n) /\
       (ret = 0 \/ ret = ASN_INPUT_E \/ ret = BUFFER_E)).
Proof.
  intros Hb Hn. unfold Base64_Decode. change (bool_decide (Some text = None)) with false. cbn [andb default]. cbv iota.
  set (fuel := S (Z.to_nat (len text))). assert (Hf : (length text < fuel)%nat) by (unfold fuel, len; lia).
  eapply calc_bind; [apply (decode_loop_ok e text fuel text); [split; [done|right; by exists []]|done|done|lia|lia]|].
  intros [[ret out'] n'] Ha. apply calc_ret. rewrite Z.sub_0_r in Ha. split; [|split].
  - intros d Ht Hd. rewrite (text_decode_of text d Ht fuel n) in Ha by done. cbn in Ha. destruct Ha as [_ Ha].
    by simplify_eq.
  - intros ->. destruct (decode_of fuel text n) as [|d] eqn:Ed; [by destruct Ha as (<- & ? & _)|].
    exists d. apply (decode_of_text fuel text n d); [lia|done].
  - destruct (decode_of fuel text n) as [r|d] eqn:Ed.
    + destruct Ha as (Hr & _). cbn in Hr. subst r. right. by eapply decode_of_code.
    + destruct Ha as [_ Ha]. simplify_eq. auto.
Qed.

(** The text [TQ ==], a line end after it, stands for the byte 77. *)
Lemma base64_decode_exact_witness :
  b64_text [84; 81; 32; 61; 61; 13; 10] [77] /\
  calc env_plenty 0 (Base64_Decode (Some [84; 81; 32; 61; 61; 13; 10]) 7 (Some [1; 2; 3]) (Some 3))
    (fun '(ret, out', n') => ret = 0 /\ n' = Some 1 /\ out' = Some [77; 0; 3]).
Proof.
  assert (Hg : gap []) by (exists 0%nat, [], 0%nat; auto).
  assert (Ht : b64_text [84; 81; 32; 61; 61; 13; 10] [77]).
  { apply (text_pad2 [] [] [32] [] 19 16 [13; 10]); try done. by exists 1%nat, [], 0%nat; auto. }
  split; [done|]. eapply calc_mono.
  - apply (base64_decode_exact env_plenty [84; 81; 32; 61; 61; 13; 10] [1; 2; 3] 3).
    + unfold bytes_ok. solve_bytes.
    + vm_compute. split; discriminate.
  - intros [[ret out'] n'] [H _]. apply (H [77]); [done|]. vm_compute. discriminate.
Defined.

(** ** The two decoders *)

(** Every answer of [m] is in [Q]. *)
Definition gives {A} (m : M A) (Q : A -> Prop) : Prop := forall w, match m w with Ok a _ => Q a | Fault => True end.

Lemma gives_bind {A B} (m : M A) (k : A -> M B) P Q :
  gives m P -> (forall a, P a -> gives (k a) Q) -> gives (m ≫= k) Q.
Proof.
  intros Hm Hk w. specialize (Hm w). unfold mbind, M_bind. destruct (m w) as [a w'|]; [|done]. by apply Hk.
Qed.

Lemma gives_true {A} (m : M A) : gives m (fun _ => True).
Proof. intros w. by destruct (m w). Qed.

Lemma bind_ext {A B} (m : M A) (k1 k2 : A -> M B) Q w : gives m Q ->
  (forall a, Q a -> forall w, k1 a w = k2 a w) -> (m ≫= k1) w = (m ≫= k2) w.
Proof.
  intros Hm Hk. specialize (Hm w). unfold mbind, M_bind. destruct (m w) as [a w'|]; [|done]. by apply Hk.
Qed.

Lemma gives_peek inp j : bytes_ok inp -> gives (peek inp j) (fun c => 0 <= c < 256).
Proof.
  intros Hb w. unfold peek, rd, assert, mbind, M_bind, mret, M_ret.
  destruct ((0 <=? j) && (0 <=? 1) && (j + 1 <=? len inp)) eqn:E; [|done]. bool_to_prop. pose proof (len_sub inp j 1 ltac:(lia) ltac:(lia) ltac:(lia)) as Hl.
  assert (Hs : bytes_ok (sub inp j 1)) by (unfold sub; by apply Forall_take, Forall_drop).
  destruct (sub inp j 1) as [|c [|]]; [done| |by rewrite !len_cons in Hl; pose proof (len_nonneg l); lia].
  by split_bytes.
Qed.

Lemma gives_read_group inp n j : bytes_ok inp ->
  gives (read_group inp n j) (fun r => match r.1.1 with Quad a b c d => bytes_ok [a; b; c; d] | _ => True end).
Proof.
  intros Hb. unfold read_group.
  assert (Hnext : forall n j, gives (next_char inp n j) (fun r => r.1.1.1 = 0 -> 0 <= r.1.1.2 < 256)).
  { intros n' j'. unfold next_char. eapply gives_bind; [apply gives_true|]. intros [[ret n1] j1] _.
    destruct (Z.eqb_spec ret 0) as [->|H]; cbn [negb]; [|by intros w ?].
    eapply gives_bind; [by apply gives_peek|]. intros c Hc w. by cbn. }
  eapply gives_bind; [apply gives_true|]. intros [[ret n1] j1] _. case_match; [intros w; cbn; by destruct (ret =? BUFFER_E)|].
  eapply gives_bind; [by apply gives_peek|]. intros c1 H1. case_match; [by intros w|].
  do 3 (eapply gives_bind; [apply Hnext|]; intros [[[??]?]?] ?; case_match; [by intros w|]; bool_to_prop; simpl in * ).
  intros w. cbn. solve_bytes; auto.
Qed.

(** One character, looked up and computed. *)
Lemma char2val_table c : 0 <= c < 256 ->
  if (BASE64_MIN <=? c) && (c <=? maxIdx) then forall w, Base64_Char2Val_by_table c w = Ok (Base64_Char2Val_CT c) w
  else Base64_Char2Val_CT c = BAD /\ c <> PAD.
Proof.
  intros Hc. assert (H : below 256 (fun c =>
    if (BASE64_MIN <=? c) && (c <=? maxIdx) then
      (c - BASE64_MIN + 1 <=? len base64Decode_table) &&
      (sub base64Decode_table (c - BASE64_MIN) 1 !!! 0%nat =? Base64_Char2Val_CT c)
    else (Base64_Char2Val_CT c =? BAD) && negb (c =? PAD)) = true) by (by vm_compute).
  apply (below_spec _ _ H) in Hc. cbv beta in Hc. clear H.
  destruct ((BASE64_MIN <=? c) && (c <=? maxIdx)) eqn:E; bool_to_prop; [|done].
  intros w. unfold Base64_Char2Val_by_table, peek, rd, assert, mbind, M_bind, mret, M_ret.
  rewrite (proj2 (Z.leb_le 0 (c - BASE64_MIN))) by lia. rewrite (proj2 (Z.leb_le (c - BASE64_MIN + 1) _)) by done.
  cbn [andb]. by f_equal.
Qed.

(** A padding character, or a character in the range of the table. *)
Lemma pad_or_table c w : 0 <= c < 256 -> (BASE64_MIN <=? c) && (c <=? maxIdx) = true ->
  (if c =? PAD then mret 0 else Base64_Char2Val_by_table c) w = Ok (if c =? PAD then 0 else Base64_Char2Val_CT c) w.
Proof.
  intros Hc Hr. pose proof (char2val_table c Hc) as H. rewrite Hr in H. destruct (c =? PAD); [done|apply H].
Qed.

Lemma pad_or_bad c : 0 <= c < 256 -> (BASE64_MIN <=? c) && (c <=? maxIdx) = false ->
  ((if c =? PAD then 0 else Base64_Char2Val_CT c) =? BAD) = true.
Proof.
  intros Hc Hr. pose proof (char2val_table c Hc) as H. rewrite Hr in H. destruct H as [-> H].
  by rewrite (proj2 (Z.eqb_neq c PAD)).
Qed.

(** The tests of the table decoder on the range of the four characters. *)
Definition in_table (c : Z) : bool := (BASE64_MIN <=? c) && (c <=? maxIdx).

Lemma range_tests {A} c1 c2 c3 c4 (x y : A) :
  (if (c1 <? BASE64_MIN) || (c2 <? BASE64_MIN) || (c3 <? BASE64_MIN) || (c4 <? BASE64_MIN) then x
   else if (maxIdx <? c1) || (maxIdx <? c2) || (maxIdx <? c3) || (maxIdx <? c4) then x else y) =
  if in_table c1 && in_table c2 && in_table c3 && in_table c4 then y else x.
Proof.
  unfold in_table. rewrite !Z.leb_antisym.
  repeat match goal with |- context [?a <? ?b] => destruct (a <? b) end; done.
Qed.

Lemma loops_agree fuel inp n j i outLen out w : bytes_ok inp ->
  decode_nonCT_loop fuel inp n j i outLen out w = decode_loop fuel inp n j i outLen out w.
Proof.
  intros Hb. revert n j i out w. induction fuel as [|fuel IH]; intros n j i out w; [done|].
  cbn [decode_nonCT_loop decode_loop]. case_match; [|done].
  eapply bind_ext; [by apply gives_read_group|]. intros [[g n'] j'] Hg w'. simpl in Hg.
  destruct g as [c1 c2 c3 c4| |ret]; [|done..]. split_bytes. case_match; [done|].
  rewrite range_tests. fold (in_table c1) in *.
  destruct (in_table c1) eqn:E1; [destruct (in_table c2) eqn:E2; [destruct (in_table c3) eqn:E3;
    [destruct (in_table c4) eqn:E4|]|]|]; cbn [andb].
  2: by rewrite (pad_or_bad c4), !orb_true_r.
  2: by rewrite (pad_or_bad c3), !orb_true_r.
  2: by pose proof (char2val_table c2 ltac:(done)) as Hc; unfold in_table in E2; rewrite E2 in Hc;
       destruct Hc as [-> _]; rewrite orb_true_r.
  2: by pose proof (char2val_table c1 ltac:(done)) as Hc; unfold in_table in E1; rewrite E1 in Hc; destruct Hc as [-> _].
  pose proof (char2val_table c1 ltac:(done)) as T1. pose proof (char2val_table c2 ltac:(done)) as T2.
  fold (in_table c1) (in_table c2) in T1, T2. rewrite E1 in T1. rewrite E2 in T2.
  unfold mbind at 1, M_bind at 1. rewrite T1. unfold mbind at 1, M_bind at 1. rewrite T2.
  unfold mbind at 1, M_bind at 1. rewrite pad_or_table by done. unfold mbind at 1, M_bind at 1. rewrite pad_or_table by done.
  cbv beta iota. destruct ((Base64_Char2Val_CT c1 =? BAD) || _ || _ || _); [done|].
  eapply bind_ext; [apply gives_true|]. intros [[err i'] out'] _ w''.
  case_match; [done|]. case_match; [apply IH|done].
Qed.

(** C31. The two Base64 decoders, the one that looks characters up in a table and the
    one that computes their values, are the same function on every text: the same
    code, the same bytes stored, the same length, and the same accesses to memory. *)
Theorem base64_decoders_agree (inp : option bytes) (inLen : Z) (out : option bytes) (outLen : option Z) (w : world) :
  bytes_ok (default [] inp) ->
  Base64_Decode_nonCT inp inLen out outLen w = Base64_Decode inp inLen out outLen w.
Proof.
  intros Hb. unfold Base64_Decode_nonCT, Base64_Decode. destruct out as [o|]; [|done]. destruct outLen as [n|]; [|done].
  case_match; [done|]. unfold mbind, M_bind. by rewrite loops_agree.
Qed.

Lemma base64_decoders_agree_witness :
  Base64_Decode_nonCT (Some [84; 87; 69; 61]) 4 (Some [0; 0]) (Some 2) (world_start env_plenty) =
  Ok (0, Some [77; 97], Some 2) (world_start env_plenty).
Proof.
  rewrite (base64_decoders_agree (Some [84; 87; 69; 61]) 4 (Some [0; 0]) (Some 2)).
  - reflexivity.
  - unfold bytes_ok. simpl. solve_bytes.
Defined.

End Base64.

Module Utf8.

(** coding.c:836-842, [wc_Utf8_DecodeChar]: the continuation bytes from index [i],
    [n] of them.  Gives the code and the value. *)
Fixpoint continuation (n : nat) (inp : bytes) (i c : Z) : M (Z * Z) :=
  match n with
  | O => mret (0, c)
  | S n =>
    b ← peek inp i;
    if negb (Z.land b 0xC0 =? 0x80) then mret (ASN_INPUT_E, c)
    else continuation n inp (i + 1) (Z.lor (w32 (Z.shiftl c 6)) (Z.land b 0x3F))
  end.

(** coding.c:782-853, [wc_Utf8_DecodeChar].  Gives the code, [*inOutIdx] and [*cp]. *)
Definition wc_Utf8_DecodeChar (inp : option bytes) (inLen : Z) (inOutIdx cp : option Z) : M (Z * option Z * option Z) :=
  match inp, inOutIdx, cp with
  | Some inp, Some idx, Some _ =>
    if inLen <=? idx then mret (BUFFER_E, inOutIdx, cp)
    else
      c ← peek inp idx;
      if c <? 0x80 then mret (0, Some (w32 (idx + 1)), Some c)
      else
        let lead :=
          if Z.land c 0xE0 =? 0xC0 then Some (1%nat, 0x80, Z.land c 0x1F)
          else if Z.land c 0xF0 =? 0xE0 then Some (2%nat, 0x800, Z.land c 0x0F)
          else if Z.land c 0xF8 =? 0xF0 then Some (3%nat, 0x10000, Z.land c 0x07)
          else None in
        match lead with
        | None => mret (ASN_INPUT_E, inOutIdx, cp)
        | Some (need, minCp, c) =>
          if inLen - idx <=? Z.of_nat need then mret (BUFFER_E, inOutIdx, cp)
          else
            '(err, c) ← continuation need inp (idx + 1) c;
            if negb (err =? 0) then mret (err, inOutIdx, cp)
            else if (c <? minCp) || (0x10FFFF <? c) || ((0xD800 <=? c) && (c <=? 0xDFFF)) then
              mret (ASN_INPUT_E, inOutIdx, cp)
            else mret (0, Some (w32 (idx + Z.of_nat need + 1)), Some c)
        end
  | _, _, _ => mret (BAD_FUNC_ARG, inOutIdx, cp)
  end.

(** RFC 3629, section 3: the encoding of a code point. *)
Definition utf8_encode (cp : Z) : bytes :=
  if cp <? 0x80 then [cp]
  else if cp <? 0x800 then [0xC0 + cp / 64; 0x80 + cp mod 64]
  else if cp <? 0x10000 then [0xE0 + cp / 4096; 0x80 + cp / 64 mod 64; 0x80 + cp mod 64]
  else [0xF0 + cp / 262144; 0x80 + cp / 4096 mod 64; 0x80 + cp / 64 mod 64; 0x80 + cp mod 64].

(** The code points that have an encoding: all but the surrogates. *)
Definition scalar (cp : Z) : Prop := 0 <= cp <= 0x10FFFF /\ ~ (0xD800 <= cp <= 0xDFFF).

Lemma lead_tests c : 0 <= c < 256 ->
  (Z.land c 0xE0 =? 0xC0) = (0xC0 <=? c) && (c <? 0xE0) /\
  (Z.land c 0xF0 =? 0xE0) = (0xE0 <=? c) && (c <? 0xF0) /\
  (Z.land c 0xF8 =? 0xF0) = (0xF0 <=? c) && (c <? 0xF8) /\
  (Z.land c 0xC0 =? 0x80) = (0x80 <=? c) && (c <? 0xC0) /\
  Z.land c 0x1F = c mod 32 /\ Z.land c 0x0F = c mod 16 /\ Z.land c 0x07 = c mod 8 /\ Z.land c 0x3F = c mod 64.
Proof.
  intros Hc. assert (H : below 256 (fun c =>
    Bool.eqb (Z.land c 0xE0 =? 0xC0) ((0xC0 <=? c) && (c <? 0xE0)) &&
    Bool.eqb (Z.land c 0xF0 =? 0xE0) ((0xE0 <=? c) && (c <? 0xF0)) &&
    Bool.eqb (Z.land c 0xF8 =? 0xF0) ((0xF0 <=? c) && (c <? 0xF8)) &&
    Bool.eqb (Z.land c 0xC0 =? 0x80) ((0x80 <=? c) && (c <? 0xC0)) &&
    (Z.land c 0x1F =? c mod 32) && (Z.land c 0x0F =? c mod 16) && (Z.land c 0x07 =? c mod 8) &&
    (Z.land c 0x3F =? c mod 64)) = true) by (by vm_compute).
  apply (below_spec _ _ H) in Hc. cbv beta in Hc. clear H. rewrite !andb_true_iff, !Bool.eqb_true_iff, !Z.eqb_eq in Hc.
  tauto.
Qed.

Lemma lor_cont c b : 0 <= c < 2 ^ 26 -> 0 <= b < 256 -> Z.lor (w32 (Z.shiftl c 6)) (Z.land b 0x3F) = c * 64 + b mod 64.
Proof.
  intros Hc Hb. destruct (lead_tests b Hb) as (_ & _ & _ & _ & _ & _ & _ & ->).
  rewrite w32_id by (rewrite Z.shiftl_mul_pow2 by lia; lia). pose proof (Z.mod_pos_bound b 64).
  rewrite Z.lor_comm, lor_shift_add by lia. lia.
Qed.

(** The value of continuation bytes, if they are all such. *)
Fixpoint conts (c : Z) (l : bytes) : option Z :=
  match l with
  | [] => Some c
  | b :: l => if (0x80 <=? b) && (b <? 0xC0) then conts (c * 64 + b mod 64) l else None
  end.

Lemma continuation_ok e inp pre l t c : inp = pre ++ l ++ t -> bytes_ok l ->
  0 <= c < 2 ^ (32 - 6 * len l) -> len l <= 4 ->
  calc e 0 (continuation (length l) inp (len pre) c)
    (fun r => match conts c l with Some v => r = (0, v) | None => r.1 = ASN_INPUT_E end).
Proof.
  revert pre c. induction l as [|b l IH]; intros pre c E Hb Hc Hl; [by apply calc_ret|].
  cbn [continuation length conts]. split_bytes. simpl in E. eapply calc_peek; [done|].
  destruct (lead_tests b) as (_ & _ & _ & -> & _); [done|].
  destruct ((0x80 <=? b) && (b <? 0xC0)); cbn [negb]; [|by apply calc_ret].
  rewrite len_cons in *. pose proof (len_nonneg l) as Hn.
  assert (2 ^ (32 - 6 * (1 + len l)) <= 2 ^ 26) by (apply Z.pow_le_mono_r; lia).
  rewrite lor_cont by lia. rewrite (len_snoc _ b). rewrite app_shift in E. apply IH; [done|done| |lia].
  replace (32 - 6 * len l) with (6 + (32 - 6 * (1 + len l))) by lia. rewrite Z.pow_add_r by lia.
  change (2 ^ 6) with 64. pose proof (Z.mod_pos_bound b 64). lia.
Qed.

(** What the answer says of the text from the index on. *)
Definition utf8_answer (idx cp0 : Z) (l : bytes) (r : Z * option Z * option Z) : Prop :=
  (forall cp rest, scalar cp -> l = utf8_encode cp ++ rest ->
     r = (0, Some (idx + len (utf8_encode cp)), Some cp)) /\
  ((exists cp rest, scalar cp /\ l = utf8_encode cp ++ rest) \/
   r = (BUFFER_E, Some idx, Some cp0) \/ r = (ASN_INPUT_E, Some idx, Some cp0)).

(** The lead byte: how many bytes follow, the least code point of that length, and
    the bits of the lead byte. *)
Definition lead_of (c : Z) : option (nat * Z * Z) :=
  if (0xC0 <=? c) && (c <? 0xE0) then Some (1%nat, 0x80, c mod 32)
  else if (0xE0 <=? c) && (c <? 0xF0) then Some (2%nat, 0x800, c mod 16)
  else if (0xF0 <=? c) && (c <? 0xF8) then Some (3%nat, 0x10000, c mod 8)
  else None.

Lemma lead_of_bounds c need m c' : lead_of c = Some (need, m, c') -> (need <= 3)%nat /\ 0 <= c' < 32.
Proof.
  unfold lead_of. intros H. repeat (case_match; simplify_eq); (split; [lia|]);
    match goal with |- 0 <= ?a mod ?b < _ => pose proof (Z.mod_pos_bound a b ltac:(lia)); lia end.
Qed.

(** Bytes that pass the tests are the encoding of their value. *)
Lemma conts_encode c need m c' bs v : lead_of c = Some (need, m, c') -> length bs = need -> conts c' bs = Some v ->
  m <= v <= 0x10FFFF -> utf8_encode v = c :: bs.
Proof.
  unfold lead_of. intros Hc Hl Hv Hm.
  assert (Hv' : 0 <= c') by (repeat case_match; simplify_eq; apply Z.mod_pos_bound; lia).
  repeat (case_match; simplify_eq); bool_to_prop;
    repeat (destruct bs as [|? bs]; try done); simpl in Hv; repeat (case_match; simplify_eq); bool_to_prop;
    unfold utf8_encode; rewrite ?(proj2 (Z.ltb_ge _ _)), ?(proj2 (Z.ltb_lt _ _)) by (Z.div_mod_to_equations; lia);
    repeat f_equal; Z.div_mod_to_equations; lia.
Qed.

Ltac conts_eval :=
  cbn [conts]; rewrite ?(proj2 (Z.leb_le 0x80 _)), ?(proj2 (Z.ltb_lt _ 0xC0)) by (Z.div_mod_to_equations; lia);
  cbn [andb]; f_equal; Z.div_mod_to_equations; lia.

(** An encoding passes the tests, with its code point for value. *)
Lemma encode_conts c bs cp : scalar cp -> utf8_encode cp = c :: bs -> 0x80 <= c ->
  exists m c', lead_of c = Some (length bs, m, c') /\ conts c' bs = Some cp /\ m <= cp.
Proof.
  intros [H _] He Hc. unfold utf8_encode in He. unfold lead_of.
  destruct (Z.ltb_spec cp 0x80); [simplify_eq; lia|].
  destruct (Z.ltb_spec cp 0x800); [|destruct (Z.ltb_spec cp 0x10000)]; injection He as <- <-; clear Hc.
  - rewrite (proj2 (Z.leb_le 0xC0 _)), (proj2 (Z.ltb_lt _ 0xE0)) by (Z.div_mod_to_equations; lia).
    do 2 eexists. split; [reflexivity|]. split; [|done]. conts_eval.
  - rewrite (proj2 (Z.ltb_ge _ 0xE0)), andb_false_r by (Z.div_mod_to_equations; lia).
    rewrite (proj2 (Z.leb_le 0xE0 _)), (proj2 (Z.ltb_lt _ 0xF0)) by (Z.div_mod_to_equations; lia).
    do 2 eexists. split; [reflexivity|]. split; [|done]. conts_eval.
  - rewrite (proj2 (Z.ltb_ge _ 0xE0)), andb_false_r by (Z.div_mod_to_equations; lia).
    rewrite (proj2 (Z.ltb_ge _ 0xF0)), andb_false_r by (Z.div_mod_to_equations; lia).
    rewrite (proj2 (Z.leb_le 0xF0 _)), (proj2 (Z.ltb_lt _ 0xF8)) by (Z.div_mod_to_equations; lia).
    do 2 eexists. split; [reflexivity|]. split; [|done]. conts_eval.
Qed.

(** A text that goes on with an encoding of more than one byte. *)
Lemma encode_inv c l cp rest : 0x80 <= c -> scalar cp -> c :: l = utf8_encode cp ++ rest ->
  exists m c' bs, l = bs ++ rest /\ lead_of c = Some (length bs, m, c') /\ conts c' bs = Some cp /\ m <= cp /\
    len (utf8_encode cp) = 1 + len bs.
Proof.
  intros Hs Hsc He. destruct (utf8_encode cp) as [|b bs] eqn:Ee; [by unfold utf8_encode in Ee; repeat case_match|].
  simplify_eq/=. destruct (encode_conts _ _ _ Hsc Ee Hs) as (m & c' & ? & ? & ?). exists m, c', bs.
  by rewrite len_cons.
Qed.

Lemma encode_single c l cp rest : c < 0x80 -> scalar cp -> c :: l = utf8_encode cp ++ rest ->
  utf8_encode cp = [cp] /\ c = cp.
Proof.
  intros Hs [? ?] He. unfold utf8_encode in *.
  repeat case_match; bool_to_prop; simplify_eq/=; try done; exfalso; Z.div_mod_to_equations; lia.
Qed.

(** The answer past the lead byte, when it asks for [need] more. *)
Lemma utf8_long e pre c l need m c' idx cp0 : bytes_ok l -> 0x80 <= c -> lead_of c = Some (need, m, c') ->
  idx = len pre -> idx + 1 + len l < 2 ^ 32 ->
  calc e 0
    (if 1 + len l <=? Z.of_nat need then mret (BUFFER_E, Some idx, Some cp0)
     else
       '(err, c) ← continuation need (pre ++ c :: l) (idx + 1) c';
       if negb (err =? 0) then mret (err, Some idx, Some cp0)
       else if (c <? m) || (0x10FFFF <? c) || ((0xD800 <=? c) && (c <=? 0xDFFF)) then
         mret (ASN_INPUT_E, Some idx, Some cp0)
       else mret (0, Some (w32 (idx + Z.of_nat need + 1)), Some c))
    (utf8_answer idx cp0 (c :: l)).
Proof.
  intros Hb Hs Ec Ei Hl. unfold utf8_answer. pose proof (len_nonneg pre) as Hp. pose proof (lead_of_bounds _ _ _ _ Ec) as [Hn3 Hc'].
  assert (Hinv : forall cp rest, scalar cp -> c :: l = utf8_encode cp ++ rest ->
    exists bs, l = bs ++ rest /\ need = length bs /\ conts c' bs = Some cp /\ m <= cp /\ len (utf8_encode cp) = 1 + len bs).
  { intros cp rest Hsc He. destruct (encode_inv _ _ _ _ Hs Hsc He) as (? & ? & bs & ? & ? & ? & ? & ?).
    simplify_eq. eauto 6. }
  destruct (Z.leb_spec (1 + len l) (Z.of_nat need)) as [Hn'|Hn'].
  { apply calc_ret. split; [|auto]. intros cp rest Hsc He. destruct (Hinv cp rest Hsc He) as (bs & -> & -> & _).
    rewrite len_app in *. unfold len in *. lia. }
  assert (Hne : need = length (take need l)) by (rewrite length_take; unfold len in *; lia).
  rewrite Ei at 1. rewrite (len_snoc _ c). rewrite Hne at 1.
  eapply calc_bind.
  { eapply (continuation_ok e _ _ (take need l) (drop need l)).
    - by rewrite take_drop, <-app_assoc.
    - by apply Forall_take.
    - split; [lia|]. apply Z.lt_le_trans with (2 ^ 14); [lia|]. apply Z.pow_le_mono_r; unfold len; lia.
    - unfold len. lia. }
  intros [err v] Hv. destruct (conts c' (take need l)) as [u|] eqn:Ek.
  2: { simpl in Hv. subst err. apply calc_ret. split; [|auto]. intros cp rest Hsc He.
       destruct (Hinv cp rest Hsc He) as (bs & -> & -> & Hk & _).
       rewrite take_app_length in Ek. congruence. }
  injection Hv as -> ->. change (0 =? 0) with true. cbn [negb]. cbv iota.
  assert (Hu : forall cp rest, scalar cp -> c :: l = utf8_encode cp ++ rest ->
                 u = cp /\ m <= cp /\ len (utf8_encode cp) = 1 + Z.of_nat need).
  { intros cp rest Hsc He. destruct (Hinv cp rest Hsc He) as (bs & -> & -> & Hk & ? & ?).
    rewrite take_app_length in Ek. split; [congruence|]. done. }
  destruct ((u <? m) || _ || _) eqn:Eu.
  - apply calc_ret. split; [|auto]. intros cp rest Hsc He. exfalso.
    destruct (Hu cp rest Hsc He) as (-> & ? & _). destruct Hsc as [? ?].
    rewrite !orb_true_iff, andb_true_iff, !Z.ltb_lt, !Z.leb_le in Eu. lia.
  - apply calc_ret. rewrite !orb_false_iff, andb_false_iff, !Z.ltb_ge, !Z.leb_gt in Eu. split.
    + intros cp rest Hsc He. destruct (Hu cp rest Hsc He) as (-> & ? & ->).
      rewrite w32_id by lia. do 3 f_equal. lia.
    + left. exists u, (drop need l). assert (Hm : 0 < m) by (unfold lead_of in Ec; by repeat (case_match; simplify_eq)).
      split; [unfold scalar; lia|].
      rewrite (conts_encode c need m c' (take need l) u) by (done || lia). simpl. by rewrite take_drop.
Qed.

(** C32. The UTF-8 decoder gives the code point at an index, and moves the index past
    it, exactly when the text goes on there with the RFC 3629 encoding of a code
    point that is not a surrogate.  It leaves both unchanged otherwise. *)
Theorem utf8_decode_exact (e : env) (text : bytes) (idx cp0 : Z) :
  bytes_ok text -> 0 <= idx -> len text < 2 ^ 32 ->
  calc e 0 (wc_Utf8_DecodeChar (Some text) (len text) (Some idx) (Some cp0))
    (utf8_answer idx cp0 (drop (Z.to_nat idx) text)).
Proof.
  intros Hb Hi Hl. unfold wc_Utf8_DecodeChar.
  destruct (Z.leb_spec (len text) idx) as [Hle|Hlt].
  { apply calc_ret. rewrite drop_ge by (unfold len in *; lia). split; [|auto].
    intros cp rest _ H. unfold utf8_encode in H. by repeat case_match. }
  destruct (drop (Z.to_nat idx) text) as [|c l] eqn:El.
  { apply (f_equal length) in El. rewrite length_drop in El. unfold len in *. simpl in El. lia. }
  assert (Et : text = take (Z.to_nat idx) text ++ c :: l) by (by rewrite <-El, take_drop).
  assert (Ei : idx = len (take (Z.to_nat idx) text)) by (unfold len in *; rewrite length_take; lia).
  set (pre := take _ _) in *. clearbody pre. clear El. subst idx text.
  apply Forall_app in Hb as [_ Hb]. apply Forall_cons_1 in Hb as [Hc Hb].
  eapply calc_peek; [done|]. rewrite len_app, len_cons in *. pose proof (len_nonneg l) as Hn.
  destruct (Z.ltb_spec c 0x80) as [Hs|Hs].
  { apply calc_ret. split.
    - intros cp rest Hsc He. destruct (encode_single _ _ _ _ Hs Hsc He) as [-> ->]. by rewrite w32_id by lia.
    - left. exists c, l. unfold scalar, utf8_encode. rewrite (proj2 (Z.ltb_lt _ _)) by done. split; [lia|done]. }
  destruct (lead_tests c Hc) as (-> & -> & -> & _ & -> & -> & -> & _). fold (lead_of c).
  destruct (lead_of c) as [[[need m] c']|] eqn:Ec.
  - replace (len pre + (1 + len l) - len pre) with (1 + len l) by lia. apply utf8_long; (done || lia).
  - apply calc_ret. split; [|auto]. intros cp rest Hsc He.
    destruct (encode_inv _ _ _ _ Hs Hsc He) as (? & ? & ? & _ & ? & _). congruence.
Qed.

(** The euro sign. *)
Lemma utf8_decode_exact_witness :
  calc env_plenty 0 (wc_Utf8_DecodeChar (Some [65; 0xE2; 0x82; 0xAC]) 4 (Some 1) (Some 0))
    (fun r => r = (0, Some 4, Some 0x20AC)).
Proof.
  eapply calc_mono.
  - apply (utf8_decode_exact env_plenty [65; 0xE2; 0x82; 0xAC] 1 0).
    + unfold bytes_ok. solve_bytes.
    + lia.
    + reflexivity.
  - intros r [H _]. apply (H 0x20AC []); [|reflexivity]. unfold scalar. lia.
Defined.

End Utf8.
