(* ===== verification/BidiTable.v ===== *)
(** * BidiTable: directional data of Unicode 16 (contact_bidi16.h)

    The generated table of the contact-origin library: ranges of code points
    with the flags of their directional class, ascending.  It is split into
    parts for compilation only. *)

From S2P Require Import Prelude.

(** contact_bidi16.h:29, [ContactBidi16Range] *)
Record ContactBidi16Range := { first : Z; last : Z; flags : Z }.

#[local] Notation "{{ a , b , f }}" := {| first := a; last := b; flags := f |} (at level 0).

(** contact_bidi16.h:31-180, [contact_bidi16_ranges], part 1 *)
Definition contact_bidi16_part1 : list ContactBidi16Range :=
  [{{0x0,0x8,48}}; {{0x9,0xd,0}}; {{0xe,0x1b,48}}; {{0x1c,0x20,0}}; {{0x21,0x2f,48}}; {{0x30,0x39,52}};
   {{0x3a,0x40,48}}; {{0x41,0x5a,33}}; {{0x5b,0x60,48}}; {{0x61,0x7a,33}}; {{0x7b,0x84,48}}; {{0x85,0x85,0}};
   {{0x86,0xa9,48}}; {{0xaa,0xaa,33}}; {{0xab,0xb1,48}}; {{0xb2,0xb3,52}}; {{0xb4,0xb4,48}}; {{0xb5,0xb5,33}};
   {{0xb6,0xb8,48}}; {{0xb9,0xb9,52}}; {{0xba,0xba,33}}; {{0xbb,0xbf,48}}; {{0xc0,0xd6,33}}; {{0xd7,0xd7,48}};
   {{0xd8,0xf6,33}}; {{0xf7,0xf7,48}}; {{0xf8,0x2b8,33}}; {{0x2b9,0x2ba,48}}; {{0x2bb,0x2c1,33}};
   {{0x2c2,0x2cf,48}}; {{0x2d0,0x2d1,33}}; {{0x2d2,0x2df,48}}; {{0x2e0,0x2e4,33}}; {{0x2e5,0x2ed,48}};
   {{0x2ee,0x2ee,33}}; {{0x2ef,0x2ff,48}}; {{0x300,0x36f,112}}; {{0x370,0x373,33}}; {{0x374,0x375,48}};
   {{0x376,0x377,33}}; {{0x378,0x379,0}}; {{0x37a,0x37d,33}}; {{0x37e,0x37e,48}}; {{0x37f,0x37f,33}};
   {{0x380,0x383,0}}; {{0x384,0x385,48}}; {{0x386,0x386,33}}; {{0x387,0x387,48}}; {{0x388,0x38a,33}};
   {{0x38b,0x38b,0}}; {{0x38c,0x38c,33}}; {{0x38d,0x38d,0}}; {{0x38e,0x3a1,33}}; {{0x3a2,0x3a2,0}};
   {{0x3a3,0x3f5,33}}; {{0x3f6,0x3f6,48}}; {{0x3f7,0x482,33}}; {{0x483,0x489,112}}; {{0x48a,0x52f,33}};
   {{0x530,0x530,0}}; {{0x531,0x556,33}}; {{0x557,0x558,0}}; {{0x559,0x589,33}}; {{0x58a,0x58a,48}};
   {{0x58b,0x58c,0}}; {{0x58d,0x58f,48}}; {{0x590,0x590,0}}; {{0x591,0x5bd,112}}; {{0x5be,0x5be,18}};
   {{0x5bf,0x5bf,112}}; {{0x5c0,0x5c0,18}}; {{0x5c1,0x5c2,112}}; {{0x5c3,0x5c3,18}}; {{0x5c4,0x5c5,112}};
   {{0x5c6,0x5c6,18}}; {{0x5c7,0x5c7,112}}; {{0x5c8,0x5cf,0}}; {{0x5d0,0x5ea,18}}; {{0x5eb,0x5ee,0}};
   {{0x5ef,0x5f4,18}}; {{0x5f5,0x5ff,0}}; {{0x600,0x605,24}}; {{0x606,0x607,48}}; {{0x608,0x608,18}};
   {{0x609,0x60a,48}}; {{0x60b,0x60b,18}}; {{0x60c,0x60c,48}}; {{0x60d,0x60d,18}}; {{0x60e,0x60f,48}};
   {{0x610,0x61a,112}}; {{0x61b,0x64a,18}}; {{0x64b,0x65f,112}}; {{0x660,0x669,24}}; {{0x66a,0x66a,48}};
   {{0x66b,0x66c,24}}; {{0x66d,0x66f,18}}; {{0x670,0x670,112}}; {{0x671,0x6d5,18}}; {{0x6d6,0x6dc,112}};
   {{0x6dd,0x6dd,24}}; {{0x6de,0x6de,48}}; {{0x6df,0x6e4,112}}; {{0x6e5,0x6e6,18}}; {{0x6e7,0x6e8,112}};
   {{0x6e9,0x6e9,48}}; {{0x6ea,0x6ed,112}}; {{0x6ee,0x6ef,18}}; {{0x6f0,0x6f9,52}}; {{0x6fa,0x70d,18}};
   {{0x70e,0x70e,0}}; {{0x70f,0x710,18}}; {{0x711,0x711,112}}; {{0x712,0x72f,18}}; {{0x730,0x74a,112}};
   {{0x74b,0x74c,0}}; {{0x74d,0x7a5,18}}; {{0x7a6,0x7b0,112}}; {{0x7b1,0x7b1,18}}; {{0x7b2,0x7bf,0}};
   {{0x7c0,0x7ea,18}}; {{0x7eb,0x7f3,112}}; {{0x7f4,0x7f5,18}}; {{0x7f6,0x7f9,48}}; {{0x7fa,0x7fa,18}};
   {{0x7fb,0x7fc,0}}; {{0x7fd,0x7fd,112}}; {{0x7fe,0x815,18}}; {{0x816,0x819,112}}; {{0x81a,0x81a,18}};
   {{0x81b,0x823,112}}; {{0x824,0x824,18}}; {{0x825,0x827,112}}; {{0x828,0x828,18}}; {{0x829,0x82d,112}};
   {{0x82e,0x82f,0}}; {{0x830,0x83e,18}}; {{0x83f,0x83f,0}}; {{0x840,0x858,18}}; {{0x859,0x85b,112}};
   {{0x85c,0x85d,0}}; {{0x85e,0x85e,18}}; {{0x85f,0x85f,0}}; {{0x860,0x86a,18}}; {{0x86b,0x86f,0}};
   {{0x870,0x88e,18}}; {{0x88f,0x88f,0}}; {{0x890,0x891,24}}; {{0x892,0x896,0}}; {{0x897,0x89f,112}};
   {{0x8a0,0x8c9,18}}].

(** contact_bidi16.h:181-330, [contact_bidi16_ranges], part 2 *)
Definition contact_bidi16_part2 : list ContactBidi16Range :=
  [{{0x8ca,0x8e1,112}}; {{0x8e2,0x8e2,24}}; {{0x8e3,0x902,112}}; {{0x903,0x939,33}}; {{0x93a,0x93a,112}};
   {{0x93b,0x93b,33}}; {{0x93c,0x93c,112}}; {{0x93d,0x940,33}}; {{0x941,0x948,112}}; {{0x949,0x94c,33}};
   {{0x94d,0x94d,112}}; {{0x94e,0x950,33}}; {{0x951,0x957,112}}; {{0x958,0x961,33}}; {{0x962,0x963,112}};
   {{0x964,0x980,33}}; {{0x981,0x981,112}}; {{0x982,0x983,33}}; {{0x984,0x984,0}}; {{0x985,0x98c,33}};
   {{0x98d,0x98e,0}}; {{0x98f,0x990,33}}; {{0x991,0x992,0}}; {{0x993,0x9a8,33}}; {{0x9a9,0x9a9,0}};
   {{0x9aa,0x9b0,33}}; {{0x9b1,0x9b1,0}}; {{0x9b2,0x9b2,33}}; {{0x9b3,0x9b5,0}}; {{0x9b6,0x9b9,33}};
   {{0x9ba,0x9bb,0}}; {{0x9bc,0x9bc,112}}; {{0x9bd,0x9c0,33}}; {{0x9c1,0x9c4,112}}; {{0x9c5,0x9c6,0}};
   {{0x9c7,0x9c8,33}}; {{0x9c9,0x9ca,0}}; {{0x9cb,0x9cc,33}}; {{0x9cd,0x9cd,112}}; {{0x9ce,0x9ce,33}};
   {{0x9cf,0x9d6,0}}; {{0x9d7,0x9d7,33}}; {{0x9d8,0x9db,0}}; {{0x9dc,0x9dd,33}}; {{0x9de,0x9de,0}};
   {{0x9df,0x9e1,33}}; {{0x9e2,0x9e3,112}}; {{0x9e4,0x9e5,0}}; {{0x9e6,0x9f1,33}}; {{0x9f2,0x9f3,48}};
   {{0x9f4,0x9fa,33}}; {{0x9fb,0x9fb,48}}; {{0x9fc,0x9fd,33}}; {{0x9fe,0x9fe,112}}; {{0x9ff,0xa00,0}};
   {{0xa01,0xa02,112}}; {{0xa03,0xa03,33}}; {{0xa04,0xa04,0}}; {{0xa05,0xa0a,33}}; {{0xa0b,0xa0e,0}};
   {{0xa0f,0xa10,33}}; {{0xa11,0xa12,0}}; {{0xa13,0xa28,33}}; {{0xa29,0xa29,0}}; {{0xa2a,0xa30,33}};
   {{0xa31,0xa31,0}}; {{0xa32,0xa33,33}}; {{0xa34,0xa34,0}}; {{0xa35,0xa36,33}}; {{0xa37,0xa37,0}};
   {{0xa38,0xa39,33}}; {{0xa3a,0xa3b,0}}; {{0xa3c,0xa3c,112}}; {{0xa3d,0xa3d,0}}; {{0xa3e,0xa40,33}};
   {{0xa41,0xa42,112}}; {{0xa43,0xa46,0}}; {{0xa47,0xa48,112}}; {{0xa49,0xa4a,0}}; {{0xa4b,0xa4d,112}};
   {{0xa4e,0xa50,0}}; {{0xa51,0xa51,112}}; {{0xa52,0xa58,0}}; {{0xa59,0xa5c,33}}; {{0xa5d,0xa5d,0}};
   {{0xa5e,0xa5e,33}}; {{0xa5f,0xa65,0}}; {{0xa66,0xa6f,33}}; {{0xa70,0xa71,112}}; {{0xa72,0xa74,33}};
   {{0xa75,0xa75,112}}; {{0xa76,0xa76,33}}; {{0xa77,0xa80,0}}; {{0xa81,0xa82,112}}; {{0xa83,0xa83,33}};
   {{0xa84,0xa84,0}}; {{0xa85,0xa8d,33}}; {{0xa8e,0xa8e,0}}; {{0xa8f,0xa91,33}}; {{0xa92,0xa92,0}};
   {{0xa93,0xaa8,33}}; {{0xaa9,0xaa9,0}}; {{0xaaa,0xab0,33}}; {{0xab1,0xab1,0}}; {{0xab2,0xab3,33}};
   {{0xab4,0xab4,0}}; {{0xab5,0xab9,33}}; {{0xaba,0xabb,0}}; {{0xabc,0xabc,112}}; {{0xabd,0xac0,33}};
   {{0xac1,0xac5,112}}; {{0xac6,0xac6,0}}; {{0xac7,0xac8,112}}; {{0xac9,0xac9,33}}; {{0xaca,0xaca,0}};
   {{0xacb,0xacc,33}}; {{0xacd,0xacd,112}}; {{0xace,0xacf,0}}; {{0xad0,0xad0,33}}; {{0xad1,0xadf,0}};
   {{0xae0,0xae1,33}}; {{0xae2,0xae3,112}}; {{0xae4,0xae5,0}}; {{0xae6,0xaf0,33}}; {{0xaf1,0xaf1,48}};
   {{0xaf2,0xaf8,0}}; {{0xaf9,0xaf9,33}}; {{0xafa,0xaff,112}}; {{0xb00,0xb00,0}}; {{0xb01,0xb01,112}};
   {{0xb02,0xb03,33}}; {{0xb04,0xb04,0}}; {{0xb05,0xb0c,33}}; {{0xb0d,0xb0e,0}}; {{0xb0f,0xb10,33}};
   {{0xb11,0xb12,0}}; {{0xb13,0xb28,33}}; {{0xb29,0xb29,0}}; {{0xb2a,0xb30,33}}; {{0xb31,0xb31,0}};
   {{0xb32,0xb33,33}}; {{0xb34,0xb34,0}}; {{0xb35,0xb39,33}}; {{0xb3a,0xb3b,0}}; {{0xb3c,0xb3c,112}};
   {{0xb3d,0xb3e,33}}; {{0xb3f,0xb3f,112}}; {{0xb40,0xb40,33}}; {{0xb41,0xb44,112}}; {{0xb45,0xb46,0}}].

(** contact_bidi16.h:331-480, [contact_bidi16_ranges], part 3 *)
Definition contact_bidi16_part3 : list ContactBidi16Range :=
  [{{0xb47,0xb48,33}}; {{0xb49,0xb4a,0}}; {{0xb4b,0xb4c,33}}; {{0xb4d,0xb4d,112}}; {{0xb4e,0xb54,0}};
   {{0xb55,0xb56,112}}; {{0xb57,0xb57,33}}; {{0xb58,0xb5b,0}}; {{0xb5c,0xb5d,33}}; {{0xb5e,0xb5e,0}};
   {{0xb5f,0xb61,33}}; {{0xb62,0xb63,112}}; {{0xb64,0xb65,0}}; {{0xb66,0xb77,33}}; {{0xb78,0xb81,0}};
   {{0xb82,0xb82,112}}; {{0xb83,0xb83,33}}; {{0xb84,0xb84,0}}; {{0xb85,0xb8a,33}}; {{0xb8b,0xb8d,0}};
   {{0xb8e,0xb90,33}}; {{0xb91,0xb91,0}}; {{0xb92,0xb95,33}}; {{0xb96,0xb98,0}}; {{0xb99,0xb9a,33}};
   {{0xb9b,0xb9b,0}}; {{0xb9c,0xb9c,33}}; {{0xb9d,0xb9d,0}}; {{0xb9e,0xb9f,33}}; {{0xba0,0xba2,0}};
   {{0xba3,0xba4,33}}; {{0xba5,0xba7,0}}; {{0xba8,0xbaa,33}}; {{0xbab,0xbad,0}}; {{0xbae,0xbb9,33}};
   {{0xbba,0xbbd,0}}; {{0xbbe,0xbbf,33}}; {{0xbc0,0xbc0,112}}; {{0xbc1,0xbc2,33}}; {{0xbc3,0xbc5,0}};
   {{0xbc6,0xbc8,33}}; {{0xbc9,0xbc9,0}}; {{0xbca,0xbcc,33}}; {{0xbcd,0xbcd,112}}; {{0xbce,0xbcf,0}};
   {{0xbd0,0xbd0,33}}; {{0xbd1,0xbd6,0}}; {{0xbd7,0xbd7,33}}; {{0xbd8,0xbe5,0}}; {{0xbe6,0xbf2,33}};
   {{0xbf3,0xbfa,48}}; {{0xbfb,0xbff,0}}; {{0xc00,0xc00,112}}; {{0xc01,0xc03,33}}; {{0xc04,0xc04,112}};
   {{0xc05,0xc0c,33}}; {{0xc0d,0xc0d,0}}; {{0xc0e,0xc10,33}}; {{0xc11,0xc11,0}}; {{0xc12,0xc28,33}};
   {{0xc29,0xc29,0}}; {{0xc2a,0xc39,33}}; {{0xc3a,0xc3b,0}}; {{0xc3c,0xc3c,112}}; {{0xc3d,0xc3d,33}};
   {{0xc3e,0xc40,112}}; {{0xc41,0xc44,33}}; {{0xc45,0xc45,0}}; {{0xc46,0xc48,112}}; {{0xc49,0xc49,0}};
   {{0xc4a,0xc4d,112}}; {{0xc4e,0xc54,0}}; {{0xc55,0xc56,112}}; {{0xc57,0xc57,0}}; {{0xc58,0xc5a,33}};
   {{0xc5b,0xc5c,0}}; {{0xc5d,0xc5d,33}}; {{0xc5e,0xc5f,0}}; {{0xc60,0xc61,33}}; {{0xc62,0xc63,112}};
   {{0xc64,0xc65,0}}; {{0xc66,0xc6f,33}}; {{0xc70,0xc76,0}}; {{0xc77,0xc77,33}}; {{0xc78,0xc7e,48}};
   {{0xc7f,0xc80,33}}; {{0xc81,0xc81,112}}; {{0xc82,0xc8c,33}}; {{0xc8d,0xc8d,0}}; {{0xc8e,0xc90,33}};
   {{0xc91,0xc91,0}}; {{0xc92,0xca8,33}}; {{0xca9,0xca9,0}}; {{0xcaa,0xcb3,33}}; {{0xcb4,0xcb4,0}};
   {{0xcb5,0xcb9,33}}; {{0xcba,0xcbb,0}}; {{0xcbc,0xcbc,112}}; {{0xcbd,0xcc4,33}}; {{0xcc5,0xcc5,0}};
   {{0xcc6,0xcc8,33}}; {{0xcc9,0xcc9,0}}; {{0xcca,0xccb,33}}; {{0xccc,0xccd,112}}; {{0xcce,0xcd4,0}};
   {{0xcd5,0xcd6,33}}; {{0xcd7,0xcdc,0}}; {{0xcdd,0xcde,33}}; {{0xcdf,0xcdf,0}}; {{0xce0,0xce1,33}};
   {{0xce2,0xce3,112}}; {{0xce4,0xce5,0}}; {{0xce6,0xcef,33}}; {{0xcf0,0xcf0,0}}; {{0xcf1,0xcf3,33}};
   {{0xcf4,0xcff,0}}; {{0xd00,0xd01,112}}; {{0xd02,0xd0c,33}}; {{0xd0d,0xd0d,0}}; {{0xd0e,0xd10,33}};
   {{0xd11,0xd11,0}}; {{0xd12,0xd3a,33}}; {{0xd3b,0xd3c,112}}; {{0xd3d,0xd40,33}}; {{0xd41,0xd44,112}};
   {{0xd45,0xd45,0}}; {{0xd46,0xd48,33}}; {{0xd49,0xd49,0}}; {{0xd4a,0xd4c,33}}; {{0xd4d,0xd4d,112}};
   {{0xd4e,0xd4f,33}}; {{0xd50,0xd53,0}}; {{0xd54,0xd61,33}}; {{0xd62,0xd63,112}}; {{0xd64,0xd65,0}};
   {{0xd66,0xd7f,33}}; {{0xd80,0xd80,0}}; {{0xd81,0xd81,112}}; {{0xd82,0xd83,33}}; {{0xd84,0xd84,0}};
   {{0xd85,0xd96,33}}; {{0xd97,0xd99,0}}; {{0xd9a,0xdb1,33}}; {{0xdb2,0xdb2,0}}; {{0xdb3,0xdbb,33}};
   {{0xdbc,0xdbc,0}}; {{0xdbd,0xdbd,33}}; {{0xdbe,0xdbf,0}}; {{0xdc0,0xdc6,33}}; {{0xdc7,0xdc9,0}}].

(** contact_bidi16.h:481-630, [contact_bidi16_ranges], part 4 *)
Definition contact_bidi16_part4 : list ContactBidi16Range :=
  [{{0xdca,0xdca,112}}; {{0xdcb,0xdce,0}}; {{0xdcf,0xdd1,33}}; {{0xdd2,0xdd4,112}}; {{0xdd5,0xdd5,0}};
   {{0xdd6,0xdd6,112}}; {{0xdd7,0xdd7,0}}; {{0xdd8,0xddf,33}}; {{0xde0,0xde5,0}}; {{0xde6,0xdef,33}};
   {{0xdf0,0xdf1,0}}; {{0xdf2,0xdf4,33}}; {{0xdf5,0xe00,0}}; {{0xe01,0xe30,33}}; {{0xe31,0xe31,112}};
   {{0xe32,0xe33,33}}; {{0xe34,0xe3a,112}}; {{0xe3b,0xe3e,0}}; {{0xe3f,0xe3f,48}}; {{0xe40,0xe46,33}};
   {{0xe47,0xe4e,112}}; {{0xe4f,0xe5b,33}}; {{0xe5c,0xe80,0}}; {{0xe81,0xe82,33}}; {{0xe83,0xe83,0}};
   {{0xe84,0xe84,33}}; {{0xe85,0xe85,0}}; {{0xe86,0xe8a,33}}; {{0xe8b,0xe8b,0}}; {{0xe8c,0xea3,33}};
   {{0xea4,0xea4,0}}; {{0xea5,0xea5,33}}; {{0xea6,0xea6,0}}; {{0xea7,0xeb0,33}}; {{0xeb1,0xeb1,112}};
   {{0xeb2,0xeb3,33}}; {{0xeb4,0xebc,112}}; {{0xebd,0xebd,33}}; {{0xebe,0xebf,0}}; {{0xec0,0xec4,33}};
   {{0xec5,0xec5,0}}; {{0xec6,0xec6,33}}; {{0xec7,0xec7,0}}; {{0xec8,0xece,112}}; {{0xecf,0xecf,0}};
   {{0xed0,0xed9,33}}; {{0xeda,0xedb,0}}; {{0xedc,0xedf,33}}; {{0xee0,0xeff,0}}; {{0xf00,0xf17,33}};
   {{0xf18,0xf19,112}}; {{0xf1a,0xf34,33}}; {{0xf35,0xf35,112}}; {{0xf36,0xf36,33}}; {{0xf37,0xf37,112}};
   {{0xf38,0xf38,33}}; {{0xf39,0xf39,112}}; {{0xf3a,0xf3d,48}}; {{0xf3e,0xf47,33}}; {{0xf48,0xf48,0}};
   {{0xf49,0xf6c,33}}; {{0xf6d,0xf70,0}}; {{0xf71,0xf7e,112}}; {{0xf7f,0xf7f,33}}; {{0xf80,0xf84,112}};
   {{0xf85,0xf85,33}}; {{0xf86,0xf87,112}}; {{0xf88,0xf8c,33}}; {{0xf8d,0xf97,112}}; {{0xf98,0xf98,0}};
   {{0xf99,0xfbc,112}}; {{0xfbd,0xfbd,0}}; {{0xfbe,0xfc5,33}}; {{0xfc6,0xfc6,112}}; {{0xfc7,0xfcc,33}};
   {{0xfcd,0xfcd,0}}; {{0xfce,0xfda,33}}; {{0xfdb,0xfff,0}}; {{0x1000,0x102c,33}}; {{0x102d,0x1030,112}};
   {{0x1031,0x1031,33}}; {{0x1032,0x1037,112}}; {{0x1038,0x1038,33}}; {{0x1039,0x103a,112}}; {{0x103b,0x103c,33}};
   {{0x103d,0x103e,112}}; {{0x103f,0x1057,33}}; {{0x1058,0x1059,112}}; {{0x105a,0x105d,33}}; {{0x105e,0x1060,112}};
   {{0x1061,0x1070,33}}; {{0x1071,0x1074,112}}; {{0x1075,0x1081,33}}; {{0x1082,0x1082,112}}; {{0x1083,0x1084,33}};
   {{0x1085,0x1086,112}}; {{0x1087,0x108c,33}}; {{0x108d,0x108d,112}}; {{0x108e,0x109c,33}}; {{0x109d,0x109d,112}};
   {{0x109e,0x10c5,33}}; {{0x10c6,0x10c6,0}}; {{0x10c7,0x10c7,33}}; {{0x10c8,0x10cc,0}}; {{0x10cd,0x10cd,33}};
   {{0x10ce,0x10cf,0}}; {{0x10d0,0x1248,33}}; {{0x1249,0x1249,0}}; {{0x124a,0x124d,33}}; {{0x124e,0x124f,0}};
   {{0x1250,0x1256,33}}; {{0x1257,0x1257,0}}; {{0x1258,0x1258,33}}; {{0x1259,0x1259,0}}; {{0x125a,0x125d,33}};
   {{0x125e,0x125f,0}}; {{0x1260,0x1288,33}}; {{0x1289,0x1289,0}}; {{0x128a,0x128d,33}}; {{0x128e,0x128f,0}};
   {{0x1290,0x12b0,33}}; {{0x12b1,0x12b1,0}}; {{0x12b2,0x12b5,33}}; {{0x12b6,0x12b7,0}}; {{0x12b8,0x12be,33}};
   {{0x12bf,0x12bf,0}}; {{0x12c0,0x12c0,33}}; {{0x12c1,0x12c1,0}}; {{0x12c2,0x12c5,33}}; {{0x12c6,0x12c7,0}};
   {{0x12c8,0x12d6,33}}; {{0x12d7,0x12d7,0}}; {{0x12d8,0x1310,33}}; {{0x1311,0x1311,0}}; {{0x1312,0x1315,33}};
   {{0x1316,0x1317,0}}; {{0x1318,0x135a,33}}; {{0x135b,0x135c,0}}; {{0x135d,0x135f,112}}; {{0x1360,0x137c,33}};
   {{0x137d,0x137f,0}}; {{0x1380,0x138f,33}}; {{0x1390,0x1399,48}}; {{0x139a,0x139f,0}}; {{0x13a0,0x13f5,33}};
   {{0x13f6,0x13f7,0}}; {{0x13f8,0x13fd,33}}; {{0x13fe,0x13ff,0}}; {{0x1400,0x1400,48}}; {{0x1401,0x167f,33}}].

(** contact_bidi16.h:631-780, [contact_bidi16_ranges], part 5 *)
Definition contact_bidi16_part5 : list ContactBidi16Range :=
  [{{0x1680,0x1680,0}}; {{0x1681,0x169a,33}}; {{0x169b,0x169c,48}}; {{0x169d,0x169f,0}}; {{0x16a0,0x16f8,33}};
   {{0x16f9,0x16ff,0}}; {{0x1700,0x1711,33}}; {{0x1712,0x1714,112}}; {{0x1715,0x1715,33}}; {{0x1716,0x171e,0}};
   {{0x171f,0x1731,33}}; {{0x1732,0x1733,112}}; {{0x1734,0x1736,33}}; {{0x1737,0x173f,0}}; {{0x1740,0x1751,33}};
   {{0x1752,0x1753,112}}; {{0x1754,0x175f,0}}; {{0x1760,0x176c,33}}; {{0x176d,0x176d,0}}; {{0x176e,0x1770,33}};
   {{0x1771,0x1771,0}}; {{0x1772,0x1773,112}}; {{0x1774,0x177f,0}}; {{0x1780,0x17b3,33}}; {{0x17b4,0x17b5,112}};
   {{0x17b6,0x17b6,33}}; {{0x17b7,0x17bd,112}}; {{0x17be,0x17c5,33}}; {{0x17c6,0x17c6,112}}; {{0x17c7,0x17c8,33}};
   {{0x17c9,0x17d3,112}}; {{0x17d4,0x17da,33}}; {{0x17db,0x17db,48}}; {{0x17dc,0x17dc,33}}; {{0x17dd,0x17dd,112}};
   {{0x17de,0x17df,0}}; {{0x17e0,0x17e9,33}}; {{0x17ea,0x17ef,0}}; {{0x17f0,0x17f9,48}}; {{0x17fa,0x17ff,0}};
   {{0x1800,0x180a,48}}; {{0x180b,0x180d,112}}; {{0x180e,0x180e,48}}; {{0x180f,0x180f,112}}; {{0x1810,0x1819,33}};
   {{0x181a,0x181f,0}}; {{0x1820,0x1878,33}}; {{0x1879,0x187f,0}}; {{0x1880,0x1884,33}}; {{0x1885,0x1886,112}};
   {{0x1887,0x18a8,33}}; {{0x18a9,0x18a9,112}}; {{0x18aa,0x18aa,33}}; {{0x18ab,0x18af,0}}; {{0x18b0,0x18f5,33}};
   {{0x18f6,0x18ff,0}}; {{0x1900,0x191e,33}}; {{0x191f,0x191f,0}}; {{0x1920,0x1922,112}}; {{0x1923,0x1926,33}};
   {{0x1927,0x1928,112}}; {{0x1929,0x192b,33}}; {{0x192c,0x192f,0}}; {{0x1930,0x1931,33}}; {{0x1932,0x1932,112}};
   {{0x1933,0x1938,33}}; {{0x1939,0x193b,112}}; {{0x193c,0x193f,0}}; {{0x1940,0x1940,48}}; {{0x1941,0x1943,0}};
   {{0x1944,0x1945,48}}; {{0x1946,0x196d,33}}; {{0x196e,0x196f,0}}; {{0x1970,0x1974,33}}; {{0x1975,0x197f,0}};
   {{0x1980,0x19ab,33}}; {{0x19ac,0x19af,0}}; {{0x19b0,0x19c9,33}}; {{0x19ca,0x19cf,0}}; {{0x19d0,0x19da,33}};
   {{0x19db,0x19dd,0}}; {{0x19de,0x19ff,48}}; {{0x1a00,0x1a16,33}}; {{0x1a17,0x1a18,112}}; {{0x1a19,0x1a1a,33}};
   {{0x1a1b,0x1a1b,112}}; {{0x1a1c,0x1a1d,0}}; {{0x1a1e,0x1a55,33}}; {{0x1a56,0x1a56,112}}; {{0x1a57,0x1a57,33}};
   {{0x1a58,0x1a5e,112}}; {{0x1a5f,0x1a5f,0}}; {{0x1a60,0x1a60,112}}; {{0x1a61,0x1a61,33}}; {{0x1a62,0x1a62,112}};
   {{0x1a63,0x1a64,33}}; {{0x1a65,0x1a6c,112}}; {{0x1a6d,0x1a72,33}}; {{0x1a73,0x1a7c,112}}; {{0x1a7d,0x1a7e,0}};
   {{0x1a7f,0x1a7f,112}}; {{0x1a80,0x1a89,33}}; {{0x1a8a,0x1a8f,0}}; {{0x1a90,0x1a99,33}}; {{0x1a9a,0x1a9f,0}};
   {{0x1aa0,0x1aad,33}}; {{0x1aae,0x1aaf,0}}; {{0x1ab0,0x1ace,112}}; {{0x1acf,0x1aff,0}}; {{0x1b00,0x1b03,112}};
   {{0x1b04,0x1b33,33}}; {{0x1b34,0x1b34,112}}; {{0x1b35,0x1b35,33}}; {{0x1b36,0x1b3a,112}}; {{0x1b3b,0x1b3b,33}};
   {{0x1b3c,0x1b3c,112}}; {{0x1b3d,0x1b41,33}}; {{0x1b42,0x1b42,112}}; {{0x1b43,0x1b4c,33}}; {{0x1b4d,0x1b4d,0}};
   {{0x1b4e,0x1b6a,33}}; {{0x1b6b,0x1b73,112}}; {{0x1b74,0x1b7f,33}}; {{0x1b80,0x1b81,112}}; {{0x1b82,0x1ba1,33}};
   {{0x1ba2,0x1ba5,112}}; {{0x1ba6,0x1ba7,33}}; {{0x1ba8,0x1ba9,112}}; {{0x1baa,0x1baa,33}}; {{0x1bab,0x1bad,112}};
   {{0x1bae,0x1be5,33}}; {{0x1be6,0x1be6,112}}; {{0x1be7,0x1be7,33}}; {{0x1be8,0x1be9,112}}; {{0x1bea,0x1bec,33}};
   {{0x1bed,0x1bed,112}}; {{0x1bee,0x1bee,33}}; {{0x1bef,0x1bf1,112}}; {{0x1bf2,0x1bf3,33}}; {{0x1bf4,0x1bfb,0}};
   {{0x1bfc,0x1c2b,33}}; {{0x1c2c,0x1c33,112}}; {{0x1c34,0x1c35,33}}; {{0x1c36,0x1c37,112}}; {{0x1c38,0x1c3a,0}};
   {{0x1c3b,0x1c49,33}}; {{0x1c4a,0x1c4c,0}}; {{0x1c4d,0x1c8a,33}}; {{0x1c8b,0x1c8f,0}}; {{0x1c90,0x1cba,33}}].

(** contact_bidi16.h:781-930, [contact_bidi16_ranges], part 6 *)
Definition contact_bidi16_part6 : list ContactBidi16Range :=
  [{{0x1cbb,0x1cbc,0}}; {{0x1cbd,0x1cc7,33}}; {{0x1cc8,0x1ccf,0}}; {{0x1cd0,0x1cd2,112}}; {{0x1cd3,0x1cd3,33}};
   {{0x1cd4,0x1ce0,112}}; {{0x1ce1,0x1ce1,33}}; {{0x1ce2,0x1ce8,112}}; {{0x1ce9,0x1cec,33}}; {{0x1ced,0x1ced,112}};
   {{0x1cee,0x1cf3,33}}; {{0x1cf4,0x1cf4,112}}; {{0x1cf5,0x1cf7,33}}; {{0x1cf8,0x1cf9,112}}; {{0x1cfa,0x1cfa,33}};
   {{0x1cfb,0x1cff,0}}; {{0x1d00,0x1dbf,33}}; {{0x1dc0,0x1dff,112}}; {{0x1e00,0x1f15,33}}; {{0x1f16,0x1f17,0}};
   {{0x1f18,0x1f1d,33}}; {{0x1f1e,0x1f1f,0}}; {{0x1f20,0x1f45,33}}; {{0x1f46,0x1f47,0}}; {{0x1f48,0x1f4d,33}};
   {{0x1f4e,0x1f4f,0}}; {{0x1f50,0x1f57,33}}; {{0x1f58,0x1f58,0}}; {{0x1f59,0x1f59,33}}; {{0x1f5a,0x1f5a,0}};
   {{0x1f5b,0x1f5b,33}}; {{0x1f5c,0x1f5c,0}}; {{0x1f5d,0x1f5d,33}}; {{0x1f5e,0x1f5e,0}}; {{0x1f5f,0x1f7d,33}};
   {{0x1f7e,0x1f7f,0}}; {{0x1f80,0x1fb4,33}}; {{0x1fb5,0x1fb5,0}}; {{0x1fb6,0x1fbc,33}}; {{0x1fbd,0x1fbd,48}};
   {{0x1fbe,0x1fbe,33}}; {{0x1fbf,0x1fc1,48}}; {{0x1fc2,0x1fc4,33}}; {{0x1fc5,0x1fc5,0}}; {{0x1fc6,0x1fcc,33}};
   {{0x1fcd,0x1fcf,48}}; {{0x1fd0,0x1fd3,33}}; {{0x1fd4,0x1fd5,0}}; {{0x1fd6,0x1fdb,33}}; {{0x1fdc,0x1fdc,0}};
   {{0x1fdd,0x1fdf,48}}; {{0x1fe0,0x1fec,33}}; {{0x1fed,0x1fef,48}}; {{0x1ff0,0x1ff1,0}}; {{0x1ff2,0x1ff4,33}};
   {{0x1ff5,0x1ff5,0}}; {{0x1ff6,0x1ffc,33}}; {{0x1ffd,0x1ffe,48}}; {{0x1fff,0x200a,0}}; {{0x200b,0x200d,48}};
   {{0x200e,0x200e,33}}; {{0x200f,0x200f,18}}; {{0x2010,0x2027,48}}; {{0x2028,0x202e,0}}; {{0x202f,0x205e,48}};
   {{0x205f,0x205f,0}}; {{0x2060,0x2064,48}}; {{0x2065,0x2069,0}}; {{0x206a,0x206f,48}}; {{0x2070,0x2070,52}};
   {{0x2071,0x2071,33}}; {{0x2072,0x2073,0}}; {{0x2074,0x2079,52}}; {{0x207a,0x207e,48}}; {{0x207f,0x207f,33}};
   {{0x2080,0x2089,52}}; {{0x208a,0x208e,48}}; {{0x208f,0x208f,0}}; {{0x2090,0x209c,33}}; {{0x209d,0x209f,0}};
   {{0x20a0,0x20c0,48}}; {{0x20c1,0x20cf,0}}; {{0x20d0,0x20f0,112}}; {{0x20f1,0x20ff,0}}; {{0x2100,0x2101,48}};
   {{0x2102,0x2102,33}}; {{0x2103,0x2106,48}}; {{0x2107,0x2107,33}}; {{0x2108,0x2109,48}}; {{0x210a,0x2113,33}};
   {{0x2114,0x2114,48}}; {{0x2115,0x2115,33}}; {{0x2116,0x2118,48}}; {{0x2119,0x211d,33}}; {{0x211e,0x2123,48}};
   {{0x2124,0x2124,33}}; {{0x2125,0x2125,48}}; {{0x2126,0x2126,33}}; {{0x2127,0x2127,48}}; {{0x2128,0x2128,33}};
   {{0x2129,0x2129,48}}; {{0x212a,0x212d,33}}; {{0x212e,0x212e,48}}; {{0x212f,0x2139,33}}; {{0x213a,0x213b,48}};
   {{0x213c,0x213f,33}}; {{0x2140,0x2144,48}}; {{0x2145,0x2149,33}}; {{0x214a,0x214d,48}}; {{0x214e,0x214f,33}};
   {{0x2150,0x215f,48}}; {{0x2160,0x2188,33}}; {{0x2189,0x218b,48}}; {{0x218c,0x218f,0}}; {{0x2190,0x2335,48}};
   {{0x2336,0x237a,33}}; {{0x237b,0x2394,48}}; {{0x2395,0x2395,33}}; {{0x2396,0x2429,48}}; {{0x242a,0x243f,0}};
   {{0x2440,0x244a,48}}; {{0x244b,0x245f,0}}; {{0x2460,0x2487,48}}; {{0x2488,0x249b,52}}; {{0x249c,0x24e9,33}};
   {{0x24ea,0x26ab,48}}; {{0x26ac,0x26ac,33}}; {{0x26ad,0x27ff,48}}; {{0x2800,0x28ff,33}}; {{0x2900,0x2b73,48}};
   {{0x2b74,0x2b75,0}}; {{0x2b76,0x2b95,48}}; {{0x2b96,0x2b96,0}}; {{0x2b97,0x2bff,48}}; {{0x2c00,0x2ce4,33}};
   {{0x2ce5,0x2cea,48}}; {{0x2ceb,0x2cee,33}}; {{0x2cef,0x2cf1,112}}; {{0x2cf2,0x2cf3,33}}; {{0x2cf4,0x2cf8,0}};
   {{0x2cf9,0x2cff,48}}; {{0x2d00,0x2d25,33}}; {{0x2d26,0x2d26,0}}; {{0x2d27,0x2d27,33}}; {{0x2d28,0x2d2c,0}};
   {{0x2d2d,0x2d2d,33}}; {{0x2d2e,0x2d2f,0}}; {{0x2d30,0x2d67,33}}; {{0x2d68,0x2d6e,0}}; {{0x2d6f,0x2d70,33}}].

(** contact_bidi16.h:931-1080, [contact_bidi16_ranges], part 7 *)
Definition contact_bidi16_part7 : list ContactBidi16Range :=
  [{{0x2d71,0x2d7e,0}}; {{0x2d7f,0x2d7f,112}}; {{0x2d80,0x2d96,33}}; {{0x2d97,0x2d9f,0}}; {{0x2da0,0x2da6,33}};
   {{0x2da7,0x2da7,0}}; {{0x2da8,0x2dae,33}}; {{0x2daf,0x2daf,0}}; {{0x2db0,0x2db6,33}}; {{0x2db7,0x2db7,0}};
   {{0x2db8,0x2dbe,33}}; {{0x2dbf,0x2dbf,0}}; {{0x2dc0,0x2dc6,33}}; {{0x2dc7,0x2dc7,0}}; {{0x2dc8,0x2dce,33}};
   {{0x2dcf,0x2dcf,0}}; {{0x2dd0,0x2dd6,33}}; {{0x2dd7,0x2dd7,0}}; {{0x2dd8,0x2dde,33}}; {{0x2ddf,0x2ddf,0}};
   {{0x2de0,0x2dff,112}}; {{0x2e00,0x2e5d,48}}; {{0x2e5e,0x2e7f,0}}; {{0x2e80,0x2e99,48}}; {{0x2e9a,0x2e9a,0}};
   {{0x2e9b,0x2ef3,48}}; {{0x2ef4,0x2eff,0}}; {{0x2f00,0x2fd5,48}}; {{0x2fd6,0x2fef,0}}; {{0x2ff0,0x2fff,48}};
   {{0x3000,0x3000,0}}; {{0x3001,0x3004,48}}; {{0x3005,0x3007,33}}; {{0x3008,0x3020,48}}; {{0x3021,0x3029,33}};
   {{0x302a,0x302d,112}}; {{0x302e,0x302f,33}}; {{0x3030,0x3030,48}}; {{0x3031,0x3035,33}}; {{0x3036,0x3037,48}};
   {{0x3038,0x303c,33}}; {{0x303d,0x303f,48}}; {{0x3040,0x3040,0}}; {{0x3041,0x3096,33}}; {{0x3097,0x3098,0}};
   {{0x3099,0x309a,112}}; {{0x309b,0x309c,48}}; {{0x309d,0x309f,33}}; {{0x30a0,0x30a0,48}}; {{0x30a1,0x30fa,33}};
   {{0x30fb,0x30fb,48}}; {{0x30fc,0x30ff,33}}; {{0x3100,0x3104,0}}; {{0x3105,0x312f,33}}; {{0x3130,0x3130,0}};
   {{0x3131,0x318e,33}}; {{0x318f,0x318f,0}}; {{0x3190,0x31bf,33}}; {{0x31c0,0x31e5,48}}; {{0x31e6,0x31ee,0}};
   {{0x31ef,0x31ef,48}}; {{0x31f0,0x321c,33}}; {{0x321d,0x321e,48}}; {{0x321f,0x321f,0}}; {{0x3220,0x324f,33}};
   {{0x3250,0x325f,48}}; {{0x3260,0x327b,33}}; {{0x327c,0x327e,48}}; {{0x327f,0x32b0,33}}; {{0x32b1,0x32bf,48}};
   {{0x32c0,0x32cb,33}}; {{0x32cc,0x32cf,48}}; {{0x32d0,0x3376,33}}; {{0x3377,0x337a,48}}; {{0x337b,0x33dd,33}};
   {{0x33de,0x33df,48}}; {{0x33e0,0x33fe,33}}; {{0x33ff,0x33ff,48}}; {{0x3400,0x4dbf,33}}; {{0x4dc0,0x4dff,48}};
   {{0x4e00,0xa48c,33}}; {{0xa48d,0xa48f,0}}; {{0xa490,0xa4c6,48}}; {{0xa4c7,0xa4cf,0}}; {{0xa4d0,0xa60c,33}};
   {{0xa60d,0xa60f,48}}; {{0xa610,0xa62b,33}}; {{0xa62c,0xa63f,0}}; {{0xa640,0xa66e,33}}; {{0xa66f,0xa672,112}};
   {{0xa673,0xa673,48}}; {{0xa674,0xa67d,112}}; {{0xa67e,0xa67f,48}}; {{0xa680,0xa69d,33}}; {{0xa69e,0xa69f,112}};
   {{0xa6a0,0xa6ef,33}}; {{0xa6f0,0xa6f1,112}}; {{0xa6f2,0xa6f7,33}}; {{0xa6f8,0xa6ff,0}}; {{0xa700,0xa721,48}};
   {{0xa722,0xa787,33}}; {{0xa788,0xa788,48}}; {{0xa789,0xa7cd,33}}; {{0xa7ce,0xa7cf,0}}; {{0xa7d0,0xa7d1,33}};
   {{0xa7d2,0xa7d2,0}}; {{0xa7d3,0xa7d3,33}}; {{0xa7d4,0xa7d4,0}}; {{0xa7d5,0xa7dc,33}}; {{0xa7dd,0xa7f1,0}};
   {{0xa7f2,0xa801,33}}; {{0xa802,0xa802,112}}; {{0xa803,0xa805,33}}; {{0xa806,0xa806,112}}; {{0xa807,0xa80a,33}};
   {{0xa80b,0xa80b,112}}; {{0xa80c,0xa824,33}}; {{0xa825,0xa826,112}}; {{0xa827,0xa827,33}}; {{0xa828,0xa82b,48}};
   {{0xa82c,0xa82c,112}}; {{0xa82d,0xa82f,0}}; {{0xa830,0xa837,33}}; {{0xa838,0xa839,48}}; {{0xa83a,0xa83f,0}};
   {{0xa840,0xa873,33}}; {{0xa874,0xa877,48}}; {{0xa878,0xa87f,0}}; {{0xa880,0xa8c3,33}}; {{0xa8c4,0xa8c5,112}};
   {{0xa8c6,0xa8cd,0}}; {{0xa8ce,0xa8d9,33}}; {{0xa8da,0xa8df,0}}; {{0xa8e0,0xa8f1,112}}; {{0xa8f2,0xa8fe,33}};
   {{0xa8ff,0xa8ff,112}}; {{0xa900,0xa925,33}}; {{0xa926,0xa92d,112}}; {{0xa92e,0xa946,33}}; {{0xa947,0xa951,112}};
   {{0xa952,0xa953,33}}; {{0xa954,0xa95e,0}}; {{0xa95f,0xa97c,33}}; {{0xa97d,0xa97f,0}}; {{0xa980,0xa982,112}};
   {{0xa983,0xa9b2,33}}; {{0xa9b3,0xa9b3,112}}; {{0xa9b4,0xa9b5,33}}; {{0xa9b6,0xa9b9,112}}; {{0xa9ba,0xa9bb,33}}].

(** contact_bidi16.h:1081-1230, [contact_bidi16_ranges], part 8 *)
Definition contact_bidi16_part8 : list ContactBidi16Range :=
  [{{0xa9bc,0xa9bd,112}}; {{0xa9be,0xa9cd,33}}; {{0xa9ce,0xa9ce,0}}; {{0xa9cf,0xa9d9,33}}; {{0xa9da,0xa9dd,0}};
   {{0xa9de,0xa9e4,33}}; {{0xa9e5,0xa9e5,112}}; {{0xa9e6,0xa9fe,33}}; {{0xa9ff,0xa9ff,0}}; {{0xaa00,0xaa28,33}};
   {{0xaa29,0xaa2e,112}}; {{0xaa2f,0xaa30,33}}; {{0xaa31,0xaa32,112}}; {{0xaa33,0xaa34,33}}; {{0xaa35,0xaa36,112}};
   {{0xaa37,0xaa3f,0}}; {{0xaa40,0xaa42,33}}; {{0xaa43,0xaa43,112}}; {{0xaa44,0xaa4b,33}}; {{0xaa4c,0xaa4c,112}};
   {{0xaa4d,0xaa4d,33}}; {{0xaa4e,0xaa4f,0}}; {{0xaa50,0xaa59,33}}; {{0xaa5a,0xaa5b,0}}; {{0xaa5c,0xaa7b,33}};
   {{0xaa7c,0xaa7c,112}}; {{0xaa7d,0xaaaf,33}}; {{0xaab0,0xaab0,112}}; {{0xaab1,0xaab1,33}}; {{0xaab2,0xaab4,112}};
   {{0xaab5,0xaab6,33}}; {{0xaab7,0xaab8,112}}; {{0xaab9,0xaabd,33}}; {{0xaabe,0xaabf,112}}; {{0xaac0,0xaac0,33}};
   {{0xaac1,0xaac1,112}}; {{0xaac2,0xaac2,33}}; {{0xaac3,0xaada,0}}; {{0xaadb,0xaaeb,33}}; {{0xaaec,0xaaed,112}};
   {{0xaaee,0xaaf5,33}}; {{0xaaf6,0xaaf6,112}}; {{0xaaf7,0xab00,0}}; {{0xab01,0xab06,33}}; {{0xab07,0xab08,0}};
   {{0xab09,0xab0e,33}}; {{0xab0f,0xab10,0}}; {{0xab11,0xab16,33}}; {{0xab17,0xab1f,0}}; {{0xab20,0xab26,33}};
   {{0xab27,0xab27,0}}; {{0xab28,0xab2e,33}}; {{0xab2f,0xab2f,0}}; {{0xab30,0xab69,33}}; {{0xab6a,0xab6b,48}};
   {{0xab6c,0xab6f,0}}; {{0xab70,0xabe4,33}}; {{0xabe5,0xabe5,112}}; {{0xabe6,0xabe7,33}}; {{0xabe8,0xabe8,112}};
   {{0xabe9,0xabec,33}}; {{0xabed,0xabed,112}}; {{0xabee,0xabef,0}}; {{0xabf0,0xabf9,33}}; {{0xabfa,0xabff,0}};
   {{0xac00,0xd7a3,33}}; {{0xd7a4,0xd7af,0}}; {{0xd7b0,0xd7c6,33}}; {{0xd7c7,0xd7ca,0}}; {{0xd7cb,0xd7fb,33}};
   {{0xd7fc,0xd7ff,0}}; {{0xd800,0xfa6d,33}}; {{0xfa6e,0xfa6f,0}}; {{0xfa70,0xfad9,33}}; {{0xfada,0xfaff,0}};
   {{0xfb00,0xfb06,33}}; {{0xfb07,0xfb12,0}}; {{0xfb13,0xfb17,33}}; {{0xfb18,0xfb1c,0}}; {{0xfb1d,0xfb1d,18}};
   {{0xfb1e,0xfb1e,112}}; {{0xfb1f,0xfb28,18}}; {{0xfb29,0xfb29,48}}; {{0xfb2a,0xfb36,18}}; {{0xfb37,0xfb37,0}};
   {{0xfb38,0xfb3c,18}}; {{0xfb3d,0xfb3d,0}}; {{0xfb3e,0xfb3e,18}}; {{0xfb3f,0xfb3f,0}}; {{0xfb40,0xfb41,18}};
   {{0xfb42,0xfb42,0}}; {{0xfb43,0xfb44,18}}; {{0xfb45,0xfb45,0}}; {{0xfb46,0xfbc2,18}}; {{0xfbc3,0xfbd2,0}};
   {{0xfbd3,0xfd3d,18}}; {{0xfd3e,0xfd4f,48}}; {{0xfd50,0xfd8f,18}}; {{0xfd90,0xfd91,0}}; {{0xfd92,0xfdc7,18}};
   {{0xfdc8,0xfdce,0}}; {{0xfdcf,0xfdcf,48}}; {{0xfdd0,0xfdef,0}}; {{0xfdf0,0xfdfc,18}}; {{0xfdfd,0xfdff,48}};
   {{0xfe00,0xfe0f,112}}; {{0xfe10,0xfe19,48}}; {{0xfe1a,0xfe1f,0}}; {{0xfe20,0xfe2f,112}}; {{0xfe30,0xfe52,48}};
   {{0xfe53,0xfe53,0}}; {{0xfe54,0xfe66,48}}; {{0xfe67,0xfe67,0}}; {{0xfe68,0xfe6b,48}}; {{0xfe6c,0xfe6f,0}};
   {{0xfe70,0xfe74,18}}; {{0xfe75,0xfe75,0}}; {{0xfe76,0xfefc,18}}; {{0xfefd,0xfefe,0}}; {{0xfeff,0xfeff,48}};
   {{0xff00,0xff00,0}}; {{0xff01,0xff0f,48}}; {{0xff10,0xff19,52}}; {{0xff1a,0xff20,48}}; {{0xff21,0xff3a,33}};
   {{0xff3b,0xff40,48}}; {{0xff41,0xff5a,33}}; {{0xff5b,0xff65,48}}; {{0xff66,0xffbe,33}}; {{0xffbf,0xffc1,0}};
   {{0xffc2,0xffc7,33}}; {{0xffc8,0xffc9,0}}; {{0xffca,0xffcf,33}}; {{0xffd0,0xffd1,0}}; {{0xffd2,0xffd7,33}};
   {{0xffd8,0xffd9,0}}; {{0xffda,0xffdc,33}}; {{0xffdd,0xffdf,0}}; {{0xffe0,0xffe6,48}}; {{0xffe7,0xffe7,0}};
   {{0xffe8,0xffee,48}}; {{0xffef,0xfff8,0}}; {{0xfff9,0xfffd,48}}; {{0xfffe,0xffff,0}}; {{0x10000,0x1000b,33}};
   {{0x1000c,0x1000c,0}}; {{0x1000d,0x10026,33}}; {{0x10027,0x10027,0}}; {{0x10028,0x1003a,33}};
   {{0x1003b,0x1003b,0}}].

(** contact_bidi16.h:1231-1380, [contact_bidi16_ranges], part 9 *)
Definition contact_bidi16_part9 : list ContactBidi16Range :=
  [{{0x1003c,0x1003d,33}}; {{0x1003e,0x1003e,0}}; {{0x1003f,0x1004d,33}}; {{0x1004e,0x1004f,0}};
   {{0x10050,0x1005d,33}}; {{0x1005e,0x1007f,0}}; {{0x10080,0x100fa,33}}; {{0x100fb,0x100ff,0}};
   {{0x10100,0x10100,33}}; {{0x10101,0x10101,48}}; {{0x10102,0x10102,33}}; {{0x10103,0x10106,0}};
   {{0x10107,0x10133,33}}; {{0x10134,0x10136,0}}; {{0x10137,0x1013f,33}}; {{0x10140,0x1018c,48}};
   {{0x1018d,0x1018e,33}}; {{0x1018f,0x1018f,0}}; {{0x10190,0x1019c,48}}; {{0x1019d,0x1019f,0}};
   {{0x101a0,0x101a0,48}}; {{0x101a1,0x101cf,0}}; {{0x101d0,0x101fc,33}}; {{0x101fd,0x101fd,112}};
   {{0x101fe,0x1027f,0}}; {{0x10280,0x1029c,33}}; {{0x1029d,0x1029f,0}}; {{0x102a0,0x102d0,33}};
   {{0x102d1,0x102df,0}}; {{0x102e0,0x102e0,112}}; {{0x102e1,0x102fb,52}}; {{0x102fc,0x102ff,0}};
   {{0x10300,0x10323,33}}; {{0x10324,0x1032c,0}}; {{0x1032d,0x1034a,33}}; {{0x1034b,0x1034f,0}};
   {{0x10350,0x10375,33}}; {{0x10376,0x1037a,112}}; {{0x1037b,0x1037f,0}}; {{0x10380,0x1039d,33}};
   {{0x1039e,0x1039e,0}}; {{0x1039f,0x103c3,33}}; {{0x103c4,0x103c7,0}}; {{0x103c8,0x103d5,33}};
   {{0x103d6,0x103ff,0}}; {{0x10400,0x1049d,33}}; {{0x1049e,0x1049f,0}}; {{0x104a0,0x104a9,33}};
   {{0x104aa,0x104af,0}}; {{0x104b0,0x104d3,33}}; {{0x104d4,0x104d7,0}}; {{0x104d8,0x104fb,33}};
   {{0x104fc,0x104ff,0}}; {{0x10500,0x10527,33}}; {{0x10528,0x1052f,0}}; {{0x10530,0x10563,33}};
   {{0x10564,0x1056e,0}}; {{0x1056f,0x1057a,33}}; {{0x1057b,0x1057b,0}}; {{0x1057c,0x1058a,33}};
   {{0x1058b,0x1058b,0}}; {{0x1058c,0x10592,33}}; {{0x10593,0x10593,0}}; {{0x10594,0x10595,33}};
   {{0x10596,0x10596,0}}; {{0x10597,0x105a1,33}}; {{0x105a2,0x105a2,0}}; {{0x105a3,0x105b1,33}};
   {{0x105b2,0x105b2,0}}; {{0x105b3,0x105b9,33}}; {{0x105ba,0x105ba,0}}; {{0x105bb,0x105bc,33}};
   {{0x105bd,0x105bf,0}}; {{0x105c0,0x105f3,33}}; {{0x105f4,0x105ff,0}}; {{0x10600,0x10736,33}};
   {{0x10737,0x1073f,0}}; {{0x10740,0x10755,33}}; {{0x10756,0x1075f,0}}; {{0x10760,0x10767,33}};
   {{0x10768,0x1077f,0}}; {{0x10780,0x10785,33}}; {{0x10786,0x10786,0}}; {{0x10787,0x107b0,33}};
   {{0x107b1,0x107b1,0}}; {{0x107b2,0x107ba,33}}; {{0x107bb,0x107ff,0}}; {{0x10800,0x10805,18}};
   {{0x10806,0x10807,0}}; {{0x10808,0x10808,18}}; {{0x10809,0x10809,0}}; {{0x1080a,0x10835,18}};
   {{0x10836,0x10836,0}}; {{0x10837,0x10838,18}}; {{0x10839,0x1083b,0}}; {{0x1083c,0x1083c,18}};
   {{0x1083d,0x1083e,0}}; {{0x1083f,0x10855,18}}; {{0x10856,0x10856,0}}; {{0x10857,0x1089e,18}};
   {{0x1089f,0x108a6,0}}; {{0x108a7,0x108af,18}}; {{0x108b0,0x108df,0}}; {{0x108e0,0x108f2,18}};
   {{0x108f3,0x108f3,0}}; {{0x108f4,0x108f5,18}}; {{0x108f6,0x108fa,0}}; {{0x108fb,0x1091b,18}};
   {{0x1091c,0x1091e,0}}; {{0x1091f,0x1091f,48}}; {{0x10920,0x10939,18}}; {{0x1093a,0x1093e,0}};
   {{0x1093f,0x1093f,18}}; {{0x10940,0x1097f,0}}; {{0x10980,0x109b7,18}}; {{0x109b8,0x109bb,0}};
   {{0x109bc,0x109cf,18}}; {{0x109d0,0x109d1,0}}; {{0x109d2,0x10a00,18}}; {{0x10a01,0x10a03,112}};
   {{0x10a04,0x10a04,0}}; {{0x10a05,0x10a06,112}}; {{0x10a07,0x10a0b,0}}; {{0x10a0c,0x10a0f,112}};
   {{0x10a10,0x10a13,18}}; {{0x10a14,0x10a14,0}}; {{0x10a15,0x10a17,18}}; {{0x10a18,0x10a18,0}};
   {{0x10a19,0x10a35,18}}; {{0x10a36,0x10a37,0}}; {{0x10a38,0x10a3a,112}}; {{0x10a3b,0x10a3e,0}};
   {{0x10a3f,0x10a3f,112}}; {{0x10a40,0x10a48,18}}; {{0x10a49,0x10a4f,0}}; {{0x10a50,0x10a58,18}};
   {{0x10a59,0x10a5f,0}}; {{0x10a60,0x10a9f,18}}; {{0x10aa0,0x10abf,0}}; {{0x10ac0,0x10ae4,18}};
   {{0x10ae5,0x10ae6,112}}; {{0x10ae7,0x10aea,0}}; {{0x10aeb,0x10af6,18}}; {{0x10af7,0x10aff,0}};
   {{0x10b00,0x10b35,18}}; {{0x10b36,0x10b38,0}}; {{0x10b39,0x10b3f,48}}; {{0x10b40,0x10b55,18}};
   {{0x10b56,0x10b57,0}}; {{0x10b58,0x10b72,18}}].

(** contact_bidi16.h:1381-1530, [contact_bidi16_ranges], part 10 *)
Definition contact_bidi16_part10 : list ContactBidi16Range :=
  [{{0x10b73,0x10b77,0}}; {{0x10b78,0x10b91,18}}; {{0x10b92,0x10b98,0}}; {{0x10b99,0x10b9c,18}};
   {{0x10b9d,0x10ba8,0}}; {{0x10ba9,0x10baf,18}}; {{0x10bb0,0x10bff,0}}; {{0x10c00,0x10c48,18}};
   {{0x10c49,0x10c7f,0}}; {{0x10c80,0x10cb2,18}}; {{0x10cb3,0x10cbf,0}}; {{0x10cc0,0x10cf2,18}};
   {{0x10cf3,0x10cf9,0}}; {{0x10cfa,0x10d23,18}}; {{0x10d24,0x10d27,112}}; {{0x10d28,0x10d2f,0}};
   {{0x10d30,0x10d39,24}}; {{0x10d3a,0x10d3f,0}}; {{0x10d40,0x10d49,24}}; {{0x10d4a,0x10d65,18}};
   {{0x10d66,0x10d68,0}}; {{0x10d69,0x10d6d,112}}; {{0x10d6e,0x10d6e,48}}; {{0x10d6f,0x10d85,18}};
   {{0x10d86,0x10d8d,0}}; {{0x10d8e,0x10d8f,18}}; {{0x10d90,0x10e5f,0}}; {{0x10e60,0x10e7e,24}};
   {{0x10e7f,0x10e7f,0}}; {{0x10e80,0x10ea9,18}}; {{0x10eaa,0x10eaa,0}}; {{0x10eab,0x10eac,112}};
   {{0x10ead,0x10ead,18}}; {{0x10eae,0x10eaf,0}}; {{0x10eb0,0x10eb1,18}}; {{0x10eb2,0x10ec1,0}};
   {{0x10ec2,0x10ec4,18}}; {{0x10ec5,0x10efb,0}}; {{0x10efc,0x10eff,112}}; {{0x10f00,0x10f27,18}};
   {{0x10f28,0x10f2f,0}}; {{0x10f30,0x10f45,18}}; {{0x10f46,0x10f50,112}}; {{0x10f51,0x10f59,18}};
   {{0x10f5a,0x10f6f,0}}; {{0x10f70,0x10f81,18}}; {{0x10f82,0x10f85,112}}; {{0x10f86,0x10f89,18}};
   {{0x10f8a,0x10faf,0}}; {{0x10fb0,0x10fcb,18}}; {{0x10fcc,0x10fdf,0}}; {{0x10fe0,0x10ff6,18}};
   {{0x10ff7,0x10fff,0}}; {{0x11000,0x11000,33}}; {{0x11001,0x11001,112}}; {{0x11002,0x11037,33}};
   {{0x11038,0x11046,112}}; {{0x11047,0x1104d,33}}; {{0x1104e,0x11051,0}}; {{0x11052,0x11065,48}};
   {{0x11066,0x1106f,33}}; {{0x11070,0x11070,112}}; {{0x11071,0x11072,33}}; {{0x11073,0x11074,112}};
   {{0x11075,0x11075,33}}; {{0x11076,0x1107e,0}}; {{0x1107f,0x11081,112}}; {{0x11082,0x110b2,33}};
   {{0x110b3,0x110b6,112}}; {{0x110b7,0x110b8,33}}; {{0x110b9,0x110ba,112}}; {{0x110bb,0x110c1,33}};
   {{0x110c2,0x110c2,112}}; {{0x110c3,0x110cc,0}}; {{0x110cd,0x110cd,33}}; {{0x110ce,0x110cf,0}};
   {{0x110d0,0x110e8,33}}; {{0x110e9,0x110ef,0}}; {{0x110f0,0x110f9,33}}; {{0x110fa,0x110ff,0}};
   {{0x11100,0x11102,112}}; {{0x11103,0x11126,33}}; {{0x11127,0x1112b,112}}; {{0x1112c,0x1112c,33}};
   {{0x1112d,0x11134,112}}; {{0x11135,0x11135,0}}; {{0x11136,0x11147,33}}; {{0x11148,0x1114f,0}};
   {{0x11150,0x11172,33}}; {{0x11173,0x11173,112}}; {{0x11174,0x11176,33}}; {{0x11177,0x1117f,0}};
   {{0x11180,0x11181,112}}; {{0x11182,0x111b5,33}}; {{0x111b6,0x111be,112}}; {{0x111bf,0x111c8,33}};
   {{0x111c9,0x111cc,112}}; {{0x111cd,0x111ce,33}}; {{0x111cf,0x111cf,112}}; {{0x111d0,0x111df,33}};
   {{0x111e0,0x111e0,0}}; {{0x111e1,0x111f4,33}}; {{0x111f5,0x111ff,0}}; {{0x11200,0x11211,33}};
   {{0x11212,0x11212,0}}; {{0x11213,0x1122e,33}}; {{0x1122f,0x11231,112}}; {{0x11232,0x11233,33}};
   {{0x11234,0x11234,112}}; {{0x11235,0x11235,33}}; {{0x11236,0x11237,112}}; {{0x11238,0x1123d,33}};
   {{0x1123e,0x1123e,112}}; {{0x1123f,0x11240,33}}; {{0x11241,0x11241,112}}; {{0x11242,0x1127f,0}};
   {{0x11280,0x11286,33}}; {{0x11287,0x11287,0}}; {{0x11288,0x11288,33}}; {{0x11289,0x11289,0}};
   {{0x1128a,0x1128d,33}}; {{0x1128e,0x1128e,0}}; {{0x1128f,0x1129d,33}}; {{0x1129e,0x1129e,0}};
   {{0x1129f,0x112a9,33}}; {{0x112aa,0x112af,0}}; {{0x112b0,0x112de,33}}; {{0x112df,0x112df,112}};
   {{0x112e0,0x112e2,33}}; {{0x112e3,0x112ea,112}}; {{0x112eb,0x112ef,0}}; {{0x112f0,0x112f9,33}};
   {{0x112fa,0x112ff,0}}; {{0x11300,0x11301,112}}; {{0x11302,0x11303,33}}; {{0x11304,0x11304,0}};
   {{0x11305,0x1130c,33}}; {{0x1130d,0x1130e,0}}; {{0x1130f,0x11310,33}}; {{0x11311,0x11312,0}};
   {{0x11313,0x11328,33}}; {{0x11329,0x11329,0}}; {{0x1132a,0x11330,33}}; {{0x11331,0x11331,0}};
   {{0x11332,0x11333,33}}; {{0x11334,0x11334,0}}; {{0x11335,0x11339,33}}; {{0x1133a,0x1133a,0}};
   {{0x1133b,0x1133c,112}}; {{0x1133d,0x1133f,33}}].

(** contact_bidi16.h:1531-1680, [contact_bidi16_ranges], part 11 *)
Definition contact_bidi16_part11 : list ContactBidi16Range :=
  [{{0x11340,0x11340,112}}; {{0x11341,0x11344,33}}; {{0x11345,0x11346,0}}; {{0x11347,0x11348,33}};
   {{0x11349,0x1134a,0}}; {{0x1134b,0x1134d,33}}; {{0x1134e,0x1134f,0}}; {{0x11350,0x11350,33}};
   {{0x11351,0x11356,0}}; {{0x11357,0x11357,33}}; {{0x11358,0x1135c,0}}; {{0x1135d,0x11363,33}};
   {{0x11364,0x11365,0}}; {{0x11366,0x1136c,112}}; {{0x1136d,0x1136f,0}}; {{0x11370,0x11374,112}};
   {{0x11375,0x1137f,0}}; {{0x11380,0x11389,33}}; {{0x1138a,0x1138a,0}}; {{0x1138b,0x1138b,33}};
   {{0x1138c,0x1138d,0}}; {{0x1138e,0x1138e,33}}; {{0x1138f,0x1138f,0}}; {{0x11390,0x113b5,33}};
   {{0x113b6,0x113b6,0}}; {{0x113b7,0x113ba,33}}; {{0x113bb,0x113c0,112}}; {{0x113c1,0x113c1,0}};
   {{0x113c2,0x113c2,33}}; {{0x113c3,0x113c4,0}}; {{0x113c5,0x113c5,33}}; {{0x113c6,0x113c6,0}};
   {{0x113c7,0x113ca,33}}; {{0x113cb,0x113cb,0}}; {{0x113cc,0x113cd,33}}; {{0x113ce,0x113ce,112}};
   {{0x113cf,0x113cf,33}}; {{0x113d0,0x113d0,112}}; {{0x113d1,0x113d1,33}}; {{0x113d2,0x113d2,112}};
   {{0x113d3,0x113d5,33}}; {{0x113d6,0x113d6,0}}; {{0x113d7,0x113d8,33}}; {{0x113d9,0x113e0,0}};
   {{0x113e1,0x113e2,112}}; {{0x113e3,0x113ff,0}}; {{0x11400,0x11437,33}}; {{0x11438,0x1143f,112}};
   {{0x11440,0x11441,33}}; {{0x11442,0x11444,112}}; {{0x11445,0x11445,33}}; {{0x11446,0x11446,112}};
   {{0x11447,0x1145b,33}}; {{0x1145c,0x1145c,0}}; {{0x1145d,0x1145d,33}}; {{0x1145e,0x1145e,112}};
   {{0x1145f,0x11461,33}}; {{0x11462,0x1147f,0}}; {{0x11480,0x114b2,33}}; {{0x114b3,0x114b8,112}};
   {{0x114b9,0x114b9,33}}; {{0x114ba,0x114ba,112}}; {{0x114bb,0x114be,33}}; {{0x114bf,0x114c0,112}};
   {{0x114c1,0x114c1,33}}; {{0x114c2,0x114c3,112}}; {{0x114c4,0x114c7,33}}; {{0x114c8,0x114cf,0}};
   {{0x114d0,0x114d9,33}}; {{0x114da,0x1157f,0}}; {{0x11580,0x115b1,33}}; {{0x115b2,0x115b5,112}};
   {{0x115b6,0x115b7,0}}; {{0x115b8,0x115bb,33}}; {{0x115bc,0x115bd,112}}; {{0x115be,0x115be,33}};
   {{0x115bf,0x115c0,112}}; {{0x115c1,0x115db,33}}; {{0x115dc,0x115dd,112}}; {{0x115de,0x115ff,0}};
   {{0x11600,0x11632,33}}; {{0x11633,0x1163a,112}}; {{0x1163b,0x1163c,33}}; {{0x1163d,0x1163d,112}};
   {{0x1163e,0x1163e,33}}; {{0x1163f,0x11640,112}}; {{0x11641,0x11644,33}}; {{0x11645,0x1164f,0}};
   {{0x11650,0x11659,33}}; {{0x1165a,0x1165f,0}}; {{0x11660,0x1166c,48}}; {{0x1166d,0x1167f,0}};
   {{0x11680,0x116aa,33}}; {{0x116ab,0x116ab,112}}; {{0x116ac,0x116ac,33}}; {{0x116ad,0x116ad,112}};
   {{0x116ae,0x116af,33}}; {{0x116b0,0x116b5,112}}; {{0x116b6,0x116b6,33}}; {{0x116b7,0x116b7,112}};
   {{0x116b8,0x116b9,33}}; {{0x116ba,0x116bf,0}}; {{0x116c0,0x116c9,33}}; {{0x116ca,0x116cf,0}};
   {{0x116d0,0x116e3,33}}; {{0x116e4,0x116ff,0}}; {{0x11700,0x1171a,33}}; {{0x1171b,0x1171c,0}};
   {{0x1171d,0x1171d,112}}; {{0x1171e,0x1171e,33}}; {{0x1171f,0x1171f,112}}; {{0x11720,0x11721,33}};
   {{0x11722,0x11725,112}}; {{0x11726,0x11726,33}}; {{0x11727,0x1172b,112}}; {{0x1172c,0x1172f,0}};
   {{0x11730,0x11746,33}}; {{0x11747,0x117ff,0}}; {{0x11800,0x1182e,33}}; {{0x1182f,0x11837,112}};
   {{0x11838,0x11838,33}}; {{0x11839,0x1183a,112}}; {{0x1183b,0x1183b,33}}; {{0x1183c,0x1189f,0}};
   {{0x118a0,0x118f2,33}}; {{0x118f3,0x118fe,0}}; {{0x118ff,0x11906,33}}; {{0x11907,0x11908,0}};
   {{0x11909,0x11909,33}}; {{0x1190a,0x1190b,0}}; {{0x1190c,0x11913,33}}; {{0x11914,0x11914,0}};
   {{0x11915,0x11916,33}}; {{0x11917,0x11917,0}}; {{0x11918,0x11935,33}}; {{0x11936,0x11936,0}};
   {{0x11937,0x11938,33}}; {{0x11939,0x1193a,0}}; {{0x1193b,0x1193c,112}}; {{0x1193d,0x1193d,33}};
   {{0x1193e,0x1193e,112}}; {{0x1193f,0x11942,33}}; {{0x11943,0x11943,112}}; {{0x11944,0x11946,33}};
   {{0x11947,0x1194f,0}}; {{0x11950,0x11959,33}}; {{0x1195a,0x1199f,0}}; {{0x119a0,0x119a7,33}};
   {{0x119a8,0x119a9,0}}; {{0x119aa,0x119d3,33}}].

(** contact_bidi16.h:1681-1830, [contact_bidi16_ranges], part 12 *)
Definition contact_bidi16_part12 : list ContactBidi16Range :=
  [{{0x119d4,0x119d7,112}}; {{0x119d8,0x119d9,0}}; {{0x119da,0x119db,112}}; {{0x119dc,0x119df,33}};
   {{0x119e0,0x119e0,112}}; {{0x119e1,0x119e4,33}}; {{0x119e5,0x119ff,0}}; {{0x11a00,0x11a00,33}};
   {{0x11a01,0x11a06,112}}; {{0x11a07,0x11a08,33}}; {{0x11a09,0x11a0a,112}}; {{0x11a0b,0x11a32,33}};
   {{0x11a33,0x11a38,112}}; {{0x11a39,0x11a3a,33}}; {{0x11a3b,0x11a3e,112}}; {{0x11a3f,0x11a46,33}};
   {{0x11a47,0x11a47,112}}; {{0x11a48,0x11a4f,0}}; {{0x11a50,0x11a50,33}}; {{0x11a51,0x11a56,112}};
   {{0x11a57,0x11a58,33}}; {{0x11a59,0x11a5b,112}}; {{0x11a5c,0x11a89,33}}; {{0x11a8a,0x11a96,112}};
   {{0x11a97,0x11a97,33}}; {{0x11a98,0x11a99,112}}; {{0x11a9a,0x11aa2,33}}; {{0x11aa3,0x11aaf,0}};
   {{0x11ab0,0x11af8,33}}; {{0x11af9,0x11aff,0}}; {{0x11b00,0x11b09,33}}; {{0x11b0a,0x11bbf,0}};
   {{0x11bc0,0x11be1,33}}; {{0x11be2,0x11bef,0}}; {{0x11bf0,0x11bf9,33}}; {{0x11bfa,0x11bff,0}};
   {{0x11c00,0x11c08,33}}; {{0x11c09,0x11c09,0}}; {{0x11c0a,0x11c2f,33}}; {{0x11c30,0x11c36,112}};
   {{0x11c37,0x11c37,0}}; {{0x11c38,0x11c3d,112}}; {{0x11c3e,0x11c45,33}}; {{0x11c46,0x11c4f,0}};
   {{0x11c50,0x11c6c,33}}; {{0x11c6d,0x11c6f,0}}; {{0x11c70,0x11c8f,33}}; {{0x11c90,0x11c91,0}};
   {{0x11c92,0x11ca7,112}}; {{0x11ca8,0x11ca8,0}}; {{0x11ca9,0x11ca9,33}}; {{0x11caa,0x11cb0,112}};
   {{0x11cb1,0x11cb1,33}}; {{0x11cb2,0x11cb3,112}}; {{0x11cb4,0x11cb4,33}}; {{0x11cb5,0x11cb6,112}};
   {{0x11cb7,0x11cff,0}}; {{0x11d00,0x11d06,33}}; {{0x11d07,0x11d07,0}}; {{0x11d08,0x11d09,33}};
   {{0x11d0a,0x11d0a,0}}; {{0x11d0b,0x11d30,33}}; {{0x11d31,0x11d36,112}}; {{0x11d37,0x11d39,0}};
   {{0x11d3a,0x11d3a,112}}; {{0x11d3b,0x11d3b,0}}; {{0x11d3c,0x11d3d,112}}; {{0x11d3e,0x11d3e,0}};
   {{0x11d3f,0x11d45,112}}; {{0x11d46,0x11d46,33}}; {{0x11d47,0x11d47,112}}; {{0x11d48,0x11d4f,0}};
   {{0x11d50,0x11d59,33}}; {{0x11d5a,0x11d5f,0}}; {{0x11d60,0x11d65,33}}; {{0x11d66,0x11d66,0}};
   {{0x11d67,0x11d68,33}}; {{0x11d69,0x11d69,0}}; {{0x11d6a,0x11d8e,33}}; {{0x11d8f,0x11d8f,0}};
   {{0x11d90,0x11d91,112}}; {{0x11d92,0x11d92,0}}; {{0x11d93,0x11d94,33}}; {{0x11d95,0x11d95,112}};
   {{0x11d96,0x11d96,33}}; {{0x11d97,0x11d97,112}}; {{0x11d98,0x11d98,33}}; {{0x11d99,0x11d9f,0}};
   {{0x11da0,0x11da9,33}}; {{0x11daa,0x11edf,0}}; {{0x11ee0,0x11ef2,33}}; {{0x11ef3,0x11ef4,112}};
   {{0x11ef5,0x11ef8,33}}; {{0x11ef9,0x11eff,0}}; {{0x11f00,0x11f01,112}}; {{0x11f02,0x11f10,33}};
   {{0x11f11,0x11f11,0}}; {{0x11f12,0x11f35,33}}; {{0x11f36,0x11f3a,112}}; {{0x11f3b,0x11f3d,0}};
   {{0x11f3e,0x11f3f,33}}; {{0x11f40,0x11f40,112}}; {{0x11f41,0x11f41,33}}; {{0x11f42,0x11f42,112}};
   {{0x11f43,0x11f59,33}}; {{0x11f5a,0x11f5a,112}}; {{0x11f5b,0x11faf,0}}; {{0x11fb0,0x11fb0,33}};
   {{0x11fb1,0x11fbf,0}}; {{0x11fc0,0x11fd4,33}}; {{0x11fd5,0x11ff1,48}}; {{0x11ff2,0x11ffe,0}};
   {{0x11fff,0x12399,33}}; {{0x1239a,0x123ff,0}}; {{0x12400,0x1246e,33}}; {{0x1246f,0x1246f,0}};
   {{0x12470,0x12474,33}}; {{0x12475,0x1247f,0}}; {{0x12480,0x12543,33}}; {{0x12544,0x12f8f,0}};
   {{0x12f90,0x12ff2,33}}; {{0x12ff3,0x12fff,0}}; {{0x13000,0x1343f,33}}; {{0x13440,0x13440,112}};
   {{0x13441,0x13446,33}}; {{0x13447,0x13455,112}}; {{0x13456,0x1345f,0}}; {{0x13460,0x143fa,33}};
   {{0x143fb,0x143ff,0}}; {{0x14400,0x14646,33}}; {{0x14647,0x160ff,0}}; {{0x16100,0x1611d,33}};
   {{0x1611e,0x16129,112}}; {{0x1612a,0x1612c,33}}; {{0x1612d,0x1612f,112}}; {{0x16130,0x16139,33}};
   {{0x1613a,0x167ff,0}}; {{0x16800,0x16a38,33}}; {{0x16a39,0x16a3f,0}}; {{0x16a40,0x16a5e,33}};
   {{0x16a5f,0x16a5f,0}}; {{0x16a60,0x16a69,33}}; {{0x16a6a,0x16a6d,0}}; {{0x16a6e,0x16abe,33}};
   {{0x16abf,0x16abf,0}}; {{0x16ac0,0x16ac9,33}}; {{0x16aca,0x16acf,0}}; {{0x16ad0,0x16aed,33}};
   {{0x16aee,0x16aef,0}}; {{0x16af0,0x16af4,112}}].

(** contact_bidi16.h:1831-1980, [contact_bidi16_ranges], part 13 *)
Definition contact_bidi16_part13 : list ContactBidi16Range :=
  [{{0x16af5,0x16af5,33}}; {{0x16af6,0x16aff,0}}; {{0x16b00,0x16b2f,33}}; {{0x16b30,0x16b36,112}};
   {{0x16b37,0x16b45,33}}; {{0x16b46,0x16b4f,0}}; {{0x16b50,0x16b59,33}}; {{0x16b5a,0x16b5a,0}};
   {{0x16b5b,0x16b61,33}}; {{0x16b62,0x16b62,0}}; {{0x16b63,0x16b77,33}}; {{0x16b78,0x16b7c,0}};
   {{0x16b7d,0x16b8f,33}}; {{0x16b90,0x16d3f,0}}; {{0x16d40,0x16d79,33}}; {{0x16d7a,0x16e3f,0}};
   {{0x16e40,0x16e9a,33}}; {{0x16e9b,0x16eff,0}}; {{0x16f00,0x16f4a,33}}; {{0x16f4b,0x16f4e,0}};
   {{0x16f4f,0x16f4f,112}}; {{0x16f50,0x16f87,33}}; {{0x16f88,0x16f8e,0}}; {{0x16f8f,0x16f92,112}};
   {{0x16f93,0x16f9f,33}}; {{0x16fa0,0x16fdf,0}}; {{0x16fe0,0x16fe1,33}}; {{0x16fe2,0x16fe2,48}};
   {{0x16fe3,0x16fe3,33}}; {{0x16fe4,0x16fe4,112}}; {{0x16fe5,0x16fef,0}}; {{0x16ff0,0x16ff1,33}};
   {{0x16ff2,0x16fff,0}}; {{0x17000,0x187f7,33}}; {{0x187f8,0x187ff,0}}; {{0x18800,0x18cd5,33}};
   {{0x18cd6,0x18cfe,0}}; {{0x18cff,0x18d08,33}}; {{0x18d09,0x1afef,0}}; {{0x1aff0,0x1aff3,33}};
   {{0x1aff4,0x1aff4,0}}; {{0x1aff5,0x1affb,33}}; {{0x1affc,0x1affc,0}}; {{0x1affd,0x1affe,33}};
   {{0x1afff,0x1afff,0}}; {{0x1b000,0x1b122,33}}; {{0x1b123,0x1b131,0}}; {{0x1b132,0x1b132,33}};
   {{0x1b133,0x1b14f,0}}; {{0x1b150,0x1b152,33}}; {{0x1b153,0x1b154,0}}; {{0x1b155,0x1b155,33}};
   {{0x1b156,0x1b163,0}}; {{0x1b164,0x1b167,33}}; {{0x1b168,0x1b16f,0}}; {{0x1b170,0x1b2fb,33}};
   {{0x1b2fc,0x1bbff,0}}; {{0x1bc00,0x1bc6a,33}}; {{0x1bc6b,0x1bc6f,0}}; {{0x1bc70,0x1bc7c,33}};
   {{0x1bc7d,0x1bc7f,0}}; {{0x1bc80,0x1bc88,33}}; {{0x1bc89,0x1bc8f,0}}; {{0x1bc90,0x1bc99,33}};
   {{0x1bc9a,0x1bc9b,0}}; {{0x1bc9c,0x1bc9c,33}}; {{0x1bc9d,0x1bc9e,112}}; {{0x1bc9f,0x1bc9f,33}};
   {{0x1bca0,0x1bca3,48}}; {{0x1bca4,0x1cbff,0}}; {{0x1cc00,0x1ccd5,48}}; {{0x1ccd6,0x1ccef,33}};
   {{0x1ccf0,0x1ccf9,52}}; {{0x1ccfa,0x1ccff,0}}; {{0x1cd00,0x1ceb3,48}}; {{0x1ceb4,0x1ceff,0}};
   {{0x1cf00,0x1cf2d,112}}; {{0x1cf2e,0x1cf2f,0}}; {{0x1cf30,0x1cf46,112}}; {{0x1cf47,0x1cf4f,0}};
   {{0x1cf50,0x1cfc3,33}}; {{0x1cfc4,0x1cfff,0}}; {{0x1d000,0x1d0f5,33}}; {{0x1d0f6,0x1d0ff,0}};
   {{0x1d100,0x1d126,33}}; {{0x1d127,0x1d128,0}}; {{0x1d129,0x1d166,33}}; {{0x1d167,0x1d169,112}};
   {{0x1d16a,0x1d172,33}}; {{0x1d173,0x1d17a,48}}; {{0x1d17b,0x1d182,112}}; {{0x1d183,0x1d184,33}};
   {{0x1d185,0x1d18b,112}}; {{0x1d18c,0x1d1a9,33}}; {{0x1d1aa,0x1d1ad,112}}; {{0x1d1ae,0x1d1e8,33}};
   {{0x1d1e9,0x1d1ea,48}}; {{0x1d1eb,0x1d1ff,0}}; {{0x1d200,0x1d241,48}}; {{0x1d242,0x1d244,112}};
   {{0x1d245,0x1d245,48}}; {{0x1d246,0x1d2bf,0}}; {{0x1d2c0,0x1d2d3,33}}; {{0x1d2d4,0x1d2df,0}};
   {{0x1d2e0,0x1d2f3,33}}; {{0x1d2f4,0x1d2ff,0}}; {{0x1d300,0x1d356,48}}; {{0x1d357,0x1d35f,0}};
   {{0x1d360,0x1d378,33}}; {{0x1d379,0x1d3ff,0}}; {{0x1d400,0x1d454,33}}; {{0x1d455,0x1d455,0}};
   {{0x1d456,0x1d49c,33}}; {{0x1d49d,0x1d49d,0}}; {{0x1d49e,0x1d49f,33}}; {{0x1d4a0,0x1d4a1,0}};
   {{0x1d4a2,0x1d4a2,33}}; {{0x1d4a3,0x1d4a4,0}}; {{0x1d4a5,0x1d4a6,33}}; {{0x1d4a7,0x1d4a8,0}};
   {{0x1d4a9,0x1d4ac,33}}; {{0x1d4ad,0x1d4ad,0}}; {{0x1d4ae,0x1d4b9,33}}; {{0x1d4ba,0x1d4ba,0}};
   {{0x1d4bb,0x1d4bb,33}}; {{0x1d4bc,0x1d4bc,0}}; {{0x1d4bd,0x1d4c3,33}}; {{0x1d4c4,0x1d4c4,0}};
   {{0x1d4c5,0x1d505,33}}; {{0x1d506,0x1d506,0}}; {{0x1d507,0x1d50a,33}}; {{0x1d50b,0x1d50c,0}};
   {{0x1d50d,0x1d514,33}}; {{0x1d515,0x1d515,0}}; {{0x1d516,0x1d51c,33}}; {{0x1d51d,0x1d51d,0}};
   {{0x1d51e,0x1d539,33}}; {{0x1d53a,0x1d53a,0}}; {{0x1d53b,0x1d53e,33}}; {{0x1d53f,0x1d53f,0}};
   {{0x1d540,0x1d544,33}}; {{0x1d545,0x1d545,0}}; {{0x1d546,0x1d546,33}}; {{0x1d547,0x1d549,0}};
   {{0x1d54a,0x1d550,33}}; {{0x1d551,0x1d551,0}}; {{0x1d552,0x1d6a5,33}}; {{0x1d6a6,0x1d6a7,0}};
   {{0x1d6a8,0x1d6c0,33}}; {{0x1d6c1,0x1d6c1,48}}].

(** contact_bidi16.h:1981-2130, [contact_bidi16_ranges], part 14 *)
Definition contact_bidi16_part14 : list ContactBidi16Range :=
  [{{0x1d6c2,0x1d6da,33}}; {{0x1d6db,0x1d6db,48}}; {{0x1d6dc,0x1d6fa,33}}; {{0x1d6fb,0x1d6fb,48}};
   {{0x1d6fc,0x1d714,33}}; {{0x1d715,0x1d715,48}}; {{0x1d716,0x1d734,33}}; {{0x1d735,0x1d735,48}};
   {{0x1d736,0x1d74e,33}}; {{0x1d74f,0x1d74f,48}}; {{0x1d750,0x1d76e,33}}; {{0x1d76f,0x1d76f,48}};
   {{0x1d770,0x1d788,33}}; {{0x1d789,0x1d789,48}}; {{0x1d78a,0x1d7a8,33}}; {{0x1d7a9,0x1d7a9,48}};
   {{0x1d7aa,0x1d7c2,33}}; {{0x1d7c3,0x1d7c3,48}}; {{0x1d7c4,0x1d7cb,33}}; {{0x1d7cc,0x1d7cd,0}};
   {{0x1d7ce,0x1d7ff,52}}; {{0x1d800,0x1d9ff,33}}; {{0x1da00,0x1da36,112}}; {{0x1da37,0x1da3a,33}};
   {{0x1da3b,0x1da6c,112}}; {{0x1da6d,0x1da74,33}}; {{0x1da75,0x1da75,112}}; {{0x1da76,0x1da83,33}};
   {{0x1da84,0x1da84,112}}; {{0x1da85,0x1da8b,33}}; {{0x1da8c,0x1da9a,0}}; {{0x1da9b,0x1da9f,112}};
   {{0x1daa0,0x1daa0,0}}; {{0x1daa1,0x1daaf,112}}; {{0x1dab0,0x1deff,0}}; {{0x1df00,0x1df1e,33}};
   {{0x1df1f,0x1df24,0}}; {{0x1df25,0x1df2a,33}}; {{0x1df2b,0x1dfff,0}}; {{0x1e000,0x1e006,112}};
   {{0x1e007,0x1e007,0}}; {{0x1e008,0x1e018,112}}; {{0x1e019,0x1e01a,0}}; {{0x1e01b,0x1e021,112}};
   {{0x1e022,0x1e022,0}}; {{0x1e023,0x1e024,112}}; {{0x1e025,0x1e025,0}}; {{0x1e026,0x1e02a,112}};
   {{0x1e02b,0x1e02f,0}}; {{0x1e030,0x1e06d,33}}; {{0x1e06e,0x1e08e,0}}; {{0x1e08f,0x1e08f,112}};
   {{0x1e090,0x1e0ff,0}}; {{0x1e100,0x1e12c,33}}; {{0x1e12d,0x1e12f,0}}; {{0x1e130,0x1e136,112}};
   {{0x1e137,0x1e13d,33}}; {{0x1e13e,0x1e13f,0}}; {{0x1e140,0x1e149,33}}; {{0x1e14a,0x1e14d,0}};
   {{0x1e14e,0x1e14f,33}}; {{0x1e150,0x1e28f,0}}; {{0x1e290,0x1e2ad,33}}; {{0x1e2ae,0x1e2ae,112}};
   {{0x1e2af,0x1e2bf,0}}; {{0x1e2c0,0x1e2eb,33}}; {{0x1e2ec,0x1e2ef,112}}; {{0x1e2f0,0x1e2f9,33}};
   {{0x1e2fa,0x1e2fe,0}}; {{0x1e2ff,0x1e2ff,48}}; {{0x1e300,0x1e4cf,0}}; {{0x1e4d0,0x1e4eb,33}};
   {{0x1e4ec,0x1e4ef,112}}; {{0x1e4f0,0x1e4f9,33}}; {{0x1e4fa,0x1e5cf,0}}; {{0x1e5d0,0x1e5ed,33}};
   {{0x1e5ee,0x1e5ef,112}}; {{0x1e5f0,0x1e5fa,33}}; {{0x1e5fb,0x1e5fe,0}}; {{0x1e5ff,0x1e5ff,33}};
   {{0x1e600,0x1e7df,0}}; {{0x1e7e0,0x1e7e6,33}}; {{0x1e7e7,0x1e7e7,0}}; {{0x1e7e8,0x1e7eb,33}};
   {{0x1e7ec,0x1e7ec,0}}; {{0x1e7ed,0x1e7ee,33}}; {{0x1e7ef,0x1e7ef,0}}; {{0x1e7f0,0x1e7fe,33}};
   {{0x1e7ff,0x1e7ff,0}}; {{0x1e800,0x1e8c4,18}}; {{0x1e8c5,0x1e8c6,0}}; {{0x1e8c7,0x1e8cf,18}};
   {{0x1e8d0,0x1e8d6,112}}; {{0x1e8d7,0x1e8ff,0}}; {{0x1e900,0x1e943,18}}; {{0x1e944,0x1e94a,112}};
   {{0x1e94b,0x1e94b,18}}; {{0x1e94c,0x1e94f,0}}; {{0x1e950,0x1e959,18}}; {{0x1e95a,0x1e95d,0}};
   {{0x1e95e,0x1e95f,18}}; {{0x1e960,0x1ec70,0}}; {{0x1ec71,0x1ecb4,18}}; {{0x1ecb5,0x1ed00,0}};
   {{0x1ed01,0x1ed3d,18}}; {{0x1ed3e,0x1edff,0}}; {{0x1ee00,0x1ee03,18}}; {{0x1ee04,0x1ee04,0}};
   {{0x1ee05,0x1ee1f,18}}; {{0x1ee20,0x1ee20,0}}; {{0x1ee21,0x1ee22,18}}; {{0x1ee23,0x1ee23,0}};
   {{0x1ee24,0x1ee24,18}}; {{0x1ee25,0x1ee26,0}}; {{0x1ee27,0x1ee27,18}}; {{0x1ee28,0x1ee28,0}};
   {{0x1ee29,0x1ee32,18}}; {{0x1ee33,0x1ee33,0}}; {{0x1ee34,0x1ee37,18}}; {{0x1ee38,0x1ee38,0}};
   {{0x1ee39,0x1ee39,18}}; {{0x1ee3a,0x1ee3a,0}}; {{0x1ee3b,0x1ee3b,18}}; {{0x1ee3c,0x1ee41,0}};
   {{0x1ee42,0x1ee42,18}}; {{0x1ee43,0x1ee46,0}}; {{0x1ee47,0x1ee47,18}}; {{0x1ee48,0x1ee48,0}};
   {{0x1ee49,0x1ee49,18}}; {{0x1ee4a,0x1ee4a,0}}; {{0x1ee4b,0x1ee4b,18}}; {{0x1ee4c,0x1ee4c,0}};
   {{0x1ee4d,0x1ee4f,18}}; {{0x1ee50,0x1ee50,0}}; {{0x1ee51,0x1ee52,18}}; {{0x1ee53,0x1ee53,0}};
   {{0x1ee54,0x1ee54,18}}; {{0x1ee55,0x1ee56,0}}; {{0x1ee57,0x1ee57,18}}; {{0x1ee58,0x1ee58,0}};
   {{0x1ee59,0x1ee59,18}}; {{0x1ee5a,0x1ee5a,0}}; {{0x1ee5b,0x1ee5b,18}}; {{0x1ee5c,0x1ee5c,0}};
   {{0x1ee5d,0x1ee5d,18}}; {{0x1ee5e,0x1ee5e,0}}; {{0x1ee5f,0x1ee5f,18}}; {{0x1ee60,0x1ee60,0}};
   {{0x1ee61,0x1ee62,18}}; {{0x1ee63,0x1ee63,0}}].

(** contact_bidi16.h:2131-2262, [contact_bidi16_ranges], part 15 *)
Definition contact_bidi16_part15 : list ContactBidi16Range :=
  [{{0x1ee64,0x1ee64,18}}; {{0x1ee65,0x1ee66,0}}; {{0x1ee67,0x1ee6a,18}}; {{0x1ee6b,0x1ee6b,0}};
   {{0x1ee6c,0x1ee72,18}}; {{0x1ee73,0x1ee73,0}}; {{0x1ee74,0x1ee77,18}}; {{0x1ee78,0x1ee78,0}};
   {{0x1ee79,0x1ee7c,18}}; {{0x1ee7d,0x1ee7d,0}}; {{0x1ee7e,0x1ee7e,18}}; {{0x1ee7f,0x1ee7f,0}};
   {{0x1ee80,0x1ee89,18}}; {{0x1ee8a,0x1ee8a,0}}; {{0x1ee8b,0x1ee9b,18}}; {{0x1ee9c,0x1eea0,0}};
   {{0x1eea1,0x1eea3,18}}; {{0x1eea4,0x1eea4,0}}; {{0x1eea5,0x1eea9,18}}; {{0x1eeaa,0x1eeaa,0}};
   {{0x1eeab,0x1eebb,18}}; {{0x1eebc,0x1eeef,0}}; {{0x1eef0,0x1eef1,48}}; {{0x1eef2,0x1efff,0}};
   {{0x1f000,0x1f02b,48}}; {{0x1f02c,0x1f02f,0}}; {{0x1f030,0x1f093,48}}; {{0x1f094,0x1f09f,0}};
   {{0x1f0a0,0x1f0ae,48}}; {{0x1f0af,0x1f0b0,0}}; {{0x1f0b1,0x1f0bf,48}}; {{0x1f0c0,0x1f0c0,0}};
   {{0x1f0c1,0x1f0cf,48}}; {{0x1f0d0,0x1f0d0,0}}; {{0x1f0d1,0x1f0f5,48}}; {{0x1f0f6,0x1f0ff,0}};
   {{0x1f100,0x1f10a,52}}; {{0x1f10b,0x1f10f,48}}; {{0x1f110,0x1f12e,33}}; {{0x1f12f,0x1f12f,48}};
   {{0x1f130,0x1f169,33}}; {{0x1f16a,0x1f16f,48}}; {{0x1f170,0x1f1ac,33}}; {{0x1f1ad,0x1f1ad,48}};
   {{0x1f1ae,0x1f1e5,0}}; {{0x1f1e6,0x1f202,33}}; {{0x1f203,0x1f20f,0}}; {{0x1f210,0x1f23b,33}};
   {{0x1f23c,0x1f23f,0}}; {{0x1f240,0x1f248,33}}; {{0x1f249,0x1f24f,0}}; {{0x1f250,0x1f251,33}};
   {{0x1f252,0x1f25f,0}}; {{0x1f260,0x1f265,48}}; {{0x1f266,0x1f2ff,0}}; {{0x1f300,0x1f6d7,48}};
   {{0x1f6d8,0x1f6db,0}}; {{0x1f6dc,0x1f6ec,48}}; {{0x1f6ed,0x1f6ef,0}}; {{0x1f6f0,0x1f6fc,48}};
   {{0x1f6fd,0x1f6ff,0}}; {{0x1f700,0x1f776,48}}; {{0x1f777,0x1f77a,0}}; {{0x1f77b,0x1f7d9,48}};
   {{0x1f7da,0x1f7df,0}}; {{0x1f7e0,0x1f7eb,48}}; {{0x1f7ec,0x1f7ef,0}}; {{0x1f7f0,0x1f7f0,48}};
   {{0x1f7f1,0x1f7ff,0}}; {{0x1f800,0x1f80b,48}}; {{0x1f80c,0x1f80f,0}}; {{0x1f810,0x1f847,48}};
   {{0x1f848,0x1f84f,0}}; {{0x1f850,0x1f859,48}}; {{0x1f85a,0x1f85f,0}}; {{0x1f860,0x1f887,48}};
   {{0x1f888,0x1f88f,0}}; {{0x1f890,0x1f8ad,48}}; {{0x1f8ae,0x1f8af,0}}; {{0x1f8b0,0x1f8bb,48}};
   {{0x1f8bc,0x1f8bf,0}}; {{0x1f8c0,0x1f8c1,48}}; {{0x1f8c2,0x1f8ff,0}}; {{0x1f900,0x1fa53,48}};
   {{0x1fa54,0x1fa5f,0}}; {{0x1fa60,0x1fa6d,48}}; {{0x1fa6e,0x1fa6f,0}}; {{0x1fa70,0x1fa7c,48}};
   {{0x1fa7d,0x1fa7f,0}}; {{0x1fa80,0x1fa89,48}}; {{0x1fa8a,0x1fa8e,0}}; {{0x1fa8f,0x1fac6,48}};
   {{0x1fac7,0x1facd,0}}; {{0x1face,0x1fadc,48}}; {{0x1fadd,0x1fade,0}}; {{0x1fadf,0x1fae9,48}};
   {{0x1faea,0x1faef,0}}; {{0x1faf0,0x1faf8,48}}; {{0x1faf9,0x1faff,0}}; {{0x1fb00,0x1fb92,48}};
   {{0x1fb93,0x1fb93,0}}; {{0x1fb94,0x1fbef,48}}; {{0x1fbf0,0x1fbf9,52}}; {{0x1fbfa,0x1ffff,0}};
   {{0x20000,0x2a6df,33}}; {{0x2a6e0,0x2a6ff,0}}; {{0x2a700,0x2b739,33}}; {{0x2b73a,0x2b73f,0}};
   {{0x2b740,0x2b81d,33}}; {{0x2b81e,0x2b81f,0}}; {{0x2b820,0x2cea1,33}}; {{0x2cea2,0x2ceaf,0}};
   {{0x2ceb0,0x2ebe0,33}}; {{0x2ebe1,0x2ebef,0}}; {{0x2ebf0,0x2ee5d,33}}; {{0x2ee5e,0x2f7ff,0}};
   {{0x2f800,0x2fa1d,33}}; {{0x2fa1e,0x2ffff,0}}; {{0x30000,0x3134a,33}}; {{0x3134b,0x3134f,0}};
   {{0x31350,0x323af,33}}; {{0x323b0,0xe0000,0}}; {{0xe0001,0xe0001,48}}; {{0xe0002,0xe001f,0}};
   {{0xe0020,0xe007f,48}}; {{0xe0080,0xe00ff,0}}; {{0xe0100,0xe01ef,112}}; {{0xe01f0,0xeffff,0}};
   {{0xf0000,0xffffd,33}}; {{0xffffe,0xfffff,0}}; {{0x100000,0x10fffd,33}}; {{0x10fffe,0x10ffff,0}}].

(** contact_bidi16.h:30-2263, [contact_bidi16_ranges] *)
Definition contact_bidi16_ranges : list ContactBidi16Range :=
  contact_bidi16_part1 ++ contact_bidi16_part2 ++ contact_bidi16_part3 ++ contact_bidi16_part4 ++ contact_bidi16_part5 ++ contact_bidi16_part6 ++ contact_bidi16_part7 ++ contact_bidi16_part8 ++ contact_bidi16_part9 ++ contact_bidi16_part10 ++ contact_bidi16_part11 ++ contact_bidi16_part12 ++ contact_bidi16_part13 ++ contact_bidi16_part14 ++ contact_bidi16_part15.
