(* ===== verification/ContactOrigin.v ===== *)
(** * ContactOrigin: is a string a contact's origin (contact_origin.cpp)

    [zrotext_contact_origin_v1] accepts a string only if it is printable ASCII
    of 9 to 512 bytes that the URL parser reads back, byte for byte, as an https
    origin whose host satisfies the Bidi rule of RFC 5893.  The parser (Ada) is
    not part of the repository and is a parameter: its parse function and its
    punycode decoder.  A C++ exception counts as a failed parse.

    Characters of a host are ASCII, as the parser promises; a code point is its
    number. *)

From stdpp Require Import sets strings.
From S2P Require Import Prelude BidiTable.

(** contact_origin.cpp:11 *)
Notation Ltr := (1)%Z (only parsing).
(** contact_origin.cpp:11 *)
Notation Rtl := (2)%Z (only parsing).
(** contact_origin.cpp:11 *)
Notation European := (4)%Z (only parsing).
(** contact_origin.cpp:11 *)
Notation Arabic := (8)%Z (only parsing).
(** contact_origin.cpp:11 *)
Notation AllowRtl := (16)%Z (only parsing).
(** contact_origin.cpp:11 *)
Notation AllowLtr := (32)%Z (only parsing).
(** contact_origin.cpp:11 *)
Notation Nonspacing := (64)%Z (only parsing).

Definition nil_range : ContactBidi16Range := {| first := 0; last := 0; flags := 0 |}.

(** Element [i] of the table. *)
Definition range_at (t : list ContactBidi16Range) (i : Z) : ContactBidi16Range := nth (Z.to_nat i) t nil_range.

(** contact_origin.cpp:14-15, [bidi_flags]: the binary search. *)
Fixpoint search (fuel : nat) (t : list ContactBidi16Range) (code low high : Z) : Z :=
  match fuel with
  | O => low
  | S fuel =>
    if low <? high then
      let middle := low + (high - low) / 2 in
      if last (range_at t middle) <? code then search fuel t code (middle + 1) high
      else search fuel t code low middle
    else low
  end.

(** The body of [bidi_flags], on any table. *)
Definition bidi_flags_in (t : list ContactBidi16Range) (code : Z) : Z :=
  let low := search (S (length t)) t code 0 (len t) in
  if (low <? len t) && (first (range_at t low) <=? code) then flags (range_at t low) else 0.

(** contact_origin.cpp:13-17, [bidi_flags] *)
Definition bidi_flags : Z -> Z := bidi_flags_in contact_bidi16_ranges.

(** [flags & mask] is not zero. *)
Definition has (f mask : Z) : bool := negb (Z.land f mask =? 0).

(** contact_origin.cpp:38-43, [valid_bidi_host]: one character of a label;
    [final], [european] and [arabic] are the loop's variables. *)
Definition char_step (fl : Z -> Z) (rtl : bool) (st : option (Z * bool * bool)) (code : Z) : option (Z * bool * bool) :=
  match st with
  | None => None
  | Some (final, european, arabic) =>
    let f := fl code in
    if negb (has f (if rtl then AllowRtl else AllowLtr)) then None
    else Some (if negb (has f Nonspacing) then f else final, european || has f European, arabic || has f Arabic)
  end.

(** contact_origin.cpp:34-44, [valid_bidi_host]: one label. *)
Definition label_ok (fl : Z -> Z) (label : list Z) : bool :=
  match label with
  | [] => true
  | front :: _ =>
    let rtl := has (fl front) Rtl in
    if negb rtl && negb (has (fl front) Ltr) then false
    else match foldl (char_step fl rtl) (Some (0, false, false)) label with
    | None => false
    | Some (final, european, arabic) =>
      negb (negb (has final (if rtl then Z.lor (Z.lor Rtl European) Arabic else Z.lor Ltr European)) ||
            (rtl && european && arabic))
    end
  end.

(** [host.find(c, start)] and [host.find(s)]: the first position, if any. *)
Fixpoint find_char (c : Z) (l : list Z) (i : Z) : option Z :=
  match l with
  | [] => None
  | x :: l => if x =? c then Some i else find_char c l (i + 1)
  end.

Fixpoint starts_with (p l : list Z) : bool :=
  match p, l with
  | [], _ => true
  | a :: p, b :: l => (a =? b) && starts_with p l
  | _, [] => false
  end.

Fixpoint contains (p l : list Z) : bool :=
  starts_with p l || match l with [] => false | _ :: l => contains p l end.

Definition dot := 0x2e.

(** The four characters of the prefix of an encoded label. *)
Definition xn : list Z := [0x78; 0x6e; 0x2d; 0x2d].

Section Ada.
(** The parser: punycode to code points; a parsed URL, field by field. *)
Record url := {
  get_protocol : list Z; get_origin : list Z; get_hostname : list Z; get_username : list Z;
  get_password : list Z; get_pathname : list Z; get_search : list Z; get_hash : list Z;
}.
Context (punycode_to_utf32 : list Z -> option (list Z)) (parse : list Z -> option url).

(** contact_origin.cpp:24-26, [valid_bidi_host]: decode a label. *)
Definition decode (label : list Z) : option (list Z) :=
  if starts_with xn label then punycode_to_utf32 (drop 4 label) else Some label.

(** contact_origin.cpp:20-31, [valid_bidi_host]: the labels and whether any of them
    is right-to-left; [None] when a label does not decode. *)
Fixpoint collect (fl : Z -> Z) (fuel : nat) (host : list Z) (start : Z) (labels : list (list Z)) (directional : bool)
    : option (list (list Z) * bool) :=
  match fuel with
  | O => Some (labels, directional)
  | S fuel =>
    if start <=? len host then
      let end_ := find_char dot (drop (Z.to_nat start) host) start in
      let label := match end_ with
                   | None => sub host start (len host - start)
                   | Some e => sub host start (e - start)
                   end in
      match decode label with
      | None => None
      | Some decoded =>
        let directional := foldl (fun d code => d || has (fl code) (Z.lor Rtl Arabic)) directional decoded in
        let labels := labels ++ [decoded] in
        match end_ with
        | None => Some (labels, directional)
        | Some e => collect fl fuel host (e + 1) labels directional
        end
      end
    else Some (labels, directional)
  end.

(** contact_origin.cpp:18-47, [valid_bidi_host] *)
Definition valid_bidi_host (host : list Z) : bool :=
  if negb (contains xn host) then true
  else match collect bidi_flags (S (length host)) host 0 [] false with
  | None => false
  | Some (labels, directional) => if negb directional then true else forallb (label_ok bidi_flags) labels
  end.

(** The strings the fields are compared with. *)
Definition https : list Z := [0x68; 0x74; 0x74; 0x70; 0x73; 0x3a].
Definition slash : list Z := [0x2f].

(** contact_origin.cpp:53-65, [zrotext_contact_origin_v1]; [bytes] is NULL or at
    least [size] characters. *)
Definition zrotext_contact_origin_v1 (bytes : option (list Z)) (size : Z) : Z :=
  match bytes with
  | None => 0
  | Some b =>
    if (size <? 9) || (512 <? size) then 0
    else
      let input := take (Z.to_nat size) b in
      if existsb (fun c => (c <? 0x21) || (0x7e <? c)) input then 0
      else
        match parse input with
        | None => 0
        | Some u =>
          Z.b2z (bool_decide (get_protocol u = https) && bool_decide (get_origin u = input) &&
                 valid_bidi_host (get_hostname u) && bool_decide (get_username u = []) &&
                 bool_decide (get_password u = []) && bool_decide (get_pathname u = slash) &&
                 bool_decide (get_search u = []) && bool_decide (get_hash u = []))
        end
  end.
End Ada.

(** ** The search *)

(** A table of disjoint ranges in ascending order. *)
Fixpoint ascending (lo : Z) (t : list ContactBidi16Range) : bool :=
  match t with
  | [] => true
  | r :: t => (lo <=? first r) && (first r <=? last r) && ascending (last r + 1) t
  end.

Lemma table_ascending : ascending 0 contact_bidi16_ranges = true.
Proof. vm_compute. reflexivity. Qed.

(** The reference: the range that contains the code point. *)
Definition range_of (t : list ContactBidi16Range) (code : Z) : option ContactBidi16Range :=
  snd <$> list_find (fun r => first r <= code <= last r) t.

Section Search.
Context (t : list ContactBidi16Range) (code : Z).

(** Where the search ends: everything before lies below, the rest does not. *)
Definition found (i : Z) : Prop :=
  0 <= i <= len t /\ (forall j, 0 <= j < i -> last (range_at t j) < code) /\
  (forall j, i <= j < len t -> code <= last (range_at t j)).

Hypothesis Hasc : forall i j, 0 <= i < j -> j < len t -> last (range_at t i) < first (range_at t j).
Hypothesis Hrng : forall i, 0 <= i < len t -> first (range_at t i) <= last (range_at t i).

Lemma last_mono i j : 0 <= i <= j -> j < len t -> last (range_at t i) <= last (range_at t j).
Proof.
  intros Hi Hj. destruct (decide (i = j)) as [->|]; [lia|]. pose proof (Hasc i j ltac:(lia) Hj). pose proof (Hrng j ltac:(lia)). lia.
Qed.

Lemma search_spec fuel low high : 0 <= low <= high -> high <= len t -> high - low < Z.of_nat fuel ->
  (forall j, 0 <= j < low -> last (range_at t j) < code) -> (forall j, high <= j < len t -> code <= last (range_at t j)) ->
  found (search fuel t code low high).
Proof.
  revert low high. induction fuel as [|fuel IH]; intros low high Hl Hh Hf Hb Ha; cbn [search]; [lia|].
  destruct (Z.ltb_spec low high); [|assert (low = high) as <- by lia; by repeat split; try lia; auto].
  pose proof (Z.div_mod (high - low) 2 ltac:(lia)). pose proof (Z.mod_pos_bound (high - low) 2 ltac:(lia)).
  set (m := low + (high - low) / 2) in *. destruct (Z.ltb_spec (last (range_at t m)) code).
  - apply IH; try lia; [|done]. intros j Hj. destruct (decide (j < low)); [apply Hb; lia|].
    pose proof (last_mono j m ltac:(lia) ltac:(lia)). lia.
  - apply IH; try lia; [done|]. intros j Hj. pose proof (last_mono m j ltac:(lia) ltac:(lia)). lia.
Qed.

Lemma range_at_lookup (i : nat) r : t !! i = Some r -> range_at t (Z.of_nat i) = r /\ Z.of_nat i < len t.
Proof.
  intros Hi. unfold range_at, len. rewrite Nat2Z.id, nth_lookup, Hi. split; [done|]. apply lookup_lt_Some in Hi. lia.
Qed.

Lemma lookup_range_at i : 0 <= i < len t -> t !! Z.to_nat i = Some (range_at t i).
Proof.
  intros Hi. unfold len in Hi. destruct (lookup_lt_is_Some_2 t (Z.to_nat i) ltac:(lia)) as [r Hr]. rewrite Hr.
  destruct (range_at_lookup _ _ Hr) as [E _]. rewrite Z2Nat.id in E by lia. by rewrite E.
Qed.

Lemma flags_spec : bidi_flags_in t code = match range_of t code with Some r => flags r | None => 0 end.
Proof.
  unfold bidi_flags_in. pose proof (len_nonneg t).
  destruct (search_spec (S (length t)) 0 (len t)) as (Hi & Hbelow & Habove); try lia; [unfold len; lia|].
  set (i := search _ t code 0 (len t)) in *. unfold range_of.
  destruct (Z.ltb_spec i (len t)) as [Hlt|Hge]; cbn [andb]; [destruct (Z.leb_spec (first (range_at t i)) code) as [Hf|Hf]|].
  - rewrite (proj2 (list_find_Some _ _ (Z.to_nat i) (range_at t i))); [done|]. split; [apply lookup_range_at; lia|].
    split; [split; [done|apply Habove; lia]|]. intros j y Hj Hlt' [_ Hy]. destruct (range_at_lookup j y Hj) as [<- Hjl].
    pose proof (Hbelow (Z.of_nat j) ltac:(lia)). lia.
  - rewrite (proj2 (list_find_None _ _)); [done|]. apply Forall_lookup. intros j y Hj [Hy1 Hy2].
    destruct (range_at_lookup j y Hj) as [<- Hjl]. destruct (Z.lt_trichotomy (Z.of_nat j) i) as [Hc|[Hc|Hc]].
    + pose proof (Hbelow (Z.of_nat j) ltac:(lia)). lia.
    + rewrite Hc in Hy1. lia.
    + pose proof (Hasc i (Z.of_nat j) ltac:(lia) Hjl). pose proof (Habove i ltac:(lia)). lia.
  - rewrite (proj2 (list_find_None _ _)); [done|]. apply Forall_lookup. intros j y Hj [_ Hy2].
    destruct (range_at_lookup j y Hj) as [<- Hjl]. pose proof (Hbelow (Z.of_nat j) ltac:(lia)). lia.
Qed.
End Search.

Lemma range_at_cons r t i : 0 < i -> range_at (r :: t) i = range_at t (i - 1).
Proof. intros Hi. unfold range_at. replace (Z.to_nat i) with (S (Z.to_nat (i - 1))) by lia. done. Qed.

Lemma ascending_spec t : forall lo, ascending lo t = true ->
  (forall i, 0 <= i < len t -> lo <= first (range_at t i) <= last (range_at t i)) /\
  (forall i j, 0 <= i < j -> j < len t -> last (range_at t i) < first (range_at t j)).
Proof.
  induction t as [|r t IH]; intros lo Ha.
  - change (len []) with 0. split; intros; lia.
  - cbn [ascending] in Ha. apply andb_true_iff in Ha as [[H1 H2]%andb_true_iff H3]. destruct (IH _ H3) as [IH1 IH2].
    rewrite len_cons. split.
    + intros i Hi. destruct (decide (i = 0)) as [->|]; [change (range_at (r :: t) 0) with r; lia|]. rewrite range_at_cons by lia. specialize (IH1 (i - 1) ltac:(lia)). lia.
    + intros i j Hi Hj. rewrite (range_at_cons r t j) by lia. destruct (decide (i = 0)) as [->|].
      * specialize (IH1 (j - 1) ltac:(lia)). change (range_at (r :: t) 0) with r. lia.
      * rewrite range_at_cons by lia. apply IH2; lia.
Qed.

(** The binary search finds what a scan of the table finds: for every code
    point [bidi_flags] gives the flags of the one range that contains it, and 0
    when there is none. *)
Theorem bidi_flags_spec code :
  bidi_flags code = match range_of contact_bidi16_ranges code with Some r => flags r | None => 0 end.
Proof.
  destruct (ascending_spec _ 0 table_ascending) as [H1 H2]. apply flags_spec; [exact H2|].
  intros i Hi. apply H1. done.
Qed.

(** ** The Bidi rule of RFC 5893 *)

Module Rfc5893.

(** The classes the rule tells apart: left-to-right; right-to-left (R, AL);
    Arabic numbers; European numbers; the neutral ones it allows everywhere (ES,
    CS, ET, ON, BN); nonspacing marks; all others. *)
Inductive bidi_class := L | R_AL | AN | EN | Neutral | NSM | Other.

#[global] Instance bidi_class_eq_dec : EqDecision bidi_class.
Proof. solve_decision. Defined.

Section Rule.
Context (cl : Z -> bidi_class).   (* the class of a code point *)

(** A label that ends in a character of [cs], followed by nonspacing marks. *)
Definition ends_in (cs : list bidi_class) (label : list Z) : Prop :=
  exists pre c marks, label = pre ++ c :: marks /\ cl c ∈ cs /\ Forall (fun m => cl m = NSM) marks.

(** Section 2, rules 1 to 4. *)
Definition rtl_label (label : list Z) : Prop :=
  (exists c rest, label = c :: rest /\ cl c = R_AL) /\
  Forall (fun c => cl c ∈ [R_AL; AN; EN; Neutral; NSM]) label /\
  ends_in [R_AL; EN; AN] label /\
  ~ ((exists c, c ∈ label /\ cl c = EN) /\ exists c, c ∈ label /\ cl c = AN).

(** Section 2, rules 1, 5 and 6. *)
Definition ltr_label (label : list Z) : Prop :=
  (exists c rest, label = c :: rest /\ cl c = L) /\
  Forall (fun c => cl c ∈ [L; EN; Neutral; NSM]) label /\
  ends_in [L; EN] label.

Definition bidi_rule (label : list Z) : Prop := rtl_label label \/ ltr_label label.

(** Section 1.4: a domain name with a right-to-left label. *)
Definition rtl_char (c : Z) : Prop := cl c = R_AL \/ cl c = AN.
End Rule.
End Rfc5893.

Import Rfc5893.

(** The flags of a class. *)
Definition flags_of (k : bidi_class) : Z :=
  match k with L => 33 | R_AL => 18 | AN => 24 | EN => 52 | Neutral => 48 | NSM => 112 | Other => 0 end.

Definition class_of_flags (f : Z) : bidi_class :=
  if f =? 33 then L else if f =? 18 then R_AL else if f =? 24 then AN else if f =? 52 then EN
  else if f =? 48 then Neutral else if f =? 112 then NSM else Other.

(** The class the table gives a code point. *)
Definition class_of (code : Z) : bidi_class := class_of_flags (bidi_flags code).

Lemma table_flags : forallb (fun r => flags r =? flags_of (class_of_flags (flags r))) contact_bidi16_ranges = true.
Proof. vm_compute. reflexivity. Qed.

Lemma flags_class code : bidi_flags code = flags_of (class_of code).
Proof.
  unfold class_of. destruct (ascending_spec _ 0 table_ascending) as [H1 H2].
  assert (bidi_flags code = match range_of contact_bidi16_ranges code with Some r => flags r | None => 0 end) as E
    by (apply flags_spec; [exact H2|intros i Hi; by apply H1]).
  rewrite E. unfold range_of. destruct (list_find _ contact_bidi16_ranges) as [[i r]|] eqn:Ef; [|done]. cbn [fmap option_fmap option_map snd].
  apply list_find_Some in Ef as (Hi & _ & _). pose proof table_flags as Ht.
  apply (proj1 (forallb_forall _ _)) with (x := r) in Ht; [by apply Z.eqb_eq|]. apply list_elem_of_In. by eapply list_elem_of_lookup_2.
Qed.

(** ** Labels *)

Section Labels.
Context (fl : Z -> Z) (cl : Z -> bidi_class) (Hfl : forall c, fl c = flags_of (cl c)).

Definition allowed (rtl : bool) (k : bidi_class) : bool :=
  match k with L => negb rtl | R_AL | AN => rtl | EN | Neutral | NSM => true | Other => false end.

(** What the loop over a label knows after the characters [l]. *)
Record scanned (rtl : bool) (l : list Z) (final : Z) (european arabic : bool) : Prop := {
  sc_allowed : Forall (fun c => allowed rtl (cl c) = true) l;
  sc_final : (final = 0 /\ Forall (fun c => cl c = NSM) l) \/
             exists pre c marks, l = pre ++ c :: marks /\ cl c <> NSM /\ final = fl c /\ Forall (fun m => cl m = NSM) marks;
  sc_en : european = true <-> exists c, c ∈ l /\ cl c = EN;
  sc_an : arabic = true <-> exists c, c ∈ l /\ cl c = AN }.

Lemma has_allow (rtl : bool) c : has (fl c) (if rtl then AllowRtl else AllowLtr) = allowed rtl (cl c).
Proof. rewrite Hfl. by destruct rtl, (cl c). Qed.

Lemma scan_step rtl l final european arabic c : scanned rtl l final european arabic -> allowed rtl (cl c) = true ->
  scanned rtl (l ++ [c]) (if negb (has (fl c) Nonspacing) then fl c else final) (european || has (fl c) European) (arabic || has (fl c) Arabic).
Proof.
  intros [H1 H2 H3 H4] Ha. split.
  - apply Forall_app. auto.
  - assert (has (fl c) Nonspacing = bool_decide (cl c = NSM)) as -> by (rewrite Hfl; by destruct (cl c)).
    destruct (bool_decide_reflect (cl c = NSM)) as [Hn|Hn]; cbn [negb].
    + destruct H2 as [[-> H2]|(pre & x & marks & -> & Hx & -> & Hm)]; [left; split; [done|apply Forall_app; auto]|].
      right. exists pre, x, (marks ++ [c]). rewrite <-app_assoc. repeat split; try done. apply Forall_app. auto.
    + right. by exists l, c, [].
  - assert (has (fl c) European = bool_decide (cl c = EN)) as -> by (rewrite Hfl; by destruct (cl c)).
    rewrite orb_true_iff, H3, bool_decide_eq_true. setoid_rewrite elem_of_app. setoid_rewrite list_elem_of_singleton. naive_solver.
  - assert (has (fl c) Arabic = bool_decide (cl c = AN)) as -> by (rewrite Hfl; by destruct (cl c)).
    rewrite orb_true_iff, H4, bool_decide_eq_true. setoid_rewrite elem_of_app. setoid_rewrite list_elem_of_singleton. naive_solver.
Qed.

Lemma scan_spec rtl l :
  match foldl (char_step fl rtl) (Some (0, false, false)) l with
  | Some (final, european, arabic) => scanned rtl l final european arabic
  | None => ~ Forall (fun c => allowed rtl (cl c) = true) l
  end.
Proof.
  induction l as [|c l IH] using rev_ind; cbn [foldl].
  - split; [done|by left|set_solver|set_solver].
  - rewrite foldl_snoc. destruct (foldl _ _ l) as [[[final european] arabic]|]; cbn [char_step].
    + rewrite has_allow. destruct (allowed rtl (cl c)) eqn:Ea; cbn [negb]; [by apply scan_step|].
      intros [_ Hc]%Forall_app. apply Forall_cons_1 in Hc as [Hc _]. congruence.
    + intros [H _]%Forall_app. done.
Qed.

Lemma marks_filtered (marks : list Z) : Forall (fun m => cl m = NSM) marks -> filter (fun x => cl x <> NSM) marks = [].
Proof. induction 1 as [|m marks Hm _ IH]; [done|]. by rewrite filter_cons_False by naive_solver. Qed.

Lemma ends_in_final rtl l final european arabic (cs : list bidi_class) mask : scanned rtl l final european arabic -> NSM ∉ cs ->
  (forall k, has (flags_of k) mask = bool_decide (k ∈ cs)) -> (has final mask = true <-> ends_in cl cs l).
Proof.
  intros [_ Hf _ _] Hn Hmask. split.
  - destruct Hf as [[-> _]|(pre & c & marks & -> & Hc & -> & Hm)]; [|rewrite Hfl, Hmask, bool_decide_eq_true; intros Hin; by exists pre, c, marks].
    specialize (Hmask Other). cbn in Hmask. intros Hh. unfold has in Hh. rewrite Z.land_0_l in Hh. done.
  - intros (pre & c & marks & E & Hc & Hm). destruct Hf as [[_ Hall]|(pre' & c' & marks' & E' & Hc' & -> & Hm')].
    + rewrite E in Hall. apply Forall_app in Hall as [_ Hall]. apply Forall_cons_1 in Hall as [Hx _]. rewrite Hx in Hc. done.
    + assert (c' = c) as ->; [|by rewrite Hfl, Hmask, bool_decide_eq_true].
      rewrite E in E'. apply (f_equal (filter (fun x => cl x <> NSM))) in E'. rewrite !list.filter_app, !filter_cons_True in E' by (done || congruence).
      rewrite (marks_filtered marks Hm), (marks_filtered marks' Hm') in E'. by apply app_inj_tail in E' as [_ ->].
Qed.

(** The two kinds of label. *)
Lemma kind_spec (rtl : bool) l : l <> [] ->
  (match foldl (char_step fl rtl) (Some (0, false, false)) l with
   | None => false
   | Some (final, european, arabic) =>
     negb (negb (has final (if rtl then Z.lor (Z.lor Rtl European) Arabic else Z.lor Ltr European)) || (rtl && european && arabic))
   end = true) <->
  Forall (fun c => allowed rtl (cl c) = true) l /\
  ends_in cl (if rtl then [R_AL; EN; AN] else [L; EN]) l /\
  (rtl = true -> ~ ((exists c, c ∈ l /\ cl c = EN) /\ exists c, c ∈ l /\ cl c = AN)).
Proof.
  intros Hl. pose proof (scan_spec rtl l) as Hs. destruct (foldl _ _ l) as [[[final european] arabic]|]; [|naive_solver].
  pose proof (ends_in_final rtl l final european arabic (if rtl then [R_AL; EN; AN] else [L; EN])
    (if rtl then Z.lor (Z.lor Rtl European) Arabic else Z.lor Ltr European) Hs) as He.
  rewrite negb_true_iff, orb_false_iff, negb_false_iff, He.
  - rewrite <-(sc_en _ _ _ _ _ Hs), <-(sc_an _ _ _ _ _ Hs). pose proof (sc_allowed _ _ _ _ _ Hs).
    destruct rtl, european, arabic; cbn [andb]; naive_solver.
  - destruct rtl; set_solver.
  - intros k. by destruct rtl, k.
Qed.

Lemma label_ok_spec l : label_ok fl l = true <-> l = [] \/ bidi_rule cl l.
Proof.
  destruct l as [|c l]; [cbn; naive_solver|]. unfold label_ok.
  assert (has (fl c) Rtl = bool_decide (cl c = R_AL)) as Er by (rewrite Hfl; by destruct (cl c)).
  assert (has (fl c) Ltr = bool_decide (cl c = L)) as El by (rewrite Hfl; by destruct (cl c)). rewrite Er, El.
  assert (forall rtl : bool, Forall (fun c => allowed rtl (cl c) = true) (c :: l) <->
    Forall (fun c => cl c ∈ (if rtl then [R_AL; AN; EN; Neutral; NSM] else [L; EN; Neutral; NSM])) (c :: l)) as Hall.
  { intros rtl. apply Forall_iff. intros x. rewrite <-(bool_decide_eq_true (cl x ∈ _)). by destruct rtl, (cl x). }
  unfold bidi_rule, rtl_label, ltr_label.
  destruct (bool_decide_reflect (cl c = R_AL)) as [H1|H1]; [|destruct (bool_decide_reflect (cl c = L)) as [H2|H2]]; cbn [negb andb].
  - rewrite (kind_spec true (c :: l)), (Hall true) by done. split.
    + intros (Ha & He & Hn). right; left. split; [by exists c, l|]. auto.
    + intros [?|[(_ & Ha & He & Hn)|((c' & l' & [= <- <-] & Hc) & _)]]; [done|auto|congruence].
  - rewrite (kind_spec false (c :: l)), (Hall false) by done. split.
    + intros (Ha & He & Hn). right; right. split; [by exists c, l|]. auto.
    + intros [?|[((c' & l' & [= <- <-] & Hc) & _)|(_ & Ha & He)]]; [done|congruence|done].
  - split; [done|]. intros [?|[((c' & l' & [= <- <-] & Hc) & _)|((c' & l' & [= <- <-] & Hc) & _)]]; done.
Qed.
End Labels.

(** ** Hosts *)

Section Hosts.
Context (punycode_to_utf32 : list Z -> option (list Z)) (parse : list Z -> option url).
Notation decode := (decode punycode_to_utf32).

(** The reference: the labels of a host, the parts between its dots. *)
Fixpoint labels (host : list Z) : list (list Z) :=
  match host with
  | [] => [[]]
  | x :: host =>
    if x =? dot then [] :: labels host
    else match labels host with [] => [[x]] | l :: ls => (x :: l) :: ls end
  end.

Lemma labels_find l i :
  match find_char dot l i with
  | None => labels l = [l]
  | Some e => i <= e < i + len l /\ labels l = take (Z.to_nat (e - i)) l :: labels (drop (Z.to_nat (e - i + 1)) l)
  end.
Proof.
  revert i. induction l as [|x l IH]; intros i; cbn [find_char labels]; [done|].
  rewrite len_cons. pose proof (len_nonneg l). destruct (x =? dot).
  - split; [lia|]. by rewrite Z.sub_diag.
  - specialize (IH (i + 1)). destruct (find_char dot l (i + 1)) as [e|]; [|by rewrite IH].
    destruct IH as [He IH]. split; [lia|]. rewrite IH.
    replace (Z.to_nat (e - i)) with (S (Z.to_nat (e - (i + 1)))) by lia.
    replace (Z.to_nat (e - i + 1)) with (S (Z.to_nat (e - (i + 1) + 1))) by lia. done.
Qed.

(** A code point of a class that makes a host right-to-left. *)
Definition turns (fl : Z -> Z) (code : Z) : bool := has (fl code) (Z.lor Rtl Arabic).

Lemma turns_fold fl d l : foldl (fun d code => d || has (fl code) (Z.lor Rtl Arabic)) d l = d || existsb (turns fl) l.
Proof.
  revert d. induction l as [|c l IH]; intros d; cbn [foldl existsb]; [by rewrite orb_false_r|]. by rewrite IH, orb_assoc.
Qed.

(** The loop visits every label of the host: it cannot run out of fuel. *)
Lemma collect_spec fl host fuel start ls d : 0 <= start <= len host -> len host - start < Z.of_nat fuel ->
  collect punycode_to_utf32 fl fuel host start ls d =
  ds ← mapM decode (labels (drop (Z.to_nat start) host)); Some (ls ++ ds, d || existsb (turns fl) (concat ds)).
Proof.
  revert start ls d. induction fuel as [|fuel IH]; intros start ls d Hs Hf; cbn [collect]; [lia|].
  rewrite (proj2 (Z.leb_le _ _)) by lia. set (rest := drop (Z.to_nat start) host).
  assert (Hlen : len rest = len host - start) by (unfold rest, len in *; rewrite length_drop; lia).
  pose proof (labels_find rest start) as Hl. destruct (find_char dot rest start) as [e|].
  - destruct Hl as [He ->]. cbn [mapM]. unfold sub. fold rest. destruct (decode _) as [w|]; [|done]. cbn [mbind option_bind].
    rewrite turns_fold, IH by lia. unfold rest at 1. rewrite drop_drop.
    replace (Z.to_nat start + Z.to_nat (e - start + 1))%nat with (Z.to_nat (e + 1)) by lia.
    destruct (mapM decode _) as [ds|]; [|done]. cbn [mbind option_bind mret option_ret concat].
    by rewrite <-app_assoc, existsb_app, orb_assoc.
  - rewrite Hl. cbn [mapM]. unfold sub. fold rest. rewrite take_ge by (unfold len in *; lia).
    destruct (decode _) as [w|]; [|done]. cbn [mbind option_bind mret option_ret concat]. by rewrite turns_fold, app_nil_r.
Qed.

Lemma starts_with_spec p l : starts_with p l = true <-> exists r, l = p ++ r.
Proof.
  revert l. induction p as [|a p IH]; intros l; cbn [starts_with]; [naive_solver|].
  destruct l as [|b l]; [split; [done|intros (r & [=])]|]. rewrite andb_true_iff, Z.eqb_eq, IH. split.
  - intros (-> & r & ->). by exists r.
  - intros (r & [= -> ->]). split; [done|by exists r].
Qed.

Lemma contains_spec p l : contains p l = true <-> exists before after, l = before ++ p ++ after.
Proof.
  induction l as [|b l IH]; cbn [contains]; rewrite orb_true_iff, starts_with_spec.
  - split; [intros [(r & Hr)|?]; [by exists [], r|done]|].
    intros (before & after & Hl). left. symmetry in Hl. apply app_nil in Hl as [_ Hl]. by exists after.
  - rewrite IH. split.
    + intros [(r & Hr)|(before & after & ->)]; [by exists [], r|by exists (b :: before), after].
    + intros ([|x before] & after & Hl); [left; by exists after|]. right. injection Hl as _ ->. by exists before, after.
Qed.

Lemma turns_spec l : existsb (turns bidi_flags) l = true <-> Exists (rtl_char class_of) l.
Proof.
  rewrite existsb_exists, list.Exists_exists. apply exist_proper. intros c. rewrite list_elem_of_In.
  apply and_iff_compat_l. unfold turns, rtl_char. rewrite flags_class.
  destruct (class_of c); (split; [intros E; by auto|intros [?|?]; done]).
Qed.

(** C40. When a host passes.  Either no part of it is an encoded label, or each of
    its labels, the parts between its dots, decodes, and then either no character
    of the decoded labels is right-to-left or an Arabic number, or every decoded
    label that is not empty satisfies the Bidi rule of RFC 5893. *)
Theorem valid_bidi_host_spec host :
  valid_bidi_host punycode_to_utf32 host = true <->
  ~ (exists before after, host = before ++ xn ++ after) \/
  exists decoded, mapM decode (labels host) = Some decoded /\
    (~ Exists (rtl_char class_of) (concat decoded) \/ Forall (fun l => l = [] \/ bidi_rule class_of l) decoded).
Proof.
  rewrite <-contains_spec. unfold valid_bidi_host. destruct (contains xn host); cbn [negb]; [|naive_solver].
  rewrite collect_spec by (pose proof (len_nonneg host); unfold len in *; lia). change (drop (Z.to_nat 0) host) with host.
  destruct (mapM decode (labels host)) as [ds|]; cbn [mbind option_bind app orb].
  2: { split; [|intros [?|(? & ? & _)]]; done. }
  assert (Hl : Forall (fun l => l = [] \/ bidi_rule class_of l) ds <-> forallb (label_ok bidi_flags) ds = true).
  { rewrite forallb_forall, <-List.Forall_forall. apply Forall_iff. intros l. symmetry. apply label_ok_spec, flags_class. }
  pose proof (turns_spec (concat ds)) as Ht. destruct (existsb _ _); cbn [negb]; split.
  - intros Hall. right. exists ds. split; [done|]. right. by apply Hl.
  - intros [?|(ds' & [= <-] & [Hn|Hall])]; [done| |by apply Hl]. destruct Hn. by apply Ht.
  - intros _. right. exists ds. split; [done|]. left. intros E. by apply Ht in E.
  - done.
Qed.

(** What the contract of the entry point asks of its input. *)
Definition contact_origin (input : list Z) : Prop :=
  9 <= len input <= 512 /\ Forall (fun c => 0x21 <= c <= 0x7e) input /\
  exists u, parse input = Some u /\ get_protocol u = https /\ get_origin u = input /\
    valid_bidi_host punycode_to_utf32 (get_hostname u) = true /\
    get_username u = [] /\ get_password u = [] /\ get_pathname u = slash /\ get_search u = [] /\ get_hash u = [].

End Hosts.

(** ** An accepted origin *)

Module Origin.

Definition ascii_of (s : string) : list Z := Z.of_N ∘ Ascii.N_of_ascii <$> String.list_ascii_of_string s.

(** A host with a Hebrew label and its URL, as the parser reads it. *)
Definition host := ascii_of "xn--4dbrk0ce.example".
Definition origin := ascii_of "https://xn--4dbrk0ce.example".
Definition hebrew : list Z := [0x5d9; 0x5e9; 0x5e8; 0x5d0; 0x5dc].

Definition one_label (s : list Z) : option (list Z) :=
  if bool_decide (s = ascii_of "4dbrk0ce") then Some hebrew else None.

Definition one_url (s : list Z) : option url :=
  if bool_decide (s = origin) then Some {|
    get_protocol := https; get_origin := origin; get_hostname := host; get_username := [];
    get_password := []; get_pathname := slash; get_search := []; get_hash := [] |}
  else None.

End Origin.
